(* ===== verification/_CoqProject ===== *)
-Q . S2P
Prelude.v
Memory.v
CString.v
Riscv.v
Machine.v
Spinlock.v
Kalloc.v
Vm.v
Pagetable.v
Uvm.v
UvmCopy.v
UserCopy.v
UserPages.v
VmSpec.v
Sched.v
Demo.v
Sleeplock.v
Dyn.v
Bytes.v
Ring.v
Bio.v
Bcache.v
Log.v
Waiting.v
Dstate.v
Binit.v
LogSpec.v
Crash.v
StorageSpec.v
Fs.v
FsState.v
FsAlloc.v
FsInode.v
FsTable.v
FsFile.v
FsIo.v
FsDir.v
FsTrunc.v
FsUser.v
FsDemo.v
FsSpec.v
FsInodeSpec.v
FsPath.v
Mkfs.v
MkfsFiles.v
MkfsSpec.v
MkfsOk.v
Fsinit.v
Uart.v
Virtio.v
RingBuf.v
Pipe.v
PipeSpec.v
Console.v
ConsoleSpec.v
File.v
FileSpec.v
Proc.v
Exec.v
Sysproc.v
Sysfile.v
Trap.v
Boot.v
User.v
Ulib.v
Uprintf.v
Grep.v
Utils.v
UtilsSpec.v
Heap.v
Umalloc.v
UmallocSpec.v
UmallocOk.v
Sh.v
ShSpec.v
ShParse.v
ShTree.v
ShPrint.v
Programs.v
Grind.v
