(* ===== verification/Prelude.v ===== *)
(** * xv6-riscv in Rocq: a verification development

    The repository is the teaching operating system xv6 for RISC-V: a kernel
    (kernel/), user programs with their library (user/), and the program that
    builds the initial disk image (mkfs/).  This development translates the C
    code into Rocq functions and proves what the parts promise each other.

    ** The parts and how they interact

    A user program runs in its own memory and enters the kernel with [ecall].
    The trap code (kernel/trap.c, syscall.c) dispatches to a system call
    (sysproc.c, sysfile.c), which works on open files (file.c), pipes
    (pipe.c), processes (proc.c, exec.c) and the file system (fs.c).  The file
    system stands on the log (log.c), which makes a system call's block writes
    atomic, the log on the buffer cache (bio.c), and that on the disk driver
    (virtio_disk.c).  Processes own page tables (vm.c) whose pages come from
    the page allocator (kalloc.c).  Locks (spinlock.c, sleeplock.c) and
    sleep/wakeup (proc.c) order what the harts do.  mkfs writes the disk that
    the file system is first mounted from.

    ** How code becomes definitions

    C integers are [Z] with the wrap-around written out ([u8], [u16], [u32],
    [u64], [s16], [s32]).  Physical memory, and the memory of a user process,
    is a finite map from addresses to bytes (Memory); page tables, free lists,
    heap blocks, strings and the shell's syntax trees live in it.  A struct
    of the kernel's headers is a record; the kernel's static data is one
    record [kstate] (Machine).  A function with effects is in the monad [M]
    of this file: it returns ([Ret]), panics ([Panic]), blocks forever
    ([Blocked]) or runs out of fuel ([NoFuel]).  Kernel code is [K := M world]:
    the world has the hart, the kernel state, a trace of device events and a
    schedule of turns, in which the rest of the machine changes the state
    whenever the code sleeps, yields or spins.  User code is [U OS] (User),
    where [OS] is everything behind the class [Kernel]; mkfs is [H] (Mkfs).
    [wpx] is the weakest precondition, which excludes [Panic] and [NoFuel];
    [wp] excludes [Blocked] too, so that a theorem with [wp] says that the
    code returns.

    ** Files of the model

    - Prelude: integers, the monad and its rules, generic lemmas; Memory,
      Bytes: memory and byte arrays; CString: kernel/string.c and the memory
      routines of user/ulib.c; Riscv: param.h, riscv.h, memlayout.h; Machine:
      the records of proc.h, file.h, buf.h, fs.h.
    - Spinlock: spinlock.c; Kalloc: kalloc.c; Vm: vm.c; Sched and Proc: proc.c
      and swtch.S; Sleeplock: sleeplock.c; Bio: bio.c; Log: log.c; Fs: fs.c;
      Uart: uart.c and printf.c; Console: console.c; Virtio: virtio_disk.c;
      Pipe: pipe.c; File: file.c; Exec: exec.c; Sysproc: sysproc.c and the
      arguments of syscall.c; Sysfile: sysfile.c; Trap: trap.c, plic.c and the
      dispatch of syscall.c; Boot: start.c and main.c.
    - User: usys.pl and syscall.h, the boundary; Ulib: ulib.c; Uprintf:
      printf.c; Umalloc: umalloc.c (Heap is the interface to its clients);
      Sh: sh.c; Grep: grep.c; Utils: cat, echo, wc, sixfive, rm, mkdir, ln,
      kill, sleep, zombie; Programs: ls, find, memdump, init, forktest,
      forphan, dorphan, logstress, stressfs; Grind: grind.c.
    - Mkfs: mkfs.c.

    ** What the theorems show

    - Memory (Pagetable, Uvm, UvmCopy, UserCopy, UserPages, VmSpec; Kalloc):
      page tables are finite maps; mapping, growing, copying and freeing an
      address space do exactly what they should, also when memory runs out,
      and no page is lost or shared; the copies between kernel and user memory
      are exact.  The allocator is a stack of pages.
    - Locks (Spinlock): harts interleave as a step relation, and at most one
      owns the lock.
    - Storage (Ring, Bcache, Binit, Dstate, Dyn, StorageSpec, LogSpec, Crash,
      Waiting): the cache refines a map of blocks with an LRU order; a crash
      at any disk write of a commit or of recovery leaves all or none of a
      transaction; begin_op does not wait forever.
    - File system (FsState to FsPath): free map, inodes, files, directories
      and path names, with what is written read back, and nothing else
      changed; reference counts of inodes; FileSpec: a write of any length in
      several transactions, each of bounded size.
    - Devices and pipes (Uart, RingBuf, PipeSpec, ConsoleSpec): pipes and the
      console's line editor as queues, with counters that wrap around.
    - System calls (Sysproc): a lazy sbrk that makes a later copy panic.
    - User level (Uprintf, Grep, UtilsSpec, UmallocSpec, UmallocOk, ShSpec to
      ShPrint, Programs, Grind): printf prints its format; the matcher
      decides its pattern language; malloc and free keep a well-formed heap
      and hand out disjoint blocks; the shell's parser builds the tree of the
      line, and printing and parsing are inverse; do_rand is the generator
      of Park and Miller.  These are proved against the classes [Streams],
      [Malloc] and [Sbrk]; UmallocOk shows that the allocator implements the
      interface the shell uses.
    - mkfs (MkfsFiles, MkfsSpec, MkfsOk): the image is the one that the
      kernel's theorems assume: layout, free map, directory tree, contents.
      Fsinit: fsinit() mounts it, and paths lead to the files' bytes.

    ** Fuel and bounds

    Loops over an index or a list are structural.  A loop that ends for a
    deeper reason has fuel, and the theorems show that the fuel suffices: the
    kernel's copy loops get one unit per page or byte, walks one per level,
    [iappend_loop] one more than the bytes it is given, and loops of the user
    library [fuel] of the class [Fuel], with the theorems asking for more than
    the length of the text they handle.  Loops that wait for the rest of the
    machine use up the schedule and block when it ends; [dev_patience] bounds
    the polling of a device register.  A loop without an end in the source
    (init, grind, forphan) has no theorem that it returns.

    ** What is not modelled

    - The assembly of entry.S, kernelvec.S and trampoline.S, and most of the
      control-register accessors of riscv.h: the model's traps begin and end
      in C.  The translation buffer: sfence.vma has no effect.
    - Code that runs between two instructions of a critical section: a lock
      gives exclusive access, which the step relation of Spinlock justifies
      for one lock, and other processes act only at the turns.
    - The disk as a device: Virtio has the driver with an arbitrary device,
      and the layers above use [disk_rw] of Bio, one atomic block transfer;
      a theorem that relates the two would need a model of the device.
    - A fork of a user program returns once, as parent or as child: two
      processes of one program are two runs.
    - user/usertests.c: tests of the system calls without a state or contract
      of their own; defs.h and user.h: declarations; the build scripts. *)

From Stdlib Require Import ZArith Lia.
From stdpp Require Export prelude strings gmap list.

Global Open Scope Z_scope.

(** ** Machine integers

    C's fixed-width integers are [Z] values together with an explicit
    reduction at each place where the code can wrap. *)

Definition u8 (x : Z) : Z := x mod 2 ^ 8.
Definition u16 (x : Z) : Z := x mod 2 ^ 16.
Definition u32 (x : Z) : Z := x mod 2 ^ 32.
Definition u64 (x : Z) : Z := x mod 2 ^ 64.
Definition s16 (x : Z) : Z := (x + 2 ^ 15) mod 2 ^ 16 - 2 ^ 15.
Definition s32 (x : Z) : Z := (x + 2 ^ 31) mod 2 ^ 32 - 2 ^ 31.

(** The truth value of a C integer. *)
Definition ztrue (x : Z) : bool := negb (x =? 0).

(** The characters of a string literal, without the final NUL. *)
Fixpoint chars (s : string) : list Z :=
  match s with
  | EmptyString => []
  | String c s => Z.of_N (Ascii.N_of_ascii c) :: chars s
  end.

(** The characters of an array up to its first NUL. *)
Fixpoint upto_nul (l : list Z) : list Z :=
  match l with
  | [] => []
  | c :: l => if c =? 0 then [] else c :: upto_nul l
  end.

#[global] Arguments Z.testbit : simpl never.
#[global] Arguments u8 : simpl never.
#[global] Arguments u16 : simpl never.
#[global] Arguments u32 : simpl never.
#[global] Arguments u64 : simpl never.
#[global] Arguments s16 : simpl never.
#[global] Arguments s32 : simpl never.
#[global] Arguments ztrue : simpl never.

(** ** Effects

    Kernel code is translated into a state monad over a world type [W].
    A run of a piece of code ends in one of four ways: it returns, it
    calls [panic], it is asleep (or spinning) with nothing left in the
    schedule that could let it continue, or the fuel given to one of its
    loops was too small.  The last case never occurs in a theorem about a
    result: the theorems show that the fuel in the definitions is enough. *)

Inductive outcome (W A : Type) : Type :=
| Ret (a : A) (w : W)
| Panic (msg : string)
| Blocked (w : W)
| NoFuel.
Arguments Ret {W A} a w.
Arguments Panic {W A} msg.
Arguments Blocked {W A} w.
Arguments NoFuel {W A}.

Definition M (W A : Type) : Type := W -> outcome W A.

#[export] Instance M_ret {W} : MRet (M W) := fun A a w => Ret a w.
#[export] Instance M_bind {W} : MBind (M W) := fun A B k m w =>
  match m w with
  | Ret a w' => k a w'
  | Panic msg => Panic msg
  | Blocked w' => Blocked w'
  | NoFuel => NoFuel
  end.

Definition panic {W A} (msg : string) : M W A := fun _ => Panic msg.
Definition no_fuel {W A} : M W A := fun _ => NoFuel.
Definition get_w {W} : M W W := fun w => Ret w w.
Definition put_w {W} (w' : W) : M W unit := fun _ => Ret tt w'.
Definition gets {W A} (f : W -> A) : M W A := fun w => Ret (f w) w.
Definition modify {W} (f : W -> W) : M W unit := fun w => Ret tt (f w).

(** [when b m]: [if(b) m;] *)
Definition when {W} (b : bool) (m : M W unit) : M W unit :=
  if b then m else mret tt.

(** [for_each l body]: run [body] on the elements of [l] in order. *)
Fixpoint for_each {W A} (l : list A) (body : A -> M W unit) : M W unit :=
  match l with
  | [] => mret tt
  | x :: l => body x ;; for_each l body
  end.

(** [find_each l body]: a loop that stops at the first element for which
    the body returns a value ([return] or [goto] inside a C [for]). *)
Fixpoint find_each {W A B} (l : list A) (body : A -> M W (option B)) : M W (option B) :=
  match l with
  | [] => mret None
  | x :: l =>
      r ← body x;
      match r with
      | Some b => mret (Some b)
      | None => find_each l body
      end
  end.

(** [alter] of a list is an update with the new element. *)
Lemma alter_as_insert {A} (f : A -> A) (l : list A) i x :
  l !! i = Some x -> alter f i l = <[i := f x]> l.
Proof.
  intros H. apply list_eq. intros j. destruct (decide (i = j)) as [<-|Hne].
  - rewrite list_lookup_alter_eq, H. symmetry. apply list_lookup_insert_eq. by eapply lookup_lt_Some.
  - by rewrite list_lookup_alter_ne, list_lookup_insert_ne by done.
Qed.

(** ** Weakest preconditions

    [wpx B m Q w]: running [m] in [w] neither panics nor runs out of fuel;
    if it returns then [Q] holds of the result, and if it is blocked then
    [B] holds of the world it is blocked in.  [wp] is total correctness. *)

Definition wpx {W A} (B : W -> Prop) (m : M W A) (Q : A -> W -> Prop) (w : W) : Prop :=
  match m w with
  | Ret a w' => Q a w'
  | Blocked w' => B w'
  | Panic _ | NoFuel => False
  end.

Abbreviation wp := (wpx (fun _ => False)).

Section wp_rules.
Context {W : Type} (B : W -> Prop).

Lemma wpx_ret {A} (a : A) (Q : A -> W -> Prop) w : Q a w -> wpx B (mret a) Q w.
Proof. done. Qed.

Lemma wpx_bind {A C} (m : M W A) (k : A -> M W C) Q w :
  wpx B m (fun a w' => wpx B (k a) Q w') w -> wpx B (m ≫= k) Q w.
Proof. unfold wpx, mbind, M_bind. by destruct (m w). Qed.

Lemma wpx_mono {A} (m : M W A) (Q Q' : A -> W -> Prop) w :
  wpx B m Q w -> (forall a w', Q a w' -> Q' a w') -> wpx B m Q' w.
Proof. unfold wpx. destruct (m w); auto. Qed.

(** Run a call whose specification is known, then continue. *)
Lemma wpx_call {A C} (m : M W A) (k : A -> M W C) P Q w :
  wpx B m P w -> (forall a w', P a w' -> wpx B (k a) Q w') ->
  wpx B (m ≫= k) Q w.
Proof. intros Hm Hk. by apply wpx_bind, (wpx_mono m P). Qed.

(** Two calls in sequence are one. *)
Lemma wpx_assoc {A C D} (m : M W A) (k : A -> M W C) (k2 : C -> M W D) Q w :
  wpx B ((m ≫= k) ≫= k2) Q w -> wpx B (m ≫= fun a => k a ≫= k2) Q w.
Proof. unfold wpx, mbind, M_bind. by destruct (m w). Qed.

Lemma wpx_gets {A} (f : W -> A) (Q : A -> W -> Prop) w :
  Q (f w) w -> wpx B (gets f) Q w.
Proof. done. Qed.

Lemma wpx_modify (f : W -> W) (Q : unit -> W -> Prop) w :
  Q tt (f w) -> wpx B (modify f) Q w.
Proof. done. Qed.

Lemma wpx_when (b : bool) (m : M W unit) (Q : unit -> W -> Prop) w :
  (b = true -> wpx B m Q w) -> (b = false -> Q tt w) -> wpx B (when b m) Q w.
Proof. intros H1 H2. destruct b; [exact (H1 eq_refl)|exact (H2 eq_refl)]. Qed.

(** Loop rule for [for_each]: the invariant is indexed by what is done. *)
Lemma wpx_for_each {A} (l : list A) (body : A -> M W unit)
    (I : list A -> W -> Prop) (Q : unit -> W -> Prop) w :
  I [] w ->
  (forall l1 x l2 w1, l = l1 ++ x :: l2 -> I l1 w1 ->
     wpx B (body x) (fun _ w2 => I (l1 ++ [x]) w2) w1) ->
  (forall w', I l w' -> Q tt w') ->
  wpx B (for_each l body) Q w.
Proof.
  intros H0 Hstep HQ.
  enough (forall l1 l2 w1, l = l1 ++ l2 -> I l1 w1 -> wpx B (for_each l2 body) Q w1)
    as H by (by apply (H [] l)).
  intros l1 l2; revert l1; induction l2 as [|x l2 IH]; intros l1 w1 Hl HI; simpl.
  - apply wpx_ret, HQ. rewrite app_nil_r in Hl. by subst.
  - eapply wpx_call; [by eapply Hstep|]. intros [] w2 HI2.
    apply (IH (l1 ++ [x])); [by rewrite <-app_assoc | done].
Qed.

(** The counting loop [for(i = 0; i < n; i++)]. *)
Lemma wpx_for_seq (n : nat) (body : nat -> M W unit)
    (I : nat -> W -> Prop) (Q : unit -> W -> Prop) w :
  I 0%nat w ->
  (forall i w1, (i < n)%nat -> I i w1 -> wpx B (body i) (fun _ w2 => I (S i) w2) w1) ->
  (forall w', I n w' -> Q tt w') ->
  wpx B (for_each (seq 0 n) body) Q w.
Proof.
  intros H0 Hstep HQ. apply (wpx_for_each _ _ (fun l w => I (length l) w)); [done| |].
  - intros l1 x l2 w1 Hl HI.
    assert (seq 0 n !! length l1 = Some x) as Hx by (by rewrite Hl, list_lookup_middle).
    apply lookup_seq in Hx. destruct Hx as [-> Hlt]. rewrite length_app, Nat.add_1_r.
    by apply Hstep.
  - intros w'. rewrite length_seq. apply HQ.
Qed.

(** Loop rule for [find_each]: [I] holds while nothing has been found. *)
Lemma wpx_find_each {A C} (l : list A) (body : A -> M W (option C))
    (I : list A -> W -> Prop) (Q : option C -> W -> Prop) w :
  I [] w ->
  (forall l1 x l2 w1, l = l1 ++ x :: l2 -> I l1 w1 ->
     wpx B (body x) (fun r w2 =>
       match r with Some b => Q (Some b) w2 | None => I (l1 ++ [x]) w2 end) w1) ->
  (forall w', I l w' -> Q None w') ->
  wpx B (find_each l body) Q w.
Proof.
  intros H0 Hstep HQ.
  enough (forall l1 l2 w1, l = l1 ++ l2 -> I l1 w1 -> wpx B (find_each l2 body) Q w1)
    as H by (by apply (H [] l)).
  intros l1 l2; revert l1; induction l2 as [|x l2 IH]; intros l1 w1 Hl HI; simpl.
  - apply wpx_ret, HQ. rewrite app_nil_r in Hl. by subst.
  - eapply wpx_call; [by eapply Hstep|]. intros [b|] w2 HI2; [done|].
    apply (IH (l1 ++ [x])); [by rewrite <-app_assoc | done].
Qed.

(** The counting loop [for(i = m; i < m + n; i++)] with an early exit. *)
Lemma wpx_find_seq {C} (m n : nat) (body : nat -> M W (option C))
    (I : nat -> W -> Prop) (Q : option C -> W -> Prop) w :
  I m w ->
  (forall i w1, (m <= i < m + n)%nat -> I i w1 -> wpx B (body i) (fun r w2 =>
     match r with Some b => Q (Some b) w2 | None => I (S i) w2 end) w1) ->
  (forall w', I (m + n)%nat w' -> Q None w') ->
  wpx B (find_each (seq m n) body) Q w.
Proof.
  intros H0 Hstep HQ. apply (wpx_find_each _ _ (fun l w => I (m + length l)%nat w)).
  - by rewrite Nat.add_0_r.
  - intros l1 x l2 w1 Hl HI.
    assert (seq m n !! length l1 = Some x) as Hx by (by rewrite Hl, list_lookup_middle).
    apply lookup_seq in Hx. destruct Hx as [-> Hlt]. rewrite length_app, Nat.add_1_r, Nat.add_succ_r.
    apply Hstep; [lia|done].
  - intros w'. rewrite length_seq. apply HQ.
Qed.
End wp_rules.

(** A weakest precondition with a determined result is the run itself. *)
Lemma wpx_run {W A} (B : W -> Prop) (m : M W A) Q w :
  wpx B m Q w -> (forall w', ~ B w') -> exists a w', m w = Ret a w' /\ Q a w'.
Proof. unfold wpx. destruct (m w); naive_solver. Qed.

Lemma wp_run {W A} (m : M W A) Q w :
  wp m Q w -> exists a w', m w = Ret a w' /\ Q a w'.
Proof. intros H. eapply wpx_run; [exact H | auto]. Qed.

(** A specification that names the result gives the run. *)
Lemma wp_det {W A} (m : M W A) w a w' :
  wp m (fun x y => x = a /\ y = w') w -> m w = Ret a w'.
Proof. intros (x & y & E & -> & ->)%wp_run. done. Qed.

Lemma run_wp {W A} B (m : M W A) (Q : A -> W -> Prop) w a w' :
  m w = Ret a w' -> Q a w' -> wpx B m Q w.
Proof. unfold wpx. by intros ->. Qed.

Lemma bind_run {W A C} (m : M W A) (k : A -> M W C) w a w' :
  m w = Ret a w' -> (m ≫= k) w = k a w'.
Proof. unfold mbind, M_bind. by intros ->. Qed.

Lemma bind_panic {W A C} (m : M W A) (k : A -> M W C) w msg :
  m w = Panic msg -> (m ≫= k) w = Panic msg.
Proof. unfold mbind, M_bind. by intros ->. Qed.

(** One step of symbolic execution of a weakest precondition. *)
Ltac wstep :=
  lazymatch goal with
  | |- wpx _ (mbind _ _) _ _ => apply wpx_bind
  | |- wpx _ (mret _) _ _ => apply wpx_ret
  | |- wpx _ (gets _) _ _ => apply wpx_gets
  | |- wpx _ (modify _) _ _ => apply wpx_modify
  | |- wpx _ (when _ _) _ _ => apply wpx_when; intros ?
  | |- wpx _ (if ?b then _ else _) _ _ => let E := fresh "E" in destruct b eqn:E
  end; cbn beta.
Ltac wsteps := repeat wstep.

(** Continue after a call whose specification is the lemma [H]. *)
Tactic Notation "wcall" uconstr(H) := eapply wpx_call; [eapply H|cbn beta].

(** ** Arithmetic *)

(** Linear arithmetic with division and remainder. *)
Ltac dlia := Z.to_euclidean_division_equations; lia.

Lemma u8_range x : 0 <= u8 x < 2 ^ 8.
Proof. apply Z.mod_pos_bound. lia. Qed.
Lemma u32_range x : 0 <= u32 x < 2 ^ 32.
Proof. apply Z.mod_pos_bound. lia. Qed.
Lemma u64_range x : 0 <= u64 x < 2 ^ 64.
Proof. apply Z.mod_pos_bound. lia. Qed.
Lemma u8_small x : 0 <= x < 2 ^ 8 -> u8 x = x.
Proof. apply Z.mod_small. Qed.
Lemma u32_small x : 0 <= x < 2 ^ 32 -> u32 x = x.
Proof. apply Z.mod_small. Qed.
Lemma u64_small x : 0 <= x < 2 ^ 64 -> u64 x = x.
Proof. apply Z.mod_small. Qed.
Lemma s32_small x : - 2 ^ 31 <= x < 2 ^ 31 -> s32 x = x.
Proof. intros H. unfold s32. rewrite Z.mod_small; lia. Qed.

Lemma ztrue_true x : ztrue x = true <-> x <> 0.
Proof. unfold ztrue. destruct (Z.eqb_spec x 0); naive_solver. Qed.
Lemma ztrue_false x : ztrue x = false <-> x = 0.
Proof. unfold ztrue. destruct (Z.eqb_spec x 0); naive_solver. Qed.

(** [x & ~(2^n - 1)] rounds down to a multiple of [2^n]. *)
Lemma land_lnot_ones x n :
  0 <= n -> Z.land x (Z.lnot (Z.ones n)) = 2 ^ n * (x / 2 ^ n).
Proof.
  intros Hn. rewrite <-Z.ldiff_land, Z.ldiff_ones_r by done.
  rewrite Z.shiftl_mul_pow2, Z.shiftr_div_pow2 by done. ring.
Qed.

(** A single-bit mask tests that bit. *)
Lemma land_pow2_testbit x n :
  0 <= n -> Z.land x (2 ^ n) = if Z.testbit x n then 2 ^ n else 0.
Proof.
  intros Hn. apply Z.bits_inj'. intros m Hm.
  rewrite Z.land_spec, Z.pow2_bits_eqb by done.
  destruct (Z.eqb_spec n m) as [->|Hne].
  - rewrite andb_true_r. destruct (Z.testbit x m); [by rewrite Z.pow2_bits_true|].
    by rewrite Z.bits_0.
  - rewrite andb_false_r. destruct (Z.testbit x n); [|by rewrite Z.bits_0].
    by rewrite Z.pow2_bits_false.
Qed.

Lemma lor_range a b n :
  0 <= n -> 0 <= a < 2 ^ n -> 0 <= b < 2 ^ n -> 0 <= Z.lor a b < 2 ^ n.
Proof.
  intros Hn Ha Hb. split; [apply Z.lor_nonneg; lia|].
  rewrite <-(Z.mod_small a (2 ^ n)), <-(Z.mod_small b (2 ^ n)), <-!Z.land_ones by lia.
  rewrite <-Z.land_lor_distr_l, Z.land_ones by lia. apply Z.mod_pos_bound. lia.
Qed.

Lemma lor_disjoint_add a b n :
  0 <= n -> 0 <= b < 2 ^ n -> a mod 2 ^ n = 0 -> Z.lor a b = a + b.
Proof.
  intros Hn Hb Ha. rewrite <-Z.add_lor_land.
  enough (Z.land a b = 0) as -> by lia.
  apply Z.bits_inj'. intros m Hm. rewrite Z.land_spec, Z.bits_0.
  destruct (Z.lt_ge_cases m n).
  - rewrite <-(Z.mod_pow2_bits_low a n m) by lia. by rewrite Ha, Z.bits_0.
  - rewrite <-(Z.mod_small b (2 ^ n)) by done.
    rewrite Z.mod_pow2_bits_high by lia. by rewrite andb_false_r.
Qed.

(** ** Lists *)

(** The first index at which [f] holds: the usual linear scan of a table. *)
Fixpoint find_index {A} (f : A -> bool) (l : list A) : option nat :=
  match l with
  | [] => None
  | x :: l => if f x then Some 0%nat else S <$> find_index f l
  end.

Lemma find_index_Some {A} (f : A -> bool) l i :
  find_index f l = Some i ->
  exists x, l !! i = Some x /\ f x = true /\
    forall j y, (j < i)%nat -> l !! j = Some y -> f y = false.
Proof.
  revert i; induction l as [|x l IH]; intros i; simpl; [done|].
  destruct (f x) eqn:Hf; simpl.
  - intros [= <-]. exists x. split_and!; [done..|]. intros; lia.
  - destruct (find_index f l) as [k|]; simpl; [|done]. intros [= <-].
    destruct (IH k) as (y & ? & ? & Hlt); [done|].
    exists y. split_and!; [done..|]. intros [|j] z ? Hz; simplify_eq/=; [done|].
    eapply Hlt; [|done]. lia.
Qed.

Lemma find_index_None {A} (f : A -> bool) l :
  find_index f l = None <-> forall i x, l !! i = Some x -> f x = false.
Proof.
  induction l as [|x l IH]; simpl; [naive_solver|].
  destruct (f x) eqn:Hf; simpl.
  - split; [done|]. intros H. specialize (H 0%nat x eq_refl). congruence.
  - rewrite fmap_None, IH. split; intros H.
    + intros [|i] y Hy; simplify_eq/=; eauto.
    + intros i y Hy. apply (H (S i) y Hy).
Qed.
