(* ===== verification/Memory.v ===== *)
(** * Byte-addressed memory

    Physical memory is a finite map from addresses to bytes; an address
    that was never written reads as zero.  C's 32- and 64-bit accesses are
    little-endian, as on RISC-V. *)

From S2P Require Import Prelude.

Abbreviation memory := (gmap Z Z).

Definition mget (m : memory) (a : Z) : Z := default 0 (m !! a).
Definition mput (m : memory) (a v : Z) : memory := <[a := u8 v]> m.

Fixpoint le_load (n : nat) (m : memory) (a : Z) : Z :=
  match n with
  | O => 0
  | S n => mget m a + 2 ^ 8 * le_load n m (a + 1)
  end.

Fixpoint le_store (n : nat) (m : memory) (a v : Z) : memory :=
  match n with
  | O => m
  | S n => le_store n (mput m a v) (a + 1) (v / 2 ^ 8)
  end.

Definition load32 := le_load 4.
Definition store32 := le_store 4.
Definition load64 := le_load 8.
Definition store64 := le_store 8.

#[global] Arguments load32 : simpl never.
#[global] Arguments store32 : simpl never.
#[global] Arguments load64 : simpl never.
#[global] Arguments store64 : simpl never.
#[global] Arguments mget : simpl never.
#[global] Arguments mput : simpl never.

(** [n] bytes from address [a], and a list of bytes written at [a]. *)
Fixpoint read_bytes (n : nat) (m : memory) (a : Z) : list Z :=
  match n with
  | O => []
  | S n => mget m a :: read_bytes n m (a + 1)
  end.

Fixpoint write_bytes (m : memory) (a : Z) (l : list Z) : memory :=
  match l with
  | [] => m
  | v :: l => write_bytes (mput m a v) (a + 1) l
  end.

(** Every cell holds a byte. *)
Definition mem_ok (m : memory) : Prop := forall a, 0 <= mget m a < 2 ^ 8.

(** Two memories agree on the [n] bytes from [a]. *)
Definition mem_agree (m m' : memory) (a n : Z) : Prop :=
  forall x, a <= x < a + n -> mget m x = mget m' x.

Lemma mget_empty a : mget ∅ a = 0.
Proof. unfold mget. by rewrite lookup_empty. Qed.

Lemma mget_mput m a v x : mget (mput m a v) x = if decide (a = x) then u8 v else mget m x.
Proof. unfold mget, mput. rewrite lookup_insert. by case_decide. Qed.

Lemma mget_mput_eq m a v : mget (mput m a v) a = u8 v.
Proof. rewrite mget_mput. by case_decide. Qed.

Lemma mget_mput_ne m a v x : a <> x -> mget (mput m a v) x = mget m x.
Proof. intros. rewrite mget_mput. by case_decide. Qed.

Lemma mem_ok_empty : mem_ok ∅.
Proof. intros a. rewrite mget_empty. lia. Qed.

Lemma mem_ok_mput m a v : mem_ok m -> mem_ok (mput m a v).
Proof. intros H x. rewrite mget_mput. case_decide; [apply u8_range | apply H]. Qed.

Lemma mem_ok_le_store n m a v : mem_ok m -> mem_ok (le_store n m a v).
Proof.
  revert m a v; induction n as [|n IH]; intros m a v H; simpl; [done|].
  by apply IH, mem_ok_mput.
Qed.

Lemma mem_ok_write_bytes l m a : mem_ok m -> mem_ok (write_bytes m a l).
Proof.
  revert m a; induction l as [|v l IH]; intros m a H; simpl; [done|].
  by apply IH, mem_ok_mput.
Qed.

Lemma mget_le_store_out n m a v x :
  x < a \/ a + Z.of_nat n <= x -> mget (le_store n m a v) x = mget m x.
Proof.
  revert m a v; induction n as [|n IH]; intros m a v H; simpl; [done|].
  rewrite IH by lia. apply mget_mput_ne. lia.
Qed.

Lemma mget_write_bytes_out l m a x :
  x < a \/ a + Z.of_nat (length l) <= x -> mget (write_bytes m a l) x = mget m x.
Proof.
  revert m a; induction l as [|v l IH]; intros m a H; simpl in *; [done|].
  rewrite IH by lia. apply mget_mput_ne. lia.
Qed.

Lemma mget_write_bytes_in l m a i v :
  l !! i = Some v -> mget (write_bytes m a l) (a + Z.of_nat i) = u8 v.
Proof.
  revert m a i; induction l as [|u l IH]; intros m a i H; simpl in *; [done|].
  destruct i as [|i]; simplify_eq/=.
  - rewrite mget_write_bytes_out by lia. rewrite Z.add_0_r. apply mget_mput_eq.
  - replace (a + Z.of_nat (S i)) with (a + 1 + Z.of_nat i) by lia. by apply IH.
Qed.

Lemma le_load_ext n m m' a : mem_agree m m' a (Z.of_nat n) -> le_load n m a = le_load n m' a.
Proof.
  revert a; induction n as [|n IH]; intros a H; simpl; [done|].
  rewrite (H a) by lia. f_equal. f_equal. apply IH. intros x Hx. apply H. lia.
Qed.

Lemma le_load_range n m a : mem_ok m -> 0 <= le_load n m a < 2 ^ (8 * Z.of_nat n).
Proof.
  intros Hm. revert a; induction n as [|n IH]; intros a; simpl; [lia|].
  specialize (IH (a + 1)). specialize (Hm a).
  replace (8 * Z.of_nat (S n)) with (8 + 8 * Z.of_nat n) by lia.
  rewrite Z.pow_add_r by lia. lia.
Qed.

Lemma le_load_store n m a v :
  le_load n (le_store n m a v) a = v mod 2 ^ (8 * Z.of_nat n).
Proof.
  revert m a v; induction n as [|n IH]; intros m a v; [by rewrite Z.mod_1_r|].
  cbn [le_load le_store].
  rewrite mget_le_store_out by lia. rewrite mget_mput_eq, IH. unfold u8.
  replace (8 * Z.of_nat (S n)) with (8 + 8 * Z.of_nat n) by lia.
  rewrite Z.pow_add_r by lia. rewrite Z.rem_mul_r by lia. done.
Qed.

Lemma le_load_store_out n k m a v x :
  x + Z.of_nat n <= a \/ a + Z.of_nat k <= x ->
  le_load n (le_store k m a v) x = le_load n m x.
Proof. intros H. apply le_load_ext. intros y Hy. apply mget_le_store_out. lia. Qed.

Lemma le_load_zero n m a : (forall x, a <= x < a + Z.of_nat n -> mget m x = 0) -> le_load n m a = 0.
Proof.
  revert a; induction n as [|n IH]; intros a H; simpl; [done|].
  rewrite H by lia. rewrite IH; [done|]. intros x Hx. apply H. lia.
Qed.

Lemma load64_store64 m a v : 0 <= v < 2 ^ 64 -> load64 (store64 m a v) a = v.
Proof. intros H. unfold load64, store64. rewrite le_load_store. by apply Z.mod_small. Qed.

Lemma load64_store64_out m a v x :
  x + 8 <= a \/ a + 8 <= x -> load64 (store64 m a v) x = load64 m x.
Proof. intros. apply le_load_store_out. lia. Qed.

Lemma load64_range m a : mem_ok m -> 0 <= load64 m a < 2 ^ 64.
Proof. intros H. apply (le_load_range 8 m a H). Qed.

Lemma mget_store64_out m a v x : x < a \/ a + 8 <= x -> mget (store64 m a v) x = mget m x.
Proof. intros. apply mget_le_store_out. lia. Qed.

Lemma load64_ext m m' a : mem_agree m m' a 8 -> load64 m a = load64 m' a.
Proof. apply (le_load_ext 8). Qed.

Lemma mem_ok_store64 m a v : mem_ok m -> mem_ok (store64 m a v).
Proof. apply mem_ok_le_store. Qed.

Lemma load32_store32 m a v : 0 <= v < 2 ^ 32 -> load32 (store32 m a v) a = v.
Proof. intros H. unfold load32, store32. rewrite le_load_store. by apply Z.mod_small. Qed.

Lemma load32_store32_out m a v x :
  x + 4 <= a \/ a + 4 <= x -> load32 (store32 m a v) x = load32 m x.
Proof. intros. apply le_load_store_out. lia. Qed.

Lemma load64_store32_out m a v x :
  x + 8 <= a \/ a + 4 <= x -> load64 (store32 m a v) x = load64 m x.
Proof. intros. apply le_load_store_out. lia. Qed.

Lemma mget_store32_out m a v x : x < a \/ a + 4 <= x -> mget (store32 m a v) x = mget m x.
Proof. intros. apply mget_le_store_out. lia. Qed.

Lemma load32_ext m m' a : mem_agree m m' a 4 -> load32 m a = load32 m' a.
Proof. apply (le_load_ext 4). Qed.

Lemma mem_ok_store32 m a v : mem_ok m -> mem_ok (store32 m a v).
Proof. apply mem_ok_le_store. Qed.

Lemma length_read_bytes n m a : length (read_bytes n m a) = n.
Proof. revert a; induction n as [|n IH]; intros a; simpl; [done|]. by rewrite IH. Qed.

Lemma lookup_read_bytes n m a i :
  (i < n)%nat -> read_bytes n m a !! i = Some (mget m (a + Z.of_nat i)).
Proof.
  revert a i; induction n as [|n IH]; intros a i H; simpl; [lia|].
  destruct i as [|i]; simpl; [by rewrite Z.add_0_r|].
  rewrite IH by lia. do 2 f_equal. lia.
Qed.

Lemma read_bytes_ext n m m' a :
  mem_agree m m' a (Z.of_nat n) -> read_bytes n m a = read_bytes n m' a.
Proof.
  revert a; induction n as [|n IH]; intros a H; simpl; [done|].
  f_equal; [apply H; lia|]. apply IH. intros x Hx. apply H. lia.
Qed.

(** Round trip of a byte string through memory. *)
Lemma read_write_bytes l m a :
  Forall (fun v => 0 <= v < 2 ^ 8) l ->
  read_bytes (length l) (write_bytes m a l) a = l.
Proof.
  intros Hl. apply list_eq. intros i.
  destruct (decide (i < length l)%nat) as [Hi|Hi].
  - destruct (lookup_lt_is_Some_2 _ _ Hi) as [v Hv].
    rewrite lookup_read_bytes by done.
    rewrite (mget_write_bytes_in l m a i v) by done.
    rewrite Hv. f_equal. apply u8_small. by eapply Forall_lookup_1 in Hl.
  - rewrite !lookup_ge_None_2; [done|lia|]. rewrite length_read_bytes. lia.
Qed.

Create HintDb mem.
#[export] Hint Resolve mem_ok_empty mem_ok_mput mem_ok_le_store mem_ok_store64
  mem_ok_write_bytes : mem.

(** Keep unification from running the loops. *)
Global Opaque load64 store64 load32 store32.
