(* ===== verification/CString.v ===== *)
(** * Memory and string routines: kernel/string.c and user/ulib.c

    Each routine is the C loop, running on byte-addressed memory; [char]
    is unsigned on RISC-V.  A C string in memory is described by [cstr]. *)

From S2P Require Import Prelude Memory.

(** ** kernel/string.c *)

(** [for(i = 0; i < n; i++) cdst[i] = c;] *)
Fixpoint memset_loop (k : nat) (m : memory) (cdst c i : Z) : memory :=
  match k with
  | O => m
  | S k => memset_loop k (mput m (cdst + i) c) cdst c (i + 1)
  end.

Definition memset (m : memory) (dst c n : Z) : memory :=
  memset_loop (Z.to_nat n) m dst c 0.

#[global] Arguments memset : simpl never.

(** [while(n-- > 0){ if( *s1 != *s2) return *s1 - *s2; s1++, s2++; } return 0;] *)
Fixpoint memcmp_loop (n : nat) (m : memory) (s1 s2 : Z) : Z :=
  match n with
  | O => 0
  | S n =>
      if negb (mget m s1 =? mget m s2) then mget m s1 - mget m s2
      else memcmp_loop n m (s1 + 1) (s2 + 1)
  end.

Definition memcmp (m : memory) (v1 v2 n : Z) : Z := memcmp_loop (Z.to_nat n) m v1 v2.

(** [while(n-- > 0) *--d = *--s;] *)
Fixpoint copy_down (n : nat) (m : memory) (d s : Z) : memory :=
  match n with
  | O => m
  | S n => copy_down n (mput m (d - 1) (mget m (s - 1))) (d - 1) (s - 1)
  end.

(** [while(n-- > 0) *d++ = *s++;] *)
Fixpoint copy_up (n : nat) (m : memory) (d s : Z) : memory :=
  match n with
  | O => m
  | S n => copy_up n (mput m d (mget m s)) (d + 1) (s + 1)
  end.

Definition memmove (m : memory) (dst src n : Z) : memory :=
  if n =? 0 then m
  else if (src <? dst) && (dst <? src + n)
  then copy_down (Z.to_nat n) m (dst + n) (src + n)
  else copy_up (Z.to_nat n) m dst src.

#[global] Arguments memmove : simpl never.

Definition memcpy (m : memory) (dst src n : Z) : memory := memmove m dst src n.

(** [while(n > 0 && *p && *p == *q) n--, p++, q++;] and the final comparison. *)
Fixpoint strncmp_loop (n : nat) (m : memory) (p q : Z) : Z :=
  match n with
  | O => 0
  | S n' =>
      if ztrue (mget m p) && (mget m p =? mget m q)
      then strncmp_loop n' m (p + 1) (q + 1)
      else mget m p - mget m q
  end.

Definition strncmp (m : memory) (p q n : Z) : Z := strncmp_loop (Z.to_nat n) m p q.

(** [while(n-- > 0 && ( *s++ = *t++) != 0);]: the memory, the final [s] and
    what is left of [n] when a NUL was copied ([0] when [n] ran out). *)
Fixpoint strncpy_copy (n : nat) (m : memory) (s t : Z) : memory * Z * nat :=
  match n with
  | O => (m, s, O)
  | S n =>
      let m' := mput m s (mget m t) in
      if ztrue (mget m t) then strncpy_copy n m' (s + 1) (t + 1)
      else (m', s + 1, n)
  end.

(** [while(n-- > 0) *s++ = 0;] *)
Fixpoint strncpy_pad (n : nat) (m : memory) (s : Z) : memory :=
  match n with
  | O => m
  | S n => strncpy_pad n (mput m s 0) (s + 1)
  end.

Definition strncpy (m : memory) (s t n : Z) : memory :=
  let '(m', s', n') := strncpy_copy (Z.to_nat n) m s t in strncpy_pad n' m' s'.

(** [while(--n > 0 && ( *s++ = *t++) != 0);]: the memory and the final [s]. *)
Fixpoint safestrcpy_copy (n : nat) (m : memory) (s t : Z) : memory * Z :=
  match n with
  | O => (m, s)
  | S n =>
      let m' := mput m s (mget m t) in
      if ztrue (mget m t) then safestrcpy_copy n m' (s + 1) (t + 1)
      else (m', s + 1)
  end.

Definition safestrcpy (m : memory) (s t n : Z) : memory :=
  if n <=? 0 then m
  else
    let '(m', s') := safestrcpy_copy (Z.to_nat (n - 1)) m s t in mput m' s' 0.

(** [for(n = 0; s[n]; n++);] with [fuel] iterations at most. *)
Fixpoint strlen_loop (fuel : nat) (m : memory) (s n : Z) : option Z :=
  match fuel with
  | O => None
  | S fuel => if ztrue (mget m (s + n)) then strlen_loop fuel m s (n + 1) else Some n
  end.

Definition strlen (fuel : nat) (m : memory) (s : Z) : option Z := strlen_loop fuel m s 0.

(** ** user/ulib.c *)

(** [while(( *s++ = *t++) != 0);] *)
Fixpoint strcpy (fuel : nat) (m : memory) (s t : Z) : option memory :=
  match fuel with
  | O => None
  | S fuel =>
      let m' := mput m s (mget m t) in
      if ztrue (mget m t) then strcpy fuel m' (s + 1) (t + 1) else Some m'
  end.

Definition umemmove (m : memory) (vdst vsrc n : Z) : memory :=
  if vdst <? vsrc then copy_up (Z.to_nat n) m vdst vsrc
  else copy_down (Z.to_nat n) m (vdst + n) (vsrc + n).

Definition umemset (m : memory) (dst c n : Z) : memory :=
  memset_loop (Z.to_nat n) m dst c 0.

Fixpoint umemcmp_loop (n : nat) (m : memory) (p1 p2 : Z) : Z :=
  match n with
  | O => 0
  | S n =>
      if negb (mget m p1 =? mget m p2) then mget m p1 - mget m p2
      else umemcmp_loop n m (p1 + 1) (p2 + 1)
  end.

Definition umemcmp (m : memory) (s1 s2 n : Z) : Z := umemcmp_loop (Z.to_nat n) m s1 s2.

(** ** Specifications *)

(** The NUL-terminated string [l] is at address [a]. *)
Definition cstr (m : memory) (a : Z) (l : list Z) : Prop :=
  (forall i v, l !! i = Some v -> mget m (a + Z.of_nat i) = v /\ v <> 0) /\
  mget m (a + Z.of_nat (length l)) = 0.

(** Reference semantics of copying [n] bytes from [src] to [dst]: every
    destination byte is the source byte as it was before the copy. *)
Definition copied (m m' : memory) (dst src n : Z) : Prop :=
  forall x, mget m' x = if decide (dst <= x < dst + n) then mget m (src + (x - dst)) else mget m x.

Lemma mget_memset_loop k m cdst c i x :
  mget (memset_loop k m cdst c i) x =
  if decide (cdst + i <= x < cdst + i + Z.of_nat k) then u8 c else mget m x.
Proof.
  revert m i; induction k as [|k IH]; intros m i; simpl.
  - case_decide; [lia|done].
  - rewrite IH, mget_mput. repeat case_decide; try done; lia.
Qed.

Lemma mget_memset m dst c n x :
  0 <= n ->
  mget (memset m dst c n) x = if decide (dst <= x < dst + n) then u8 c else mget m x.
Proof.
  intros Hn. unfold memset. rewrite mget_memset_loop, Z2Nat.id, Z.add_0_r by done. done.
Qed.

Lemma mem_ok_memset m dst c n : mem_ok m -> mem_ok (memset m dst c n).
Proof.
  intros H x. unfold memset. rewrite mget_memset_loop. case_decide; [apply u8_range|apply H].
Qed.

Lemma copy_up_spec n m d s :
  mem_ok m -> d <= s \/ s + Z.of_nat n <= d -> copied m (copy_up n m d s) d s (Z.of_nat n).
Proof.
  revert m d s; induction n as [|n IH]; intros m d s Hm Hd x; cbn [copy_up].
  - case_decide; [lia|done].
  - assert (Hv : u8 (mget m s) = mget m s) by apply u8_small, Hm.
    destruct Hd as [Hd|Hd].
    + rewrite (IH _ (d + 1) (s + 1)) by (auto with mem || lia).
      rewrite !mget_mput. repeat case_decide; try lia; try done.
      * f_equal. lia.
      * subst. rewrite Hv. f_equal. lia.
    + rewrite (IH _ (d + 1) (s + 1)) by (auto with mem || lia).
      rewrite !mget_mput. repeat case_decide; try lia; try done.
      * f_equal. lia.
      * subst. rewrite Hv. f_equal. lia.
Qed.

Lemma copy_down_spec n m d s :
  mem_ok m -> s <= d \/ d + Z.of_nat n <= s ->
  copied m (copy_down n m (d + Z.of_nat n) (s + Z.of_nat n)) d s (Z.of_nat n).
Proof.
  revert m d s; induction n as [|n IH]; intros m d s Hm Hd x; cbn [copy_down].
  - case_decide; [lia|done].
  - replace (d + Z.of_nat (S n) - 1) with (d + Z.of_nat n) by lia.
    replace (s + Z.of_nat (S n) - 1) with (s + Z.of_nat n) by lia.
    assert (Hv : u8 (mget m (s + Z.of_nat n)) = mget m (s + Z.of_nat n))
      by apply u8_small, Hm.
    rewrite IH by (auto with mem || lia).
    rewrite !mget_mput. repeat case_decide; try lia; try done.
    subst. rewrite Hv. f_equal. lia.
Qed.

Lemma memmove_copied m dst src n :
  mem_ok m -> 0 <= n -> copied m (memmove m dst src n) dst src n.
Proof.
  intros Hm Hn. unfold memmove.
  destruct (Z.eqb_spec n 0) as [->|Hn0]; [intros x; case_decide; [lia|done]|].
  rewrite <-(Z2Nat.id n) at 3 4 5 by done.
  destruct (Z.ltb_spec src dst), (Z.ltb_spec dst (src + n)); simpl;
    first [apply copy_down_spec | apply copy_up_spec]; auto; lia.
Qed.

Lemma mem_ok_copied m m' d s n : mem_ok m -> copied m m' d s n -> mem_ok m'.
Proof. intros Hm H x. rewrite H. case_decide; apply Hm. Qed.

Lemma mem_ok_memmove m d s n : mem_ok m -> 0 <= n -> mem_ok (memmove m d s n).
Proof. intros Hm Hn. eapply mem_ok_copied; [done|]. by apply memmove_copied. Qed.

#[export] Hint Resolve mem_ok_memset mem_ok_memmove : mem.

(** [memmove] copies correctly for every overlap of source and
    destination, and leaves every byte outside the destination alone. *)
Theorem memmove_correct m dst src n :
  mem_ok m -> 0 <= n ->
  forall x, mget (memmove m dst src n) x =
    if decide (dst <= x < dst + n) then mget m (src + (x - dst)) else mget m x.
Proof. apply memmove_copied. Qed.

(** The string at [a], cut at its NUL and to at most [n] bytes. *)
Fixpoint str_upto (n : nat) (m : memory) (a : Z) : list Z :=
  match n with
  | O => []
  | S n => if ztrue (mget m a) then mget m a :: str_upto n m (a + 1) else []
  end.

Lemma length_str_upto n m a : (length (str_upto n m a) <= n)%nat.
Proof.
  revert a; induction n as [|n IH]; intros a; simpl; [lia|].
  destruct (ztrue _); simpl; [|lia]. specialize (IH (a + 1)). lia.
Qed.

Lemma str_upto_ext n m m' a :
  mem_agree m m' a (Z.of_nat n) -> str_upto n m a = str_upto n m' a.
Proof.
  revert a; induction n as [|n IH]; intros a H; cbn [str_upto]; [done|].
  rewrite (H a) by lia. rewrite (IH (a + 1)); [done|]. intros x Hx. apply H. lia.
Qed.

Lemma str_upto_cstr n m a l :
  cstr m a l -> (length l <= n)%nat -> str_upto n m a = l.
Proof.
  revert n a; induction l as [|v l IH]; intros n a [Hl H0] Hn.
  - simpl in H0. rewrite Z.add_0_r in H0. destruct n; simpl; [done|]. by rewrite H0.
  - destruct n as [|n]; simpl in Hn; [lia|]. cbn [str_upto].
    destruct (Hl 0%nat v eq_refl) as [Hv Hnz]. rewrite Z.add_0_r in Hv. rewrite Hv.
    rewrite (proj2 (ztrue_true v) Hnz). f_equal. apply IH; [|lia]. split.
    + intros i u Hi. specialize (Hl (S i) u Hi).
      by replace (a + 1 + Z.of_nat i) with (a + Z.of_nat (S i)) by lia.
    + simpl in H0. by replace (a + 1 + Z.of_nat (length l)) with (a + Z.of_nat (S (length l))) by lia.
Qed.

Lemma str_upto_lookup n m a i v :
  str_upto n m a !! i = Some v -> mget m (a + Z.of_nat i) = v /\ v <> 0.
Proof.
  revert a i; induction n as [|n IH]; intros a i; cbn [str_upto]; [done|].
  destruct (ztrue (mget m a)) eqn:Hz; [|done].
  destruct i as [|i]; intros [=].
  - subst. rewrite Z.add_0_r. split; [done|]. by apply ztrue_true.
  - replace (a + Z.of_nat (S i)) with (a + 1 + Z.of_nat i) by lia. by apply IH.
Qed.

Lemma str_upto_end n m a :
  (length (str_upto n m a) < n)%nat ->
  mget m (a + Z.of_nat (length (str_upto n m a))) = 0.
Proof.
  revert a; induction n as [|n IH]; intros a; cbn [str_upto]; [simpl; lia|].
  destruct (ztrue (mget m a)) eqn:Hz; simpl; intros H.
  - replace (a + Z.of_nat (S (length (str_upto n m (a + 1)))))
      with (a + 1 + Z.of_nat (length (str_upto n m (a + 1)))) by lia.
    apply IH. lia.
  - rewrite Z.add_0_r. by apply ztrue_false.
Qed.

Lemma memcmp_loop_zero n m s1 s2 :
  memcmp_loop n m s1 s2 = 0 <-> read_bytes n m s1 = read_bytes n m s2.
Proof.
  revert s1 s2; induction n as [|n IH]; intros s1 s2; cbn [memcmp_loop read_bytes]; [done|].
  destruct (Z.eqb_spec (mget m s1) (mget m s2)) as [E|E]; simpl.
  - rewrite IH, E. split; [by intros ->|by intros [=]].
  - split; [lia|]. intros [=]; lia.
Qed.

Lemma umemcmp_loop_eq n m s1 s2 : umemcmp_loop n m s1 s2 = memcmp_loop n m s1 s2.
Proof.
  revert s1 s2; induction n as [|n IH]; intros s1 s2; cbn [umemcmp_loop memcmp_loop]; [done|].
  by rewrite IH.
Qed.

Lemma strncmp_loop_zero n m p q :
  strncmp_loop n m p q = 0 <-> str_upto n m p = str_upto n m q.
Proof.
  revert p q; induction n as [|n IH]; intros p q; cbn [strncmp_loop str_upto]; [done|].
  destruct (ztrue (mget m p)) eqn:Hp; simpl.
  - destruct (Z.eqb_spec (mget m p) (mget m q)) as [E|E].
    + rewrite IH, <-E, Hp. split; [by intros ->|by intros [=]].
    + split; [lia|]. destruct (ztrue (mget m q)); [|done]. intros [=]; lia.
  - apply ztrue_false in Hp. rewrite Hp.
    destruct (ztrue (mget m q)) eqn:Hq.
    + apply ztrue_true in Hq. split; [lia|done].
    + apply ztrue_false in Hq. rewrite Hq. done.
Qed.

(** The first loop of [strncpy] copies the string and, if there is room,
    its NUL; nothing else is written. *)
Lemma strncpy_copy_spec n m s t :
  mem_ok m -> s + Z.of_nat n <= t \/ t + Z.of_nat n <= s ->
  let l := str_upto n m t in
  let '(m', s', n') := strncpy_copy n m s t in
  (length l + n' <= n)%nat /\
  s' = s + Z.of_nat (n - n') /\
  (forall x, mget m' x = if decide (s <= x < s + Z.of_nat (n - n'))
     then default 0 (l !! Z.to_nat (x - s)) else mget m x) /\
  (length l <= n - n')%nat.
Proof.
  revert m s t; induction n as [|n IH]; intros m s t Hm Hd; cbn [str_upto strncpy_copy].
  - split_and!; [simpl; lia..| |simpl; lia]. intros x. case_decide; [lia|done].
  - set (m1 := mput m s (mget m t)).
    assert (Hv : u8 (mget m t) = mget m t) by apply u8_small, Hm.
    destruct (ztrue (mget m t)) eqn:Hz.
    + assert (Hl : str_upto n m1 (t + 1) = str_upto n m (t + 1)).
      { apply str_upto_ext. intros x Hx. unfold m1. apply mget_mput_ne. lia. }
      specialize (IH m1 (s + 1) (t + 1)). rewrite Hl in IH.
      destruct (strncpy_copy n m1 (s + 1) (t + 1)) as [[m' s'] n'].
      destruct IH as (H1 & H2 & H3 & H4); [by apply mem_ok_mput|lia|].
      split_and!; [simpl; lia|lia| |simpl; lia].
      intros x. rewrite H3. unfold m1. rewrite mget_mput.
      repeat case_decide; try lia; try done.
      * replace (Z.to_nat (x - s)) with (S (Z.to_nat (x - (s + 1)))) by lia. done.
      * subst. rewrite Z.sub_diag. simpl. done.
    + split_and!; [simpl; lia|lia| |simpl; lia].
      intros x. unfold m1. rewrite mget_mput. apply ztrue_false in Hz. rewrite Hz.
      repeat case_decide; try lia; done.
Qed.

Lemma strncpy_pad_spec n m s x :
  mget (strncpy_pad n m s) x = if decide (s <= x < s + Z.of_nat n) then 0 else mget m x.
Proof.
  revert m s; induction n as [|n IH]; intros m s; cbn [strncpy_pad].
  - case_decide; [lia|done].
  - rewrite IH, mget_mput. repeat case_decide; try lia; done.
Qed.

(** The copying loop of [safestrcpy]: the string and its NUL if it fits. *)
Lemma safestrcpy_copy_spec n m s t :
  mem_ok m -> s + Z.of_nat n <= t \/ t + Z.of_nat n <= s ->
  let l := str_upto n m t in
  let '(m', s') := safestrcpy_copy n m s t in
  s + Z.of_nat (length l) <= s' <= s + Z.of_nat (length l) + 1 /\
  s' <= s + Z.of_nat n /\
  (forall x, mget m' x = if decide (s <= x < s')
     then default 0 (l !! Z.to_nat (x - s)) else mget m x).
Proof.
  revert m s t; induction n as [|n IH]; intros m s t Hm Hd; cbn [str_upto safestrcpy_copy].
  - split_and!; [simpl; lia..|]. intros x. case_decide; [lia|done].
  - set (m1 := mput m s (mget m t)).
    assert (Hv : u8 (mget m t) = mget m t) by apply u8_small, Hm.
    destruct (ztrue (mget m t)) eqn:Hz.
    + assert (Hl : str_upto n m1 (t + 1) = str_upto n m (t + 1)).
      { apply str_upto_ext. intros x Hx. unfold m1. apply mget_mput_ne. lia. }
      specialize (IH m1 (s + 1) (t + 1)). rewrite Hl in IH.
      destruct (safestrcpy_copy n m1 (s + 1) (t + 1)) as [m' s'].
      destruct IH as (H1 & H2 & H3); [by apply mem_ok_mput|lia|].
      split_and!; [simpl; lia..|].
      intros x. rewrite H3. unfold m1. rewrite mget_mput.
      repeat case_decide; try lia; try done.
      * replace (Z.to_nat (x - s)) with (S (Z.to_nat (x - (s + 1)))) by lia. done.
      * subst. rewrite Z.sub_diag. simpl. done.
    + split_and!; [simpl; lia..|].
      intros x. unfold m1. rewrite mget_mput. apply ztrue_false in Hz. rewrite Hz.
      repeat case_decide; try lia; done.
Qed.

Lemma strlen_loop_spec fuel m s l n :
  cstr m s l -> 0 <= n <= Z.of_nat (length l) ->
  (Z.to_nat (Z.of_nat (length l) - n) < fuel)%nat ->
  strlen_loop fuel m s n = Some (Z.of_nat (length l)).
Proof.
  intros [Hl H0]. revert n; induction fuel as [|fuel IH]; intros n Hn Hf; [lia|].
  cbn [strlen_loop].
  destruct (decide (n = Z.of_nat (length l))) as [->|Hne].
  - rewrite H0. done.
  - destruct (lookup_lt_is_Some_2 l (Z.to_nat n)) as [v Hv]; [lia|].
    apply Hl in Hv as [Hv Hnz]. rewrite Z2Nat.id in Hv by lia. rewrite Hv.
    rewrite (proj2 (ztrue_true v) Hnz). apply IH; lia.
Qed.

(** The user library's [memmove] and [memcmp] agree with the kernel's. *)
Theorem ulib_memory_agrees m a b n :
  mem_ok m -> 0 <= n ->
  (forall x, mget (umemmove m a b n) x = mget (memmove m a b n) x) /\
  umemcmp m a b n = memcmp m a b n /\
  (memcmp m a b n = 0 <-> read_bytes (Z.to_nat n) m a = read_bytes (Z.to_nat n) m b).
Proof.
  intros Hm Hn. split_and!.
  - intros x. rewrite memmove_copied by done. unfold umemmove.
    pose proof (copy_up_spec (Z.to_nat n) m a b Hm) as Hu.
    pose proof (copy_down_spec (Z.to_nat n) m a b Hm) as Hd.
    rewrite Z2Nat.id in Hu, Hd by done.
    destruct (Z.ltb_spec a b); [apply Hu; lia | apply Hd; lia].
  - apply umemcmp_loop_eq.
  - apply memcmp_loop_zero.
Qed.

(** [strncmp] returns zero exactly when the two strings, cut at their
    NUL and to [n] bytes, are the same. *)
Theorem strncmp_correct m p q n :
  strncmp m p q n = 0 <-> str_upto (Z.to_nat n) m p = str_upto (Z.to_nat n) m q.
Proof. apply strncmp_loop_zero. Qed.

(** [strncpy] fills exactly [n] bytes: the string cut to [n] bytes and
    then NULs; no other byte changes. *)
Theorem strncpy_correct m s t n :
  mem_ok m -> 0 <= n -> s + n <= t \/ t + n <= s ->
  forall x, mget (strncpy m s t n) x =
    if decide (s <= x < s + n) then default 0 (str_upto (Z.to_nat n) m t !! Z.to_nat (x - s))
    else mget m x.
Proof.
  intros Hm Hn Hd x. unfold strncpy.
  pose proof (strncpy_copy_spec (Z.to_nat n) m s t Hm ltac:(lia)) as H. cbn beta zeta in H.
  destruct (strncpy_copy (Z.to_nat n) m s t) as [[m' s'] n']. destruct H as (H1 & -> & H3 & H4).
  rewrite strncpy_pad_spec, H3.
  repeat case_decide; try lia; try done.
  rewrite lookup_ge_None_2; [done|lia].
Qed.

(** [safestrcpy] with [n > 0] leaves a NUL-terminated copy of the string
    cut to [n - 1] bytes, and writes nothing outside the [n] bytes at [s]. *)
Theorem safestrcpy_correct m s t n :
  mem_ok m -> 0 < n -> s + n <= t \/ t + n <= s ->
  cstr (safestrcpy m s t n) s (str_upto (Z.to_nat (n - 1)) m t) /\
  forall x, x < s \/ s + n <= x -> mget (safestrcpy m s t n) x = mget m x.
Proof.
  intros Hm Hn Hd. unfold safestrcpy.
  destruct (Z.leb_spec n 0); [lia|].
  pose proof (safestrcpy_copy_spec (Z.to_nat (n - 1)) m s t Hm ltac:(lia)) as H'.
  cbn beta zeta in H'. set (l := str_upto _ m t) in *.
  assert (Hlen : (length l <= Z.to_nat (n - 1))%nat) by apply length_str_upto.
  destruct (safestrcpy_copy (Z.to_nat (n - 1)) m s t) as [m' s']. destruct H' as (H1 & H2 & H3).
  split; [split|].
  - intros i v Hi. pose proof (lookup_lt_Some _ _ _ Hi).
    rewrite mget_mput_ne by lia. rewrite H3, decide_True by lia.
    replace (Z.to_nat (s + Z.of_nat i - s)) with i by lia. rewrite Hi. simpl.
    split; [done|]. by eapply str_upto_lookup.
  - rewrite mget_mput. case_decide; [done|].
    rewrite H3, decide_True by lia. rewrite lookup_ge_None_2; [done|lia].
  - intros x Hx. rewrite mget_mput_ne by lia. rewrite H3, decide_False by lia. done.
Qed.

(** [strlen] returns the length of the string at [s], given one more
    iteration than its length. *)
Theorem strlen_correct fuel m s l :
  cstr m s l -> (length l < fuel)%nat -> strlen fuel m s = Some (Z.of_nat (length l)).
Proof. intros H Hf. apply strlen_loop_spec; [done|lia|lia]. Qed.

Global Opaque memset memmove.

(** ** Concrete instances *)

(** The string "hi" at address 16. *)
Definition hi_mem : memory := mput (mput ∅ 16 104) 17 105.

Lemma hi_mem_ok : mem_ok hi_mem.
Proof.
  unfold hi_mem. apply mem_ok_mput, mem_ok_mput, mem_ok_empty.
Qed.

Lemma memmove_correct_witness : mget (memmove hi_mem 17 16 2) 18 = 105.
Proof.
  rewrite (memmove_correct hi_mem 17 16 2 hi_mem_ok ltac:(lia) 18). reflexivity.
Defined.

Lemma ulib_memory_agrees_witness :
  umemcmp hi_mem 16 24 2 = memcmp hi_mem 16 24 2 /\ memcmp hi_mem 16 24 2 <> 0.
Proof.
  split.
  - apply (ulib_memory_agrees hi_mem 16 24 2 hi_mem_ok ltac:(lia)).
  - intros H. apply (ulib_memory_agrees hi_mem 16 24 2 hi_mem_ok ltac:(lia)) in H. discriminate H.
Defined.

Lemma strncpy_correct_witness :
  mget (strncpy hi_mem 32 16 4) 33 = 105 /\ mget (strncpy hi_mem 32 16 4) 35 = 0.
Proof.
  split; rewrite (strncpy_correct hi_mem 32 16 4 hi_mem_ok ltac:(lia) ltac:(lia)); reflexivity.
Defined.

Lemma safestrcpy_correct_witness : cstr (safestrcpy hi_mem 32 16 2) 32 [104].
Proof.
  apply (safestrcpy_correct hi_mem 32 16 2 hi_mem_ok ltac:(lia) ltac:(lia)).
Defined.

Lemma strlen_correct_witness : strlen 3 hi_mem 16 = Some 2.
Proof.
  apply (strlen_correct 3 hi_mem 16 [104; 105]); [|cbn; lia].
  split; [|reflexivity]. intros [|[|i]] v [= <-]; done.
Defined.
