(* ===== verification/Riscv.v ===== *)
(** * Architecture and layout constants: kernel/riscv.h, kernel/memlayout.h,
    kernel/param.h *)

From S2P Require Import Prelude.

(** ** kernel/param.h (this repository builds LAB=util) *)
Definition NPROC : nat := 64.
Definition NCPU : nat := 8.
Definition NOFILE : nat := 16.
Definition NFILE : nat := 100.
Definition NINODE : nat := 50.
Definition NDEV : Z := 10.
Definition ROOTDEV : Z := 1.
Definition MAXARG : Z := 32.
Definition MAXOPBLOCKS : Z := 10.
Definition LOGBLOCKS : Z := MAXOPBLOCKS * 3.
Definition NBUF : nat := 30.
Definition FSSIZE : Z := 2000.
Definition MAXPATH : Z := 128.
Definition USERSTACK : Z := 2.

(** ** kernel/riscv.h *)
Definition PGSIZE : Z := 4096.
Definition PGSHIFT : Z := 12.

Definition PGROUNDUP (sz : Z) : Z := Z.land (u64 (sz + PGSIZE - 1)) (Z.lnot (PGSIZE - 1)).
Definition PGROUNDDOWN (a : Z) : Z := Z.land a (Z.lnot (PGSIZE - 1)).

Definition PTE_V : Z := Z.shiftl 1 0.
Definition PTE_R : Z := Z.shiftl 1 1.
Definition PTE_W : Z := Z.shiftl 1 2.
Definition PTE_X : Z := Z.shiftl 1 3.
Definition PTE_U : Z := Z.shiftl 1 4.

Definition PA2PTE (pa : Z) : Z := u64 (Z.shiftl (Z.shiftr pa 12) 10).
Definition PTE2PA (pte : Z) : Z := u64 (Z.shiftl (Z.shiftr pte 10) 12).
Definition PTE_FLAGS (pte : Z) : Z := Z.land pte 0x3FF.

Definition PXMASK : Z := 0x1FF.
Definition PXSHIFT (level : Z) : Z := PGSHIFT + 9 * level.
Definition PX (level va : Z) : Z := Z.land (Z.shiftr va (PXSHIFT level)) PXMASK.

Definition MAXVA : Z := Z.shiftl 1 (9 + 9 + 9 + 12 - 1).

Definition SATP_SV39 : Z := Z.shiftl 8 60.
Definition MAKE_SATP (pagetable : Z) : Z := Z.lor SATP_SV39 (Z.shiftr pagetable 12).

Definition SSTATUS_SPP : Z := Z.shiftl 1 8.
Definition SSTATUS_SPIE : Z := Z.shiftl 1 5.
Definition SSTATUS_SIE : Z := Z.shiftl 1 1.

(** ** kernel/memlayout.h *)
Definition UART0 : Z := 0x10000000.
Definition UART0_IRQ : Z := 10.
Definition VIRTIO0 : Z := 0x10001000.
Definition VIRTIO0_IRQ : Z := 1.
Definition PLIC : Z := 0x0c000000.
Definition KERNBASE : Z := 0x80000000.
Definition PHYSTOP : Z := KERNBASE + 128 * 1024 * 1024.
Definition TRAMPOLINE : Z := MAXVA - PGSIZE.
Definition KSTACK (p : Z) : Z := TRAMPOLINE - (p + 1) * 2 * PGSIZE.
Definition TRAPFRAME : Z := TRAMPOLINE - PGSIZE.

(** Let [lia] see through the layout constants. *)
Ltac unfold_layout :=
  unfold TRAPFRAME, KSTACK, TRAMPOLINE, PHYSTOP, KERNBASE, PLIC, VIRTIO0, UART0,
    PGSIZE, PGSHIFT, USERSTACK, MAXPATH, FSSIZE, LOGBLOCKS, MAXOPBLOCKS in *;
  change MAXVA with 0x4000000000 in *.
Ltac llia := unfold_layout; lia.

(** ** Lemmas *)

Definition page_aligned (a : Z) : Prop := a mod PGSIZE = 0.

Lemma PGROUNDDOWN_eq a : PGROUNDDOWN a = PGSIZE * (a / PGSIZE).
Proof. apply (land_lnot_ones a 12). lia. Qed.

Lemma PGROUNDUP_eq sz :
  0 <= sz -> sz + PGSIZE - 1 < 2 ^ 64 ->
  PGROUNDUP sz = PGSIZE * ((sz + PGSIZE - 1) / PGSIZE).
Proof.
  intros H1 H2. unfold PGROUNDUP. rewrite u64_small by llia.
  apply (land_lnot_ones _ 12). lia.
Qed.

Lemma PGROUNDDOWN_bounds a :
  page_aligned (PGROUNDDOWN a) /\ PGROUNDDOWN a <= a < PGROUNDDOWN a + PGSIZE.
Proof.
  rewrite PGROUNDDOWN_eq. unfold page_aligned. rewrite (Z.mul_comm PGSIZE), Z_mod_mult.
  split; [done|]. pose proof (Z.div_mod a PGSIZE) as H.
  pose proof (Z.mod_pos_bound a PGSIZE) as H'. llia.
Qed.

Lemma PGROUNDDOWN_in va0 a :
  page_aligned va0 -> va0 <= a < va0 + PGSIZE -> PGROUNDDOWN a = va0.
Proof.
  intros Ha Hr. rewrite PGROUNDDOWN_eq. unfold page_aligned in Ha.
  pose proof (Z.div_mod va0 PGSIZE ltac:(llia)) as Hd. rewrite Ha, Z.add_0_r in Hd.
  assert (va0 / PGSIZE = a / PGSIZE) as <-; [|lia].
  apply (Z.div_unique_pos _ _ _ (a - va0)); lia.
Qed.

Lemma PGROUNDUP_bounds sz :
  0 <= sz -> sz + PGSIZE - 1 < 2 ^ 64 ->
  page_aligned (PGROUNDUP sz) /\ sz <= PGROUNDUP sz < sz + PGSIZE.
Proof.
  intros H1 H2. rewrite PGROUNDUP_eq by done. unfold page_aligned.
  rewrite (Z.mul_comm PGSIZE), Z_mod_mult. split; [done|].
  pose proof (Z.div_mod (sz + PGSIZE - 1) PGSIZE).
  pose proof (Z.mod_pos_bound (sz + PGSIZE - 1) PGSIZE). llia.
Qed.

Lemma PGROUNDUP_aligned a :
  0 <= a -> a + PGSIZE - 1 < 2 ^ 64 -> page_aligned a -> PGROUNDUP a = a.
Proof.
  intros H1 H2 Ha. rewrite PGROUNDUP_eq by done. unfold page_aligned in Ha.
  pose proof (Z.div_mod a PGSIZE ltac:(llia)).
  replace (a + PGSIZE - 1) with (a / PGSIZE * PGSIZE + (PGSIZE - 1)) by llia.
  rewrite Z.div_add_l by llia. rewrite (Z.div_small (PGSIZE - 1)) by llia. llia.
Qed.

Lemma page_aligned_add a b : page_aligned a -> page_aligned b -> page_aligned (a + b).
Proof.
  unfold page_aligned. intros Ha Hb. rewrite Z.add_mod by llia. by rewrite Ha, Hb.
Qed.

Lemma page_aligned_sub a b : page_aligned a -> page_aligned b -> page_aligned (a - b).
Proof.
  unfold page_aligned. intros Ha Hb. rewrite Zminus_mod. by rewrite Ha, Hb.
Qed.

Lemma page_aligned_pgsize_mul k : page_aligned (k * PGSIZE).
Proof. apply Z_mod_mult. Qed.

(** Distinct pages do not overlap. *)
Lemma pages_disjoint a b :
  page_aligned a -> page_aligned b -> a <> b -> a + PGSIZE <= b \/ b + PGSIZE <= a.
Proof.
  unfold page_aligned. intros Ha Hb Hne.
  pose proof (Z.div_mod a PGSIZE ltac:(llia)). pose proof (Z.div_mod b PGSIZE ltac:(llia)).
  rewrite Ha in *. rewrite Hb in *. rewrite !Z.add_0_r in *.
  assert (a / PGSIZE <> b / PGSIZE) by congruence. llia.
Qed.

Lemma PGROUNDUP_mono a b :
  0 <= a <= b -> b + PGSIZE - 1 < 2 ^ 64 -> PGROUNDUP a <= PGROUNDUP b.
Proof.
  intros H1 H2. destruct (PGROUNDUP_bounds a ltac:(lia) ltac:(lia)) as [Ha1 Ha2].
  destruct (PGROUNDUP_bounds b ltac:(lia) ltac:(lia)) as [Hb1 Hb2].
  destruct (decide (PGROUNDUP a = PGROUNDUP b)) as [->|Hne]; [lia|].
  destruct (pages_disjoint _ _ Ha1 Hb1 Hne); lia.
Qed.

Lemma PX_range level va : 0 <= PX level va < 512.
Proof.
  unfold PX. change PXMASK with (Z.ones 9). rewrite Z.land_ones by lia.
  apply Z.mod_pos_bound. lia.
Qed.

Lemma PX_eq level va : 0 <= level -> PX level va = va / 2 ^ (12 + 9 * level) mod 512.
Proof.
  intros H. unfold PX, PXSHIFT. change PXMASK with (Z.ones 9).
  rewrite Z.land_ones by lia. by rewrite Z.shiftr_div_pow2 by (unfold PGSHIFT; lia).
Qed.

(** The three indices determine a page-aligned address below [MAXVA]. *)
Lemma va_of_PX va :
  0 <= va < MAXVA -> page_aligned va ->
  va = (PX 2 va * 2 ^ 18 + PX 1 va * 2 ^ 9 + PX 0 va) * PGSIZE.
Proof.
  intros Hva Ha. rewrite !PX_eq by lia. unfold page_aligned in Ha.
  pose proof (Z.div_mod va PGSIZE ltac:(llia)) as Hd. rewrite Ha, Z.add_0_r in Hd.
  set (q := va / PGSIZE) in *.
  replace (va / 2 ^ (12 + 9 * 2)) with (q / 2 ^ 18)
    by (unfold q, PGSIZE; rewrite Z.div_div by lia; done).
  replace (va / 2 ^ (12 + 9 * 1)) with (q / 2 ^ 9)
    by (unfold q, PGSIZE; rewrite Z.div_div by lia; done).
  replace (va / 2 ^ (12 + 9 * 0)) with q by done.
  assert (0 <= q < 2 ^ 26) by (unfold q; split; [apply Z.div_pos|apply Z.div_lt_upper_bound]; llia).
  rewrite (Z.mod_small (q / 2 ^ 18) 512)
    by (split; [apply Z.div_pos; lia | apply Z.div_lt_upper_bound; lia]).
  pose proof (Z.div_mod q 512 ltac:(lia)).
  pose proof (Z.div_mod (q / 2 ^ 9) 512 ltac:(lia)).
  rewrite Z.div_div in H1 by lia. change (2 ^ 9 * 512) with (2 ^ 18) in H1.
  change (2 ^ 9) with 512 in *. llia.
Qed.

Lemma PTE2PA_PA2PTE_flags pa flags :
  0 <= pa < 2 ^ 56 -> page_aligned pa -> 0 <= flags < 2 ^ 10 ->
  PTE2PA (Z.lor (PA2PTE pa) flags) = pa.
Proof.
  intros Hpa Ha Hf. unfold PTE2PA, PA2PTE, page_aligned in *.
  rewrite !Z.shiftr_div_pow2, !Z.shiftl_mul_pow2 by lia.
  pose proof (Z.div_mod pa PGSIZE ltac:(llia)) as Hd. rewrite Ha, Z.add_0_r in Hd.
  change (2 ^ 12) with PGSIZE. set (q := pa / PGSIZE) in *.
  assert (0 <= q < 2 ^ 44) by (unfold q; split; [apply Z.div_pos|apply Z.div_lt_upper_bound]; llia).
  rewrite (u64_small (q * 2 ^ 10)) by lia.
  rewrite (lor_disjoint_add _ _ 10) by (try apply Z_mod_mult; lia).
  rewrite Z.div_add_l, (Z.div_small flags), Z.add_0_r by lia.
  rewrite u64_small by llia. lia.
Qed.

(** The flag bits of a PTE built from an address are the given ones. *)
Lemma PTE_FLAGS_PA2PTE pa flags :
  0 <= pa < 2 ^ 56 -> 0 <= flags < 2 ^ 10 ->
  PTE_FLAGS (Z.lor (PA2PTE pa) flags) = flags.
Proof.
  intros Hpa Hf. unfold PTE_FLAGS, PA2PTE. change 0x3FF with (Z.ones 10).
  rewrite Z.land_ones by lia. rewrite Z.shiftr_div_pow2, Z.shiftl_mul_pow2 by lia.
  assert (0 <= pa / 2 ^ 12 < 2 ^ 44) by (split; [apply Z.div_pos|apply Z.div_lt_upper_bound]; lia).
  rewrite u64_small by lia.
  rewrite (lor_disjoint_add _ _ 10) by (try apply Z_mod_mult; lia).
  rewrite Z.add_comm, Z.mod_add by lia. by apply Z.mod_small.
Qed.

Lemma PTE_range pa flags :
  0 <= pa < 2 ^ 56 -> 0 <= flags < 2 ^ 10 -> 0 <= Z.lor (PA2PTE pa) flags < 2 ^ 64.
Proof.
  intros Hpa Hf. unfold PA2PTE. rewrite Z.shiftr_div_pow2, Z.shiftl_mul_pow2 by lia.
  assert (0 <= pa / 2 ^ 12 < 2 ^ 44) by (split; [apply Z.div_pos|apply Z.div_lt_upper_bound]; lia).
  rewrite u64_small by lia.
  rewrite (lor_disjoint_add _ _ 10) by (try apply Z_mod_mult; lia). lia.
Qed.

(** A low flag bit of such a PTE is that bit of the flags. *)
Lemma PTE_testbit pa flags i :
  0 <= pa < 2 ^ 56 -> 0 <= flags < 2 ^ 10 -> 0 <= i < 10 ->
  Z.testbit (Z.lor (PA2PTE pa) flags) i = Z.testbit flags i.
Proof.
  intros Hpa Hf Hi. rewrite <-(PTE_FLAGS_PA2PTE pa flags) at 2 by done.
  unfold PTE_FLAGS. change 0x3FF with (Z.ones 10).
  rewrite Z.land_spec, Z.ones_spec_low by lia. by rewrite andb_true_r.
Qed.

Lemma PTE2PA_aligned pte : 0 <= pte < 2 ^ 54 -> page_aligned (PTE2PA pte).
Proof.
  intros H. unfold PTE2PA, page_aligned.
  rewrite Z.shiftr_div_pow2, Z.shiftl_mul_pow2 by lia.
  assert (0 <= pte / 2 ^ 10 < 2 ^ 44) by (split; [apply Z.div_pos|apply Z.div_lt_upper_bound]; lia).
  rewrite u64_small by lia. apply Z_mod_mult.
Qed.

(** Kernel stacks, the trapframe and the trampoline are disjoint pages, and
    there is an unmapped guard page below every stack. *)
Lemma KSTACK_disjoint i j :
  0 <= i -> 0 <= j -> i <> j ->
  KSTACK i + 2 * PGSIZE <= KSTACK j \/ KSTACK j + 2 * PGSIZE <= KSTACK i.
Proof. llia. Qed.
