(* ===== verification/Machine.v ===== *)
(** * Kernel state

    The C structures of the kernel's headers as records, the kernel's static
    data as one record [kstate], and the world a piece of kernel code runs
    in: the state of its own hart, the shared state, and a schedule [w_env]
    of what the rest of the machine does whenever this code gives up the CPU
    (sleeps) or spins on a lock.  [set_f] replaces field [f] of a record. *)

From S2P Require Import Prelude Memory Riscv.

(** kernel/proc.h: enum procstate *)
Inductive procstate := UNUSED | USED | SLEEPING | RUNNABLE | RUNNING | ZOMBIE.
#[export] Instance procstate_eq_dec : EqDecision procstate.
Proof. solve_decision. Defined.

(** kernel/file.h: the type of an open file *)
Inductive filetype := FD_NONE | FD_PIPE | FD_INODE | FD_DEVICE.
#[export] Instance filetype_eq_dec : EqDecision filetype.
Proof. solve_decision. Defined.

(** kernel/file.h: the drivers whose functions [devsw] can hold; the console
    is the only one. *)
Inductive driver := ConsoleDriver.

(** kernel/spinlock.h: struct spinlock; [cpu] is the holding hart *)
Record spinlock := Spinlock {
  lk_locked : Z;
  lk_name : string;
  lk_cpu : option Z
}.

Definition set_lk_locked (x : Z) (s : spinlock) : spinlock :=
  Spinlock x (s.(lk_name)) (s.(lk_cpu)).
Definition set_lk_name (x : string) (s : spinlock) : spinlock :=
  Spinlock (s.(lk_locked)) x (s.(lk_cpu)).
Definition set_lk_cpu (x : option Z) (s : spinlock) : spinlock :=
  Spinlock (s.(lk_locked)) (s.(lk_name)) x.

(** kernel/sleeplock.h: struct sleeplock, without the inner spinlock, which is in [locks] *)
Record sleeplock := Sleeplock {
  sl_locked : Z;
  sl_name : string;
  sl_pid : Z
}.

Definition set_sl_locked (x : Z) (s : sleeplock) : sleeplock :=
  Sleeplock x (s.(sl_name)) (s.(sl_pid)).
Definition set_sl_name (x : string) (s : sleeplock) : sleeplock :=
  Sleeplock (s.(sl_locked)) x (s.(sl_pid)).
Definition set_sl_pid (x : Z) (s : sleeplock) : sleeplock :=
  Sleeplock (s.(sl_locked)) (s.(sl_name)) x.

(** kernel/proc.h: struct context; [ctx_s] is s0..s11 *)
Record context := Ctx {
  ctx_ra : Z;
  ctx_sp : Z;
  ctx_s : list Z
}.

Definition set_ctx_ra (x : Z) (s : context) : context :=
  Ctx x (s.(ctx_sp)) (s.(ctx_s)).
Definition set_ctx_sp (x : Z) (s : context) : context :=
  Ctx (s.(ctx_ra)) x (s.(ctx_s)).
Definition set_ctx_s (x : list Z) (s : context) : context :=
  Ctx (s.(ctx_ra)) (s.(ctx_sp)) x.

(** kernel/proc.h: struct proc; pointers into [proc] and the file and inode tables are indices *)
Record proc := Proc {
  p_state : procstate;
  p_chan : Z;
  p_killed : Z;
  p_xstate : Z;
  p_pid : Z;
  p_parent : option nat;
  p_kstack : Z;
  p_sz : Z;
  p_pagetable : Z;
  p_trapframe : Z;
  p_context : context;
  p_ofile : list (option nat);
  p_cwd : option nat;
  p_name : list Z
}.

Definition set_p_state (x : procstate) (s : proc) : proc :=
  Proc x (s.(p_chan)) (s.(p_killed)) (s.(p_xstate)) (s.(p_pid)) (s.(p_parent)) (s.(p_kstack))
    (s.(p_sz)) (s.(p_pagetable)) (s.(p_trapframe)) (s.(p_context)) (s.(p_ofile)) (s.(p_cwd))
    (s.(p_name)).
Definition set_p_chan (x : Z) (s : proc) : proc :=
  Proc (s.(p_state)) x (s.(p_killed)) (s.(p_xstate)) (s.(p_pid)) (s.(p_parent)) (s.(p_kstack))
    (s.(p_sz)) (s.(p_pagetable)) (s.(p_trapframe)) (s.(p_context)) (s.(p_ofile)) (s.(p_cwd))
    (s.(p_name)).
Definition set_p_killed (x : Z) (s : proc) : proc :=
  Proc (s.(p_state)) (s.(p_chan)) x (s.(p_xstate)) (s.(p_pid)) (s.(p_parent)) (s.(p_kstack))
    (s.(p_sz)) (s.(p_pagetable)) (s.(p_trapframe)) (s.(p_context)) (s.(p_ofile)) (s.(p_cwd))
    (s.(p_name)).
Definition set_p_xstate (x : Z) (s : proc) : proc :=
  Proc (s.(p_state)) (s.(p_chan)) (s.(p_killed)) x (s.(p_pid)) (s.(p_parent)) (s.(p_kstack))
    (s.(p_sz)) (s.(p_pagetable)) (s.(p_trapframe)) (s.(p_context)) (s.(p_ofile)) (s.(p_cwd))
    (s.(p_name)).
Definition set_p_pid (x : Z) (s : proc) : proc :=
  Proc (s.(p_state)) (s.(p_chan)) (s.(p_killed)) (s.(p_xstate)) x (s.(p_parent)) (s.(p_kstack))
    (s.(p_sz)) (s.(p_pagetable)) (s.(p_trapframe)) (s.(p_context)) (s.(p_ofile)) (s.(p_cwd))
    (s.(p_name)).
Definition set_p_parent (x : option nat) (s : proc) : proc :=
  Proc (s.(p_state)) (s.(p_chan)) (s.(p_killed)) (s.(p_xstate)) (s.(p_pid)) x (s.(p_kstack))
    (s.(p_sz)) (s.(p_pagetable)) (s.(p_trapframe)) (s.(p_context)) (s.(p_ofile)) (s.(p_cwd))
    (s.(p_name)).
Definition set_p_kstack (x : Z) (s : proc) : proc :=
  Proc (s.(p_state)) (s.(p_chan)) (s.(p_killed)) (s.(p_xstate)) (s.(p_pid)) (s.(p_parent)) x
    (s.(p_sz)) (s.(p_pagetable)) (s.(p_trapframe)) (s.(p_context)) (s.(p_ofile)) (s.(p_cwd))
    (s.(p_name)).
Definition set_p_sz (x : Z) (s : proc) : proc :=
  Proc (s.(p_state)) (s.(p_chan)) (s.(p_killed)) (s.(p_xstate)) (s.(p_pid)) (s.(p_parent))
    (s.(p_kstack)) x (s.(p_pagetable)) (s.(p_trapframe)) (s.(p_context)) (s.(p_ofile)) (s.(p_cwd))
    (s.(p_name)).
Definition set_p_pagetable (x : Z) (s : proc) : proc :=
  Proc (s.(p_state)) (s.(p_chan)) (s.(p_killed)) (s.(p_xstate)) (s.(p_pid)) (s.(p_parent))
    (s.(p_kstack)) (s.(p_sz)) x (s.(p_trapframe)) (s.(p_context)) (s.(p_ofile)) (s.(p_cwd))
    (s.(p_name)).
Definition set_p_trapframe (x : Z) (s : proc) : proc :=
  Proc (s.(p_state)) (s.(p_chan)) (s.(p_killed)) (s.(p_xstate)) (s.(p_pid)) (s.(p_parent))
    (s.(p_kstack)) (s.(p_sz)) (s.(p_pagetable)) x (s.(p_context)) (s.(p_ofile)) (s.(p_cwd))
    (s.(p_name)).
Definition set_p_context (x : context) (s : proc) : proc :=
  Proc (s.(p_state)) (s.(p_chan)) (s.(p_killed)) (s.(p_xstate)) (s.(p_pid)) (s.(p_parent))
    (s.(p_kstack)) (s.(p_sz)) (s.(p_pagetable)) (s.(p_trapframe)) x (s.(p_ofile)) (s.(p_cwd))
    (s.(p_name)).
Definition set_p_ofile (x : list (option nat)) (s : proc) : proc :=
  Proc (s.(p_state)) (s.(p_chan)) (s.(p_killed)) (s.(p_xstate)) (s.(p_pid)) (s.(p_parent))
    (s.(p_kstack)) (s.(p_sz)) (s.(p_pagetable)) (s.(p_trapframe)) (s.(p_context)) x (s.(p_cwd))
    (s.(p_name)).
Definition set_p_cwd (x : option nat) (s : proc) : proc :=
  Proc (s.(p_state)) (s.(p_chan)) (s.(p_killed)) (s.(p_xstate)) (s.(p_pid)) (s.(p_parent))
    (s.(p_kstack)) (s.(p_sz)) (s.(p_pagetable)) (s.(p_trapframe)) (s.(p_context)) (s.(p_ofile)) x
    (s.(p_name)).
Definition set_p_name (x : list Z) (s : proc) : proc :=
  Proc (s.(p_state)) (s.(p_chan)) (s.(p_killed)) (s.(p_xstate)) (s.(p_pid)) (s.(p_parent))
    (s.(p_kstack)) (s.(p_sz)) (s.(p_pagetable)) (s.(p_trapframe)) (s.(p_context)) (s.(p_ofile))
    (s.(p_cwd)) x.

(** kernel/buf.h: struct buf; [b_prev] and [b_next] are buffer indices, [NBUF] being the list head *)
Record buf := Buf {
  b_valid : Z;
  b_disk : Z;
  b_dev : Z;
  b_blockno : Z;
  b_lock : sleeplock;
  b_refcnt : Z;
  b_prev : nat;
  b_next : nat;
  b_data : list Z
}.

Definition set_b_valid (x : Z) (s : buf) : buf :=
  Buf x (s.(b_disk)) (s.(b_dev)) (s.(b_blockno)) (s.(b_lock)) (s.(b_refcnt)) (s.(b_prev))
    (s.(b_next)) (s.(b_data)).
Definition set_b_disk (x : Z) (s : buf) : buf :=
  Buf (s.(b_valid)) x (s.(b_dev)) (s.(b_blockno)) (s.(b_lock)) (s.(b_refcnt)) (s.(b_prev))
    (s.(b_next)) (s.(b_data)).
Definition set_b_dev (x : Z) (s : buf) : buf :=
  Buf (s.(b_valid)) (s.(b_disk)) x (s.(b_blockno)) (s.(b_lock)) (s.(b_refcnt)) (s.(b_prev))
    (s.(b_next)) (s.(b_data)).
Definition set_b_blockno (x : Z) (s : buf) : buf :=
  Buf (s.(b_valid)) (s.(b_disk)) (s.(b_dev)) x (s.(b_lock)) (s.(b_refcnt)) (s.(b_prev))
    (s.(b_next)) (s.(b_data)).
Definition set_b_lock (x : sleeplock) (s : buf) : buf :=
  Buf (s.(b_valid)) (s.(b_disk)) (s.(b_dev)) (s.(b_blockno)) x (s.(b_refcnt)) (s.(b_prev))
    (s.(b_next)) (s.(b_data)).
Definition set_b_refcnt (x : Z) (s : buf) : buf :=
  Buf (s.(b_valid)) (s.(b_disk)) (s.(b_dev)) (s.(b_blockno)) (s.(b_lock)) x (s.(b_prev))
    (s.(b_next)) (s.(b_data)).
Definition set_b_prev (x : nat) (s : buf) : buf :=
  Buf (s.(b_valid)) (s.(b_disk)) (s.(b_dev)) (s.(b_blockno)) (s.(b_lock)) (s.(b_refcnt)) x
    (s.(b_next)) (s.(b_data)).
Definition set_b_next (x : nat) (s : buf) : buf :=
  Buf (s.(b_valid)) (s.(b_disk)) (s.(b_dev)) (s.(b_blockno)) (s.(b_lock)) (s.(b_refcnt))
    (s.(b_prev)) x (s.(b_data)).
Definition set_b_data (x : list Z) (s : buf) : buf :=
  Buf (s.(b_valid)) (s.(b_disk)) (s.(b_dev)) (s.(b_blockno)) (s.(b_lock)) (s.(b_refcnt))
    (s.(b_prev)) (s.(b_next)) x.

(** kernel/log.c: struct log with its logheader *)
Record logstate := Logstate {
  lg_start : Z;
  lg_outstanding : Z;
  lg_committing : Z;
  lg_dev : Z;
  lg_n : Z;
  lg_block : list Z
}.

Definition set_lg_start (x : Z) (s : logstate) : logstate :=
  Logstate x (s.(lg_outstanding)) (s.(lg_committing)) (s.(lg_dev)) (s.(lg_n)) (s.(lg_block)).
Definition set_lg_outstanding (x : Z) (s : logstate) : logstate :=
  Logstate (s.(lg_start)) x (s.(lg_committing)) (s.(lg_dev)) (s.(lg_n)) (s.(lg_block)).
Definition set_lg_committing (x : Z) (s : logstate) : logstate :=
  Logstate (s.(lg_start)) (s.(lg_outstanding)) x (s.(lg_dev)) (s.(lg_n)) (s.(lg_block)).
Definition set_lg_dev (x : Z) (s : logstate) : logstate :=
  Logstate (s.(lg_start)) (s.(lg_outstanding)) (s.(lg_committing)) x (s.(lg_n)) (s.(lg_block)).
Definition set_lg_n (x : Z) (s : logstate) : logstate :=
  Logstate (s.(lg_start)) (s.(lg_outstanding)) (s.(lg_committing)) (s.(lg_dev)) x (s.(lg_block)).
Definition set_lg_block (x : list Z) (s : logstate) : logstate :=
  Logstate (s.(lg_start)) (s.(lg_outstanding)) (s.(lg_committing)) (s.(lg_dev)) (s.(lg_n)) x.

(** kernel/fs.h: struct superblock *)
Record superblock := Superblock {
  sb_magic : Z;
  sb_size : Z;
  sb_nblocks : Z;
  sb_ninodes : Z;
  sb_nlog : Z;
  sb_logstart : Z;
  sb_inodestart : Z;
  sb_bmapstart : Z
}.

Definition set_sb_magic (x : Z) (s : superblock) : superblock :=
  Superblock x (s.(sb_size)) (s.(sb_nblocks)) (s.(sb_ninodes)) (s.(sb_nlog)) (s.(sb_logstart))
    (s.(sb_inodestart)) (s.(sb_bmapstart)).
Definition set_sb_size (x : Z) (s : superblock) : superblock :=
  Superblock (s.(sb_magic)) x (s.(sb_nblocks)) (s.(sb_ninodes)) (s.(sb_nlog)) (s.(sb_logstart))
    (s.(sb_inodestart)) (s.(sb_bmapstart)).
Definition set_sb_nblocks (x : Z) (s : superblock) : superblock :=
  Superblock (s.(sb_magic)) (s.(sb_size)) x (s.(sb_ninodes)) (s.(sb_nlog)) (s.(sb_logstart))
    (s.(sb_inodestart)) (s.(sb_bmapstart)).
Definition set_sb_ninodes (x : Z) (s : superblock) : superblock :=
  Superblock (s.(sb_magic)) (s.(sb_size)) (s.(sb_nblocks)) x (s.(sb_nlog)) (s.(sb_logstart))
    (s.(sb_inodestart)) (s.(sb_bmapstart)).
Definition set_sb_nlog (x : Z) (s : superblock) : superblock :=
  Superblock (s.(sb_magic)) (s.(sb_size)) (s.(sb_nblocks)) (s.(sb_ninodes)) x (s.(sb_logstart))
    (s.(sb_inodestart)) (s.(sb_bmapstart)).
Definition set_sb_logstart (x : Z) (s : superblock) : superblock :=
  Superblock (s.(sb_magic)) (s.(sb_size)) (s.(sb_nblocks)) (s.(sb_ninodes)) (s.(sb_nlog)) x
    (s.(sb_inodestart)) (s.(sb_bmapstart)).
Definition set_sb_inodestart (x : Z) (s : superblock) : superblock :=
  Superblock (s.(sb_magic)) (s.(sb_size)) (s.(sb_nblocks)) (s.(sb_ninodes)) (s.(sb_nlog))
    (s.(sb_logstart)) x (s.(sb_bmapstart)).
Definition set_sb_bmapstart (x : Z) (s : superblock) : superblock :=
  Superblock (s.(sb_magic)) (s.(sb_size)) (s.(sb_nblocks)) (s.(sb_ninodes)) (s.(sb_nlog))
    (s.(sb_logstart)) (s.(sb_inodestart)) x.

(** kernel/file.h: struct inode *)
Record inode := Inode {
  i_dev : Z;
  i_inum : Z;
  i_ref : Z;
  i_lock : sleeplock;
  i_valid : Z;
  i_type : Z;
  i_major : Z;
  i_minor : Z;
  i_nlink : Z;
  i_size : Z;
  i_addrs : list Z
}.

Definition set_i_dev (x : Z) (s : inode) : inode :=
  Inode x (s.(i_inum)) (s.(i_ref)) (s.(i_lock)) (s.(i_valid)) (s.(i_type)) (s.(i_major))
    (s.(i_minor)) (s.(i_nlink)) (s.(i_size)) (s.(i_addrs)).
Definition set_i_inum (x : Z) (s : inode) : inode :=
  Inode (s.(i_dev)) x (s.(i_ref)) (s.(i_lock)) (s.(i_valid)) (s.(i_type)) (s.(i_major))
    (s.(i_minor)) (s.(i_nlink)) (s.(i_size)) (s.(i_addrs)).
Definition set_i_ref (x : Z) (s : inode) : inode :=
  Inode (s.(i_dev)) (s.(i_inum)) x (s.(i_lock)) (s.(i_valid)) (s.(i_type)) (s.(i_major))
    (s.(i_minor)) (s.(i_nlink)) (s.(i_size)) (s.(i_addrs)).
Definition set_i_lock (x : sleeplock) (s : inode) : inode :=
  Inode (s.(i_dev)) (s.(i_inum)) (s.(i_ref)) x (s.(i_valid)) (s.(i_type)) (s.(i_major))
    (s.(i_minor)) (s.(i_nlink)) (s.(i_size)) (s.(i_addrs)).
Definition set_i_valid (x : Z) (s : inode) : inode :=
  Inode (s.(i_dev)) (s.(i_inum)) (s.(i_ref)) (s.(i_lock)) x (s.(i_type)) (s.(i_major))
    (s.(i_minor)) (s.(i_nlink)) (s.(i_size)) (s.(i_addrs)).
Definition set_i_type (x : Z) (s : inode) : inode :=
  Inode (s.(i_dev)) (s.(i_inum)) (s.(i_ref)) (s.(i_lock)) (s.(i_valid)) x (s.(i_major))
    (s.(i_minor)) (s.(i_nlink)) (s.(i_size)) (s.(i_addrs)).
Definition set_i_major (x : Z) (s : inode) : inode :=
  Inode (s.(i_dev)) (s.(i_inum)) (s.(i_ref)) (s.(i_lock)) (s.(i_valid)) (s.(i_type)) x
    (s.(i_minor)) (s.(i_nlink)) (s.(i_size)) (s.(i_addrs)).
Definition set_i_minor (x : Z) (s : inode) : inode :=
  Inode (s.(i_dev)) (s.(i_inum)) (s.(i_ref)) (s.(i_lock)) (s.(i_valid)) (s.(i_type)) (s.(i_major))
    x (s.(i_nlink)) (s.(i_size)) (s.(i_addrs)).
Definition set_i_nlink (x : Z) (s : inode) : inode :=
  Inode (s.(i_dev)) (s.(i_inum)) (s.(i_ref)) (s.(i_lock)) (s.(i_valid)) (s.(i_type)) (s.(i_major))
    (s.(i_minor)) x (s.(i_size)) (s.(i_addrs)).
Definition set_i_size (x : Z) (s : inode) : inode :=
  Inode (s.(i_dev)) (s.(i_inum)) (s.(i_ref)) (s.(i_lock)) (s.(i_valid)) (s.(i_type)) (s.(i_major))
    (s.(i_minor)) (s.(i_nlink)) x (s.(i_addrs)).
Definition set_i_addrs (x : list Z) (s : inode) : inode :=
  Inode (s.(i_dev)) (s.(i_inum)) (s.(i_ref)) (s.(i_lock)) (s.(i_valid)) (s.(i_type)) (s.(i_major))
    (s.(i_minor)) (s.(i_nlink)) (s.(i_size)) x.

(** kernel/file.h: struct file *)
Record file := File {
  f_type : filetype;
  f_ref : Z;
  f_readable : Z;
  f_writable : Z;
  f_pipe : Z;
  f_ip : option nat;
  f_off : Z;
  f_major : Z
}.

Definition set_f_type (x : filetype) (s : file) : file :=
  File x (s.(f_ref)) (s.(f_readable)) (s.(f_writable)) (s.(f_pipe)) (s.(f_ip)) (s.(f_off))
    (s.(f_major)).
Definition set_f_ref (x : Z) (s : file) : file :=
  File (s.(f_type)) x (s.(f_readable)) (s.(f_writable)) (s.(f_pipe)) (s.(f_ip)) (s.(f_off))
    (s.(f_major)).
Definition set_f_readable (x : Z) (s : file) : file :=
  File (s.(f_type)) (s.(f_ref)) x (s.(f_writable)) (s.(f_pipe)) (s.(f_ip)) (s.(f_off))
    (s.(f_major)).
Definition set_f_writable (x : Z) (s : file) : file :=
  File (s.(f_type)) (s.(f_ref)) (s.(f_readable)) x (s.(f_pipe)) (s.(f_ip)) (s.(f_off))
    (s.(f_major)).
Definition set_f_pipe (x : Z) (s : file) : file :=
  File (s.(f_type)) (s.(f_ref)) (s.(f_readable)) (s.(f_writable)) x (s.(f_ip)) (s.(f_off))
    (s.(f_major)).
Definition set_f_ip (x : option nat) (s : file) : file :=
  File (s.(f_type)) (s.(f_ref)) (s.(f_readable)) (s.(f_writable)) (s.(f_pipe)) x (s.(f_off))
    (s.(f_major)).
Definition set_f_off (x : Z) (s : file) : file :=
  File (s.(f_type)) (s.(f_ref)) (s.(f_readable)) (s.(f_writable)) (s.(f_pipe)) (s.(f_ip)) x
    (s.(f_major)).
Definition set_f_major (x : Z) (s : file) : file :=
  File (s.(f_type)) (s.(f_ref)) (s.(f_readable)) (s.(f_writable)) (s.(f_pipe)) (s.(f_ip))
    (s.(f_off)) x.

(** kernel/pipe.c: struct pipe, without its lock, which is in [locks] *)
Record pipe := Pipe {
  pi_data : list Z;
  pi_nread : Z;
  pi_nwrite : Z;
  pi_readopen : Z;
  pi_writeopen : Z
}.

Definition set_pi_data (x : list Z) (s : pipe) : pipe :=
  Pipe x (s.(pi_nread)) (s.(pi_nwrite)) (s.(pi_readopen)) (s.(pi_writeopen)).
Definition set_pi_nread (x : Z) (s : pipe) : pipe :=
  Pipe (s.(pi_data)) x (s.(pi_nwrite)) (s.(pi_readopen)) (s.(pi_writeopen)).
Definition set_pi_nwrite (x : Z) (s : pipe) : pipe :=
  Pipe (s.(pi_data)) (s.(pi_nread)) x (s.(pi_readopen)) (s.(pi_writeopen)).
Definition set_pi_readopen (x : Z) (s : pipe) : pipe :=
  Pipe (s.(pi_data)) (s.(pi_nread)) (s.(pi_nwrite)) x (s.(pi_writeopen)).
Definition set_pi_writeopen (x : Z) (s : pipe) : pipe :=
  Pipe (s.(pi_data)) (s.(pi_nread)) (s.(pi_nwrite)) (s.(pi_readopen)) x.

(** kernel/console.c: struct cons, without its lock *)
Record console := Console {
  cons_buf : list Z;
  cons_r : Z;
  cons_w : Z;
  cons_e : Z
}.

Definition set_cons_buf (x : list Z) (s : console) : console :=
  Console x (s.(cons_r)) (s.(cons_w)) (s.(cons_e)).
Definition set_cons_r (x : Z) (s : console) : console :=
  Console (s.(cons_buf)) x (s.(cons_w)) (s.(cons_e)).
Definition set_cons_w (x : Z) (s : console) : console :=
  Console (s.(cons_buf)) (s.(cons_r)) x (s.(cons_e)).
Definition set_cons_e (x : Z) (s : console) : console :=
  Console (s.(cons_buf)) (s.(cons_r)) (s.(cons_w)) x.

(** kernel/proc.h: struct cpu of the running hart, with the control registers the kernel uses *)
Record hart := Hart {
  h_tp : Z;
  h_proc : option nat;
  h_noff : Z;
  h_intena : Z;
  h_sstatus : Z;
  h_sepc : Z;
  h_scause : Z;
  h_stval : Z;
  h_stvec : Z;
  h_satp : Z;
  h_stimecmp : Z
}.

Definition set_h_tp (x : Z) (s : hart) : hart :=
  Hart x (s.(h_proc)) (s.(h_noff)) (s.(h_intena)) (s.(h_sstatus)) (s.(h_sepc)) (s.(h_scause))
    (s.(h_stval)) (s.(h_stvec)) (s.(h_satp)) (s.(h_stimecmp)).
Definition set_h_proc (x : option nat) (s : hart) : hart :=
  Hart (s.(h_tp)) x (s.(h_noff)) (s.(h_intena)) (s.(h_sstatus)) (s.(h_sepc)) (s.(h_scause))
    (s.(h_stval)) (s.(h_stvec)) (s.(h_satp)) (s.(h_stimecmp)).
Definition set_h_noff (x : Z) (s : hart) : hart :=
  Hart (s.(h_tp)) (s.(h_proc)) x (s.(h_intena)) (s.(h_sstatus)) (s.(h_sepc)) (s.(h_scause))
    (s.(h_stval)) (s.(h_stvec)) (s.(h_satp)) (s.(h_stimecmp)).
Definition set_h_intena (x : Z) (s : hart) : hart :=
  Hart (s.(h_tp)) (s.(h_proc)) (s.(h_noff)) x (s.(h_sstatus)) (s.(h_sepc)) (s.(h_scause))
    (s.(h_stval)) (s.(h_stvec)) (s.(h_satp)) (s.(h_stimecmp)).
Definition set_h_sstatus (x : Z) (s : hart) : hart :=
  Hart (s.(h_tp)) (s.(h_proc)) (s.(h_noff)) (s.(h_intena)) x (s.(h_sepc)) (s.(h_scause))
    (s.(h_stval)) (s.(h_stvec)) (s.(h_satp)) (s.(h_stimecmp)).
Definition set_h_sepc (x : Z) (s : hart) : hart :=
  Hart (s.(h_tp)) (s.(h_proc)) (s.(h_noff)) (s.(h_intena)) (s.(h_sstatus)) x (s.(h_scause))
    (s.(h_stval)) (s.(h_stvec)) (s.(h_satp)) (s.(h_stimecmp)).
Definition set_h_scause (x : Z) (s : hart) : hart :=
  Hart (s.(h_tp)) (s.(h_proc)) (s.(h_noff)) (s.(h_intena)) (s.(h_sstatus)) (s.(h_sepc)) x
    (s.(h_stval)) (s.(h_stvec)) (s.(h_satp)) (s.(h_stimecmp)).
Definition set_h_stval (x : Z) (s : hart) : hart :=
  Hart (s.(h_tp)) (s.(h_proc)) (s.(h_noff)) (s.(h_intena)) (s.(h_sstatus)) (s.(h_sepc))
    (s.(h_scause)) x (s.(h_stvec)) (s.(h_satp)) (s.(h_stimecmp)).
Definition set_h_stvec (x : Z) (s : hart) : hart :=
  Hart (s.(h_tp)) (s.(h_proc)) (s.(h_noff)) (s.(h_intena)) (s.(h_sstatus)) (s.(h_sepc))
    (s.(h_scause)) (s.(h_stval)) x (s.(h_satp)) (s.(h_stimecmp)).
Definition set_h_satp (x : Z) (s : hart) : hart :=
  Hart (s.(h_tp)) (s.(h_proc)) (s.(h_noff)) (s.(h_intena)) (s.(h_sstatus)) (s.(h_sepc))
    (s.(h_scause)) (s.(h_stval)) (s.(h_stvec)) x (s.(h_stimecmp)).
Definition set_h_stimecmp (x : Z) (s : hart) : hart :=
  Hart (s.(h_tp)) (s.(h_proc)) (s.(h_noff)) (s.(h_intena)) (s.(h_sstatus)) (s.(h_sepc))
    (s.(h_scause)) (s.(h_stval)) (s.(h_stvec)) (s.(h_satp)) x.

(** kernel/virtio.h: what a descriptor's address points to: a command header
    [disk.ops[i]], the data of a buffer, or a status byte
    [disk.info[i].status]. *)
Inductive dma := DmaNull | DmaOps (i : Z) | DmaData (b : nat) | DmaStatus (i : Z).

(** kernel/virtio.h: struct virtq_desc *)
Record virtq_desc := VirtqDesc {
  vd_addr : dma;
  vd_len : Z;
  vd_flags : Z;
  vd_next : Z
}.

Definition set_vd_addr (x : dma) (s : virtq_desc) : virtq_desc :=
  VirtqDesc x s.(vd_len) s.(vd_flags) s.(vd_next).
Definition set_vd_len (x : Z) (s : virtq_desc) : virtq_desc :=
  VirtqDesc s.(vd_addr) x s.(vd_flags) s.(vd_next).
Definition set_vd_flags (x : Z) (s : virtq_desc) : virtq_desc :=
  VirtqDesc s.(vd_addr) s.(vd_len) x s.(vd_next).
Definition set_vd_next (x : Z) (s : virtq_desc) : virtq_desc :=
  VirtqDesc s.(vd_addr) s.(vd_len) s.(vd_flags) x.

(** kernel/virtio_disk.c: struct disk, with the queues that its first three
    pointers lead to; [vq_seen] is [used_idx], an entry of [vq_ops] is a type
    and a sector *)
Record vdisk := Vdisk {
  vq_desc_pa : Z;
  vq_avail_pa : Z;
  vq_used_pa : Z;
  vq_desc : list virtq_desc;
  vq_avail_idx : Z;
  vq_avail_ring : list Z;
  vq_used_idx : Z;
  vq_used_ring : list Z;
  vq_free : list Z;
  vq_seen : Z;
  vq_info_b : list (option nat);
  vq_info_status : list Z;
  vq_ops : list (Z * Z)
}.

Definition set_vq_desc_pa (x : Z) (s : vdisk) : vdisk :=
  Vdisk x s.(vq_avail_pa) s.(vq_used_pa) s.(vq_desc) s.(vq_avail_idx) s.(vq_avail_ring)
    s.(vq_used_idx) s.(vq_used_ring) s.(vq_free) s.(vq_seen) s.(vq_info_b) s.(vq_info_status)
    s.(vq_ops).
Definition set_vq_avail_pa (x : Z) (s : vdisk) : vdisk :=
  Vdisk s.(vq_desc_pa) x s.(vq_used_pa) s.(vq_desc) s.(vq_avail_idx) s.(vq_avail_ring)
    s.(vq_used_idx) s.(vq_used_ring) s.(vq_free) s.(vq_seen) s.(vq_info_b) s.(vq_info_status)
    s.(vq_ops).
Definition set_vq_used_pa (x : Z) (s : vdisk) : vdisk :=
  Vdisk s.(vq_desc_pa) s.(vq_avail_pa) x s.(vq_desc) s.(vq_avail_idx) s.(vq_avail_ring)
    s.(vq_used_idx) s.(vq_used_ring) s.(vq_free) s.(vq_seen) s.(vq_info_b) s.(vq_info_status)
    s.(vq_ops).
Definition set_vq_desc (x : list virtq_desc) (s : vdisk) : vdisk :=
  Vdisk s.(vq_desc_pa) s.(vq_avail_pa) s.(vq_used_pa) x s.(vq_avail_idx) s.(vq_avail_ring)
    s.(vq_used_idx) s.(vq_used_ring) s.(vq_free) s.(vq_seen) s.(vq_info_b) s.(vq_info_status)
    s.(vq_ops).
Definition set_vq_avail_idx (x : Z) (s : vdisk) : vdisk :=
  Vdisk s.(vq_desc_pa) s.(vq_avail_pa) s.(vq_used_pa) s.(vq_desc) x s.(vq_avail_ring)
    s.(vq_used_idx) s.(vq_used_ring) s.(vq_free) s.(vq_seen) s.(vq_info_b) s.(vq_info_status)
    s.(vq_ops).
Definition set_vq_avail_ring (x : list Z) (s : vdisk) : vdisk :=
  Vdisk s.(vq_desc_pa) s.(vq_avail_pa) s.(vq_used_pa) s.(vq_desc) s.(vq_avail_idx) x
    s.(vq_used_idx) s.(vq_used_ring) s.(vq_free) s.(vq_seen) s.(vq_info_b) s.(vq_info_status)
    s.(vq_ops).
Definition set_vq_used_idx (x : Z) (s : vdisk) : vdisk :=
  Vdisk s.(vq_desc_pa) s.(vq_avail_pa) s.(vq_used_pa) s.(vq_desc) s.(vq_avail_idx)
    s.(vq_avail_ring) x s.(vq_used_ring) s.(vq_free) s.(vq_seen) s.(vq_info_b)
    s.(vq_info_status) s.(vq_ops).
Definition set_vq_used_ring (x : list Z) (s : vdisk) : vdisk :=
  Vdisk s.(vq_desc_pa) s.(vq_avail_pa) s.(vq_used_pa) s.(vq_desc) s.(vq_avail_idx)
    s.(vq_avail_ring) s.(vq_used_idx) x s.(vq_free) s.(vq_seen) s.(vq_info_b) s.(vq_info_status)
    s.(vq_ops).
Definition set_vq_free (x : list Z) (s : vdisk) : vdisk :=
  Vdisk s.(vq_desc_pa) s.(vq_avail_pa) s.(vq_used_pa) s.(vq_desc) s.(vq_avail_idx)
    s.(vq_avail_ring) s.(vq_used_idx) s.(vq_used_ring) x s.(vq_seen) s.(vq_info_b)
    s.(vq_info_status) s.(vq_ops).
Definition set_vq_seen (x : Z) (s : vdisk) : vdisk :=
  Vdisk s.(vq_desc_pa) s.(vq_avail_pa) s.(vq_used_pa) s.(vq_desc) s.(vq_avail_idx)
    s.(vq_avail_ring) s.(vq_used_idx) s.(vq_used_ring) s.(vq_free) x s.(vq_info_b)
    s.(vq_info_status) s.(vq_ops).
Definition set_vq_info_b (x : list (option nat)) (s : vdisk) : vdisk :=
  Vdisk s.(vq_desc_pa) s.(vq_avail_pa) s.(vq_used_pa) s.(vq_desc) s.(vq_avail_idx)
    s.(vq_avail_ring) s.(vq_used_idx) s.(vq_used_ring) s.(vq_free) s.(vq_seen) x
    s.(vq_info_status) s.(vq_ops).
Definition set_vq_info_status (x : list Z) (s : vdisk) : vdisk :=
  Vdisk s.(vq_desc_pa) s.(vq_avail_pa) s.(vq_used_pa) s.(vq_desc) s.(vq_avail_idx)
    s.(vq_avail_ring) s.(vq_used_idx) s.(vq_used_ring) s.(vq_free) s.(vq_seen) s.(vq_info_b) x
    s.(vq_ops).
Definition set_vq_ops (x : list (Z * Z)) (s : vdisk) : vdisk :=
  Vdisk s.(vq_desc_pa) s.(vq_avail_pa) s.(vq_used_pa) s.(vq_desc) s.(vq_avail_idx)
    s.(vq_avail_ring) s.(vq_used_idx) s.(vq_used_ring) s.(vq_free) s.(vq_seen) s.(vq_info_b)
    s.(vq_info_status) x.

(** the kernel's memory and its static data *)
Record kstate := Kstate {
  mem : memory;
  freelist : Z;
  locks : gmap Z spinlock;
  procs : list proc;
  nextpid : Z;
  initproc : option nat;
  ticks : Z;
  bufs : list buf;
  bhead : nat * nat;
  disk : gmap Z (list Z);
  log : logstate;
  sb : superblock;
  itable : list inode;
  ftable : list file;
  pipes : gmap Z pipe;
  cons : console;
  tx_busy : Z;
  devsw : gmap Z driver;
  kernel_pagetable : Z;
  panicking : Z;
  panicked : Z;
  started : Z;
  fork_first : Z;
  vdsk : vdisk
}.

Definition set_mem (x : memory) (s : kstate) : kstate :=
  Kstate x (s.(freelist)) (s.(locks)) (s.(procs)) (s.(nextpid)) (s.(initproc)) (s.(ticks))
    (s.(bufs)) (s.(bhead)) (s.(disk)) (s.(log)) (s.(sb)) (s.(itable)) (s.(ftable)) (s.(pipes))
    (s.(cons)) (s.(tx_busy)) (s.(devsw)) (s.(kernel_pagetable)) (s.(panicking)) (s.(panicked))
    (s.(started)) (s.(fork_first)) (s.(vdsk)).
Definition set_freelist (x : Z) (s : kstate) : kstate :=
  Kstate (s.(mem)) x (s.(locks)) (s.(procs)) (s.(nextpid)) (s.(initproc)) (s.(ticks)) (s.(bufs))
    (s.(bhead)) (s.(disk)) (s.(log)) (s.(sb)) (s.(itable)) (s.(ftable)) (s.(pipes)) (s.(cons))
    (s.(tx_busy)) (s.(devsw)) (s.(kernel_pagetable)) (s.(panicking)) (s.(panicked)) (s.(started))
    (s.(fork_first)) (s.(vdsk)).
Definition set_locks (x : gmap Z spinlock) (s : kstate) : kstate :=
  Kstate (s.(mem)) (s.(freelist)) x (s.(procs)) (s.(nextpid)) (s.(initproc)) (s.(ticks))
    (s.(bufs)) (s.(bhead)) (s.(disk)) (s.(log)) (s.(sb)) (s.(itable)) (s.(ftable)) (s.(pipes))
    (s.(cons)) (s.(tx_busy)) (s.(devsw)) (s.(kernel_pagetable)) (s.(panicking)) (s.(panicked))
    (s.(started)) (s.(fork_first)) (s.(vdsk)).
Definition set_procs (x : list proc) (s : kstate) : kstate :=
  Kstate (s.(mem)) (s.(freelist)) (s.(locks)) x (s.(nextpid)) (s.(initproc)) (s.(ticks))
    (s.(bufs)) (s.(bhead)) (s.(disk)) (s.(log)) (s.(sb)) (s.(itable)) (s.(ftable)) (s.(pipes))
    (s.(cons)) (s.(tx_busy)) (s.(devsw)) (s.(kernel_pagetable)) (s.(panicking)) (s.(panicked))
    (s.(started)) (s.(fork_first)) (s.(vdsk)).
Definition set_nextpid (x : Z) (s : kstate) : kstate :=
  Kstate (s.(mem)) (s.(freelist)) (s.(locks)) (s.(procs)) x (s.(initproc)) (s.(ticks)) (s.(bufs))
    (s.(bhead)) (s.(disk)) (s.(log)) (s.(sb)) (s.(itable)) (s.(ftable)) (s.(pipes)) (s.(cons))
    (s.(tx_busy)) (s.(devsw)) (s.(kernel_pagetable)) (s.(panicking)) (s.(panicked)) (s.(started))
    (s.(fork_first)) (s.(vdsk)).
Definition set_initproc (x : option nat) (s : kstate) : kstate :=
  Kstate (s.(mem)) (s.(freelist)) (s.(locks)) (s.(procs)) (s.(nextpid)) x (s.(ticks)) (s.(bufs))
    (s.(bhead)) (s.(disk)) (s.(log)) (s.(sb)) (s.(itable)) (s.(ftable)) (s.(pipes)) (s.(cons))
    (s.(tx_busy)) (s.(devsw)) (s.(kernel_pagetable)) (s.(panicking)) (s.(panicked)) (s.(started))
    (s.(fork_first)) (s.(vdsk)).
Definition set_ticks (x : Z) (s : kstate) : kstate :=
  Kstate (s.(mem)) (s.(freelist)) (s.(locks)) (s.(procs)) (s.(nextpid)) (s.(initproc)) x
    (s.(bufs)) (s.(bhead)) (s.(disk)) (s.(log)) (s.(sb)) (s.(itable)) (s.(ftable)) (s.(pipes))
    (s.(cons)) (s.(tx_busy)) (s.(devsw)) (s.(kernel_pagetable)) (s.(panicking)) (s.(panicked))
    (s.(started)) (s.(fork_first)) (s.(vdsk)).
Definition set_bufs (x : list buf) (s : kstate) : kstate :=
  Kstate (s.(mem)) (s.(freelist)) (s.(locks)) (s.(procs)) (s.(nextpid)) (s.(initproc)) (s.(ticks))
    x (s.(bhead)) (s.(disk)) (s.(log)) (s.(sb)) (s.(itable)) (s.(ftable)) (s.(pipes)) (s.(cons))
    (s.(tx_busy)) (s.(devsw)) (s.(kernel_pagetable)) (s.(panicking)) (s.(panicked)) (s.(started))
    (s.(fork_first)) (s.(vdsk)).
Definition set_bhead (x : nat * nat) (s : kstate) : kstate :=
  Kstate (s.(mem)) (s.(freelist)) (s.(locks)) (s.(procs)) (s.(nextpid)) (s.(initproc)) (s.(ticks))
    (s.(bufs)) x (s.(disk)) (s.(log)) (s.(sb)) (s.(itable)) (s.(ftable)) (s.(pipes)) (s.(cons))
    (s.(tx_busy)) (s.(devsw)) (s.(kernel_pagetable)) (s.(panicking)) (s.(panicked)) (s.(started))
    (s.(fork_first)) (s.(vdsk)).
Definition set_disk (x : gmap Z (list Z)) (s : kstate) : kstate :=
  Kstate (s.(mem)) (s.(freelist)) (s.(locks)) (s.(procs)) (s.(nextpid)) (s.(initproc)) (s.(ticks))
    (s.(bufs)) (s.(bhead)) x (s.(log)) (s.(sb)) (s.(itable)) (s.(ftable)) (s.(pipes)) (s.(cons))
    (s.(tx_busy)) (s.(devsw)) (s.(kernel_pagetable)) (s.(panicking)) (s.(panicked)) (s.(started))
    (s.(fork_first)) (s.(vdsk)).
Definition set_log (x : logstate) (s : kstate) : kstate :=
  Kstate (s.(mem)) (s.(freelist)) (s.(locks)) (s.(procs)) (s.(nextpid)) (s.(initproc)) (s.(ticks))
    (s.(bufs)) (s.(bhead)) (s.(disk)) x (s.(sb)) (s.(itable)) (s.(ftable)) (s.(pipes)) (s.(cons))
    (s.(tx_busy)) (s.(devsw)) (s.(kernel_pagetable)) (s.(panicking)) (s.(panicked)) (s.(started))
    (s.(fork_first)) (s.(vdsk)).
Definition set_sb (x : superblock) (s : kstate) : kstate :=
  Kstate (s.(mem)) (s.(freelist)) (s.(locks)) (s.(procs)) (s.(nextpid)) (s.(initproc)) (s.(ticks))
    (s.(bufs)) (s.(bhead)) (s.(disk)) (s.(log)) x (s.(itable)) (s.(ftable)) (s.(pipes)) (s.(cons))
    (s.(tx_busy)) (s.(devsw)) (s.(kernel_pagetable)) (s.(panicking)) (s.(panicked)) (s.(started))
    (s.(fork_first)) (s.(vdsk)).
Definition set_itable (x : list inode) (s : kstate) : kstate :=
  Kstate (s.(mem)) (s.(freelist)) (s.(locks)) (s.(procs)) (s.(nextpid)) (s.(initproc)) (s.(ticks))
    (s.(bufs)) (s.(bhead)) (s.(disk)) (s.(log)) (s.(sb)) x (s.(ftable)) (s.(pipes)) (s.(cons))
    (s.(tx_busy)) (s.(devsw)) (s.(kernel_pagetable)) (s.(panicking)) (s.(panicked)) (s.(started))
    (s.(fork_first)) (s.(vdsk)).
Definition set_ftable (x : list file) (s : kstate) : kstate :=
  Kstate (s.(mem)) (s.(freelist)) (s.(locks)) (s.(procs)) (s.(nextpid)) (s.(initproc)) (s.(ticks))
    (s.(bufs)) (s.(bhead)) (s.(disk)) (s.(log)) (s.(sb)) (s.(itable)) x (s.(pipes)) (s.(cons))
    (s.(tx_busy)) (s.(devsw)) (s.(kernel_pagetable)) (s.(panicking)) (s.(panicked)) (s.(started))
    (s.(fork_first)) (s.(vdsk)).
Definition set_pipes (x : gmap Z pipe) (s : kstate) : kstate :=
  Kstate (s.(mem)) (s.(freelist)) (s.(locks)) (s.(procs)) (s.(nextpid)) (s.(initproc)) (s.(ticks))
    (s.(bufs)) (s.(bhead)) (s.(disk)) (s.(log)) (s.(sb)) (s.(itable)) (s.(ftable)) x (s.(cons))
    (s.(tx_busy)) (s.(devsw)) (s.(kernel_pagetable)) (s.(panicking)) (s.(panicked)) (s.(started))
    (s.(fork_first)) (s.(vdsk)).
Definition set_cons (x : console) (s : kstate) : kstate :=
  Kstate (s.(mem)) (s.(freelist)) (s.(locks)) (s.(procs)) (s.(nextpid)) (s.(initproc)) (s.(ticks))
    (s.(bufs)) (s.(bhead)) (s.(disk)) (s.(log)) (s.(sb)) (s.(itable)) (s.(ftable)) (s.(pipes)) x
    (s.(tx_busy)) (s.(devsw)) (s.(kernel_pagetable)) (s.(panicking)) (s.(panicked)) (s.(started))
    (s.(fork_first)) (s.(vdsk)).
Definition set_tx_busy (x : Z) (s : kstate) : kstate :=
  Kstate (s.(mem)) (s.(freelist)) (s.(locks)) (s.(procs)) (s.(nextpid)) (s.(initproc)) (s.(ticks))
    (s.(bufs)) (s.(bhead)) (s.(disk)) (s.(log)) (s.(sb)) (s.(itable)) (s.(ftable)) (s.(pipes))
    (s.(cons)) x (s.(devsw)) (s.(kernel_pagetable)) (s.(panicking)) (s.(panicked)) (s.(started))
    (s.(fork_first)) (s.(vdsk)).
Definition set_devsw (x : gmap Z driver) (s : kstate) : kstate :=
  Kstate (s.(mem)) (s.(freelist)) (s.(locks)) (s.(procs)) (s.(nextpid)) (s.(initproc)) (s.(ticks))
    (s.(bufs)) (s.(bhead)) (s.(disk)) (s.(log)) (s.(sb)) (s.(itable)) (s.(ftable)) (s.(pipes))
    (s.(cons)) (s.(tx_busy)) x (s.(kernel_pagetable)) (s.(panicking)) (s.(panicked))
    (s.(started)) (s.(fork_first)) (s.(vdsk)).
Definition set_kernel_pagetable (x : Z) (s : kstate) : kstate :=
  Kstate (s.(mem)) (s.(freelist)) (s.(locks)) (s.(procs)) (s.(nextpid)) (s.(initproc)) (s.(ticks))
    (s.(bufs)) (s.(bhead)) (s.(disk)) (s.(log)) (s.(sb)) (s.(itable)) (s.(ftable)) (s.(pipes))
    (s.(cons)) (s.(tx_busy)) (s.(devsw)) x (s.(panicking)) (s.(panicked)) (s.(started)) (s.(fork_first)) (s.(vdsk)).
Definition set_panicking (x : Z) (s : kstate) : kstate :=
  Kstate (s.(mem)) (s.(freelist)) (s.(locks)) (s.(procs)) (s.(nextpid)) (s.(initproc)) (s.(ticks))
    (s.(bufs)) (s.(bhead)) (s.(disk)) (s.(log)) (s.(sb)) (s.(itable)) (s.(ftable)) (s.(pipes))
    (s.(cons)) (s.(tx_busy)) (s.(devsw)) (s.(kernel_pagetable)) x (s.(panicked)) (s.(started))
    (s.(fork_first)) (s.(vdsk)).
Definition set_panicked (x : Z) (s : kstate) : kstate :=
  Kstate (s.(mem)) (s.(freelist)) (s.(locks)) (s.(procs)) (s.(nextpid)) (s.(initproc)) (s.(ticks))
    (s.(bufs)) (s.(bhead)) (s.(disk)) (s.(log)) (s.(sb)) (s.(itable)) (s.(ftable)) (s.(pipes))
    (s.(cons)) (s.(tx_busy)) (s.(devsw)) (s.(kernel_pagetable)) (s.(panicking)) x (s.(started))
    (s.(fork_first)) (s.(vdsk)).
Definition set_started (x : Z) (s : kstate) : kstate :=
  Kstate (s.(mem)) (s.(freelist)) (s.(locks)) (s.(procs)) (s.(nextpid)) (s.(initproc)) (s.(ticks))
    (s.(bufs)) (s.(bhead)) (s.(disk)) (s.(log)) (s.(sb)) (s.(itable)) (s.(ftable)) (s.(pipes))
    (s.(cons)) (s.(tx_busy)) (s.(devsw)) (s.(kernel_pagetable)) (s.(panicking)) (s.(panicked)) x
    (s.(fork_first)) (s.(vdsk)).
Definition set_fork_first (x : Z) (s : kstate) : kstate :=
  Kstate (s.(mem)) (s.(freelist)) (s.(locks)) (s.(procs)) (s.(nextpid)) (s.(initproc)) (s.(ticks))
    (s.(bufs)) (s.(bhead)) (s.(disk)) (s.(log)) (s.(sb)) (s.(itable)) (s.(ftable)) (s.(pipes))
    (s.(cons)) (s.(tx_busy)) (s.(devsw)) (s.(kernel_pagetable)) (s.(panicking)) (s.(panicked)) (s.(started)) x (s.(vdsk)).
Definition set_vdsk (x : vdisk) (s : kstate) : kstate :=
  Kstate (s.(mem)) (s.(freelist)) (s.(locks)) (s.(procs)) (s.(nextpid)) (s.(initproc)) (s.(ticks))
    (s.(bufs)) (s.(bhead)) (s.(disk)) (s.(log)) (s.(sb)) (s.(itable)) (s.(ftable)) (s.(pipes))
    (s.(cons)) (s.(tx_busy)) (s.(devsw)) (s.(kernel_pagetable)) (s.(panicking)) (s.(panicked)) (s.(started)) (s.(fork_first)) x.

(** What an execution shows to the outside: blocks written to the disk in
    order, messages of the kernel's printf(), writes to device registers and
    reads of them. *)
Inductive event :=
| EvDiskWrite (dev bno : Z) (data : list Z)
| EvPrint (msg : string) (args : list Z)
| EvMMIO (a v : Z)
| EvRead (a v : Z).

(** One turn of the rest of the machine: what it does to the shared state
    and the hart on which the waiting code then continues. *)
Record turn := Turn {
  t_hart : Z;
  t_fun : kstate -> kstate
}.

(** the running hart, what the other harts will do, what has been observed, the shared state *)
Record world := World {
  w_hart : hart;
  w_env : list turn;
  w_trace : list event;
  w_st : kstate
}.

Definition set_w_hart (x : hart) (s : world) : world :=
  World x (s.(w_env)) (s.(w_trace)) (s.(w_st)).
Definition set_w_env (x : list turn) (s : world) : world :=
  World (s.(w_hart)) x (s.(w_trace)) (s.(w_st)).
Definition set_w_trace (x : list event) (s : world) : world :=
  World (s.(w_hart)) (s.(w_env)) x (s.(w_st)).
Definition set_w_st (x : kstate) (s : world) : world :=
  World (s.(w_hart)) (s.(w_env)) (s.(w_trace)) x.

(** ** Zero-initialised static data

    The kernel's static data before main() runs. *)
Definition zero_sleeplock : sleeplock := Sleeplock 0 "" 0.
Definition zero_proc : proc :=
  Proc UNUSED 0 0 0 0 None 0 0 0 0 (Ctx 0 0 (replicate 12 0)) (replicate NOFILE None) None
    (replicate 16 0).
Definition zero_buf : buf := Buf 0 0 0 0 zero_sleeplock 0 0 0 (replicate 1024 0).
Definition zero_inode : inode := Inode 0 0 0 zero_sleeplock 0 0 0 0 0 0 (replicate 13 0).
Definition zero_file : file := File FD_NONE 0 0 0 0 None 0 0.
Definition zero_vdisk : vdisk :=
  Vdisk 0 0 0 (replicate 8 (VirtqDesc DmaNull 0 0 0)) 0 (replicate 8 0) 0 (replicate 8 0) (replicate 8 0) 0
    (replicate 8 None) (replicate 8 0) (replicate 8 (0, 0)).
Definition zero_kstate : kstate :=
  Kstate ∅ 0 ∅ (replicate NPROC zero_proc) 1 None 0 (replicate NBUF zero_buf) (0%nat, 0%nat) ∅
    (Logstate 0 0 0 0 0 (replicate (Z.to_nat LOGBLOCKS) 0)) (Superblock 0 0 0 0 0 0 0 0)
    (replicate NINODE zero_inode) (replicate NFILE zero_file) ∅
    (Console (replicate 128 0) 0 0 0) 0 ∅ 0 0 0 0 1 zero_vdisk.
Definition zero_hart : hart := Hart 0 None 0 0 0 0 0 0 0 0 0.

(** ** Access to the state *)

Abbreviation K := (M world).

Definition getk {A} (f : kstate -> A) : K A := gets (fun w => f w.(w_st)).
Definition modk (f : kstate -> kstate) : K unit := modify (fun w => set_w_st (f w.(w_st)) w).
Definition geth {A} (f : hart -> A) : K A := gets (fun w => f w.(w_hart)).
Definition modh (f : hart -> hart) : K unit := modify (fun w => set_w_hart (f w.(w_hart)) w).
Definition emit (e : event) : K unit :=
  modify (fun w => set_w_trace (w.(w_trace) ++ [e]) w).

(** Let the rest of the machine run: the next entry of the schedule.  Code
    that spins stays on its hart; code that sleeps may move. *)
Definition env_step (move : bool) : K unit := fun w =>
  match w.(w_env) with
  | [] => Blocked w
  | t :: env =>
      let h := if move then set_h_tp t.(t_hart) w.(w_hart) else w.(w_hart) in
      Ret tt (World h env w.(w_trace) (t.(t_fun) w.(w_st)))
  end.

(** Following a null or wild pointer in the kernel traps to kerneltrap(). *)
Definition bad_pointer {A} : K A := panic "kerneltrap".

Section access_rules.
Context (B : world -> Prop).

Lemma wpx_getk {A} (f : kstate -> A) (Q : A -> world -> Prop) w :
  Q (f w.(w_st)) w -> wpx B (getk f) Q w.
Proof. done. Qed.
Lemma wpx_modk f (Q : unit -> world -> Prop) w :
  Q tt (set_w_st (f w.(w_st)) w) -> wpx B (modk f) Q w.
Proof. done. Qed.
Lemma wpx_geth {A} (f : hart -> A) (Q : A -> world -> Prop) w :
  Q (f w.(w_hart)) w -> wpx B (geth f) Q w.
Proof. done. Qed.
Lemma wpx_modh f (Q : unit -> world -> Prop) w :
  Q tt (set_w_hart (f w.(w_hart)) w) -> wpx B (modh f) Q w.
Proof. done. Qed.
Lemma wpx_emit e (Q : unit -> world -> Prop) w :
  Q tt (set_w_trace (w.(w_trace) ++ [e]) w) -> wpx B (emit e) Q w.
Proof. done. Qed.
End access_rules.

(** [wstep] extended to accesses to the kernel state. *)
Ltac kstep :=
  lazymatch goal with
  | |- wpx _ (getk _) _ _ => apply wpx_getk
  | |- wpx _ (modk _) _ _ => apply wpx_modk
  | |- wpx _ (geth _) _ _ => apply wpx_geth
  | |- wpx _ (modh _) _ _ => apply wpx_modh
  | |- wpx _ (emit _) _ _ => apply wpx_emit
  | |- _ => wstep
  end; cbn beta.
Ltac ksteps := repeat kstep.

(** Unfold the monad to evaluate a straight-line piece of code. *)
Ltac keval :=
  unfold mbind, M_bind, mret, M_ret, gets, modify, getk, modk, geth, modh, emit, when, panic;
  cbn.
