(* ===== verification/Spinlock.v ===== *)
(** * Spinlocks and interrupt nesting: kernel/spinlock.c *)

From S2P Require Import Prelude Memory Riscv Machine.

(** ** Identities of the kernel's spinlocks

    A spinlock is named by an integer standing for its address.  The lock
    of a pipe is the first field of [struct pipe], so its name is the
    address of the pipe. *)
Definition kmem_lock : Z := 1.
Definition pid_lock : Z := 2.
Definition wait_lock : Z := 3.
Definition tickslock : Z := 4.
Definition bcache_lock : Z := 5.
Definition log_lock : Z := 6.
Definition itable_lock : Z := 7.
Definition ftable_lock : Z := 8.
Definition cons_lock : Z := 9.
Definition tx_lock : Z := 10.
Definition pr_lock : Z := 11.
Definition vdisk_lock : Z := 12.
Definition proc_lock (i : nat) : Z := 1000 + Z.of_nat i.
Definition buf_lk (i : nat) : Z := 2000 + Z.of_nat i.
Definition inode_lk (i : nat) : Z := 3000 + Z.of_nat i.

(** ** Interrupt enable: kernel/riscv.h *)

Definition intr_on : K unit :=
  modh (fun h => set_h_sstatus (Z.lor h.(h_sstatus) SSTATUS_SIE) h).
Definition intr_off : K unit :=
  modh (fun h => set_h_sstatus (Z.land h.(h_sstatus) (Z.lnot SSTATUS_SIE)) h).
Definition intr_get : K bool :=
  x ← geth h_sstatus; mret (ztrue (Z.land x SSTATUS_SIE)).

(** ** kernel/spinlock.c *)

Definition lock_at (s : kstate) (lk : Z) : spinlock :=
  default (Spinlock 0 "" None) (s.(locks) !! lk).
Definition upd_lock (lk : Z) (f : spinlock -> spinlock) : K unit :=
  modk (fun s => set_locks (<[lk := f (lock_at s lk)]> s.(locks)) s).

Definition initlock (lk : Z) (name : string) : K unit :=
  upd_lock lk (set_lk_name name);;
  upd_lock lk (set_lk_locked 0);;
  upd_lock lk (set_lk_cpu None).

Definition push_off : K unit :=
  old ← intr_get;
  intr_off;;
  noff ← geth h_noff;
  when (noff =? 0) (modh (set_h_intena (Z.b2z old)));;
  modh (fun h => set_h_noff (h.(h_noff) + 1) h).

Definition pop_off : K unit :=
  on ← intr_get;
  if (on : bool) then panic "pop_off - interruptible" else
  noff ← geth h_noff;
  if noff <? 1 then panic "pop_off" else
  modh (set_h_noff (noff - 1));;
  noff ← geth h_noff;
  intena ← geth h_intena;
  when ((noff =? 0) && ztrue intena) intr_on.

(** [mycpu()] is the running hart; [holding] compares it with [lk->cpu]. *)
Definition holding (lk : Z) : K bool :=
  l ← getk (fun s => lock_at s lk);
  me ← geth h_tp;
  mret (ztrue l.(lk_locked) && bool_decide (l.(lk_cpu) = Some me)).

(** [__sync_lock_test_and_set(&lk->locked, 1)] *)
Definition lock_test_and_set (lk : Z) : K Z :=
  l ← getk (fun s => lock_at s lk);
  upd_lock lk (set_lk_locked 1);;
  mret l.(lk_locked).

(** The spin loop: each failed attempt lets the other harts run. *)
Fixpoint acquire_spin (fuel : nat) (lk : Z) : K unit :=
  match fuel with
  | O => no_fuel
  | S fuel =>
      old ← lock_test_and_set lk;
      if old =? 0 then mret tt else env_step false;; acquire_spin fuel lk
  end.

Definition acquire (lk : Z) : K unit :=
  push_off;;
  h ← holding lk;
  if (h : bool) then panic "acquire" else
  n ← gets (fun w => length w.(w_env));
  acquire_spin (S n) lk;;
  me ← geth h_tp;
  upd_lock lk (set_lk_cpu (Some me)).

Definition release (lk : Z) : K unit :=
  h ← holding lk;
  if negb h then panic "release" else
  upd_lock lk (set_lk_cpu None);;
  upd_lock lk (set_lk_locked 0);;
  pop_off.

(** kernel/proc.c: [myproc]. *)
Definition myproc : K (option nat) :=
  push_off;;
  p ← geth h_proc;
  pop_off;;
  mret p.

(** ** The effect of nesting on the hart *)

Definition h_sie (h : hart) : bool := Z.testbit h.(h_sstatus) 1.

Definition hart_push (h : hart) : hart :=
  set_h_noff (h.(h_noff) + 1)
    (set_h_intena (if h.(h_noff) =? 0 then Z.b2z (h_sie h) else h.(h_intena))
      (set_h_sstatus (Z.land h.(h_sstatus) (Z.lnot SSTATUS_SIE)) h)).

Definition hart_pop (h : hart) : hart :=
  let h1 := set_h_noff (h.(h_noff) - 1) h in
  if (h1.(h_noff) =? 0) && ztrue h1.(h_intena)
  then set_h_sstatus (Z.lor h1.(h_sstatus) SSTATUS_SIE) h1 else h1.

(** Interrupts are off while any [push_off] is outstanding. *)
Definition hart_ok (h : hart) : Prop :=
  0 <= h.(h_noff) /\ (0 < h.(h_noff) -> h_sie h = false).

(** A matched push and pop leaves the hart as it was, except that at depth
    zero [intena] records whether interrupts are enabled. *)
Definition settle (h : hart) : hart :=
  if h.(h_noff) =? 0 then set_h_intena (Z.b2z (h_sie h)) h else h.

Definition hart_le (h h' : hart) : Prop := h' = h \/ h' = settle h.

Lemma SIE_pow2 : SSTATUS_SIE = 2 ^ 1.
Proof. done. Qed.

Lemma testbit_clear x n m :
  0 <= n -> Z.testbit (Z.land x (Z.lnot (2 ^ n))) m =
  Z.testbit x m && negb (n =? m).
Proof.
  intros Hn. destruct (Z.ltb_spec m 0).
  - by rewrite !Z.testbit_neg_r by done.
  - by rewrite Z.land_spec, Z.lnot_spec, Z.pow2_bits_eqb by done.
Qed.

Lemma clear_unset x n : 0 <= n -> Z.testbit x n = false -> Z.land x (Z.lnot (2 ^ n)) = x.
Proof.
  intros Hn H. apply Z.bits_inj'. intros m Hm. rewrite testbit_clear by done.
  destruct (Z.eqb_spec n m); subst; [by rewrite H|by rewrite andb_true_r].
Qed.

Lemma set_clear x n :
  0 <= n -> Z.testbit x n = true -> Z.lor (Z.land x (Z.lnot (2 ^ n))) (2 ^ n) = x.
Proof.
  intros Hn H. apply Z.bits_inj'. intros m Hm.
  rewrite Z.lor_spec, testbit_clear, Z.pow2_bits_eqb by done.
  destruct (Z.eqb_spec n m); subst; [by rewrite H|by rewrite andb_true_r, orb_false_r].
Qed.

Lemma intr_get_testbit x : ztrue (Z.land x SSTATUS_SIE) = Z.testbit x 1.
Proof. rewrite SIE_pow2, land_pow2_testbit by lia. by destruct (Z.testbit x 1). Qed.

Lemma push_off_run w : push_off w = Ret tt (set_w_hart (hart_push w.(w_hart)) w).
Proof.
  destruct w as [[] ? ? ?]. unfold push_off, intr_get, intr_off, hart_push, h_sie.
  keval. rewrite intr_get_testbit. by destruct (_ =? 0).
Qed.

Lemma pop_off_run w :
  1 <= w.(w_hart).(h_noff) -> h_sie w.(w_hart) = false ->
  pop_off w = Ret tt (set_w_hart (hart_pop w.(w_hart)) w).
Proof.
  destruct w as [[] ? ? ?]. unfold pop_off, intr_get, intr_on, hart_pop, h_sie.
  keval. intros H1 H2. rewrite intr_get_testbit, H2. cbn.
  destruct (Z.ltb_spec h_noff 1); [lia|]. cbn. by destruct (_ && _).
Qed.

Lemma hart_push_ok h : hart_ok h -> hart_ok (hart_push h).
Proof.
  intros [H1 H2]. unfold hart_ok, hart_push, h_sie. cbn. split; [lia|]. intros _.
  rewrite SIE_pow2, testbit_clear by lia. by rewrite Z.eqb_refl, andb_false_r.
Qed.

Lemma hart_pop_push h : hart_ok h -> hart_pop (hart_push h) = settle h.
Proof.
  destruct h. intros [H1 H2]. unfold hart_pop, hart_push, settle, h_sie in *. cbn in *.
  rewrite Z.add_simpl_r. destruct (Z.eqb_spec h_noff 0) as [->|Hn]; cbn.
  - destruct (Z.testbit h_sstatus 1) eqn:Hs; cbn.
    + change (ztrue 1) with true. unfold set_h_sstatus, set_h_noff, set_h_intena. cbn.
      f_equal. rewrite SIE_pow2. by apply set_clear.
    + change (ztrue 0) with false. unfold set_h_sstatus, set_h_noff, set_h_intena. cbn.
      f_equal. rewrite SIE_pow2. by apply clear_unset.
  - unfold set_h_sstatus, set_h_noff, set_h_intena. cbn. f_equal. rewrite SIE_pow2.
    apply clear_unset; [lia|]. apply H2. lia.
Qed.

Lemma settle_ok h : hart_ok h -> hart_ok (settle h).
Proof. unfold settle. by destruct (_ =? 0). Qed.

Lemma settle_idemp h : settle (settle h) = settle h.
Proof.
  unfold settle. destruct (h.(h_noff) =? 0) eqn:E; cbn; rewrite E; [|done].
  by destruct h.
Qed.

Lemma hart_le_refl h : hart_le h h.
Proof. by left. Qed.
Lemma hart_le_settle h : hart_le h (settle h).
Proof. by right. Qed.
Lemma hart_le_trans h1 h2 h3 : hart_le h1 h2 -> hart_le h2 h3 -> hart_le h1 h3.
Proof.
  unfold hart_le. intros [->| ->] [->| ->]; auto. right. by rewrite settle_idemp.
Qed.
Lemma hart_le_ok h h' : hart_le h h' -> hart_ok h -> hart_ok h'.
Proof. intros [->| ->]; auto using settle_ok. Qed.
Lemma hart_le_proj {A} (f : hart -> A) h h' :
  (forall x h, f (set_h_intena x h) = f h) -> hart_le h h' -> f h' = f h.
Proof. intros Hf [->| ->]; [done|]. unfold settle. by destruct (_ =? 0). Qed.
Lemma hart_le_tp h h' : hart_le h h' -> h'.(h_tp) = h.(h_tp).
Proof. by apply hart_le_proj. Qed.
Lemma hart_le_noff h h' : hart_le h h' -> h'.(h_noff) = h.(h_noff).
Proof. by apply hart_le_proj. Qed.
Lemma hart_le_proc h h' : hart_le h h' -> h'.(h_proc) = h.(h_proc).
Proof. by apply hart_le_proj. Qed.

Create HintDb locks.
#[export] Hint Resolve hart_le_refl hart_le_settle hart_le_trans hart_le_ok settle_ok
  hart_push_ok : locks.

(** ** Acquiring and releasing a free lock *)

Definition free_lock (name : string) : spinlock := Spinlock 0 name None.

Definition lock_free (s : kstate) (lk : Z) : Prop :=
  exists name, s.(locks) !! lk = Some (free_lock name).

(** The lock table with [lk] held by hart [me]. *)
Definition lock_by (me lk : Z) (L : gmap Z spinlock) : gmap Z spinlock :=
  alter (fun l => Spinlock 1 l.(lk_name) (Some me)) lk L.
Definition unlocked (lk : Z) (L : gmap Z spinlock) : gmap Z spinlock :=
  alter (fun l => free_lock l.(lk_name)) lk L.

Definition acquired (lk : Z) (w : world) : world :=
  set_w_hart (hart_push w.(w_hart))
    (set_w_st (set_locks (lock_by w.(w_hart).(h_tp) lk w.(w_st).(locks)) w.(w_st)) w).
Definition released (lk : Z) (w : world) : world :=
  set_w_hart (hart_pop w.(w_hart))
    (set_w_st (set_locks (unlocked lk w.(w_st).(locks)) w.(w_st)) w).

Lemma holding_run lk w l :
  w.(w_st).(locks) !! lk = Some l ->
  holding lk w = Ret (ztrue l.(lk_locked) && bool_decide (l.(lk_cpu) = Some w.(w_hart).(h_tp))) w.
Proof. intros HL. unfold holding. keval. unfold lock_at. by rewrite HL. Qed.

Lemma upd_lock_run lk f w l :
  w.(w_st).(locks) !! lk = Some l ->
  upd_lock lk f w = Ret tt (set_w_st (set_locks (<[lk := f l]> w.(w_st).(locks)) w.(w_st)) w).
Proof. intros HL. unfold upd_lock, modk, modify, lock_at. by rewrite HL. Qed.

Lemma initlock_run lk name h env tr s :
  initlock lk name (World h env tr s) =
  Ret tt (World h env tr (set_locks (<[lk := free_lock name]> s.(locks)) s)).
Proof.
  destruct s. unfold initlock. do 2 erewrite bind_run by reflexivity.
  unfold upd_lock, modk, modify, lock_at, set_w_st, set_locks. cbn.
  rewrite !lookup_insert_eq. cbn. by rewrite !insert_insert_eq.
Qed.

Lemma acquire_spin_run fuel lk w l :
  w.(w_st).(locks) !! lk = Some l -> l.(lk_locked) = 0 ->
  acquire_spin (S fuel) lk w =
  Ret tt (set_w_st (set_locks (<[lk := set_lk_locked 1 l]> w.(w_st).(locks)) w.(w_st)) w).
Proof.
  intros HL H0. cbn [acquire_spin]. unfold lock_test_and_set.
  erewrite bind_run; [|erewrite bind_run by reflexivity;
    erewrite bind_run by (by apply upd_lock_run); reflexivity].
  unfold lock_at. rewrite HL. cbn. by rewrite H0.
Qed.

Lemma insert_alter_lock lk (L : gmap Z spinlock) l (f : spinlock -> spinlock) :
  L !! lk = Some l -> <[lk := f l]> L = alter f lk L.
Proof.
  intros HL. apply map_eq. intros j. rewrite lookup_alter, lookup_insert.
  case_decide; subst; [|done]. by rewrite HL.
Qed.

Lemma acquire_run lk w :
  lock_free w.(w_st) lk -> acquire lk w = Ret tt (acquired lk w).
Proof.
  intros [name HL]. unfold acquire.
  erewrite bind_run by apply push_off_run.
  erewrite bind_run by (by apply holding_run). cbn. change (ztrue 0) with false. cbn.
  erewrite bind_run by reflexivity. cbn -[acquire_spin].
  erewrite bind_run by (by eapply acquire_spin_run).
  erewrite bind_run by reflexivity.
  erewrite upd_lock_run by (cbn; by rewrite lookup_insert_eq). cbn.
  rewrite insert_insert_eq. unfold acquired, lock_by.
  by rewrite <-(insert_alter_lock _ _ _ _ HL).
Qed.

Lemma release_run lk w name :
  w.(w_st).(locks) !! lk = Some (Spinlock 1 name (Some w.(w_hart).(h_tp))) ->
  1 <= w.(w_hart).(h_noff) -> h_sie w.(w_hart) = false ->
  release lk w = Ret tt (released lk w).
Proof.
  intros HL Hn Hs. unfold release.
  erewrite bind_run by (by apply holding_run). cbn.
  rewrite bool_decide_eq_true_2 by done. change (ztrue 1) with true. cbn.
  erewrite bind_run by (by apply upd_lock_run).
  erewrite bind_run by (apply upd_lock_run; cbn; by rewrite lookup_insert_eq).
  rewrite pop_off_run by done. unfold released. cbn. rewrite insert_insert_eq.
  unfold unlocked. by rewrite <-(insert_alter_lock _ _ _ _ HL).
Qed.

Lemma unlocked_lock_by me lk L :
  (exists name, L !! lk = Some (free_lock name)) -> unlocked lk (lock_by me lk L) = L.
Proof.
  intros [name HL]. unfold unlocked, lock_by. apply map_eq. intros j.
  rewrite !lookup_alter. repeat case_decide; subst; try done. by rewrite HL.
Qed.

Lemma wpx_acquire B lk (Q : unit -> world -> Prop) w :
  lock_free w.(w_st) lk -> Q tt (acquired lk w) -> wpx B (acquire lk) Q w.
Proof. intros HL HQ. eapply run_wp; [by apply acquire_run|done]. Qed.

(** Releasing a lock that was acquired from a well-formed hart: back to the
    depth before, with the lock free again. *)
Lemma release_locked_run lk h env tr s L :
  hart_ok h -> (exists name, L !! lk = Some (free_lock name)) ->
  s.(locks) = lock_by h.(h_tp) lk L ->
  release lk (World (hart_push h) env tr s) = Ret tt (World (settle h) env tr (set_locks L s)).
Proof.
  intros Hh [name HL] Hs. rewrite (release_run lk _ name); cbn.
  - unfold released. cbn. rewrite hart_pop_push by done. rewrite Hs, unlocked_lock_by; eauto.
  - rewrite Hs. unfold lock_by. rewrite lookup_alter. case_decide; [|done]. by rewrite HL.
  - destruct Hh. lia.
  - apply (hart_push_ok h Hh). cbn. destruct Hh. lia.
Qed.

Lemma wpx_release B lk (Q : unit -> world -> Prop) h env tr s L :
  hart_ok h -> (exists name, L !! lk = Some (free_lock name)) ->
  s.(locks) = lock_by h.(h_tp) lk L ->
  Q tt (World (settle h) env tr (set_locks L s)) ->
  wpx B (release lk) Q (World (hart_push h) env tr s).
Proof. intros. eapply run_wp; [by apply release_locked_run|done]. Qed.

Lemma set_locks_locks s : set_locks s.(locks) s = s.
Proof. by destruct s. Qed.

(** [myproc] only settles the hart. *)
Lemma myproc_run w :
  hart_ok w.(w_hart) ->
  myproc w = Ret w.(w_hart).(h_proc) (set_w_hart (settle w.(w_hart)) w).
Proof.
  intros Hh. unfold myproc. unfold mbind, M_bind. rewrite push_off_run. cbn.
  rewrite pop_off_run; cbn.
  - rewrite hart_pop_push by done. by destruct w.
  - destruct Hh. lia.
  - apply (hart_push_ok _ Hh). cbn. destruct Hh. lia.
Qed.

(** ** Nesting and lock discipline *)

Definition push_offs (n : nat) : K unit := for_each (seq 0 n) (fun _ => push_off).
Definition pop_offs (n : nat) : K unit := for_each (seq 0 n) (fun _ => pop_off).

Fixpoint hart_pushes (n : nat) (h : hart) : hart :=
  match n with O => h | S n => hart_pushes n (hart_push h) end.

Lemma hart_pushes_S n h : hart_pushes (S n) h = hart_push (hart_pushes n h).
Proof. revert h; induction n as [|n IH]; intros h; [done|]. apply (IH (hart_push h)). Qed.

Lemma hart_pushes_ok n h : hart_ok h -> hart_ok (hart_pushes n h).
Proof. revert h; induction n; intros h Hh; simpl; auto with locks. Qed.

Lemma hart_pushes_noff n h : (hart_pushes n h).(h_noff) = h.(h_noff) + Z.of_nat n.
Proof. revert h; induction n as [|n IH]; intros h; [simpl; lia|]. cbn. rewrite IH. cbn. lia. Qed.

Lemma push_offs_run n k w :
  for_each (seq k n) (fun _ => push_off) w = Ret tt (set_w_hart (hart_pushes n w.(w_hart)) w).
Proof.
  revert k w; induction n as [|n IH]; intros k w; [by destruct w|].
  cbn [for_each seq]. erewrite bind_run by apply push_off_run. rewrite IH. by destruct w.
Qed.

(** Popping as often as was pushed settles the hart. *)
Lemma pop_offs_run n k w h :
  hart_ok h -> (0 < n)%nat -> w.(w_hart) = hart_pushes n h ->
  for_each (seq k n) (fun _ => pop_off) w = Ret tt (set_w_hart (settle h) w).
Proof.
  intros Hh. revert k w; induction n as [|n IH]; intros k w Hn Hw; [lia|].
  cbn [for_each seq]. rewrite hart_pushes_S in Hw.
  assert (Hok : hart_ok (hart_pushes n h)) by by apply hart_pushes_ok.
  erewrite bind_run.
  2:{ apply pop_off_run; rewrite Hw.
      - destruct Hok. cbn. lia.
      - apply (hart_push_ok _ Hok). cbn. destruct Hok. lia. }
  rewrite Hw, hart_pop_push by done. destruct n as [|n]; [done|].
  rewrite IH; [by destruct w|lia|]. cbn [w_hart set_w_hart].
  unfold settle. pose proof (hart_pushes_noff (S n) h) as E. destruct Hh.
  destruct (Z.eqb_spec (hart_pushes (S n) h).(h_noff) 0); [lia|done].
Qed.

(** [n] nested [push_off]s followed by [n] [pop_off]s restore the
    interrupt state of the hart, and while any is outstanding interrupts are
    off and the depth is exact. *)
Theorem push_off_pop_off_matched n w :
  hart_ok w.(w_hart) -> (0 < n)%nat ->
  (exists w1, push_offs n w = Ret tt w1 /\ h_sie w1.(w_hart) = false /\
     w1.(w_hart).(h_noff) = w.(w_hart).(h_noff) + Z.of_nat n) /\
  (push_offs n;; pop_offs n) w = Ret tt (set_w_hart (settle w.(w_hart)) w).
Proof.
  intros Hh Hn. split.
  - exists (set_w_hart (hart_pushes n w.(w_hart)) w). split; [apply push_offs_run|]. cbn. split.
    + destruct (hart_pushes_ok n _ Hh) as [_ H]. apply H. rewrite hart_pushes_noff.
      destruct Hh. lia.
    + apply hart_pushes_noff.
  - erewrite bind_run by apply push_offs_run. unfold pop_offs.
    rewrite (pop_offs_run n 0 _ w.(w_hart)); by destruct w.
Qed.

Lemma push_off_pop_off_matched_witness :
  (push_offs 3;; pop_offs 3) (World (set_h_sstatus 2 zero_hart) [] [] zero_kstate)
  = Ret tt (World (set_h_intena 1 (set_h_sstatus 2 zero_hart)) [] [] zero_kstate).
Proof.
  apply (push_off_pop_off_matched 3 (World (set_h_sstatus 2 zero_hart) [] [] zero_kstate)).
  - split; cbn; lia.
  - lia.
Defined.

(** [acquire] and [release] of a free lock are balanced: the lock is
    held with interrupts off in between and everything is restored after;
    acquiring a lock already held by this hart panics, and so does releasing
    one that is not held. *)
Theorem acquire_release_discipline lk w :
  hart_ok w.(w_hart) -> lock_free w.(w_st) lk ->
  (exists w1, acquire lk w = Ret tt w1 /\ holding lk w1 = Ret true w1 /\
     h_sie w1.(w_hart) = false /\ acquire lk w1 = Panic "acquire" /\
     release lk w1 = Ret tt (set_w_hart (settle w.(w_hart)) w)) /\
  release lk w = Panic "release".
Proof.
  intros Hh HL. pose proof HL as [name HL']. split.
  - exists (acquired lk w). split; [by apply acquire_run|].
    assert (Hl : (acquired lk w).(w_st).(locks) !! lk =
                 Some (Spinlock 1 name (Some w.(w_hart).(h_tp)))).
    { cbn. unfold lock_by. rewrite lookup_alter. case_decide; [|done]. by rewrite HL'. }
    split_and!.
    + erewrite holding_run by done. cbn. by rewrite bool_decide_eq_true_2.
    + destruct Hh as [H1 H2]. apply (hart_push_ok _ (conj H1 H2)). cbn. lia.
    + unfold acquire. erewrite bind_run by apply push_off_run.
      erewrite bind_run by (by apply holding_run). cbn. by rewrite bool_decide_eq_true_2.
    + destruct w as [h env tr s]. unfold acquired, set_w_hart, set_w_st. cbn.
      rewrite (release_locked_run lk h env tr _ s.(locks)); [|done|by exists name|done].
      by destruct s.
  - unfold release. erewrite bind_run by (by apply holding_run). done.
Qed.

Lemma acquire_release_discipline_witness :
  release kmem_lock (World zero_hart [] [] (set_locks {[kmem_lock := free_lock "kmem"]} zero_kstate))
  = Panic "release".
Proof.
  apply (acquire_release_discipline kmem_lock
    (World zero_hart [] [] (set_locks {[kmem_lock := free_lock "kmem"]} zero_kstate))).
  - split; cbn; lia.
  - exists "kmem". reflexivity.
Defined.

(** ** Mutual exclusion between harts

    The same code, seen from all harts at once: each hart is at one point of
    [acquire] or [release], and a step is one access to the shared lock. *)
Module Race.

Inductive pc :=
| Out         (* not using the lock *)
| Spinning    (* in acquire, before a successful test-and-set *)
| Got         (* test-and-set succeeded, lk->cpu not yet written *)
| Critical    (* acquire returned *)
| Releasing.  (* in release, lk->cpu cleared, lk->locked still 1 *)

Record rstate := RState { r_locked : Z; r_cpu : option Z; r_pc : Z -> pc }.

Definition goto (h : Z) (p : pc) (f : Z -> pc) : Z -> pc :=
  fun h' => if decide (h' = h) then p else f h'.

Definition r_holding (s : rstate) (h : Z) : bool :=
  ztrue s.(r_locked) && bool_decide (s.(r_cpu) = Some h).

(** One memory access of one hart. *)
Inductive step : rstate -> rstate -> Prop :=
| step_enter h s :
    s.(r_pc) h = Out -> r_holding s h = false ->
    step s (RState s.(r_locked) s.(r_cpu) (goto h Spinning s.(r_pc)))
| step_tas_fail h s :
    s.(r_pc) h = Spinning -> s.(r_locked) <> 0 ->
    step s (RState 1 s.(r_cpu) s.(r_pc))
| step_tas_ok h s :
    s.(r_pc) h = Spinning -> s.(r_locked) = 0 ->
    step s (RState 1 s.(r_cpu) (goto h Got s.(r_pc)))
| step_set_cpu h s :
    s.(r_pc) h = Got ->
    step s (RState s.(r_locked) (Some h) (goto h Critical s.(r_pc)))
| step_clear_cpu h s :
    s.(r_pc) h = Critical -> r_holding s h = true ->
    step s (RState s.(r_locked) None (goto h Releasing s.(r_pc)))
| step_unlock h s :
    s.(r_pc) h = Releasing ->
    step s (RState 0 s.(r_cpu) (goto h Out s.(r_pc))).

(** After [initlock]. *)
Definition init : rstate := RState 0 None (fun _ => Out).

Definition owner (p : pc) : bool :=
  match p with Got | Critical | Releasing => true | _ => false end.

Record inv (s : rstate) : Prop := {
  inv_locked : s.(r_locked) = 0 \/ s.(r_locked) = 1;
  inv_owner : forall h, owner (s.(r_pc) h) = true -> s.(r_locked) = 1;
  inv_unique : forall h h', owner (s.(r_pc) h) = true -> owner (s.(r_pc) h') = true -> h = h';
  inv_cpu : forall h, s.(r_cpu) = Some h <-> s.(r_pc) h = Critical;
}.

Lemma inv_init : inv init.
Proof. split; cbn; auto; done. Qed.

Lemma inv_step s s' : inv s -> step s s' -> inv s'.
Proof.
  intros [H1 H2 H3 H4] Hs. destruct Hs as [h s Hp Hh|h s Hp Hl|h s Hp Hl|h s Hp|h s Hp Hh|h s Hp];
    split; cbn in *; auto; unfold goto.
  - intros h0. case_decide; [done|apply H2].
  - intros h0 h1. repeat case_decide; try done. apply H3.
  - intros h0. rewrite H4. case_decide; subst; [|done]. by rewrite Hp.
  - intros h0 h1. repeat case_decide; subst; try done; intros A B.
    + apply H2 in B. lia.
    + apply H2 in A. lia.
    + by apply H3.
  - intros h0. rewrite H4. case_decide; subst; [|done]. by rewrite Hp.
  - intros h0. case_decide; subst; [|apply H2]. intros _. apply (H2 h). by rewrite Hp.
  - assert (Ho : owner (s.(r_pc) h) = true) by by rewrite Hp.
    intros h0 h1. repeat case_decide; subst; try done; intros; by apply H3.
  - assert (Ho : owner (s.(r_pc) h) = true) by by rewrite Hp.
    intros h0. case_decide; subst; [done|]. split; [congruence|]. intros Hc.
    assert (h0 = h) as ->; [|done]. apply H3; [by rewrite Hc|done].
  - intros h0. case_decide; subst; [|apply H2]. intros _. apply (H2 h). by rewrite Hp.
  - assert (Ho : owner (s.(r_pc) h) = true) by by rewrite Hp.
    intros h0 h1. repeat case_decide; subst; try done; intros; by apply H3.
  - assert (Ho : owner (s.(r_pc) h) = true) by by rewrite Hp.
    intros h0. case_decide; subst; [done|]. split; [done|]. intros Hc.
    assert (h0 = h) as ->; [|done]. apply H3; [by rewrite Hc|done].
  - intros h0. case_decide; subst; [done|]. intros Ho.
    assert (h0 = h) as ->; [|done]. apply H3; [done|by rewrite Hp].
  - intros h0 h1. repeat case_decide; try done. apply H3.
  - intros h0. rewrite H4. case_decide; subst; [|done]. by rewrite Hp.
Qed.

Lemma reachable_inv s : rtc step init s -> inv s.
Proof.
  intros H. assert (forall s0, inv s0 -> rtc step s0 s -> inv s) as Hi.
  { intros s0 H0 Hr. induction Hr; eauto using inv_step. }
  eapply Hi; [apply inv_init|done].
Qed.

(** C37: in every interleaving of any number of harts at most one hart is
    between a successful test-and-set and the final release; the hart in the
    critical section passes the check in [release], and no hart outside
    fails the check in [acquire]. *)
Theorem spinlock_mutual_exclusion s h h' :
  rtc step init s ->
  (owner (s.(r_pc) h) = true -> owner (s.(r_pc) h') = true -> h = h') /\
  (s.(r_pc) h = Critical -> r_holding s h = true) /\
  (s.(r_pc) h = Out -> r_holding s h = false).
Proof.
  intros Hr. destruct (reachable_inv s Hr) as [H1 H2 H3 H4]. split_and!.
  - apply H3.
  - intros Hc. unfold r_holding. rewrite (H2 h) by by rewrite Hc.
    by rewrite bool_decide_eq_true_2 by by apply H4.
  - intros Ho. unfold r_holding. rewrite bool_decide_eq_false_2; [by rewrite andb_false_r|].
    rewrite H4. congruence.
Qed.

(** Hart 0 holds the lock while hart 1 spins. *)
Lemma spinlock_mutual_exclusion_witness :
  exists s, s.(r_pc) 0 = Critical /\ s.(r_pc) 1 = Spinning /\ r_holding s 0 = true.
Proof.
  eexists (RState _ _ (goto 1 Spinning (goto 0 Critical (goto 0 Got (goto 0 Spinning (fun _ => Out)))))).
  split; [reflexivity|]. split; [reflexivity|].
  eapply (spinlock_mutual_exclusion _ 0 1); [|reflexivity].
  eapply rtc_l; [apply (step_enter 0 init); reflexivity|].
  eapply rtc_l; [apply (step_tas_ok 0); reflexivity|].
  eapply rtc_l; [apply (step_set_cpu 0); reflexivity|].
  eapply rtc_l; [apply (step_enter 1); reflexivity|]. apply rtc_refl.
Defined.

End Race.
