(* ===== verification/Kalloc.v ===== *)
(** * Physical page allocator: kernel/kalloc.c

    The free list is threaded through the free pages themselves: the first
    eight bytes of a free page hold the address of the next one. *)

From S2P Require Import Prelude Memory CString Riscv Machine Spinlock.

(** Addresses that kernel.ld and the assembly files give to the C code. *)
Class Image := {
  kend : Z;          (* end[]: first address after the kernel *)
  etext : Z;         (* etext[]: end of kernel text *)
  trampoline : Z;    (* trampoline[]: physical address of the trampoline page *)
  uservec_off : Z;   (* uservec - trampoline *)
  userret_off : Z;   (* userret - trampoline *)
  kernelvec : Z;
  usertrap_addr : Z;
  forkret_addr : Z;
  stat_pad : list Z; (* the four padding bytes of a struct stat on the stack *)
}.

(** What the linker script guarantees about them. *)
Class ImageOk (I : Image) : Prop := {
  kend_range : KERNBASE <= kend <= PHYSTOP;
  etext_range : KERNBASE < etext <= kend;
  etext_aligned : page_aligned etext;
  trampoline_range : KERNBASE <= trampoline < etext;
  trampoline_aligned : page_aligned trampoline;
}.

Section kalloc.
Context {I : Image}.

Definition modmem (f : memory -> memory) : K unit := modk (fun s => set_mem (f s.(mem)) s).

Definition kfree (pa : Z) : K unit :=
  if negb (pa mod PGSIZE =? 0) || (pa <? kend) || (PHYSTOP <=? pa) then panic "kfree" else
  modmem (fun m => memset m pa 1 PGSIZE);;
  let r := pa in
  acquire kmem_lock;;
  fl ← getk freelist;
  modmem (fun m => store64 m r fl);;
  modk (set_freelist r);;
  release kmem_lock.

Definition kalloc : K Z :=
  acquire kmem_lock;;
  r ← getk freelist;
  when (ztrue r) (next ← getk (fun s => load64 s.(mem) r); modk (set_freelist next));;
  release kmem_lock;;
  when (ztrue r) (modmem (fun m => memset m r 5 PGSIZE));;
  mret r.

(** [for(; p + PGSIZE <= pa_end; p += PGSIZE) kfree(p);] *)
Fixpoint freerange_loop (fuel : nat) (p pa_end : Z) : K unit :=
  if p + PGSIZE <=? pa_end then
    match fuel with
    | O => no_fuel
    | S fuel => kfree p;; freerange_loop fuel (p + PGSIZE) pa_end
    end
  else mret tt.

Definition freerange (pa_start pa_end : Z) : K unit :=
  let p := PGROUNDUP pa_start in
  freerange_loop (Z.to_nat ((pa_end - p) / PGSIZE)) p pa_end.

Definition kinit : K unit :=
  initlock kmem_lock "kmem";;
  freerange kend PHYSTOP.

(** ** The free list *)

(** A page the allocator may hand out. *)
Definition page_ok (x : Z) : Prop := page_aligned x /\ kend <= x < PHYSTOP.

(** [chain m p l]: following the [next] pointers from [p] visits [l]. *)
Fixpoint chain (m : memory) (p : Z) (l : list Z) : Prop :=
  match l with
  | [] => p = 0
  | x :: l => p = x /\ x <> 0 /\ chain m (load64 m x) l
  end.

(** The allocator's view of memory [m] with list head [fl]: [l] are the free
    pages, most recently freed first. *)
Record kmem_inv (m : memory) (fl : Z) (l : list Z) : Prop := {
  km_mem : mem_ok m;
  km_chain : chain m fl l;
  km_nodup : NoDup l;
  km_pages : Forall page_ok l;
}.

(** The kernel state with other memory and free list. *)
Definition set_km (m : memory) (fl : Z) (s : kstate) : kstate := set_freelist fl (set_mem m s).

Lemma chain_ext m m' p l :
  (forall x, x ∈ l -> load64 m x = load64 m' x) -> chain m p l -> chain m' p l.
Proof.
  revert p; induction l as [|x l IH]; intros p H; cbn; [done|].
  intros (-> & Hx & Hc). split_and!; [done..|]. rewrite <-H by apply list_elem_of_here.
  apply IH; [|done]. intros y Hy. apply H. by apply list_elem_of_further.
Qed.

(** Changing memory outside the free pages keeps the free list. *)
Lemma kmem_inv_ext m m' fl l :
  kmem_inv m fl l -> mem_ok m' ->
  (forall p, p ∈ l -> mem_agree m m' p PGSIZE) ->
  kmem_inv m' fl l.
Proof.
  intros [H1 H2 H3 H4] Hm Hout. split; auto.
  eapply chain_ext; [|done]. intros x Hx. apply load64_ext. intros y Hy.
  apply (Hout x Hx). llia.
Qed.

Lemma page_ok_nonzero `{!ImageOk I} x : page_ok x -> x <> 0.
Proof. intros [_ H]. pose proof kend_range. llia. Qed.

Lemma page_ok_range `{!ImageOk I} x : page_ok x -> 0 <= x /\ x + PGSIZE <= 2 ^ 56.
Proof. intros [_ H]. pose proof kend_range. llia. Qed.

Lemma page_ok_aligned x : page_ok x -> page_aligned x.
Proof. by intros []. Qed.

(** ** Runs of the operations *)

Lemma kalloc_run h env tr m fl s :
  hart_ok h -> lock_free s kmem_lock ->
  kalloc (World h env tr (set_km m fl s)) =
  Ret fl (World (settle h) env tr
    (if ztrue fl then set_km (memset m fl 5 PGSIZE) (load64 m fl) s else set_km m fl s)).
Proof.
  intros Hh HL. destruct s. unfold set_km, set_freelist, set_mem. cbn in *. unfold kalloc.
  erewrite bind_run by (by apply acquire_run).
  erewrite bind_run by reflexivity.
  unfold acquired, set_w_hart, set_w_st, set_locks. cbn in *.
  destruct (ztrue fl) eqn:Hz; cbn [when].
  - erewrite bind_run by (erewrite bind_run by reflexivity; reflexivity).
    unfold set_w_st, set_freelist. cbn.
    erewrite bind_run by (by apply (release_locked_run _ h _ _ _ locks)).
    by erewrite bind_run by reflexivity.
  - erewrite bind_run by reflexivity.
    erewrite bind_run by (by apply (release_locked_run _ h _ _ _ locks)).
    by erewrite bind_run by reflexivity.
Qed.

Lemma kfree_run h env tr m fl s pa :
  hart_ok h -> lock_free s kmem_lock -> page_ok pa ->
  kfree pa (World h env tr (set_km m fl s)) =
  Ret tt (World (settle h) env tr (set_km (store64 (memset m pa 1 PGSIZE) pa fl) pa s)).
Proof.
  intros Hh HL [Ha Hr]. destruct s. unfold set_km, set_freelist, set_mem. cbn in *. unfold kfree.
  rewrite (proj2 (Z.eqb_eq _ _) Ha). cbn [negb orb].
  destruct (Z.ltb_spec pa kend), (Z.leb_spec PHYSTOP pa); try lia. cbn [orb].
  erewrite bind_run by reflexivity. unfold set_w_st, set_mem. cbn.
  erewrite bind_run by (by apply acquire_run).
  unfold acquired, set_w_hart, set_w_st, set_locks. cbn in *.
  erewrite bind_run by reflexivity. erewrite bind_run by reflexivity.
  erewrite bind_run by reflexivity. unfold set_w_st, set_mem, set_freelist. cbn.
  by rewrite (release_locked_run _ h _ _ _ locks).
Qed.

(** [kfree] of anything that is not a page of the allocator's range. *)
Lemma kfree_panic pa w : ~ page_ok pa -> kfree pa w = Panic "kfree".
Proof.
  intros H. unfold kfree.
  destruct (Z.eqb_spec (pa mod PGSIZE) 0), (Z.ltb_spec pa kend), (Z.leb_spec PHYSTOP pa);
    cbn; try done.
  exfalso. apply H. split; [done|lia].
Qed.

(** ** The free list as an abstract stack of pages *)

Lemma kalloc_inv m fl x l :
  kmem_inv m fl (x :: l) -> kmem_inv (memset m x 5 PGSIZE) (load64 m x) l.
Proof.
  intros [H1 H2 H3 H4]. apply NoDup_cons in H3 as [Hx H3].
  apply Forall_cons in H4 as [Hpx H4]. destruct H2 as (Hf & Hnz & Hc).
  apply (kmem_inv_ext m); [by split|by apply mem_ok_memset|].
  intros p Hp y Hy. rewrite mget_memset by llia. rewrite decide_False; [done|].
  rewrite Forall_forall in H4.
  destruct (pages_disjoint p x) as [?|?]; [apply H4, Hp|apply Hpx|by intros ->| |]; llia.
Qed.

Lemma kmem_inv_fl `{!ImageOk I} m fl l : kmem_inv m fl l -> 0 <= fl < 2 ^ 64.
Proof.
  intros [_ H2 _ H4]. destruct l as [|x l]; cbn in H2; [lia|]. destruct H2 as [-> _].
  apply Forall_cons in H4 as [Hx _]. apply page_ok_range in Hx. llia.
Qed.

Lemma kfree_inv `{!ImageOk I} m fl pa l :
  kmem_inv m fl l -> page_ok pa -> pa ∉ l ->
  kmem_inv (store64 (memset m pa 1 PGSIZE) pa fl) pa (pa :: l).
Proof.
  intros Hinv Hpa Hl. pose proof (kmem_inv_fl _ _ _ Hinv) as Hfl.
  destruct Hinv as [H1 H2 H3 H4]. split.
  - apply mem_ok_store64. by apply mem_ok_memset.
  - split_and!; [done|by apply page_ok_nonzero|].
    rewrite load64_store64 by done.
    eapply chain_ext; [|done]. intros x Hx. rewrite Forall_forall in H4.
    apply load64_ext. intros y Hy.
    destruct (pages_disjoint x pa) as [?|?]; [apply H4, Hx|apply Hpa|by intros ->| |];
      rewrite mget_store64_out by llia; rewrite mget_memset by llia; rewrite decide_False; llia.
  - by constructor.
  - by constructor.
Qed.

(** Memory of [kfree] outside the page. *)
Lemma mget_kfree m pa fl x :
  x < pa \/ pa + PGSIZE <= x -> mget (store64 (memset m pa 1 PGSIZE) pa fl) x = mget m x.
Proof.
  intros H. rewrite mget_store64_out by llia. rewrite mget_memset by llia.
  rewrite decide_False; [done|lia].
Qed.

Lemma wpx_kalloc B (Q : Z -> world -> Prop) h env tr m fl s l :
  hart_ok h -> lock_free s kmem_lock -> kmem_inv m fl l ->
  (l = [] -> fl = 0 -> Q 0 (World (settle h) env tr (set_km m fl s))) ->
  (forall x l' fl', l = x :: l' -> page_ok x -> x <> 0 -> x ∉ l' ->
     kmem_inv (memset m x 5 PGSIZE) fl' l' ->
     Q x (World (settle h) env tr (set_km (memset m x 5 PGSIZE) fl' s))) ->
  wpx B kalloc Q (World h env tr (set_km m fl s)).
Proof.
  intros Hh HL Hinv H0 H1. eapply run_wp; [by apply kalloc_run|].
  destruct l as [|x l].
  - pose proof (km_chain _ _ _ Hinv) as Hc. cbn in Hc. subst. by apply H0.
  - pose proof (kalloc_inv m fl x l Hinv) as Hinv'.
    destruct Hinv as [_ (-> & Hnz & _) Hnd Hp].
    rewrite (proj2 (ztrue_true x) Hnz).
    apply NoDup_cons in Hnd as [Hx _]. apply Forall_cons in Hp as [Hp _]. by apply (H1 x l).
Qed.

Lemma wpx_kfree `{!ImageOk I} B (Q : unit -> world -> Prop) h env tr m fl s l pa :
  hart_ok h -> lock_free s kmem_lock -> kmem_inv m fl l -> page_ok pa -> pa ∉ l ->
  (kmem_inv (store64 (memset m pa 1 PGSIZE) pa fl) pa (pa :: l) ->
   Q tt (World (settle h) env tr (set_km (store64 (memset m pa 1 PGSIZE) pa fl) pa s))) ->
  wpx B (kfree pa) Q (World h env tr (set_km m fl s)).
Proof.
  intros Hh HL Hinv Hpa Hl HQ. eapply run_wp; [by apply kfree_run|].
  by apply HQ, kfree_inv.
Qed.

(** ** Filling the free list at boot *)

(** The [n] consecutive pages from [p]. *)
Fixpoint page_range (p : Z) (n : nat) : list Z :=
  match n with
  | O => []
  | S n => p :: page_range (p + PGSIZE) n
  end.

Lemma elem_of_page_range p n x :
  page_aligned p ->
  x ∈ page_range p n <-> page_aligned x /\ p <= x < p + Z.of_nat n * PGSIZE.
Proof.
  revert p; induction n as [|n IH]; intros p Hp; cbn [page_range].
  - rewrite elem_of_nil. split; [done|]. llia.
  - rewrite elem_of_cons, IH.
    2:{ apply page_aligned_add; [done|]. apply (page_aligned_pgsize_mul 1). }
    split.
    + intros [->|[? ?]]; [split; [done|llia]|split; [done|llia]].
    + intros [Hx Hr]. destruct (decide (x = p)) as [->|Hne]; [by left|]. right.
      split; [done|]. destruct (pages_disjoint x p Hx Hp Hne); llia.
Qed.

Lemma wpx_freerange_loop `{!ImageOk I} B n pa_end s (Q : unit -> world -> Prop) h env tr m fl l p :
  hart_ok h -> lock_free s kmem_lock -> kmem_inv m fl l ->
  page_aligned p -> kend <= p -> pa_end <= PHYSTOP -> n = Z.to_nat ((pa_end - p) / PGSIZE) ->
  (forall x, x ∈ l -> x < p) ->
  (forall h' m' fl', hart_le h h' -> kmem_inv m' fl' (reverse (page_range p n) ++ l) ->
     Q tt (World h' env tr (set_km m' fl' s))) ->
  wpx B (freerange_loop n p pa_end) Q (World h env tr (set_km m fl s)).
Proof.
  revert h m fl l p Q. induction n as [|n IH];
    intros h m fl l p Q Hh HL Hinv Hp Hk He Hn Hl HQ; cbn [freerange_loop].
  - destruct (Z.leb_spec (p + PGSIZE) pa_end) as [Hle|Hgt].
    + exfalso. assert (1 <= (pa_end - p) / PGSIZE) by (apply Z.div_le_lower_bound; llia). lia.
    + apply wpx_ret, HQ; [apply hart_le_refl|done].
  - assert (0 <= (pa_end - p) / PGSIZE) by lia.
    assert (Hdiv : (pa_end - (p + PGSIZE)) / PGSIZE = (pa_end - p) / PGSIZE - 1).
    { replace (pa_end - (p + PGSIZE)) with (pa_end - p + (-1) * PGSIZE) by lia.
      rewrite Z.div_add by llia. lia. }
    assert (p + PGSIZE <= pa_end).
    { pose proof (Z.mul_div_le (pa_end - p) PGSIZE ltac:(llia)). llia. }
    destruct (Z.leb_spec (p + PGSIZE) pa_end); [|lia].
    apply wpx_bind. eapply wpx_kfree; [done..| | |].
    + split; [done|llia].
    + intros Hin. apply Hl in Hin. lia.
    + intros Hinv'. eapply IH; [by apply settle_ok|done|exact Hinv'|..].
      * apply page_aligned_add; [done|]. apply (page_aligned_pgsize_mul 1).
      * llia.
      * done.
      * lia.
      * intros x. rewrite elem_of_cons. intros [->|Hx%Hl]; llia.
      * intros h' m' fl' Hh' Hi. apply HQ; [by eauto with locks|].
        cbn [page_range]. by rewrite reverse_cons, <-app_assoc.
Qed.

(** ** Properties *)

(** [kalloc] pops the abstract stack of free pages: it returns 0 exactly
    when no page is free, otherwise a page that is no longer free, filled
    with 5s; no other memory and no other kernel state changes, and every
    lock is free again. *)
Theorem kalloc_correct h env tr s l :
  hart_ok h -> lock_free s kmem_lock -> kmem_inv s.(mem) s.(freelist) l ->
  match l with
  | [] => kalloc (World h env tr s) = Ret 0 (World (settle h) env tr s)
  | x :: l' =>
      exists m' fl', kalloc (World h env tr s) = Ret x (World (settle h) env tr (set_km m' fl' s)) /\
        kmem_inv m' fl' l' /\ page_ok x /\ (x ∉ l') /\
        forall y, mget m' y = if decide (x <= y < x + PGSIZE) then 5 else mget s.(mem) y
  end.
Proof.
  intros Hh HL Hinv.
  assert (Hs : set_km s.(mem) s.(freelist) s = s) by by destruct s.
  destruct (wp_run kalloc (fun r w' => match l with
    | [] => r = 0 /\ w' = World (settle h) env tr s
    | x :: l' => exists m' fl', r = x /\ w' = World (settle h) env tr (set_km m' fl' s) /\
        kmem_inv m' fl' l' /\ page_ok x /\ (x ∉ l') /\
        forall y, mget m' y = if decide (x <= y < x + PGSIZE) then 5 else mget s.(mem) y
    end) (World h env tr s)) as (r & w' & Hr & Hq).
  { replace (World h env tr s) with (World h env tr (set_km s.(mem) s.(freelist) s))
      by by rewrite Hs.
    eapply wpx_kalloc; [done..| |].
    - intros -> _. by rewrite Hs.
    - intros x l' fl' -> Hp _ Hx Hinv'. exists (memset s.(mem) x 5 PGSIZE), fl'.
      split_and!; [done..|]. intros y. rewrite mget_memset by llia. done. }
  rewrite Hr. destruct l as [|x l'].
  - by destruct Hq as [-> ->].
  - destruct Hq as (m' & fl' & -> & -> & Hrest). eauto.
Qed.

(** [kfree] pushes a page of the allocator's range that is not free onto
    the stack and touches no memory outside that page; for any other
    argument it panics. *)
Theorem kfree_correct `{!ImageOk I} h env tr s l pa :
  hart_ok h -> lock_free s kmem_lock -> kmem_inv s.(mem) s.(freelist) l -> pa ∉ l ->
  (page_ok pa -> exists m',
     kfree pa (World h env tr s) = Ret tt (World (settle h) env tr (set_km m' pa s)) /\
     kmem_inv m' pa (pa :: l) /\
     forall y, y < pa \/ pa + PGSIZE <= y -> mget m' y = mget s.(mem) y) /\
  (~ page_ok pa -> kfree pa (World h env tr s) = Panic "kfree").
Proof.
  intros Hh HL Hinv Hl. split; [|apply kfree_panic]. intros Hp.
  exists (store64 (memset s.(mem) pa 1 PGSIZE) pa s.(freelist)).
  assert (Hs : set_km s.(mem) s.(freelist) s = s) by by destruct s.
  split_and!.
  - replace (World h env tr s) with (World h env tr (set_km s.(mem) s.(freelist) s))
      by by rewrite Hs.
    by rewrite kfree_run.
  - by apply kfree_inv.
  - intros y Hy. by apply mget_kfree.
Qed.

(** after [kinit] the free pages are exactly the aligned pages between
    the end of the kernel and PHYSTOP, each once. *)
Theorem kinit_correct `{!ImageOk I} h env tr s :
  hart_ok h -> mem_ok s.(mem) -> s.(freelist) = 0 ->
  exists h' m' fl' l,
    kinit (World h env tr s) = Ret tt (World h' env tr
      (set_km m' fl' (set_locks (<[kmem_lock := free_lock "kmem"]> s.(locks)) s))) /\
    hart_le h h' /\ kmem_inv m' fl' l /\
    forall x, x ∈ l <-> page_aligned x /\ kend <= x /\ x + PGSIZE <= PHYSTOP.
Proof.
  intros Hh Hm Hf. pose proof kend_range as Hk.
  destruct (PGROUNDUP_bounds kend) as [Ha Hb]; [llia..|].
  set (s1 := set_locks (<[kmem_lock := free_lock "kmem"]> s.(locks)) s).
  assert (Hinit : initlock kmem_lock "kmem" (World h env tr s) = Ret tt (World h env tr s1)).
  { apply initlock_run. }
  set (n := Z.to_nat ((PHYSTOP - PGROUNDUP kend) / PGSIZE)).
  assert (Hs1 : set_km s.(mem) 0 s1 = s1) by (subst s1; destruct s; cbn in Hf; by subst).
  unfold kinit. erewrite bind_run by exact Hinit. unfold freerange. fold n.
  destruct (wp_run (freerange_loop n (PGROUNDUP kend) PHYSTOP) (fun _ w' => exists h' m' fl',
      hart_le h h' /\ kmem_inv m' fl' (reverse (page_range (PGROUNDUP kend) n) ++ []) /\
      w' = World h' env tr (set_km m' fl' s1)) (World h env tr s1))
    as ([] & w' & Hr & (h' & m' & fl' & Hle & Hinv & ->)).
  { replace (World h env tr s1) with (World h env tr (set_km s.(mem) 0 s1)) by by rewrite Hs1.
    eapply (wpx_freerange_loop _ _ _ s1 _ _ _ _ _ _ []); try done.
    - eexists. apply lookup_insert_eq.
    - split; [done|done|constructor|constructor].
    - llia.
    - intros x Hx. by apply elem_of_nil in Hx.
    - eauto 10. }
  rewrite app_nil_r in Hinv. exists h', m', fl', (reverse (page_range (PGROUNDUP kend) n)).
  split_and!; [done..|]. intros x. rewrite elem_of_reverse, elem_of_page_range by done.
  assert (Hx2 : page_aligned PHYSTOP) by done.
  assert (Hle' : PGROUNDUP kend <= PHYSTOP).
  { destruct (decide (PGROUNDUP kend = PHYSTOP)) as [|Hne]; [llia|].
    destruct (pages_disjoint _ _ Ha Hx2 Hne); llia. }
  assert (Hn : PGROUNDUP kend + Z.of_nat n * PGSIZE = PHYSTOP).
  { unfold n. rewrite Z2Nat.id by (apply Z.div_pos; llia).
    assert (page_aligned (PHYSTOP - PGROUNDUP kend)) as Hd by by apply page_aligned_sub.
    unfold page_aligned in Hd. pose proof (Z.div_mod (PHYSTOP - PGROUNDUP kend) PGSIZE). llia. }
  split; [intros [Hx Hr']; split; [done|]|intros (Hx & Hr1 & Hr2); split; [done|]].
  - destruct (pages_disjoint x PHYSTOP Hx Hx2); [llia..|].
    llia.
  - assert (PGROUNDUP kend <= x).
    { destruct (decide (x = PGROUNDUP kend)) as [|Hne]; [lia|].
      destruct (pages_disjoint _ _ Hx Ha Hne); llia. }
    llia.
Qed.

End kalloc.

#[global] Arguments set_km : simpl never.

(** ** Concrete instances *)

(** A kernel image that leaves eight pages of memory to the allocator. *)
Definition small_image : Image := {|
  kend := PHYSTOP - 8 * PGSIZE; etext := KERNBASE + 8 * PGSIZE;
  trampoline := KERNBASE + 7 * PGSIZE; uservec_off := 0; userret_off := 0x9c;
  kernelvec := KERNBASE + 0x100; usertrap_addr := KERNBASE + 0x200;
  forkret_addr := KERNBASE + 0x300; stat_pad := [0; 0; 0; 0] |}.

Lemma small_image_ok : ImageOk small_image.
Proof. split; cbn; try llia; done. Qed.

#[local] Existing Instances small_image small_image_ok.

(** Static data with the allocator's lock initialised. *)
Definition small_kstate (fl : Z) : kstate :=
  set_freelist fl (set_locks {[kmem_lock := free_lock "kmem"]} zero_kstate).

Lemma small_hart_ok : hart_ok zero_hart.
Proof. split; cbn; lia. Qed.

Lemma small_lock_free fl : lock_free (small_kstate fl) kmem_lock.
Proof. exists "kmem". apply lookup_singleton_eq. Qed.

Lemma kalloc_correct_witness :
  exists m' fl',
    kalloc (World zero_hart [] [] (small_kstate (PHYSTOP - PGSIZE))) =
    Ret (PHYSTOP - PGSIZE)
      (World (settle zero_hart) [] [] (set_km m' fl' (small_kstate (PHYSTOP - PGSIZE)))) /\
    kmem_inv m' fl' [].
Proof.
  destruct (kalloc_correct zero_hart [] [] (small_kstate (PHYSTOP - PGSIZE)) [PHYSTOP - PGSIZE])
    as (m' & fl' & H1 & H2 & _).
  - apply small_hart_ok.
  - apply small_lock_free.
  - split; [apply mem_ok_empty| |apply NoDup_singleton|].
    + cbn. split_and!; [done|done|]. vm_compute. reflexivity.
    + constructor; [|constructor]. split; [done|]. cbn. llia.
  - exists m', fl'. split; assumption.
Defined.

Lemma kfree_correct_witness :
  exists m',
    kfree (PHYSTOP - PGSIZE) (World zero_hart [] [] (small_kstate 0)) =
    Ret tt (World (settle zero_hart) [] [] (set_km m' (PHYSTOP - PGSIZE) (small_kstate 0))) /\
    kfree 4096 (World zero_hart [] [] (small_kstate 0)) = Panic "kfree".
Proof.
  assert (Hi : kmem_inv (small_kstate 0).(mem) (small_kstate 0).(freelist) []).
  { split; [apply mem_ok_empty|done|apply NoDup_nil_2|constructor]. }
  destruct (kfree_correct zero_hart [] [] (small_kstate 0) [] (PHYSTOP - PGSIZE)
    small_hart_ok (small_lock_free 0) Hi) as [[m' [H1 _]] _].
  - apply not_elem_of_nil.
  - split; [done|]. cbn. llia.
  - destruct (kfree_correct zero_hart [] [] (small_kstate 0) [] 4096
      small_hart_ok (small_lock_free 0) Hi) as [_ H2]; [apply not_elem_of_nil|].
    exists m'. split; [assumption|]. apply H2. intros [_ H]. cbn in H. llia.
Defined.

Lemma kinit_correct_witness :
  exists h' m' fl' l,
    kinit (World zero_hart [] [] zero_kstate) = Ret tt (World h' [] []
      (set_km m' fl' (set_locks (<[kmem_lock := free_lock "kmem"]> ∅) zero_kstate))) /\
    kmem_inv m' fl' l /\ PHYSTOP - PGSIZE ∈ l.
Proof.
  destruct (kinit_correct zero_hart [] [] zero_kstate) as (h' & m' & fl' & l & H1 & _ & H2 & H3).
  - apply small_hart_ok.
  - apply mem_ok_empty.
  - reflexivity.
  - exists h', m', fl', l. split_and!; [assumption..|].
    apply H3. split; [done|]. cbn. llia.
Defined.
