(* ===== verification/Vm.v ===== *)
(** * Virtual memory: kernel/vm.c

    Page tables live in the byte memory; a page-table entry is a 64-bit
    little-endian word of it.  Kernel buffers that vm.c only moves bytes from
    or to ([src] of copyout, [dst] of copyin and copyinstr) are lists of
    bytes: copyout takes the bytes, copyin returns them with its result. *)

From S2P Require Import Prelude Memory CString Riscv Machine Spinlock Kalloc.

(** [&pagetable[i]] for an array of 64-bit entries. *)
Definition pte_at (pagetable i : Z) : Z := pagetable + 8 * i.

(** [*pte] and [*pte = v]. *)
Definition read_pte (pte : Z) : K Z := getk (fun s => load64 s.(mem) pte).
Definition write_pte (pte v : Z) : K unit := modmem (fun m => store64 m pte v).

(** [p->...] for a process pointer. *)
Definition the_proc (p : option nat) : K proc :=
  s ← getk procs;
  match p ≫= (fun i => s !! i) with Some x => mret x | None => bad_pointer end.

Section vm.
Context {I : Image}.

(** The loop of walk() over the levels still to descend. *)
Fixpoint walk_levels (levels : list Z) (pagetable va : Z) (alloc : bool) : K Z :=
  match levels with
  | [] => mret (pte_at pagetable (PX 0 va))
  | level :: levels =>
      let pte := pte_at pagetable (PX level va) in
      v ← read_pte pte;
      if ztrue (Z.land v PTE_V) then walk_levels levels (PTE2PA v) va alloc
      else if negb alloc then mret 0
      else
        pt ← kalloc;
        if pt =? 0 then mret 0 else
        modmem (fun m => memset m pt 0 PGSIZE);;
        write_pte pte (Z.lor (PA2PTE pt) PTE_V);;
        walk_levels levels pt va alloc
  end.

Definition walk (pagetable va : Z) (alloc : bool) : K Z :=
  if MAXVA <=? va then panic "walk" else walk_levels [2; 1] pagetable va alloc.

Definition walkaddr (pagetable va : Z) : K Z :=
  if MAXVA <=? va then mret 0 else
  pte ← walk pagetable va false;
  if pte =? 0 then mret 0 else
  v ← read_pte pte;
  if Z.land v PTE_V =? 0 then mret 0 else
  if Z.land v PTE_U =? 0 then mret 0 else
  mret (PTE2PA v).

(** The body of mappages() after its checks. *)
Fixpoint mappages_loop (fuel : nat) (pagetable a last pa perm : Z) : K Z :=
  match fuel with
  | O => no_fuel
  | S fuel =>
      pte ← walk pagetable a true;
      if pte =? 0 then mret (-1) else
      v ← read_pte pte;
      if ztrue (Z.land v PTE_V) then panic "mappages: remap" else
      write_pte pte (Z.lor (Z.lor (PA2PTE pa) perm) PTE_V);;
      if a =? last then mret 0 else
      mappages_loop fuel pagetable (u64 (a + PGSIZE)) last (u64 (pa + PGSIZE)) perm
  end.

Definition mappages (pagetable va size pa perm : Z) : K Z :=
  if negb (va mod PGSIZE =? 0) then panic "mappages: va not aligned" else
  if negb (size mod PGSIZE =? 0) then panic "mappages: size not aligned" else
  if size =? 0 then panic "mappages: size" else
  mappages_loop (Z.to_nat (size / PGSIZE)) pagetable va (u64 (va + size - PGSIZE)) pa perm.

Definition kvmmap (kpgtbl va pa sz perm : Z) : K unit :=
  r ← mappages kpgtbl va sz pa perm;
  if negb (r =? 0) then panic "kvmmap" else mret tt.

Definition uvmcreate : K Z :=
  pagetable ← kalloc;
  if pagetable =? 0 then mret 0 else
  modmem (fun m => memset m pagetable 0 PGSIZE);;
  mret pagetable.

(** One iteration of uvmunmap(). *)
Definition unmap_page (pagetable a : Z) (do_free : bool) : K unit :=
  pte ← walk pagetable a false;
  if pte =? 0 then mret tt else
  v ← read_pte pte;
  if Z.land v PTE_V =? 0 then mret tt else
  when do_free (kfree (PTE2PA v));;
  write_pte pte 0.

Fixpoint uvmunmap_loop (fuel : nat) (pagetable a stop : Z) (do_free : bool) : K unit :=
  if a <? stop then
    match fuel with
    | O => no_fuel
    | S fuel =>
        unmap_page pagetable a do_free;;
        uvmunmap_loop fuel pagetable (u64 (a + PGSIZE)) stop do_free
    end
  else mret tt.

Definition uvmunmap (pagetable va npages : Z) (do_free : bool) : K unit :=
  if negb (va mod PGSIZE =? 0) then panic "uvmunmap: not aligned" else
  uvmunmap_loop (Z.to_nat npages) pagetable va (u64 (va + npages * PGSIZE)) do_free.

Definition uvmdealloc (pagetable oldsz newsz : Z) : K Z :=
  if oldsz <=? newsz then mret oldsz else
  when (PGROUNDUP newsz <? PGROUNDUP oldsz)
    (let npages := s32 ((PGROUNDUP oldsz - PGROUNDUP newsz) / PGSIZE) in
     uvmunmap pagetable (PGROUNDUP newsz) (u64 npages) true);;
  mret newsz.

(** The loop of uvmalloc(); [oldsz] is already rounded up. *)
Fixpoint uvmalloc_loop (fuel : nat) (pagetable a oldsz newsz xperm : Z) : K Z :=
  if a <? newsz then
    match fuel with
    | O => no_fuel
    | S fuel =>
        mem ← kalloc;
        if mem =? 0 then uvmdealloc pagetable a oldsz;; mret 0 else
        modmem (fun m => memset m mem 0 PGSIZE);;
        r ← mappages pagetable a PGSIZE mem (Z.lor (Z.lor PTE_R PTE_U) xperm);
        if negb (r =? 0) then
          kfree mem;;
          uvmdealloc pagetable a oldsz;;
          mret 0
        else uvmalloc_loop fuel pagetable (u64 (a + PGSIZE)) oldsz newsz xperm
    end
  else mret newsz.

Definition uvmalloc (pagetable oldsz newsz xperm : Z) : K Z :=
  if newsz <? oldsz then mret oldsz else
  let oldsz := PGROUNDUP oldsz in
  uvmalloc_loop (Z.to_nat ((newsz - oldsz) / PGSIZE + 1)) pagetable oldsz oldsz newsz xperm.

(** [depth] bounds the recursion; page tables have three levels. *)
Fixpoint freewalk (depth : nat) (pagetable : Z) : K unit :=
  match depth with
  | O => no_fuel
  | S depth =>
      for_each (seqZ 0 512) (fun i =>
        pte ← read_pte (pte_at pagetable i);
        if ztrue (Z.land pte PTE_V) &&
           (Z.land pte (Z.lor (Z.lor PTE_R PTE_W) PTE_X) =? 0) then
          freewalk depth (PTE2PA pte);;
          write_pte (pte_at pagetable i) 0
        else if ztrue (Z.land pte PTE_V) then panic "freewalk: leaf"
        else mret tt);;
      kfree pagetable
  end.

Definition uvmfree (pagetable sz : Z) : K unit :=
  when (0 <? sz) (uvmunmap pagetable 0 (PGROUNDUP sz / PGSIZE) true);;
  freewalk 3 pagetable.

Fixpoint uvmcopy_loop (fuel : nat) (old new i sz : Z) : K Z :=
  let err := uvmunmap new 0 (i / PGSIZE) true;; mret (-1) in
  if i <? sz then
    match fuel with
    | O => no_fuel
    | S fuel =>
        let continue := uvmcopy_loop fuel old new (u64 (i + PGSIZE)) sz in
        pte ← walk old i false;
        if pte =? 0 then continue else
        v ← read_pte pte;
        if Z.land v PTE_V =? 0 then continue else
        let pa := PTE2PA v in
        let flags := PTE_FLAGS v in
        mem ← kalloc;
        if mem =? 0 then err else
        modmem (fun m => memmove m mem pa PGSIZE);;
        r ← mappages new i PGSIZE mem flags;
        if negb (r =? 0) then kfree mem;; err else continue
    end
  else mret 0.

Definition uvmcopy (old new sz : Z) : K Z :=
  uvmcopy_loop (Z.to_nat (sz / PGSIZE + 1)) old new 0 sz.

Definition uvmclear (pagetable va : Z) : K unit :=
  pte ← walk pagetable va false;
  if pte =? 0 then panic "uvmclear" else
  v ← read_pte pte;
  write_pte pte (Z.land v (Z.lnot PTE_U)).

Definition ismapped (pagetable va : Z) : K bool :=
  pte ← walk pagetable va false;
  if pte =? 0 then mret false else
  v ← read_pte pte;
  mret (ztrue (Z.land v PTE_V)).

Definition vmfault (pagetable va : Z) : K Z :=
  i ← myproc;
  p ← the_proc i;
  if p.(p_sz) <=? va then mret 0 else
  let va := PGROUNDDOWN va in
  mapped ← ismapped pagetable va;
  if mapped : bool then mret 0 else
  mem ← kalloc;
  if mem =? 0 then mret 0 else
  modmem (fun m => memset m mem 0 PGSIZE);;
  r ← mappages p.(p_pagetable) va PGSIZE mem (Z.lor (Z.lor PTE_W PTE_U) PTE_R);
  if negb (r =? 0) then kfree mem;; mret 0 else mret mem.

(** Bytes that one iteration of the copy loops moves: to the end of the page
    or what is left, whichever is less. *)
Definition chunk (va va0 len : Z) : Z :=
  let n := PGSIZE - (va - va0) in if len <? n then len else n.

Fixpoint copyout_loop (fuel : nat) (pagetable dstva : Z) (src : list Z) : K Z :=
  let len := Z.of_nat (length src) in
  if len <=? 0 then mret 0 else
  match fuel with
  | O => no_fuel
  | S fuel =>
      let va0 := PGROUNDDOWN dstva in
      if MAXVA <=? va0 then mret (-1) else
      pa ← walkaddr pagetable va0;
      pa0 ← (if pa =? 0 then vmfault pagetable va0 else mret pa);
      if pa0 =? 0 then mret (-1) else
      pte ← walk pagetable va0 false;
      if pte =? 0 then bad_pointer else
      v ← read_pte pte;
      if Z.land v PTE_W =? 0 then mret (-1) else
      let n := chunk dstva va0 len in
      modmem (fun m => write_bytes m (pa0 + (dstva - va0)) (take (Z.to_nat n) src));;
      copyout_loop fuel pagetable (u64 (va0 + PGSIZE)) (drop (Z.to_nat n) src)
  end.

Definition copyout (pagetable dstva : Z) (src : list Z) : K Z :=
  copyout_loop (S (S (Z.to_nat (Z.of_nat (length src) / PGSIZE)))) pagetable dstva src.

Fixpoint copyin_loop (fuel : nat) (pagetable srcva len : Z) (dst : list Z) : K (Z * list Z) :=
  if len <=? 0 then mret (0, dst) else
  match fuel with
  | O => no_fuel
  | S fuel =>
      let va0 := PGROUNDDOWN srcva in
      pa ← walkaddr pagetable va0;
      pa0 ← (if pa =? 0 then vmfault pagetable va0 else mret pa);
      if pa0 =? 0 then mret (-1, dst) else
      let n := chunk srcva va0 len in
      bytes ← getk (fun s => read_bytes (Z.to_nat n) s.(mem) (pa0 + (srcva - va0)));
      copyin_loop fuel pagetable (u64 (va0 + PGSIZE)) (len - n) (dst ++ bytes)
  end.

Definition copyin (pagetable srcva len : Z) : K (Z * list Z) :=
  copyin_loop (S (S (Z.to_nat (len / PGSIZE)))) pagetable srcva len [].

(** The inner loop of copyinstr(): [n] bytes from [p]; the result says
    whether a NUL was found and what was stored. *)
Fixpoint copyinstr_page (n : nat) (m : memory) (p : Z) : bool * list Z :=
  match n with
  | O => (false, [])
  | S n =>
      if mget m p =? 0 then (true, [0])
      else let (got, l) := copyinstr_page n m (p + 1) in (got, mget m p :: l)
  end.

Fixpoint copyinstr_loop (fuel : nat) (pagetable srcva max : Z) (dst : list Z) : K (Z * list Z) :=
  if max <=? 0 then mret (-1, dst) else
  match fuel with
  | O => no_fuel
  | S fuel =>
      let va0 := PGROUNDDOWN srcva in
      pa0 ← walkaddr pagetable va0;
      if pa0 =? 0 then mret (-1, dst) else
      let n := chunk srcva va0 max in
      r ← getk (fun s => copyinstr_page (Z.to_nat n) s.(mem) (pa0 + (srcva - va0)));
      let '(got_null, bytes) := r in
      if got_null : bool then mret (0, dst ++ bytes)
      else copyinstr_loop fuel pagetable (u64 (va0 + PGSIZE)) (max - n) (dst ++ bytes)
  end.

Definition copyinstr (pagetable srcva max : Z) : K (Z * list Z) :=
  copyinstr_loop (S (S (Z.to_nat (max / PGSIZE)))) pagetable srcva max [].

End vm.
