(* ===== verification/Pagetable.v ===== *)
(** * Page tables as finite maps

    The tree of page-table pages below a root is a map from paths of indices
    to pages, and what it means is a map from page addresses to leaf
    entries.  [walk], [mappages] and [uvmunmap] are specified on these maps,
    with the allocator's free list: every page of a fixed pool is free, a
    page-table page or the frame of a mapped page, and no operation loses or
    duplicates one. *)

From S2P Require Import Prelude Memory CString Riscv Machine Spinlock Kalloc Vm.

(** Page-table pages by path; the index followed last comes first. *)
Abbreviation tables := (gmap (list Z) Z).

Definition in_page (p x : Z) : Prop := p <= x < p + PGSIZE.

(** A page of the virtual address space. *)
Definition vpage (va : Z) : Prop := page_aligned va /\ 0 <= va < MAXVA.

Definition leaf_path (va : Z) : list Z := [PX 1 va; PX 2 va].

(** Where the leaf entry of [va] is. *)
Definition slot (T : tables) (va : Z) : option Z :=
  (fun t => pte_at t (PX 0 va)) <$> T !! leaf_path va.

(** The valid leaf entry of [va], if any. *)
Definition leaf (m : memory) (T : tables) (va : Z) : option Z :=
  a ← slot T va;
  let v := load64 m a in if Z.testbit v 0 then Some v else None.

Section pagetable.
Context {I : Image}.

(** [pt_inv m root T U]: the page-table pages under [root] are [T] and the
    valid leaf entries are [U]. *)
Record pt_inv (m : memory) (root : Z) (T : tables) (U : gmap Z Z) : Prop := {
  pt_root : T !! [] = Some root;
  pt_page p t : T !! p = Some t -> page_ok t;
  pt_path p t : T !! p = Some t -> (length p <= 2)%nat;
  pt_up i p c : T !! (i :: p) = Some c -> is_Some (T !! p);
  pt_idx i p c : T !! (i :: p) = Some c -> 0 <= i < 512 /\ (p = [] -> i < 256);
  pt_inj p q t : T !! p = Some t -> T !! q = Some t -> p = q;
  pt_entry p t i : T !! p = Some t -> (length p < 2)%nat -> 0 <= i < 512 ->
    match T !! (i :: p) with
    | Some c => load64 m (pte_at t i) = Z.lor (PA2PTE c) PTE_V
    | None => Z.testbit (load64 m (pte_at t i)) 0 = false
    end;
  pt_leaf va : vpage va -> U !! va = leaf m T va;
  pt_dom va : is_Some (U !! va) -> vpage va;
}.

Lemma pte_in_page t i : 0 <= i < 512 -> in_page t (pte_at t i) /\ in_page t (pte_at t i + 7).
Proof. unfold in_page, pte_at. llia. Qed.

Lemma ztrue_PTE_V v : ztrue (Z.land v PTE_V) = Z.testbit v 0.
Proof.
  change PTE_V with (2 ^ 0). rewrite land_pow2_testbit by lia.
  by destruct (Z.testbit v 0).
Qed.

Lemma eqb_PTE_V v : (Z.land v PTE_V =? 0) = negb (Z.testbit v 0).
Proof. rewrite <-ztrue_PTE_V. unfold ztrue. by rewrite negb_involutive. Qed.

(** Memory that agrees on the page-table pages has the same tables. *)
Lemma pt_inv_ext m m' root T U :
  pt_inv m root T U ->
  (forall p t, T !! p = Some t -> mem_agree m m' t PGSIZE) ->
  pt_inv m' root T U.
Proof.
  intros [] Hag.
  assert (Hl : forall p t i, T !! p = Some t -> 0 <= i < 512 ->
    load64 m' (pte_at t i) = load64 m (pte_at t i)).
  { intros p t i Ht Hi. symmetry. apply load64_ext. intros x Hx. apply (Hag p t Ht).
    unfold pte_at in Hx. llia. }
  split; auto.
  - intros p t i Ht Hp Hi. erewrite Hl by done. by apply pt_entry0.
  - intros va Hva. rewrite pt_leaf0 by done. unfold leaf, slot.
    destruct (T !! leaf_path va) as [t|] eqn:Ht; cbn; [|done].
    by erewrite Hl by (done || apply PX_range).
Qed.

Lemma leaf_path_inj va va' :
  vpage va -> vpage va' -> leaf_path va = leaf_path va' -> PX 0 va = PX 0 va' -> va = va'.
Proof.
  intros [Ha Hr] [Ha' Hr'] [= H1 H2] H0.
  rewrite (va_of_PX va), (va_of_PX va') by done. by rewrite H0, H1, H2.
Qed.

(** Distinct page-table pages do not overlap. *)
Lemma tables_disjoint m root T U p q t t' :
  pt_inv m root T U -> T !! p = Some t -> T !! q = Some t' -> p <> q ->
  t + PGSIZE <= t' \/ t' + PGSIZE <= t.
Proof.
  intros H Ht Ht' Hne.
  apply pages_disjoint; [by eapply page_ok_aligned, pt_page..|].
  intros ->. by apply Hne, (pt_inj _ _ _ _ H p q t').
Qed.

(** Writing a leaf entry. *)
Lemma pt_inv_store m root T U va a v :
  pt_inv m root T U -> vpage va -> slot T va = Some a -> 0 <= v < 2 ^ 64 ->
  pt_inv (store64 m a v) root T (if Z.testbit v 0 then <[va := v]> U else delete va U).
Proof.
  intros Hi Hva Hs Hv. unfold slot in Hs.
  destruct (T !! leaf_path va) as [t|] eqn:Ht; simplify_eq/=.
  pose proof (PX_range 0 va) as HP. pose proof Hi as [].
  split; auto.
  - intros p t' i Ht' Hp Hi'. rewrite load64_store64_out; [by apply pt_entry0|].
    destruct (tables_disjoint m root T U p (leaf_path va) t' t) as [?|?]; auto;
      [intros ->; cbn in Hp; lia|unfold pte_at; llia..].
  - intros va' Hva'. destruct (decide (va = va')) as [<-|Hne].
    + unfold leaf, slot. rewrite Ht. cbn. rewrite load64_store64 by done.
      destruct (Z.testbit v 0); [by rewrite lookup_insert_eq|by rewrite lookup_delete_eq].
    + transitivity (U !! va'); [destruct (Z.testbit v 0);
        [by rewrite lookup_insert_ne|by rewrite lookup_delete_ne]|].
      rewrite pt_leaf0 by done. unfold leaf, slot.
      destruct (T !! leaf_path va') as [t'|] eqn:Ht'; cbn; [|done].
      rewrite load64_store64_out; [done|]. pose proof (PX_range 0 va') as HP'.
      destruct (decide (leaf_path va = leaf_path va')) as [Hl|Hl].
      * assert (PX 0 va <> PX 0 va') by (intros ?; by apply Hne, leaf_path_inj).
        rewrite <-Hl, Ht in Ht'. injection Ht' as <-.
        unfold pte_at. lia.
      * destruct (tables_disjoint m root T U (leaf_path va) (leaf_path va') t t') as [?|?]; auto;
          unfold pte_at; llia.
  - intros va' [x Hx]. destruct (Z.testbit v 0).
    + apply lookup_insert_Some in Hx as [[<- _]|[_ Hx]]; eauto.
    + apply lookup_delete_Some in Hx as [_ Hx]. eauto.
Qed.

Lemma load64_memset0 m c x : in_page c x -> in_page c (x + 7) -> load64 (memset m c 0 PGSIZE) x = 0.
Proof.
  intros H1 H2. apply (le_load_zero 8). intros y Hy. rewrite mget_memset by llia.
  rewrite decide_True; [done|]. unfold in_page in *. lia.
Qed.

Lemma load64_memset_out m c v x :
  x + 8 <= c \/ c + PGSIZE <= x -> load64 (memset m c v PGSIZE) x = load64 m x.
Proof.
  intros H. apply load64_ext. intros y Hy. rewrite mget_memset by llia.
  rewrite decide_False; [done|lia].
Qed.

(** The memory after walk() has hung a new page-table page [c] into entry
    [i] of the page [t]. *)
Definition hang (m : memory) (t i c : Z) : memory :=
  store64 (memset m c 0 PGSIZE) (pte_at t i) (Z.lor (PA2PTE c) PTE_V).

Lemma PTE_V_flags : 0 <= PTE_V < 2 ^ 10.
Proof. change PTE_V with 1. lia. Qed.

(** Loads in [hang] from a page-table page [t'] other than [c]. *)
Lemma load64_hang_out m t i c t' j :
  t' + PGSIZE <= c \/ c + PGSIZE <= t' -> 0 <= j < 512 -> 0 <= i < 512 ->
  (t' + PGSIZE <= t \/ t + PGSIZE <= t' \/ (t' = t /\ i <> j)) ->
  load64 (hang m t i c) (pte_at t' j) = load64 m (pte_at t' j).
Proof.
  intros Hc Hj Hi Ht. unfold hang. rewrite load64_store64_out by (unfold pte_at; llia).
  apply load64_memset_out. unfold pte_at. llia.
Qed.

Lemma load64_hang_new m t i c j :
  c + PGSIZE <= t \/ t + PGSIZE <= c -> 0 <= j < 512 -> 0 <= i < 512 ->
  load64 (hang m t i c) (pte_at c j) = 0.
Proof.
  intros Hc Hj Hi. unfold hang. rewrite load64_store64_out by (unfold pte_at; llia).
  apply load64_memset0; by apply pte_in_page.
Qed.

Section grow.
Context `{!ImageOk I} (m : memory) (root : Z) (T : tables) (U : gmap Z Z).
Context (Hinv : pt_inv m root T U) (p : list Z) (t i c : Z).
Context (Ht : T !! p = Some t) (Hp : (length p < 2)%nat) (Hi : 0 <= i < 512).
Context (Hi2 : p = [] -> i < 256).
Context (Hnone : T !! (i :: p) = None) (Hc : page_ok c) (Hnew : forall q, T !! q <> Some c).

Lemma grow_disjoint q t' : T !! q = Some t' -> t' + PGSIZE <= c \/ c + PGSIZE <= t'.
Proof.
  intros Hq. apply pages_disjoint; [by eapply page_ok_aligned, pt_page|by apply page_ok_aligned|].
  intros ->. by eapply Hnew.
Qed.

(** Entries of the old page-table pages other than the written one. *)
Lemma grow_load q t' j :
  T !! q = Some t' -> 0 <= j < 512 -> (q, j) <> (p, i) ->
  load64 (hang m t i c) (pte_at t' j) = load64 m (pte_at t' j).
Proof.
  intros Hq Hj Hne. apply load64_hang_out; [by eapply grow_disjoint|done..|].
  destruct (decide (q = p)) as [->|Hqp].
  - rewrite Ht in Hq. injection Hq as <-. right. right. split; [done|congruence].
  - destruct (tables_disjoint m root T U q p t' t Hinv) as [?|?]; auto.
Qed.

Lemma grow_no_child j : T !! (j :: i :: p) = None.
Proof.
  destruct (T !! (j :: i :: p)) eqn:E; [|done].
  apply (pt_up _ _ _ _ Hinv) in E as [? E]. by rewrite Hnone in E.
Qed.

Lemma grow_entry q t' j :
  <[i :: p := c]> T !! q = Some t' -> (length q < 2)%nat -> 0 <= j < 512 ->
  match <[i :: p := c]> T !! (j :: q) with
  | Some c' => load64 (hang m t i c) (pte_at t' j) = Z.lor (PA2PTE c') PTE_V
  | None => Z.testbit (load64 (hang m t i c) (pte_at t' j)) 0 = false
  end.
Proof.
  intros Hq Hl Hj. apply lookup_insert_Some in Hq as [[<- <-]|[Hqne Hq]].
  - rewrite lookup_insert_ne by (intros E; apply (f_equal length) in E; cbn in E; lia).
    rewrite grow_no_child, load64_hang_new; [done| |done..].
    destruct (grow_disjoint p t Ht); lia.
  - destruct (decide (i :: p = j :: q)) as [E|Hne].
    + injection E as <- <-. rewrite lookup_insert_eq. rewrite Ht in Hq. injection Hq as <-.
      unfold hang. rewrite load64_store64; [done|].
      apply PTE_range; [|apply PTE_V_flags]. apply page_ok_range in Hc. llia.
    + rewrite lookup_insert_ne by done. rewrite (grow_load q) by (done || congruence).
      by apply (pt_entry _ _ _ _ Hinv).
Qed.

Lemma grow_leaf va : vpage va -> leaf (hang m t i c) (<[i :: p := c]> T) va = leaf m T va.
Proof.
  intros Hva. unfold leaf, slot. pose proof (PX_range 0 va) as HP.
  destruct (decide (i :: p = leaf_path va)) as [E|Hne].
  - rewrite <-E, lookup_insert_eq, Hnone. cbn. rewrite load64_hang_new; [done| |done..].
    destruct (grow_disjoint p t Ht); lia.
  - rewrite lookup_insert_ne by done. destruct (T !! leaf_path va) as [t'|] eqn:E; cbn; [|done].
    rewrite (grow_load (leaf_path va)); [done..|]. intros [= <- _]. cbn in Hp. lia.
Qed.

(** Hanging a fresh zeroed page into an empty slot changes no mapping. *)
Lemma pt_inv_grow : pt_inv (hang m t i c) root (<[i :: p := c]> T) U.
Proof.
  pose proof Hinv as []. split.
  - by rewrite lookup_insert_ne.
  - intros q t' [[<- <-]|[_ Hq]]%lookup_insert_Some; eauto.
  - intros q t' [[<- <-]|[_ Hq]]%lookup_insert_Some; [cbn; lia|eauto].
  - intros j q t' [[E <-]|[_ Hq]]%lookup_insert_Some.
    + injection E as <- <-. rewrite lookup_insert_ne; [eauto|].
      intros E; apply (f_equal length) in E; cbn in E; lia.
    + apply lookup_insert_is_Some'. right. eauto.
  - intros j q t' [[E <-]|[_ Hq]]%lookup_insert_Some; [|eauto]. injection E as <- <-. done.
  - intros q q' t' [[<- <-]|[_ Hq]]%lookup_insert_Some [[<- ?]|[_ Hq']]%lookup_insert_Some;
      simplify_eq; [done|by destruct (Hnew q')|by destruct (Hnew q)|eauto].
  - apply grow_entry.
  - intros va Hva. rewrite grow_leaf by done. auto.
  - done.
Qed.

End grow.

(** ** Walking *)

(** Where walk() is after following some levels. *)
Definition descent (p : list Z) (levels : list Z) (va : Z) : Prop :=
  (p = [] /\ levels = [2; 1]) \/ (p = [PX 2 va] /\ levels = [1]) \/
  (p = leaf_path va /\ levels = []).

Lemma descent_cons p level levels va :
  descent p (level :: levels) va ->
  descent (PX level va :: p) levels va /\ (length p < 2)%nat /\ length levels = (1 - length p)%nat.
Proof.
  unfold descent, leaf_path.
  intros [[-> [= -> ->]]|[[-> [= -> ->]]|[_ [=]]]]; cbn; split_and!; auto; lia.
Qed.

Lemma descent_nil p va : descent p [] va -> p = leaf_path va.
Proof. by intros [[_ [=]]|[[_ [=]]|[-> _]]]. Qed.

(** Addresses below [MAXVA] use the lower half of the root page. *)
Lemma descent_top p level levels va :
  descent p (level :: levels) va -> 0 <= va < MAXVA -> p = [] -> PX level va < 256.
Proof.
  intros Hd Hva ->. unfold descent, leaf_path in Hd.
  destruct Hd as [[_ [= -> ->]]|[[[=] _]|[[=] _]]].
  rewrite PX_eq by lia. change (2 ^ (12 + 9 * 2)) with (2 ^ 30).
  rewrite Z.mod_small; (split; [apply Z.div_pos; llia|]) || idtac; apply Z.div_lt_upper_bound; llia.
Qed.

(** A prefix of a leaf path that is missing. *)
Lemma descent_none m root T U p level levels va :
  pt_inv m root T U -> descent p (level :: levels) va -> T !! (PX level va :: p) = None ->
  T !! leaf_path va = None.
Proof.
  intros Hi Hd Hn. destruct (T !! leaf_path va) as [t|] eqn:E; [|done]. unfold descent in Hd.
  destruct Hd as [[-> [= -> ->]]|[[-> [= -> ->]]|[_ ?]]]; [|by unfold leaf_path in E; congruence|done].
  apply (pt_up _ _ _ _ Hi) in E as [? E]. congruence.
Qed.

Section walking.
Context `{!ImageOk I}.

Lemma table_PTE2PA m root T U p t : pt_inv m root T U -> T !! p = Some t ->
  PTE2PA (Z.lor (PA2PTE t) PTE_V) = t /\ Z.testbit (Z.lor (PA2PTE t) PTE_V) 0 = true.
Proof.
  intros Hi Ht. pose proof (pt_page _ _ _ _ Hi p t Ht) as Hpg.
  pose proof (page_ok_range t Hpg). split.
  - apply PTE2PA_PA2PTE_flags; [llia|by apply page_ok_aligned|apply PTE_V_flags].
  - rewrite PTE_testbit; [done|llia|apply PTE_V_flags|lia].
Qed.

Lemma walk_levels_false_run root T U levels p t va w :
  pt_inv w.(w_st).(mem) root T U -> T !! p = Some t -> descent p levels va ->
  walk_levels levels t va false w = Ret (default 0 (slot T va)) w.
Proof.
  intros Hi. revert p t. induction levels as [|level levels IH]; intros p t Ht Hd; cbn [walk_levels].
  - apply descent_nil in Hd as ->. unfold slot. by rewrite Ht.
  - pose proof (descent_cons _ _ _ _ Hd) as (Hd' & Hl & _).
    erewrite bind_run by reflexivity. rewrite ztrue_PTE_V.
    pose proof (pt_entry _ _ _ _ Hi p t (PX level va) Ht Hl (PX_range _ _)) as He.
    destruct (T !! (PX level va :: p)) as [c|] eqn:Hc.
    + destruct (table_PTE2PA _ _ _ _ _ _ Hi Hc) as [H1 H2]. rewrite He, H2, H1. by eapply IH.
    + rewrite He. cbn. unfold slot. by erewrite descent_none by done.
Qed.

(** walk() without allocation finds the leaf slot and changes nothing. *)
Lemma walk_false_run root T U va w :
  pt_inv w.(w_st).(mem) root T U -> va < MAXVA ->
  walk root va false w = Ret (default 0 (slot T va)) w.
Proof.
  intros Hi Hva. unfold walk. destruct (Z.leb_spec MAXVA va); [lia|].
  eapply walk_levels_false_run; [done|apply (pt_root _ _ _ _ Hi)|by left].
Qed.

Lemma slot_nonzero m root T U va a : pt_inv m root T U -> slot T va = Some a -> a <> 0.
Proof.
  intros Hi Hs. unfold slot in Hs. destruct (T !! _) as [t|] eqn:Ht; simplify_eq/=.
  pose proof (page_ok_nonzero t (pt_page _ _ _ _ Hi _ _ Ht)).
  pose proof (page_ok_range t (pt_page _ _ _ _ Hi _ _ Ht)).
  pose proof (PX_range 0 va). unfold pte_at. lia.
Qed.

Lemma slot_in_table m root T U va a :
  pt_inv m root T U -> slot T va = Some a ->
  exists t, T !! leaf_path va = Some t /\ in_page t a /\ in_page t (a + 7).
Proof.
  intros Hi Hs. unfold slot in Hs. destruct (T !! _) as [t|] eqn:Ht; simplify_eq/=.
  exists t. split; [done|]. apply pte_in_page, PX_range.
Qed.

End walking.

(** ** The pool of pages *)

Definition tpages (T : tables) : list Z := (map_to_list T).*2.

(** The frames of the mapped pages that own their frame. *)
Definition frames (own : Z -> bool) (U : gmap Z Z) : list Z :=
  (fun kv => PTE2PA kv.2) <$> filter (fun kv => own kv.1 = true) (map_to_list U).

Record vm_inv (own : Z -> bool) (m : memory) (fl root : Z) (l : list Z) (T : tables)
    (U : gmap Z Z) (pool : list Z) : Prop := {
  vm_kmem : kmem_inv m fl l;
  vm_pt : pt_inv m root T U;
  vm_pool : l ++ tpages T ++ frames own U ≡ₚ pool;
  vm_nodup : NoDup pool;
  vm_pages : Forall page_ok pool;
}.

Lemma elem_of_tpages T t : t ∈ tpages T <-> exists p, T !! p = Some t.
Proof.
  unfold tpages. rewrite list_elem_of_fmap. split.
  - intros [[p t'] [-> H]]. exists p. by apply elem_of_map_to_list.
  - intros [p H]. exists (p, t). split; [done|]. by apply elem_of_map_to_list.
Qed.

Lemma tpages_insert T p t : T !! p = None -> tpages (<[p := t]> T) ≡ₚ t :: tpages T.
Proof. intros H. unfold tpages. by rewrite (map_to_list_insert T p t H). Qed.

Lemma elem_of_frames own U x :
  x ∈ frames own U <-> exists va v, U !! va = Some v /\ own va = true /\ x = PTE2PA v.
Proof.
  unfold frames. rewrite list_elem_of_fmap. split.
  - intros [[va v] [-> [Ho H]%list_elem_of_filter]]. exists va, v. split_and!; [|done..].
    by apply elem_of_map_to_list.
  - intros (va & v & H & Ho & ->). exists (va, v). split; [done|].
    apply list_elem_of_filter. split; [done|]. by apply elem_of_map_to_list.
Qed.

Lemma frames_insert own U va v :
  U !! va = None ->
  frames own (<[va := v]> U) ≡ₚ (if own va then [PTE2PA v] else []) ++ frames own U.
Proof.
  intros H. unfold frames. rewrite (map_to_list_insert U va v H), filter_cons.
  cbn. case_decide as Ho; cbn; [by rewrite Ho|]. by destruct (own va).
Qed.

Lemma frames_delete own U va v :
  U !! va = Some v ->
  frames own U ≡ₚ (if own va then [PTE2PA v] else []) ++ frames own (delete va U).
Proof.
  intros H. rewrite <-(insert_delete_id U va v H) at 1.
  apply frames_insert, lookup_delete_eq.
Qed.

(** ** What an operation leaves alone *)

(** Only pages of [P] change. *)
Definition frame (P : list Z) (m m' : memory) : Prop :=
  forall x, (forall p, p ∈ P -> ~ in_page p x) -> mget m' x = mget m x.

(** The contents of the frames of [U] stay. *)
Definition keeps (own : Z -> bool) (U : gmap Z Z) (m m' : memory) : Prop :=
  forall va v, U !! va = Some v -> own va = true -> mem_agree m m' (PTE2PA v) PGSIZE.

Record effect (own : Z -> bool) (P : list Z) (U : gmap Z Z) (h h' : hart) (m m' : memory) : Prop := {
  ef_hart : hart_le h h';
  ef_frame : frame P m m';
  ef_keeps : keeps own U m m';
}.

Lemma effect_refl own P U h m : effect own P U h h m m.
Proof. split; [apply hart_le_refl|done|done]. Qed.

Lemma effect_trans own P P1 P2 U U1 U2 h1 h2 h3 m1 m2 m3 :
  effect own P1 U1 h1 h2 m1 m2 -> effect own P2 U2 h2 h3 m2 m3 ->
  P1 ⊆ P -> P2 ⊆ P -> U ⊆ U1 -> U ⊆ U2 -> effect own P U h1 h3 m1 m3.
Proof.
  intros [A1 A2 A3] [B1 B2 B3] HP1 HP2 HU1 HU2. split.
  - by eapply hart_le_trans.
  - intros x Hx. rewrite B2, A2; [done|..]; intros p Hp; apply Hx; auto.
  - intros va v Hv Ho x Hx. rewrite (A3 va v), (B3 va v); eauto using lookup_weaken.
Qed.

Lemma effect_ok own P U h h' m m' : effect own P U h h' m m' -> hart_ok h -> hart_ok h'.
Proof. intros [H _ _] Hh. by eapply hart_le_ok. Qed.

Lemma effect_mono own P P' U U' h h' m m' :
  effect own P U h h' m m' -> P ⊆ P' -> U' ⊆ U -> effect own P' U' h h' m m'.
Proof.
  intros H HP HU. eapply effect_trans; [apply (effect_refl own [] U)|exact H|..|done|done|done].
  apply list_subseteq_nil.
Qed.

(** A write to a page [x] that is not the frame of a page of [U]. *)
Lemma effect_page own P U h h' m m' x :
  hart_le h h' -> x ∈ P -> page_ok x ->
  (forall va v, U !! va = Some v -> own va = true -> page_ok (PTE2PA v) /\ PTE2PA v <> x) ->
  (forall y, ~ in_page x y -> mget m' y = mget m y) ->
  effect own P U h h' m m'.
Proof.
  intros Hh Hx Hok HU Hm. split; [done|intros y Hy; by apply Hm, Hy|].
  intros va v Hv Ho y Hy. symmetry. apply Hm. unfold in_page.
  destruct (HU va v Hv Ho) as [Hok' Hne].
  destruct (pages_disjoint (PTE2PA v) x) as [?|?]; [by apply page_ok_aligned..|done|lia|lia].
Qed.

(** Memory accesses in a state whose memory and free list are exposed. *)
Lemma wpx_km_read B a (Q : Z -> world -> Prop) h env tr m fl s :
  Q (load64 m a) (World h env tr (set_km m fl s)) ->
  wpx B (read_pte a) Q (World h env tr (set_km m fl s)).
Proof. done. Qed.

Lemma wpx_km_mem B f (Q : unit -> world -> Prop) h env tr m fl s :
  Q tt (World h env tr (set_km (f m) fl s)) ->
  wpx B (modmem f) Q (World h env tr (set_km m fl s)).
Proof. done. Qed.

Lemma wpx_km_write B a v (Q : unit -> world -> Prop) h env tr m fl s :
  Q tt (World h env tr (set_km (store64 m a v) fl s)) ->
  wpx B (write_pte a v) Q (World h env tr (set_km m fl s)).
Proof. done. Qed.

Section pool.
Context `{!ImageOk I} (own : Z -> bool) (root : Z).

(** Free pages, page-table pages and frames are disjoint. *)
Lemma vm_inv_sep m fl l T U pool :
  vm_inv own m fl root l T U pool ->
  (forall x, x ∈ l -> (x ∉ tpages T) /\ (x ∉ frames own U)) /\
  (forall x, x ∈ tpages T -> x ∉ frames own U) /\
  NoDup (frames own U) /\
  (forall x, x ∈ pool <-> x ∈ l \/ x ∈ tpages T \/ x ∈ frames own U).
Proof.
  intros [_ _ Hp Hn _]. rewrite <-Hp in Hn.
  apply NoDup_app in Hn as (N1 & N2 & N3). apply NoDup_app in N3 as (N3 & N4 & N5).
  split_and!; [|done|done|].
  - intros x Hx. apply N2 in Hx. rewrite elem_of_app in Hx. tauto.
  - intros x. rewrite <-Hp. by rewrite !elem_of_app.
Qed.

Lemma vm_inv_pool m fl l T U pool pool' :
  vm_inv own m fl root l T U pool -> pool ≡ₚ pool' -> vm_inv own m fl root l T U pool'.
Proof. intros [] Hp. split; auto; by rewrite <-Hp. Qed.

(** Writes outside the free pages and the page-table pages. *)
Lemma vm_inv_ext m m' fl l T U pool :
  vm_inv own m fl root l T U pool -> mem_ok m' ->
  (forall x, x ∈ l ++ tpages T -> mem_agree m m' x PGSIZE) ->
  vm_inv own m' fl root l T U pool.
Proof.
  intros [] Hm Hag. split; auto.
  - apply (kmem_inv_ext m); [done..|]. intros p Hp. apply Hag, elem_of_app. by left.
  - apply (pt_inv_ext m); [done..|]. intros p t Ht. apply Hag, elem_of_app. right.
    apply elem_of_tpages. by exists p.
Qed.

(** Writes to a page outside the pool. *)
Lemma vm_inv_held m m' fl l T U pool x :
  vm_inv own m fl root l T U pool -> mem_ok m' -> page_ok x -> x ∉ pool ->
  (forall y, ~ in_page x y -> mget m' y = mget m y) ->
  vm_inv own m' fl root l T U pool.
Proof.
  intros Hi Hm Hx Hnp Hag. apply (vm_inv_ext m); [done..|].
  intros p Hp y Hy. symmetry. apply Hag. unfold in_page.
  assert (Hpp : p ∈ pool).
  { destruct (vm_inv_sep _ _ _ _ _ _ Hi) as (_ & _ & _ & Hin). apply Hin.
    apply elem_of_app in Hp. tauto. }
  pose proof (vm_pages _ _ _ _ _ _ _ _ Hi) as Hok. rewrite Forall_forall in Hok.
  destruct (pages_disjoint p x) as [?|?];
    [by apply page_ok_aligned, Hok|by apply page_ok_aligned|by intros ->|lia|lia].
Qed.

(** kalloc() takes a page out of the pool. *)
Lemma wpx_vm_kalloc B (Q : Z -> world -> Prop) h env tr s m fl l T U pool :
  hart_ok h -> lock_free s kmem_lock -> vm_inv own m fl root l T U pool ->
  (l = [] -> Q 0 (World (settle h) env tr (set_km m fl s))) ->
  (forall x l' fl' m' pool', l = x :: l' -> x <> 0 -> page_ok x -> pool ≡ₚ x :: pool' ->
     vm_inv own m' fl' root l' T U pool' -> effect own pool U h (settle h) m m' ->
     Q x (World (settle h) env tr (set_km m' fl' s))) ->
  wpx B kalloc Q (World h env tr (set_km m fl s)).
Proof.
  intros Hh HL Hi H0 H1. pose proof (vm_inv_sep _ _ _ _ _ _ Hi) as (S1 & S2 & S3 & S4).
  pose proof Hi as [Hk Hpt Hp Hn Hok].
  eapply wpx_kalloc; [done|done|done|auto|]. intros x l' fl' -> Hpg Hnz Hnl Hk'.
  assert (Hx : x ∈ pool) by (apply S4; left; apply list_elem_of_here).
  assert (Hag : forall y, ~ in_page x y -> mget (memset m x 5 PGSIZE) y = mget m y).
  { intros y Hy. rewrite mget_memset by llia. by rewrite decide_False. }
  destruct (S1 x ltac:(apply list_elem_of_here)) as [St Sf].
  assert (HU : forall va v, U !! va = Some v -> own va = true -> page_ok (PTE2PA v) /\ PTE2PA v <> x).
  { intros va v Hv Ho. assert (PTE2PA v ∈ frames own U) by (apply elem_of_frames; eauto).
    rewrite Forall_forall in Hok. split; [apply Hok, S4; auto|by intros <-]. }
  apply (H1 x l' fl' _ (l' ++ tpages T ++ frames own U)); [done..| | |].
  - by rewrite <-Hp.
  - rewrite <-Hp in Hn, Hok. apply NoDup_cons in Hn as [_ Hn]. apply Forall_cons in Hok as [_ Hok].
    split; [done| |done..]. apply (pt_inv_ext m); [done|]. intros p t Ht y Hy. symmetry. apply Hag.
    assert (t <> x) by (intros ->; apply St, elem_of_tpages; eauto).
    pose proof (page_ok_aligned t (pt_page _ _ _ _ Hpt p t Ht)).
    destruct (pages_disjoint t x) as [?|?];
      [done|by apply page_ok_aligned|done|unfold in_page; lia..].
  - apply (effect_page _ _ _ _ _ _ _ x); [apply hart_le_settle|done..].
Qed.

(** kfree() of a held page puts it into the pool. *)
Lemma wpx_vm_kfree B (Q : unit -> world -> Prop) h env tr s m fl l T U pool x :
  hart_ok h -> lock_free s kmem_lock -> vm_inv own m fl root l T U pool ->
  page_ok x -> x ∉ pool ->
  (forall m', vm_inv own m' x root (x :: l) T U (x :: pool) -> effect own (x :: pool) U h (settle h) m m' ->
     Q tt (World (settle h) env tr (set_km m' x s))) ->
  wpx B (kfree x) Q (World h env tr (set_km m fl s)).
Proof.
  intros Hh HL Hi Hx Hnp HQ. pose proof (vm_inv_sep _ _ _ _ _ _ Hi) as (S1 & S2 & S3 & S4).
  pose proof (vm_pages _ _ _ _ _ _ _ _ Hi) as Hok. rewrite Forall_forall in Hok.
  assert (Hag : forall y, ~ in_page x y ->
    mget (store64 (memset m x 1 PGSIZE) x fl) y = mget m y).
  { intros y Hy. apply mget_kfree. unfold in_page in Hy. lia. }
  eapply wpx_kfree; [done|done|by apply (vm_kmem _ _ _ _ _ _ _ _ Hi)|done| |].
  { intros Hl. by apply Hnp, S4; left. }
  intros Hk. apply HQ.
  - assert (Hi' : vm_inv own (store64 (memset m x 1 PGSIZE) x fl) fl root l T U pool).
    { eapply vm_inv_held; [done|apply Hk|done..]. }
    destruct Hi' as [_ Hpt Hp Hn Hf]. split; [done|done|by rewrite <-Hp|by constructor|by constructor].
  - apply (effect_page _ _ _ _ _ _ _ x); [apply hart_le_settle|apply list_elem_of_here|done| |done].
    intros va v Hv Ho. assert (PTE2PA v ∈ pool) by (apply S4; right; right; apply elem_of_frames; eauto).
    split; [by apply Hok|by intros <-].
Qed.

(** A held page becomes a page-table page. *)
Lemma vm_inv_grow m fl l T U pool p t i x :
  vm_inv own m fl root l T U pool -> page_ok x -> x ∉ pool ->
  T !! p = Some t -> (length p < 2)%nat -> 0 <= i < 512 -> (p = [] -> i < 256) ->
  T !! (i :: p) = None ->
  vm_inv own (hang m t i x) fl root l (<[i :: p := x]> T) U (x :: pool).
Proof.
  intros Hi Hx Hnp Ht Hl Hi' Hi2 Hnone. pose proof (vm_inv_sep _ _ _ _ _ _ Hi) as (S1 & S2 & S3 & S4).
  assert (Hnt : forall q, T !! q <> Some x).
  { intros q Hq. apply Hnp, S4. right. left. apply elem_of_tpages. by exists q. }
  pose proof Hi as [Hk Hpt Hp Hn Hok]. split.
  - apply (kmem_inv_ext m); [done|by apply mem_ok_store64, mem_ok_memset, Hk|].
    intros q Hq y Hy. rewrite Forall_forall in Hok. assert (Hqp : q ∈ pool) by (apply S4; by left).
    assert (q <> t) by (intros ->; destruct (S1 t Hq) as [[] _]; apply elem_of_tpages; eauto).
    pose proof (page_ok_aligned t (pt_page _ _ _ _ Hpt p t Ht)).
    pose proof (pte_in_page t i Hi') as [E1 E2]. unfold in_page, hang in *.
    destruct (pages_disjoint q t) as [?|?]; [by apply page_ok_aligned, Hok|done|done|..];
    (destruct (pages_disjoint q x) as [?|?];
      [by apply page_ok_aligned, Hok|by apply page_ok_aligned|by intros ->|..];
      rewrite mget_store64_out, mget_memset by llia; by rewrite decide_False by llia).
  - by eapply pt_inv_grow.
  - rewrite tpages_insert by done. rewrite <-Hp. cbn. by rewrite <-Permutation_middle.
  - by constructor.
  - by constructor.
Qed.

(** Hanging a held page changes only that page and the entry. *)
Lemma vm_effect_hang h m fl l T U pool p t i x :
  vm_inv own m fl root l T U pool -> page_ok x -> x ∉ pool ->
  T !! p = Some t -> 0 <= i < 512 ->
  effect own (x :: pool) U h h m (hang m t i x).
Proof.
  intros Hv Hx Hnp Ht Hi. pose proof (vm_inv_sep _ _ _ _ _ _ Hv) as (_ & S2 & _ & S4).
  pose proof (vm_pages _ _ _ _ _ _ _ _ Hv) as Hok. rewrite Forall_forall in Hok.
  assert (Htt : t ∈ tpages T) by (apply elem_of_tpages; eauto).
  assert (HU : forall va v, U !! va = Some v -> own va = true ->
    page_ok (PTE2PA v) /\ PTE2PA v <> x /\ PTE2PA v <> t).
  { intros va v Hva Ho. assert (Hf : PTE2PA v ∈ frames own U) by (apply elem_of_frames; eauto).
    split_and!; [apply Hok, S4; auto|intros <-; by apply Hnp, S4; auto|].
    intros E. apply (S2 (PTE2PA v)); [by rewrite E|done]. }
  pose proof (pte_in_page t i Hi) as [E1 E2]. unfold hang.
  eapply (effect_trans _ _ (x :: pool) (x :: pool) U U U); [| |done..].
  - apply (effect_page _ _ _ _ _ _ (memset m x 0 PGSIZE) x);
      [apply hart_le_refl|apply list_elem_of_here|done|by intros va v Hva Ho; destruct (HU va v Hva Ho) as (? & ? & ?)|].
    intros y Hy. rewrite mget_memset by llia. by rewrite decide_False.
  - apply (effect_page _ _ _ _ _ _ _ t);
      [apply hart_le_refl|apply list_elem_of_further, S4; auto|apply Hok, S4; auto
      |by intros va v Hva Ho; destruct (HU va v Hva Ho) as (? & ? & ?)|].
    intros y Hy. apply mget_store64_out. unfold in_page in *. lia.
Qed.

(** What walk(.., 1) does: the mappings are the same, page-table pages on the
    way to [va] may have been added, and the leaf slot is found unless the
    free list is empty. *)
Definition walked (env : list turn) (tr : list event) (s : kstate) (n : nat) (U : gmap Z Z)
    (pool : list Z) (va : Z) (h : hart) (m : memory) (l : list Z) (T : tables)
    (a : Z) (w' : world) : Prop :=
  exists h' m' fl' l' T',
    w' = World h' env tr (set_km m' fl' s) /\ effect own pool U h h' m m' /\
    vm_inv own m' fl' root l' T' U pool /\ (length l <= length l' + n)%nat /\ T ⊆ T' /\
    (forall q, is_Some (T' !! q) -> is_Some (T !! q) \/ q = [PX 2 va] \/ q = leaf_path va) /\
    (a = 0 /\ l' = [] /\ (length l < n)%nat \/ slot T' va = Some a).

Lemma wp_walk_levels env tr s U pool va levels :
  forall p t h m fl l T, hart_ok h -> lock_free s kmem_lock ->
  vm_inv own m fl root l T U pool -> T !! p = Some t -> descent p levels va ->
  0 <= va < MAXVA ->
  wp (walk_levels levels t va true) (walked env tr s (length levels) U pool va h m l T)
    (World h env tr (set_km m fl s)).
Proof.
  induction levels as [|level levels IH]; intros p t h m fl l T Hh HL Hi Ht Hd Hva; cbn [walk_levels].
  - apply wpx_ret. apply descent_nil in Hd as ->. exists h, m, fl, l, T.
    split_and!; auto using effect_refl; [lia|]. right. unfold slot. by rewrite Ht.
  - pose proof (descent_cons _ _ _ _ Hd) as (Hd' & Hl & _). kstep. apply wpx_km_read.
    rewrite ztrue_PTE_V. pose proof (vm_pt _ _ _ _ _ _ _ _ Hi) as Hpt.
    pose proof (pt_entry _ _ _ _ Hpt p t (PX level va) Ht Hl (PX_range _ _)) as He.
    destruct (T !! (PX level va :: p)) as [c|] eqn:Hc.
    + destruct (table_PTE2PA _ _ _ _ _ _ Hpt Hc) as [H1 H2]. rewrite He, H2, H1.
      eapply wpx_mono; [by eapply (IH _ c h m fl l T)|].
      intros a w' (h' & m' & fl' & l' & T' & A1 & A2 & A3 & A4 & A5 & A6 & A7).
      exists h', m', fl', l', T'. split_and!; auto; [cbn; lia|]. cbn. destruct A7 as [?|?]; [left|auto].
      split_and!; try lia; tauto.
    + rewrite He. cbn [negb]. kstep. eapply wpx_vm_kalloc; [done..| |].
      * intros ->. change (0 =? 0) with true. apply wpx_ret. exists (settle h), m, fl, [], T.
        split_and!; auto; [split; [apply hart_le_settle|done|done]|cbn; lia|].
        left. split_and!; [done|done|cbn; lia].
      * intros x l' fl' m' pool' -> Hnz Hx Hpool Hi' Hef. cbn beta.
        destruct (Z.eqb_spec x 0) as [?|_]; [done|].
        kstep. apply wpx_km_mem. kstep. apply wpx_km_write.
        pose proof (vm_nodup _ _ _ _ _ _ _ _ Hi) as Hnd. rewrite Hpool in Hnd.
        apply NoDup_cons in Hnd as [Hxp _].
        pose proof (vm_inv_grow _ _ _ _ _ _ p t (PX level va) x Hi' Hx Hxp Ht Hl (PX_range _ _)
          (descent_top _ _ _ _ Hd Hva) Hc) as Hg.
        apply (vm_inv_pool _ _ _ _ _ _ pool) in Hg; [|by rewrite Hpool].
        assert (Hef2 : effect own pool U (settle h) (settle h) m' (hang m' t (PX level va) x)).
        { eapply effect_mono; [eapply vm_effect_hang; eauto using PX_range|by rewrite Hpool|done]. }
        eapply wpx_mono.
        { eapply (IH (PX level va :: p) x (settle h) (hang m' t (PX level va) x) fl' l');
            [by apply settle_ok|done|exact Hg|by rewrite lookup_insert_eq|done|done]. }
        intros a w' (h2 & m2 & fl2 & l2 & T2 & A1 & A2 & A3 & A4 & A5 & A6 & A7).
        exists h2, m2, fl2, l2, T2. split_and!; auto.
        -- eapply (effect_trans _ _ pool pool U U U); [exact Hef| |done..].
           by eapply (effect_trans _ _ pool pool U U U).
        -- cbn. lia.
        -- transitivity (<[PX level va :: p:=x]> T); [by apply insert_subseteq|done].
        -- intros q Hq. apply A6 in Hq as [Hq|?]; [|auto].
           apply lookup_insert_is_Some' in Hq as [<-|Hq]; [|auto]. right.
           destruct Hd as [[-> [= -> ->]]|[[-> [= -> ->]]|[_ [=]]]]; auto.
        -- destruct A7 as [?|?]; [left|auto]. cbn. split_and!; try lia; tauto.
Qed.

Lemma wp_walk_alloc env tr s U pool va h m fl l T :
  hart_ok h -> lock_free s kmem_lock -> vm_inv own m fl root l T U pool -> 0 <= va < MAXVA ->
  wp (walk root va true) (walked env tr s 2 U pool va h m l T) (World h env tr (set_km m fl s)).
Proof.
  intros Hh HL Hi Hva. unfold walk. destruct (Z.leb_spec MAXVA va); [lia|].
  eapply (wp_walk_levels _ _ _ _ _ _ [2; 1]); [done..| |by left|done].
  apply (pt_root _ _ _ _ (vm_pt _ _ _ _ _ _ _ _ Hi)).
Qed.

End pool.

End pagetable.
