(* ===== verification/Uvm.v ===== *)
(** * Mapping, unmapping and growing address spaces

    Specifications of mappages(), uvmunmap(), uvmdealloc() and uvmalloc() on
    the abstract page tables of [Pagetable]. *)

From S2P Require Import Prelude Memory CString Riscv Machine Spinlock Kalloc Vm Pagetable.

(** The entry mappages() writes. *)
Definition new_pte (pa perm : Z) : Z := Z.lor (Z.lor (PA2PTE pa) perm) PTE_V.

(** The leaf entries after unmapping [n] pages from [va]. *)
Fixpoint unmap_range (va : Z) (n : nat) (U : gmap Z Z) : gmap Z Z :=
  match n with
  | O => U
  | S n => unmap_range (va + PGSIZE) n (delete va U)
  end.

(** The leaf entries after mapping [n] pages from [va] to the frames from [pa]. *)
Fixpoint map_range (va pa perm : Z) (n : nat) (U : gmap Z Z) : gmap Z Z :=
  match n with
  | O => U
  | S n => map_range (va + PGSIZE) (pa + PGSIZE) perm n (<[va := new_pte pa perm]> U)
  end.

(** The frames among them that the page table then owns. *)
Fixpoint new_frames (own : Z -> bool) (va pa : Z) (n : nat) : list Z :=
  match n with
  | O => []
  | S n => new_frames own (va + PGSIZE) (pa + PGSIZE) n ++ (if own va then [pa] else [])
  end.

Section uvm.
Context {I : Image} `{!ImageOk I} (own : Z -> bool) (root : Z).

Lemma lor_PTE_V_flags perm : 0 <= perm < 2 ^ 10 -> 0 <= Z.lor perm PTE_V < 2 ^ 10.
Proof. intros H. apply lor_range; [lia|done|apply PTE_V_flags]. Qed.

(** The new entry is valid, and has the given address and permissions. *)
Lemma new_pte_spec pa perm :
  0 <= pa < 2 ^ 56 -> page_aligned pa -> 0 <= perm < 2 ^ 10 ->
  0 <= new_pte pa perm < 2 ^ 64 /\ Z.testbit (new_pte pa perm) 0 = true /\
  PTE2PA (new_pte pa perm) = pa /\ PTE_FLAGS (new_pte pa perm) = Z.lor perm PTE_V.
Proof.
  intros Hpa Ha Hp. unfold new_pte. rewrite <-Z.lor_assoc.
  pose proof (lor_PTE_V_flags perm Hp) as Hf. split_and!.
  - by apply PTE_range.
  - by apply PTE_range.
  - rewrite PTE_testbit by (done || lia). rewrite Z.lor_spec. apply orb_true_r.
  - by apply PTE2PA_PA2PTE_flags.
  - by apply PTE_FLAGS_PA2PTE.
Qed.

Lemma new_pte_page pa perm :
  page_ok pa -> 0 <= perm < 2 ^ 10 ->
  Z.testbit (new_pte pa perm) 0 = true /\ PTE2PA (new_pte pa perm) = pa /\
  PTE_FLAGS (new_pte pa perm) = Z.lor perm PTE_V.
Proof.
  intros Hpa Hp. pose proof (page_ok_range pa Hpa).
  by apply new_pte_spec; [llia|apply page_ok_aligned|].
Qed.

(** Writing a leaf entry of the page table keeps the rest of the pool. *)
Lemma vm_store_parts h m fl l T U pool va a v :
  vm_inv own m fl root l T U pool -> slot T va = Some a ->
  kmem_inv (store64 m a v) fl l /\ effect own pool U h h m (store64 m a v).
Proof.
  intros Hv Hs. pose proof (vm_inv_sep _ _ _ _ _ _ _ _ Hv) as (S1 & S2 & S3 & S4).
  pose proof Hv as [Hk Hpt Hp Hn Hok]. rewrite Forall_forall in Hok.
  destruct (slot_in_table _ _ _ _ _ _ Hpt Hs) as (t & Ht & Hin & Hin').
  assert (Htt : t ∈ tpages T) by (apply elem_of_tpages; eauto).
  assert (Htp : page_ok t) by (apply Hok, S4; auto).
  assert (Hag : forall y, ~ in_page t y -> mget (store64 m a v) y = mget m y).
  { intros y Hy. apply mget_store64_out. unfold in_page in *. lia. }
  split.
  - apply (kmem_inv_ext m); [done|by apply mem_ok_store64, Hk|].
    intros p Hpl y Hy. symmetry. apply Hag. unfold in_page.
    destruct (pages_disjoint p t) as [?|?];
      [apply page_ok_aligned, Hok, S4; auto|by apply page_ok_aligned| |lia|lia].
    intros ->. by destruct (S1 t Hpl).
  - apply (effect_page _ _ _ _ _ _ _ t); [apply hart_le_refl|apply S4; auto|done| |done].
    intros va' v' Hv' Ho. assert (Hf : PTE2PA v' ∈ frames own U) by (apply elem_of_frames; eauto).
    split; [apply Hok, S4; auto|]. intros E. apply (S2 t); [done|by rewrite <-E].
Qed.

(** A held page becomes the frame of [va]. *)
Lemma vm_inv_map m fl l T U pool va a pa perm :
  vm_inv own m fl root l T U pool -> vpage va -> slot T va = Some a -> U !! va = None ->
  0 <= pa < 2 ^ 56 -> page_aligned pa -> 0 <= perm < 2 ^ 10 ->
  (own va = true -> page_ok pa /\ pa ∉ pool) ->
  vm_inv own (store64 m a (new_pte pa perm)) fl root l T (<[va := new_pte pa perm]> U)
    ((if own va then [pa] else []) ++ pool).
Proof.
  intros Hv Hva Hs HU Hpa Ha Hp Ho. destruct (new_pte_spec pa perm) as (N1 & N2 & N3 & N4); auto.
  pose proof (vm_store_parts zero_hart _ _ _ _ _ _ _ _ (new_pte pa perm) Hv Hs) as [Hk _].
  pose proof (pt_inv_store _ _ _ _ va a (new_pte pa perm) (vm_pt _ _ _ _ _ _ _ _ Hv) Hva Hs N1) as Hpt.
  rewrite N2 in Hpt. destruct Hv as [_ _ Hpl Hn Hok]. split; [done|done|..].
  - rewrite frames_insert, N3 by done. rewrite <-Hpl.
    destruct (own va); cbn; [|done]. by rewrite <-!Permutation_middle.
  - destruct (own va); cbn; [|done]. constructor; [by apply Ho|done].
  - destruct (own va); cbn; [|done]. constructor; [by apply Ho|done].
Qed.

(** The frame of a page that is mapped and owned. *)
Lemma vm_inv_frame m fl l T U pool va v :
  vm_inv own m fl root l T U pool -> U !! va = Some v -> own va = true ->
  page_ok (PTE2PA v) /\ PTE2PA v ∈ pool /\ (PTE2PA v ∉ l) /\ (PTE2PA v ∉ tpages T) /\
  (forall va' v', U !! va' = Some v' -> own va' = true -> va' <> va -> PTE2PA v' <> PTE2PA v).
Proof.
  intros Hv HU Ho. pose proof (vm_inv_sep _ _ _ _ _ _ _ _ Hv) as (S1 & S2 & S3 & S4).
  assert (Hf : PTE2PA v ∈ frames own U) by (apply elem_of_frames; eauto).
  pose proof (vm_pages _ _ _ _ _ _ _ _ Hv) as Hok. rewrite Forall_forall in Hok.
  split_and!.
  - apply Hok, S4; auto.
  - apply S4; auto.
  - intros Hl. by destruct (S1 _ Hl).
  - intros Ht. by apply (S2 _ Ht).
  - intros va' v' HU' Ho' Hne E. rewrite (frames_delete _ _ va v HU), Ho in S3. cbn in S3.
    apply NoDup_cons in S3 as [S3 _]. apply S3. rewrite <-E. apply elem_of_frames.
    exists va', v'. by rewrite lookup_delete_ne.
Qed.

(** ** mappages *)

(** Page-table pages added on the way to the pages of a range. *)
Definition tables_for (va : Z) (n : nat) (T T' : tables) : Prop :=
  forall q, is_Some (T' !! q) -> is_Some (T !! q) \/
    exists x, x ∈ page_range va n /\ (q = [PX 2 x] \/ q = leaf_path x).

(** [mapped]: [j] of the [n] pages were mapped, all of them unless memory ran
    out. *)
Definition mapped (env : list turn) (tr : list event) (s : kstate) (U : gmap Z Z)
    (pool : list Z) (va pa perm : Z) (n : nat) (h : hart) (m : memory) (l : list Z) (T : tables)
    (r : Z) (w' : world) : Prop :=
  exists h' m' fl' l' T' j,
    w' = World h' env tr (set_km m' fl' s) /\ effect own pool U h h' m m' /\
    vm_inv own m' fl' root l' T' (map_range va pa perm j U) (new_frames own va pa j ++ pool) /\
    T ⊆ T' /\ tables_for va n T T' /\
    (r = 0 /\ j = n /\ (length l <= length l' + 2 * n)%nat \/
     r = -1 /\ (j < n)%nat /\ l' = [] /\ (length l < 2 * n)%nat).

Lemma unmapped_slot m fl l T U pool va a :
  vm_inv own m fl root l T U pool -> vpage va -> slot T va = Some a -> U !! va = None ->
  Z.testbit (load64 m a) 0 = false.
Proof.
  intros Hv Hva Hs HU. rewrite (pt_leaf _ _ _ _ (vm_pt _ _ _ _ _ _ _ _ Hv) va Hva) in HU.
  unfold leaf in HU. rewrite Hs in HU. cbn in HU. by destruct (Z.testbit _ 0).
Qed.

Lemma mapped_slot m fl l T U pool va v :
  vm_inv own m fl root l T U pool -> U !! va = Some v ->
  exists a, slot T va = Some a /\ load64 m a = v /\ Z.testbit v 0 = true /\ vpage va.
Proof.
  intros Hv HU. pose proof (vm_pt _ _ _ _ _ _ _ _ Hv) as Hpt.
  assert (Hva : vpage va) by (apply (pt_dom _ _ _ _ Hpt); eauto).
  rewrite (pt_leaf _ _ _ _ Hpt va Hva) in HU.
  unfold leaf in HU. destruct (slot T va) as [a|]; cbn in HU; [|done].
  exists a. destruct (Z.testbit (load64 m a) 0) eqn:E; simplify_eq. done.
Qed.

(** The effect of a longer run whose first step added the frame [pa]. *)
Lemma effect_map_cons pool U h h1 h2 m m1 m2 va pa perm :
  effect own pool U h h1 m m1 ->
  effect own ((if own va then [pa] else []) ++ pool) (<[va := new_pte pa perm]> U) h1 h2 m1 m2 ->
  U !! va = None -> PTE2PA (new_pte pa perm) = pa ->
  effect own pool U h h2 m m2.
Proof.
  intros [A1 A2 A3] [B1 B2 B3] HU Hpa. split; [by eapply hart_le_trans| |].
  - intros x Hx. rewrite <-A2 by done. destruct (own va) eqn:Ho; [|by apply B2].
    destruct (decide (in_page pa x)) as [Hin|Hout].
    + symmetry. apply (B3 va (new_pte pa perm)); [by rewrite lookup_insert_eq|done|by rewrite Hpa].
    + apply B2. intros p [->%list_elem_of_singleton|Hp]%elem_of_app; auto.
  - intros va' v Hv Ho x Hx. rewrite (A3 va' v) by done. apply (B3 va' v); [|done..].
    rewrite lookup_insert_ne; [done|]. by intros ->; rewrite HU in Hv.
Qed.

(** One iteration of mappages(). *)
Lemma wpx_map_page (Q : Z -> world -> Prop) (k : K Z) env tr s h m fl l T U pool va pa perm :
  hart_ok h -> lock_free s kmem_lock -> vm_inv own m fl root l T U pool ->
  vpage va -> U !! va = None ->
  0 <= pa < 2 ^ 56 -> page_aligned pa -> 0 <= perm < 2 ^ 10 ->
  (own va = true -> page_ok pa /\ pa ∉ pool) ->
  (forall h' m' fl' T', effect own pool U h h' m m' -> vm_inv own m' fl' root [] T' U pool ->
     (length l < 2)%nat -> T ⊆ T' -> tables_for va 1 T T' ->
     Q (-1) (World h' env tr (set_km m' fl' s))) ->
  (forall h' m' fl' l' T', effect own pool U h h' m m' ->
     vm_inv own m' fl' root l' T' (<[va := new_pte pa perm]> U) ((if own va then [pa] else []) ++ pool) ->
     (length l <= length l' + 2)%nat -> T ⊆ T' -> tables_for va 1 T T' ->
     wp k Q (World h' env tr (set_km m' fl' s))) ->
  wp (pte ← walk root va true;
      if pte =? 0 then mret (-1) else
      v ← read_pte pte;
      if ztrue (Z.land v PTE_V) then panic "mappages: remap" else
      write_pte pte (Z.lor (Z.lor (PA2PTE pa) perm) PTE_V);; k) Q
    (World h env tr (set_km m fl s)).
Proof.
  intros Hh HL Hv Hva HU Hpa Hal Hp Ho Hfail Hok.
  eapply wpx_call; [by eapply (wp_walk_alloc own root _ _ _ U pool); [..|destruct Hva; lia]|].
  intros a w' (h1 & m1 & fl1 & l1 & T1 & -> & Hef & Hv1 & Hln & HT & HTd & Hcase).
  assert (Htf : tables_for va 1 T T1).
  { intros q Hq. destruct (HTd q Hq) as [?|?]; [auto|]. right. exists va.
    split; [apply list_elem_of_here|done]. }
  destruct Hcase as [(-> & -> & Hlt)|Hs].
  - change (0 =? 0) with true. apply wpx_ret. by eapply Hfail.
  - pose proof (slot_nonzero _ _ _ _ _ _ (vm_pt _ _ _ _ _ _ _ _ Hv1) Hs) as Hnz.
    apply Z.eqb_neq in Hnz. rewrite Hnz. kstep. apply wpx_km_read. rewrite ztrue_PTE_V.
    erewrite unmapped_slot by done. kstep. apply wpx_km_write. eapply Hok; [|by apply vm_inv_map|done..].
    eapply effect_trans; [exact Hef|by eapply vm_store_parts|done..].
Qed.

Lemma tables_for_cons va n T T1 T2 :
  tables_for va 1 T T1 -> tables_for (va + PGSIZE) n T1 T2 -> tables_for va (S n) T T2.
Proof.
  intros H1 H2 q [Hq|(x & Hx & Hq)]%H2.
  - apply H1 in Hq as [Hq|(x & Hx & Hq)]; [auto|]. right. exists x. split; [|done].
    apply list_elem_of_singleton in Hx as ->. apply list_elem_of_here.
  - right. exists x. split; [|done]. by apply list_elem_of_further.
Qed.

Lemma page_range_next va n x :
  page_aligned va -> x ∈ page_range (va + PGSIZE) n -> x <> va.
Proof.
  intros Hva Hx. apply elem_of_page_range in Hx; [llia|].
  apply page_aligned_add; [done|apply (page_aligned_pgsize_mul 1)].
Qed.

Lemma mappages_loop_S fuel pagetable a last pa perm :
  mappages_loop (S fuel) pagetable a last pa perm =
  (pte ← walk pagetable a true;
   if pte =? 0 then mret (-1) else
   v ← read_pte pte;
   if ztrue (Z.land v PTE_V) then panic "mappages: remap" else
   write_pte pte (Z.lor (Z.lor (PA2PTE pa) perm) PTE_V);;
   if a =? last then mret 0 else
   mappages_loop fuel pagetable (u64 (a + PGSIZE)) last (u64 (pa + PGSIZE)) perm).
Proof. done. Qed.

Lemma wp_mappages_loop env tr s perm last n :
  0 <= perm < 2 ^ 10 -> lock_free s kmem_lock ->
  forall va pa U pool h m fl l T, hart_ok h -> vm_inv own m fl root l T U pool ->
  page_aligned va -> 0 <= va -> va + Z.of_nat (S n) * PGSIZE <= MAXVA ->
  last = va + Z.of_nat n * PGSIZE ->
  0 <= pa -> pa + Z.of_nat (S n) * PGSIZE <= 2 ^ 56 -> page_aligned pa ->
  (forall x, x ∈ page_range va (S n) -> U !! x = None) ->
  NoDup (new_frames own va pa (S n) ++ pool) -> Forall page_ok (new_frames own va pa (S n)) ->
  wp (mappages_loop (S n) root va last pa perm)
    (mapped env tr s U pool va pa perm (S n) h m l T) (World h env tr (set_km m fl s)).
Proof.
  intros Hperm HL. induction n as [|n IH];
    intros va pa U pool h m fl l T Hh Hv Hal Hva Hmax Hlast Hpa1 Hpa2 Hpal Hun Hnd Hok;
    assert (HU : U !! va = None) by apply Hun, list_elem_of_here;
    assert (Hvp : vpage va) by (split; [done|llia]);
    assert (Hown : own va = true -> page_ok pa /\ pa ∉ pool)
      by (intros Ho; cbn [new_frames] in Hnd, Hok; rewrite Ho in Hnd, Hok;
          rewrite Forall_app, Forall_singleton in Hok; rewrite <-app_assoc in Hnd;
          apply NoDup_app in Hnd as (_ & _ & Hnd); cbn in Hnd; rewrite NoDup_cons in Hnd; tauto);
    destruct (new_pte_spec pa perm ltac:(llia) Hpal Hperm) as (_ & _ & Hn3 & _);
    rewrite mappages_loop_S.
  - eapply wpx_map_page; [done..|llia|done|done|done| |].
    + intros h' m' fl' T' Hef Hv' Hl HT Htf. exists h', m', fl', [], T', 0%nat.
      split_and!; auto.
    + intros h' m' fl' l' T' Hef Hv' Hl HT Htf. destruct (Z.eqb_spec va last); [|lia].
      apply wpx_ret. exists h', m', fl', l', T', 1%nat. split_and!; auto.
  - eapply wpx_map_page; [done..|llia|done|done|done| |].
    + intros h' m' fl' T' Hef Hv' Hl HT Htf. exists h', m', fl', [], T', 0%nat.
      split_and!; auto; [|right; split_and!; auto; lia].
      intros q Hq. apply Htf in Hq as [?|(x & Hx & ?)]; [auto|]. right. exists x.
      apply list_elem_of_singleton in Hx as ->. split; [apply list_elem_of_here|done].
    + intros h' m' fl' l' T' Hef Hv' Hl HT Htf. destruct (Z.eqb_spec va last); [llia|].
      rewrite !u64_small by llia.
      eapply wpx_mono.
      { eapply (IH (va + PGSIZE) (pa + PGSIZE) (<[va := new_pte pa perm]> U)); [|exact Hv'|..]; try llia.
        - by eapply effect_ok.
        - apply page_aligned_add; [done|apply (page_aligned_pgsize_mul 1)].
        - apply page_aligned_add; [done|apply (page_aligned_pgsize_mul 1)].
        - intros x Hx. rewrite lookup_insert_ne by (symmetry; by eapply page_range_next).
          apply Hun. by apply list_elem_of_further.
        - by rewrite app_assoc.
        - by apply Forall_app in Hok as [? _]. }
      intros r w2 (h2 & m2 & fl2 & l2 & T2 & j & -> & Hef2 & Hv2 & HT2 & Htf2 & Hr).
      exists h2, m2, fl2, l2, T2, (S j). split_and!.
      * done.
      * by eapply effect_map_cons.
      * cbn [map_range new_frames]. by rewrite <-app_assoc.
      * by trans T'.
      * by eapply tables_for_cons.
      * destruct Hr as [(? & ? & ?)|(? & ? & ? & ?)]; [left|right]; split_and!; auto; lia.
Qed.

Lemma wp_mappages env tr s U pool va pa perm n h m fl l T :
  hart_ok h -> lock_free s kmem_lock -> vm_inv own m fl root l T U pool ->
  (0 < n)%nat -> page_aligned va -> 0 <= va -> va + Z.of_nat n * PGSIZE <= MAXVA ->
  0 <= pa -> pa + Z.of_nat n * PGSIZE <= 2 ^ 56 -> page_aligned pa -> 0 <= perm < 2 ^ 10 ->
  (forall x, x ∈ page_range va n -> U !! x = None) ->
  NoDup (new_frames own va pa n ++ pool) -> Forall page_ok (new_frames own va pa n) ->
  wp (mappages root va (Z.of_nat n * PGSIZE) pa perm)
    (mapped env tr s U pool va pa perm n h m l T) (World h env tr (set_km m fl s)).
Proof.
  intros Hh HL Hv Hn Hal Hva Hmax Hpa1 Hpa2 Hpal Hp Hun Hnd Hok. unfold mappages.
  unfold page_aligned in Hal. rewrite Hal. pose proof (page_aligned_pgsize_mul (Z.of_nat n)) as Hs.
  unfold page_aligned in Hs. rewrite Hs. change (0 =? 0) with true. cbn [negb].
  destruct (Z.eqb_spec (Z.of_nat n * PGSIZE) 0); [llia|].
  rewrite Z.div_mul by llia. rewrite Nat2Z.id. destruct n as [|n]; [lia|].
  eapply wp_mappages_loop; auto. rewrite u64_small by llia. llia.
Qed.

(** mappages() of a single page. *)
Lemma wp_map_one (Q : Z -> world -> Prop) env tr s U pool va pa perm h m fl l T :
  hart_ok h -> lock_free s kmem_lock -> vm_inv own m fl root l T U pool ->
  vpage va -> U !! va = None ->
  0 <= pa < 2 ^ 56 -> page_aligned pa -> 0 <= perm < 2 ^ 10 ->
  (own va = true -> page_ok pa /\ pa ∉ pool) ->
  (forall h' m' fl' T', effect own pool U h h' m m' -> vm_inv own m' fl' root [] T' U pool ->
     (length l < 2)%nat -> Q (-1) (World h' env tr (set_km m' fl' s))) ->
  (forall h' m' fl' l' T', effect own pool U h h' m m' ->
     vm_inv own m' fl' root l' T' (<[va := new_pte pa perm]> U) ((if own va then [pa] else []) ++ pool) ->
     (length l <= length l' + 2)%nat -> Q 0 (World h' env tr (set_km m' fl' s))) ->
  wp (mappages root va PGSIZE pa perm) Q (World h env tr (set_km m fl s)).
Proof.
  intros Hh HL Hv [Hal Hva] HU Hpa Hpal Hp Ho Hfail Hok. unfold mappages.
  unfold page_aligned in Hal. rewrite Hal. change (PGSIZE mod PGSIZE) with 0.
  change (0 =? 0) with true. change (PGSIZE =? 0) with false. cbn [negb].
  change (Z.to_nat (PGSIZE / PGSIZE)) with 1%nat. rewrite mappages_loop_S.
  eapply wpx_map_page; [done|done|done|by split|done..| |].
  - intros h' m' fl' T' Hef Hv' Hl _ _. by eapply Hfail.
  - intros h' m' fl' l' T' Hef Hv' Hl _ _. rewrite u64_small by llia.
    destruct (Z.eqb_spec va (va + PGSIZE - PGSIZE)); [|lia]. apply wpx_ret. by eapply Hok.
Qed.

(** Filling a held page. *)
Lemma vm_fill_held h m m' fl l T U pool x :
  vm_inv own m fl root l T U pool -> page_ok x -> x ∉ pool -> mem_ok m' ->
  (forall y, ~ in_page x y -> mget m' y = mget m y) ->
  vm_inv own m' fl root l T U pool /\ effect own (x :: pool) U h h m m'.
Proof.
  intros Hv Hx Hnp Hm Hag. split; [by eapply vm_inv_held|].
  apply (effect_page _ _ _ _ _ _ _ x); [apply hart_le_refl|apply list_elem_of_here|done| |done].
  intros va v HU Ho. destruct (vm_inv_frame _ _ _ _ _ _ _ _ Hv HU Ho) as (? & ? & _).
  split; [done|]. by intros <-.
Qed.

Lemma mem_zeroed m x : mem_ok m ->
  mem_ok (memset m x 0 PGSIZE) /\ (forall y, in_page x y -> mget (memset m x 0 PGSIZE) y = 0) /\
  (forall y, ~ in_page x y -> mget (memset m x 0 PGSIZE) y = mget m y).
Proof.
  intros Hm. split_and!; [by apply mem_ok_memset|intros y Hy; rewrite mget_memset by llia..].
  - by rewrite decide_True.
  - by rewrite decide_False.
Qed.

(** Memory of a page outside the touched pages. *)
Lemma frame_page P m m' x :
  frame P m m' -> page_ok x -> Forall page_ok P -> x ∉ P -> mem_agree m m' x PGSIZE.
Proof.
  intros Hf Hx HP Hnp y Hy. symmetry. apply Hf. intros p Hp. rewrite Forall_forall in HP.
  unfold in_page. destruct (pages_disjoint p x) as [?|?];
    [by apply page_ok_aligned, HP|by apply page_ok_aligned|by intros ->|lia|lia].
Qed.

(** mappages() of a held page at an owned address. *)
Lemma wp_map_held (Q : Z -> world -> Prop) env tr s U pool va x perm h m fl l T :
  hart_ok h -> lock_free s kmem_lock -> vm_inv own m fl root l T U pool ->
  vpage va -> U !! va = None -> own va = true -> page_ok x -> x ∉ pool -> 0 <= perm < 2 ^ 10 ->
  (forall h' m' fl' T', effect own pool U h h' m m' -> vm_inv own m' fl' root [] T' U pool ->
     (length l < 2)%nat -> Q (-1) (World h' env tr (set_km m' fl' s))) ->
  (forall h' m' fl' l' T', effect own pool U h h' m m' -> mem_agree m m' x PGSIZE ->
     vm_inv own m' fl' root l' T' (<[va := new_pte x perm]> U) (x :: pool) ->
     (length l <= length l' + 2)%nat -> Q 0 (World h' env tr (set_km m' fl' s))) ->
  wp (mappages root va PGSIZE x perm) Q (World h env tr (set_km m fl s)).
Proof.
  intros Hh HL Hv Hva HU Ho Hx Hnp Hp Hfail Hok.
  pose proof (page_ok_range x Hx) as Hr. eapply wp_map_one; try done.
  - llia.
  - by apply page_ok_aligned.
  - intros h' m' fl' l' T' Hef Hv' Hl. rewrite Ho in Hv'. eapply Hok; [done| |done..].
    eapply frame_page; [apply Hef|done|apply Hv|done].
Qed.

(** Code that fills a page and changes nothing else. *)
Definition fill_ok (fill : Z -> memory -> memory) : Prop :=
  forall x m, mem_ok m -> page_ok x ->
    mem_ok (fill x m) /\ (forall y, ~ in_page x y -> mget (fill x m) y = mget m y).

Lemma fill_zero : fill_ok (fun x m => memset m x 0 PGSIZE).
Proof. intros x m Hm Hx. destruct (mem_zeroed m x Hm) as (? & _ & ?). done. Qed.

(** The code that uvmalloc(), uvmcopy() and vmfault() share: allocate a page,
    fill it and map it at [va]; free it when mapping fails. *)
Lemma wp_alloc_map {A} (fill : Z -> memory -> memory) (fail : K A) (k : Z -> K A) perm
    (Q : A -> world -> Prop) env tr s U pool va h m fl l T :
  hart_ok h -> lock_free s kmem_lock -> vm_inv own m fl root l T U pool ->
  vpage va -> U !! va = None -> own va = true -> 0 <= perm < 2 ^ 10 -> fill_ok fill ->
  (forall h' m' fl' l' T', effect own pool U h h' m m' -> vm_inv own m' fl' root l' T' U pool ->
     (length l < 3)%nat -> wp fail Q (World h' env tr (set_km m' fl' s))) ->
  (forall x m1 h' m' fl' l' T', page_ok x -> mem_ok m1 -> effect own pool U h (settle h) m m1 ->
     effect own pool U h h' m m' -> (forall y, in_page x y -> mget m' y = mget (fill x m1) y) ->
     vm_inv own m' fl' root l' T' (<[va := new_pte x perm]> U) pool ->
     (length l <= length l' + 3)%nat -> wp (k x) Q (World h' env tr (set_km m' fl' s))) ->
  wp (mem ← kalloc;
      if mem =? 0 then fail else
      modmem (fill mem);;
      r ← mappages root va PGSIZE mem perm;
      if negb (r =? 0) then kfree mem;; fail else k mem) Q (World h env tr (set_km m fl s)).
Proof.
  intros Hh HL Hv Hva HU Ho Hp Hfill Hfail Hok. kstep.
  eapply (wpx_vm_kalloc own root); [done|done|exact Hv| |].
  { intros ->. change (0 =? 0) with true. eapply Hfail; [|done|cbn; lia].
    split; [apply hart_le_settle|done|done]. }
  intros x l' fl' m1 pool' -> Hnz Hx Hpool Hv1 Hef1. apply Z.eqb_neq in Hnz. rewrite Hnz.
  assert (Hxp : x ∉ pool').
  { pose proof (vm_nodup _ _ _ _ _ _ _ _ Hv) as Hnd. rewrite Hpool in Hnd. by apply NoDup_cons in Hnd as []. }
  assert (Hsub : pool' ⊆ pool) by (intros y Hy; rewrite Hpool; by apply list_elem_of_further).
  destruct (Hfill x m1) as [F1 F2]; [apply Hv1|done|].
  destruct (vm_fill_held (settle h) m1 _ _ _ _ _ _ x Hv1 Hx Hxp F1 F2) as [Hv2 Hef2].
  assert (Hef3 : effect own pool U h (settle h) m (fill x m1)).
  { eapply effect_trans; [exact Hef1|exact Hef2|done|by rewrite Hpool|done|done]. }
  kstep. apply wpx_km_mem. kstep.
  eapply wp_map_held; [by apply settle_ok|done|exact Hv2|done..| |].
  - intros h3 m3 fl3 T3 Hef4 Hv3 Hl3. change (negb (-1 =? 0)) with true. cbv iota. kstep.
    eapply (wpx_vm_kfree own root); [by eapply effect_ok, settle_ok|done|exact Hv3|done|done|].
    intros m4 Hv4 Hef5. apply (vm_inv_pool _ _ _ _ _ _ _ _ pool) in Hv4; [|by rewrite Hpool].
    eapply Hfail; [|exact Hv4|cbn; lia].
    eapply (effect_trans _ _ pool pool U U U); [exact Hef3| |done..].
    eapply effect_trans; [exact Hef4|exact Hef5|done|by rewrite Hpool|done|done].
  - intros h3 m3 fl3 l3 T3 Hef4 Hag Hv3 Hl3. change (negb (0 =? 0)) with false.
    apply (vm_inv_pool _ _ _ _ _ _ _ _ pool) in Hv3; [|by rewrite Hpool].
    eapply Hok; [done|apply Hv1|exact Hef1| | |exact Hv3|cbn; lia].
    + by eapply effect_trans.
    + intros y Hy. symmetry. by apply Hag.
Qed.

(** ** uvmunmap *)

Lemma lookup_unmap_range va n U x :
  page_aligned va ->
  unmap_range va n U !! x = if decide (x ∈ page_range va n) then None else U !! x.
Proof.
  intros Hva. revert va U Hva; induction n as [|n IH]; intros va U Hva; cbn [unmap_range page_range].
  - rewrite decide_False; [done|apply not_elem_of_nil].
  - rewrite IH by (apply page_aligned_add; [done|apply (page_aligned_pgsize_mul 1)]).
    destruct (decide (x ∈ page_range (va + PGSIZE) n)) as [Hx|Hx].
    + rewrite decide_True; [done|]. by apply list_elem_of_further.
    + destruct (decide (x = va)) as [->|Hne].
      * rewrite lookup_delete_eq, decide_True; [done|apply list_elem_of_here].
      * rewrite lookup_delete_ne by done. rewrite decide_False; [done|].
        by intros [->|?]%elem_of_cons.
Qed.

Lemma unmap_range_subseteq va n U : unmap_range va n U ⊆ U.
Proof.
  revert va U; induction n as [|n IH]; intros va U; cbn [unmap_range]; [done|].
  etrans; [apply IH|apply delete_subseteq].
Qed.

(** kfree() of a frame and then clearing its entry. *)
Lemma vm_inv_unmap_free h m fl l T U pool va a v :
  vm_inv own m fl root l T U pool -> U !! va = Some v -> slot T va = Some a -> own va = true ->
  let m' := store64 (store64 (memset m (PTE2PA v) 1 PGSIZE) (PTE2PA v) fl) a 0 in
  vm_inv own m' (PTE2PA v) root (PTE2PA v :: l) T (delete va U) pool /\
  effect own pool (delete va U) h (settle h) m m'.
Proof.
  intros Hv HU Hs Ho. pose proof (vm_inv_sep _ _ _ _ _ _ _ _ Hv) as (S1 & S2 & S3 & S4).
  destruct (vm_inv_frame _ _ _ _ _ _ _ _ Hv HU Ho) as (Hok & Hin & Hnl & Hnt & Hinj).
  pose proof Hv as [Hk Hpt Hp Hn Hpg]. rewrite Forall_forall in Hpg.
  pose proof (kfree_inv _ _ _ _ Hk Hok Hnl) as Hk1.
  set (pa := PTE2PA v) in *. set (m1 := store64 (memset m pa 1 PGSIZE) pa fl) in *. intros m'.
  assert (Hag1 : forall y, ~ in_page pa y -> mget m1 y = mget m y).
  { intros y Hy. apply mget_kfree. unfold in_page in Hy. lia. }
  destruct (slot_in_table _ _ _ _ _ _ Hpt Hs) as (t & Ht & Hta & Hta').
  assert (Htt : t ∈ tpages T) by (apply elem_of_tpages; eauto).
  assert (Htp : page_ok t) by (apply Hpg, S4; auto).
  assert (Hag2 : forall y, ~ in_page t y -> mget m' y = mget m1 y).
  { intros y Hy. apply mget_store64_out. unfold in_page in *. lia. }
  assert (Hef1 : effect own pool (delete va U) h (settle h) m m1).
  { apply (effect_page _ _ _ _ _ _ _ pa); [apply hart_le_settle|done|done| |done].
    intros va' v' Hv' Ho'. apply lookup_delete_Some in Hv' as [Hne Hv'].
    split; [|by apply (Hinj va')]. by destruct (vm_inv_frame _ _ _ _ _ _ _ _ Hv Hv' Ho'). }
  assert (Hef2 : effect own pool (delete va U) (settle h) (settle h) m1 m').
  { apply (effect_page _ _ _ _ _ _ _ t); [apply hart_le_refl|apply S4; auto|done| |done].
    intros va' v' Hv' Ho'. apply lookup_delete_Some in Hv' as [Hne Hv'].
    destruct (vm_inv_frame _ _ _ _ _ _ _ _ Hv Hv' Ho') as (? & _ & _ & Hnt' & _).
    split; [done|]. intros E. apply Hnt'. by rewrite E. }
  split; [|by eapply effect_trans].
  assert (Hpt1 : pt_inv m1 root T U).
  { apply (pt_inv_ext m); [done|]. intros p t' Ht' y Hy. symmetry. apply Hag1. unfold in_page.
    destruct (pages_disjoint t' pa) as [?|?];
      [eapply page_ok_aligned, pt_page; eauto|by apply page_ok_aligned| |lia|lia].
    intros ->. apply Hnt, elem_of_tpages. eauto. }
  split; [| | |done|by apply Forall_forall].
  - apply (kmem_inv_ext m1); [done|by apply mem_ok_store64, Hk1|].
    intros p Hp' y Hy. symmetry. apply Hag2. unfold in_page.
    assert (page_ok p /\ p <> t) as [Hpp Hpt'].
    { apply elem_of_cons in Hp' as [->|Hp']; [by split; [|intros ->]|].
      split; [apply Hpg, S4; auto|]. intros ->. by destruct (S1 t Hp'). }
    destruct (pages_disjoint p t) as [?|?]; [by apply page_ok_aligned..|done|lia|lia].
  - apply (pt_inv_store m1 root T U va a 0 Hpt1); [|done|lia].
    by destruct (mapped_slot _ _ _ _ _ _ _ _ Hv HU) as (? & _ & _ & _ & ?).
  - rewrite <-Hp, (frames_delete own U va v HU), Ho. cbn. fold pa. by rewrite !Permutation_middle.
Qed.

(** The state after unmapping: same page-table pages, same pool. *)
Definition unmapped (env : list turn) (tr : list event) (s : kstate) (U U' : gmap Z Z)
    (pool : list Z) (h : hart) (m : memory) (l : list Z) (T : tables) (w' : world) : Prop :=
  exists h' m' fl' l',
    w' = World h' env tr (set_km m' fl' s) /\ effect own pool U' h h' m m' /\
    vm_inv own m' fl' root l' T U' pool /\ (length l <= length l')%nat.

Lemma wp_unmap_page env tr s U pool va (do_free : bool) h m fl l T :
  hart_ok h -> lock_free s kmem_lock -> vm_inv own m fl root l T U pool ->
  vpage va -> (is_Some (U !! va) -> own va = do_free) ->
  wp (unmap_page root va do_free) (fun _ => unmapped env tr s U (delete va U) pool h m l T)
    (World h env tr (set_km m fl s)).
Proof.
  intros Hh HL Hv Hva Ho. pose proof (vm_pt _ _ _ _ _ _ _ _ Hv) as Hpt. unfold unmap_page.
  eapply wpx_bind, run_wp; [eapply walk_false_run; [exact Hpt|destruct Hva; lia]|].
  assert (Hnone : U !! va = None ->
    unmapped env tr s U (delete va U) pool h m l T (World h env tr (set_km m fl s))).
  { intros HU. rewrite delete_id by done. exists h, m, fl, l. split_and!; auto using effect_refl. }
  destruct (slot T va) as [a|] eqn:Hs; cbn [default].
  2:{ apply wpx_ret, Hnone. rewrite (pt_leaf _ _ _ _ Hpt va Hva). unfold leaf. by rewrite Hs. }
  pose proof (slot_nonzero _ _ _ _ _ _ Hpt Hs) as Hnz. apply Z.eqb_neq in Hnz. cbn. rewrite Hnz.
  kstep. apply wpx_km_read. rewrite eqb_PTE_V.
  pose proof (pt_leaf _ _ _ _ Hpt va Hva) as HU. unfold leaf in HU. rewrite Hs in HU. cbn in HU.
  destruct (Z.testbit (load64 m a) 0) eqn:Hb; cbn [negb]; [|by apply wpx_ret, Hnone].
  set (v := load64 m a) in *. assert (Hod : own va = do_free) by eauto.
  destruct do_free; cbn [when].
  - destruct (vm_inv_frame _ _ _ _ _ _ _ _ Hv HU Hod) as (Hok & _ & Hnl & _).
    eapply wpx_bind, wpx_kfree; [done|done|apply (vm_kmem _ _ _ _ _ _ _ _ Hv)|done|done|]. intros _.
    apply wpx_km_write.
    destruct (vm_inv_unmap_free h m fl l T U pool va a v Hv HU Hs Hod) as [H1 H2].
    exists (settle h), (store64 (store64 (memset m (PTE2PA v) 1 PGSIZE) (PTE2PA v) fl) a 0), (PTE2PA v),
      (PTE2PA v :: l). split_and!; [done..|]. cbn. lia.
  - apply wpx_bind, wpx_ret, wpx_km_write. exists h, (store64 m a 0), fl, l.
    destruct (vm_store_parts h m fl l T U pool va a 0 Hv Hs) as [Hk Hef]. split_and!; [done|..|done].
    + eapply effect_mono; [exact Hef|done|apply delete_subseteq].
    + pose proof (pt_inv_store _ _ _ _ va a 0 Hpt Hva Hs ltac:(lia)) as Hpt'.
      destruct Hv as [_ _ Hp Hn Hok]. split; [done|done| |done|done].
      rewrite <-Hp. by rewrite (frames_delete own U va v HU), Hod.
Qed.

Lemma uvmunmap_loop_S fuel pagetable a stop do_free :
  uvmunmap_loop (S fuel) pagetable a stop do_free =
  (if a <? stop then
     unmap_page pagetable a do_free;;
     uvmunmap_loop fuel pagetable (u64 (a + PGSIZE)) stop do_free
   else mret tt).
Proof. cbn [uvmunmap_loop]. by destruct (a <? stop). Qed.

Lemma wp_uvmunmap_loop env tr s (do_free : bool) pool stop n :
  lock_free s kmem_lock ->
  forall va U h m fl l T, hart_ok h -> vm_inv own m fl root l T U pool ->
  page_aligned va -> 0 <= va -> stop = va + Z.of_nat n * PGSIZE -> stop <= MAXVA ->
  (forall x, x ∈ page_range va n -> is_Some (U !! x) -> own x = do_free) ->
  wp (uvmunmap_loop n root va stop do_free)
    (fun _ => unmapped env tr s U (unmap_range va n U) pool h m l T) (World h env tr (set_km m fl s)).
Proof.
  intros HL. induction n as [|n IH]; intros va U h m fl l T Hh Hv Hal Hva Hstop Hmax Ho.
  - cbn [uvmunmap_loop]. destruct (Z.ltb_spec va stop); [lia|]. apply wpx_ret.
    exists h, m, fl, l. split_and!; auto using effect_refl.
  - rewrite uvmunmap_loop_S. destruct (Z.ltb_spec va stop); [|llia].
    eapply wpx_call.
    { apply (wp_unmap_page env tr s U pool va do_free h m fl l T); auto; [split; [done|llia]|].
      apply Ho, list_elem_of_here. }
    intros [] w' (h1 & m1 & fl1 & l1 & -> & Hef & Hv1 & Hl). rewrite u64_small by llia.
    eapply wpx_mono.
    { eapply (IH _ _ h1 m1 fl1 l1 T); [by eapply effect_ok|exact Hv1|..]; try llia.
      - apply page_aligned_add; [done|apply (page_aligned_pgsize_mul 1)].
      - intros x Hx. rewrite lookup_delete_ne by (symmetry; by eapply page_range_next).
        apply Ho. by apply list_elem_of_further. }
    intros [] w2 (h2 & m2 & fl2 & l2 & -> & Hef2 & Hv2 & Hl2).
    exists h2, m2, fl2, l2. split_and!; [done| |done|lia].
    eapply effect_trans; [exact Hef|exact Hef2|done|done|apply (unmap_range_subseteq (va + PGSIZE) n)|done].
Qed.

Lemma wp_uvmunmap env tr s (do_free : bool) pool va n U h m fl l T :
  hart_ok h -> lock_free s kmem_lock -> vm_inv own m fl root l T U pool ->
  page_aligned va -> 0 <= va -> va + Z.of_nat n * PGSIZE <= MAXVA ->
  (forall x, x ∈ page_range va n -> is_Some (U !! x) -> own x = do_free) ->
  wp (uvmunmap root va (Z.of_nat n) do_free)
    (fun _ => unmapped env tr s U (unmap_range va n U) pool h m l T) (World h env tr (set_km m fl s)).
Proof.
  intros Hh HL Hv Hal Hva Hmax Ho. unfold uvmunmap. rewrite (proj2 (Z.eqb_eq _ _) Hal). cbn [negb].
  rewrite Nat2Z.id, u64_small by llia. eapply wp_uvmunmap_loop; auto.
Qed.

(** ** uvmdealloc and uvmalloc *)

Definition dealloc_pages (oldsz newsz : Z) : nat :=
  Z.to_nat ((PGROUNDUP oldsz - PGROUNDUP newsz) / PGSIZE).

Lemma round_div a b :
  page_aligned a -> page_aligned b -> a <= b -> a + Z.of_nat (Z.to_nat ((b - a) / PGSIZE)) * PGSIZE = b.
Proof.
  intros Ha Hb Hle. pose proof (page_aligned_sub b a Hb Ha) as Hs. unfold page_aligned in Hs.
  pose proof (Z.div_mod (b - a) PGSIZE ltac:(llia)). pose proof (Z.div_pos (b - a) PGSIZE).
  rewrite Z2Nat.id by llia. llia.
Qed.

Lemma wp_uvmdealloc env tr s pool oldsz newsz U h m fl l T :
  hart_ok h -> lock_free s kmem_lock -> vm_inv own m fl root l T U pool ->
  0 <= newsz <= MAXVA -> 0 <= oldsz <= MAXVA ->
  (forall x, x ∈ page_range (PGROUNDUP newsz) (dealloc_pages oldsz newsz) -> is_Some (U !! x) ->
     own x = true) ->
  wp (uvmdealloc root oldsz newsz)
    (fun r w' => r = Z.min oldsz newsz /\ unmapped env tr s U
       (unmap_range (PGROUNDUP newsz) (dealloc_pages oldsz newsz) U) pool h m l T w')
    (World h env tr (set_km m fl s)).
Proof.
  intros Hh HL Hv Hnew Hold Ho. unfold uvmdealloc.
  destruct (PGROUNDUP_bounds oldsz ltac:(llia) ltac:(llia)) as [Ho1 Ho2].
  assert (Hsame : PGROUNDUP oldsz <= PGROUNDUP newsz ->
    unmapped env tr s U (unmap_range (PGROUNDUP newsz) (dealloc_pages oldsz newsz) U) pool h m l T
      (World h env tr (set_km m fl s))).
  { intros Hle. unfold dealloc_pages.
    assert ((PGROUNDUP oldsz - PGROUNDUP newsz) / PGSIZE <= 0) by (apply Z.div_le_upper_bound; llia).
    rewrite Z2Nat.nonpos by done. exists h, m, fl, l. split_and!; auto using effect_refl. }
  destruct (Z.leb_spec oldsz newsz) as [Hle|Hgt].
  { apply wpx_ret. split; [lia|]. apply Hsame, PGROUNDUP_mono; llia. }
  destruct (PGROUNDUP_bounds newsz ltac:(llia) ltac:(llia)) as [Hn1 Hn2].
  assert (Hround : PGROUNDUP oldsz <= MAXVA).
  { rewrite <-(PGROUNDUP_aligned MAXVA) by (done || llia). apply PGROUNDUP_mono; llia. }
  apply wpx_bind, wpx_when; intros Hlt%Z.ltb_lt || intros Hge%Z.ltb_ge.
  - rewrite s32_small.
    2:{ split; [transitivity 0; [lia|apply Z.div_pos; llia]|apply Z.div_lt_upper_bound; llia]. }
    rewrite u64_small.
    2:{ split; [apply Z.div_pos; llia|apply Z.div_lt_upper_bound; llia]. }
    rewrite <-(Z2Nat.id ((PGROUNDUP oldsz - _) / _)) by (apply Z.div_pos; llia).
    eapply wpx_mono; [eapply (wp_uvmunmap env tr s true pool _ (dealloc_pages oldsz newsz) U h m fl l T);
      auto; try llia|].
    + unfold dealloc_pages. rewrite round_div by (done || lia). done.
    + intros [] w' Hw. apply wpx_ret. split; [lia|done].
  - apply wpx_ret. split; [lia|by apply Hsame].
Qed.

(** [grown]: the [k] pages from [a0] are mapped to zeroed frames with the
    permissions of uvmalloc(); nothing else changed. *)
Definition grown (U U' : gmap Z Z) (m : memory) (a0 : Z) (k : nat) (xperm : Z) : Prop :=
  (forall x, x ∈ page_range a0 k -> own x = true /\ exists pa, page_ok pa /\
     U' !! x = Some (new_pte pa (Z.lor (Z.lor PTE_R PTE_U) xperm)) /\
     forall y, in_page pa y -> mget m y = 0) /\
  (forall x, x ∉ page_range a0 k -> U' !! x = U !! x).

Lemma elem_of_page_range_S a k x :
  page_aligned a ->
  x ∈ page_range a (S k) <-> x ∈ page_range a k \/ x = a + Z.of_nat k * PGSIZE.
Proof.
  intros Ha. rewrite !elem_of_page_range by done. split.
  - intros [Hx Hr]. destruct (decide (x = a + Z.of_nat k * PGSIZE)) as [|Hne]; [by right|left].
    split; [done|]. destruct (pages_disjoint x (a + Z.of_nat k * PGSIZE)) as [?|?]; auto; [|llia|llia].
    apply page_aligned_add; [done|apply page_aligned_pgsize_mul].
  - intros [[Hx Hr]| ->]; split; [done|llia|..|llia].
    apply page_aligned_add; [done|apply page_aligned_pgsize_mul].
Qed.

Lemma grown_rollback U U' m a0 k xperm :
  page_aligned a0 -> grown U U' m a0 k xperm ->
  (forall x, x ∈ page_range a0 k -> U !! x = None) -> unmap_range a0 k U' = U.
Proof.
  intros Ha [_ H2] Hun. apply map_eq. intros x. rewrite lookup_unmap_range by done.
  case_decide as Hx; [by rewrite Hun|by apply H2].
Qed.

Lemma grown_keeps U U1 m m' a0 k xperm :
  0 <= xperm < 2 ^ 10 -> grown U U1 m a0 k xperm -> keeps own U1 m m' -> grown U U1 m' a0 k xperm.
Proof.
  intros Hx [H1 H2] Hkeep. split; [|done]. intros x Hin.
  destruct (H1 x Hin) as (Ho & pa & Hok & HU & Hm). split; [done|]. exists pa.
  split_and!; [done..|]. intros y Hy. rewrite <-(Hkeep _ _ HU Ho); [by apply Hm|].
  destruct (new_pte_page pa (Z.lor (Z.lor PTE_R PTE_U) xperm)) as (_ & -> & _); [done| |done].
  apply lor_range; [lia|by vm_compute|done].
Qed.

(** One more page. *)
Lemma grown_S U U1 m1 m2 a0 k xperm pa :
  page_aligned a0 -> grown U U1 m1 a0 k xperm -> own (a0 + Z.of_nat k * PGSIZE) = true ->
  keeps own U1 m1 m2 -> page_ok pa -> 0 <= xperm < 2 ^ 10 ->
  (forall y, in_page pa y -> mget m2 y = 0) ->
  grown U (<[a0 + Z.of_nat k * PGSIZE := new_pte pa (Z.lor (Z.lor PTE_R PTE_U) xperm)]> U1) m2 a0 (S k) xperm.
Proof.
  intros Ha Hg Ho Hkeep Hpa Hx Hz. apply (grown_keeps _ _ _ m2) in Hg as [H1 H2]; [|done..]. split.
  - intros x. rewrite elem_of_page_range_S by done. intros [Hin| ->].
    + destruct (H1 x Hin) as (Hox & pa' & Hok & HU & Hm). split; [done|]. exists pa'.
      split_and!; [done| |done]. rewrite lookup_insert_ne; [done|]. intros <-.
      apply elem_of_page_range in Hin; [llia|done].
    + split; [done|]. exists pa. rewrite lookup_insert_eq. done.
  - intros x Hin. rewrite elem_of_page_range_S in Hin by done.
    rewrite lookup_insert_ne by (intros <-; apply Hin; by right). apply H2. tauto.
Qed.

Lemma uvmalloc_loop_S fuel pagetable a oldsz newsz xperm :
  uvmalloc_loop (S fuel) pagetable a oldsz newsz xperm =
  (if a <? newsz then
     mem ← kalloc;
     if mem =? 0 then uvmdealloc pagetable a oldsz;; mret 0 else
     modmem (fun m => memset m mem 0 PGSIZE);;
     r ← mappages pagetable a PGSIZE mem (Z.lor (Z.lor PTE_R PTE_U) xperm);
     if negb (r =? 0) then
       kfree mem;;
       uvmdealloc pagetable a oldsz;;
       mret 0
     else uvmalloc_loop fuel pagetable (u64 (a + PGSIZE)) oldsz newsz xperm
   else mret newsz).
Proof. cbn [uvmalloc_loop]. by destruct (a <? newsz). Qed.

(** The result of growing by [n] pages from [a0]: all of them, or none and
    fewer than three free pages for each to begin with. *)
Definition allocated (env : list turn) (tr : list event) (s : kstate) (U : gmap Z Z)
    (pool : list Z) (a0 newsz xperm : Z) (n : nat) (h : hart) (m : memory) (l : list Z)
    (r : Z) (w' : world) : Prop :=
  exists h' m' fl' l' T' U',
    w' = World h' env tr (set_km m' fl' s) /\ effect own pool U h h' m m' /\
    vm_inv own m' fl' root l' T' U' pool /\
    (r = newsz /\ grown U U' m' a0 n xperm /\ (length l <= length l' + 3 * n)%nat \/
     r = 0 /\ U' = U /\ (length l < 3 * n)%nat).

Lemma page_range_le a0 k n x :
  page_aligned a0 -> (k <= n)%nat -> x ∈ page_range a0 k -> x ∈ page_range a0 n.
Proof.
  intros Ha0. rewrite !elem_of_page_range by done. intros Hk [H1 H2]. split; [done|llia].
Qed.

Section alloc.
Context (env : list turn) (tr : list event) (s : kstate) (HL : lock_free s kmem_lock).
Context (pool : list Z) (U : gmap Z Z) (a0 newsz xperm : Z) (n : nat).
Context (Ha0 : page_aligned a0) (Hn : 0 <= a0) (Hmax : a0 + Z.of_nat n * PGSIZE <= MAXVA).
Context (Hend : newsz <= a0 + Z.of_nat n * PGSIZE < newsz + PGSIZE).
Context (Hperm : 0 <= xperm < 2 ^ 10).
Context (Hun : forall x, x ∈ page_range a0 n -> U !! x = None /\ own x = true).

(** Giving up after [k] pages. *)
Lemma wp_uvmalloc_fail h0 m0 l0 k U1 h m fl l T :
  hart_ok h -> vm_inv own m fl root l T U1 pool -> (k <= n)%nat ->
  grown U U1 m a0 k xperm -> effect own pool U h0 h m0 m -> (length l0 < 3 * n)%nat ->
  wp (uvmdealloc root (a0 + Z.of_nat k * PGSIZE) a0;; mret 0)
    (allocated env tr s U pool a0 newsz xperm n h0 m0 l0) (World h env tr (set_km m fl s)).
Proof.
  intros Hh Hv Hk Hg Hef Hl. set (a := a0 + Z.of_nat k * PGSIZE).
  assert (Hr0 : PGROUNDUP a0 = a0) by (apply PGROUNDUP_aligned; [lia|llia|done]).
  assert (Hra : PGROUNDUP a = a).
  { apply PGROUNDUP_aligned; [llia|llia|]. apply page_aligned_add; [done|apply page_aligned_pgsize_mul]. }
  assert (Hd : dealloc_pages a a0 = k).
  { unfold dealloc_pages. rewrite Hr0, Hra. unfold a. rewrite Z.add_simpl_l, Z.div_mul by llia. lia. }
  eapply wpx_call.
  { apply (wp_uvmdealloc env tr s pool a a0 U1 h m fl l T); auto; [llia|llia|].
    rewrite Hr0, Hd. intros x Hx _. by apply Hun, (page_range_le a0 k). }
  rewrite Hr0, Hd, (grown_rollback U U1 m a0 k xperm) by (done || intros; by apply Hun, (page_range_le a0 k)).
  intros r w' (_ & h' & m' & fl' & l' & -> & Hef' & Hv' & Hl'). apply wpx_ret.
  exists h', m', fl', l', T, U. split_and!; [done| |done|right; split_and!; auto].
  eapply effect_trans; [exact Hef|exact Hef'|done..].
Qed.

Lemma grown_sub k U1 m : (k <= n)%nat -> grown U U1 m a0 k xperm -> U ⊆ U1.
Proof.
  intros Hk [_ H2]. apply map_subseteq_spec. intros x v Hv. rewrite H2; [done|].
  intros Hx. destruct (Hun x) as [HN _]; [by apply (page_range_le a0 k)|]. congruence.
Qed.

Lemma wp_uvmalloc_loop h0 m0 l0 fuel :
  forall k U1 h m fl l T, (k <= n)%nat -> (n - k <= fuel)%nat ->
  hart_ok h -> vm_inv own m fl root l T U1 pool ->
  grown U U1 m a0 k xperm -> effect own pool U h0 h m0 m -> (length l0 <= length l + 3 * k)%nat ->
  wp (uvmalloc_loop fuel root (a0 + Z.of_nat k * PGSIZE) a0 newsz xperm)
    (allocated env tr s U pool a0 newsz xperm n h0 m0 l0) (World h env tr (set_km m fl s)).
Proof.
  induction fuel as [|fuel IH]; intros k U1 h m fl l T Hk Hfuel Hh Hv Hg Hef Hl;
    [cbn [uvmalloc_loop]|rewrite uvmalloc_loop_S]; set (a := a0 + Z.of_nat k * PGSIZE);
    (assert (Haa : page_aligned a) by (apply page_aligned_add; [done|apply page_aligned_pgsize_mul]));
    assert (Hdone : newsz <= a ->
      allocated env tr s U pool a0 newsz xperm n h0 m0 l0 newsz (World h env tr (set_km m fl s)))
    by (intros Hge; assert (k = n) as -> by (destruct (decide (k = n)); [done|llia]);
        exists h, m, fl, l, T, U1; split_and!; auto);
    destruct (Z.ltb_spec a newsz) as [Hlt|Hge]; try (apply wpx_ret; by apply Hdone); [llia|].
  assert (Hkn : (k < n)%nat) by llia.
  assert (Hin : a ∈ page_range a0 n) by (apply elem_of_page_range; [done|]; split; [done|llia]).
  assert (Hak : a ∉ page_range a0 k) by (rewrite elem_of_page_range by done; llia).
  destruct (Hun a Hin) as [HUa Hoa].
  assert (HU1 : U1 !! a = None) by (destruct Hg as [_ Hg2]; by rewrite Hg2).
  assert (HU : U ⊆ U1) by by apply (grown_sub k U1 m).
  eapply (wp_alloc_map (fun x m => memset m x 0 PGSIZE));
    [done|done|exact Hv|split; [done|llia]|done|done| |apply fill_zero|..].
  - apply lor_range; [lia|by vm_compute|done].
  - intros h1 m1 fl1 l1 T1 Hef1 Hv1 Hl1. eapply wp_uvmalloc_fail; [|exact Hv1|lia|..].
    + by eapply effect_ok.
    + eapply grown_keeps; [done|exact Hg|apply Hef1].
    + by eapply effect_trans.
    + lia.
  - intros x m1 h2 m2 fl2 l2 T2 Hx Hm1 _ Hef1 Hm2 Hv2 Hl2. rewrite u64_small by llia.
    replace (a + PGSIZE) with (a0 + Z.of_nat (S k) * PGSIZE) by llia.
    eapply IH; [lia|lia| |exact Hv2|..].
    + by eapply effect_ok.
    + apply (grown_S U U1 m m2); auto; [apply Hef1|].
      intros y Hy. rewrite Hm2 by done. by apply (mem_zeroed m1 x Hm1).
    + by eapply effect_trans.
    + lia.
Qed.

End alloc.

(** Pages uvmalloc() adds between two sizes. *)
Definition alloc_pages (oldsz newsz : Z) : nat :=
  Z.to_nat ((PGROUNDUP newsz - PGROUNDUP oldsz) / PGSIZE).

Lemma wp_uvmalloc env tr s pool oldsz newsz xperm U h m fl l T :
  hart_ok h -> lock_free s kmem_lock -> vm_inv own m fl root l T U pool ->
  0 <= oldsz <= newsz -> newsz <= MAXVA -> 0 <= xperm < 2 ^ 10 ->
  (forall x, x ∈ page_range (PGROUNDUP oldsz) (alloc_pages oldsz newsz) ->
     U !! x = None /\ own x = true) ->
  wp (uvmalloc root oldsz newsz xperm)
    (allocated env tr s U pool (PGROUNDUP oldsz) newsz xperm (alloc_pages oldsz newsz) h m l)
    (World h env tr (set_km m fl s)).
Proof.
  intros Hh HL Hv Hold Hnew Hp Hun. unfold uvmalloc. destruct (Z.ltb_spec newsz oldsz); [lia|].
  destruct (PGROUNDUP_bounds oldsz ltac:(llia) ltac:(llia)) as [Ho1 Ho2].
  destruct (PGROUNDUP_bounds newsz ltac:(llia) ltac:(llia)) as [Hn1 Hn2].
  pose proof (PGROUNDUP_mono oldsz newsz ltac:(lia) ltac:(llia)) as Hmono.
  pose proof (round_div _ _ Ho1 Hn1 Hmono) as Hr. fold (alloc_pages oldsz newsz) in Hr.
  set (n := alloc_pages oldsz newsz) in *. set (a0 := PGROUNDUP oldsz) in *.
  replace a0 with (a0 + Z.of_nat 0 * PGSIZE) at 2 by lia.
  assert (Hmax : a0 + Z.of_nat n * PGSIZE <= MAXVA).
  { rewrite Hr, <-(PGROUNDUP_aligned MAXVA) by (done || llia). apply PGROUNDUP_mono; llia. }
  eapply (wp_uvmalloc_loop env tr s HL pool U a0 newsz xperm n) with (U1 := U); eauto using effect_refl; try lia.
  - assert (Z.of_nat n - 1 <= (newsz - a0) / PGSIZE); [|lia]. apply Z.div_le_lower_bound; llia.
  - split; [|done]. intros x Hx. cbn in Hx. by apply elem_of_nil in Hx.
Qed.

End uvm.
