(* ===== verification/UvmCopy.v ===== *)
(** * Copying and freeing address spaces

    Specifications of uvmcopy(), freewalk() and uvmfree(). *)

From S2P Require Import Prelude Memory CString Riscv Machine Spinlock Kalloc Vm Pagetable Uvm.

(** What uvmcopy() makes of the first [k] pages: every mapped page of the old
    table is mapped in the new one to a frame of its own, with the same
    flags and the contents the old frame had in [m0]. *)
Definition copied_range {I : Image} (own : Z -> bool) (Uo : gmap Z Z) (m0 : memory)
    (U U' : gmap Z Z) (m : memory) (k : nat) : Prop :=
  (forall x, x ∈ page_range 0 k -> own x = true /\
     match Uo !! x with
     | Some v => exists pa, page_ok pa /\ U' !! x = Some (new_pte pa (PTE_FLAGS v)) /\
         forall i, 0 <= i < PGSIZE -> mget m (pa + i) = mget m0 (PTE2PA v + i)
     | None => U' !! x = None
     end) /\
  (forall x, x ∉ page_range 0 k -> U' !! x = U !! x).

Section copy.
Context {I : Image} `{!ImageOk I} (own : Z -> bool) (old new : Z).
Context (env : list turn) (tr : list event) (s : kstate) (HL : lock_free s kmem_lock).
Context (pool : list Z) (U Uo : gmap Z Z) (To : tables) (m0 : memory).
Context (sz : Z) (n : nat).
Context (Hmax : Z.of_nat n * PGSIZE <= MAXVA).
Context (Hend : sz <= Z.of_nat n * PGSIZE < sz + PGSIZE).
Context (Hun : forall x, x ∈ page_range 0 n -> U !! x = None /\ own x = true).
Context (Hold : pt_inv m0 old To Uo) (Htabs : forall t, t ∈ tpages To -> t ∉ pool).
Context (Hfr : forall x v, x ∈ page_range 0 n -> Uo !! x = Some v ->
  page_ok (PTE2PA v) /\ PTE2PA v ∉ pool).

Lemma zero_aligned : page_aligned 0.
Proof. done. Qed.

Lemma PTE_FLAGS_range v : 0 <= PTE_FLAGS v < 2 ^ 10.
Proof.
  unfold PTE_FLAGS. change 0x3FF with (Z.ones 10). rewrite Z.land_ones by lia.
  apply Z.mod_pos_bound. lia.
Qed.

(** The old page table is outside the pool, so it stays. *)
Lemma old_kept h h' m : effect own pool U h h' m0 m -> Forall page_ok pool -> pt_inv m old To Uo.
Proof.
  intros Hef Hok. apply (pt_inv_ext m0); [done|]. intros p t Ht.
  eapply frame_page; [apply Hef|by eapply pt_page|done|].
  apply Htabs, elem_of_tpages. eauto.
Qed.

Lemma copied_keeps U1 m m' k :
  copied_range own Uo m0 U U1 m k -> keeps own U1 m m' -> copied_range own Uo m0 U U1 m' k.
Proof.
  intros [H1 H2] Hkeep. split; [|done]. intros x Hx. destruct (H1 x Hx) as [Ho Hc]. split; [done|].
  destruct (Uo !! x) as [v|]; [|done]. destruct Hc as (pa & Hpa & HU1 & Hm). exists pa.
  split_and!; [done..|]. intros i Hi. rewrite <-Hm by done. symmetry.
  apply (Hkeep _ _ HU1 Ho). destruct (new_pte_page pa (PTE_FLAGS v)) as (_ & -> & _);
    [done|apply PTE_FLAGS_range|lia].
Qed.

Lemma copied_rollback U1 m k :
  (k <= n)%nat -> copied_range own Uo m0 U U1 m k -> unmap_range 0 k U1 = U.
Proof.
  intros Hk [_ H2]. apply map_eq. intros x. rewrite lookup_unmap_range by apply zero_aligned.
  case_decide as Hx; [|by apply H2]. symmetry. apply Hun.
  by apply (page_range_le 0 k n x zero_aligned Hk).
Qed.

Lemma copied_sub U1 m k : (k <= n)%nat -> copied_range own Uo m0 U U1 m k -> U ⊆ U1.
Proof.
  intros Hk [_ H2]. apply map_subseteq_spec. intros x v Hv. rewrite H2; [done|].
  intros Hx. destruct (Hun x) as [HN _]; [|congruence].
  by apply (page_range_le 0 k n x zero_aligned Hk).
Qed.

(** One page further: skipped because the old table does not map it, or
    copied. *)
Lemma copied_skip U1 m k :
  (k < n)%nat -> copied_range own Uo m0 U U1 m k -> Uo !! (Z.of_nat k * PGSIZE) = None ->
  copied_range own Uo m0 U U1 m (S k).
Proof.
  intros Hk [H1 H2] HN. set (i := Z.of_nat k * PGSIZE) in *.
  assert (Hi : i ∈ page_range 0 n).
  { apply elem_of_page_range; [done|]. split; [apply page_aligned_pgsize_mul|llia]. }
  assert (Hni : i ∉ page_range 0 k) by (rewrite elem_of_page_range by done; llia).
  split; intros x; rewrite elem_of_page_range_S by done.
  - intros [Hx|Hx]; [auto|]. replace x with i by llia. rewrite HN. split; [by apply Hun|].
    rewrite H2 by done. by apply Hun.
  - intros Hx. apply H2. tauto.
Qed.

Lemma copied_S U1 m m' k v pa :
  (k < n)%nat -> copied_range own Uo m0 U U1 m k -> Uo !! (Z.of_nat k * PGSIZE) = Some v ->
  keeps own U1 m m' -> page_ok pa ->
  (forall i, 0 <= i < PGSIZE -> mget m' (pa + i) = mget m0 (PTE2PA v + i)) ->
  copied_range own Uo m0 U (<[Z.of_nat k * PGSIZE := new_pte pa (PTE_FLAGS v)]> U1) m' (S k).
Proof.
  intros Hk Hc HS Hkeep Hpa Hm. apply (copied_keeps _ _ m') in Hc as [H1 H2]; [|done].
  set (i := Z.of_nat k * PGSIZE) in *.
  assert (Hi : i ∈ page_range 0 n).
  { apply elem_of_page_range; [done|]. split; [apply page_aligned_pgsize_mul|llia]. }
  assert (Hni : i ∉ page_range 0 k) by (rewrite elem_of_page_range by done; llia).
  split; intros x; rewrite elem_of_page_range_S by done.
  - intros [Hx|Hx].
    + rewrite lookup_insert_ne by (by intros ->). by apply H1.
    + replace x with i by llia. rewrite HS. split; [by apply Hun|]. exists pa.
      rewrite lookup_insert_eq. done.
  - intros Hx. rewrite lookup_insert_ne by (intros <-; apply Hx; right; llia). apply H2. tauto.
Qed.

(** The result of copying: every page, or nothing and fewer than three free
    pages for each to begin with. *)
Definition forked (h : hart) (l : list Z) (r : Z) (w' : world) : Prop :=
  exists h' m' fl' l' T' U',
    w' = World h' env tr (set_km m' fl' s) /\ effect own pool U h h' m0 m' /\
    vm_inv own m' fl' new l' T' U' pool /\
    (r = 0 /\ copied_range own Uo m0 U U' m' n /\ (length l <= length l' + 3 * n)%nat \/
     r = -1 /\ U' = U /\ (length l < 3 * n)%nat).

Lemma uvmcopy_loop_S fuel i :
  uvmcopy_loop (S fuel) old new i sz =
  (let err := uvmunmap new 0 (i / PGSIZE) true;; mret (-1) in
   if i <? sz then
     let continue := uvmcopy_loop fuel old new (u64 (i + PGSIZE)) sz in
     pte ← walk old i false;
     if pte =? 0 then continue else
     v ← read_pte pte;
     if Z.land v PTE_V =? 0 then continue else
     mem ← kalloc;
     if mem =? 0 then err else
     modmem (fun m => memmove m mem (PTE2PA v) PGSIZE);;
     r ← mappages new i PGSIZE mem (PTE_FLAGS v);
     if negb (r =? 0) then kfree mem;; err else continue
   else mret 0).
Proof. cbn [uvmcopy_loop]. by destruct (i <? sz). Qed.

Lemma fill_copy pa : fill_ok (fun x m => memmove m x pa PGSIZE).
Proof.
  intros x m Hm Hx. split; [by apply mem_ok_memmove; [|llia]|]. intros y Hy.
  rewrite (memmove_copied m x pa PGSIZE Hm ltac:(llia)). by rewrite decide_False.
Qed.

Lemma wp_uvmcopy_fail h0 l0 k U1 h m fl l T :
  hart_ok h -> vm_inv own m fl new l T U1 pool -> (k <= n)%nat ->
  copied_range own Uo m0 U U1 m k -> effect own pool U h0 h m0 m -> (length l0 < 3 * n)%nat ->
  wp (uvmunmap new 0 (Z.of_nat k * PGSIZE / PGSIZE) true;; mret (-1))
    (forked h0 l0) (World h env tr (set_km m fl s)).
Proof.
  intros Hh Hv Hk Hc Hef Hl. rewrite Z.div_mul by llia. eapply wpx_call.
  { apply (wp_uvmunmap own new env tr s true pool 0 k U1 h m fl l T); auto using zero_aligned; [lia|llia|].
    intros x Hx _. apply Hun. by apply (page_range_le 0 k n x zero_aligned Hk). }
  erewrite copied_rollback by done.
  intros [] w' (h' & m' & fl' & l' & -> & Hef' & Hv' & Hl'). apply wpx_ret.
  exists h', m', fl', l', T, U. split_and!; [done| |done|right; split_and!; auto].
  by eapply effect_trans.
Qed.

Lemma wp_uvmcopy_loop h0 l0 fuel :
  forall k U1 h m fl l T, (k <= n)%nat -> (n - k <= fuel)%nat ->
  hart_ok h -> vm_inv own m fl new l T U1 pool ->
  copied_range own Uo m0 U U1 m k -> effect own pool U h0 h m0 m ->
  (length l0 <= length l + 3 * k)%nat ->
  wp (uvmcopy_loop fuel old new (Z.of_nat k * PGSIZE) sz) (forked h0 l0)
    (World h env tr (set_km m fl s)).
Proof.
  induction fuel as [|fuel IH]; intros k U1 h m fl l T Hk Hfuel Hh Hv Hc Hef Hl;
    [cbn [uvmcopy_loop]|rewrite uvmcopy_loop_S; cbv zeta]; set (i := Z.of_nat k * PGSIZE);
    (assert (Hdone : sz <= i -> forked h0 l0 0 (World h env tr (set_km m fl s)))
      by (intros Hge; assert (k = n) as -> by (destruct (decide (k = n)); [done|llia]);
          exists h, m, fl, l, T, U1; split_and!; auto));
    destruct (Z.ltb_spec i sz) as [Hlt|Hge]; try (apply wpx_ret; by apply Hdone); [llia|].
  assert (Hkn : (k < n)%nat) by llia.
  assert (Hal : page_aligned i) by apply page_aligned_pgsize_mul.
  assert (Hin : i ∈ page_range 0 n) by (apply elem_of_page_range; [done|]; split; [done|llia]).
  assert (Hnk : i ∉ page_range 0 k) by (rewrite elem_of_page_range by done; llia).
  destruct (Hun i Hin) as [HUi Hoi].
  assert (HU1 : U1 !! i = None) by (destruct Hc as [_ Hc2]; by rewrite Hc2).
  assert (HU : U ⊆ U1) by by apply (copied_sub U1 m k).
  assert (Hpt : pt_inv m old To Uo) by (eapply old_kept; [exact Hef|apply Hv]).
  assert (Hvp : vpage i) by (split; [done|llia]).
  assert (Hcont : Uo !! i = None -> wp (uvmcopy_loop fuel old new (u64 (i + PGSIZE)) sz)
    (forked h0 l0) (World h env tr (set_km m fl s))).
  { intros HN. rewrite u64_small by llia. replace (i + PGSIZE) with (Z.of_nat (S k) * PGSIZE) by llia.
    eapply (IH (S k) U1); [lia|lia|done|exact Hv|by apply copied_skip|done|lia]. }
  pose proof (pt_leaf _ _ _ _ Hpt i Hvp) as HUo. unfold leaf in HUo.
  eapply wpx_bind, run_wp; [eapply walk_false_run; [exact Hpt|llia]|].
  destruct (slot To i) as [a|] eqn:Hs; cbn [default] in *; [|by apply Hcont].
  pose proof (slot_nonzero _ _ _ _ _ _ Hpt Hs) as Hnz. apply Z.eqb_neq in Hnz. cbn. rewrite Hnz.
  kstep. apply wpx_km_read. rewrite eqb_PTE_V. cbn in HUo.
  destruct (Z.testbit (load64 m a) 0) eqn:Hb; cbn [negb]; [|by apply Hcont].
  set (v := load64 m a) in *. destruct (Hfr i v Hin HUo) as [Hpv Hpn].
  eapply (wp_alloc_map own new (fun x m => memmove m x (PTE2PA v) PGSIZE) _
    (fun _ => uvmcopy_loop fuel old new (u64 (i + PGSIZE)) sz));
    [done|done|exact Hv|done|done|done|apply PTE_FLAGS_range|apply fill_copy|..].
  - intros h1 m1 fl1 l1 T1 Hef1 Hv1 Hl1. eapply wp_uvmcopy_fail; [|exact Hv1|lia|..].
    + by eapply effect_ok.
    + eapply copied_keeps; [exact Hc|apply Hef1].
    + by eapply effect_trans.
    + lia.
  - intros x m1 h2 m2 fl2 l2 T2 Hx Hm1 Hef1 Hef2 Hm2 Hv2 Hl2. rewrite u64_small by llia.
    replace (i + PGSIZE) with (Z.of_nat (S k) * PGSIZE) by llia.
    eapply IH; [lia|lia| |exact Hv2|..].
    + by eapply effect_ok.
    + eapply copied_S; [done|exact Hc|done|apply Hef2|done|].
      intros j Hj. rewrite Hm2 by (unfold in_page; lia).
      rewrite (memmove_copied m1 x _ PGSIZE Hm1 ltac:(llia)), decide_True by lia.
      replace (PTE2PA v + (x + j - x)) with (PTE2PA v + j) by lia.
      transitivity (mget m (PTE2PA v + j)); symmetry.
      * eapply frame_page; [apply Hef1|exact Hpv|apply Hv|done|lia].
      * eapply frame_page; [apply Hef|exact Hpv|apply Hv|done|lia].
    + by eapply effect_trans.
    + lia.
Qed.

Lemma wp_uvmcopy h fl l T :
  hart_ok h -> vm_inv own m0 fl new l T U pool -> 0 <= sz ->
  wp (uvmcopy old new sz) (forked h l) (World h env tr (set_km m0 fl s)).
Proof.
  intros Hh Hv Hsz. unfold uvmcopy. eapply (wp_uvmcopy_loop h l _ 0 U); eauto using effect_refl; try lia.
  - assert (Z.of_nat n - 1 <= sz / PGSIZE); [|lia]. apply Z.div_le_lower_bound; llia.
  - split; [|done]. intros x Hx. cbn in Hx. by apply elem_of_nil in Hx.
Qed.

End copy.

(** ** freewalk *)

(** The page-table pages at and below path [p]. *)
Definition below (T : tables) (p : list Z) (x : Z) : Prop := exists q, T !! (q ++ p) = Some x.

Lemma app_cons_inj (q q' : list Z) i j p : q ++ i :: p = q' ++ j :: p -> i = j /\ q = q'.
Proof. intros H. apply app_inj_2 in H as [-> [= ->]]; done. Qed.

(** The page address with the given indices. *)
Lemma PX_make i2 i1 i0 :
  0 <= i2 < 256 -> 0 <= i1 < 512 -> 0 <= i0 < 512 ->
  let va := ((i2 * 512 + i1) * 512 + i0) * PGSIZE in
  vpage va /\ leaf_path va = [i1; i2] /\ PX 0 va = i0.
Proof.
  intros H2 H1 H0 va. unfold leaf_path. rewrite !PX_eq by lia. unfold va, PGSIZE.
  change (2 ^ (12 + 9 * 2)) with (4096 * (512 * 512)). change (2 ^ (12 + 9 * 1)) with (4096 * 512).
  change (2 ^ (12 + 9 * 0)) with 4096. rewrite <-!Z.div_div, Z.div_mul by lia.
  rewrite (Z.div_add_l _ 512 i0), (Z.div_small i0) by lia.
  rewrite Z.add_0_r, (Z.div_add_l i2 512 i1), (Z.div_small i1) by lia. rewrite Z.add_0_r.
  rewrite (Z.add_comm (i2 * 512)), Z.mod_add by lia.
  rewrite (Z.add_comm _ i0), Z.mod_add by lia. rewrite !Z.mod_small by lia.
  split_and!; [split; [apply Z_mod_mult|llia]|done|done].
Qed.

Section teardown.
Context {I : Image} `{!ImageOk I} (root : Z).
Context (env : list turn) (tr : list event) (s : kstate) (HL : lock_free s kmem_lock).
Context (T : tables) (m0 : memory) (Hpt : pt_inv m0 root T ∅).

Lemma below_self p t : T !! p = Some t -> below T p t.
Proof. by exists []. Qed.

Lemma below_child i p x : below T (i :: p) x -> below T p x.
Proof. intros [q Hq]. exists (q ++ [i]). by rewrite <-app_assoc. Qed.

Lemma below_disjoint i j p x : below T (i :: p) x -> below T (j :: p) x -> i = j.
Proof.
  intros [q Hq] [q' Hq']. pose proof (pt_inj _ _ _ _ Hpt _ _ _ Hq Hq') as E.
  by apply app_cons_inj in E as [-> _].
Qed.

Lemma below_not_self i p t : T !! p = Some t -> ~ below T (i :: p) t.
Proof.
  intros Ht [q Hq]. pose proof (pt_inj _ _ _ _ Hpt _ _ _ Ht Hq) as E.
  apply (f_equal length) in E. rewrite length_app in E. cbn in E. lia.
Qed.

Lemma below_inv p t x :
  T !! p = Some t -> below T p x <-> x = t \/ exists i, 0 <= i < 512 /\ below T (i :: p) x.
Proof.
  intros Ht. split.
  - intros [q Hq]. destruct q as [|i q _] using rev_ind; [left; cbn in Hq; congruence|]. right.
    exists i. rewrite <-app_assoc in Hq. cbn in Hq. split; [|by exists q].
    assert (Hup : forall r, is_Some (T !! (r ++ i :: p)) -> is_Some (T !! (i :: p))).
    { induction r as [|j r IH]; [done|]. cbn. intros [c Hc]. apply IH. by eapply pt_up. }
    destruct (Hup q (mk_is_Some _ _ Hq)) as [c Hc]. by destruct (pt_idx _ _ _ _ Hpt _ _ _ Hc).
  - intros [->|(i & _ & Hb)]; [by apply below_self|by eapply below_child].
Qed.

Lemma below_page p x : below T p x -> page_ok x.
Proof. intros [q Hq]. by eapply pt_page. Qed.

(** Entries of a leaf page-table page are invalid. *)
Lemma leaf_entry_invalid p t i :
  T !! p = Some t -> length p = 2%nat -> 0 <= i < 512 -> Z.testbit (load64 m0 (pte_at t i)) 0 = false.
Proof.
  intros Ht Hl Hi. destruct p as [|i1 [|i2 [|? ?]]]; try done.
  destruct (pt_idx _ _ _ _ Hpt _ _ _ Ht) as [Hi1 _].
  destruct (pt_up _ _ _ _ Hpt _ _ _ Ht) as [c Hc].
  destruct (pt_idx _ _ _ _ Hpt _ _ _ Hc) as [Hi2 Hi2'].
  destruct (PX_make i2 i1 i) as (Hva & Hlp & H0); [by specialize (Hi2' eq_refl); lia|done..|].
  pose proof (pt_leaf _ _ _ _ Hpt _ Hva) as Hleaf. rewrite lookup_empty in Hleaf.
  unfold leaf, slot in Hleaf. rewrite Hlp, Ht, H0 in Hleaf. cbn in Hleaf.
  by destruct (Z.testbit _ 0).
Qed.

Lemma table_no_rwx p t :
  T !! p = Some t -> Z.land (Z.lor (PA2PTE t) PTE_V) (Z.lor (Z.lor PTE_R PTE_W) PTE_X) = 0.
Proof.
  intros Ht. pose proof (page_ok_range t (pt_page _ _ _ _ Hpt _ _ Ht)).
  pose proof (PTE_FLAGS_PA2PTE t PTE_V ltac:(llia) PTE_V_flags) as Hf. unfold PTE_FLAGS in Hf.
  change (Z.lor (Z.lor PTE_R PTE_W) PTE_X) with (Z.land 0x3FF 14).
  by rewrite Z.land_assoc, Hf.
Qed.

(** The state of freewalk() on the page [t] at path [p] after the entries in
    [done]. *)
Definition freeing (p : list Z) (t : Z) (h : hart) (m : memory) (l : list Z)
    (done : list Z) (w : world) : Prop :=
  exists h' m' fl' l',
    w = World h' env tr (set_km m' fl' s) /\ hart_le h h' /\ kmem_inv m' fl' l' /\
    (forall x, x ∈ l' <-> x ∈ l \/ exists j, j ∈ done /\ below T (j :: p) x) /\
    (forall y, ~ in_page t y ->
       (forall x j, j ∈ done -> below T (j :: p) x -> ~ in_page x y) -> mget m' y = mget m y) /\
    (forall j, j ∉ done -> 0 <= j < 512 -> load64 m' (pte_at t j) = load64 m0 (pte_at t j)).

(** The state after freewalk(). *)
Definition freed (p : list Z) (h : hart) (m : memory) (l : list Z) (w : world) : Prop :=
  exists h' m' fl' l',
    w = World h' env tr (set_km m' fl' s) /\ hart_le h h' /\ kmem_inv m' fl' l' /\
    (forall x, x ∈ l' <-> x ∈ l \/ below T p x) /\
    (forall y, (forall x, below T p x -> ~ in_page x y) -> mget m' y = mget m y).

Lemma below_none i p x : T !! (i :: p) = None -> ~ below T (i :: p) x.
Proof.
  intros HN [q Hq]. revert x Hq. induction q as [|j q IH]; intros x Hq; [cbn in Hq; congruence|].
  cbn in Hq. apply (pt_up _ _ _ _ Hpt) in Hq as [c Hc]. by eapply IH.
Qed.

Lemma page_disjoint_in x t y : page_ok x -> page_ok t -> x <> t -> in_page x y -> ~ in_page t y.
Proof.
  intros Hx Ht Hne Hin. unfold in_page in *.
  destruct (pages_disjoint x t) as [?|?]; [by apply page_ok_aligned..|done|lia|lia].
Qed.

Lemma freeing_skip p t h m l done i w :
  T !! (i :: p) = None -> freeing p t h m l done w -> freeing p t h m l (done ++ [i]) w.
Proof.
  intros HN (h' & m' & fl' & l' & -> & H1 & H2 & H3 & H4 & H5).
  exists h', m', fl', l'. split_and!; auto.
  - intros x. rewrite H3. split; intros [?|(j & Hj & Hb)]; auto; right; exists j.
    + split; [apply elem_of_app; auto|done].
    + apply elem_of_app in Hj as [Hj|Hj]; [done|]. apply list_elem_of_singleton in Hj as ->.
      by destruct (below_none i p x).
  - intros y Hy Hd. apply H4; [done|]. intros x j Hj. apply Hd, elem_of_app. auto.
  - intros j Hj. apply H5. intros Hj'. apply Hj, elem_of_app. auto.
Qed.

(** The recursive call on the child at entry [i], and clearing the entry. *)
Lemma freeing_child p t h m l done i w1 h1 m1 fl1 l1 :
  T !! p = Some t -> 0 <= i < 512 -> (forall x, below T p x -> x ∉ l) ->
  w1 = World h1 env tr (set_km m1 fl1 s) -> hart_le h h1 ->
  (forall x, x ∈ l1 <-> x ∈ l \/ exists j, j ∈ done /\ below T (j :: p) x) ->
  (forall y, ~ in_page t y ->
     (forall x j, j ∈ done -> below T (j :: p) x -> ~ in_page x y) -> mget m1 y = mget m y) ->
  (forall j, j ∉ done -> 0 <= j < 512 -> load64 m1 (pte_at t j) = load64 m0 (pte_at t j)) ->
  forall w2, freed (i :: p) h1 m1 l1 w2 ->
  wp (write_pte (pte_at t i) 0) (fun _ => freeing p t h m l (done ++ [i])) w2.
Proof.
  intros Ht Hi Hl -> Hh H3 H4 H5 w2 (h2 & m2 & fl2 & l2 & -> & F1 & F2 & F3 & F4).
  apply wpx_km_write. exists h2, (store64 m2 (pte_at t i) 0), fl2, l2.
  pose proof (pte_in_page t i Hi) as [E1 E2].
  pose proof (pt_page _ _ _ _ Hpt _ _ Ht) as Htp.
  assert (Hin : forall x, x ∈ l2 <-> x ∈ l \/ exists j, j ∈ done ++ [i] /\ below T (j :: p) x).
  { intros x. rewrite F3, H3. split.
    - intros [[?|(j & Hj & Hb)]|Hb]; [auto| |]; right; [exists j|exists i];
        rewrite elem_of_app, list_elem_of_singleton; auto.
    - intros [?|(j & Hj & Hb)]; [auto|]. rewrite elem_of_app, list_elem_of_singleton in Hj.
      destruct Hj as [Hj| ->]; eauto. }
  split_and!; [done|by eapply hart_le_trans| |done| |].
  - apply (kmem_inv_ext m2); [done|apply mem_ok_store64, F2|]. intros x Hx y Hy.
    rewrite mget_store64_out; [done|].
    assert (Hxt : x <> t).
    { intros ->. apply Hin in Hx as [Hx|(j & _ & Hb)]; [|by apply (below_not_self j p t Ht)].
      apply (Hl t); [by apply below_self|done]. }
    assert (Hxp : page_ok x) by (pose proof (km_pages _ _ _ F2) as Hok; rewrite Forall_forall in Hok; auto).
    unfold in_page in *. destruct (pages_disjoint x t) as [?|?]; [by apply page_ok_aligned..|done|lia|lia].
  - intros y Hy Hd. rewrite mget_store64_out by (unfold in_page in *; lia).
    rewrite F4, H4; [done|done|..].
    + intros x j Hj. apply Hd, elem_of_app. auto.
    + intros x. apply Hd. rewrite elem_of_app, list_elem_of_singleton. auto.
  - intros j Hj Hjr. rewrite elem_of_app, list_elem_of_singleton in Hj.
    rewrite load64_store64_out by (unfold pte_at; lia). rewrite <-H5 by tauto.
    apply load64_ext. intros y Hy. apply F4. intros x Hb.
    assert (Hyt : in_page t y) by (pose proof (pte_in_page t j Hjr); unfold in_page in *; lia).
    intros Hxy. eapply (page_disjoint_in x t y); [by eapply below_page|done| |done|done].
    intros ->. by eapply below_not_self.
Qed.

Lemma freewalk_S d t :
  freewalk (S d) t =
  (for_each (seqZ 0 512) (fun i =>
     pte ← read_pte (pte_at t i);
     if ztrue (Z.land pte PTE_V) &&
        (Z.land pte (Z.lor (Z.lor PTE_R PTE_W) PTE_X) =? 0) then
       freewalk d (PTE2PA pte);;
       write_pte (pte_at t i) 0
     else if ztrue (Z.land pte PTE_V) then panic "freewalk: leaf"
     else mret tt);;
   kfree t).
Proof. done. Qed.

Lemma invalid_entry p t i :
  T !! p = Some t -> T !! (i :: p) = None -> 0 <= i < 512 ->
  Z.testbit (load64 m0 (pte_at t i)) 0 = false.
Proof.
  intros Ht HN Hi. destruct (decide (length p < 2)%nat) as [Hl|Hl].
  - pose proof (pt_entry _ _ _ _ Hpt p t i Ht Hl Hi) as He. by rewrite HN in He.
  - apply (leaf_entry_invalid p); [done| |done]. apply (pt_path _ _ _ _ Hpt) in Ht. lia.
Qed.

Lemma wp_freewalk d :
  forall p t h m fl l, hart_ok h -> T !! p = Some t -> (length p + d = 2)%nat ->
  kmem_inv m fl l -> (forall x, below T p x -> x ∉ l) ->
  (forall x, below T p x -> mem_agree m0 m x PGSIZE) ->
  wp (freewalk (S d) t) (fun _ => freed p h m l) (World h env tr (set_km m fl s)).
Proof.
  induction d as [d IH] using lt_wf_ind; intros p t h m fl l Hh Ht Hd Hk Hnl Hag.
  pose proof (pt_page _ _ _ _ Hpt _ _ Ht) as Htp. rewrite freewalk_S. kstep.
  apply (wpx_for_each _ _ _ (freeing p t h m l)).
  { exists h, m, fl, l. split_and!; auto using hart_le_refl.
    - intros x. split; [auto|]. intros [?|(j & Hj & _)]; [done|by apply elem_of_nil in Hj].
    - intros j _ Hj. symmetry. apply load64_ext. intros y Hy. apply (Hag t); [by apply below_self|].
      unfold pte_at in Hy. llia. }
  - intros done i rest w1 Hseq Hw1.
    assert (Hi : 0 <= i < 512).
    { assert (Hin : i ∈ seqZ 0 512) by (rewrite Hseq, elem_of_app; right; apply list_elem_of_here).
      apply elem_of_seqZ in Hin. lia. }
    assert (Hid : i ∉ done).
    { pose proof (NoDup_seqZ 0 512) as Hnd. rewrite Hseq in Hnd.
      apply NoDup_app in Hnd as (_ & Hnd & _). intros Hin. by apply (Hnd i Hin), list_elem_of_here. }
    destruct (T !! (i :: p)) as [c|] eqn:Hc.
    + destruct Hw1 as (h1 & m1 & fl1 & l1 & -> & H1 & H2 & H3 & H4 & H5).
      assert (Hlp : (length p < 2)%nat) by (apply (pt_path _ _ _ _ Hpt) in Hc; cbn in Hc; lia).
      kstep. apply wpx_km_read. rewrite H5, ztrue_PTE_V by done.
      pose proof (pt_entry _ _ _ _ Hpt p t i Ht Hlp Hi) as He. rewrite Hc in He. rewrite He.
      destruct (table_PTE2PA _ _ _ _ _ _ Hpt Hc) as [-> ->].
      rewrite (table_no_rwx (i :: p)) by done. change (true && (0 =? 0)) with true. cbv iota.
      destruct d as [|d]; [lia|]. eapply wpx_call; [eapply (IH d ltac:(lia) (i :: p))|].
      * by eapply hart_le_ok.
      * done.
      * cbn. lia.
      * exact H2.
      * intros x Hb. rewrite H3. intros [Hx|(j & Hj & Hb')].
        -- by apply (Hnl x); [eapply below_child|].
        -- apply Hid. by rewrite (below_disjoint _ _ _ _ Hb Hb').
      * intros x Hb y Hy. rewrite (Hag x); [|by eapply below_child|done]. symmetry. apply H4.
        -- intros Hty. eapply (page_disjoint_in x t y); [by eapply below_page|done| |exact Hy|done].
           intros ->. by apply (below_not_self i p t).
        -- intros x' j Hj Hb' Hy'.
           eapply (page_disjoint_in x x' y); [by eapply below_page|by eapply below_page| |exact Hy|done].
           intros ->. apply Hid. by rewrite (below_disjoint _ _ _ _ Hb Hb').
      * intros [] w2 Hf. by eapply (freeing_child p t h m l done i _ h1 m1 fl1 l1).
    + eapply (wpx_mono _ _ (fun _ => freeing p t h m l done)); [|intros [] w2 Hw2; by apply freeing_skip].
      destruct Hw1 as (h1 & m1 & fl1 & l1 & -> & H1 & H2 & H3 & H4 & H5).
      kstep. apply wpx_km_read. rewrite H5, ztrue_PTE_V by done.
      rewrite (invalid_entry p t i) by done. cbn [andb]. apply wpx_ret.
      exists h1, m1, fl1, l1. split_and!; auto.
  - intros w' (h' & m' & fl' & l' & -> & H1 & H2 & H3 & H4 & H5).
    assert (Htl : t ∉ l').
    { rewrite H3. intros [Hx|(j & _ & Hb)]; [by apply (Hnl t); [apply below_self|]|].
      by eapply below_not_self. }
    eapply wpx_kfree; [by eapply hart_le_ok|done|done|done|done|]. intros Hk'.
    eexists _, _, t, (t :: l'). split_and!; [done|by eapply hart_le_trans, hart_le_settle|done|..].
    + intros x. rewrite elem_of_cons, H3, below_inv by done. split.
      * intros [->|[?|(j & Hj & Hb)]]; auto. right. right. exists j.
        apply elem_of_seqZ in Hj. split; [lia|done].
      * intros [?|[->|(j & Hj & Hb)]]; auto. right. right. exists j.
        split; [apply elem_of_seqZ; lia|done].
    + intros y Hy. assert (Hyt : ~ in_page t y) by apply Hy, below_self, Ht.
      rewrite mget_kfree by (unfold in_page in Hyt; lia). apply H4; [done|].
      intros x j _ Hb. apply Hy. by eapply below_child.
Qed.

End teardown.

(** ** uvmfree *)

Section uvmfree.
Context {I : Image} `{!ImageOk I} (own : Z -> bool) (root : Z).

Lemma frames_empty : frames own ∅ = [].
Proof. done. Qed.

Lemma wp_uvmfree env tr s pool sz U h m fl l T :
  hart_ok h -> lock_free s kmem_lock -> vm_inv own m fl root l T U pool ->
  0 <= sz <= MAXVA ->
  (forall x, is_Some (U !! x) -> x < sz /\ own x = true) ->
  wp (uvmfree root sz) (fun _ w' => exists h' m' fl' l',
      w' = World h' env tr (set_km m' fl' s) /\ hart_le h h' /\ frame pool m m' /\
      kmem_inv m' fl' l' /\ l' ≡ₚ pool)
    (World h env tr (set_km m fl s)).
Proof.
  intros Hh HL Hv Hsz HU. destruct (PGROUNDUP_bounds sz ltac:(llia) ltac:(llia)) as [Ha Hr].
  pose proof (round_div 0 (PGROUNDUP sz) eq_refl Ha ltac:(lia)) as Hd. rewrite Z.sub_0_r in Hd.
  set (n := Z.to_nat (PGROUNDUP sz / PGSIZE)) in *.
  assert (Hmax : PGROUNDUP sz <= MAXVA).
  { rewrite <-(PGROUNDUP_aligned MAXVA) by (done || llia). apply PGROUNDUP_mono; llia. }
  assert (Hempty : unmap_range 0 n U = ∅).
  { apply map_empty. intros x. rewrite lookup_unmap_range by done. case_decide as Hx; [done|].
    destruct (U !! x) as [v|] eqn:E; [|done]. destruct (HU x) as [Hlt _]; [eauto|].
    pose proof (pt_dom _ _ _ _ (vm_pt _ _ _ _ _ _ _ _ Hv) x ltac:(eauto)) as [Hxa Hxr].
    destruct Hx. apply elem_of_page_range; [done|]. split; [done|lia]. }
  unfold uvmfree.
  assert (Hun : wp (when (0 <? sz) (uvmunmap root 0 (PGROUNDUP sz / PGSIZE) true))
    (fun _ => unmapped own root env tr s U ∅ pool h m l T) (World h env tr (set_km m fl s))).
  { rewrite <-Hempty. apply wpx_when.
    - intros _. replace (PGROUNDUP sz / PGSIZE) with (Z.of_nat n)
        by (unfold n; rewrite Z2Nat.id; [done|apply Z.div_pos; llia]).
      apply wp_uvmunmap; auto; try lia; [done|]. intros x _ Hx. by apply HU.
    - intros Hz%Z.ltb_ge. assert (sz = 0) as -> by lia.
      change n with 0%nat. exists h, m, fl, l. split_and!; auto using effect_refl. }
  eapply wpx_call; [exact Hun|]. intros [] w' (h1 & m1 & fl1 & l1 & -> & Hef & Hv1 & Hl).
  pose proof Hv1 as [Hk Hpt Hp Hn Hok]. rewrite frames_empty, app_nil_r in Hp.
  assert (Hin : forall x, x ∈ tpages T <-> below T [] x).
  { intros x. rewrite elem_of_tpages. unfold below. split; intros [q Hq]; exists q;
      [by rewrite app_nil_r|by rewrite app_nil_r in Hq]. }
  pose proof (vm_inv_sep _ _ _ _ _ _ _ _ Hv1) as (S1 & _ & _ & S4).
  eapply wpx_mono.
  { eapply (wp_freewalk root env tr s HL T m1 Hpt 2 []); [by eapply effect_ok|by eapply pt_root|done
      |exact Hk| |done].
    intros x Hb Hx. destruct (S1 x Hx) as [Hnt _]. by apply Hnt, Hin. }
  intros [] w' (h2 & m2 & fl2 & l2 & -> & F1 & F2 & F3 & F4). exists h2, m2, fl2, l2.
  split_and!; [done|eapply hart_le_trans; [apply Hef|done]| |done|].
  - intros y Hy. transitivity (mget m1 y); [apply F4|by apply (ef_frame _ _ _ _ _ _ _ Hef)].
    intros x Hb. apply Hy, S4. right. left. by apply Hin.
  - apply NoDup_Permutation; [apply F2|done|]. intros x. rewrite F3, <-Hin, S4.
    rewrite frames_empty, elem_of_nil. tauto.
Qed.

End uvmfree.
