(* ===== verification/UserCopy.v ===== *)
(** * Copying between kernel and user memory

    Specifications of walkaddr(), vmfault(), copyin(), copyout() and
    copyinstr() in terms of the bytes a process sees in its address space.  A
    page that sbrk() promised but that is not allocated yet reads as zeros,
    so allocating it on demand is invisible. *)

From S2P Require Import Prelude Memory CString Riscv Machine Spinlock Kalloc Vm Pagetable Uvm.

(** Bit 4 of an entry is PTE_U, bit 2 is PTE_W. *)
Definition pte_user (v : Z) : bool := Z.testbit v 4.
Definition pte_writable (v : Z) : bool := Z.testbit v 2.

(** The byte a process of size [sz] sees at [va]. *)
Definition uview (U : gmap Z Z) (m : memory) (sz va : Z) : option Z :=
  let va0 := PGROUNDDOWN va in
  match U !! va0 with
  | Some v => if pte_user v then Some (mget m (PTE2PA v + (va - va0))) else None
  | None => if va0 <? sz then Some 0 else None
  end.

(** Whether the kernel may store there for the process. *)
Definition uwritable (U : gmap Z Z) (sz va : Z) : bool :=
  let va0 := PGROUNDDOWN va in
  match U !! va0 with
  | Some v => pte_user v && pte_writable v
  | None => va0 <? sz
  end.

(** walkaddr() of a page. *)
Definition uaddr (U : gmap Z Z) (va : Z) : Z :=
  match U !! va with
  | Some v => if pte_user v then PTE2PA v else 0
  | None => 0
  end.

Lemma eqb_PTE_U v : (Z.land v PTE_U =? 0) = negb (pte_user v).
Proof.
  change PTE_U with (2 ^ 4). rewrite land_pow2_testbit by lia. unfold pte_user.
  by destruct (Z.testbit v 4).
Qed.

Lemma eqb_PTE_W v : (Z.land v PTE_W =? 0) = negb (pte_writable v).
Proof.
  change PTE_W with (2 ^ 2). rewrite land_pow2_testbit by lia. unfold pte_writable.
  by destruct (Z.testbit v 2).
Qed.

Lemma chunk_bounds va len :
  0 < len -> 0 < chunk va (PGROUNDDOWN va) len <= len /\
  va + chunk va (PGROUNDDOWN va) len <= PGROUNDDOWN va + PGSIZE /\
  (chunk va (PGROUNDDOWN va) len = len \/
   va + chunk va (PGROUNDDOWN va) len = PGROUNDDOWN va + PGSIZE).
Proof.
  intros Hl. pose proof (PGROUNDDOWN_bounds va) as [_ Hb]. unfold chunk.
  destruct (Z.ltb_spec len (PGSIZE - (va - PGROUNDDOWN va))); lia.
Qed.

Section copy.
Context {I : Image} `{!ImageOk I} (own : Z -> bool) (root : Z).

Lemma walkaddr_run T U va w :
  pt_inv w.(w_st).(mem) root T U -> page_aligned va -> 0 <= va ->
  walkaddr root va w = Ret (uaddr U va) w.
Proof.
  intros Hpt Ha Hva. unfold walkaddr, uaddr. destruct (Z.leb_spec MAXVA va) as [Hge|Hlt].
  - destruct (U !! va) as [v|] eqn:E; [|done].
    assert (Hvp : vpage va) by (eapply pt_dom; [done|eauto]). destruct Hvp. lia.
  - erewrite bind_run by (by eapply walk_false_run).
    rewrite (pt_leaf _ _ _ _ Hpt va) by (split; [done|lia]). unfold leaf.
    destruct (slot T va) as [a|] eqn:Hs; cbn; [|done].
    pose proof (slot_nonzero _ _ _ _ _ _ Hpt Hs) as Hnz. apply Z.eqb_neq in Hnz. rewrite Hnz.
    erewrite bind_run by reflexivity. rewrite eqb_PTE_V, eqb_PTE_U.
    destruct (Z.testbit (load64 _ a) 0); cbn; [|done].
    by destruct (pte_user (load64 _ a)).
Qed.

Lemma ismapped_run T U va w :
  pt_inv w.(w_st).(mem) root T U -> vpage va ->
  ismapped root va w = Ret (bool_decide (is_Some (U !! va))) w.
Proof.
  intros Hpt Hva. unfold ismapped. erewrite bind_run by (eapply walk_false_run; [done|destruct Hva; lia]).
  rewrite (pt_leaf _ _ _ _ Hpt va Hva). unfold leaf.
  destruct (slot T va) as [a|] eqn:Hs; cbn; [|done].
  pose proof (slot_nonzero _ _ _ _ _ _ Hpt Hs) as Hnz. apply Z.eqb_neq in Hnz. rewrite Hnz.
  erewrite bind_run by reflexivity. rewrite ztrue_PTE_V.
  by destruct (Z.testbit (load64 _ a) 0).
Qed.

(** What stays the same when pages are allocated on demand: everything the
    process sees. *)
Record same_view (sz : Z) (U U' : gmap Z Z) (m m' : memory) : Prop := {
  sv_sub : U ⊆ U';
  sv_new va v : U !! va = None -> U' !! va = Some v -> va < sz /\ pte_user v = true /\
    pte_writable v = true /\ own va = true /\ forall y, in_page (PTE2PA v) y -> mget m' y = 0;
  sv_old va v : U !! va = Some v -> own va = true -> mem_agree m m' (PTE2PA v) PGSIZE;
}.

(** Pages of the user belong to the page table. *)
Definition user_owned (U : gmap Z Z) : Prop :=
  forall va v, U !! va = Some v -> pte_user v = true -> own va = true.

Lemma same_view_refl sz U m : same_view sz U U m m.
Proof. split; [done|congruence|done]. Qed.

Lemma same_view_trans sz U1 U2 U3 m1 m2 m3 :
  same_view sz U1 U2 m1 m2 -> same_view sz U2 U3 m2 m3 -> same_view sz U1 U3 m1 m3.
Proof.
  intros [A1 A2 A3] [B1 B2 B3]. split; [by etrans|..].
  - intros va v HN HS. destruct (U2 !! va) as [v'|] eqn:E.
    + pose proof (lookup_weaken _ _ _ _ E B1) as E'. rewrite E' in HS. injection HS as ->.
      destruct (A2 va v HN E) as (? & ? & ? & ? & Hz). split_and!; auto.
      intros y Hy. rewrite <-(B3 va v); auto.
    + by apply B2.
  - intros va v HS Ho y Hy. rewrite (A3 va v HS Ho y Hy).
    apply (B3 va v); [by eapply lookup_weaken|done..].
Qed.

Lemma in_page_off va x : in_page x (x + (va - PGROUNDDOWN va)).
Proof. pose proof (PGROUNDDOWN_bounds va) as [_ ?]. unfold in_page. lia. Qed.

Lemma uview_same sz U U' m m' va :
  user_owned U -> same_view sz U U' m m' -> uview U' m' sz va = uview U m sz va.
Proof.
  intros Ho [S1 S2 S3]. unfold uview. set (va0 := PGROUNDDOWN va).
  destruct (U !! va0) as [v|] eqn:E.
  - rewrite (lookup_weaken _ _ _ _ E S1). destruct (pte_user v) eqn:Hu; [|done].
    f_equal. symmetry. apply (S3 va0 v E); [by eapply Ho|]. apply in_page_off.
  - destruct (U' !! va0) as [v|] eqn:E'; [|done]. destruct (S2 va0 v E E') as (Hlt & -> & _ & _ & Hz).
    destruct (Z.ltb_spec va0 sz); [|lia]. f_equal. apply Hz, in_page_off.
Qed.

Lemma user_owned_same sz U U' m m' : user_owned U -> same_view sz U U' m m' -> user_owned U'.
Proof.
  intros Ho [S1 S2 S3] va v HS Hu. destruct (U !! va) as [v'|] eqn:E.
  - rewrite (lookup_weaken _ _ _ _ E S1) in HS. simplify_eq. by eapply Ho.
  - by apply (S2 va v E HS).
Qed.

(** ** The running process *)

Section process.
Context (env : list turn) (tr : list event) (s : kstate) (HL : lock_free s kmem_lock).
Context (i : nat) (p : proc) (Hproc : s.(procs) !! i = Some p) (Hroot : p.(p_pagetable) = root).
Context (Hsz : p.(p_sz) <= MAXVA) (Hown : forall va, va < p.(p_sz) -> own va = true).
Context (pool : list Z).
Let sz := p.(p_sz).

Lemma the_proc_run h m fl :
  the_proc (Some i) (World h env tr (set_km m fl s)) = Ret p (World h env tr (set_km m fl s)).
Proof.
  unfold the_proc. erewrite bind_run by reflexivity. cbn.
  change (procs (set_km m fl s)) with s.(procs). by rewrite Hproc.
Qed.

(** A new zeroed page of the process. *)
Lemma same_view_fault U m m' va x :
  va < sz -> U !! va = None -> page_ok x -> keeps own U m m' ->
  (forall y, in_page x y -> mget m' y = 0) ->
  same_view sz U (<[va := new_pte x (Z.lor (Z.lor PTE_W PTE_U) PTE_R)]> U) m m'.
Proof.
  intros Hva HN Hx Hkeep Hz. split.
  - by apply insert_subseteq.
  - intros va' v HN' HS. apply lookup_insert_Some in HS as [[<- <-]|[_ HS]]; [|congruence].
    destruct (new_pte_page x (Z.lor (Z.lor PTE_W PTE_U) PTE_R)) as (_ & E1 & E2); [done|by vm_compute|].
    assert (Hb : forall b, 0 <= b < 10 -> Z.testbit (new_pte x (Z.lor (Z.lor PTE_W PTE_U) PTE_R)) b =
      Z.testbit (Z.lor (Z.lor (Z.lor PTE_W PTE_U) PTE_R) PTE_V) b).
    { intros b Hb. rewrite <-E2. unfold PTE_FLAGS. change 0x3FF with (Z.ones 10).
      rewrite Z.land_spec, Z.ones_spec_low by lia. by rewrite andb_true_r. }
    unfold pte_user, pte_writable. rewrite !Hb by lia. rewrite E1. split_and!; auto.
  - intros va' v HS Ho. by apply (Hkeep va').
Qed.

(** vmfault() maps a zeroed page exactly when the address is below the size
    of the process and not mapped, if memory suffices. *)
Definition faulted (U : gmap Z Z) (va : Z) (h : hart) (m : memory) (l : list Z) (r : Z) (w' : world) : Prop :=
  exists h' m' fl' l' T' U',
    w' = World h' env tr (set_km m' fl' s) /\ effect own pool U h h' m m' /\
    vm_inv own m' fl' root l' T' U' pool /\ same_view sz U U' m m' /\
    (length l <= length l' + 3)%nat /\
    (r = 0 /\ (sz <= va \/ is_Some (U !! va) \/ U !! va = None /\ (length l < 3)%nat) \/
     r <> 0 /\ U !! va = None /\ U' = <[va := new_pte r (Z.lor (Z.lor PTE_W PTE_U) PTE_R)]> U /\ page_ok r).

Lemma wp_vmfault U va h m fl l T :
  hart_ok h -> h.(h_proc) = Some i -> vm_inv own m fl root l T U pool ->
  page_aligned va -> 0 <= va ->
  wp (vmfault root va) (faulted U va h m l) (World h env tr (set_km m fl s)).
Proof.
  intros Hh Hpr Hv Ha Hva. unfold vmfault.
  eapply wpx_bind, run_wp; [by apply myproc_run|]. cbn. rewrite Hpr.
  eapply wpx_bind, run_wp; [apply the_proc_run|].
  assert (Hset : effect own pool U h (settle h) m m) by (split; [apply hart_le_settle|done|done]).
  assert (Hfail : (sz <= va \/ is_Some (U !! va) \/ U !! va = None /\ (length l < 3)%nat) ->
    faulted U va h m l 0 (World (settle h) env tr (set_km m fl s))).
  { intros Hr. exists (settle h), m, fl, l, T, U. split_and!; auto using same_view_refl. lia. }
  destruct (Z.leb_spec (p_sz p) va) as [Hge|Hlt]; [apply wpx_ret, Hfail; auto|].
  rewrite (PGROUNDDOWN_in va va) by (done || llia).
  assert (Hvp : vpage va) by (split; [done|lia]).
  eapply wpx_bind, run_wp; [by eapply ismapped_run; [apply Hv|]|].
  case_bool_decide as HU; [apply wpx_ret, Hfail; auto|].
  assert (HN : U !! va = None) by by apply eq_None_not_Some.
  rewrite Hroot.
  eapply (wp_alloc_map own root (fun x m => memset m x 0 PGSIZE) (mret 0) mret);
    [by apply settle_ok|done|exact Hv|done|done|by apply Hown|by vm_compute|apply fill_zero|..].
  - intros h' m' fl' l' T' Hef Hv' Hl. apply wpx_ret. exists h', m', fl', l', T', U.
    split_and!; [done|by eapply effect_trans|done|split; [done|congruence|apply Hef]|lia|auto 6].
  - intros x m1 h' m' fl' l' T' Hx Hm1 _ Hef Hm' Hv' Hl. apply wpx_ret.
    exists h', m', fl', l', T', (<[va := new_pte x (Z.lor (Z.lor PTE_W PTE_U) PTE_R)]> U).
    split_and!; auto; [by eapply effect_trans| |].
    + apply same_view_fault; auto; [apply Hef|]. intros y Hy. rewrite Hm' by done.
      by apply (mem_zeroed m1 x Hm1).
    + right. split_and!; [by apply page_ok_nonzero|done|done|done].
Qed.

(** Finding the frame of the user page at [va], allocating it if needed. *)
Lemma wp_resolve {A} (k : Z -> K A) (Q : A -> world -> Prop) U va h m fl l T :
  hart_ok h -> h.(h_proc) = Some i -> vm_inv own m fl root l T U pool -> user_owned U ->
  page_aligned va -> 0 <= va ->
  (forall h' m' fl' l' T' U', effect own pool U h h' m m' -> vm_inv own m' fl' root l' T' U' pool ->
     same_view sz U U' m m' -> (length l <= length l' + 3)%nat ->
     (uview U m sz va = None /\ uwritable U sz va = false) \/ U !! va = None /\ (length l < 3)%nat ->
     wp (k 0) Q (World h' env tr (set_km m' fl' s))) ->
  (forall v h' m' fl' l' T' U', effect own pool U h h' m m' -> vm_inv own m' fl' root l' T' U' pool ->
     same_view sz U U' m m' -> (length l <= length l' + 3)%nat ->
     U' !! va = Some v -> pte_user v = true -> PTE2PA v <> 0 ->
     wp (k (PTE2PA v)) Q (World h' env tr (set_km m' fl' s))) ->
  wp (pa ← walkaddr root va; pa0 ← (if pa =? 0 then vmfault root va else mret pa); k pa0) Q
    (World h env tr (set_km m fl s)).
Proof.
  intros Hh Hpr Hv Ho Ha Hva Hfail Hok.
  eapply wpx_bind, run_wp; [eapply walkaddr_run; [apply Hv|done|done]|].
  assert (Hv0 : PGROUNDDOWN va = va) by (apply PGROUNDDOWN_in; [done|llia]).
  assert (Hfault : (forall v, U !! va = Some v -> pte_user v = false) ->
    wp (pa0 ← vmfault root va; k pa0) Q (World h env tr (set_km m fl s))).
  { intros Hnu. eapply wpx_call; [by apply (wp_vmfault U va h m fl l T)|].
    intros r w' (h' & m' & fl' & l' & T' & U' & -> & Hef & Hv' & Hsv & Hl & Hr).
    destruct Hr as [[-> Hr]|(Hnz & HN & -> & Hr)].
    - eapply Hfail; [exact Hef|exact Hv'|done|done|]. destruct Hr as [Hr|[[v Hr]|Hr]]; [left..|by right].
      + unfold uview, uwritable. rewrite Hv0. destruct (U !! va) as [v|] eqn:E.
        * by rewrite (Hnu v).
        * by destruct (Z.ltb_spec va sz); [lia|].
      + unfold uview, uwritable. by rewrite Hv0, Hr, (Hnu v).
    - destruct (new_pte_page r (Z.lor (Z.lor PTE_W PTE_U) PTE_R)) as (_ & E & _); [done|by vm_compute|].
      rewrite <-E. eapply Hok; [exact Hef|exact Hv'|done|done|by rewrite lookup_insert_eq| |by rewrite E].
      by destruct (sv_new _ _ _ _ _ Hsv va _ HN ltac:(by rewrite lookup_insert_eq)) as (_ & ? & _). }
  unfold uaddr. destruct (U !! va) as [v|] eqn:E; [|by apply Hfault].
  destruct (pte_user v) eqn:Hu; [|apply Hfault; congruence].
  destruct (vm_inv_frame _ _ _ _ _ _ _ _ _ _ Hv E ltac:(by eapply Ho)) as (Hpg & _).
  pose proof (page_ok_nonzero _ Hpg) as Hnz. assert (Hnz' := Hnz). apply Z.eqb_neq in Hnz. rewrite Hnz.
  eapply wpx_bind, wpx_ret, Hok; eauto using effect_refl, same_view_refl. lia.
Qed.

(** ** copyin *)

(** The bytes of one page that copyin() reads are the ones the process sees. *)
Lemma read_bytes_uview U m va v n k b :
  U !! PGROUNDDOWN va = Some v -> pte_user v = true ->
  va + Z.of_nat n <= PGROUNDDOWN va + PGSIZE ->
  read_bytes n m (PTE2PA v + (va - PGROUNDDOWN va)) !! k = Some b ->
  uview U m sz (va + Z.of_nat k) = Some b.
Proof.
  intros HU Hu Hn Hb. pose proof (PGROUNDDOWN_bounds va) as [Ha Hr].
  assert (Hk : (k < n)%nat) by (rewrite <-(length_read_bytes n m (PTE2PA v + (va - PGROUNDDOWN va)));
    by eapply lookup_lt_Some).
  rewrite lookup_read_bytes in Hb by done. injection Hb as <-. unfold uview.
  rewrite (PGROUNDDOWN_in (PGROUNDDOWN va) (va + Z.of_nat k)) by (done || lia).
  rewrite HU, Hu. do 2 f_equal. lia.
Qed.

(** What copyin() of [len] bytes at [va] does; [n] bounds the pages. *)
Definition copied_in (U : gmap Z Z) (va len : Z) (n : nat) (dst : list Z) (h : hart) (m : memory)
    (l : list Z) (r : Z * list Z) (w' : world) : Prop :=
  exists h' m' fl' l' T' U' got,
    w' = World h' env tr (set_km m' fl' s) /\ effect own pool U h h' m m' /\
    vm_inv own m' fl' root l' T' U' pool /\ same_view sz U U' m m' /\
    r.2 = dst ++ got /\ Z.of_nat (length got) <= len /\
    (forall k b, got !! k = Some b -> uview U m sz (va + Z.of_nat k) = Some b) /\
    (r.1 = 0 /\ Z.of_nat (length got) = len \/
     r.1 = -1 /\ ((exists k, 0 <= k < len /\ uview U m sz (va + k) = None) \/
       (exists k, 0 <= k < len /\ U !! PGROUNDDOWN (va + k) = None) /\ (length l < 3 * n)%nat)).

Lemma effect_proc U h h' m m' : effect own pool U h h' m m' -> h.(h_proc) = Some i -> h'.(h_proc) = Some i.
Proof. intros [H _ _] <-. by apply hart_le_proc. Qed.

Lemma wp_copyin_loop fuel :
  forall va len dst U h m fl l T, hart_ok h -> h.(h_proc) = Some i ->
  vm_inv own m fl root l T U pool -> user_owned U -> 0 <= va < 2 ^ 64 -> 0 <= len ->
  va - PGROUNDDOWN va + len <= Z.of_nat fuel * PGSIZE ->
  wp (copyin_loop fuel root va len dst) (copied_in U va len fuel dst h m l)
    (World h env tr (set_km m fl s)).
Proof.
  induction fuel as [|fuel IH]; intros va len dst U h m fl l T Hh Hpr Hv Ho Hva Hlen Hfuel;
    pose proof (PGROUNDDOWN_bounds va) as [Ha Hr]; cbn [copyin_loop];
    (destruct (Z.leb_spec len 0) as [Hz|Hnz];
      [apply wpx_ret; exists h, m, fl, l, T, U, [];
       split_and!; auto using effect_refl, same_view_refl; [by rewrite app_nil_r|by intros k b Hk; rewrite lookup_nil in Hk|cbn; left; split; [done|lia]]|]);
    [lia|].
  set (va0 := PGROUNDDOWN va) in *.
  assert (Hva0 : 0 <= va0) by (unfold va0; rewrite PGROUNDDOWN_eq; pose proof (Z.div_pos va PGSIZE); llia).
  assert (Hview : forall x, PGROUNDDOWN x = va0 -> uview U m sz x = None <-> uview U m sz va0 = None).
  { intros x Hx. unfold uview. rewrite Hx, (PGROUNDDOWN_in va0 va0) by (done || llia).
    destruct (U !! va0) as [v|]; [by destruct (pte_user v)|done]. }
  eapply wp_resolve; [done|done|exact Hv|done|done|done|..].
  - intros h' m' fl' l' T' U' Hef Hv' Hsv Hl Hr'. change (0 =? 0) with true. apply wpx_ret.
    exists h', m', fl', l', T', U', []. split_and!; auto; [by rewrite app_nil_r|by intros k b Hk; rewrite lookup_nil in Hk|].
    right. split; [done|]. destruct Hr' as [[Hn _]|[HN Hn]]; [left|right; split; [|lia]];
      exists 0; (split; [lia|]); rewrite Z.add_0_r; [by apply Hview|done].
  - intros v h1 m1 fl1 l1 T1 U1 Hef Hv1 Hsv Hl HU1 Hu Hnz1. apply Z.eqb_neq in Hnz1. rewrite Hnz1.
    destruct (chunk_bounds va len Hnz) as (Hc1 & Hc2 & Hc3). fold va0 in Hc1, Hc2, Hc3.
    set (n := chunk va va0 len) in *. kstep. kstep. cbn [w_st].
    change (mem (set_km m1 fl1 s)) with m1.
    set (got := read_bytes (Z.to_nat n) m1 (PTE2PA v + (va - va0))).
    assert (Hgl : length got = Z.to_nat n) by apply length_read_bytes.
    assert (Hgot : forall k b, got !! k = Some b -> uview U m sz (va + Z.of_nat k) = Some b).
    { intros k b Hk. rewrite <-(uview_same sz U U1 m m1) by done.
      eapply read_bytes_uview; [done|done| |exact Hk]. lia. }
    assert (Hvp : vpage va0) by (eapply pt_dom; [apply Hv1|eauto]). destruct Hvp as [_ Hvp].
    assert (Hgap : n < len -> va + n = va0 + PGSIZE) by lia.
    assert (Hnext : PGROUNDDOWN (va0 + PGSIZE) = va0 + PGSIZE).
    { apply PGROUNDDOWN_in; [apply page_aligned_add; [done|apply (page_aligned_pgsize_mul 1)]|llia]. }
    rewrite (u64_small (va0 + PGSIZE)) by llia.
    eapply wpx_mono.
    { apply (IH (va0 + PGSIZE) (len - n) (dst ++ got) U1 h1 m1 fl1 l1 T1); auto.
      - by eapply effect_ok.
      - by eapply effect_proc.
      - by eapply user_owned_same.
      - llia.
      - lia.
      - rewrite Hnext. llia. }
    intros r w' (h2 & m2 & fl2 & l2 & T2 & U2 & got2 & -> & Hef2 & Hv2 & Hsv2 & Hr2 & Hl2 & Hg2 & Hres).
    exists h2, m2, fl2, l2, T2, U2, (got ++ got2). split_and!; auto; [..|rewrite length_app; lia| |].
    + eapply effect_trans; [exact Hef|exact Hef2|done|done|done|apply Hsv].
    + by eapply same_view_trans.
    + by rewrite app_assoc.
    + intros k b Hk. apply lookup_app_Some in Hk as [Hk|[Hge Hk]]; [by apply Hgot|].
      assert (k - length got < length got2)%nat by by eapply lookup_lt_Some.
      apply Hg2 in Hk. rewrite (uview_same sz U U1 m m1) in Hk by done. rewrite <-Hk. f_equal. lia.
    + destruct Hres as [[-> Hres]|[-> Hres]]; [left|right]; (split; [done|]).
      * rewrite length_app. lia.
      * destruct Hres as [(k & Hk & Hn)|[(k & Hk & Hn) Hn3]]; [left|right; split; [|lia]];
          exists (va0 + PGSIZE - va + k); (split; [lia|]);
          replace (va + (va0 + PGSIZE - va + k)) with (va0 + PGSIZE + k) by lia.
        -- by rewrite (uview_same sz U U1 m m1) in Hn by done.
        -- eapply lookup_weaken_None; [exact Hn|apply Hsv].
Qed.

Lemma wp_copyin U va len h m fl l T :
  hart_ok h -> h.(h_proc) = Some i -> vm_inv own m fl root l T U pool -> user_owned U ->
  0 <= va < 2 ^ 64 -> 0 <= len ->
  wp (copyin root va len) (copied_in U va len (S (S (Z.to_nat (len / PGSIZE)))) [] h m l)
    (World h env tr (set_km m fl s)).
Proof.
  intros Hh Hpr Hv Ho Hva Hlen. unfold copyin. eapply wp_copyin_loop; eauto.
  pose proof (PGROUNDDOWN_bounds va) as [_ Hr].
  pose proof (Z.div_mod len PGSIZE ltac:(llia)). pose proof (Z.mod_pos_bound len PGSIZE ltac:(llia)).
  pose proof (Z.div_pos len PGSIZE Hlen ltac:(llia)).
  rewrite !Nat2Z.inj_succ, Z2Nat.id by done. llia.
Qed.

(** ** copyout *)

Lemma uwritable_same U U' m m' x : same_view sz U U' m m' -> uwritable U' sz x = uwritable U sz x.
Proof.
  intros [S1 S2 S3]. unfold uwritable. destruct (U !! PGROUNDDOWN x) as [v|] eqn:E.
  - by rewrite (lookup_weaken _ _ _ _ E S1).
  - destruct (U' !! PGROUNDDOWN x) as [v|] eqn:E'; [|done].
    destruct (S2 _ v E E') as (Hlt & -> & -> & _). by destruct (Z.ltb_spec (PGROUNDDOWN x) sz); [|lia].
Qed.

(** The view after storing [bs] at [va], within one user page. *)
Lemma uview_write U m fl l T va v bs x :
  vm_inv own m fl root l T U pool -> user_owned U ->
  U !! PGROUNDDOWN va = Some v -> pte_user v = true ->
  va + Z.of_nat (length bs) <= PGROUNDDOWN va + PGSIZE -> Forall (fun b => 0 <= b < 2 ^ 8) bs ->
  uview U (write_bytes m (PTE2PA v + (va - PGROUNDDOWN va)) bs) sz x =
  if decide (va <= x < va + Z.of_nat (length bs)) then bs !! Z.to_nat (x - va) else uview U m sz x.
Proof.
  intros Hv Ho HU Hu Hlen Hbs. pose proof (PGROUNDDOWN_bounds va) as [Ha Hr].
  set (va0 := PGROUNDDOWN va) in *.
  pose proof (PGROUNDDOWN_bounds x) as [Hxa Hxr]. unfold uview. case_decide as Hx.
  - rewrite (PGROUNDDOWN_in va0 x) by (done || lia). rewrite HU, Hu.
    destruct (lookup_lt_is_Some_2 bs (Z.to_nat (x - va)) ltac:(lia)) as [b Hb].
    replace (PTE2PA v + (x - va0)) with (PTE2PA v + (va - va0) + Z.of_nat (Z.to_nat (x - va))) by lia.
    rewrite (mget_write_bytes_in _ _ _ _ b) by done. rewrite Hb. f_equal. apply u8_small.
    by eapply Forall_lookup_1 in Hbs.
  - destruct (U !! PGROUNDDOWN x) as [v'|] eqn:E; [|done]. destruct (pte_user v') eqn:Hu'; [|done].
    f_equal. apply mget_write_bytes_out.
    destruct (vm_inv_frame _ _ _ _ _ _ _ _ _ _ Hv HU ltac:(by eapply Ho)) as (Hpg & _ & _ & _ & Hinj).
    destruct (vm_inv_frame _ _ _ _ _ _ _ _ _ _ Hv E ltac:(by eapply Ho)) as (Hpg' & _).
    destruct (decide (PGROUNDDOWN x = va0)) as [E0|Hne].
    + rewrite E0 in *. rewrite HU in E. injection E as <-. lia.
    + assert (PTE2PA v' <> PTE2PA v) by (eapply Hinj; [done|by eapply Ho|done]).
      destruct (pages_disjoint (PTE2PA v') (PTE2PA v)) as [?|?]; [by apply page_ok_aligned..|done|lia|lia].
Qed.

(** Storing into a user page keeps the invariant. *)
Lemma vm_inv_user_write U m fl l T va v bs h :
  vm_inv own m fl root l T U pool -> user_owned U -> U !! va = Some v -> pte_user v = true ->
  page_aligned va ->
  forall off, 0 <= off -> off + Z.of_nat (length bs) <= PGSIZE ->
  vm_inv own (write_bytes m (PTE2PA v + off) bs) fl root l T U pool /\
  effect own pool ∅ h h m (write_bytes m (PTE2PA v + off) bs).
Proof.
  intros Hv Ho HU Hu Ha off Hoff Hlen.
  destruct (vm_inv_frame _ _ _ _ _ _ _ _ _ _ Hv HU ltac:(by eapply Ho)) as (Hpg & Hin & Hnl & Hnt & _).
  assert (Hout : forall y, ~ in_page (PTE2PA v) y -> mget (write_bytes m (PTE2PA v + off) bs) y = mget m y).
  { intros y Hy. apply mget_write_bytes_out. unfold in_page in Hy. lia. }
  split.
  - apply (vm_inv_ext own root m); [done|apply mem_ok_write_bytes, Hv|]. intros x Hx y Hy. symmetry.
    apply Hout. unfold in_page. pose proof (vm_pages _ _ _ _ _ _ _ _ Hv) as Hok. rewrite Forall_forall in Hok.
    pose proof (vm_inv_sep _ _ _ _ _ _ _ _ Hv) as (_ & _ & _ & S4).
    assert (page_ok x /\ x <> PTE2PA v) as [Hx1 Hx2].
    { apply elem_of_app in Hx as [Hx|Hx]; (split; [apply Hok, S4; auto|by intros ->]). }
    destruct (pages_disjoint x (PTE2PA v)) as [?|?]; [by apply page_ok_aligned..|done|lia|lia].
  - apply (effect_page _ _ _ _ _ _ _ (PTE2PA v)); [apply hart_le_refl|done|done| |done].
    intros va' v' HS. by rewrite lookup_empty in HS.
Qed.

(** What copyout() of [src] to [va] does: the first [k] bytes are stored and
    nothing else the process sees changes. *)
Definition copied_out (U : gmap Z Z) (va : Z) (src : list Z) (n : nat) (h : hart) (m : memory)
    (l : list Z) (r : Z) (w' : world) : Prop :=
  exists h' m' fl' l' T' U' k,
    w' = World h' env tr (set_km m' fl' s) /\ effect own pool ∅ h h' m m' /\
    vm_inv own m' fl' root l' T' U' pool /\ user_owned U' /\ U ⊆ U' /\
    (forall x, uview U' m' sz x =
       if decide (va <= x < va + Z.of_nat k) then src !! Z.to_nat (x - va) else uview U m sz x) /\
    (forall j, 0 <= j < Z.of_nat k -> uwritable U sz (va + j) = true /\
       is_Some (U' !! PGROUNDDOWN (va + j))) /\
    (k <= length src)%nat /\
    (r = 0 /\ k = length src \/
     r = -1 /\ ((exists j, 0 <= j < Z.of_nat (length src) /\ uwritable U sz (va + j) = false) \/
       (length l < 3 * n)%nat)).

(** Stopping before a byte is stored. *)
Lemma copied_out_stop U va src n h m l r h' m' fl' l' T' U' :
  user_owned U -> effect own pool U h h' m m' -> vm_inv own m' fl' root l' T' U' pool ->
  same_view sz U U' m m' ->
  (r = 0 /\ src = [] \/
   r = -1 /\ ((exists j, 0 <= j < Z.of_nat (length src) /\ uwritable U sz (va + j) = false) \/
       (length l < 3 * n)%nat)) ->
  copied_out U va src n h m l r (World h' env tr (set_km m' fl' s)).
Proof.
  intros Ho Hef Hv Hsv Hr. exists h', m', fl', l', T', U', 0%nat. split_and!; [done|..].
  - eapply effect_mono; [exact Hef|done|apply map_empty_subseteq].
  - done.
  - by eapply user_owned_same.
  - apply Hsv.
  - intros x. rewrite decide_False by lia. by apply uview_same.
  - lia.
  - lia.
  - destruct Hr as [[-> ->]|?]; auto.
Qed.

(** One page stored, then the rest. *)
Lemma copied_out_app U va c rest n h m l r h1 m1 fl1 l1 T1 U1 v w' :
  user_owned U -> effect own pool U h h1 m m1 -> vm_inv own m1 fl1 root l1 T1 U1 pool ->
  same_view sz U U1 m m1 -> (length l <= length l1 + 3)%nat ->
  U1 !! PGROUNDDOWN va = Some v -> pte_user v = true -> pte_writable v = true ->
  va + Z.of_nat (length c) <= PGROUNDDOWN va + PGSIZE ->
  (rest = [] \/ va + Z.of_nat (length c) = PGROUNDDOWN va + PGSIZE) ->
  Forall (fun b => 0 <= b < 2 ^ 8) c ->
  copied_out U1 (PGROUNDDOWN va + PGSIZE) rest n h1
    (write_bytes m1 (PTE2PA v + (va - PGROUNDDOWN va)) c) l1 r w' ->
  copied_out U va (c ++ rest) (S n) h m l r w'.
Proof.
  intros Ho Hef Hv Hsv Hl HU Hu Hw Hlen Hrest Hc
    (h2 & m2 & fl2 & l2 & T2 & U2 & k & -> & Hef2 & Hv2 & Ho2 & Hs2 & Hview & Hwr & Hk & Hr).
  assert (Ho1 : user_owned U1) by by apply (user_owned_same sz U U1 m m1).
  pose proof (PGROUNDDOWN_bounds va) as [Ha Hb]. set (va0 := PGROUNDDOWN va) in *.
  assert (Hcw : forall j, 0 <= j < Z.of_nat (length c) -> uwritable U sz (va + j) = true /\
    is_Some (U2 !! PGROUNDDOWN (va + j))).
  { intros j Hj. rewrite <-(uwritable_same U U1 m m1) by done. unfold uwritable.
    rewrite (PGROUNDDOWN_in va0) by (done || lia). rewrite HU, Hu. split; [done|].
    eexists. by eapply lookup_weaken. }
  assert (Hrk : rest = [] -> k = 0%nat) by (intros ->; cbn in Hk; lia).
  exists h2, m2, fl2, l2, T2, U2, (length c + k)%nat. split_and!; auto.
  - eapply effect_trans; [|exact Hef2|done|done|done|done].
    eapply effect_trans; [eapply effect_mono; [exact Hef|done|apply map_empty_subseteq]| |done|done|done|done].
    eapply (proj2 (vm_inv_user_write U1 m1 fl1 l1 T1 va0 v c h1 Hv Ho1 HU Hu Ha (va - va0) ltac:(lia) ltac:(lia))).
  - by etrans; [apply Hsv|].
  - intros x. rewrite Hview. rewrite (uview_write U1 m1 fl1 l1 T1) by done.
    rewrite (uview_same sz U U1 m m1) by done. fold va0.
    destruct (decide (va <= x < va + Z.of_nat (length c))) as [Hx|Hx].
    + rewrite decide_False by lia. rewrite decide_True by lia. by rewrite lookup_app_l by lia.
    + destruct (decide (va0 + PGSIZE <= x < va0 + PGSIZE + Z.of_nat k)) as [Hx2|Hx2].
      * assert (Hrr : va + Z.of_nat (length c) = va0 + PGSIZE)
          by (destruct Hrest as [Hn|]; [apply Hrk in Hn; lia|done]).
        rewrite decide_True by lia. rewrite lookup_app_r by lia. f_equal. lia.
      * rewrite decide_False; [done|]. destruct Hrest as [Hn|]; [apply Hrk in Hn; lia|lia].
  - intros j Hj. destruct (decide (j < Z.of_nat (length c))) as [Hj'|Hj']; [apply Hcw; lia|].
    assert (Hrr : va + Z.of_nat (length c) = va0 + PGSIZE)
      by (destruct Hrest as [Hn|]; [apply Hrk in Hn; lia|done]).
    rewrite <-(uwritable_same U U1 m m1) by done.
    replace (va + j) with (va0 + PGSIZE + (j - Z.of_nat (length c))) by lia. apply Hwr. lia.
  - rewrite length_app. lia.
  - rewrite length_app. destruct Hr as [[-> ->]|[-> Hr]]; [left; split; [done|lia]|right; split; [done|]].
    destruct Hr as [(j & Hj & Hn)|Hn]; [left|right; lia].
    assert (Hrr : va + Z.of_nat (length c) = va0 + PGSIZE)
      by (destruct Hrest as [Hn'|]; [rewrite Hn' in Hj; cbn in Hj; lia|done]).
    exists (Z.of_nat (length c) + j). split; [lia|]. rewrite (uwritable_same U U1 m m1) in Hn by done.
    rewrite <-Hn. f_equal. lia.
Qed.

Lemma wp_copyout_loop fuel :
  forall va src U h m fl l T, hart_ok h -> h.(h_proc) = Some i ->
  vm_inv own m fl root l T U pool -> user_owned U -> 0 <= va < 2 ^ 64 ->
  Forall (fun b => 0 <= b < 2 ^ 8) src ->
  va - PGROUNDDOWN va + Z.of_nat (length src) <= Z.of_nat fuel * PGSIZE ->
  wp (copyout_loop fuel root va src) (copied_out U va src fuel h m l)
    (World h env tr (set_km m fl s)).
Proof.
  induction fuel as [|fuel IH]; intros va src U h m fl l T Hh Hpr Hv Ho Hva Hsrc Hfuel;
    pose proof (PGROUNDDOWN_bounds va) as [Ha Hr]; cbn [copyout_loop];
    (destruct (Z.leb_spec (Z.of_nat (length src)) 0) as [Hz|Hnz];
      [apply wpx_ret; eapply copied_out_stop; eauto using effect_refl, same_view_refl;
       left; split; [done|apply length_zero_iff_nil; lia]|]); [lia|].
  set (va0 := PGROUNDDOWN va) in *.
  assert (Hva0 : 0 <= va0) by (unfold va0; rewrite PGROUNDDOWN_eq; pose proof (Z.div_pos va PGSIZE); llia).
  assert (Hwr0 : uwritable U sz va = uwritable U sz va0).
  { unfold uwritable. fold va0. by rewrite (PGROUNDDOWN_in va0 va0) by (done || llia). }
  destruct (Z.leb_spec MAXVA va0) as [Hmax|Hmax].
  { apply wpx_ret. eapply copied_out_stop; eauto using effect_refl, same_view_refl.
    right. split; [done|]. left. exists 0. split; [lia|]. rewrite Z.add_0_r. unfold uwritable. fold va0.
    destruct (U !! va0) as [v|] eqn:E.
    - assert (Hvp : vpage va0) by (eapply pt_dom; [apply Hv|eauto]). destruct Hvp. lia.
    - destruct (Z.ltb_spec va0 sz) as [Hlt|]; [unfold sz in Hlt; lia|done]. }
  eapply wp_resolve; [done|done|exact Hv|done|done|done|..].
  - intros h' m' fl' l' T' U' Hef Hv' Hsv Hl Hr'. change (0 =? 0) with true. apply wpx_ret.
    eapply copied_out_stop; eauto. right. split; [done|].
    destruct Hr' as [[_ Hn]|[_ Hn]]; [left|right; lia].
    exists 0. split; [lia|]. by rewrite Z.add_0_r, Hwr0.
  - intros v h1 m1 fl1 l1 T1 U1 Hef Hv1 Hsv Hl HU1 Hu Hnz1. apply Z.eqb_neq in Hnz1. rewrite Hnz1.
    eapply wpx_bind, run_wp; [eapply walk_false_run; [apply Hv1|lia]|].
    destruct (mapped_slot _ _ _ _ _ _ _ _ _ _ Hv1 HU1) as (a & Hs & Hld & _ & Hvp).
    pose proof (slot_nonzero _ _ _ _ _ _ (vm_pt _ _ _ _ _ _ _ _ Hv1) Hs) as Hnza. apply Z.eqb_neq in Hnza.
    rewrite Hs. cbn [default]. cbn. rewrite Hnza. kstep. apply wpx_km_read. rewrite Hld, eqb_PTE_W.
    destruct (pte_writable v) eqn:Hw; cbn [negb].
    2:{ apply wpx_ret. eapply copied_out_stop; eauto. right. split; [done|]. left. exists 0.
        split; [lia|]. rewrite Z.add_0_r, Hwr0, <-(uwritable_same U U1 m m1) by done.
        unfold uwritable. rewrite (PGROUNDDOWN_in va0 va0) by (done || llia). by rewrite HU1, Hu, Hw. }
    destruct (chunk_bounds va (Z.of_nat (length src)) Hnz) as (Hc1 & Hc2 & Hc3). fold va0 in Hc1, Hc2, Hc3.
    set (n := chunk va va0 (Z.of_nat (length src))) in *.
    rewrite (u64_small (va0 + PGSIZE)) by llia. kstep. apply wpx_km_mem.
    set (c := take (Z.to_nat n) src). set (rest := drop (Z.to_nat n) src).
    assert (Hcl : length c = Z.to_nat n) by (unfold c; rewrite length_take; lia).
    assert (Hrl : length rest = (length src - Z.to_nat n)%nat) by apply length_drop.
    assert (Ho1 : user_owned U1) by by apply (user_owned_same sz U U1 m m1).
    assert (Hcf : Forall (fun b => 0 <= b < 2 ^ 8) c /\ Forall (fun b => 0 <= b < 2 ^ 8) rest).
    { apply Forall_app. unfold c, rest. by rewrite take_drop. }
    eapply wpx_mono.
    { eapply (IH (va0 + PGSIZE) rest U1 h1); [by eapply effect_ok|by eapply effect_proc| |done|llia|apply Hcf|].
      - apply (proj1 (vm_inv_user_write U1 m1 fl1 l1 T1 va0 v c h1 Hv1 Ho1 HU1 Hu Ha (va - va0)
          ltac:(lia) ltac:(lia))).
      - rewrite PGROUNDDOWN_in with (va0 := va0 + PGSIZE);
          [llia|apply page_aligned_add; [done|apply (page_aligned_pgsize_mul 1)]|llia]. }
    intros r w' Hout. unfold c, rest in *. rewrite <-(take_drop (Z.to_nat n) src) at 1.
    eapply (copied_out_app U va _ _ fuel h m l r h1 m1 fl1 l1 T1 U1 v); auto; fold va0; [lia| |apply Hcf].
    destruct Hc3 as [Hc3|Hc3]; [left; apply length_zero_iff_nil; lia|right; lia].
Qed.

Lemma wp_copyout U va src h m fl l T :
  hart_ok h -> h.(h_proc) = Some i -> vm_inv own m fl root l T U pool -> user_owned U ->
  0 <= va < 2 ^ 64 -> Forall (fun b => 0 <= b < 2 ^ 8) src ->
  wp (copyout root va src)
    (copied_out U va src (S (S (Z.to_nat (Z.of_nat (length src) / PGSIZE)))) h m l)
    (World h env tr (set_km m fl s)).
Proof.
  intros Hh Hpr Hv Ho Hva Hsrc. unfold copyout. eapply wp_copyout_loop; eauto.
  pose proof (PGROUNDDOWN_bounds va) as [_ Hr]. set (len := Z.of_nat (length src)).
  pose proof (Z.div_mod len PGSIZE ltac:(llia)). pose proof (Z.mod_pos_bound len PGSIZE ltac:(llia)).
  pose proof (Z.div_pos len PGSIZE ltac:(lia) ltac:(llia)).
  rewrite !Nat2Z.inj_succ, Z2Nat.id by done. llia.
Qed.

End process.

(** ** copyinstr *)

(** The byte at [va] of a page that is mapped for the user. *)
Definition sview (U : gmap Z Z) (m : memory) (va : Z) : option Z :=
  match U !! PGROUNDDOWN va with
  | Some v => if pte_user v then Some (mget m (PTE2PA v + (va - PGROUNDDOWN va))) else None
  | None => None
  end.

(** The string at [va], if it ends within [n] bytes. *)
Fixpoint ustr (U : gmap Z Z) (m : memory) (n : nat) (va : Z) : option (list Z) :=
  match n with
  | O => None
  | S n =>
      match sview U m va with
      | None => None
      | Some b => if b =? 0 then Some [] else (fun l => b :: l) <$> ustr U m n (va + 1)
      end
  end.

Lemma copyinstr_page_spec U m va0 v k :
  page_aligned va0 -> U !! va0 = Some v -> pte_user v = true ->
  forall va, va0 <= va -> va + Z.of_nat k <= va0 + PGSIZE ->
  match copyinstr_page k m (PTE2PA v + (va - va0)) with
  | (true, bytes) => exists str, bytes = str ++ [0] /\
      forall n, (k <= n)%nat -> ustr U m n va = Some str
  | (false, bytes) => length bytes = k /\
      forall n, (k <= n)%nat -> ustr U m n va = app bytes <$> ustr U m (n - k) (va + Z.of_nat k)
  end.
Proof.
  intros Ha HU Hu. induction k as [|k IH]; intros va Hva Hk; cbn [copyinstr_page].
  - split; [done|]. intros n _. rewrite Nat.sub_0_r, Z.add_0_r. by destruct (ustr U m n va).
  - assert (Hs : sview U m va = Some (mget m (PTE2PA v + (va - va0)))).
    { unfold sview. rewrite (PGROUNDDOWN_in va0 va) by (done || lia). by rewrite HU, Hu. }
    destruct (Z.eqb_spec (mget m (PTE2PA v + (va - va0))) 0) as [Hz|Hnz].
    + exists []. split; [done|]. intros [|n] Hn; [lia|]. cbn. by rewrite Hs, Hz.
    + specialize (IH (va + 1) ltac:(lia) ltac:(lia)).
      replace (PTE2PA v + (va + 1 - va0)) with (PTE2PA v + (va - va0) + 1) in IH by lia.
      destruct (copyinstr_page k m (PTE2PA v + (va - va0) + 1)) as [[|] bytes].
      * destruct IH as (str & -> & Hstr). exists (mget m (PTE2PA v + (va - va0)) :: str).
        split; [done|]. intros [|n] Hn; [lia|]. cbn. rewrite Hs.
        apply Z.eqb_neq in Hnz. rewrite Hnz, Hstr by lia. done.
      * destruct IH as [Hl Hstr]. split; [cbn; lia|]. intros [|n] Hn; [lia|]. cbn [ustr].
        rewrite Hs. apply Z.eqb_neq in Hnz. rewrite Hnz, Hstr by lia.
        replace (va + 1 + Z.of_nat k) with (va + Z.of_nat (S k)) by lia. cbn [Nat.sub].
        by destruct (ustr U m (n - k) (va + Z.of_nat (S k))).
Qed.

Lemma copyinstr_loop_run U T w fuel :
  pt_inv w.(w_st).(mem) root T U -> user_owned U -> (forall va v, U !! va = Some v -> pte_user v = true -> PTE2PA v <> 0) ->
  forall va max dst, 0 <= va < 2 ^ 64 -> 0 <= max ->
  va - PGROUNDDOWN va + max <= Z.of_nat fuel * PGSIZE ->
  exists bytes, copyinstr_loop fuel root va max dst w =
    Ret (match ustr U w.(w_st).(mem) (Z.to_nat max) va with
         | Some str => (0, dst ++ str ++ [0])
         | None => (-1, bytes)
         end) w.
Proof.
  intros Hpt Ho Hnz. set (m := w.(w_st).(mem)) in *.
  induction fuel as [|fuel IH]; intros va max dst Hva Hmax Hfuel;
    pose proof (PGROUNDDOWN_bounds va) as [Ha Hr]; cbn [copyinstr_loop];
    (destruct (Z.leb_spec max 0) as [Hz|Hpos]; [exists dst; assert (max = 0) as -> by lia; done|]); [lia|].
  set (va0 := PGROUNDDOWN va) in *.
  assert (Hva0 : 0 <= va0) by (unfold va0; rewrite PGROUNDDOWN_eq; pose proof (Z.div_pos va PGSIZE); llia).
  erewrite bind_run by (by eapply walkaddr_run). unfold uaddr.
  assert (Hfail : sview U m va = None -> ustr U m (Z.to_nat max) va = None).
  { intros Hs. destruct (Z.to_nat max) as [|n]; [done|]. cbn. by rewrite Hs. }
  unfold sview in Hfail. fold va0 in Hfail.
  destruct (U !! va0) as [v|] eqn:E; [|exists dst; by rewrite Hfail].
  destruct (pte_user v) eqn:Hu; [|exists dst; by rewrite Hfail].
  assert (Hvz := Hnz va0 v E Hu). apply Z.eqb_neq in Hvz. rewrite Hvz.
  destruct (chunk_bounds va max Hpos) as (Hc1 & Hc2 & Hc3). fold va0 in Hc1, Hc2, Hc3.
  set (n := chunk va va0 max) in *. erewrite bind_run by reflexivity.
  pose proof (copyinstr_page_spec U m va0 v (Z.to_nat n) Ha E Hu va ltac:(lia) ltac:(lia)) as Hpg.
  fold m. destruct (copyinstr_page (Z.to_nat n) m (PTE2PA v + (va - va0))) as [[|] bytes].
  - destruct Hpg as (str & -> & Hstr). exists []. by rewrite Hstr by lia.
  - destruct Hpg as [Hl Hstr]. rewrite Hstr by lia.
    assert (Hvp : vpage va0) by (eapply pt_dom; [done|eauto]). destruct Hvp as [_ Hvp].
    rewrite (u64_small (va0 + PGSIZE)) by llia.
    destruct (IH (va0 + PGSIZE) (max - n) (dst ++ bytes)) as [b' Hb]; [llia|lia| |].
    { rewrite (PGROUNDDOWN_in (va0 + PGSIZE));
        [llia|apply page_aligned_add; [done|apply (page_aligned_pgsize_mul 1)]|llia]. }
    exists b'. rewrite Hb. replace (Z.to_nat max - Z.to_nat n)%nat with (Z.to_nat (max - n)) by lia.
    replace (va + Z.of_nat (Z.to_nat n)) with (va + n) by lia.
    destruct (decide (n = max)) as [Hnm|Hne].
    + by replace (Z.to_nat (max - n)) with 0%nat by lia.
    + replace (va + n) with (va0 + PGSIZE) by lia.
      destruct (ustr U m (Z.to_nat (max - n)) (va0 + PGSIZE)); [|done]. cbn. by rewrite !app_assoc.
Qed.

End copy.
