(* ===== verification/UserPages.v ===== *)
(** * Copies to and from pages that are mapped

    When the pages of a range are mapped, copyout() and copyin() allocate
    nothing and cannot fail: the exact run of both. *)

From S2P Require Import Prelude Memory Riscv Machine Spinlock Kalloc Vm Pagetable Uvm UvmCopy UserCopy.

(** The process may read, and the kernel may store, at this address. *)
Definition readable (U : gmap Z Z) (va : Z) : Prop :=
  exists v, U !! PGROUNDDOWN va = Some v /\ pte_user v = true.
Definition writable (U : gmap Z Z) (va : Z) : Prop :=
  exists v, U !! PGROUNDDOWN va = Some v /\ pte_user v = true /\ pte_writable v = true.

(** The user's view after [bs] has been stored at [va]. *)
Definition stored (sz : Z) (U : gmap Z Z) (m m' : memory) (va : Z) (bs : list Z) : Prop :=
  forall z, uview U m' sz z =
    if decide (va <= z < va + Z.of_nat (length bs)) then bs !! Z.to_nat (z - va) else uview U m sz z.

Lemma stored_nil sz U m va : stored sz U m m va [].
Proof. intros z. by rewrite decide_False by (cbn; lia). Qed.

Lemma stored_app sz U m m1 m2 va a b :
  stored sz U m m1 va a -> stored sz U m1 m2 (va + Z.of_nat (length a)) b -> stored sz U m m2 va (a ++ b).
Proof.
  intros H1 H2 z. rewrite H2, H1, length_app. repeat case_decide; try lia; try done.
  - rewrite lookup_app_r by lia. f_equal. lia.
  - by rewrite lookup_app_l by lia.
Qed.

Lemma stored_cons sz U m m1 m2 va c bs :
  stored sz U m m1 va [c] -> stored sz U m1 m2 (va + 1) bs -> stored sz U m m2 va (c :: bs).
Proof. apply (stored_app sz U m m1 m2 va [c] bs). Qed.

Section resident.
Context {I : Image} {IOk : ImageOk I} (own : Z -> bool) (pool : list Z) (root : Z) (T : tables).
Context (U : gmap Z Z) (fl : Z) (l : list Z) (p : proc) (Hown : user_owned own U).
Context (h : hart) (env : list turn) (tr : list event) (s : kstate).

#[local] Abbreviation vm m := (vm_inv own m fl root l T U pool).

Lemma copyout_loop_resident fuel : forall va src m,
  vm m -> 0 <= va -> Forall (fun b => 0 <= b < 2 ^ 8) src ->
  (forall j, 0 <= j < Z.of_nat (length src) -> writable U (va + j)) ->
  (va - PGROUNDDOWN va) + Z.of_nat (length src) <= Z.of_nat fuel * PGSIZE ->
  exists m', copyout_loop fuel root va src (World h env tr (set_km m fl s)) = Ret 0 (World h env tr (set_km m' fl s)) /\
    vm m' /\ stored p.(p_sz) U m m' va src.
Proof using Hown IOk.
  induction fuel as [|fuel IH]; intros va src m Hv Hva Hb Hw Hf; pose proof (PGROUNDDOWN_bounds va) as [Ha Hr].
  { destruct src; [|cbn [length] in Hf; lia]. exists m. split_and!; [done|done|apply stored_nil]. }
  unfold copyout_loop; fold copyout_loop.
  destruct (Z.leb_spec (Z.of_nat (length src)) 0) as [Hz|Hz].
  { destruct src; [|cbn [length] in Hz; lia]. exists m. split_and!; [done|done|apply stored_nil]. }
  destruct (Hw 0 ltac:(lia)) as (v & HU & Hu & Hpw). rewrite Z.add_0_r in HU.
  assert (Hvp : vpage (PGROUNDDOWN va)) by (eapply pt_dom; [apply Hv|eauto]). cbv zeta.
  destruct (Z.leb_spec MAXVA (PGROUNDDOWN va)) as [|_]; [destruct Hvp; lia|].
  erewrite bind_run by (eapply walkaddr_run; [apply Hv|done|apply Hvp]).
  assert (Hnz : PTE2PA v <> 0).
  { destruct (vm_inv_frame _ _ _ _ _ _ _ _ _ _ Hv HU ltac:(by eapply Hown)) as (Hpg & _).
    by apply page_ok_nonzero. }
  unfold uaddr. rewrite HU, Hu. apply Z.eqb_neq in Hnz. rewrite Hnz.
  erewrite bind_run by reflexivity. rewrite Hnz.
  erewrite bind_run by (eapply walk_false_run; [apply Hv|apply Hvp]).
  destruct (mapped_slot _ _ _ _ _ _ _ _ _ _ Hv HU) as (a & Hs & Hld & _ & _).
  pose proof (slot_nonzero _ _ _ _ _ _ (vm_pt _ _ _ _ _ _ _ _ Hv) Hs) as Hnza. apply Z.eqb_neq in Hnza.
  rewrite Hs. cbn [default]. cbn. rewrite Hnza. erewrite bind_run by reflexivity.
  change (mem (w_st _)) with m. rewrite Hld, eqb_PTE_W, Hpw. cbn [negb].
  erewrite bind_run by reflexivity.
  set (va0 := PGROUNDDOWN va) in *. set (n := chunk va va0 (Z.of_nat (length src))).
  assert (Hn : n = Z.min (Z.of_nat (length src)) (PGSIZE - (va - va0))).
  { unfold n, chunk. destruct (Z.ltb_spec (Z.of_nat (length src)) (PGSIZE - (va - va0))); lia. }
  set (c := take (Z.to_nat n) src). assert (Hc : Z.of_nat (length c) = n) by (unfold c; rewrite length_take; lia).
  destruct (vm_inv_user_write own root p pool U m fl l T va0 v c h Hv Hown HU Hu Ha (va - va0) ltac:(lia) ltac:(lia)) as [Hv1 _].
  assert (Hs1 : stored p.(p_sz) U m (write_bytes m (PTE2PA v + (va - va0)) c) va c).
  { intros z. apply (uview_write own root p pool U m fl l T); try done; [lia|]. by apply Forall_take. }
  assert (Hd : Z.of_nat (length (drop (Z.to_nat n) src)) = Z.of_nat (length src) - n) by (rewrite length_drop; lia).
  rewrite u64_small by (destruct Hvp; llia).
  destruct (decide (n = Z.of_nat (length src))) as [E|E].
  - rewrite (drop_ge src) by lia. exists (write_bytes m (PTE2PA v + (va - va0)) c).
    split_and!; [by destruct fuel|done|]. unfold c in Hs1 |- *. by rewrite (take_ge src) in * by lia.
  - assert (En : va0 + PGSIZE = va + n) by lia. rewrite En.
    assert (Hg : PGROUNDDOWN (va + n) = va + n) by (rewrite <-En; apply PGROUNDDOWN_in; [by apply page_aligned_add|llia]).
    destruct (IH (va + n) (drop (Z.to_nat n) src) (write_bytes m (PTE2PA v + (va - va0)) c)) as (m' & Er & Hv' & Hs2).
    + done.
    + lia.
    + by apply Forall_drop.
    + intros j Hj. specialize (Hw (n + j) ltac:(lia)). by rewrite Z.add_assoc in Hw.
    + rewrite Hg. lia.
    + exists m'. split_and!; [exact Er|done|]. rewrite <-(take_drop (Z.to_nat n) src).
      eapply stored_app; [exact Hs1|]. fold c. by rewrite Hc.
Qed.

Lemma copyout_resident va src m :
  vm m -> 0 <= va -> Forall (fun b => 0 <= b < 2 ^ 8) src ->
  (forall j, 0 <= j < Z.of_nat (length src) -> writable U (va + j)) ->
  exists m', copyout root va src (World h env tr (set_km m fl s)) = Ret 0 (World h env tr (set_km m' fl s)) /\
    vm m' /\ stored p.(p_sz) U m m' va src.
Proof using Hown IOk.
  intros. apply copyout_loop_resident; try done. pose proof (PGROUNDDOWN_bounds va) as [_ Hr].
  rewrite !Nat2Z.inj_succ, Z2Nat.id by (apply Z.div_pos; llia).
  pose proof (Z.div_mod (Z.of_nat (length src)) PGSIZE ltac:(llia)).
  pose proof (Z.mod_pos_bound (Z.of_nat (length src)) PGSIZE ltac:(llia)). llia.
Qed.

Lemma copyin_loop_resident fuel : forall va len dst m,
  vm m -> 0 <= va -> 0 <= len -> (forall j, 0 <= j < len -> readable U (va + j)) ->
  (va - PGROUNDDOWN va) + len <= Z.of_nat fuel * PGSIZE ->
  exists bs, copyin_loop fuel root va len dst (World h env tr (set_km m fl s)) =
      Ret (0, dst ++ bs) (World h env tr (set_km m fl s)) /\
    Z.of_nat (length bs) = len /\ forall k b, bs !! k = Some b -> uview U m p.(p_sz) (va + Z.of_nat k) = Some b.
Proof using Hown IOk.
  induction fuel as [|fuel IH]; intros va len dst m Hv Hva Hlen Hrd Hf; pose proof (PGROUNDDOWN_bounds va) as [Ha Hr].
  { assert (len = 0) as -> by lia. exists []. rewrite app_nil_r. by split_and!. }
  unfold copyin_loop; fold copyin_loop. destruct (Z.leb_spec len 0) as [Hz|Hz].
  { assert (len = 0) as -> by lia. exists []. rewrite app_nil_r. by split_and!. }
  destruct (Hrd 0 ltac:(lia)) as (v & HU & Hu). rewrite Z.add_0_r in HU.
  assert (Hvp : vpage (PGROUNDDOWN va)) by (eapply pt_dom; [apply Hv|eauto]). cbv zeta.
  erewrite bind_run by (eapply walkaddr_run; [apply Hv|done|apply Hvp]).
  assert (Hnz : PTE2PA v <> 0).
  { destruct (vm_inv_frame _ _ _ _ _ _ _ _ _ _ Hv HU ltac:(by eapply Hown)) as (Hpg & _).
    by apply page_ok_nonzero. }
  unfold uaddr. rewrite HU, Hu. apply Z.eqb_neq in Hnz. rewrite Hnz.
  erewrite bind_run by reflexivity. rewrite Hnz. erewrite bind_run by reflexivity.
  change (mem (w_st _)) with m. set (va0 := PGROUNDDOWN va) in *. set (n := chunk va va0 len).
  assert (Hn : n = Z.min len (PGSIZE - (va - va0))).
  { unfold n, chunk. destruct (Z.ltb_spec len (PGSIZE - (va - va0))); lia. }
  set (bs := read_bytes _ _ _). assert (Hl : Z.of_nat (length bs) = n) by (unfold bs; rewrite length_read_bytes; lia).
  assert (Hb : forall k b, bs !! k = Some b -> uview U m p.(p_sz) (va + Z.of_nat k) = Some b).
  { intros k b Hk. pose proof (lookup_lt_Some _ _ _ Hk). unfold uview.
    rewrite (PGROUNDDOWN_in va0) by (done || lia). rewrite HU, Hu. unfold bs in Hk. rewrite lookup_read_bytes in Hk by lia.
    rewrite <-Hk. do 2 f_equal. lia. }
  rewrite u64_small by (destruct Hvp; llia). destruct (decide (n = len)) as [E|E].
  - exists bs. split_and!; [|lia|done]. rewrite E, Z.sub_diag. by destruct fuel.
  - assert (En : va0 + PGSIZE = va + n) by lia. rewrite En.
    assert (Hg : PGROUNDDOWN (va + n) = va + n) by (rewrite <-En; apply PGROUNDDOWN_in; [by apply page_aligned_add|llia]).
    destruct (IH (va + n) (len - n) (dst ++ bs) m) as (bs2 & Er & Hl2 & Hb2); [done|lia|lia| |rewrite Hg; lia|].
    { intros j Hj. specialize (Hrd (n + j) ltac:(lia)). by rewrite Z.add_assoc in Hrd. }
    exists (bs ++ bs2). rewrite app_assoc, length_app. split_and!; [exact Er|lia|].
    intros k b [Hk|[Hk1 Hk2]]%lookup_app_Some; [by apply Hb|]. specialize (Hb2 _ _ Hk2).
    rewrite <-Hb2. f_equal. lia.
Qed.

Lemma copyin_resident va len m :
  vm m -> 0 <= va -> 0 <= len -> (forall j, 0 <= j < len -> readable U (va + j)) ->
  exists bs, copyin root va len (World h env tr (set_km m fl s)) = Ret (0, bs) (World h env tr (set_km m fl s)) /\
    Z.of_nat (length bs) = len /\ forall k b, bs !! k = Some b -> uview U m p.(p_sz) (va + Z.of_nat k) = Some b.
Proof using Hown IOk.
  intros. apply (copyin_loop_resident _ va len []); try done. pose proof (PGROUNDDOWN_bounds va) as [_ Hr].
  rewrite !Nat2Z.inj_succ, Z2Nat.id by (apply Z.div_pos; llia).
  pose proof (Z.div_mod len PGSIZE ltac:(llia)). pose proof (Z.mod_pos_bound len PGSIZE ltac:(llia)). llia.
Qed.

(** One byte. *)
Lemma copyout_byte va c m :
  vm m -> 0 <= va -> 0 <= c < 2 ^ 8 -> writable U va ->
  exists m', copyout root va [c] (World h env tr (set_km m fl s)) = Ret 0 (World h env tr (set_km m' fl s)) /\
    vm m' /\ stored p.(p_sz) U m m' va [c].
Proof using Hown IOk.
  intros Hv Hva Hc Hw. apply copyout_resident; [done|done|by apply Forall_singleton|].
  intros j Hj. cbn in Hj. by replace (va + j) with va by lia.
Qed.

End resident.
