(* ===== verification/VmSpec.v ===== *)
(** * What kernel/vm.c guarantees

    The properties of the page-table code, with the pool of pages fixed: the
    lemmas of [Uvm], [UvmCopy] and [UserCopy] stated for every state that
    satisfies the invariant, and a concrete address space in which they
    apply. *)

From S2P Require Import Prelude Memory CString Riscv Machine Spinlock Kalloc Vm Pagetable Uvm UvmCopy UserCopy.

(** The pages below the trapframe belong to the process. *)
Definition user_page (va : Z) : bool := va <? TRAPFRAME.

Section vmspec.
Context {I : Image} `{!ImageOk I}.

(** C21: mappages() maps [n] pages to [n] consecutive frames, allocating
    page-table pages as needed.  It fails only when memory runs out, having
    mapped a prefix; other mappings, the contents of mapped frames and
    memory outside the pool stay, and no page of the pool is lost. *)
Theorem mappages_correct own root env tr s U pool va pa perm n h m fl l T :
  hart_ok h -> lock_free s kmem_lock -> vm_inv own m fl root l T U pool ->
  (0 < n)%nat -> page_aligned va -> 0 <= va -> va + Z.of_nat n * PGSIZE <= MAXVA ->
  0 <= pa -> pa + Z.of_nat n * PGSIZE <= 2 ^ 56 -> page_aligned pa -> 0 <= perm < 2 ^ 10 ->
  (forall x, x ∈ page_range va n -> U !! x = None) ->
  NoDup (new_frames own va pa n ++ pool) -> Forall page_ok (new_frames own va pa n) ->
  wp (mappages root va (Z.of_nat n * PGSIZE) pa perm)
    (mapped own root env tr s U pool va pa perm n h m l T) (World h env tr (set_km m fl s)).
Proof. apply wp_mappages. Qed.

(** Uvmunmap() removes exactly the mappings of the range, tolerating
    holes; with [do_free] the frames are free again, and page-table pages
    stay. *)
Theorem uvmunmap_correct own root env tr s (do_free : bool) pool va n U h m fl l T :
  hart_ok h -> lock_free s kmem_lock -> vm_inv own m fl root l T U pool ->
  page_aligned va -> 0 <= va -> va + Z.of_nat n * PGSIZE <= MAXVA ->
  (forall x, x ∈ page_range va n -> is_Some (U !! x) -> own x = do_free) ->
  wp (uvmunmap root va (Z.of_nat n) do_free) (fun _ w' => exists h' m' fl' l' U',
      w' = World h' env tr (set_km m' fl' s) /\ effect own pool U' h h' m m' /\
      vm_inv own m' fl' root l' T U' pool /\ l' ++ frames own U' ≡ₚ l ++ frames own U /\
      (forall x, U' !! x = if decide (x ∈ page_range va n) then None else U !! x))
    (World h env tr (set_km m fl s)).
Proof.
  intros Hh HL Hv Ha Hva Hmax Ho. eapply wpx_mono; [by apply wp_uvmunmap|].
  intros [] w' (h' & m' & fl' & l' & -> & Hef & Hv' & _).
  exists h', m', fl', l', (unmap_range va n U). split_and!; auto.
  - pose proof (vm_pool _ _ _ _ _ _ _ _ Hv) as H1. rewrite <-(vm_pool _ _ _ _ _ _ _ _ Hv') in H1.
    rewrite !(Permutation_app_comm (tpages T)), !app_assoc in H1. by apply Permutation_app_inv_r in H1.
  - intros x. by apply lookup_unmap_range.
Qed.

(** C22: uvmalloc() either maps every page between the two sizes to a zeroed
    frame of its own and returns the new size, or returns 0 with the address
    space as before and every frame freed again; it succeeds whenever three
    pages are free for each page to add. *)
Theorem uvmalloc_correct own root env tr s pool oldsz newsz xperm U h m fl l T :
  hart_ok h -> lock_free s kmem_lock -> vm_inv own m fl root l T U pool ->
  0 <= oldsz <= newsz -> newsz <= MAXVA -> 0 <= xperm < 2 ^ 10 ->
  (forall x, x ∈ page_range (PGROUNDUP oldsz) (alloc_pages oldsz newsz) ->
     U !! x = None /\ own x = true) ->
  wp (uvmalloc root oldsz newsz xperm)
    (allocated own root env tr s U pool (PGROUNDUP oldsz) newsz xperm (alloc_pages oldsz newsz) h m l)
    (World h env tr (set_km m fl s)).
Proof. apply wp_uvmalloc. Qed.

(** C12: uvmcopy() gives the child a private copy of every mapped page below
    [sz], with the same flags and contents, skipping holes; on failure the
    child's table is as before.  The parent's memory does not change. *)
Theorem uvmcopy_correct own old new env tr s pool U Uo To m sz n h fl l T :
  lock_free s kmem_lock -> Z.of_nat n * PGSIZE <= MAXVA ->
  sz <= Z.of_nat n * PGSIZE < sz + PGSIZE -> 0 <= sz ->
  (forall x, x ∈ page_range 0 n -> U !! x = None /\ own x = true) ->
  pt_inv m old To Uo -> (forall t, t ∈ tpages To -> t ∉ pool) ->
  (forall x v, x ∈ page_range 0 n -> Uo !! x = Some v -> page_ok (PTE2PA v) /\ PTE2PA v ∉ pool) ->
  hart_ok h -> vm_inv own m fl new l T U pool ->
  wp (uvmcopy old new sz) (forked own new env tr s pool U Uo m n h l)
    (World h env tr (set_km m fl s)).
Proof. intros. eapply wp_uvmcopy; eauto. Qed.

(** C23: uvmfree() of a page table whose mappings all lie below [sz] returns
    every frame and every page-table page to the allocator. *)
Theorem uvmfree_correct own root env tr s pool sz U h m fl l T :
  hart_ok h -> lock_free s kmem_lock -> vm_inv own m fl root l T U pool ->
  0 <= sz <= MAXVA -> (forall x, is_Some (U !! x) -> x < sz /\ own x = true) ->
  wp (uvmfree root sz) (fun _ w' => exists h' m' fl' l',
      w' = World h' env tr (set_km m' fl' s) /\ hart_le h h' /\ frame pool m m' /\
      kmem_inv m' fl' l' /\ l' ≡ₚ pool)
    (World h env tr (set_km m fl s)).
Proof. apply wp_uvmfree. Qed.

Section process.
Context (own : Z -> bool) (env : list turn) (tr : list event) (s : kstate) (i : nat) (p : proc).
Context (pool : list Z).

(** The running process: its size and its page table. *)
Definition current (h : hart) : Prop :=
  hart_ok h /\ h.(h_proc) = Some i /\ lock_free s kmem_lock /\ s.(procs) !! i = Some p /\
  p.(p_sz) <= MAXVA /\ (forall va, va < p.(p_sz) -> own va = true).

(** Copyin() reads the bytes the process sees, a promised but
    unallocated page reading as zeros; the process sees the same memory
    afterwards.  It fails only at an address the process may not read or
    when memory runs out. *)
Theorem copyin_correct U va len h m fl l T :
  current h -> vm_inv own m fl p.(p_pagetable) l T U pool -> user_owned own U ->
  0 <= va < 2 ^ 64 -> 0 <= len ->
  wp (copyin p.(p_pagetable) va len) (fun r w' => exists h' m' fl' l' T' U',
      w' = World h' env tr (set_km m' fl' s) /\ effect own pool U h h' m m' /\
      vm_inv own m' fl' p.(p_pagetable) l' T' U' pool /\
      (forall x, uview U' m' p.(p_sz) x = uview U m p.(p_sz) x) /\
      (forall k b, r.2 !! k = Some b -> uview U m p.(p_sz) (va + Z.of_nat k) = Some b) /\
      (r.1 = 0 /\ Z.of_nat (length r.2) = len \/
       r.1 = -1 /\ ((exists k, 0 <= k < len /\ uview U m p.(p_sz) (va + k) = None) \/
         (exists k, 0 <= k < len /\ U !! PGROUNDDOWN (va + k) = None) /\
         (length l < 3 * S (S (Z.to_nat (len / PGSIZE))))%nat)))
    (World h env tr (set_km m fl s)).
Proof.
  intros (Hh & Hpr & HL & Hp & Hsz & Hown) Hv Ho Hva Hlen.
  eapply wpx_mono; [eapply (wp_copyin own _ env tr s HL i p); eauto|].
  intros [r bytes] w' (h' & m' & fl' & l' & T' & U' & got & -> & Hef & Hv' & Hsv & Hr & Hl & Hg & Hres).
  cbn in Hr, Hres. subst. exists h', m', fl', l', T', U'. split_and!; auto.
  intros x. by eapply uview_same.
Qed.

(** Copyout() stores the bytes where the process sees them and changes
    nothing else it sees; it fails only at an address the process may not
    write or when memory runs out, having stored a prefix. *)
Theorem copyout_correct U va src h m fl l T :
  current h -> vm_inv own m fl p.(p_pagetable) l T U pool -> user_owned own U ->
  0 <= va < 2 ^ 64 -> Forall (fun b => 0 <= b < 2 ^ 8) src ->
  wp (copyout p.(p_pagetable) va src)
    (copied_out own p.(p_pagetable) env tr s p pool U va src
       (S (S (Z.to_nat (Z.of_nat (length src) / PGSIZE)))) h m l)
    (World h env tr (set_km m fl s)).
Proof.
  intros (Hh & Hpr & HL & Hp & Hsz & Hown) Hv Ho Hva Hsrc. eapply wp_copyout; eauto.
Qed.

(** C27: a copyin() of what a successful copyout() stored succeeds and
    returns the stored bytes. *)
Theorem copyout_copyin_roundtrip U va src h m fl l T :
  current h -> vm_inv own m fl p.(p_pagetable) l T U pool -> user_owned own U ->
  0 <= va < 2 ^ 64 -> Forall (fun b => 0 <= b < 2 ^ 8) src ->
  wp (r ← copyout p.(p_pagetable) va src;
      if r =? 0 then q ← copyin p.(p_pagetable) va (Z.of_nat (length src)); mret (Some q) else mret None)
    (fun r _ => match r with Some q => q = (0, src) | None => True end)
    (World h env tr (set_km m fl s)).
Proof.
  intros (Hh & Hpr & HL & Hp & Hsz & Hown) Hv Ho Hva Hsrc.
  eapply wpx_call; [eapply (wp_copyout own _ env tr s HL i p); eauto|].
  intros r w' (h' & m' & fl' & l' & T' & U' & k & -> & Hef & Hv' & Ho' & _ & Hview & Hmap & _ & Hr).
  destruct (Z.eqb_spec r 0) as [->|Hnz]; [|by apply wpx_ret].
  destruct Hr as [[_ ->]|[? _]]; [|lia].
  eapply wpx_call; [eapply (wp_copyin own _ env tr s HL i p Hp); eauto; [by eapply effect_ok|by eapply effect_proc|lia]|].
  intros [r2 bytes] w2 (h2 & m2 & fl2 & l2 & T2 & U2 & got & -> & _ & _ & _ & Hb & Hl & Hg & Hres).
  cbn in Hb, Hres. apply wpx_ret. subst bytes.
  assert (Hsee : forall j, 0 <= j < Z.of_nat (length src) ->
    uview U' m' (p_sz p) (va + j) = src !! Z.to_nat j).
  { intros j Hj. rewrite Hview, decide_True by lia. f_equal. lia. }
  destruct Hres as [[-> Hlen]|[-> [(j & Hj & Hn)|[(j & Hj & Hn) _]]]].
  - f_equal. apply list_eq_same_length with (length src); [done|lia|].
    intros j x y Hj Hx Hy. apply Hg in Hx. rewrite Hsee in Hx by lia.
    rewrite Nat2Z.id in Hx. congruence.
  - rewrite Hsee in Hn by done. apply lookup_ge_None in Hn. lia.
  - destruct (Hmap j Hj) as [_ [v Hv2]]. congruence.
Qed.

End process.

(** C28: copyinstr() copies the string at [va] with its NUL when it ends
    within [max] bytes of mapped user memory and fails otherwise; it changes
    nothing. *)
Theorem copyinstr_correct own root U T w fl l pool va max :
  vm_inv own w.(w_st).(mem) fl root l T U pool -> user_owned own U ->
  0 <= va < 2 ^ 64 -> 0 <= max ->
  exists bytes, copyinstr root va max w =
    Ret (match ustr U w.(w_st).(mem) (Z.to_nat max) va with
         | Some str => (0, str ++ [0])
         | None => (-1, bytes)
         end) w.
Proof.
  intros Hv Ho Hva Hmax. unfold copyinstr.
  apply (copyinstr_loop_run own root U T w); [apply Hv|done| |done|done|].
  - intros x v HU Hu. apply page_ok_nonzero.
    by destruct (vm_inv_frame _ _ _ _ _ _ _ _ _ _ Hv HU ltac:(by eapply Ho)).
  - pose proof (PGROUNDDOWN_bounds va) as [_ Hr].
    pose proof (Z.div_mod max PGSIZE ltac:(llia)). pose proof (Z.mod_pos_bound max PGSIZE ltac:(llia)).
    pose proof (Z.div_pos max PGSIZE Hmax ltac:(llia)).
    rewrite !Nat2Z.inj_succ, Z2Nat.id by done. llia.
Qed.

End vmspec.

(** ** A concrete address space *)

(** An empty page table: its root page is zero. *)
Lemma pt_inv_empty {I : Image} m root :
  page_ok root -> (forall y, in_page root y -> mget m y = 0) -> pt_inv m root {[ [] := root ]} ∅.
Proof.
  intros Hr Hz. split.
  - apply lookup_singleton_eq.
  - intros p t [_ <-]%lookup_singleton_Some. done.
  - intros p t [<- _]%lookup_singleton_Some. cbn. lia.
  - intros i p c [[=] _]%lookup_singleton_Some.
  - intros i p c [[=] _]%lookup_singleton_Some.
  - intros p q t [<- _]%lookup_singleton_Some [<- _]%lookup_singleton_Some. done.
  - intros p t i [<- <-]%lookup_singleton_Some _ Hi. rewrite lookup_singleton_ne by done.
    assert (load64 m (pte_at root i) = 0) as ->; [|done]. apply (le_load_zero 8). intros y Hy. apply Hz.
    pose proof (pte_in_page root i Hi). unfold in_page in *. lia.
  - intros va _. unfold leaf, slot. by rewrite lookup_singleton_ne.
  - intros va [? H]. by rewrite lookup_empty in H.
Qed.

#[local] Existing Instances small_image small_image_ok.

(** The [i]-th page from the top of memory. *)
Definition top_page (i : Z) : Z := PHYSTOP - i * PGSIZE.

(** Page 1 is the root of an empty page table, pages 2 to 7 are free and
    page 8 is the root of another page table. *)
Definition small_free : list Z := top_page <$> [2; 3; 4; 5; 6; 7].
Definition small_mem : memory :=
  foldl (fun m i => store64 m (top_page i) (top_page (i + 1))) ∅ [2; 3; 4; 5; 6].
Definition small_pool : list Z := small_free ++ [top_page 1].

Lemma small_mem_ok : mem_ok small_mem.
Proof. unfold small_mem. cbn [foldl]. repeat apply mem_ok_store64. apply mem_ok_empty. Qed.

Lemma small_pages : Forall page_ok small_pool.
Proof. repeat constructor; try done; cbn; unfold top_page; llia. Qed.

Lemma small_nodup : NoDup small_pool.
Proof. apply (bool_decide_unpack _). vm_compute. exact Logic.I. Qed.

Lemma small_kmem : kmem_inv small_mem (top_page 2) small_free.
Proof.
  split.
  - apply small_mem_ok.
  - repeat (split; [reflexivity|split; [discriminate|]]; vm_compute load64). reflexivity.
  - pose proof small_nodup as H. by apply NoDup_app in H as [? _].
  - pose proof small_pages as H. by apply Forall_app in H as [? _].
Qed.

Lemma small_vm own : vm_inv own small_mem (top_page 2) (top_page 1) small_free {[ [] := top_page 1 ]} ∅ small_pool.
Proof.
  split; [apply small_kmem| |done|apply small_nodup|apply small_pages].
  apply pt_inv_empty.
  - pose proof small_pages as H. apply Forall_app in H as [_ H]. by apply Forall_singleton in H.
  - intros y Hy. unfold small_mem. cbn [foldl].
    rewrite !mget_store64_out by (unfold in_page, top_page in *; llia). apply mget_empty.
Qed.

Lemma small_old : pt_inv small_mem (top_page 8) {[ [] := top_page 8 ]} ∅.
Proof.
  apply pt_inv_empty.
  - split; [done|]. cbn. unfold top_page. llia.
  - intros y Hy. unfold small_mem. cbn [foldl].
    rewrite !mget_store64_out by (unfold in_page, top_page in *; llia). apply mget_empty.
Qed.

(** A process of two pages, neither of them allocated yet, running on hart 0. *)
Definition small_proc : proc :=
  set_p_sz (2 * PGSIZE) (set_p_pagetable (top_page 1) zero_proc).
Definition small_st : kstate := set_procs [small_proc] (small_kstate 0).
Definition small_hart : hart := set_h_proc (Some 0%nat) zero_hart.
Definition small_world : world :=
  World small_hart [] [] (set_km small_mem (top_page 2) small_st).

Lemma small_hart_is_ok : hart_ok small_hart.
Proof. split; cbn; lia. Qed.

Lemma small_st_lock : lock_free small_st kmem_lock.
Proof. exists "kmem". apply lookup_singleton_eq. Qed.

Lemma small_current : current user_page small_st 0 small_proc small_hart.
Proof.
  split_and!; [apply small_hart_is_ok|done|apply small_st_lock|done|cbn; llia|].
  intros va Hva. cbn in Hva. apply Z.ltb_lt. llia.
Qed.

Lemma small_user_owned : user_owned user_page ∅.
Proof. intros va v H. by rewrite lookup_empty in H. Qed.

Lemma mappages_correct_witness :
  exists w', mappages (top_page 1) 0 (Z.of_nat 2 * PGSIZE) UART0 PTE_R small_world = Ret 0 w'.
Proof.
  destruct (wp_run _ _ _ (mappages_correct (fun _ => false) (top_page 1) [] [] small_st ∅ small_pool
    0 UART0 PTE_R 2 small_hart small_mem (top_page 2) small_free {[ [] := top_page 1 ]}
    small_hart_is_ok small_st_lock (small_vm _) ltac:(lia) eq_refl ltac:(lia) ltac:(llia) ltac:(llia)
    ltac:(llia) eq_refl ltac:(by vm_compute) ltac:(intros; apply lookup_empty) small_nodup
    ltac:(constructor))) as (r & w' & Hr & h' & m' & fl' & l' & T' & j & _ & _ & _ & _ & _ & Hres).
  destruct Hres as [(-> & _)|(_ & _ & _ & Hlt)]; [by exists w'|]. cbn in Hlt. lia.
Defined.

Lemma uvmunmap_correct_witness :
  exists w', uvmunmap (top_page 1) PGSIZE (Z.of_nat 3) true small_world = Ret tt w'.
Proof.
  destruct (wp_run _ _ _ (uvmunmap_correct user_page (top_page 1) [] [] small_st true small_pool
    PGSIZE 3 ∅ small_hart small_mem (top_page 2) small_free {[ [] := top_page 1 ]}
    small_hart_is_ok small_st_lock (small_vm _) eq_refl ltac:(llia) ltac:(llia)
    ltac:(intros x _ [? H]; by rewrite lookup_empty in H))) as ([] & w' & Hr & _).
  by exists w'.
Defined.

Lemma small_range n :
  (n <= 2)%nat -> forall x, x ∈ page_range 0 n -> (∅ : gmap Z Z) !! x = None /\ user_page x = true.
Proof.
  intros Hn x Hx. split; [apply lookup_empty|]. apply elem_of_page_range in Hx as [_ Hx]; [|done].
  apply Z.ltb_lt. llia.
Qed.

Lemma uvmalloc_correct_witness :
  exists w', uvmalloc (top_page 1) 0 5000 PTE_W small_world = Ret 5000 w'.
Proof.
  destruct (wp_run _ _ _ (uvmalloc_correct user_page (top_page 1) [] [] small_st small_pool
    0 5000 PTE_W ∅ small_hart small_mem (top_page 2) small_free {[ [] := top_page 1 ]}
    small_hart_is_ok small_st_lock (small_vm _) ltac:(lia) ltac:(llia) ltac:(by vm_compute)
    (small_range 2 ltac:(lia)))) as (r & w' & Hr & h' & m' & fl' & l' & T' & U' & _ & _ & _ & Hres).
  destruct Hres as [(-> & _)|(_ & _ & Hlt)]; [by exists w'|]. vm_compute in Hlt. lia.
Defined.

Lemma uvmcopy_correct_witness :
  exists w', uvmcopy (top_page 8) (top_page 1) 8192 small_world = Ret 0 w'.
Proof.
  destruct (wp_run _ _ _ (uvmcopy_correct user_page (top_page 8) (top_page 1) [] [] small_st small_pool
    ∅ ∅ {[ [] := top_page 8 ]} small_mem 8192 2 small_hart (top_page 2) small_free {[ [] := top_page 1 ]}
    small_st_lock ltac:(llia) ltac:(llia) ltac:(lia) (small_range 2 ltac:(lia)) small_old
    ltac:(intros t Ht%elem_of_tpages; destruct Ht as [? [_ <-]%lookup_singleton_Some];
          apply (bool_decide_unpack _); vm_compute; exact Logic.I)
    ltac:(intros x v _ H; by rewrite lookup_empty in H) small_hart_is_ok (small_vm _)))
    as (r & w' & Hr & h' & m' & fl' & l' & T' & U' & _ & _ & _ & Hres).
  destruct Hres as [(-> & _)|(_ & _ & Hlt)]; [by exists w'|]. cbn in Hlt. lia.
Defined.

Lemma uvmfree_correct_witness :
  exists w', uvmfree (top_page 1) 8192 small_world = Ret tt w' /\
    exists m' fl' l', w'.(w_st) = set_km m' fl' small_st /\ kmem_inv m' fl' l' /\ l' ≡ₚ small_pool.
Proof.
  destruct (wp_run _ _ _ (uvmfree_correct user_page (top_page 1) [] [] small_st small_pool
    8192 ∅ small_hart small_mem (top_page 2) small_free {[ [] := top_page 1 ]}
    small_hart_is_ok small_st_lock (small_vm _) ltac:(llia)
    ltac:(intros x [? H]; by rewrite lookup_empty in H)))
    as ([] & w' & Hr & h' & m' & fl' & l' & -> & _ & _ & H1 & H2).
  eexists. split; [exact Hr|]. exists m', fl', l'.
  split; [reflexivity|]. split; assumption.
Defined.

Lemma copyin_correct_witness :
  exists bytes w', copyin (top_page 1) 100 5 small_world = Ret (0, bytes) w' /\ length bytes = 5%nat.
Proof.
  pose proof (copyin_correct user_page [] [] small_st 0 small_proc small_pool ∅ 100 5
    small_hart small_mem (top_page 2) small_free {[ [] := top_page 1 ]}
    small_current (small_vm user_page) small_user_owned ltac:(lia) ltac:(lia)) as H.
  apply wp_run in H. destruct H as ([r bytes] & w' & Hr & h' & m' & fl' & l' & T' & U' & _ & _ & _ & _ & _ & Hres).
  cbn in Hres. exists bytes, w'. destruct Hres as [[-> Hl]|[-> [(k & Hk & Hn)|[_ Hlt]]]].
  - split; [exact Hr|lia].
  - exfalso. clear Hr. revert Hn. unfold uview. rewrite lookup_empty.
    rewrite (PGROUNDDOWN_in 0) by (reflexivity || llia). discriminate.
  - exfalso. clear Hr. revert Hlt. vm_compute. lia.
Defined.

Lemma copyout_correct_witness :
  exists w', copyout (top_page 1) 4094 [1; 2; 3; 4] small_world = Ret 0 w'.
Proof.
  pose proof (copyout_correct user_page [] [] small_st 0 small_proc small_pool ∅ 4094 [1; 2; 3; 4]
    small_hart small_mem (top_page 2) small_free {[ [] := top_page 1 ]}
    small_current (small_vm user_page) small_user_owned ltac:(lia) ltac:(repeat constructor; lia)) as H.
  apply wp_run in H. destruct H as (r & w' & Hr & h' & m' & fl' & l' & T' & U' & k & _ & _ & _ & _ & _ & _ & _ & _ & Hres).
  exists w'. destruct Hres as [[-> _]|[-> [(j & Hj & Hn)|Hlt]]]; [exact Hr| |].
  - exfalso. clear Hr. revert Hn. unfold uwritable. rewrite lookup_empty. cbn in Hj |- *.
    pose proof (PGROUNDDOWN_bounds (4094 + j)). intros Hn%Z.ltb_ge. llia.
  - exfalso. clear Hr. revert Hlt. vm_compute. lia.
Defined.

Lemma copyout_copyin_roundtrip_witness :
  exists q w', (r ← copyout (top_page 1) 4094 [1; 2; 3; 4];
    if r =? 0 then q ← copyin (top_page 1) 4094 4; mret (Some q) else mret None) small_world = Ret q w' /\
    match q with Some q => q = (0, [1; 2; 3; 4]) | None => True end.
Proof.
  pose proof (copyout_copyin_roundtrip user_page [] [] small_st 0 small_proc small_pool ∅ 4094
    [1; 2; 3; 4] small_hart small_mem (top_page 2) small_free {[ [] := top_page 1 ]}
    small_current (small_vm user_page) small_user_owned ltac:(lia) ltac:(repeat constructor; lia)) as H.
  apply wp_run in H. destruct H as (q & w' & Hr & Hq).
  exists q, w'. split; [exact Hr|exact Hq].
Defined.

Lemma copyinstr_correct_witness :
  exists bytes, copyinstr (top_page 1) 0 16 small_world = Ret (-1, bytes) small_world.
Proof.
  destruct (copyinstr_correct user_page (top_page 1) ∅ {[ [] := top_page 1 ]} small_world (top_page 2)
    small_free small_pool 0 16 (small_vm user_page) small_user_owned ltac:(lia) ltac:(lia)) as [bytes H].
  exists bytes. exact H.
Defined.
