(* ===== verification/Sched.v ===== *)
(** * Processes and scheduling: kernel/proc.c

    The process table, sleep and wakeup, kill, and the page tables and
    kernel stacks of processes.  What needs the file system (fork, exit,
    wait, the first process) is in [Proc].

    swtch() saves the registers of this kernel thread and resumes the
    scheduler's; the thread continues when some hart's scheduler picks it
    again, holding p->lock on that hart.  That is one turn of the schedule
    [w_env], after which the thread runs on the hart of the turn. *)

From S2P Require Import Prelude Memory CString Riscv Machine Spinlock Kalloc Vm.

(** Addresses used only as wait channels. *)
Definition chan_proc (i : nat) : Z := 100000 + Z.of_nat i.
Definition chan_ticks : Z := 200001.
Definition chan_log : Z := 200002.
Definition chan_cons_r : Z := 200003.
Definition chan_tx : Z := 200004.
Definition chan_disk_free : Z := 200005.
Definition chan_buf (i : nat) : Z := 300000 + Z.of_nat i.
Definition chan_buf_lock (i : nat) : Z := 400000 + Z.of_nat i.
Definition chan_inode_lock (i : nat) : Z := 500000 + Z.of_nat i.
Definition chan_pipe_nread (pi : Z) : Z := 2 ^ 40 + 2 * pi.
Definition chan_pipe_nwrite (pi : Z) : Z := 2 ^ 40 + 2 * pi + 1.

Definition upd_proc (i : nat) (f : proc -> proc) : K unit :=
  modk (fun s => set_procs (alter f i s.(procs)) s).

Definition get_proc (i : nat) : K proc := the_proc (Some i).

(** The running process; the code that calls this dereferences it. *)
Definition cur_proc : K nat :=
  p ← myproc;
  match p with Some i => mret i | None => bad_pointer end.

Definition swtch : K unit := env_step true.

Definition sched : K unit :=
  i ← cur_proc;
  held ← holding (proc_lock i);
  if negb held then panic "sched p->lock" else
  noff ← geth h_noff;
  if negb (noff =? 1) then panic "sched locks" else
  p ← get_proc i;
  if bool_decide (p.(p_state) = RUNNING) then panic "sched RUNNING" else
  ie ← intr_get;
  if ie : bool then panic "sched interruptible" else
  intena ← geth h_intena;
  swtch;;
  modh (set_h_intena intena).

Definition yield : K unit :=
  i ← cur_proc;
  acquire (proc_lock i);;
  upd_proc i (set_p_state RUNNABLE);;
  sched;;
  release (proc_lock i).

Definition sleep (chan lk : Z) : K unit :=
  i ← cur_proc;
  acquire (proc_lock i);;
  release lk;;
  upd_proc i (set_p_chan chan);;
  upd_proc i (set_p_state SLEEPING);;
  sched;;
  upd_proc i (set_p_chan 0);;
  release (proc_lock i);;
  acquire lk.

Definition wakeup_one (chan : Z) (i : nat) : K unit :=
  me ← myproc;
  when (negb (bool_decide (Some i = me)))
    (acquire (proc_lock i);;
     p ← get_proc i;
     when (bool_decide (p.(p_state) = SLEEPING) && (p.(p_chan) =? chan))
       (upd_proc i (set_p_state RUNNABLE));;
     release (proc_lock i)).

Definition wakeup (chan : Z) : K unit := for_each (seq 0 NPROC) (wakeup_one chan).

Definition kkill (pid : Z) : K Z :=
  r ← find_each (seq 0 NPROC) (fun i =>
    acquire (proc_lock i);;
    p ← get_proc i;
    if p.(p_pid) =? pid then
      upd_proc i (set_p_killed 1);;
      when (bool_decide (p.(p_state) = SLEEPING)) (upd_proc i (set_p_state RUNNABLE));;
      release (proc_lock i);;
      mret (Some 0)
    else
      release (proc_lock i);;
      mret None);
  mret (default (-1) r).

Definition setkilled (i : nat) : K unit :=
  acquire (proc_lock i);;
  upd_proc i (set_p_killed 1);;
  release (proc_lock i).

Definition killed (i : nat) : K Z :=
  acquire (proc_lock i);;
  p ← get_proc i;
  let k := p.(p_killed) in
  release (proc_lock i);;
  mret k.

Section procs.
Context {I : Image}.

(** [src] is the bytes at the kernel address of the C code. *)
Definition either_copyout (user_dst : bool) (dst : Z) (src : list Z) : K Z :=
  i ← cur_proc;
  p ← get_proc i;
  if user_dst then copyout p.(p_pagetable) dst src
  else modmem (fun m => write_bytes m dst src);; mret 0.

Definition either_copyin (user_src : bool) (src len : Z) : K (Z * list Z) :=
  i ← cur_proc;
  p ← get_proc i;
  if user_src then copyin p.(p_pagetable) src len
  else bytes ← getk (fun s => read_bytes (Z.to_nat len) s.(mem) src); mret (0, bytes).

Definition allocpid : K Z :=
  acquire pid_lock;;
  pid ← getk nextpid;
  modk (fun s => set_nextpid (s32 (s.(nextpid) + 1)) s);;
  release pid_lock;;
  mret pid.

Definition proc_pagetable (trapframe : Z) : K Z :=
  pagetable ← uvmcreate;
  if pagetable =? 0 then mret 0 else
  r ← mappages pagetable TRAMPOLINE PGSIZE trampoline (Z.lor PTE_R PTE_X);
  if r <? 0 then uvmfree pagetable 0;; mret 0 else
  r ← mappages pagetable TRAPFRAME PGSIZE trapframe (Z.lor PTE_R PTE_W);
  if r <? 0 then
    uvmunmap pagetable TRAMPOLINE 1 false;;
    uvmfree pagetable 0;;
    mret 0
  else mret pagetable.

Definition proc_freepagetable (pagetable sz : Z) : K unit :=
  uvmunmap pagetable TRAMPOLINE 1 false;;
  uvmunmap pagetable TRAPFRAME 1 false;;
  uvmfree pagetable sz.

Definition freeproc (i : nat) : K unit :=
  p ← get_proc i;
  when (ztrue p.(p_trapframe)) (kfree p.(p_trapframe));;
  upd_proc i (set_p_trapframe 0);;
  when (ztrue p.(p_pagetable)) (proc_freepagetable p.(p_pagetable) p.(p_sz));;
  upd_proc i (set_p_pagetable 0);;
  upd_proc i (set_p_sz 0);;
  upd_proc i (set_p_pid 0);;
  upd_proc i (set_p_parent None);;
  upd_proc i (fun p => set_p_name (<[0%nat := 0]> p.(p_name)) p);;
  upd_proc i (set_p_chan 0);;
  upd_proc i (set_p_killed 0);;
  upd_proc i (set_p_xstate 0);;
  upd_proc i (set_p_state UNUSED).

(** The search of allocproc(): returns holding the lock of the process found. *)
Definition find_unused : K (option nat) :=
  find_each (seq 0 NPROC) (fun i =>
    acquire (proc_lock i);;
    p ← get_proc i;
    if bool_decide (p.(p_state) = UNUSED) then mret (Some i)
    else release (proc_lock i);; mret None).

Definition allocproc : K (option nat) :=
  found ← find_unused;
  match found with
  | None => mret None
  | Some i =>
      pid ← allocpid;
      upd_proc i (set_p_pid pid);;
      upd_proc i (set_p_state USED);;
      tf ← kalloc;
      upd_proc i (set_p_trapframe tf);;
      if tf =? 0 then
        freeproc i;;
        release (proc_lock i);;
        mret None
      else
      pt ← proc_pagetable tf;
      upd_proc i (set_p_pagetable pt);;
      if pt =? 0 then
        freeproc i;;
        release (proc_lock i);;
        mret None
      else
      p ← get_proc i;
      upd_proc i (set_p_context (Ctx forkret_addr (p.(p_kstack) + PGSIZE) (replicate 12 0)));;
      mret (Some i)
  end.

Definition growproc (n : Z) : K Z :=
  i ← cur_proc;
  p ← get_proc i;
  let sz := p.(p_sz) in
  if 0 <? n then
    sz ← uvmalloc p.(p_pagetable) sz (u64 (sz + n)) PTE_W;
    if sz =? 0 then mret (-1) else
    upd_proc i (set_p_sz sz);; mret 0
  else if n <? 0 then
    sz ← uvmdealloc p.(p_pagetable) sz (u64 (sz + n));
    upd_proc i (set_p_sz sz);; mret 0
  else upd_proc i (set_p_sz sz);; mret 0.

Definition proc_mapstacks (kpgtbl : Z) : K unit :=
  for_each (seq 0 NPROC) (fun i =>
    pa ← kalloc;
    if pa =? 0 then panic "kalloc" else
    kvmmap kpgtbl (KSTACK (Z.of_nat i)) pa PGSIZE (Z.lor PTE_R PTE_W)).

Definition procinit : K unit :=
  initlock pid_lock "nextpid";;
  initlock wait_lock "wait_lock";;
  for_each (seq 0 NPROC) (fun i =>
    initlock (proc_lock i) "proc";;
    upd_proc i (set_p_state UNUSED);;
    upd_proc i (set_p_kstack (KSTACK (Z.of_nat i)))).

(** kernel/vm.c: the kernel's page table. *)
Definition kvmmake : K Z :=
  kpgtbl ← kalloc;
  modmem (fun m => memset m kpgtbl 0 PGSIZE);;
  kvmmap kpgtbl UART0 UART0 PGSIZE (Z.lor PTE_R PTE_W);;
  kvmmap kpgtbl VIRTIO0 VIRTIO0 PGSIZE (Z.lor PTE_R PTE_W);;
  kvmmap kpgtbl PLIC PLIC 0x4000000 (Z.lor PTE_R PTE_W);;
  kvmmap kpgtbl KERNBASE KERNBASE (etext - KERNBASE) (Z.lor PTE_R PTE_X);;
  kvmmap kpgtbl etext etext (PHYSTOP - etext) (Z.lor PTE_R PTE_W);;
  kvmmap kpgtbl TRAMPOLINE trampoline PGSIZE (Z.lor PTE_R PTE_X);;
  proc_mapstacks kpgtbl;;
  mret kpgtbl.

Definition kvminit : K unit :=
  pt ← kvmmake;
  modk (set_kernel_pagetable pt).

Definition kvminithart : K unit :=
  pt ← getk kernel_pagetable;
  modh (set_h_satp (MAKE_SATP pt)).

End procs.

(** ** Runs of the operations *)

(** The tables of static size. *)
Definition sized (s : kstate) : Prop := length s.(procs) = NPROC.

(** What wakeup() does to one process. *)
Definition wake (chan : Z) (p : proc) : proc :=
  if bool_decide (p.(p_state) = SLEEPING) && (p.(p_chan) =? chan) then set_p_state RUNNABLE p else p.

(** What wakeup() called by [me] does to the process table. *)
Definition wake_all (me : option nat) (chan : Z) (l : list proc) : list proc :=
  imap (fun i p => if bool_decide (Some i = me) then p else wake chan p) l.

(** Every process lock is free, except possibly that of [me]. *)
Definition proc_locks_free (me : option nat) (s : kstate) : Prop :=
  forall i, (i < NPROC)%nat -> Some i <> me -> lock_free s (proc_lock i).

Lemma set_procs_id s : set_procs s.(procs) s = s.
Proof. by destruct s. Qed.

Lemma set_procs_twice l l' s : set_procs l (set_procs l' s) = set_procs l s.
Proof. done. Qed.

Lemma cur_proc_run h env tr s i :
  hart_ok h -> h.(h_proc) = Some i ->
  cur_proc (World h env tr s) = Ret i (World (settle h) env tr s).
Proof.
  intros Hh Hp. unfold cur_proc. erewrite bind_run by (by apply myproc_run). cbn. by rewrite Hp.
Qed.

Lemma get_proc_run h env tr s i p :
  s.(procs) !! i = Some p -> get_proc i (World h env tr s) = Ret p (World h env tr s).
Proof.
  intros Hp. unfold get_proc, the_proc. erewrite bind_run by reflexivity. cbn. by rewrite Hp.
Qed.

Lemma settle_proc h : (settle h).(h_proc) = h.(h_proc).
Proof. unfold settle. by destruct (h_noff h =? 0). Qed.

Lemma killed_run h env tr s i p :
  hart_ok h -> s.(procs) !! i = Some p -> lock_free s (proc_lock i) ->
  killed i (World h env tr s) = Ret p.(p_killed) (World (settle h) env tr s).
Proof.
  intros Hh Hp HL. unfold killed. erewrite bind_run by (by apply acquire_run).
  unfold acquired, set_w_hart, set_w_st. cbn.
  erewrite bind_run by (by apply get_proc_run).
  erewrite bind_run by (by apply (release_locked_run _ h _ _ _ s.(locks))).
  destruct s. done.
Qed.

Lemma wakeup_one_run h env tr s chan i p :
  hart_ok h -> s.(procs) !! i = Some p -> (Some i <> h.(h_proc) -> lock_free s (proc_lock i)) ->
  wakeup_one chan i (World h env tr s) =
  Ret tt (World (settle h) env tr
    (if bool_decide (Some i = h.(h_proc)) then s else set_procs (<[i := wake chan p]> s.(procs)) s)).
Proof.
  intros Hh Hp HL. unfold wakeup_one. erewrite bind_run by (by apply myproc_run). cbn.
  case_bool_decide as Hi; [done|]. cbn [negb when]. specialize (HL Hi). pose proof (settle_ok h Hh) as Hs.
  destruct s. cbn in *. unfold set_w_hart, set_w_st, set_locks. cbn.
  erewrite bind_run by (by apply acquire_run). unfold acquired, set_w_hart, set_w_st, set_locks. cbn.
  erewrite bind_run by (by apply get_proc_run). unfold wake.
  destruct (bool_decide (p_state p = SLEEPING) && (p_chan p =? chan)) eqn:E; cbn [when].
  - erewrite bind_run by reflexivity. unfold set_w_st, set_procs. cbn.
    rewrite (release_locked_run _ (settle h) _ _ _ locks) by (done || apply HL).
    rewrite settle_idemp. unfold set_locks. cbn. do 4 f_equal.
    by apply alter_as_insert.
  - erewrite bind_run by reflexivity.
    rewrite (release_locked_run _ (settle h) _ _ _ locks) by (done || apply HL).
    rewrite settle_idemp. unfold set_locks. cbn. do 4 f_equal. by rewrite list_insert_id.
Qed.

Lemma wakeup_from_run n : forall k h env tr s chan,
  hart_ok h -> proc_locks_free h.(h_proc) s -> (length s.(procs) = k + n)%nat -> (k + n <= NPROC)%nat ->
  for_each (seq k n) (wakeup_one chan) (World h env tr s) =
  Ret tt (World (if decide (n = 0)%nat then h else settle h) env tr
    (set_procs (imap (fun i p => if bool_decide (k <= i)%nat && negb (bool_decide (Some i = h.(h_proc)))
                                 then wake chan p else p) s.(procs)) s)).
Proof.
  induction n as [|n IH]; intros k h env tr s chan Hh HL Hlen Hmax; cbn [seq for_each].
  - rewrite decide_True by done. unfold mret, M_ret. do 2 f_equal. rewrite <-(set_procs_id s) at 1. f_equal.
    apply list_eq. intros i. rewrite list_lookup_imap. destruct (procs s !! i) as [p|] eqn:E; [|done].
    assert (i < k)%nat by (apply lookup_lt_Some in E; lia). by rewrite bool_decide_eq_false_2 by lia.
  - destruct (lookup_lt_is_Some_2 s.(procs) k ltac:(lia)) as [p Hp].
    erewrite bind_run by (apply wakeup_one_run; [done|done|]; intros Hk; apply HL; [lia|done]).
    set (s1 := if bool_decide (Some k = h_proc h) then s else set_procs (<[k := wake chan p]> s.(procs)) s).
    assert (Hs1 : exists l, s1 = set_procs l s /\ length l = length s.(procs) /\
      forall i, l !! i = if bool_decide (i = k) && negb (bool_decide (Some i = h.(h_proc)))
                         then Some (wake chan p) else s.(procs) !! i).
    { unfold s1. case_bool_decide as Hk.
      - exists s.(procs). rewrite set_procs_id. split_and!; [done..|]. intros i. case_bool_decide as Hi; [|done].
        subst i. by rewrite bool_decide_eq_true_2.
      - eexists. split; [done|]. split; [by rewrite length_insert|]. intros i. case_bool_decide as Hi.
        + subst i. rewrite bool_decide_eq_false_2 by done. apply list_lookup_insert_eq. lia.
        + by rewrite list_lookup_insert_ne. }
    destruct Hs1 as (l & -> & Hl & Hlook).
    rewrite IH; [|by apply settle_ok|by rewrite settle_proc|cbn; lia|lia].
    rewrite settle_proc. cbn [procs set_procs]. rewrite set_procs_twice.
    rewrite (decide_False (P := S n = 0%nat)) by done. do 2 f_equal.
    + case_decide; [done|]. by rewrite settle_idemp.
    + f_equal. apply list_eq. intros i. rewrite !list_lookup_imap, Hlook.
      destruct (decide (i = k)) as [->|Hne].
      * rewrite (bool_decide_eq_true_2 (k = k)) by done. rewrite Hp.
        rewrite (bool_decide_eq_false_2 (S k <= k)%nat), (bool_decide_eq_true_2 (k <= k)%nat) by lia.
        by destruct (negb (bool_decide (Some k = h_proc h))).
      * rewrite (bool_decide_eq_false_2 (i = k)) by done. cbn [andb].
        destruct (procs s !! i) as [q|]; [|done]. cbn. do 2 f_equal.
        by rewrite (bool_decide_ext (S k <= i)%nat (k <= i)%nat) by lia.
Qed.

(** wakeup() makes exactly the processes sleeping on [chan] runnable, except
    the caller. *)
Lemma wakeup_run h env tr s chan :
  hart_ok h -> proc_locks_free h.(h_proc) s -> sized s ->
  wakeup chan (World h env tr s) =
  Ret tt (World (settle h) env tr (set_procs (wake_all h.(h_proc) chan s.(procs)) s)).
Proof.
  intros Hh HL Hs. unfold wakeup. rewrite wakeup_from_run; [|done|done|done|done].
  rewrite decide_False by done. do 4 f_equal. unfold wake_all. apply imap_ext.
  intros i p _. rewrite (bool_decide_eq_true_2 (0 <= i)%nat) by lia.
  by destruct (bool_decide (Some i = h_proc h)).
Qed.

(** ** Sleeping *)

Lemma settle_push h : hart_ok h -> settle (hart_push h) = hart_push h.
Proof.
  intros [Hn _]. unfold settle. cbn. destruct (Z.eqb_spec (h_noff h + 1) 0); [lia|done].
Qed.

(** The state in which a sleeping thread resumes: the scheduler of its hart
    holds p->lock, the condition lock is free. *)
Record resumed (i : nat) (lk hart : Z) (L : gmap Z spinlock) (p : proc) (s : kstate) : Prop := {
  rs_locks : s.(locks) = lock_by hart (proc_lock i) L;
  rs_mine : exists name, L !! proc_lock i = Some (free_lock name);
  rs_lk : exists name, L !! lk = Some (free_lock name);
  rs_proc : s.(procs) !! i = Some p;
}.

(** The state a sleeping thread leaves behind. *)
Definition asleep (i : nat) (chan hart : Z) (L : gmap Z spinlock) (p : proc) (s : kstate) : kstate :=
  set_procs (<[i := set_p_state SLEEPING (set_p_chan chan p)]> s.(procs))
    (set_locks (lock_by hart (proc_lock i) L) s).

(** The state after sleep() has returned. *)
Definition woken (i : nat) (lk hart : Z) (L : gmap Z spinlock) (p : proc) (s : kstate) : kstate :=
  set_procs (<[i := set_p_chan 0 p]> s.(procs)) (set_locks (lock_by hart lk L) s).

Lemma sched_wpx B (Q : unit -> world -> Prop) h env tr s i p l :
  hart_ok h -> h.(h_noff) = 1 -> h.(h_proc) = Some i -> s.(procs) !! i = Some p ->
  p.(p_state) <> RUNNING ->
  s.(locks) !! proc_lock i = Some l -> l.(lk_locked) = 1 -> l.(lk_cpu) = Some h.(h_tp) ->
  match env with
  | [] => B (World h [] tr s)
  | t :: env => Q tt (World (set_h_tp t.(t_hart) h) env tr (t.(t_fun) s))
  end ->
  wpx B sched Q (World h env tr s).
Proof.
  intros Hh Hn Hp Hs Hst HL Hl1 Hl2 Hcase.
  assert (Hset : settle h = h) by (unfold settle; rewrite Hn; done).
  assert (Hsie : intr_get (World h env tr s) = Ret false (World h env tr s)).
  { unfold intr_get, mbind, M_bind, geth, gets. cbn -[Z.land]. rewrite intr_get_testbit.
    destruct Hh as [_ Hh]. unfold h_sie in Hh. by rewrite Hh by lia. }
  unfold sched. eapply wpx_bind, run_wp; [by apply cur_proc_run|]. rewrite Hset.
  eapply wpx_bind, run_wp; [by apply holding_run|]. cbn. rewrite Hl1, Hl2.
  rewrite bool_decide_eq_true_2 by done. change (ztrue 1 && true) with true. cbn [negb].
  kstep. kstep. cbn [w_hart]. rewrite Hn. cbn [Z.eqb negb]. change (1 =? 1) with true. cbn [negb].
  eapply wpx_bind, run_wp; [by apply get_proc_run|]. rewrite bool_decide_eq_false_2 by done.
  eapply wpx_bind, run_wp; [exact Hsie|]. cbv beta iota. kstep. kstep. cbn [w_hart]. kstep.
  unfold swtch, env_step, wpx. cbn. destruct env as [|t env]; [done|]. cbn.
  rewrite <-Hset in Hcase. unfold settle in Hcase. rewrite Hn in Hcase. cbn in Hcase.
  unfold settle. destruct h. cbn in *. done.
Qed.

Lemma lock_by_comm h k k' L : k <> k' -> lock_by h k (lock_by h k' L) = lock_by h k' (lock_by h k L).
Proof.
  intros H. unfold lock_by. apply map_eq. intros j. rewrite !lookup_alter.
  repeat case_decide; congruence.
Qed.

Lemma lookup_lock_by_ne h k k' L : k <> k' -> lock_by h k L !! k' = L !! k'.
Proof. intros H. unfold lock_by. by apply lookup_alter_ne. Qed.

Lemma lookup_lock_by h k L name :
  L !! k = Some (free_lock name) -> lock_by h k L !! k = Some (Spinlock 1 name (Some h)).
Proof. intros H. unfold lock_by. rewrite lookup_alter_eq, H. done. Qed.

(** sleep(): the condition lock, held on entry, is free while the thread is
    asleep, and held again on return, on the hart of the turn. *)
Lemma wpx_sleep B (Q : unit -> world -> Prop) h env tr s i p chan lk L :
  hart_ok h -> h.(h_noff) = 0 -> h.(h_proc) = Some i -> s.(procs) !! i = Some p ->
  s.(locks) = lock_by h.(h_tp) lk L -> lk <> proc_lock i ->
  (exists name, L !! proc_lock i = Some (free_lock name)) ->
  (exists name, L !! lk = Some (free_lock name)) ->
  match env with
  | [] => B (World (hart_push h) [] tr (asleep i chan h.(h_tp) L p s))
  | t :: env => exists L' p',
      resumed i lk t.(t_hart) L' p' (t.(t_fun) (asleep i chan h.(h_tp) L p s)) /\
      Q tt (World (hart_push (settle (set_h_tp t.(t_hart) h))) env tr
              (woken i lk t.(t_hart) L' p' (t.(t_fun) (asleep i chan h.(h_tp) L p s))))
  end ->
  wpx B (sleep chan lk) Q (World (hart_push h) env tr s).
Proof.
  intros Hh Hn Hp Hs HL Hne [n1 Hn1] [n2 Hn2] Hcase. unfold sleep.
  pose proof (hart_push_ok h Hh) as Hh1.
  eapply wpx_bind, run_wp; [by apply cur_proc_run|]. rewrite settle_push by done.
  eapply wpx_bind, wpx_acquire.
  { exists n1. cbn. rewrite HL. by rewrite lookup_lock_by_ne. }
  unfold acquired, set_w_hart, set_w_st. cbn. rewrite HL, lock_by_comm by done.
  eapply wpx_bind, (wpx_release _ _ _ (hart_push h) _ _ _ (lock_by h.(h_tp) (proc_lock i) L)); [done| |done|].
  { exists n2. by rewrite lookup_lock_by_ne. }
  rewrite settle_push by done. unfold upd_proc. kstep. kstep. kstep. kstep. cbn beta.
  unfold set_w_st. cbn [w_hart w_env w_trace w_st].
  set (s1 := asleep i chan h.(h_tp) L p s) in *.
  match goal with |- wpx _ _ _ (World _ _ _ ?s') => replace s' with s1 end.
  2:{ unfold s1, asleep. destruct s. unfold set_procs, set_locks. cbn in *. f_equal.
      rewrite (alter_as_insert _ procs i p) by done.
      rewrite (alter_as_insert _ _ i (set_p_chan chan p)).
      - by rewrite list_insert_insert_eq.
      - apply list_lookup_insert_eq. by eapply lookup_lt_Some. }
  eapply wpx_bind, (sched_wpx _ _ _ _ _ _ i (set_p_state SLEEPING (set_p_chan chan p))); try done.
  - cbn. lia.
  - unfold s1. cbn. apply list_lookup_insert_eq. by eapply lookup_lt_Some.
  - unfold s1. cbn. by apply lookup_lock_by.
  - done.
  - done.
  - destruct env as [|t env]; [done|]. destruct Hcase as (L' & p' & [R1 R2 R3 R4] & HQ).
    set (s2 := t_fun t s1) in *. unfold upd_proc. kstep. kstep. unfold set_w_st. cbn [w_hart w_env w_trace w_st].
    change (set_h_tp (t_hart t) (hart_push h)) with (hart_push (set_h_tp (t_hart t) h)).
    eapply wpx_bind, (wpx_release _ _ _ (set_h_tp (t_hart t) h) _ _ _ L'); [done|done| |].
    { cbn. done. }
    apply wpx_acquire; [by destruct R3 as [n3 R3]; exists n3|].
    unfold acquired, set_w_hart, set_w_st. cbn.
    match goal with |- Q tt (World ?h1 _ _ ?s') =>
      replace s' with (woken i lk (t_hart t) L' p' s2) end; [done|].
    unfold woken. destruct s2. unfold set_procs, set_locks. cbn in *.
    rewrite (alter_as_insert _ procs i p') by done.
    replace (h_tp (settle (set_h_tp (t_hart t) h))) with (t_hart t); [done|].
    unfold settle. by destruct (_ =? 0).
Qed.
