(* ===== verification/Demo.v ===== *)
(** * A small machine

    Concrete states in which the hypotheses of the theorems hold: a process
    that owns one page of zeroed, writable memory, on an otherwise idle
    kernel whose locks are all free. *)

From S2P Require Import Prelude Memory CString Riscv Machine Spinlock Kalloc Vm Pagetable Uvm UserCopy VmSpec Sched.

#[local] Existing Instances small_image small_image_ok.

#[export] Instance spinlock_eq_dec : EqDecision spinlock.
Proof. solve_decision. Defined.

(** Every lock of the kernel, and one of a page that starts a pipe. *)
Definition demo_pipe : Z := KERNBASE.
Definition demo_keys : list Z := seqZ 1 12 ++ (proc_lock <$> seq 0 NPROC) ++ [demo_pipe].
Definition demo_locks : gmap Z spinlock := list_to_map ((fun k => (k, free_lock "")) <$> demo_keys).

Definition demo_proc : proc := set_p_state RUNNING (set_p_sz PGSIZE (set_p_pagetable (top_page 1) zero_proc)).
Definition demo_st : kstate :=
  set_procs (demo_proc :: replicate (NPROC - 1) zero_proc) (set_locks demo_locks zero_kstate).
Definition demo_hart : hart := set_h_proc (Some 0%nat) zero_hart.

Lemma demo_lock_free k : k ∈ demo_keys -> lock_free demo_st k.
Proof.
  intros Hk. exists "". unfold demo_st. cbn [locks set_procs set_locks].
  assert (H : forallb (fun k => bool_decide (demo_locks !! k = Some (free_lock ""))) demo_keys = true)
    by (vm_compute; reflexivity).
  rewrite forallb_forall in H. apply list_elem_of_In in Hk. by apply H, bool_decide_eq_true in Hk.
Qed.

Lemma demo_proc_lock j : (j < NPROC)%nat -> lock_free demo_st (proc_lock j).
Proof.
  intros Hj. apply demo_lock_free. unfold demo_keys. apply elem_of_app. right. apply elem_of_app. left.
  apply list_elem_of_fmap. exists j. split; [done|]. apply elem_of_seq. lia.
Qed.

Lemma demo_static_lock k : 1 <= k <= 12 -> lock_free demo_st k.
Proof. intros Hk. apply demo_lock_free. unfold demo_keys. apply elem_of_app. left. apply elem_of_seqZ. lia. Qed.

Lemma demo_pipe_lock : lock_free demo_st demo_pipe.
Proof.
  apply demo_lock_free. unfold demo_keys. apply elem_of_app. right. apply elem_of_app. right.
  by apply list_elem_of_singleton.
Qed.

Lemma demo_sized : sized demo_st.
Proof. reflexivity. Qed.

Lemma demo_hart_ok : hart_ok demo_hart.
Proof. split; cbn; lia. Qed.

(** The memory of the process: the page at 0. *)
Record demo_mem (m : memory) (fl : Z) (l : list Z) (T : tables) (U : gmap Z Z) : Prop := {
  dm_vm : vm_inv user_page m fl (top_page 1) l T U small_pool;
  dm_owned : user_owned user_page U;
  dm_page va : 0 <= va < PGSIZE -> exists v, U !! PGROUNDDOWN va = Some v /\
    pte_user v = true /\ pte_writable v = true;
  dm_zero va : 0 <= va < PGSIZE -> uview U m PGSIZE va = Some 0;
  dm_none va : PGSIZE <= va -> U !! va = None;
}.

Lemma demo_mem_exists : exists m fl l T U, demo_mem m fl l T U.
Proof.
  destruct (wp_run _ _ _ (wp_uvmalloc user_page (top_page 1) [] [] small_st small_pool 0 PGSIZE PTE_W ∅
    small_hart small_mem (top_page 2) small_free {[ [] := top_page 1 ]} small_hart_is_ok small_st_lock (small_vm _)
    ltac:(llia) ltac:(llia) ltac:(by vm_compute) (small_range 1 ltac:(lia))))
    as (r & w' & Hr & h' & m' & fl' & l' & T' & U' & _ & _ & Hv & Hres). clear Hr.
  destruct Hres as [(-> & [H1 H2] & _)|(_ & _ & Hlt)]; [|exfalso; vm_compute in Hlt; lia].
  change (alloc_pages 0 PGSIZE) with 1%nat in *. change (PGROUNDUP 0) with 0 in *.
  destruct (H1 0) as (_ & pa & Hpa & HU & Hz); [by apply elem_of_page_range; [|split; [|llia]]|].
  set (v := new_pte pa (Z.lor (Z.lor PTE_R PTE_U) PTE_W)) in *.
  destruct (new_pte_page pa (Z.lor (Z.lor PTE_R PTE_U) PTE_W) Hpa ltac:(by vm_compute)) as (_ & HPA & Hfl).
  fold v in HPA, Hfl.
  assert (Hbit : forall k, 0 <= k < 10 -> Z.testbit v k = Z.testbit (PTE_FLAGS v) k).
  { intros k Hk. unfold PTE_FLAGS. rewrite Z.land_spec. change 0x3FF with (Z.ones 10).
    rewrite Z.ones_spec_low by lia. by rewrite andb_true_r. }
  assert (Hu : pte_user v = true /\ pte_writable v = true).
  { unfold pte_user, pte_writable. rewrite !Hbit, Hfl by lia. by vm_compute. }
  assert (Hrd : forall va, 0 <= va < PGSIZE -> PGROUNDDOWN va = 0).
  { intros va Hva. by apply (PGROUNDDOWN_in 0); [|llia]. }
  exists m', fl', l', T', U'. split; [done|..].
  - intros va v' HS Hu'. destruct (decide (va = 0)) as [->|Hne]; [done|].
    rewrite H2 in HS; [by rewrite lookup_empty in HS|]. rewrite elem_of_page_range by done. intros [Ha Hb].
    apply Hne. unfold page_aligned in Ha. rewrite Z.mod_small in Ha by llia. done.
  - intros va Hva. rewrite Hrd by done. exists v. split; [done|apply Hu].
  - intros va Hva. unfold uview. rewrite Hrd, HU by done. rewrite (proj1 Hu). f_equal. apply Hz.
    rewrite HPA. unfold in_page. llia.
  - intros va Hva. rewrite H2; [apply lookup_empty|]. rewrite elem_of_page_range by done. intros [_ ?]. llia.
Qed.
