(* ===== verification/Sleeplock.v ===== *)
(** * Sleep-locks: kernel/sleeplock.c

    A sleep-lock is part of a buffer or of an in-memory inode; [slref] names
    it the way a [struct sleeplock *] does. *)

From S2P Require Import Prelude Memory Riscv Machine Spinlock Kalloc Vm Sched.

Inductive slref := SLbuf (i : nat) | SLinode (i : nat).

(** The spinlock inside the sleep-lock and the channel to sleep on. *)
Definition sl_lk (r : slref) : Z :=
  match r with SLbuf i => buf_lk i | SLinode i => inode_lk i end.
Definition sl_chan (r : slref) : Z :=
  match r with SLbuf i => chan_buf_lock i | SLinode i => chan_inode_lock i end.

Definition get_sl (r : slref) (s : kstate) : sleeplock :=
  match r with
  | SLbuf i => default zero_sleeplock (b_lock <$> s.(bufs) !! i)
  | SLinode i => default zero_sleeplock (i_lock <$> s.(itable) !! i)
  end.

Definition set_sl (r : slref) (l : sleeplock) (s : kstate) : kstate :=
  match r with
  | SLbuf i => set_bufs (alter (set_b_lock l) i s.(bufs)) s
  | SLinode i => set_itable (alter (set_i_lock l) i s.(itable)) s
  end.

Definition upd_sl (r : slref) (f : sleeplock -> sleeplock) : K unit :=
  modk (fun s => set_sl r (f (get_sl r s)) s).

Definition initsleeplock (r : slref) (name : string) : K unit :=
  initlock (sl_lk r) "sleep lock";;
  upd_sl r (set_sl_name name);;
  upd_sl r (set_sl_locked 0);;
  upd_sl r (set_sl_pid 0).

(** [while (lk->locked) sleep(lk, &lk->lk);]  Every sleep takes a turn of the
    schedule, so its length bounds the iterations. *)
Fixpoint acquiresleep_wait (fuel : nat) (r : slref) : K unit :=
  l ← getk (get_sl r);
  if ztrue l.(sl_locked) then
    match fuel with
    | O => no_fuel
    | S fuel => sleep (sl_chan r) (sl_lk r);; acquiresleep_wait fuel r
    end
  else mret tt.

Definition acquiresleep (r : slref) : K unit :=
  acquire (sl_lk r);;
  fuel ← gets (fun w => S (length w.(w_env)));
  acquiresleep_wait fuel r;;
  upd_sl r (set_sl_locked 1);;
  i ← cur_proc;
  p ← get_proc i;
  upd_sl r (set_sl_pid p.(p_pid));;
  release (sl_lk r).

Definition releasesleep (r : slref) : K unit :=
  acquire (sl_lk r);;
  upd_sl r (set_sl_locked 0);;
  upd_sl r (set_sl_pid 0);;
  wakeup (sl_chan r);;
  release (sl_lk r).

Definition holdingsleep (r : slref) : K bool :=
  acquire (sl_lk r);;
  l ← getk (get_sl r);
  b ← (if ztrue l.(sl_locked) then
         i ← cur_proc;
         p ← get_proc i;
         mret (l.(sl_pid) =? p.(p_pid))
       else mret false);
  release (sl_lk r);;
  mret b.
