(* ===== verification/Dyn.v ===== *)
(** * The state of the storage layers

    The part of the kernel state that the buffer cache, the log and the
    inode layer change, as a record of its own: proofs about these layers
    keep the state in the form [dset D s], where [s] is the rest.  Sleeping
    processes may become runnable at any time; [woke] says that nothing else
    happened to the process table. *)

From S2P Require Import Prelude Memory Riscv Machine Spinlock Kalloc Vm Sched Sleeplock.

Record dyn := Dyn {
  d_locks : gmap Z spinlock;
  d_procs : list proc;
  d_bufs : list buf;
  d_bhead : nat * nat;
  d_disk : gmap Z (list Z);
  d_log : logstate;
  d_sb : superblock;
  d_itable : list inode
}.

Definition set_d_locks (x : gmap Z spinlock) (D : dyn) : dyn :=
  Dyn x D.(d_procs) D.(d_bufs) D.(d_bhead) D.(d_disk) D.(d_log) D.(d_sb) D.(d_itable).
Definition set_d_procs (x : list proc) (D : dyn) : dyn :=
  Dyn D.(d_locks) x D.(d_bufs) D.(d_bhead) D.(d_disk) D.(d_log) D.(d_sb) D.(d_itable).
Definition set_d_bufs (x : list buf) (D : dyn) : dyn :=
  Dyn D.(d_locks) D.(d_procs) x D.(d_bhead) D.(d_disk) D.(d_log) D.(d_sb) D.(d_itable).
Definition set_d_bhead (x : nat * nat) (D : dyn) : dyn :=
  Dyn D.(d_locks) D.(d_procs) D.(d_bufs) x D.(d_disk) D.(d_log) D.(d_sb) D.(d_itable).
Definition set_d_disk (x : gmap Z (list Z)) (D : dyn) : dyn :=
  Dyn D.(d_locks) D.(d_procs) D.(d_bufs) D.(d_bhead) x D.(d_log) D.(d_sb) D.(d_itable).
Definition set_d_log (x : logstate) (D : dyn) : dyn :=
  Dyn D.(d_locks) D.(d_procs) D.(d_bufs) D.(d_bhead) D.(d_disk) x D.(d_sb) D.(d_itable).
Definition set_d_sb (x : superblock) (D : dyn) : dyn :=
  Dyn D.(d_locks) D.(d_procs) D.(d_bufs) D.(d_bhead) D.(d_disk) D.(d_log) x D.(d_itable).
Definition set_d_itable (x : list inode) (D : dyn) : dyn :=
  Dyn D.(d_locks) D.(d_procs) D.(d_bufs) D.(d_bhead) D.(d_disk) D.(d_log) D.(d_sb) x.

Definition dset (D : dyn) (s : kstate) : kstate :=
  Kstate s.(mem) s.(freelist) D.(d_locks) D.(d_procs) s.(nextpid) s.(initproc) s.(ticks)
    D.(d_bufs) D.(d_bhead) D.(d_disk) D.(d_log) D.(d_sb) D.(d_itable) s.(ftable) s.(pipes)
    s.(cons) s.(tx_busy) s.(devsw) s.(kernel_pagetable) s.(panicking) s.(panicked) s.(started)
    s.(fork_first) s.(vdsk).

Definition dget (s : kstate) : dyn :=
  Dyn s.(locks) s.(procs) s.(bufs) s.(bhead) s.(disk) s.(log) s.(sb) s.(itable).

Lemma dset_dget s : dset (dget s) s = s.
Proof. by destruct s. Qed.

Lemma dset_dset D D' s : dset D (dset D' s) = dset D s.
Proof. done. Qed.

Lemma dset_inj D D' s : dset D s = dset D' s -> D = D'.
Proof. intros H. apply (f_equal dget) in H. destruct D, D'. exact H. Qed.

(** ** Processes that were woken *)

(** [woke me l l']: some processes other than [me] went from sleeping to
    runnable. *)
Definition woke (me : option nat) (l l' : list proc) : Prop :=
  length l = length l' /\
  forall i p, l !! i = Some p -> exists p', l' !! i = Some p' /\
    (p' = p \/ Some i <> me /\ p.(p_state) = SLEEPING /\ p' = set_p_state RUNNABLE p).

Lemma woke_refl me l : woke me l l.
Proof. split; [done|]. eauto. Qed.

Lemma woke_trans me l1 l2 l3 : woke me l1 l2 -> woke me l2 l3 -> woke me l1 l3.
Proof.
  intros [L1 H1] [L2 H2]. split; [congruence|]. intros i p Hp.
  destruct (H1 i p Hp) as (p2 & Hp2 & C1). destruct (H2 i p2 Hp2) as (p3 & Hp3 & C2).
  exists p3. split; [done|]. destruct C1 as [->|(? & Hs & ->)]; [done|].
  destruct C2 as [->|(_ & Hs2 & _)]; [by right|done].
Qed.

Lemma woke_wake_all me chan l : woke me l (wake_all me chan l).
Proof.
  unfold wake_all. split; [by rewrite length_imap|]. intros i p Hp. eexists.
  split; [by rewrite list_lookup_imap, Hp|]. cbn. case_bool_decide as Hi; [auto|].
  unfold wake. destruct (bool_decide (p_state p = SLEEPING)) eqn:E; cbn; [|auto].
  apply bool_decide_eq_true in E. destruct (p_chan p =? chan); [right; auto|auto].
Qed.

(** The caller's own entry stays. *)
Lemma woke_me i l l' p : woke (Some i) l l' -> l !! i = Some p -> l' !! i = Some p.
Proof. intros [_ H] Hp. destruct (H i p Hp) as (p' & Hp' & [->|(? & _)]); done. Qed.

Lemma woke_length me l l' : woke me l l' -> length l' = length l.
Proof. by intros [-> _]. Qed.

(** ** Accesses *)

Section access.
Context (B : world -> Prop) (h : hart) (env : list turn) (tr : list event) (D : dyn) (s : kstate).

Lemma wpx_dget {A} (f : kstate -> A) (Q : A -> world -> Prop) :
  Q (f (dset D s)) (World h env tr (dset D s)) -> wpx B (getk f) Q (World h env tr (dset D s)).
Proof. done. Qed.

Lemma wpx_dmod (f : kstate -> kstate) (Q : unit -> world -> Prop) D' :
  f (dset D s) = dset D' s -> Q tt (World h env tr (dset D' s)) ->
  wpx B (modk f) Q (World h env tr (dset D s)).
Proof. intros Hf HQ. unfold wpx, modk, modify, set_w_st. cbn. by rewrite Hf. Qed.

Lemma wpx_dacquire lk (Q : unit -> world -> Prop) :
  (exists name, D.(d_locks) !! lk = Some (free_lock name)) ->
  Q tt (World (hart_push h) env tr (dset (set_d_locks (lock_by h.(h_tp) lk D.(d_locks)) D) s)) ->
  wpx B (acquire lk) Q (World h env tr (dset D s)).
Proof. intros HL HQ. apply wpx_acquire; [exact HL|exact HQ]. Qed.

Lemma wpx_drelease lk L (Q : unit -> world -> Prop) :
  hart_ok h -> (exists name, L !! lk = Some (free_lock name)) ->
  D.(d_locks) = lock_by h.(h_tp) lk L ->
  Q tt (World (settle h) env tr (dset (set_d_locks L D) s)) ->
  wpx B (release lk) Q (World (hart_push h) env tr (dset D s)).
Proof. intros Hh HL Hs HQ. eapply wpx_release; [done|exact HL|exact Hs|exact HQ]. Qed.

Lemma wpx_dcur_proc i (Q : nat -> world -> Prop) :
  hart_ok h -> h.(h_proc) = Some i ->
  Q i (World (settle h) env tr (dset D s)) -> wpx B cur_proc Q (World h env tr (dset D s)).
Proof. intros Hh Hp HQ. eapply run_wp; [by apply cur_proc_run|done]. Qed.

Lemma wpx_dget_proc i p (Q : proc -> world -> Prop) :
  D.(d_procs) !! i = Some p ->
  Q p (World h env tr (dset D s)) -> wpx B (get_proc i) Q (World h env tr (dset D s)).
Proof. intros Hp HQ. eapply run_wp; [by apply get_proc_run|done]. Qed.

Lemma wpx_dwakeup chan (Q : unit -> world -> Prop) :
  hart_ok h -> (forall i, (i < NPROC)%nat -> Some i <> h.(h_proc) ->
    exists name, D.(d_locks) !! proc_lock i = Some (free_lock name)) ->
  length D.(d_procs) = NPROC ->
  (forall P, woke h.(h_proc) D.(d_procs) P -> Q tt (World (settle h) env tr (dset (set_d_procs P D) s))) ->
  wpx B (wakeup chan) Q (World h env tr (dset D s)).
Proof.
  intros Hh HL Hlen HQ. eapply run_wp; [by apply wakeup_run|]. apply (HQ (wake_all _ chan _)), woke_wake_all.
Qed.

End access.

(** ** Free locks *)

(** Every spinlock of these layers is initialised and free. *)
Record calm (L : gmap Z spinlock) : Prop := {
  calm_proc i : (i < NPROC)%nat -> exists name, L !! proc_lock i = Some (free_lock name);
  calm_buf i : (i < NBUF)%nat -> exists name, L !! buf_lk i = Some (free_lock name);
  calm_inode i : (i < NINODE)%nat -> exists name, L !! inode_lk i = Some (free_lock name);
  calm_bcache : exists name, L !! bcache_lock = Some (free_lock name);
  calm_log : exists name, L !! log_lock = Some (free_lock name);
  calm_itable : exists name, L !! itable_lock = Some (free_lock name);
}.

(** The lock ids are distinct. *)
Lemma proc_lock_ne i k : k < 1000 \/ 2000 <= k -> (i < NPROC)%nat -> k <> proc_lock i.
Proof. unfold proc_lock, NPROC. lia. Qed.

Lemma calm_proc_held L hart lk i :
  calm L -> lk < 1000 \/ 2000 <= lk -> (i < NPROC)%nat ->
  exists name, lock_by hart lk L !! proc_lock i = Some (free_lock name).
Proof.
  intros HL Hk Hi. destruct (calm_proc L HL i Hi) as [name Hn]. exists name.
  rewrite lookup_lock_by_ne; [done|]. by apply proc_lock_ne.
Qed.

(** ** Sleep-locks *)

Definition sl_valid (r : slref) (D : dyn) : Prop :=
  match r with
  | SLbuf i => (i < length D.(d_bufs))%nat /\ (i < NBUF)%nat
  | SLinode i => (i < length D.(d_itable))%nat /\ (i < NINODE)%nat
  end.

Definition dsl (r : slref) (D : dyn) : sleeplock :=
  match r with
  | SLbuf i => default zero_sleeplock (b_lock <$> D.(d_bufs) !! i)
  | SLinode i => default zero_sleeplock (i_lock <$> D.(d_itable) !! i)
  end.

Definition dset_sl (r : slref) (l : sleeplock) (D : dyn) : dyn :=
  match r with
  | SLbuf i => set_d_bufs (alter (set_b_lock l) i D.(d_bufs)) D
  | SLinode i => set_d_itable (alter (set_i_lock l) i D.(d_itable)) D
  end.

Lemma get_sl_dset r D s : get_sl r (dset D s) = dsl r D.
Proof. by destruct r. Qed.

Lemma set_sl_dset r l D s : set_sl r l (dset D s) = dset (dset_sl r l D) s.
Proof. by destruct r. Qed.

Lemma dset_sl_twice r l l' D : dset_sl r l (dset_sl r l' D) = dset_sl r l D.
Proof.
  destruct r as [i|i]; cbn; unfold set_d_bufs, set_d_itable; cbn; f_equal;
    apply list_eq; intros j; (destruct (decide (i = j)) as [<-|Hne];
      [rewrite !list_lookup_alter_eq|by rewrite !list_lookup_alter_ne by done]).
  - by destruct (d_bufs D !! i).
  - by destruct (d_itable D !! i).
Qed.

Lemma dsl_dset_sl r l D : sl_valid r D -> dsl r (dset_sl r l D) = l.
Proof.
  destruct r as [i|i]; cbn; intros [Hi _]; rewrite list_lookup_alter_eq;
    destruct (lookup_lt_is_Some_2 _ _ Hi) as [b Hb]; by rewrite Hb.
Qed.

Lemma dset_sl_locks r l D : (dset_sl r l D).(d_locks) = D.(d_locks).
Proof. by destruct r. Qed.

Lemma dset_sl_procs r l D : (dset_sl r l D).(d_procs) = D.(d_procs).
Proof. by destruct r. Qed.

Lemma dset_sl_set_locks r l L D : dset_sl r l (set_d_locks L D) = set_d_locks L (dset_sl r l D).
Proof. by destruct r. Qed.

Lemma dset_sl_set_procs r l P D : dset_sl r l (set_d_procs P D) = set_d_procs P (dset_sl r l D).
Proof. by destruct r. Qed.

Lemma dsl_set_locks r L D : dsl r (set_d_locks L D) = dsl r D.
Proof. by destruct r. Qed.

Lemma dsl_set_procs r P D : dsl r (set_d_procs P D) = dsl r D.
Proof. by destruct r. Qed.

Lemma set_d_locks_twice L L' D : set_d_locks L (set_d_locks L' D) = set_d_locks L D.
Proof. done. Qed.

Lemma sl_valid_set r l L P D :
  sl_valid r D -> sl_valid r (set_d_locks L D) /\ sl_valid r (set_d_procs P D) /\
  sl_valid r (dset_sl r l D).
Proof. destruct r; cbn; rewrite ?length_alter; auto. Qed.

Lemma set_d_locks_id D : set_d_locks D.(d_locks) D = D.
Proof. by destruct D. Qed.

Lemma calm_sl L r D : calm L -> sl_valid r D -> exists name, L !! sl_lk r = Some (free_lock name).
Proof. intros HL Hr. destruct r as [i|i]; destruct Hr as [_ Hr]; [by apply calm_buf|by apply calm_inode]. Qed.

Lemma sl_lk_range r : sl_lk r < 1000 \/ 2000 <= sl_lk r.
Proof. destruct r as [i|i]; cbn; unfold buf_lk, inode_lk; lia. Qed.

Lemma wpx_upd_sl B r f (Q : unit -> world -> Prop) h env tr D s :
  Q tt (World h env tr (dset (dset_sl r (f (dsl r D)) D) s)) ->
  wpx B (upd_sl r f) Q (World h env tr (dset D s)).
Proof. intros HQ. eapply wpx_dmod; [|exact HQ]. rewrite get_sl_dset. apply set_sl_dset. Qed.

Section sleeplocks.
Context (B : world -> Prop) (h : hart) (env : list turn) (tr : list event) (D : dyn) (s : kstate).
Context (r : slref) (i : nat) (p : proc).
Context (Hh : hart_ok h) (Hi : h.(h_proc) = Some i) (Hp : D.(d_procs) !! i = Some p).
Context (HL : calm D.(d_locks)) (Hr : sl_valid r D) (Hsz : length D.(d_procs) = NPROC).

Lemma push_proc : (hart_push h).(h_proc) = Some i.
Proof using Hi. done. Qed.

(** acquiresleep() of a free sleep-lock. *)
Lemma wpx_acquiresleep (Q : unit -> world -> Prop) :
  (dsl r D).(sl_locked) = 0 ->
  Q tt (World (settle h) env tr (dset (dset_sl r (Sleeplock 1 (dsl r D).(sl_name) p.(p_pid)) D) s)) ->
  wpx B (acquiresleep r) Q (World h env tr (dset D s)).
Proof using All.
  intros Hfree HQ. unfold acquiresleep.
  kstep. apply wpx_dacquire; [by eapply calm_sl|]. kstep. kstep. cbn [w_env].
  kstep. cbn [acquiresleep_wait]. kstep. apply wpx_dget. rewrite get_sl_dset.
  rewrite dsl_set_locks, Hfree. change (ztrue 0) with false. cbv iota. apply wpx_ret.
  kstep. apply wpx_upd_sl. rewrite dsl_set_locks, dset_sl_set_locks.
  kstep. apply (wpx_dcur_proc _ _ _ _ _ _ i); [by apply hart_push_ok|done|].
  kstep. apply (wpx_dget_proc _ _ _ _ _ _ i p); [cbn; by rewrite dset_sl_procs|].
  kstep. apply wpx_upd_sl. rewrite dsl_set_locks, dset_sl_set_locks, dset_sl_twice, dsl_dset_sl by done.
  rewrite settle_push by done.
  eapply (wpx_drelease _ _ _ _ _ _ _ D.(d_locks)); [done|by eapply calm_sl|done|].
  rewrite set_d_locks_twice, <-(dset_sl_locks r (Sleeplock 1 (dsl r D).(sl_name) p.(p_pid)) D).
  by rewrite set_d_locks_id.
Qed.

(** releasesleep() frees the lock and may wake processes. *)
Lemma wpx_releasesleep (Q : unit -> world -> Prop) :
  (forall P, woke (Some i) D.(d_procs) P ->
     Q tt (World (settle h) env tr
       (dset (set_d_procs P (dset_sl r (Sleeplock 0 (dsl r D).(sl_name) 0) D)) s))) ->
  wpx B (releasesleep r) Q (World h env tr (dset D s)).
Proof using All.
  intros HQ. unfold releasesleep.
  kstep. apply wpx_dacquire; [by eapply calm_sl|].
  kstep. apply wpx_upd_sl. rewrite dsl_set_locks, dset_sl_set_locks.
  kstep. apply wpx_upd_sl. rewrite dsl_set_locks, dset_sl_set_locks, dset_sl_twice, dsl_dset_sl by done.
  kstep. apply wpx_dwakeup.
  - by apply hart_push_ok.
  - intros j Hj _. cbn. apply calm_proc_held; [done|apply sl_lk_range|done].
  - cbn. by rewrite dset_sl_procs.
  - intros P HP. cbn in HP. rewrite dset_sl_procs, Hi in HP. rewrite settle_push by done.
    eapply (wpx_drelease _ _ _ _ _ _ _ D.(d_locks)); [done|by eapply calm_sl|done|].
    specialize (HQ P HP).
    change (set_sl_pid 0 (set_sl_locked 0 (dsl r D))) with (Sleeplock 0 (sl_name (dsl r D)) 0).
    replace (set_d_locks (d_locks D) (set_d_procs P (set_d_locks (lock_by (h_tp h) (sl_lk r) (d_locks D))
      (dset_sl r (Sleeplock 0 (sl_name (dsl r D)) 0) D))))
      with (set_d_procs P (dset_sl r (Sleeplock 0 (sl_name (dsl r D)) 0) D)); [done|].
    by destruct r, D.
Qed.

(** holdingsleep() of a lock that this process holds. *)
Lemma wpx_holdingsleep (Q : bool -> world -> Prop) :
  (dsl r D).(sl_locked) = 1 -> (dsl r D).(sl_pid) = p.(p_pid) ->
  Q true (World (settle h) env tr (dset D s)) ->
  wpx B (holdingsleep r) Q (World h env tr (dset D s)).
Proof using All.
  intros H1 H2 HQ. unfold holdingsleep.
  kstep. apply wpx_dacquire; [by eapply calm_sl|].
  kstep. apply wpx_dget. rewrite get_sl_dset, dsl_set_locks, H1. change (ztrue 1) with true.
  kstep. kstep. apply (wpx_dcur_proc _ _ _ _ _ _ i); [by apply hart_push_ok|done|].
  kstep. apply (wpx_dget_proc _ _ _ _ _ _ i p); [done|]. apply wpx_ret. rewrite H2, Z.eqb_refl.
  rewrite settle_push by done. kstep.
  eapply (wpx_drelease _ _ _ _ _ _ _ D.(d_locks)); [done|by eapply calm_sl|done|].
  apply wpx_ret. rewrite set_d_locks_twice. by rewrite set_d_locks_id.
Qed.

End sleeplocks.
