(* ===== verification/Bytes.v ===== *)
(** * Fields in byte arrays

    C structures that are stored in a disk block or in a page are byte
    sequences; this file has the little-endian fields of such sequences and
    the replacement of a part of one. *)

From S2P Require Import Prelude.

(** Little-endian value of a byte string, and the [n] bytes of a value. *)
Fixpoint le_val (l : list Z) : Z :=
  match l with [] => 0 | b :: l => b + 256 * le_val l end.
Fixpoint le_bytes (n : nat) (v : Z) : list Z :=
  match n with O => [] | S n => v mod 256 :: le_bytes n (v / 256) end.

(** Bytes [off], ..., [off + length bs - 1] of [l] become [bs]. *)
Definition splice (off : nat) (bs l : list Z) : list Z :=
  take off l ++ bs ++ drop (off + length bs) l.

Definition slice (off n : nat) (l : list Z) : list Z := take n (drop off l).

Definition get16 (off : nat) (l : list Z) : Z := le_val (slice off 2 l).
Definition get32 (off : nat) (l : list Z) : Z := le_val (slice off 4 l).
Definition put16 (off : nat) (v : Z) (l : list Z) : list Z := splice off (le_bytes 2 v) l.
Definition put32 (off : nat) (v : Z) (l : list Z) : list Z := splice off (le_bytes 4 v) l.

Lemma length_le_bytes n v : length (le_bytes n v) = n.
Proof. revert v. induction n; intros; cbn; auto. Qed.

Lemma le_val_bytes n v : le_val (le_bytes n v) = v mod 256 ^ Z.of_nat n.
Proof.
  revert v. induction n as [|n IH]; intros v; cbn [le_bytes le_val].
  - by rewrite Z.mod_1_r.
  - rewrite IH, Nat2Z.inj_succ, Z.pow_succ_r by lia.
    rewrite (Z.rem_mul_r v 256 (256 ^ Z.of_nat n)) by lia. lia.
Qed.

Lemma length_splice off bs l :
  (off + length bs <= length l)%nat -> length (splice off bs l) = length l.
Proof. intros H. unfold splice. rewrite !length_app, length_take, length_drop. lia. Qed.

Lemma length_put32 off v l : (off + 4 <= length l)%nat -> length (put32 off v l) = length l.
Proof. intros H. apply length_splice. by rewrite length_le_bytes. Qed.

Lemma length_put16 off v l : (off + 2 <= length l)%nat -> length (put16 off v l) = length l.
Proof. intros H. apply length_splice. by rewrite length_le_bytes. Qed.

(** What was put can be read back. *)
Lemma slice_splice off bs l :
  (off <= length l)%nat -> slice off (length bs) (splice off bs l) = bs.
Proof.
  intros H. unfold slice, splice. rewrite drop_app_length' by (rewrite length_take; lia).
  by rewrite take_app_length.
Qed.

(** Bytes of a disjoint part stay. *)
Lemma slice_splice_ne off bs l k n :
  (off + length bs <= length l)%nat -> (k + n <= off \/ off + length bs <= k)%nat ->
  slice k n (splice off bs l) = slice k n l.
Proof.
  intros Hl Hk. unfold slice, splice. destruct Hk as [Hk|Hk].
  - rewrite drop_app_le by (rewrite length_take; lia). rewrite take_app_le.
    + rewrite skipn_firstn_comm, take_take. by rewrite Nat.min_l by lia.
    + rewrite length_drop, length_take. lia.
  - rewrite drop_app_ge by (rewrite length_take; lia). rewrite drop_app_ge by (rewrite length_take; lia).
    rewrite drop_drop, length_take. do 2 f_equal. lia.
Qed.

Lemma get32_put32 off v l :
  (off + 4 <= length l)%nat -> get32 off (put32 off v l) = u32 v.
Proof.
  intros H. unfold get32, put32. rewrite <-(length_le_bytes 4 v) at 1.
  rewrite slice_splice by lia. apply (le_val_bytes 4).
Qed.

Lemma get32_put32_ne off v l k :
  (off + 4 <= length l)%nat -> (k + 4 <= off \/ off + 4 <= k)%nat ->
  get32 k (put32 off v l) = get32 k l.
Proof. intros. unfold get32, put32. by rewrite slice_splice_ne by (rewrite ?length_le_bytes; lia). Qed.

Lemma get16_put16 off v l :
  (off + 2 <= length l)%nat -> get16 off (put16 off v l) = u16 v.
Proof.
  intros H. unfold get16, put16. rewrite <-(length_le_bytes 2 v) at 1.
  rewrite slice_splice by lia. apply (le_val_bytes 2).
Qed.

Lemma get16_put16_ne off v l k :
  (off + 2 <= length l)%nat -> (k + 2 <= off \/ off + 2 <= k)%nat ->
  get16 k (put16 off v l) = get16 k l.
Proof. intros. unfold get16, put16. by rewrite slice_splice_ne by (rewrite ?length_le_bytes; lia). Qed.
