(* ===== verification/Ring.v ===== *)
(** * Circular doubly linked lists

    The theory behind the buffer cache's LRU list (kernel/bio.c): a list is
    threaded through two pointer functions, [nx] and [pv], between two ends
    that may be the same node. *)

From S2P Require Import Prelude.

(** [upd f a b]: the pointer of [a] is set to [b]. *)
Definition upd (f : nat -> nat) (a b : nat) : nat -> nat :=
  fun x => if bool_decide (x = a) then b else f x.

(** [seg nx pv a l z]: from [a], the nodes [l] in order, then [z]. *)
Fixpoint seg (nx pv : nat -> nat) (a : nat) (l : list nat) (z : nat) : Prop :=
  match l with
  | [] => nx a = z /\ pv z = a
  | b :: l => nx a = b /\ pv b = a /\ seg nx pv b l z
  end.

Lemma upd_eq f a b : upd f a b a = b.
Proof. unfold upd. by rewrite bool_decide_true. Qed.

Lemma upd_ne f a b x : x <> a -> upd f a b x = f x.
Proof. intros. unfold upd. by rewrite bool_decide_false. Qed.

Section ring.
Context (nx pv : nat -> nat).

Lemma seg_ext nx' pv' a l z :
  seg nx pv a l z ->
  (forall x, x ∈ a :: l -> nx' x = nx x) -> (forall x, x ∈ l \/ x = z -> pv' x = pv x) ->
  seg nx' pv' a l z.
Proof.
  revert a. induction l as [|b l IH]; intros a; cbn.
  - intros [H1 H2] Hn Hp. rewrite Hn, Hp by set_solver. done.
  - intros (H1 & H2 & H3) Hn Hp. rewrite Hn, Hp by set_solver. split_and!; [done..|].
    apply IH; [done|intros x Hx; apply Hn; by right|].
    intros x [Hx|Hx]; apply Hp; [left; by right|by right].
Qed.

Lemma seg_app a l1 b l2 z : seg nx pv a (l1 ++ b :: l2) z <-> seg nx pv a l1 b /\ seg nx pv b l2 z.
Proof.
  revert a. induction l1 as [|c l1 IH]; intros a; cbn; [tauto|]. rewrite IH. tauto.
Qed.

(** The neighbours of the ends. *)
Lemma seg_next a l z : seg nx pv a l z -> nx a = default z (head l).
Proof. destruct l; cbn; tauto. Qed.

Lemma seg_prev a l z : seg nx pv a l z -> pv z = default a (last l).
Proof.
  revert a. induction l as [|b l IH]; intros a; cbn; [tauto|].
  intros (_ & _ & H). rewrite (IH b H). rewrite last_cons. by destruct (last l).
Qed.

Lemma default_head_elem (l : list nat) z : default z (head l) ∈ l \/ default z (head l) = z.
Proof. destruct l as [|b l]; [by right|]. left. apply list_elem_of_here. Qed.

Lemma default_last_elem (l : list nat) a : default a (last l) ∈ l \/ default a (last l) = a.
Proof.
  destruct l as [|b l] using rev_ind; [by right|]. rewrite last_snoc. left.
  apply elem_of_app. right. apply list_elem_of_here.
Qed.

End ring.

(** Goals [x <> y] and [x ∉ l] from what is known of the nodes. *)
Ltac nodes :=
  rewrite ?not_elem_of_app, ?not_elem_of_cons, ?NoDup_cons in *; destruct_and?;
  repeat match goal with H : _ \/ _ |- _ => destruct H end; try split; try done; try congruence;
  try (intros ?; subst; rewrite ?elem_of_app, ?elem_of_cons in *; tauto).

(** Taking [b] out: [b->next->prev = b->prev; b->prev->next = b->next]. *)
Lemma seg_unlink nx pv a l1 b l2 z :
  NoDup (l1 ++ b :: l2) -> z ∉ l1 ++ b :: l2 -> a ∉ l1 ++ b :: l2 ->
  seg nx pv a (l1 ++ b :: l2) z ->
  seg (upd nx (pv b) (nx b)) (upd pv (nx b) (pv b)) a (l1 ++ l2) z.
Proof.
  revert a. induction l1 as [|x l1 IH]; intros a Hnd Hz Ha H; cbn in *.
  - destruct H as (H1 & H2 & H3). rewrite H2. apply NoDup_cons in Hnd. destruct Hnd as [Hb Hl2].
    pose proof (seg_next _ _ _ _ _ H3) as Hn. destruct l2 as [|c l2]; cbn in *.
    + rewrite Hn, !upd_eq. done.
    + destruct H3 as (_ & _ & H3). apply NoDup_cons in Hl2. rewrite Hn, !upd_eq.
      split_and!; [done..|]. apply (seg_ext _ _ _ _ _ _ _ H3); intros y Hy; apply upd_ne;
        rewrite ?elem_of_cons in Hy; nodes.
  - destruct H as (H1 & H2 & H3). apply NoDup_cons in Hnd. destruct Hnd as [Hx Hnd].
    apply seg_app in H3 as H4. destruct H4 as [H4 H5].
    pose proof (seg_next _ _ _ _ _ H5) as Hn. pose proof (seg_prev _ _ _ _ _ H4) as Hp.
    pose proof (default_head_elem l2 z) as E1. pose proof (default_last_elem l1 x) as E2.
    rewrite <-Hn in E1. rewrite <-Hp in E2. clear Hn Hp H4 H5.
    rewrite !upd_ne by (clear IH; nodes). split_and!; [done..|]. 
    apply IH; [done| |done|done]. apply not_elem_of_cons in Hz. apply Hz.
Qed.

(** Putting [b] behind [a]:
    [b->next = a->next; b->prev = a; a->next->prev = b; a->next = b]. *)
Lemma seg_link nx pv a b l z :
  NoDup l -> a ∉ l -> z ∉ l -> b ∉ l -> b <> a -> b <> z ->
  seg nx pv a l z ->
  seg (upd (upd nx b (nx a)) a b) (upd (upd pv b a) (nx a) b) a (b :: l) z.
Proof.
  intros Hnd Ha Hz Hb Hba Hbz H. pose proof (seg_next _ _ _ _ _ H) as Hn.
  destruct l as [|c l]; cbn in *.
  - rewrite Hn, !upd_eq, (upd_ne (upd nx b z)), (upd_ne (upd pv b a)), !upd_eq by done. done.
  - apply NoDup_cons in Hnd. destruct H as (_ & _ & H). rewrite Hn, !upd_eq.
    rewrite (upd_ne (upd nx b c)), (upd_ne (upd pv b a)), !upd_eq by nodes. split_and!; [done..|].
    apply (seg_ext _ _ _ _ _ _ _ H); intros y Hy; rewrite !upd_ne; rewrite ?elem_of_cons in Hy; nodes.
Qed.

(** Scanning: [find_each] along [nx] or [pv] visits the nodes in order. *)
Lemma seg_lookup_next nx pv a l z i x :
  seg nx pv a l z -> l !! i = Some x -> nx x = default z (l !! S i).
Proof.
  revert a i. induction l as [|b l IH]; intros a i H Hi; [done|].
  destruct H as (_ & _ & H). destruct i as [|i]; cbn in Hi.
  - injection Hi as <-. rewrite (seg_next _ _ _ _ _ H). by destruct l.
  - by apply (IH b i).
Qed.

(** The list read backwards. *)
Lemma seg_rev nx pv a l z : seg nx pv a l z -> seg pv nx z (rev l) a.
Proof.
  revert a. induction l as [|b l IH]; intros a; cbn; [tauto|].
  intros (H1 & H2 & H3). apply seg_app. split; [by apply IH|]. done.
Qed.
