(* ===== verification/Bio.v ===== *)
(** * Buffer cache: kernel/bio.c

    Buffers are named by their index in [bcache.buf]; index [NBUF] stands for
    [bcache.head], whose two pointers are [bhead = (prev, next)].

    [disk_rw] is what virtio_disk_rw() does when the disk has completed the
    request: [Virtio] models the driver itself. *)

From S2P Require Import Prelude Memory Riscv Machine Spinlock Kalloc Vm Sched Sleeplock.

(** kernel/fs.h *)
Definition BSIZE : Z := 1024.

Definition get_buf (i : nat) : K buf :=
  l ← getk bufs;
  match l !! i with Some b => mret b | None => bad_pointer end.

Definition upd_buf (i : nat) (f : buf -> buf) : K unit :=
  modk (fun s => set_bufs (alter f i s.(bufs)) s).

(** [b->next], [b->prev] and assignments to them, [b] possibly the head. *)
Definition buf_next (b : nat) : K nat :=
  if bool_decide (b = NBUF) then getk (fun s => s.(bhead).2) else x ← get_buf b; mret x.(b_next).
Definition buf_prev (b : nat) : K nat :=
  if bool_decide (b = NBUF) then getk (fun s => s.(bhead).1) else x ← get_buf b; mret x.(b_prev).
Definition put_next (b x : nat) : K unit :=
  if bool_decide (b = NBUF) then modk (fun s => set_bhead (s.(bhead).1, x) s)
  else upd_buf b (set_b_next x).
Definition put_prev (b x : nat) : K unit :=
  if bool_decide (b = NBUF) then modk (fun s => set_bhead (x, s.(bhead).2) s)
  else upd_buf b (set_b_prev x).

(** Insert [b] behind the head. *)
Definition link_front (b : nat) : K unit :=
  hn ← buf_next NBUF;
  put_next b hn;;
  put_prev b NBUF;;
  hn ← buf_next NBUF;
  put_prev hn b;;
  put_next NBUF b.

Definition binit : K unit :=
  initlock bcache_lock "bcache";;
  put_prev NBUF NBUF;;
  put_next NBUF NBUF;;
  for_each (seq 0 NBUF) (fun b =>
    hn ← buf_next NBUF;
    put_next b hn;;
    put_prev b NBUF;;
    initsleeplock (SLbuf b) "buffer";;
    hn ← buf_next NBUF;
    put_prev hn b;;
    put_next NBUF b).

(** [for(b = ...; b != &bcache.head; b = b->next) if(b->dev == dev && b->blockno == blockno)] *)
Fixpoint find_cached (fuel : nat) (b : nat) (dev blockno : Z) : K (option nat) :=
  if bool_decide (b = NBUF) then mret None else
  match fuel with
  | O => no_fuel
  | S fuel =>
      x ← get_buf b;
      if (x.(b_dev) =? dev) && (x.(b_blockno) =? blockno) then mret (Some b)
      else b ← buf_next b; find_cached fuel b dev blockno
  end.

(** [for(b = ...; b != &bcache.head; b = b->prev) if(b->refcnt == 0)] *)
Fixpoint find_unused_buf (fuel : nat) (b : nat) : K (option nat) :=
  if bool_decide (b = NBUF) then mret None else
  match fuel with
  | O => no_fuel
  | S fuel =>
      x ← get_buf b;
      if x.(b_refcnt) =? 0 then mret (Some b)
      else b ← buf_prev b; find_unused_buf fuel b
  end.

Definition bget (dev blockno : Z) : K nat :=
  acquire bcache_lock;;
  b ← buf_next NBUF;
  found ← find_cached NBUF b dev blockno;
  match found with
  | Some b =>
      upd_buf b (fun x => set_b_refcnt (u32 (x.(b_refcnt) + 1)) x);;
      release bcache_lock;;
      acquiresleep (SLbuf b);;
      mret b
  | None =>
      b ← buf_prev NBUF;
      found ← find_unused_buf NBUF b;
      match found with
      | Some b =>
          upd_buf b (set_b_dev dev);;
          upd_buf b (set_b_blockno blockno);;
          upd_buf b (set_b_valid 0);;
          upd_buf b (set_b_refcnt 1);;
          release bcache_lock;;
          acquiresleep (SLbuf b);;
          mret b
      | None => panic "bget: no buffers"
      end
  end.

(** The contents of a block on the disk. *)
Definition disk_at (d : gmap Z (list Z)) (blockno : Z) : list Z :=
  default (replicate (Z.to_nat BSIZE) 0) (d !! blockno).

Definition disk_rw (b : nat) (write : bool) : K unit :=
  x ← get_buf b;
  if write then
    modk (fun s => set_disk (<[x.(b_blockno) := x.(b_data)]> s.(disk)) s);;
    emit (EvDiskWrite x.(b_dev) x.(b_blockno) x.(b_data))
  else
    d ← getk disk;
    upd_buf b (set_b_data (disk_at d x.(b_blockno))).

Definition bread (dev blockno : Z) : K nat :=
  b ← bget dev blockno;
  x ← get_buf b;
  when (negb (ztrue x.(b_valid))) (disk_rw b false;; upd_buf b (set_b_valid 1));;
  mret b.

Definition bwrite (b : nat) : K unit :=
  h ← holdingsleep (SLbuf b);
  if negb h then panic "bwrite" else
  disk_rw b true.

Definition brelse (b : nat) : K unit :=
  h ← holdingsleep (SLbuf b);
  if negb h then panic "brelse" else
  releasesleep (SLbuf b);;
  acquire bcache_lock;;
  upd_buf b (fun x => set_b_refcnt (u32 (x.(b_refcnt) - 1)) x);;
  x ← get_buf b;
  when (x.(b_refcnt) =? 0)
    (n ← buf_next b; p ← buf_prev b;
     put_prev n p;;
     n ← buf_next b; p ← buf_prev b;
     put_next p n;;
     link_front b);;
  release bcache_lock.

Definition bpin (b : nat) : K unit :=
  acquire bcache_lock;;
  upd_buf b (fun x => set_b_refcnt (u32 (x.(b_refcnt) + 1)) x);;
  release bcache_lock.

Definition bunpin (b : nat) : K unit :=
  acquire bcache_lock;;
  upd_buf b (fun x => set_b_refcnt (u32 (x.(b_refcnt) - 1)) x);;
  release bcache_lock.
