(* ===== verification/Bcache.v ===== *)
(** * The buffer cache: invariant and specifications of kernel/bio.c

    Seen from outside, the cache is three functions of the block number: [V],
    the contents that bread() returns; [R], the number of references; [O],
    the buffer this process holds locked.  [cache] relates them to the
    buffers, the LRU list and the disk; every operation of bio.c is specified
    by what it does to [V], [R] and [O]. *)

From stdpp Require Import functions.
From S2P Require Import Prelude Memory Riscv Machine Spinlock Kalloc Vm Sched Sleeplock Dyn Ring Bio.

(** ** The LRU list *)

(** The two pointer functions that the buffers and the head hold. *)
Definition nxt (D : dyn) (b : nat) : nat :=
  if bool_decide (b = NBUF) then D.(d_bhead).2 else default NBUF (b_next <$> D.(d_bufs) !! b).
Definition prv (D : dyn) (b : nat) : nat :=
  if bool_decide (b = NBUF) then D.(d_bhead).1 else default NBUF (b_prev <$> D.(d_bufs) !! b).

Definition dput_next (b x : nat) (D : dyn) : dyn :=
  if bool_decide (b = NBUF) then set_d_bhead (D.(d_bhead).1, x) D
  else set_d_bufs (alter (set_b_next x) b D.(d_bufs)) D.
Definition dput_prev (b x : nat) (D : dyn) : dyn :=
  if bool_decide (b = NBUF) then set_d_bhead (x, D.(d_bhead).2) D
  else set_d_bufs (alter (set_b_prev x) b D.(d_bufs)) D.

(** A buffer or the head. *)
Definition node (D : dyn) (b : nat) : Prop := b = NBUF \/ (b < length D.(d_bufs))%nat.

Lemma lookup_alter_proj {A C} (f : A -> A) (g : A -> C) (l : list A) i j :
  (forall x, g (f x) = g x) -> g <$> alter f i l !! j = g <$> l !! j.
Proof.
  intros Hg. destruct (decide (i = j)) as [<-|Hne].
  - rewrite list_lookup_alter_eq. destruct (l !! i); cbn; by rewrite ?Hg.
  - by rewrite list_lookup_alter_ne.
Qed.

Lemma nxt_put_next b x D y : node D b -> nxt (dput_next b x D) y = upd (nxt D) b x y.
Proof.
  unfold node, nxt, dput_next, upd. intros Hb.
  repeat case_bool_decide; simplify_eq; cbn; try done.
  - destruct Hb as [|Hb]; [done|]. destruct (lookup_lt_is_Some_2 _ _ Hb) as [z Hz].
    by rewrite list_lookup_alter_eq, Hz.
  - by rewrite list_lookup_alter_ne.
Qed.

Lemma prv_put_prev b x D y : node D b -> prv (dput_prev b x D) y = upd (prv D) b x y.
Proof.
  unfold node, prv, dput_prev, upd. intros Hb.
  repeat case_bool_decide; simplify_eq; cbn; try done.
  - destruct Hb as [|Hb]; [done|]. destruct (lookup_lt_is_Some_2 _ _ Hb) as [z Hz].
    by rewrite list_lookup_alter_eq, Hz.
  - by rewrite list_lookup_alter_ne.
Qed.

Lemma nxt_put_prev b x D y : nxt (dput_prev b x D) y = nxt D y.
Proof.
  unfold nxt, dput_prev. repeat case_bool_decide; cbn; try done. by rewrite lookup_alter_proj.
Qed.

Lemma prv_put_next b x D y : prv (dput_next b x D) y = prv D y.
Proof.
  unfold prv, dput_next. repeat case_bool_decide; cbn; try done. by rewrite lookup_alter_proj.
Qed.

(** Two states whose buffers differ only in their pointers. *)
Definition relinked (D D' : dyn) : Prop :=
  set_d_bhead (0, 0)%nat (set_d_bufs [] D') = set_d_bhead (0, 0)%nat (set_d_bufs [] D) /\
  map (fun x => set_b_next 0 (set_b_prev 0 x)) D'.(d_bufs) =
    map (fun x => set_b_next 0 (set_b_prev 0 x)) D.(d_bufs).

Lemma relinked_refl D : relinked D D.
Proof. done. Qed.
Lemma relinked_trans D1 D2 D3 : relinked D1 D2 -> relinked D2 D3 -> relinked D1 D3.
Proof. intros [] []. split; congruence. Qed.

Lemma map_alter_same {A C} (f : A -> A) (g : A -> C) (l : list A) i :
  (forall x, g (f x) = g x) -> map g (alter f i l) = map g l.
Proof.
  intros Hg. apply list_eq. intros j. change (map g) with (fmap (M:=list) g).
  rewrite !list_lookup_fmap. by apply lookup_alter_proj.
Qed.

Lemma relinked_put b x D : relinked D (dput_next b x D) /\ relinked D (dput_prev b x D).
Proof.
  unfold dput_next, dput_prev. case_bool_decide; split; split; try done; cbn;
    apply map_alter_same; done.
Qed.

Section links.
Context (B : world -> Prop) (h : hart) (env : list turn) (tr : list event) (D : dyn) (s : kstate).

Lemma wpx_get_buf i x (Q : buf -> world -> Prop) :
  D.(d_bufs) !! i = Some x ->
  Q x (World h env tr (dset D s)) -> wpx B (get_buf i) Q (World h env tr (dset D s)).
Proof. intros Hx HQ. unfold get_buf. kstep. apply wpx_dget. cbn. by rewrite Hx. Qed.

Lemma wpx_upd_buf i f (Q : unit -> world -> Prop) :
  Q tt (World h env tr (dset (set_d_bufs (alter f i D.(d_bufs)) D) s)) ->
  wpx B (upd_buf i f) Q (World h env tr (dset D s)).
Proof. intros HQ. eapply wpx_dmod; [|exact HQ]. done. Qed.

Lemma wpx_buf_next b (Q : nat -> world -> Prop) :
  node D b -> Q (nxt D b) (World h env tr (dset D s)) ->
  wpx B (buf_next b) Q (World h env tr (dset D s)).
Proof.
  intros Hb HQ. unfold buf_next, nxt in *. case_bool_decide; [by apply wpx_dget|].
  destruct Hb as [|Hb]; [done|]. destruct (lookup_lt_is_Some_2 _ _ Hb) as [z Hz]. rewrite Hz in HQ.
  kstep. by apply (wpx_get_buf b z).
Qed.

Lemma wpx_buf_prev b (Q : nat -> world -> Prop) :
  node D b -> Q (prv D b) (World h env tr (dset D s)) ->
  wpx B (buf_prev b) Q (World h env tr (dset D s)).
Proof.
  intros Hb HQ. unfold buf_prev, prv in *. case_bool_decide; [by apply wpx_dget|].
  destruct Hb as [|Hb]; [done|]. destruct (lookup_lt_is_Some_2 _ _ Hb) as [z Hz]. rewrite Hz in HQ.
  kstep. by apply (wpx_get_buf b z).
Qed.

Lemma wpx_put_next b x (Q : unit -> world -> Prop) :
  Q tt (World h env tr (dset (dput_next b x D) s)) ->
  wpx B (put_next b x) Q (World h env tr (dset D s)).
Proof. unfold put_next, dput_next. case_bool_decide; intros HQ; (eapply wpx_dmod; [|exact HQ]; done). Qed.

Lemma wpx_put_prev b x (Q : unit -> world -> Prop) :
  Q tt (World h env tr (dset (dput_prev b x D) s)) ->
  wpx B (put_prev b x) Q (World h env tr (dset D s)).
Proof. unfold put_prev, dput_prev. case_bool_decide; intros HQ; (eapply wpx_dmod; [|exact HQ]; done). Qed.

End links.

(** ** Scans *)

(** [order] is the list of the buffers from most to least recently used. *)
Record ring (D : dyn) (order : list nat) : Prop := {
  ring_seg : seg (nxt D) (prv D) NBUF order NBUF;
  ring_perm : order ≡ₚ seq 0 NBUF;
  ring_len : length D.(d_bufs) = NBUF
}.

Lemma seg_eq nx pv nx' pv' a l z :
  (forall x, nx' x = nx x) -> (forall x, pv' x = pv x) -> seg nx pv a l z -> seg nx' pv' a l z.
Proof. intros Hn Hp H. eapply seg_ext; [exact H|auto..]. Qed.

Lemma ring_lt D order b : ring D order -> b ∈ order <-> (b < NBUF)%nat.
Proof. intros [_ Hp _]. rewrite Hp, elem_of_seq. lia. Qed.

Lemma ring_nodup D order : ring D order -> NoDup order.
Proof. intros [_ Hp _]. rewrite Hp. apply NoDup_seq. Qed.

Lemma ring_node D order b : ring D order -> b ∈ order -> node D b.
Proof. intros HR Hb. right. rewrite (ring_len _ _ HR). by apply (ring_lt _ _ b HR). Qed.

Lemma ring_not_head D order : ring D order -> NBUF ∉ order.
Proof. intros HR Hin. apply (ring_lt _ _ _ HR) in Hin. lia. Qed.

Lemma relinked_bufs D D' i x :
  relinked D D' -> D.(d_bufs) !! i = Some x ->
  exists x', D'.(d_bufs) !! i = Some x' /\
    set_b_next 0 (set_b_prev 0 x') = set_b_next 0 (set_b_prev 0 x).
Proof.
  intros [_ Hm] Hx.
  assert ((fun y => set_b_next 0 (set_b_prev 0 y)) <$> D'.(d_bufs) !! i =
          (fun y => set_b_next 0 (set_b_prev 0 y)) <$> D.(d_bufs) !! i) as E.
  { rewrite <-!list_lookup_fmap. change (fmap (M:=list) ?g ?l) with (map g l). by rewrite Hm. }
  rewrite Hx in E. destruct (D'.(d_bufs) !! i) as [x'|]; [|done].
  apply (inj Some) in E. by exists x'.
Qed.

Lemma relinked_length D D' : relinked D D' -> length D'.(d_bufs) = length D.(d_bufs).
Proof. intros [_ Hm]. apply (f_equal length) in Hm. by rewrite !length_map in Hm. Qed.

(** The node that links into or out of a buffer is a node. *)
Lemma seg_node D l1 b l2 :
  (forall x, x ∈ l1 ++ b :: l2 -> (x < NBUF)%nat) -> length D.(d_bufs) = NBUF ->
  NoDup (l1 ++ b :: l2) -> seg (nxt D) (prv D) NBUF (l1 ++ b :: l2) NBUF ->
  node D (nxt D b) /\ node D (prv D b) /\ nxt D b <> b.
Proof.
  intros Hlt Hlen Hnd [H1 H2]%seg_app. apply seg_next in H2. apply seg_prev in H1.
  assert (b < NBUF)%nat by (apply Hlt; set_solver).
  assert (b ∉ l2) by (apply NoDup_app in Hnd as (_ & _ & Hnd); apply NoDup_cons in Hnd; apply Hnd).
  pose proof (default_head_elem l2 NBUF) as E1. pose proof (default_last_elem l1 NBUF) as E2.
  rewrite <-H2 in E1. rewrite <-H1 in E2. unfold node. rewrite Hlen. split_and!.
  - destruct E1 as [E|E]; [right; apply Hlt; apply elem_of_app; right; by right|by left].
  - destruct E2 as [E|E]; [right; apply Hlt; apply elem_of_app; by left|by left].
  - destruct E1 as [E|E]; [intros Hn; by rewrite Hn in E|lia].
Qed.

(** The pointers after an insertion at the front; the state may change in
    other ways between the two halves. *)
Lemma seg_link_front D D3 b l :
  (forall x, x ∈ l -> (x < NBUF)%nat) -> length D.(d_bufs) = NBUF -> length D3.(d_bufs) = NBUF -> NoDup l ->
  b ∉ l -> (b < NBUF)%nat -> seg (nxt D) (prv D) NBUF l NBUF ->
  (forall x, nxt D3 x = nxt (dput_prev b NBUF (dput_next b (nxt D NBUF) D)) x) ->
  (forall x, prv D3 x = prv (dput_prev b NBUF (dput_next b (nxt D NBUF) D)) x) ->
  node D3 (nxt D3 NBUF) /\
  let D5 := dput_next NBUF b (dput_prev (nxt D3 NBUF) b D3) in
  seg (nxt D5) (prv D5) NBUF (b :: l) NBUF.
Proof.
  intros Hlt Hlen Hlen3 Hnd Hb HbN HS Hn Hp.
  assert (b <> NBUF) by lia. assert (node D b) by (right; lia).
  assert (NBUF ∉ l) by (intros Hin; apply Hlt in Hin; lia).
  assert (node (dput_next b (nxt D NBUF) D) b) as N1.
  { right. rewrite (relinked_length D) by apply relinked_put. lia. }
  assert (nxt D3 NBUF = nxt D NBUF) as E2.
  { rewrite Hn, nxt_put_prev, nxt_put_next by done. by apply upd_ne. }
  assert (node D3 (nxt D NBUF)) as N2.
  { unfold node. rewrite Hlen3. rewrite (seg_next _ _ _ _ _ HS).
    destruct (default_head_elem l NBUF); [right; auto|by left]. }
  rewrite E2. split; [done|]. cbv zeta.
  eapply seg_eq; [| |eapply (seg_link _ _ NBUF b l NBUF); [done..|exact HS]].
  - intros x. rewrite nxt_put_next by by left. unfold upd at 1 2. case_bool_decide; [done|].
    rewrite nxt_put_prev, Hn, nxt_put_prev. by apply nxt_put_next.
  - intros x. rewrite prv_put_next, prv_put_prev by done. unfold upd at 1 2. case_bool_decide; [done|].
    rewrite Hp, prv_put_prev by done. unfold upd. case_bool_decide; [done|]. apply prv_put_next.
Qed.

Section move.
Context (B : world -> Prop) (h : hart) (env : list turn) (tr : list event) (s : kstate).

(** Insertion at the front of the list. *)
Lemma wpx_link_front D b l (Q : unit -> world -> Prop) :
  (forall x, x ∈ l -> (x < NBUF)%nat) -> length D.(d_bufs) = NBUF -> NoDup l ->
  b ∉ l -> (b < NBUF)%nat -> seg (nxt D) (prv D) NBUF l NBUF ->
  (forall D', relinked D D' -> seg (nxt D') (prv D') NBUF (b :: l) NBUF ->
     Q tt (World h env tr (dset D' s))) ->
  wpx B (link_front b) Q (World h env tr (dset D s)).
Proof.
  intros Hlt Hlen Hnd Hb HbN HS HQ. unfold link_front.
  kstep. apply wpx_buf_next; [by left|]. kstep. apply wpx_put_next. kstep. apply wpx_put_prev.
  set (D2 := dput_prev b NBUF _).
  assert (relinked D D2) as R2.
  { eapply relinked_trans; [|apply relinked_put]. apply relinked_put. }
  destruct (seg_link_front D D2 b l) as [_ HS']; try done; [by rewrite (relinked_length _ _ R2)|].
  kstep. apply wpx_buf_next; [by left|]. kstep. apply wpx_put_prev, wpx_put_next. apply HQ; [|done].
  eapply relinked_trans; [exact R2|]. eapply relinked_trans; apply relinked_put.
Qed.

(** brelse()'s move of a buffer to the front. *)
Lemma wpx_move_front D l1 b l2 (Q : unit -> world -> Prop) :
  ring D (l1 ++ b :: l2) ->
  (forall D', relinked D D' -> ring D' (b :: l1 ++ l2) -> Q tt (World h env tr (dset D' s))) ->
  wpx B (n ← buf_next b; p ← buf_prev b; put_prev n p;;
         n ← buf_next b; p ← buf_prev b; put_next p n;; link_front b) Q (World h env tr (dset D s)).
Proof.
  intros HR HQ. pose proof (ring_nodup _ _ HR) as Hnd. pose proof (ring_not_head _ _ HR) as Hh.
  assert (forall x, x ∈ l1 ++ b :: l2 -> (x < NBUF)%nat) as Hlt by (intros x; apply (ring_lt _ _ x HR)).
  destruct (seg_node D l1 b l2) as (Nn & Np & Hne); [done|apply HR|done|apply HR|].
  assert (b < NBUF)%nat as HbN by (apply Hlt; set_solver).
  assert (length D.(d_bufs) = NBUF) as Hlen by apply HR.
  assert (node D b) as Nb by (right; lia).
  kstep. apply wpx_buf_next; [done|]. kstep. apply wpx_buf_prev; [done|]. kstep. apply wpx_put_prev.
  set (D1 := dput_prev (nxt D b) (prv D b) D).
  assert (relinked D D1) as R1 by apply relinked_put.
  assert (node D1 b) as Nb1 by (right; rewrite (relinked_length _ _ R1); lia).
  assert (nxt D1 b = nxt D b) as E1 by apply nxt_put_prev.
  assert (prv D1 b = prv D b) as E2.
  { unfold D1. rewrite prv_put_prev by done. by apply upd_ne. }
  kstep. apply wpx_buf_next; [done|]. kstep. apply wpx_buf_prev; [done|]. rewrite E1, E2.
  kstep. apply wpx_put_next. set (D2 := dput_next (prv D b) (nxt D b) D1).
  assert (relinked D D2) as R2 by (eapply relinked_trans; [exact R1|apply relinked_put]).
  assert (NoDup (b :: l1 ++ l2)) as Hnd2 by (rewrite <-(Permutation_middle l1 l2 b) in Hnd; done).
  apply NoDup_cons in Hnd2. destruct Hnd2 as [Hb2 Hnd2].
  apply wpx_link_front with (l := l1 ++ l2); try done.
  - intros x Hx. apply Hlt. set_solver.
  - by rewrite (relinked_length _ _ R2).
  - eapply seg_eq; [| |apply (seg_unlink (nxt D) (prv D) NBUF l1 b l2 NBUF); [done..|apply HR]].
    + intros x. unfold D2. rewrite nxt_put_next.
      * unfold upd. case_bool_decide; [done|]. apply nxt_put_prev.
      * unfold node. rewrite (relinked_length _ _ R1). exact Np.
    + intros x. unfold D2. rewrite prv_put_next. unfold D1. by apply prv_put_prev.
  - intros D' R' HS. apply HQ; [by eapply relinked_trans|]. split; [done| |].
    + rewrite <-(ring_perm _ _ HR). apply Permutation_middle.
    + rewrite (relinked_length _ _ R'), (relinked_length _ _ R2). done.
Qed.

End move.

(** What the two loops of bget() look for. *)
Definition is_block (D : dyn) (dev bno : Z) (b : nat) : bool :=
  match D.(d_bufs) !! b with
  | Some x => (x.(b_dev) =? dev) && (x.(b_blockno) =? bno)
  | None => false
  end.
Definition is_unused (D : dyn) (b : nat) : bool :=
  match D.(d_bufs) !! b with Some x => x.(b_refcnt) =? 0 | None => false end.

Section scans.
Context (B : world -> Prop) (h : hart) (env : list turn) (tr : list event) (D : dyn) (s : kstate).

Lemma wpx_find_cached dev bno pv l a fuel (Q : option nat -> world -> Prop) :
  length D.(d_bufs) = NBUF -> (forall x, x ∈ l -> (x < NBUF)%nat) ->
  seg (nxt D) pv a l NBUF -> (length l <= fuel)%nat ->
  Q (List.find (is_block D dev bno) l) (World h env tr (dset D s)) ->
  wpx B (find_cached fuel (nxt D a) dev bno) Q (World h env tr (dset D s)).
Proof.
  intros Hlen. revert a fuel. induction l as [|b l IH]; intros a fuel Hlt HS Hf HQ.
  - destruct HS as [-> _]. by destruct fuel.
  - destruct HS as (-> & _ & HS). destruct fuel as [|fuel]; [cbn in Hf; lia|].
    assert (b < NBUF)%nat as Hb by (apply Hlt; set_solver).
    cbn [find_cached]. rewrite bool_decide_false by lia.
    destruct (lookup_lt_is_Some_2 D.(d_bufs) b) as [x Hx]; [lia|].
    kstep. apply (wpx_get_buf _ _ _ _ _ _ b x); [done|].
    cbn [List.find] in HQ. unfold is_block in HQ at 1. rewrite Hx in HQ.
    destruct ((b_dev x =? dev) && (b_blockno x =? bno)); [by apply wpx_ret|].
    kstep. apply wpx_buf_next; [right; lia|]. apply IH; [|done|cbn in Hf; lia|done].
    intros y Hy. apply Hlt. by right.
Qed.

Lemma wpx_find_unused_buf nx l a fuel (Q : option nat -> world -> Prop) :
  length D.(d_bufs) = NBUF -> (forall x, x ∈ l -> (x < NBUF)%nat) ->
  seg (prv D) nx a l NBUF -> (length l <= fuel)%nat ->
  Q (List.find (is_unused D) l) (World h env tr (dset D s)) ->
  wpx B (find_unused_buf fuel (prv D a)) Q (World h env tr (dset D s)).
Proof.
  intros Hlen. revert a fuel. induction l as [|b l IH]; intros a fuel Hlt HS Hf HQ.
  - destruct HS as [-> _]. by destruct fuel.
  - destruct HS as (-> & _ & HS). destruct fuel as [|fuel]; [cbn in Hf; lia|].
    assert (b < NBUF)%nat as Hb by (apply Hlt; set_solver).
    cbn [find_unused_buf]. rewrite bool_decide_false by lia.
    destruct (lookup_lt_is_Some_2 D.(d_bufs) b) as [x Hx]; [lia|].
    kstep. apply (wpx_get_buf _ _ _ _ _ _ b x); [done|].
    cbn [List.find] in HQ. unfold is_unused in HQ at 1. rewrite Hx in HQ.
    destruct (b_refcnt x =? 0); [by apply wpx_ret|].
    kstep. apply wpx_buf_prev; [right; lia|]. apply IH; [|done|cbn in Hf; lia|done].
    intros y Hy. apply Hlt. by right.
Qed.

(** Both scans over the whole list. *)
Lemma wpx_scan_cached order dev bno (Q : option nat -> world -> Prop) :
  ring D order ->
  Q (List.find (is_block D dev bno) order) (World h env tr (dset D s)) ->
  wpx B (find_cached NBUF (nxt D NBUF) dev bno) Q (World h env tr (dset D s)).
Proof.
  intros HR HQ.
  eapply wpx_find_cached; [apply HR|intros x; apply (ring_lt _ _ x HR)|apply HR| |done].
  rewrite (ring_perm _ _ HR), length_seq. done.
Qed.

Lemma wpx_scan_unused order (Q : option nat -> world -> Prop) :
  ring D order ->
  Q (List.find (is_unused D) (rev order)) (World h env tr (dset D s)) ->
  wpx B (find_unused_buf NBUF (prv D NBUF)) Q (World h env tr (dset D s)).
Proof.
  intros HR HQ.
  eapply wpx_find_unused_buf; [apply HR| |apply seg_rev, HR| |done].
  - intros x Hx. apply (ring_lt _ _ x HR). by apply list_elem_of_In, in_rev, list_elem_of_In.
  - rewrite length_rev, (ring_perm _ _ HR), length_seq. done.
Qed.

End scans.

(** ** The invariant *)

Definition bsize : nat := Z.to_nat BSIZE.

(** The sleep-lock of a buffer: free, or held by process [pid], which then
    has a reference. *)
Definition lock_ok (pid : Z) (x : buf) : Prop :=
  x.(b_lock).(sl_locked) = 0 \/
  x.(b_lock).(sl_locked) = 1 /\ x.(b_lock).(sl_pid) = pid /\ x.(b_refcnt) <> 0.

Definition held_by (i : nat) (x : buf) : option nat :=
  if x.(b_lock).(sl_locked) =? 0 then None else Some i.

Record cache (pid : Z) (D : dyn) (V : Z -> list Z) (R : Z -> Z) (O : Z -> option nat) : Prop := {
  c_ring : exists order, ring D order;
  c_uniq i j x y :
    D.(d_bufs) !! i = Some x -> D.(d_bufs) !! j = Some y ->
    x.(b_dev) = ROOTDEV -> y.(b_dev) = ROOTDEV -> x.(b_blockno) = y.(b_blockno) -> i = j;
  c_lock i x : D.(d_bufs) !! i = Some x -> lock_ok pid x;
  c_used i x :
    D.(d_bufs) !! i = Some x -> x.(b_dev) = ROOTDEV ->
    x.(b_valid) = 1 /\ length x.(b_data) = bsize /\ 0 <= x.(b_refcnt) /\
    R x.(b_blockno) = x.(b_refcnt) /\ V x.(b_blockno) = x.(b_data) /\
    O x.(b_blockno) = held_by i x /\
    (x.(b_refcnt) = 0 -> x.(b_data) = disk_at D.(d_disk) x.(b_blockno));
  c_idle i x : D.(d_bufs) !! i = Some x -> x.(b_dev) <> ROOTDEV -> x.(b_refcnt) = 0;
  c_none bno :
    (forall i, is_block D ROOTDEV bno i = false) ->
    R bno = 0 /\ V bno = disk_at D.(d_disk) bno /\ O bno = None;
  c_disk bno : length (disk_at D.(d_disk) bno) = bsize
}.

Lemma is_block_true D dev bno i :
  is_block D dev bno i = true <->
  exists x, D.(d_bufs) !! i = Some x /\ x.(b_dev) = dev /\ x.(b_blockno) = bno.
Proof.
  unfold is_block. destruct (d_bufs D !! i) as [x|]; [|naive_solver].
  rewrite andb_true_iff, !Z.eqb_eq. naive_solver.
Qed.

(** Every block is cached in one buffer or in none. *)
Lemma block_cases D order dev bno :
  ring D order ->
  (exists b, List.find (is_block D dev bno) order = Some b /\ is_block D dev bno b = true) \/
  (List.find (is_block D dev bno) order = None /\ forall i, is_block D dev bno i = false).
Proof.
  intros HR. destruct (List.find (is_block D dev bno) order) as [b|] eqn:E.
  - left. exists b. split; [done|]. apply find_some in E. apply E.
  - right. split; [done|]. intros i. destruct (is_block D dev bno i) eqn:Ei; [|done].
    rewrite <-Ei. apply (find_none _ _ E). apply list_elem_of_In, (ring_lt _ _ i HR).
    apply is_block_true in Ei. destruct Ei as (x & Hx & _).
    apply lookup_lt_Some in Hx. by rewrite (ring_len _ _ HR) in Hx.
Qed.

Lemma cache_ext pid D V R O V' R' O' :
  cache pid D V R O ->
  (forall b, V' b = V b) -> (forall b, R' b = R b) -> (forall b, O' b = O b) -> cache pid D V' R' O'.
Proof.
  intros [C1 C2 C3 C4 C5 C6 C7] HV HR HO. split; try done.
  - intros i x Hx Hd. rewrite HV, HR, HO. by apply C4.
  - intros bno Hb. rewrite HV, HR, HO. by apply C6.
Qed.

(** The rest of the storage state does not matter to the cache. *)
Lemma cache_frame pid D D' V R O :
  D'.(d_bufs) = D.(d_bufs) -> D'.(d_bhead) = D.(d_bhead) -> D'.(d_disk) = D.(d_disk) ->
  cache pid D V R O -> cache pid D' V R O.
Proof.
  destruct D, D'; cbn. intros -> -> -> [C1 C2 C3 C4 C5 C6 C7]. split; try done.
  destruct C1 as [order [A1 A2 A3]]. exists order. by split.
Qed.

(** The LRU list depends on the pointers only. *)
Lemma ring_insert D order b x x' :
  ring D order -> D.(d_bufs) !! b = Some x ->
  x'.(b_next) = x.(b_next) -> x'.(b_prev) = x.(b_prev) ->
  ring (set_d_bufs (<[b := x']> D.(d_bufs)) D) order.
Proof.
  intros [R1 R2 R3] Hx Hn Hp. split; [|done|cbn; by rewrite length_insert].
  eapply seg_eq; [| |exact R1]; intros y; unfold nxt, prv; cbn; case_bool_decide; try done;
    (destruct (decide (b = y)) as [<-|Hne];
      [rewrite list_lookup_insert_eq by (by eapply lookup_lt_Some); rewrite Hx; cbn; congruence
      |by rewrite list_lookup_insert_ne by done]).
Qed.

(** A cached block with no references looks like one that is not cached. *)
Lemma cache_idle_block pid D V R O b x :
  cache pid D V R O -> D.(d_bufs) !! b = Some x -> x.(b_dev) = ROOTDEV -> x.(b_refcnt) = 0 ->
  R x.(b_blockno) = 0 /\ V x.(b_blockno) = disk_at D.(d_disk) x.(b_blockno) /\ O x.(b_blockno) = None.
Proof.
  intros HC Hx Hd Hr. destruct (c_used _ _ _ _ _ HC b x Hx Hd) as (_ & _ & _ & -> & -> & -> & Hcl).
  split_and!; [done|auto|]. unfold held_by.
  by destruct (c_lock _ _ _ _ _ HC b x Hx) as [->|(_ & _ & ?)].
Qed.

(** One buffer changes: it keeps its block, or was unused and takes a block
    that was in no buffer. *)
Lemma cache_replace pid D V R O b x x' bno :
  cache pid D V R O -> D.(d_bufs) !! b = Some x ->
  x'.(b_next) = x.(b_next) -> x'.(b_prev) = x.(b_prev) ->
  x'.(b_dev) = ROOTDEV -> x'.(b_blockno) = bno -> x'.(b_valid) = 1 ->
  length x'.(b_data) = bsize -> 0 <= x'.(b_refcnt) -> lock_ok pid x' ->
  (x'.(b_refcnt) = 0 -> x'.(b_data) = disk_at D.(d_disk) bno) ->
  (x.(b_dev) = ROOTDEV /\ x.(b_blockno) = bno \/
   x.(b_refcnt) = 0 /\ forall i, is_block D ROOTDEV bno i = false) ->
  cache pid (set_d_bufs (<[b := x']> D.(d_bufs)) D)
    (<[bno := x'.(b_data)]> V) (<[bno := x'.(b_refcnt)]> R) (<[bno := held_by b x']> O).
Proof.
  intros HC Hx Hn Hp Hd Hb Hv Hl Hr Hk Hc Hcase.
  assert (b < length (d_bufs D))%nat as Hlt by (by eapply lookup_lt_Some).
  (* no other buffer has the block *)
  assert (forall i y, i <> b -> d_bufs D !! i = Some y -> b_dev y = ROOTDEV -> b_blockno y <> bno) as Hoth.
  { intros i y Hi Hy Hyd Hyb. destruct Hcase as [[Hxd Hxb]|[_ Hno]].
    - apply Hi. eapply (c_uniq _ _ _ _ _ HC i b); eauto. congruence.
    - specialize (Hno i). apply not_true_iff_false in Hno. apply Hno, is_block_true. eauto. }
  split.
  - destruct (c_ring _ _ _ _ _ HC) as [order HR]. exists order. by eapply ring_insert.
  - cbn. intros i j y z [(-> & -> & _)|[Hi Hy]]%list_lookup_insert_Some
      [(-> & -> & _)|[Hj Hz]]%list_lookup_insert_Some Hyd Hzd Hyz; [done| | |].
    + exfalso. eapply (Hoth j); eauto; congruence.
    + exfalso. eapply (Hoth i); eauto; congruence.
    + by eapply (c_uniq _ _ _ _ _ HC).
  - cbn. intros i y [(-> & -> & _)|[Hi Hy]]%list_lookup_insert_Some; [done|]. by eapply (c_lock _ _ _ _ _ HC).
  - cbn. intros i y [(<- & -> & _)|[Hi Hy]]%list_lookup_insert_Some Hyd.
    + rewrite Hb, !fn_lookup_insert. by split_and!.
    + rewrite !fn_lookup_insert_ne by (intros ->; by eapply (Hoth i y)). by apply (c_used _ _ _ _ _ HC).
  - cbn. intros i y [(-> & -> & _)|[Hi Hy]]%list_lookup_insert_Some Hyd; [done|].
    by eapply (c_idle _ _ _ _ _ HC).
  - intros bno' Hno. assert (bno' <> bno) as Hne.
    { intros ->. specialize (Hno b). apply not_true_iff_false in Hno. apply Hno, is_block_true.
      exists x'. cbn. by rewrite list_lookup_insert_eq. }
    rewrite !fn_lookup_insert_ne by done.
    destruct (decide (is_block D ROOTDEV bno' b = true)) as [Hold|Hold].
    + apply is_block_true in Hold. destruct Hold as (x0 & Hx0 & Hxd & <-).
      rewrite Hx in Hx0. injection Hx0 as <-.
      destruct Hcase as [[_ Hb']|[Hr0 _]]; [done|].
      by apply (cache_idle_block pid D V R O b x).
    + apply (c_none _ _ _ _ _ HC). intros i. destruct (decide (i = b)) as [->|Hi]; [by apply not_true_iff_false|].
      rewrite <-(Hno i). unfold is_block. cbn. by rewrite list_lookup_insert_ne.
  - apply (c_disk _ _ _ _ _ HC).
Qed.

(** ** Operations *)

(** A process [pid] runs on hart [h] with no spinlock of these layers held. *)
Record sess (pid : Z) (h : hart) (D : dyn) : Prop := {
  ss_hart : hart_ok h;
  ss_proc : exists i p, h.(h_proc) = Some i /\ D.(d_procs) !! i = Some p /\ p.(p_pid) = pid;
  ss_calm : calm D.(d_locks);
  ss_len : length D.(d_procs) = NPROC
}.

(** What every operation on buffers leaves alone. *)
Record rest (h : hart) (D D' : dyn) : Prop := {
  r_locks : D'.(d_locks) = D.(d_locks);
  r_procs : woke h.(h_proc) D.(d_procs) D'.(d_procs);
  r_log : D'.(d_log) = D.(d_log);
  r_sb : D'.(d_sb) = D.(d_sb);
  r_itable : D'.(d_itable) = D.(d_itable)
}.

Lemma rest_refl h D : rest h D D.
Proof. split; try done. apply woke_refl. Qed.

Lemma rest_trans h h' D1 D2 D3 :
  h'.(h_proc) = h.(h_proc) -> rest h D1 D2 -> rest h' D2 D3 -> rest h D1 D3.
Proof.
  intros Hp [A1 A2 A3 A4 A5] [B1 B2 B3 B4 B5]. rewrite Hp in B2. split; [congruence| |congruence..].
  by eapply woke_trans.
Qed.

Lemma settle_h_proc h : (settle h).(h_proc) = h.(h_proc).
Proof. unfold settle. by case_match. Qed.

Lemma sess_settle pid h D : sess pid h D -> sess pid (settle h) D.
Proof.
  intros [S1 S2 S3 S4]. split; [by apply settle_ok|by rewrite settle_h_proc|done|done].
Qed.

Lemma sess_stay pid h D D' : sess pid h D -> rest h D D' -> sess pid h D'.
Proof.
  intros [S1 (i & p & Hi & Hp & Hpid) S3 S4] [R1 R2 _ _ _]. split.
  - done.
  - exists i, p. rewrite Hi in R2. split_and!; [done| |done]. by eapply woke_me.
  - by rewrite R1.
  - by rewrite (woke_length _ _ _ R2).
Qed.

Lemma sess_rest pid h D D' : sess pid h D -> rest h D D' -> sess pid (settle h) D'.
Proof. intros. by eapply sess_settle, sess_stay. Qed.

Lemma rest_bufs h x D : rest h D (set_d_bufs x D).
Proof. split; try done. apply woke_refl. Qed.

Lemma ring_frame D D' order :
  D'.(d_bufs) = D.(d_bufs) -> D'.(d_bhead) = D.(d_bhead) -> ring D order -> ring D' order.
Proof. destruct D, D'; cbn. intros -> -> [A1 A2 A3]. by split. Qed.

Lemma ring_locks L D order : ring D order -> ring (set_d_locks L D) order.
Proof. by apply ring_frame. Qed.

(** A buffer becomes the most recently used one. *)
Definition touch (b : nat) (order : list nat) : list nat :=
  b :: filter (fun x => x <> b) order.

Lemma filter_absent b (l : list nat) : b ∉ l -> filter (fun x => x <> b) l = l.
Proof.
  induction l as [|y l IH]; intros Hb; [done|]. apply not_elem_of_cons in Hb.
  rewrite filter_cons_True by (intros ->; tauto). rewrite IH; tauto.
Qed.

Lemma touch_split b l1 l2 : NoDup (l1 ++ b :: l2) -> touch b (l1 ++ b :: l2) = b :: l1 ++ l2.
Proof.
  intros (_ & H1 & [H2 _]%NoDup_cons)%NoDup_app. unfold touch. f_equal.
  rewrite filter_app, filter_cons_False by auto.
  rewrite !filter_absent; [done|done|]. intros Hx. apply (H1 b Hx). apply list_elem_of_here.
Qed.

Section ops.
Context (B : world -> Prop) (h : hart) (env : list turn) (tr : list event) (D : dyn) (s : kstate).
Context (pid : Z) (HS : sess pid h D).

(** The end of both branches of bget(): release() and acquiresleep(). *)
Lemma wpx_bget_end b x (Q : nat -> world -> Prop) :
  length D.(d_bufs) = NBUF ->
  (b < NBUF)%nat -> x.(b_lock).(sl_locked) = 0 ->
  Q b (World (settle h) env tr (dset (set_d_bufs
    (<[b := set_b_lock (Sleeplock 1 x.(b_lock).(sl_name) pid) x]> D.(d_bufs)) D) s)) ->
  wpx B (release bcache_lock;; acquiresleep (SLbuf b);; mret b) Q
    (World (hart_push h) env tr (dset (set_d_bufs (<[b := x]> D.(d_bufs))
       (set_d_locks (lock_by h.(h_tp) bcache_lock D.(d_locks)) D)) s)).
Proof using HS.
  intros Hlen Hb Hfree HQ. destruct HS as [Hh (i & p & Hi & Hp & Hpid) HL Hsz].
  assert (b < length (d_bufs D))%nat as Hb' by lia.
  kstep. eapply (wpx_drelease _ _ _ _ _ _ _ D.(d_locks)); [done|by apply calm_bcache|done|].
  change (set_d_locks (d_locks D) (set_d_bufs ?l (set_d_locks ?L D))) with
    (set_d_locks (d_locks D) (set_d_bufs l D)).
  replace (set_d_locks (d_locks D) (set_d_bufs (<[b:=x]> (d_bufs D)) D))
    with (set_d_bufs (<[b:=x]> (d_bufs D)) D) by by destruct D.
  assert (d_bufs (set_d_bufs (<[b:=x]> (d_bufs D)) D) !! b = Some x) as Hx.
  { cbn. by rewrite list_lookup_insert_eq. }
  kstep. apply (wpx_acquiresleep _ _ _ _ _ _ _ i p).
  - by apply settle_ok.
  - by rewrite settle_h_proc.
  - done.
  - done.
  - cbn. rewrite length_insert. lia.
  - done.
  - cbn. rewrite list_lookup_insert_eq by done. done.
  - apply wpx_ret. rewrite settle_idemp. cbn [dset_sl dsl]. rewrite Hx. cbn [d_bufs set_d_bufs fmap option_fmap option_map default].
    rewrite (alter_as_insert _ _ _ x) by (by rewrite list_lookup_insert_eq).
    rewrite list_insert_insert_eq. rewrite Hpid. exact HQ.
Qed.

Lemma wpx_bget_hit order dev bno b x (Q : nat -> world -> Prop) :
  ring D order -> List.find (is_block D dev bno) order = Some b -> D.(d_bufs) !! b = Some x ->
  x.(b_lock).(sl_locked) = 0 ->
  Q b (World (settle h) env tr (dset (set_d_bufs
    (<[b := set_b_lock (Sleeplock 1 x.(b_lock).(sl_name) pid)
              (set_b_refcnt (u32 (x.(b_refcnt) + 1)) x)]> D.(d_bufs)) D) s)) ->
  wpx B (bget dev bno) Q (World h env tr (dset D s)).
Proof using HS.
  intros HR Hf Hx Hfree HQ. unfold bget.
  kstep. apply wpx_dacquire; [apply calm_bcache, HS|].
  kstep. apply wpx_buf_next; [by left|]. kstep. eapply wpx_scan_cached; [by apply ring_locks|].
  change (is_block (set_d_locks _ D)) with (is_block D). rewrite Hf.
  kstep. apply wpx_upd_buf. cbn [d_bufs set_d_locks]. rewrite (alter_as_insert _ _ _ x) by done.
  apply (wpx_bget_end b (set_b_refcnt (u32 (x.(b_refcnt) + 1)) x)); [apply HR| |done|done].
  rewrite <-(ring_len _ _ HR). by eapply lookup_lt_Some.
Qed.

Lemma wpx_bget_miss order dev bno b x (Q : nat -> world -> Prop) :
  ring D order -> List.find (is_block D dev bno) order = None ->
  List.find (is_unused D) (rev order) = Some b -> D.(d_bufs) !! b = Some x ->
  x.(b_lock).(sl_locked) = 0 ->
  Q b (World (settle h) env tr (dset (set_d_bufs
    (<[b := set_b_lock (Sleeplock 1 x.(b_lock).(sl_name) pid)
              (set_b_refcnt 1 (set_b_valid 0 (set_b_blockno bno (set_b_dev dev x))))]> D.(d_bufs)) D) s)) ->
  wpx B (bget dev bno) Q (World h env tr (dset D s)).
Proof using HS.
  intros HR Hf Hu Hx Hfree HQ. unfold bget.
  assert (b < length (d_bufs D))%nat as Hlt by (by eapply lookup_lt_Some).
  kstep. apply wpx_dacquire; [apply calm_bcache, HS|].
  kstep. apply wpx_buf_next; [by left|]. kstep. eapply wpx_scan_cached; [by apply ring_locks|].
  change (is_block (set_d_locks _ D)) with (is_block D). rewrite Hf.
  kstep. apply wpx_buf_prev; [by left|]. kstep. eapply wpx_scan_unused; [by apply ring_locks|].
  change (is_unused (set_d_locks _ D)) with (is_unused D). rewrite Hu.
  do 4 (kstep; apply wpx_upd_buf; cbn [d_bufs set_d_locks set_d_bufs];
    erewrite alter_as_insert by (first [exact Hx|by apply list_lookup_insert_eq]);
    rewrite ?list_insert_insert_eq).
  apply (wpx_bget_end b (set_b_refcnt 1 (set_b_valid 0 (set_b_blockno bno (set_b_dev dev x)))));
    [apply HR| |done|done].
  rewrite <-(ring_len _ _ HR). by eapply lookup_lt_Some.
Qed.

(** No buffer for the block and none unused: bget() panics. *)
Lemma bget_panic order dev bno :
  ring D order -> List.find (is_block D dev bno) order = None ->
  List.find (is_unused D) order = None ->
  bget dev bno (World h env tr (dset D s)) = Panic "bget: no buffers".
Proof using HS.
  intros HR Hf Hu. set (L := lock_by h.(h_tp) bcache_lock D.(d_locks)).
  set (w1 := World (hart_push h) env tr (dset (set_d_locks L D) s)).
  assert (acquire bcache_lock (World h env tr (dset D s)) = Ret tt w1) as E1.
  { apply wp_det. by apply wpx_dacquire; [apply calm_bcache, HS|]. }
  assert (find_cached NBUF (nxt (set_d_locks L D) NBUF) dev bno w1 = Ret None w1) as E2.
  { apply wp_det. eapply wpx_scan_cached; [by apply ring_locks|].
    change (is_block (set_d_locks _ D)) with (is_block D). by rewrite Hf. }
  assert (find_unused_buf NBUF (prv (set_d_locks L D) NBUF) w1 = Ret None w1) as E3.
  { apply wp_det. eapply wpx_scan_unused; [by apply ring_locks|].
    change (is_unused (set_d_locks _ D)) with (is_unused D).
    destruct (List.find (is_unused D) (rev order)) as [b|] eqn:E; [|done].
    apply find_some in E. destruct E as [Hin Hb]. apply in_rev in Hin.
    rewrite (find_none _ _ Hu b Hin) in Hb. done. }
  unfold bget. rewrite (bind_run _ _ _ _ _ E1).
  rewrite (bind_run (buf_next NBUF) _ w1 (nxt (set_d_locks L D) NBUF) w1) by done.
  rewrite (bind_run _ _ _ _ _ E2).
  rewrite (bind_run (buf_prev NBUF) _ w1 (prv (set_d_locks L D) NBUF) w1) by done.
  by rewrite (bind_run _ _ _ _ _ E3).
Qed.

End ops.

(** Searching a list backwards finds the last element. *)
Lemma find_rev_split (f : nat -> bool) l b :
  List.find f (rev l) = Some b ->
  exists l1 l2, l = l1 ++ b :: l2 /\ f b = true /\ forall i, i ∈ l2 -> f i = false.
Proof.
  induction l as [|x l IH] using rev_ind; [done|]. rewrite rev_app_distr. cbn.
  destruct (f x) eqn:Hx.
  - intros [= <-]. exists l, []. split_and!; [done|done|]. intros i Hi. by apply not_elem_of_nil in Hi.
  - intros H. destruct (IH H) as (l1 & l2 & -> & Hb & H2). exists l1, (l2 ++ [x]).
    split_and!; [by rewrite <-app_assoc|done|]. intros i [Hi| ->%list_elem_of_singleton]%elem_of_app; auto.
Qed.

(** Fewer than [NBUF] blocks are referenced. *)
Definition roomy (R : Z -> Z) : Prop :=
  exists S : gset Z, (size S < NBUF)%nat /\ forall bno, R bno <> 0 -> bno ∈ S.

(** Then some buffer is unused. *)
Lemma roomy_unused pid D V R O order :
  cache pid D V R O -> roomy R -> ring D order ->
  exists b x, List.find (is_unused D) (rev order) = Some b /\ D.(d_bufs) !! b = Some x /\ x.(b_refcnt) = 0.
Proof.
  intros HC (S & Hsz & HS) HR. destruct (List.find (is_unused D) (rev order)) as [b|] eqn:E.
  { apply find_some in E. destruct E as [_ E]. unfold is_unused in E. exists b.
    destruct (d_bufs D !! b) as [x|] eqn:Hx; [|done]. exists x. by rewrite Z.eqb_eq in E. }
  exfalso. set (l := b_blockno <$> D.(d_bufs)).
  assert (forall i x, d_bufs D !! i = Some x -> b_refcnt x <> 0) as Hall.
  { intros i x Hx Hr. assert (is_unused D i = false) as Hu.
    - apply (find_none _ _ E), in_rev. rewrite rev_involutive. apply list_elem_of_In, (ring_lt _ _ i HR).
      apply lookup_lt_Some in Hx. by rewrite (ring_len _ _ HR) in Hx.
    - unfold is_unused in Hu. rewrite Hx, Hr in Hu. done. }
  assert (forall i x, d_bufs D !! i = Some x -> b_dev x = ROOTDEV) as Hdev.
  { intros i x Hx. destruct (decide (b_dev x = ROOTDEV)) as [|Hd]; [done|].
    exfalso. eapply Hall; [done|]. by eapply (c_idle _ _ _ _ _ HC). }
  assert (NoDup l) as Hnd.
  { apply NoDup_alt. intros i j v (x & -> & Hx)%list_lookup_fmap_Some (y & Hxy & Hy)%list_lookup_fmap_Some.
    eapply (c_uniq _ _ _ _ _ HC); eauto. }
  assert (list_to_set l ⊆ S) as Hsub.
  { intros v Hv%elem_of_list_to_set. apply list_elem_of_fmap in Hv. destruct Hv as (x & -> & Hx).
    apply list_elem_of_lookup in Hx. destruct Hx as [i Hx]. apply HS.
    destruct (c_used _ _ _ _ _ HC i x Hx (Hdev i x Hx)) as (_ & _ & _ & -> & _). eauto. }
  apply subseteq_size in Hsub. rewrite size_list_to_set in Hsub by done.
  unfold l in Hsub. rewrite length_fmap, (ring_len _ _ HR) in Hsub. lia.
Qed.

(** The buffer of a block that this process holds. *)
Lemma cache_held pid D V R O bno b :
  cache pid D V R O -> O bno = Some b ->
  exists x, D.(d_bufs) !! b = Some x /\ x.(b_dev) = ROOTDEV /\ x.(b_blockno) = bno /\ x.(b_valid) = 1 /\
    x.(b_data) = V bno /\ x.(b_refcnt) = R bno /\ 0 < R bno /\ length (V bno) = bsize /\
    x.(b_lock).(sl_locked) = 1 /\ x.(b_lock).(sl_pid) = pid.
Proof.
  intros HC HO. destruct (c_ring _ _ _ _ _ HC) as [order HR].
  destruct (block_cases D order ROOTDEV bno HR) as [(b' & _ & Hb)|[_ Hno]].
  - apply is_block_true in Hb. destruct Hb as (x & Hx & Hd & <-).
    destruct (c_used _ _ _ _ _ HC b' x Hx Hd) as (Hv & Hl & Hr & HR' & HV & HO' & _).
    rewrite HO' in HO. unfold held_by in HO. destruct (Z.eqb_spec (sl_locked (b_lock x)) 0); [done|].
    injection HO as ->. exists x.
    destruct (c_lock _ _ _ _ _ HC b x Hx) as [?|(L1 & L2 & L3)]; [done|].
    rewrite HV, HR'. split_and!; try done. lia.
  - destruct (c_none _ _ _ _ _ HC bno Hno) as (_ & _ & HO'). congruence.
Qed.

(** Assigning to [b->data] of a buffer held. *)
Lemma cache_put pid D V R O bno b l :
  cache pid D V R O -> O bno = Some b -> length l = bsize ->
  cache pid (set_d_bufs (alter (set_b_data l) b D.(d_bufs)) D) (<[bno := l]> V) R O.
Proof.
  intros HC HO Hl. destruct (cache_held _ _ _ _ _ _ _ HC HO) as
    (x & Hx & Hd & Hb & Hv & HV & HR & Hpos & _ & Hk & Hp).
  rewrite (alter_as_insert _ _ _ x) by done.
  pose proof (cache_replace pid D V R O b x (set_b_data l x) bno HC Hx) as H.
  eapply cache_ext; [apply H; cbn; try done|..].
  - rewrite HR. lia.
  - right. cbn. rewrite HR. split_and!; [done..|lia].
  - rewrite HR. lia.
  - by left.
  - done.
  - intros k. cbn. destruct (decide (bno = k)) as [<-|]; [by rewrite fn_lookup_insert|by rewrite fn_lookup_insert_ne].
  - intros k. destruct (decide (bno = k)) as [<-|]; [|by rewrite fn_lookup_insert_ne].
    rewrite fn_lookup_insert. unfold held_by. cbn. by rewrite Hk.
Qed.

(** The disk catches up with a buffer. *)
Lemma cache_set_disk pid D V R O bno b :
  cache pid D V R O -> O bno = Some b ->
  cache pid (set_d_disk (<[bno := V bno]> D.(d_disk)) D) V R O.
Proof.
  intros HC HO. destruct (cache_held _ _ _ _ _ _ _ HC HO) as
    (x & Hx & Hd & Hb & Hv & HV & HR & Hpos & Hl & Hk & Hp).
  assert (forall k, k <> bno -> disk_at (<[bno := V bno]> (d_disk D)) k = disk_at (d_disk D) k) as Hne.
  { intros k Hk'. unfold disk_at. by rewrite lookup_insert_ne. }
  pose proof HC as [C1 C2 C3 C4 C5 C6 C7]. split; try done.
  - destruct C1 as [order C1]. exists order. by apply (ring_frame D).
  - intros i y Hy Hyd. destruct (C4 i y Hy Hyd) as (? & ? & ? & ? & ? & ? & Hcl).
    split_and!; try done. intros Hr. cbn [d_disk set_d_disk]. rewrite Hne; [auto|]. intros E.
    rewrite E in *. lia.
  - intros k Hk'. destruct (C6 k Hk') as (? & HVk & HOk). cbn [d_disk set_d_disk].
    rewrite Hne; [auto|]. congruence.
  - intros k. cbn [d_disk set_d_disk]. destruct (decide (k = bno)) as [->|]; [|by rewrite Hne].
    unfold disk_at. by rewrite lookup_insert_eq.
Qed.

(** Moving buffers in the LRU list does not matter to the cache. *)
Lemma relinked_back D D' : relinked D D' -> relinked D' D.
Proof. intros []. by split. Qed.

Lemma relinked_same x x' :
  set_b_next 0 (set_b_prev 0 x') = set_b_next 0 (set_b_prev 0 x) ->
  x'.(b_dev) = x.(b_dev) /\ x'.(b_blockno) = x.(b_blockno) /\ x'.(b_valid) = x.(b_valid) /\
  x'.(b_data) = x.(b_data) /\ x'.(b_refcnt) = x.(b_refcnt) /\ x'.(b_lock) = x.(b_lock).
Proof. destruct x, x'. unfold set_b_next, set_b_prev. cbn. intros [=]. by subst. Qed.

Lemma cache_relinked pid D D' V R O order :
  cache pid D V R O -> relinked D D' -> ring D' order -> cache pid D' V R O.
Proof.
  intros [C1 C2 C3 C4 C5 C6 C7] HR Hring.
  assert (forall i x', d_bufs D' !! i = Some x' -> exists x, d_bufs D !! i = Some x /\
    x'.(b_dev) = x.(b_dev) /\ x'.(b_blockno) = x.(b_blockno) /\ x'.(b_valid) = x.(b_valid) /\
    x'.(b_data) = x.(b_data) /\ x'.(b_refcnt) = x.(b_refcnt) /\ x'.(b_lock) = x.(b_lock)) as Hb.
  { intros i x' Hx'. destruct (relinked_bufs _ _ _ _ (relinked_back _ _ HR) Hx') as (x & Hx & E).
    exists x. split; [done|]. by apply relinked_same. }
  assert (d_disk D' = d_disk D) as Hdisk by (destruct HR as [E _]; by injection E).
  split.
  - by exists order.
  - intros i j x y Hx Hy. destruct (Hb _ _ Hx) as (x0 & Hx0 & -> & -> & _).
    destruct (Hb _ _ Hy) as (y0 & Hy0 & -> & -> & _). by apply (C2 i j).
  - intros i x Hx. destruct (Hb _ _ Hx) as (x0 & Hx0 & _ & _ & _ & _ & E5 & E6).
    unfold lock_ok. rewrite E5, E6. by apply (C3 i).
  - intros i x Hx. destruct (Hb _ _ Hx) as (x0 & Hx0 & -> & -> & -> & -> & -> & E6).
    unfold held_by. rewrite E6, Hdisk. by apply (C4 i).
  - intros i x Hx. destruct (Hb _ _ Hx) as (x0 & Hx0 & -> & _ & _ & _ & -> & _). by apply (C5 i).
  - intros bno Hno. rewrite Hdisk. apply C6. intros i. rewrite <-(Hno i). unfold is_block.
    destruct (d_bufs D !! i) as [x|] eqn:Hx.
    + destruct (relinked_bufs _ _ _ _ HR Hx) as (x' & -> & E). apply relinked_same in E.
      by destruct E as (-> & -> & _).
    + destruct (d_bufs D' !! i) as [x'|] eqn:Hx'; [|done].
      destruct (Hb _ _ Hx') as (x0 & Hx0 & _). congruence.
  - intros bno. by rewrite Hdisk.
Qed.

(** An update of a buffer under the cache's lock; other locks may be held. *)
Lemma wpx_locked_upd B h env tr D s b f (Q : unit -> world -> Prop) :
  hart_ok h -> (exists name, D.(d_locks) !! bcache_lock = Some (free_lock name)) ->
  Q tt (World (settle h) env tr (dset (set_d_bufs (alter f b D.(d_bufs)) D) s)) ->
  wpx B (acquire bcache_lock;; upd_buf b f;; release bcache_lock) Q (World h env tr (dset D s)).
Proof.
  intros Hh HL HQ. kstep. apply wpx_dacquire; [done|]. kstep. apply wpx_upd_buf.
  eapply (wpx_drelease _ _ _ _ _ _ _ D.(d_locks)); [done|done|done|].
  replace (set_d_locks _ _) with (set_d_bufs (alter f b (d_bufs D)) D) by (by destruct D). done.
Qed.

(** ** Specifications *)

Section specs.
Context (B : world -> Prop) (h : hart) (env : list turn) (tr : list event) (D : dyn) (s : kstate).
Context (pid : Z) (V : Z -> list Z) (R : Z -> Z) (O : Z -> option nat).
Context (HS : sess pid h D) (HC : cache pid D V R O).

Lemma fn_same {A} (f : Z -> A) k x : f k = x -> forall j, f j = <[k := x]> f j.
Proof. intros <- j. destruct (decide (k = j)) as [<-|]; [by rewrite fn_lookup_insert|by rewrite fn_lookup_insert_ne]. Qed.

(** bread() of a block that is in a buffer, and of one that is not. *)
Lemma wpx_bread_hit order bno b x (Q : nat -> world -> Prop) :
  ring D order -> List.find (is_block D ROOTDEV bno) order = Some b -> D.(d_bufs) !! b = Some x ->
  x.(b_lock).(sl_locked) = 0 -> x.(b_valid) = 1 ->
  Q b (World (settle h) env tr (dset (set_d_bufs
    (<[b := set_b_lock (Sleeplock 1 x.(b_lock).(sl_name) pid)
              (set_b_refcnt (u32 (x.(b_refcnt) + 1)) x)]> D.(d_bufs)) D) s)) ->
  wpx B (bread ROOTDEV bno) Q (World h env tr (dset D s)).
Proof using HS.
  intros HR Hf Hx Hfree Hv HQ. unfold bread. kstep.
  eapply (wpx_bget_hit _ _ _ _ _ _ _ HS order _ _ b x); [done..|].
  set (x' := set_b_lock _ _). kstep. eapply (wpx_get_buf _ _ _ _ _ _ b x').
  { cbn. apply list_lookup_insert_eq. by eapply lookup_lt_Some. }
  cbn [b_valid x' set_b_lock set_b_refcnt]. rewrite Hv. change (negb (ztrue 1)) with false.
  by apply wpx_bind, wpx_ret, wpx_ret.
Qed.

Lemma wpx_bread_miss order bno b x (Q : nat -> world -> Prop) :
  ring D order -> List.find (is_block D ROOTDEV bno) order = None ->
  List.find (is_unused D) (rev order) = Some b -> D.(d_bufs) !! b = Some x ->
  x.(b_lock).(sl_locked) = 0 ->
  Q b (World (settle h) env tr (dset (set_d_bufs
    (<[b := Buf 1 x.(b_disk) ROOTDEV bno (Sleeplock 1 x.(b_lock).(sl_name) pid) 1 x.(b_prev) x.(b_next)
              (disk_at D.(d_disk) bno)]> D.(d_bufs)) D) s)) ->
  wpx B (bread ROOTDEV bno) Q (World h env tr (dset D s)).
Proof using HS.
  intros HR Hf Hu Hx Hfree HQ. unfold bread. kstep.
  assert (b < length (d_bufs D))%nat as Hlt by (by eapply lookup_lt_Some).
  eapply (wpx_bget_miss _ _ _ _ _ _ _ HS order _ _ b x); [done..|].
  set (x1 := set_b_lock _ _). kstep. eapply (wpx_get_buf _ _ _ _ _ _ b x1).
  { cbn. by apply list_lookup_insert_eq. }
  cbn [b_valid x1 set_b_lock set_b_refcnt set_b_valid]. change (negb (ztrue 0)) with true.
  kstep. unfold when, disk_rw. kstep. kstep. eapply (wpx_get_buf _ _ _ _ _ _ b x1).
  { cbn. by apply list_lookup_insert_eq. }
  kstep. apply wpx_dget. apply wpx_upd_buf. apply wpx_upd_buf. apply wpx_ret.
  cbn [d_bufs set_d_bufs disk dset d_disk].
  rewrite (alter_as_insert (set_b_data _) _ _ x1) by (by apply list_lookup_insert_eq). rewrite list_insert_insert_eq.
  erewrite alter_as_insert by (by apply list_lookup_insert_eq). rewrite list_insert_insert_eq.
  exact HQ.
Qed.

(** bread() returns the buffer of the block, locked, with the block's
    contents; nothing else that can be observed changes. *)
Lemma wpx_bread bno (Q : nat -> world -> Prop) :
  O bno = None -> R bno < 2 ^ 32 - 1 -> (R bno = 0 -> roomy R) ->
  (forall b D', rest h D D' -> sess pid (settle h) D' -> D'.(d_disk) = D.(d_disk) ->
     cache pid D' V (<[bno := R bno + 1]> R) (<[bno := Some b]> O) ->
     Q b (World (settle h) env tr (dset D' s))) ->
  wpx B (bread ROOTDEV bno) Q (World h env tr (dset D s)).
Proof using HS HC.
  intros HO HR1 Hroom HQ. destruct (c_ring _ _ _ _ _ HC) as [order HR].
  assert (forall l, sess pid (settle h) (set_d_bufs l D)) as HS' by (intros l; eapply sess_rest, rest_bufs; done).
  destruct (block_cases D order ROOTDEV bno HR) as [(b & Hf & Hb)|[Hf Hno]].
  - apply is_block_true in Hb. destruct Hb as (x & Hx & Hd & Hbn).
    destruct (c_used _ _ _ _ _ HC b x Hx Hd) as (Hv & Hl & Hr & HRx & HVx & HOx & _).
    rewrite Hbn in HRx, HVx, HOx. rewrite HO in HOx. unfold held_by in HOx.
    destruct (Z.eqb_spec (sl_locked (b_lock x)) 0) as [Hfree|]; [|done].
    eapply (wpx_bread_hit order bno b x); [done..|].
    assert (u32 (b_refcnt x + 1) = R bno + 1) as -> by (rewrite u32_small; lia).
    set (x' := set_b_lock _ _). apply HQ; [apply rest_bufs|done..|].
    pose proof (cache_replace pid D V R O b x x' bno HC Hx) as Hc.
    eapply cache_ext; [apply Hc; try done; cbn; try lia; right; cbn; split_and!; [done..|lia]|..].
    + apply fn_same. done.
    + done.
    + done.
  - destruct (c_none _ _ _ _ _ HC bno Hno) as (HR0 & HV0 & _).
    destruct (roomy_unused _ _ _ _ _ order HC) as (b & x & Hu & Hx & Hr); [by apply Hroom|done|].
    assert (sl_locked (b_lock x) = 0) as Hfree by (by destruct (c_lock _ _ _ _ _ HC b x Hx) as [|(_ & _ & ?)]).
    eapply (wpx_bread_miss order bno b x); [done..|].
    set (x' := Buf _ _ _ _ _ _ _ _ _). apply HQ; [apply rest_bufs|done..|].
    pose proof (cache_replace pid D V R O b x x' bno HC Hx) as Hc.
    eapply cache_ext; [apply Hc; try done; cbn; [apply (c_disk _ _ _ _ _ HC)|right; cbn; done|right; done]|..].
    + apply fn_same. done.
    + intros k. cbn. by rewrite HR0.
    + done.
Qed.

(** bwrite() writes the contents of the block to the disk. *)
Lemma wpx_bwrite bno b (Q : unit -> world -> Prop) :
  O bno = Some b ->
  (forall D', rest h D D' -> sess pid (settle h) D' -> D'.(d_disk) = <[bno := V bno]> D.(d_disk) ->
     cache pid D' V R O ->
     Q tt (World (settle h) env (tr ++ [EvDiskWrite ROOTDEV bno (V bno)]) (dset D' s))) ->
  wpx B (bwrite b) Q (World h env tr (dset D s)).
Proof using HS HC.
  intros HO HQ. destruct (cache_held _ _ _ _ _ _ _ HC HO) as
    (x & Hx & Hd & Hb & Hv & HV & HR & Hpos & Hl & Hk & Hp).
  pose proof HS as [Hh (i & p & Hi & Hpi & Hpid) HL Hsz].
  assert (b < length (d_bufs D))%nat as Hlt by (by eapply lookup_lt_Some).
  destruct (c_ring _ _ _ _ _ HC) as [order Hring].
  assert (dsl (SLbuf b) D = b_lock x) as Hsl by (cbn; by rewrite Hx).
  unfold bwrite. kstep. apply (wpx_holdingsleep _ _ _ _ _ _ _ i p); try done.
  { split; [done|]. by rewrite <-(ring_len _ _ Hring). }
  { by rewrite Hsl. } { rewrite Hsl. congruence. }
  change (negb true) with false. cbv iota. unfold disk_rw. kstep.
  apply (wpx_get_buf _ _ _ _ _ _ b x); [done|]. kstep. eapply (wpx_dmod _ _ _ _ _ _ _ _ (set_d_disk (<[b_blockno x := b_data x]> (d_disk D)) D)); [done|]. kstep.
  rewrite Hd, Hb, HV. apply HQ.
  - split; try done. apply woke_refl.
  - eapply sess_rest; [done|]. split; try done. apply woke_refl.
  - done.
  - by eapply cache_set_disk.
Qed.

(** brelse(): the lock and one reference go; an unused buffer moves to the
    front of the list. *)
Lemma wpx_brelse_exact order b x (Q : unit -> world -> Prop) :
  ring D order -> D.(d_bufs) !! b = Some x ->
  x.(b_lock).(sl_locked) = 1 -> x.(b_lock).(sl_pid) = pid ->
  let x1 := set_b_refcnt (u32 (x.(b_refcnt) - 1)) (set_b_lock (Sleeplock 0 x.(b_lock).(sl_name) 0) x) in
  (forall P D', woke h.(h_proc) D.(d_procs) P ->
     relinked (set_d_procs P (set_d_bufs (<[b := x1]> D.(d_bufs)) D)) D' ->
     ring D' (if x1.(b_refcnt) =? 0 then touch b order else order) ->
     Q tt (World (settle h) env tr (dset D' s))) ->
  wpx B (brelse b) Q (World h env tr (dset D s)).
Proof using HS.
  clear HC. intros HR Hx Hk Hp x1 HQ. pose proof HS as [Hh (i & p & Hi & Hpi & Hpid) HL Hsz].
  assert (b < length (d_bufs D))%nat as Hlt by (by eapply lookup_lt_Some).
  assert (dsl (SLbuf b) D = b_lock x) as Hsl by (cbn; by rewrite Hx).
  assert (sl_valid (SLbuf b) D) as Hval by (split; [done|]; by rewrite <-(ring_len _ _ HR)).
  unfold brelse. kstep. apply (wpx_holdingsleep _ _ _ _ _ _ _ i p); try done.
  { by rewrite Hsl. } { rewrite Hsl. congruence. }
  change (negb true) with false. cbv iota.
  kstep. apply (wpx_releasesleep _ _ _ _ _ _ _ i p); try done; [by apply settle_ok|by rewrite settle_h_proc|].
  intros P HP. rewrite settle_idemp, Hsl. cbn [dset_sl]. rewrite (alter_as_insert _ _ _ x) by done.
  kstep. apply wpx_dacquire; [by apply calm_bcache|].
  kstep. apply wpx_upd_buf. cbn [d_bufs set_d_locks set_d_procs set_d_bufs].
  erewrite alter_as_insert by (by apply list_lookup_insert_eq). rewrite list_insert_insert_eq.
  change (b_refcnt (set_b_lock ?l x)) with (b_refcnt x). fold x1.
  kstep. eapply (wpx_get_buf _ _ _ _ _ _ b x1); [cbn; by apply list_lookup_insert_eq|].
  set (D1 := set_d_procs P (set_d_bufs (<[b := x1]> D.(d_bufs)) D)).
  set (L := lock_by (h_tp (settle h)) bcache_lock D.(d_locks)).
  change (set_d_bufs (<[b:=x1]> (d_bufs D)) (set_d_locks _ _)) with (set_d_locks L D1).
  assert (ring D1 order) as HR1.
  { apply (ring_frame (set_d_bufs (<[b := x1]> D.(d_bufs)) D)); try done. by eapply ring_insert. }
  kstep. rewrite Hi in HQ. eapply wpx_mono with (Q := fun _ w => exists D',
    w = World (hart_push (settle h)) env tr (dset D' s) /\ relinked (set_d_locks L D1) D' /\
    ring D' (if b_refcnt x1 =? 0 then touch b order else order)).
  - unfold when. destruct (b_refcnt x1 =? 0).
    + assert (b ∈ order) as Hin by (apply (ring_lt _ _ b HR); rewrite <-(ring_len _ _ HR); done).
      apply list_elem_of_split in Hin. destruct Hin as (l1 & l2 & ->).
      rewrite touch_split by (by apply (ring_nodup D)).
      eapply wpx_move_front; [by apply ring_locks|]. eauto.
    + apply wpx_ret. eexists. split_and!; [done|apply relinked_refl|]. by apply ring_locks.
  - intros [] w (D' & -> & Hrel & HR'). cbn beta.
    assert (d_locks D' = L) as HL' by (destruct Hrel as [E _]; by injection E).
    eapply (wpx_drelease _ _ _ _ _ _ _ D.(d_locks)); [by apply settle_ok|by apply calm_bcache|done|].
    rewrite settle_idemp. apply (HQ P); [done| |by apply ring_locks].
    destruct Hrel as [E1 E2]. split; [|done]. injection E1. destruct D'; cbn. intros; by subst.
Qed.

(** brelse() gives the lock and the reference back; the last holder must
    have made the disk agree. *)
Lemma wpx_brelse bno b (Q : unit -> world -> Prop) :
  O bno = Some b -> R bno < 2 ^ 32 -> (R bno = 1 -> V bno = disk_at D.(d_disk) bno) ->
  (forall D', rest h D D' -> sess pid (settle h) D' -> D'.(d_disk) = D.(d_disk) ->
     cache pid D' V (<[bno := R bno - 1]> R) (<[bno := None]> O) ->
     Q tt (World (settle h) env tr (dset D' s))) ->
  wpx B (brelse b) Q (World h env tr (dset D s)).
Proof using HS HC.
  intros HO HRb Hlast HQ. destruct (cache_held _ _ _ _ _ _ _ HC HO) as
    (x & Hx & Hd & Hb & Hv & HV & HR & Hpos & Hl & Hk & Hp).
  destruct (c_ring _ _ _ _ _ HC) as [order Hring].
  eapply wpx_brelse_exact; [done..|]. cbv zeta. rewrite HR.
  assert (u32 (R bno - 1) = R bno - 1) as -> by (apply u32_small; lia).
  set (x1 := set_b_refcnt _ _). intros P D' HP Hrel HR'.
  assert (rest h D D') as Hrest.
  { destruct Hrel as [E _]. injection E. intros. by split; subst. }
  apply HQ; [done|by eapply sess_rest|destruct Hrel as [E _]; by injection E|].
  eapply cache_relinked; [|done..].
  pose proof (cache_replace pid D V R O b x x1 bno HC Hx) as Hc.
  eapply (cache_frame _ (set_d_bufs (<[b:=x1]> (d_bufs D)) D)); [done..|].
  eapply cache_ext; [apply Hc; try done; cbn; try lia; try (by rewrite HV); [by left|]|..].
  - intros Hr. rewrite HV. apply Hlast. lia.
  - cbn. rewrite HV. by apply fn_same.
  - done.
  - done.
Qed.

(** The reference count of a held buffer is set to [r]. *)
Lemma cache_recount bno b r :
  O bno = Some b -> 0 < r ->
  cache pid (set_d_bufs (alter (set_b_refcnt r) b D.(d_bufs)) D) V (<[bno := r]> R) O.
Proof using HC.
  intros HO Hr. destruct (cache_held _ _ _ _ _ _ _ HC HO) as
    (x & Hx & Hd & Hb & Hv & HV & HR & Hpos & Hl & Hk & Hp).
  rewrite (alter_as_insert _ _ _ x) by done.
  pose proof (cache_replace pid D V R O b x (set_b_refcnt r x) bno HC Hx) as Hc.
  eapply cache_ext; [apply Hc; try done; cbn; try lia; try (by rewrite HV)|..].
  - right. cbn. split_and!; [done..|lia].
  - cbn. rewrite HV. by apply fn_same.
  - done.
  - apply fn_same. unfold held_by. cbn. by rewrite Hk.
Qed.

Lemma wpx_bpin bno b (Q : unit -> world -> Prop) :
  O bno = Some b -> R bno < 2 ^ 32 - 1 ->
  (forall D', rest h D D' -> sess pid (settle h) D' -> D'.(d_disk) = D.(d_disk) ->
     cache pid D' V (<[bno := R bno + 1]> R) O -> Q tt (World (settle h) env tr (dset D' s))) ->
  wpx B (bpin b) Q (World h env tr (dset D s)).
Proof using HS HC.
  intros HO HRb HQ. destruct (cache_held _ _ _ _ _ _ _ HC HO) as
    (x & Hx & Hd & Hb & Hv & HV & HR & Hpos & _).
  unfold bpin. apply wpx_locked_upd; [apply HS|apply calm_bcache, HS|]. erewrite alter_as_insert by done. rewrite HR, u32_small by lia.
  rewrite <-(alter_as_insert (set_b_refcnt (R bno + 1)) _ _ x) by done.
  apply HQ; [apply rest_bufs|eapply sess_rest, rest_bufs; done|done|]. apply cache_recount; [done|lia].
Qed.

Lemma wpx_bunpin bno b (Q : unit -> world -> Prop) :
  O bno = Some b -> 1 < R bno < 2 ^ 32 ->
  (forall D', rest h D D' -> sess pid (settle h) D' -> D'.(d_disk) = D.(d_disk) ->
     cache pid D' V (<[bno := R bno - 1]> R) O -> Q tt (World (settle h) env tr (dset D' s))) ->
  wpx B (bunpin b) Q (World h env tr (dset D s)).
Proof using HS HC.
  intros HO HRb HQ. destruct (cache_held _ _ _ _ _ _ _ HC HO) as
    (x & Hx & Hd & Hb & Hv & HV & HR & Hpos & _).
  unfold bunpin. apply wpx_locked_upd; [apply HS|apply calm_bcache, HS|]. erewrite alter_as_insert by done. rewrite HR, u32_small by lia.
  rewrite <-(alter_as_insert (set_b_refcnt (R bno - 1)) _ _ x) by done.
  apply HQ; [apply rest_bufs|eapply sess_rest, rest_bufs; done|done|]. apply cache_recount; [done|lia].
Qed.

(** Access to the data of a held buffer. *)
Lemma wpx_held_data bno b (Q : buf -> world -> Prop) :
  O bno = Some b ->
  (forall x, x.(b_data) = V bno -> x.(b_blockno) = bno -> x.(b_refcnt) = R bno ->
     Q x (World h env tr (dset D s))) ->
  wpx B (get_buf b) Q (World h env tr (dset D s)).
Proof using HC.
  intros HO HQ. destruct (cache_held _ _ _ _ _ _ _ HC HO) as
    (x & Hx & Hd & Hb & Hv & HV & HR & Hpos & _).
  apply (wpx_get_buf _ _ _ _ _ _ b x); [done|]. by apply HQ.
Qed.

Lemma wpx_put_data bno b l (Q : unit -> world -> Prop) :
  O bno = Some b -> length l = bsize ->
  (forall D', rest h D D' -> sess pid h D' -> D'.(d_disk) = D.(d_disk) ->
     cache pid D' (<[bno := l]> V) R O -> Q tt (World h env tr (dset D' s))) ->
  wpx B (upd_buf b (set_b_data l)) Q (World h env tr (dset D s)).
Proof using HS HC.
  intros HO Hl HQ. apply wpx_upd_buf. apply HQ; [apply rest_bufs| |done|by apply cache_put].
  eapply sess_stay, rest_bufs; done.
Qed.

End specs.
