(* ===== verification/Log.v ===== *)
(** * Logging: kernel/log.c

    The definitions of log.c.  The header block is a byte array; its fields
    are little-endian 32-bit integers at offset 0 ([n]) and [4 + 4 * i]
    ([block[i]]).  An access outside the array [block] is undefined in C;
    the model stops there. *)

From S2P Require Import Prelude Memory Riscv Machine Spinlock Kalloc Vm Sched Sleeplock Bytes Bio.

Definition upd_log (f : logstate -> logstate) : K unit := modk (fun s => set_log (f s.(log)) s).

(** [log.lh.block[i]] and its assignment *)
Definition get_block (i : nat) : K Z :=
  lg ← getk log;
  match lg.(lg_block) !! i with Some b => mret b | None => bad_pointer end.
Definition put_block (i : nat) (b : Z) : K unit :=
  lg ← getk log;
  if bool_decide (i < length lg.(lg_block))%nat then upd_log (set_lg_block (<[i := b]> lg.(lg_block)))
  else bad_pointer.

(** The fields of [struct logheader] in a block *)
Definition head_n (d : list Z) : Z := s32 (get32 0 d).
Definition head_block (d : list Z) (i : nat) : Z := s32 (get32 (4 + 4 * i) d).
Definition set_head_n (n : Z) (d : list Z) : list Z := put32 0 n d.
Definition set_head_block (i : nat) (b : Z) (d : list Z) : list Z := put32 (4 + 4 * i) b d.

Definition upd_data (b : nat) (f : list Z -> list Z) : K unit :=
  x ← get_buf b; upd_buf b (set_b_data (f x.(b_data))).

(** [memmove(to->data, from->data, BSIZE)] *)
Definition copy_data (to from : nat) : K unit :=
  x ← get_buf from; upd_data to (splice 0 (take (Z.to_nat BSIZE) x.(b_data))).

Definition install_trans (recovering : bool) : K unit :=
  n ← getk (fun s => s.(log).(lg_n));
  for_each (seq 0 (Z.to_nat n)) (fun tail =>
    when recovering (b ← get_block tail; emit (EvPrint "recovering tail %d dst %d" [Z.of_nat tail; b]));;
    lg ← getk log;
    lbuf ← bread lg.(lg_dev) (u32 (lg.(lg_start) + Z.of_nat tail + 1));
    b ← get_block tail;
    dbuf ← bread lg.(lg_dev) (u32 b);
    copy_data dbuf lbuf;;
    bwrite dbuf;;
    when (negb recovering) (bunpin dbuf);;
    brelse lbuf;;
    brelse dbuf).

Definition read_head : K unit :=
  lg ← getk log;
  buf ← bread lg.(lg_dev) (u32 lg.(lg_start));
  x ← get_buf buf;
  upd_log (set_lg_n (head_n x.(b_data)));;
  n ← getk (fun s => s.(log).(lg_n));
  for_each (seq 0 (Z.to_nat n)) (fun i =>
    x ← get_buf buf;
    put_block i (head_block x.(b_data) i));;
  brelse buf.

Definition write_head : K unit :=
  lg ← getk log;
  buf ← bread lg.(lg_dev) (u32 lg.(lg_start));
  upd_data buf (set_head_n lg.(lg_n));;
  for_each (seq 0 (Z.to_nat lg.(lg_n))) (fun i =>
    b ← get_block i;
    upd_data buf (set_head_block i b));;
  bwrite buf;;
  brelse buf.

Definition recover_from_log : K unit :=
  read_head;;
  install_trans true;;
  upd_log (set_lg_n 0);;
  write_head.

Definition initlog (dev : Z) (sb : superblock) : K unit :=
  if 4 + 4 * LOGBLOCKS >=? BSIZE then panic "initlog: too big logheader" else
  initlock log_lock "log";;
  upd_log (set_lg_start sb.(sb_logstart));;
  upd_log (set_lg_dev dev);;
  recover_from_log.

(** Every sleep takes a turn of the schedule, which bounds the iterations. *)
Fixpoint begin_op_loop (fuel : nat) : K unit :=
  lg ← getk log;
  if ztrue lg.(lg_committing) || (lg.(lg_n) + (lg.(lg_outstanding) + 1) * MAXOPBLOCKS >? LOGBLOCKS) then
    match fuel with
    | O => no_fuel
    | S fuel => sleep chan_log log_lock;; begin_op_loop fuel
    end
  else
    upd_log (set_lg_outstanding (lg.(lg_outstanding) + 1));;
    release log_lock.

Definition begin_op : K unit :=
  acquire log_lock;;
  fuel ← gets (fun w => S (length w.(w_env)));
  begin_op_loop fuel.

Definition write_log : K unit :=
  n ← getk (fun s => s.(log).(lg_n));
  for_each (seq 0 (Z.to_nat n)) (fun tail =>
    lg ← getk log;
    to ← bread lg.(lg_dev) (u32 (lg.(lg_start) + Z.of_nat tail + 1));
    b ← get_block tail;
    from ← bread lg.(lg_dev) (u32 b);
    copy_data to from;;
    bwrite to;;
    brelse from;;
    brelse to).

Definition commit : K unit :=
  n ← getk (fun s => s.(log).(lg_n));
  when (n >? 0)
    (write_log;;
     write_head;;
     install_trans false;;
     upd_log (set_lg_n 0);;
     write_head).

Definition end_op : K unit :=
  acquire log_lock;;
  upd_log (fun lg => set_lg_outstanding (lg.(lg_outstanding) - 1) lg);;
  lg ← getk log;
  if ztrue lg.(lg_committing) then panic "log.committing" else
  do_commit ← (if lg.(lg_outstanding) =? 0 then
                 upd_log (set_lg_committing 1);; mret true
               else wakeup chan_log;; mret false);
  release log_lock;;
  when do_commit
    (commit;;
     acquire log_lock;;
     upd_log (set_lg_committing 0);;
     wakeup chan_log;;
     release log_lock).

Definition log_write (b : nat) : K unit :=
  acquire log_lock;;
  lg ← getk log;
  if lg.(lg_n) >=? LOGBLOCKS then panic "too big a transaction" else
  if lg.(lg_outstanding) <? 1 then panic "log_write outside of trans" else
  x ← get_buf b;
  let i := default (Z.to_nat lg.(lg_n))
             (find_index (fun k => u32 k =? x.(b_blockno)) (take (Z.to_nat lg.(lg_n)) lg.(lg_block))) in
  put_block i (s32 x.(b_blockno));;
  when (Z.of_nat i =? lg.(lg_n))
    (bpin b;;
     upd_log (fun lg => set_lg_n (lg.(lg_n) + 1) lg));;
  release log_lock.
