(* ===== verification/Waiting.v ===== *)
(** * Waiting for the log: begin_op()

    begin_op() sleeps while a commit is in progress or the log could fill up.
    The rest of the machine is a schedule of turns; each of them wakes the
    sleeping process up as the scheduler does. *)

From S2P Require Import Prelude Memory Riscv Machine Spinlock Kalloc Vm Sched Sleeplock Bytes Bio Log Demo.

(** The condition on which begin_op() waits. *)
Definition log_busy (lg : logstate) : bool :=
  ztrue lg.(lg_committing) || (lg.(lg_n) + (lg.(lg_outstanding) + 1) * MAXOPBLOCKS >? LOGBLOCKS).

(** A turn that resumes the sleeping process [i]: wherever it went to sleep,
    the scheduler of the turn's hart holds p->lock when it runs again, and
    the lock it waits for is free. *)
Definition resumes (i : nat) (lk : Z) (t : turn) : Prop :=
  forall s hart L p, s.(locks) = lock_by hart (proc_lock i) L ->
    (exists name, L !! proc_lock i = Some (free_lock name)) -> (exists name, L !! lk = Some (free_lock name)) ->
    s.(procs) !! i = Some p -> exists L' p', resumed i lk t.(t_hart) L' p' (t.(t_fun) s).

(** A turn after which the log has room. *)
Definition frees_log (t : turn) : Prop := forall s, log_busy (t.(t_fun) s).(log) = false.

(** The process holds log.lock. *)
Record in_log (i : nat) (h : hart) (L : gmap Z spinlock) (p : proc) (s : kstate) : Prop := {
  il_hart : hart_ok h;
  il_noff : h.(h_noff) = 0;
  il_proc : h.(h_proc) = Some i;
  il_me : s.(procs) !! i = Some p;
  il_locks : s.(locks) = lock_by h.(h_tp) log_lock L;
  il_mine : exists name, L !! proc_lock i = Some (free_lock name);
  il_log : exists name, L !! log_lock = Some (free_lock name)
}.

(** What begin_op() leaves: log.lock is free, and the system call has its
    share of the log. *)
Definition reserved (w : world) : Prop :=
  lock_free w.(w_st) log_lock /\ w.(w_st).(log).(lg_committing) = 0 /\
  w.(w_st).(log).(lg_n) + w.(w_st).(log).(lg_outstanding) * MAXOPBLOCKS <= LOGBLOCKS.

Lemma log_proc_ne i : log_lock <> proc_lock i.
Proof. unfold log_lock, proc_lock. lia. Qed.

Lemma begin_op_enter B i h L p env tr s fuel :
  in_log i h L p s -> log_busy s.(log) = false ->
  wpx B (begin_op_loop fuel) (fun _ w => reserved w /\ w.(w_st).(log) = set_lg_outstanding (s.(log).(lg_outstanding) + 1) s.(log))
    (World (hart_push h) env tr s).
Proof.
  intros [H1 H2 H3 H4 H5 H6 H7] Hb. destruct fuel; unfold begin_op_loop; fold begin_op_loop; kstep; kstep; cbn [w_st];
    fold (log_busy (log s)); rewrite Hb.
  all: kstep; unfold upd_log; kstep; unfold set_w_st; cbn [w_hart w_env w_trace w_st];
    eapply (wpx_release _ _ _ h _ _ _ L); [done|done|done|].
  all: unfold log_busy in Hb; apply orb_false_iff in Hb as [Hc Hr]; apply ztrue_false in Hc;
    rewrite Z.gtb_ltb in Hr; apply Z.ltb_ge in Hr; split; [|done]; split_and!; [exact H7|exact Hc|cbn; lia].
Qed.

Lemma begin_op_loop_live i env : forall h L p tr s fuel,
  in_log i h L p s -> Forall (resumes i log_lock) env ->
  log_busy s.(log) = false \/ Exists frees_log env -> (length env < fuel)%nat ->
  wp (begin_op_loop fuel) (fun _ => reserved) (World (hart_push h) env tr s).
Proof.
  induction env as [|t env IH]; intros h L p tr s fuel HL Hres Hlive Hf.
  all: destruct (log_busy (log s)) eqn:Hb.
  2, 4: eapply wpx_mono; [by eapply begin_op_enter|]; cbn beta; by intros _ w [? _].
  { destruct Hlive as [?|Hl]; [done|]. by apply Exists_nil in Hl. }
  destruct Hlive as [?|Hl]; [done|]. apply Forall_cons in Hres as [Ht Hres]. destruct fuel as [|fuel]; [cbn in Hf; lia|].
  pose proof HL as [H1 H2 H3 H4 H5 H6 H7].
  unfold begin_op_loop; fold begin_op_loop. kstep. kstep. cbn [w_st]. fold (log_busy (log s)). rewrite Hb. kstep.
  eapply (wpx_sleep _ _ h _ _ _ i p _ _ L); [done|done|done|done|done|apply log_proc_ne|done|done|].
  destruct (Ht (asleep i chan_log (h_tp h) L p s) (h_tp h) L (set_p_state SLEEPING (set_p_chan chan_log p)))
    as (L' & p' & HR); [done|done|done| |].
  { cbn. apply list_lookup_insert_eq. by eapply lookup_lt_Some. }
  exists L', p'. split; [exact HR|]. eapply (IH _ L' (set_p_chan 0 p')).
  - assert (Hok : hart_ok (set_h_tp (t_hart t) h)) by (destruct H1; by split).
    destruct HR as [R1 R2 R3 R4]. split.
    + by apply settle_ok.
    + unfold settle. cbn. rewrite H2. exact H2.
    + by rewrite settle_proc.
    + cbn. apply list_lookup_insert_eq. by eapply lookup_lt_Some.
    + unfold woken. cbn. f_equal. unfold settle. by destruct (_ =? 0).
    + done.
    + done.
  - done.
  - apply Exists_cons in Hl as [Hl|Hl]; [left|by right]. apply Hl.
  - cbn in Hf. lia.
Qed.


(** The machine of the witness: a commit is in progress when the process
    calls begin_op(), and the next turn ends it. *)
Definition end_commit : turn :=
  Turn 0 (fun s => set_locks (lock_by 0 (proc_lock 0) s.(locks)) (set_log (set_lg_committing 0 zero_kstate.(log)) s)).

