(* ===== verification/Dstate.v ===== *)
(** * Assertions on the storage state

    [st lg tr d V R O] describes a world of one process working on the disk:
    the log's in-memory state, the trace, the disk, and the buffer cache as
    seen from outside.  The operations of bio.c are restated as triples on
    this assertion; the log and the file system are verified against them
    and never look inside the cache. *)

From stdpp Require Import functions.
From S2P Require Import Prelude Memory Riscv Machine Spinlock Kalloc Vm Sched Sleeplock Dyn Bytes Ring Bio Bcache Log.

(** Nothing referenced, nothing locked. *)
Definition norefs : Z -> Z := fun _ => 0.
Definition nolocks : Z -> option nat := fun _ => None.

Section assertion.
Context (pid : Z) (h0 : hart) (env : list turn) (s : kstate) (D0 : dyn).

Record stD (lg : logstate) (d : gmap Z (list Z)) (V : Z -> list Z) (R : Z -> Z)
    (O : Z -> option nat) (h : hart) (D : dyn) : Prop := {
  st_hart : hart_le h0 h;
  st_locks : D.(d_locks) = D0.(d_locks);
  st_procs : woke h0.(h_proc) D0.(d_procs) D.(d_procs);
  st_log : D.(d_log) = lg;
  st_sb : D.(d_sb) = D0.(d_sb);
  st_itable : D.(d_itable) = D0.(d_itable);
  st_disk : D.(d_disk) = d;
  st_sess : sess pid h D;
  st_cache : cache pid D V R O
}.

Definition st (lg : logstate) (tr : list event) (d : gmap Z (list Z)) (V : Z -> list Z)
    (R : Z -> Z) (O : Z -> option nat) (w : world) : Prop :=
  exists h D, w = World h env tr (dset D s) /\ stD lg d V R O h D.

Lemma st_ext lg tr d V R O V' R' O' w :
  st lg tr d V R O w ->
  (forall b, V' b = V b) -> (forall b, R' b = R b) -> (forall b, O' b = O b) ->
  st lg tr d V' R' O' w.
Proof.
  intros (h & D & -> & [A1 A2 A3 A4 A5 A6 A7 A8 A9]) HV HR HO. exists h, D. split; [done|].
  split; try done. by eapply cache_ext.
Qed.

(** A step that keeps everything but what the cache shows. *)
Lemma stD_rest lg d V R O h D D' d' V' R' O' :
  stD lg d V R O h D -> rest h D D' -> sess pid (settle h) D' -> D'.(d_disk) = d' ->
  cache pid D' V' R' O' -> stD lg d' V' R' O' (settle h) D'.
Proof.
  intros [A1 A2 A3 A4 A5 A6 A7 A8 A9] [R1 R2 R3 R4 R5] HS Hd HC. split; try done; try congruence.
  - eapply hart_le_trans; [done|apply hart_le_settle].
  - rewrite (hart_le_proc _ _ A1) in R2. by eapply woke_trans.
Qed.

Lemma st_bread B lg tr d V R O w bno :
  st lg tr d V R O w -> O bno = None -> R bno < 2 ^ 32 - 1 -> (R bno = 0 -> roomy R) ->
  wpx B (bread ROOTDEV bno)
    (fun b => st lg tr d V (<[bno := R bno + 1]> R) (<[bno := Some b]> O)) w.
Proof.
  intros (h & D & -> & A) HO HR Hroom. eapply wpx_bread; [apply A|apply A|done..|].
  intros b D' Hr HS Hd HC. eexists _, D'. split; [done|].
  eapply stD_rest; [done..| |done]. rewrite Hd. apply A.
Qed.

Lemma st_bwrite B lg tr d V R O w bno b :
  st lg tr d V R O w -> O bno = Some b ->
  wpx B (bwrite b)
    (fun _ => st lg (tr ++ [EvDiskWrite ROOTDEV bno (V bno)]) (<[bno := V bno]> d) V R O) w.
Proof.
  intros (h & D & -> & A) HO. eapply wpx_bwrite; [apply A|apply A|done|].
  intros D' Hr HS Hd HC. eexists _, D'. split; [done|].
  eapply stD_rest; [done..| |done]. rewrite Hd. f_equal. apply A.
Qed.

Lemma st_brelse B lg tr d V R O w bno b :
  st lg tr d V R O w -> O bno = Some b -> R bno < 2 ^ 32 ->
  (R bno = 1 -> V bno = disk_at d bno) ->
  wpx B (brelse b) (fun _ => st lg tr d V (<[bno := R bno - 1]> R) (<[bno := None]> O)) w.
Proof.
  intros (h & D & -> & A) HO HR Hc. eapply wpx_brelse; [apply A|apply A|done|done| |].
  { by rewrite (st_disk _ _ _ _ _ _ _ A). }
  intros D' Hr HS Hd HC. eexists _, D'. split; [done|].
  eapply stD_rest; [done..| |done]. rewrite Hd. apply A.
Qed.

Lemma st_bpin B lg tr d V R O w bno b :
  st lg tr d V R O w -> O bno = Some b -> R bno < 2 ^ 32 - 1 ->
  wpx B (bpin b) (fun _ => st lg tr d V (<[bno := R bno + 1]> R) O) w.
Proof.
  intros (h & D & -> & A) HO HR. eapply wpx_bpin; [apply A|apply A|done|done|].
  intros D' Hr HS Hd HC. eexists _, D'. split; [done|].
  eapply stD_rest; [done..| |done]. rewrite Hd. apply A.
Qed.

Lemma st_bunpin B lg tr d V R O w bno b :
  st lg tr d V R O w -> O bno = Some b -> 1 < R bno < 2 ^ 32 ->
  wpx B (bunpin b) (fun _ => st lg tr d V (<[bno := R bno - 1]> R) O) w.
Proof.
  intros (h & D & -> & A) HO HR. eapply wpx_bunpin; [apply A|apply A|done|done|].
  intros D' Hr HS Hd HC. eexists _, D'. split; [done|].
  eapply stD_rest; [done..| |done]. rewrite Hd. apply A.
Qed.

(** [f(b->data)] of a held buffer, and assignment to it. *)
Lemma st_get_buf B lg tr d V R O w bno b :
  st lg tr d V R O w -> O bno = Some b ->
  wpx B (get_buf b) (fun x w' => st lg tr d V R O w' /\
    x.(b_data) = V bno /\ x.(b_blockno) = bno /\ x.(b_refcnt) = R bno) w.
Proof.
  intros (h & D & -> & A) HO. eapply wpx_held_data; [apply A|done|].
  intros x H1 H2 H3. split; [by exists h, D|done].
Qed.

Lemma st_put_data B lg tr d V R O w bno b l :
  st lg tr d V R O w -> O bno = Some b -> length l = bsize ->
  wpx B (upd_buf b (set_b_data l)) (fun _ => st lg tr d (<[bno := l]> V) R O) w.
Proof.
  intros (h & D & -> & A) HO Hl. eapply wpx_put_data; [apply A|apply A|done|done|].
  intros D' Hr HS Hd HC. exists h, D'. split; [done|].
  destruct A as [A1 A2 A3 A4 A5 A6 A7 A8 A9]. destruct Hr as [R1 R2 R3 R4 R5].
  split; try done; try congruence. rewrite (hart_le_proc _ _ A1) in R2. by eapply woke_trans.
Qed.

Lemma st_upd_data B lg tr d V R O w bno b f :
  st lg tr d V R O w -> O bno = Some b -> length (f (V bno)) = bsize ->
  wpx B (upd_data b f) (fun _ => st lg tr d (<[bno := f (V bno)]> V) R O) w.
Proof.
  intros HI HO Hl. unfold upd_data. wcall st_get_buf; [done..|]. intros x w' (HI' & -> & _ & _).
  by eapply st_put_data.
Qed.

(** Facts of the assertion. *)
Lemma st_data_length lg tr d V R O w bno : st lg tr d V R O w -> length (V bno) = bsize.
Proof.
  intros (h & D & -> & A). destruct (c_ring _ _ _ _ _ (st_cache _ _ _ _ _ _ _ A)) as [order HR].
  destruct (block_cases D order ROOTDEV bno HR) as [(b & _ & Hb)|[_ Hno]].
  - apply is_block_true in Hb. destruct Hb as (x & Hx & Hd & <-).
    destruct (c_used _ _ _ _ _ (st_cache _ _ _ _ _ _ _ A) b x Hx Hd) as (_ & ? & _ & _ & -> & _). done.
  - destruct (c_none _ _ _ _ _ (st_cache _ _ _ _ _ _ _ A) bno Hno) as (_ & -> & _).
    apply (c_disk _ _ _ _ _ (st_cache _ _ _ _ _ _ _ A)).
Qed.

Lemma st_disk_length lg tr d V R O w bno : st lg tr d V R O w -> length (disk_at d bno) = bsize.
Proof.
  intros (h & D & -> & A). rewrite <-(st_disk _ _ _ _ _ _ _ A).
  apply (c_disk _ _ _ _ _ (st_cache _ _ _ _ _ _ _ A)).
Qed.

(** A block nobody references is the disk's. *)
Lemma st_clean lg tr d V R O w bno : st lg tr d V R O w -> R bno = 0 -> V bno = disk_at d bno.
Proof.
  intros (h & D & -> & A) HR0. destruct (c_ring _ _ _ _ _ (st_cache _ _ _ _ _ _ _ A)) as [order HR].
  rewrite <-(st_disk _ _ _ _ _ _ _ A).
  destruct (block_cases D order ROOTDEV bno HR) as [(b & _ & Hb)|[_ Hno]].
  - apply is_block_true in Hb. destruct Hb as (x & Hx & Hd & <-).
    destruct (c_used _ _ _ _ _ (st_cache _ _ _ _ _ _ _ A) b x Hx Hd) as (_ & _ & _ & Hr & -> & _ & Hc).
    apply Hc. congruence.
  - by destruct (c_none _ _ _ _ _ (st_cache _ _ _ _ _ _ _ A) bno Hno) as (_ & -> & _).
Qed.

(** ** The log's own state *)

Lemma st_get_log B {A} (f : logstate -> A) lg tr d V R O w :
  st lg tr d V R O w ->
  wpx B (getk (fun k => f k.(log))) (fun x w' => x = f lg /\ st lg tr d V R O w') w.
Proof.
  intros (h & D & -> & HA). apply wpx_dget. split; [cbn; by rewrite (st_log _ _ _ _ _ _ _ HA)|].
  by exists h, D.
Qed.

Lemma st_upd_log B f lg tr d V R O w :
  st lg tr d V R O w -> wpx B (upd_log f) (fun _ => st (f lg) tr d V R O) w.
Proof.
  intros (h & D & -> & [A1 A2 A3 A4 A5 A6 A7 A8 A9]).
  eapply (wpx_dmod _ _ _ _ _ _ _ _ (set_d_log (f D.(d_log)) D)); [done|].
  exists h, (set_d_log (f D.(d_log)) D). split; [done|]. split; try done.
  - cbn. by rewrite A4.
  - destruct A8. by split.
  - by apply (cache_frame pid D).
Qed.

Lemma st_get_block B i b lg tr d V R O w :
  st lg tr d V R O w -> lg.(lg_block) !! i = Some b ->
  wpx B (get_block i) (fun x w' => x = b /\ st lg tr d V R O w') w.
Proof.
  intros HI Hb. unfold get_block. wcall (st_get_log B (fun l => l)); [done|]. intros x w' [-> HI'].
  rewrite Hb. by apply wpx_ret.
Qed.

Lemma st_put_block B i b lg tr d V R O w :
  st lg tr d V R O w -> (i < length lg.(lg_block))%nat ->
  wpx B (put_block i b) (fun _ => st (set_lg_block (<[i := b]> lg.(lg_block)) lg) tr d V R O) w.
Proof.
  intros HI Hb. unfold put_block. wcall (st_get_log B (fun l => l)); [done|]. intros x w' [-> HI'].
  rewrite bool_decide_true by done. by apply st_upd_log.
Qed.

Lemma st_emit B e lg tr d V R O w :
  st lg tr d V R O w -> wpx B (emit e) (fun _ => st lg (tr ++ [e]) d V R O) w.
Proof. intros (h & D & -> & A). by exists h, D. Qed.

End assertion.
