(* ===== verification/Binit.v ===== *)
(** * Initialisation of the buffer cache (binit() of kernel/bio.c) and the
    boot state of the storage layers *)

From stdpp Require Import functions.
From S2P Require Import Prelude Memory Riscv Machine Spinlock Kalloc Vm Sched Sleeplock Dyn Bytes Ring Bio Bcache Log Dstate.

(** A buffer of zero-initialised static data. *)
Definition blank (x : buf) : Prop :=
  x.(b_dev) = 0 /\ x.(b_refcnt) = 0 /\ x.(b_lock).(sl_locked) = 0.

Definition binit_locks (k : nat) (L : gmap Z spinlock) : gmap Z spinlock :=
  foldl (fun L i => <[buf_lk i := free_lock "sleep lock"]> L) (<[bcache_lock := free_lock "bcache"]> L) (seq 0 k).

(** The state after [k] rounds of the loop. *)
Record binit_inv (D : dyn) (k : nat) (D' : dyn) : Prop := {
  bi_len : length D'.(d_bufs) = NBUF;
  bi_seg : seg (nxt D') (prv D') NBUF (rev (seq 0 k)) NBUF;
  bi_blank i x : D'.(d_bufs) !! i = Some x -> blank x;
  bi_locks : D'.(d_locks) = binit_locks k D.(d_locks);
  bi_rest : set_d_bhead (0, 0)%nat (set_d_bufs [] (set_d_locks ∅ D')) =
            set_d_bhead (0, 0)%nat (set_d_bufs [] (set_d_locks ∅ D))
}.

Lemma blank_relinked D D' :
  relinked D D' -> (forall i x, D.(d_bufs) !! i = Some x -> blank x) ->
  forall i x, D'.(d_bufs) !! i = Some x -> blank x.
Proof.
  intros HR Hb i x Hx. destruct (relinked_bufs _ _ _ _ (relinked_back _ _ HR) Hx) as (y & Hy & E).
  apply relinked_same in E. destruct E as (E1 & _ & _ & _ & E5 & E6). unfold blank.
  rewrite <-E1, <-E5, <-E6. by eapply Hb.
Qed.

Lemma dset_sl_links i l D x :
  nxt (dset_sl (SLbuf i) l D) x = nxt D x /\ prv (dset_sl (SLbuf i) l D) x = prv D x.
Proof.
  unfold nxt, prv. cbn. case_bool_decide; [done|]. by rewrite !lookup_alter_proj.
Qed.

(** initsleeplock() *)
Lemma wpx_initsleeplock B i name h env tr D s (Q : unit -> world -> Prop) :
  sl_valid (SLbuf i) D ->
  Q tt (World h env tr (dset (set_d_locks (<[buf_lk i := free_lock "sleep lock"]> D.(d_locks))
     (dset_sl (SLbuf i) (Sleeplock 0 name 0) D)) s)) ->
  wpx B (initsleeplock (SLbuf i) name) Q (World h env tr (dset D s)).
Proof.
  intros Hv HQ. unfold initsleeplock. kstep. eapply run_wp; [apply initlock_run|].
  change (set_locks ?L (dset D s)) with (dset (set_d_locks L D) s). cbn [locks dset].
  kstep. apply wpx_upd_sl. kstep. apply wpx_upd_sl. apply wpx_upd_sl.
  rewrite !dset_sl_twice, !dsl_dset_sl by (by cbn; rewrite ?length_alter).
  rewrite dset_sl_set_locks. exact HQ.
Qed.

Lemma rev_seq_S k : rev (seq 0 (S k)) = k :: rev (seq 0 k).
Proof. by rewrite seq_S, rev_app_distr. Qed.

Lemma elem_rev_seq k x : x ∈ rev (seq 0 k) <-> (x < k)%nat.
Proof. rewrite list_elem_of_In, <-in_rev, <-list_elem_of_In, elem_of_seq. lia. Qed.

Lemma rest_set D D' :
  relinked D D' -> D'.(d_locks) = D.(d_locks) /\
  set_d_bhead (0, 0)%nat (set_d_bufs [] (set_d_locks ∅ D')) =
  set_d_bhead (0, 0)%nat (set_d_bufs [] (set_d_locks ∅ D)).
Proof. intros [E _]. destruct D, D'. injection E. intros; subst. done. Qed.

Section binit.
Context (B : world -> Prop) (h : hart) (env : list turn) (tr : list event) (s : kstate) (D : dyn).

Lemma wpx_binit_step k D1 (Q : unit -> world -> Prop) :
  (k < NBUF)%nat -> binit_inv D k D1 ->
  (forall D2, binit_inv D (S k) D2 -> Q tt (World h env tr (dset D2 s))) ->
  wpx B (hn ← buf_next NBUF; put_next k hn;; put_prev k NBUF;; initsleeplock (SLbuf k) "buffer";;
         hn ← buf_next NBUF; put_prev hn k;; put_next NBUF k) Q (World h env tr (dset D1 s)).
Proof.
  intros Hk [A1 A2 A3 A4 A5] HQ.
  kstep. apply wpx_buf_next; [by left|]. kstep. apply wpx_put_next. kstep. apply wpx_put_prev.
  set (D2 := dput_prev k NBUF _).
  assert (relinked D1 D2) as R2.
  { eapply relinked_trans; [|apply relinked_put]. apply relinked_put. }
  destruct (rest_set _ _ R2) as [L2 E2]. pose proof (relinked_length _ _ R2) as Len2.
  kstep. apply wpx_initsleeplock; [cbn; lia|].
  set (D3 := set_d_locks _ _).
  assert (length (d_bufs D3) = NBUF) as Len3 by (cbn; rewrite length_alter; lia).
  destruct (seg_link_front D1 D3 k (rev (seq 0 k))) as [Hnode HS'].
  - intros x. rewrite elem_rev_seq. lia.
  - done.
  - done.
  - rewrite <-Permutation_rev. apply NoDup_seq.
  - rewrite elem_rev_seq. lia.
  - done.
  - done.
  - intros x. apply dset_sl_links.
  - intros x. apply dset_sl_links.
  - kstep. apply wpx_buf_next; [by left|]. kstep. apply wpx_put_prev, wpx_put_next.
    set (D5 := dput_next NBUF k _) in *. apply HQ.
    assert (relinked D3 D5) as R5 by (eapply relinked_trans; apply relinked_put).
    destruct (rest_set _ _ R5) as [L5 E5]. split.
    + rewrite (relinked_length _ _ R5). done.
    + by rewrite rev_seq_S.
    + apply (blank_relinked D3); [done|]. intros i x. cbn.
      destruct (decide (k = i)) as [<-|]; [|rewrite list_lookup_alter_ne by done; by apply (blank_relinked D1)].
      rewrite list_lookup_alter_eq. destruct (d_bufs D2 !! k) as [y|] eqn:Hy; cbn; [|done].
      intros [= <-]. destruct (blank_relinked D1 D2 R2 A3 k y Hy) as (? & ? & _). done.
    + rewrite L5. change (d_locks D3) with (<[buf_lk k := free_lock "sleep lock"]> (d_locks D2)).
      rewrite L2, A4. unfold binit_locks. by rewrite seq_S, foldl_app.
    + rewrite E5, <-A5, <-E2. done.
Qed.

(** binit(): the list has every buffer, and no block is cached. *)
Lemma wpx_binit (Q : unit -> world -> Prop) :
  length D.(d_bufs) = NBUF -> (forall i x, D.(d_bufs) !! i = Some x -> blank x) ->
  (forall D', binit_inv D NBUF D' -> Q tt (World h env tr (dset D' s))) ->
  wpx B binit Q (World h env tr (dset D s)).
Proof.
  intros Hlen Hb HQ. unfold binit. kstep. eapply run_wp; [apply initlock_run|].
  change (set_locks ?L (dset D s)) with (dset (set_d_locks L D) s). cbn [locks dset].
  kstep. apply wpx_put_prev. kstep. apply wpx_put_next.
  apply wpx_for_seq with (I := fun k w => exists D1, w = World h env tr (dset D1 s) /\ binit_inv D k D1).
  - eexists. split; [done|]. split; try done.
  - intros k w Hk (D1 & -> & HI). eapply wpx_binit_step; [done..|]. eauto.
  - intros w (D1 & -> & HI). by apply HQ.
Qed.

End binit.

(** Then the cache is empty. *)
Lemma binit_cache pid D D' :
  binit_inv D NBUF D' -> (forall b, length (disk_at D.(d_disk) b) = bsize) ->
  cache pid D' (disk_at D.(d_disk)) norefs nolocks.
Proof.
  intros [A1 A2 A3 A4 A5] Hdisk. assert (d_disk D' = d_disk D) as Hd by (by injection A5).
  split.
  - exists (rev (seq 0 NBUF)). split; [done| |done]. by rewrite <-Permutation_rev.
  - intros i j x y Hx _ Hdx. destruct (A3 i x Hx) as (E & _). rewrite E in Hdx. done.
  - intros i x Hx. left. by apply (A3 i).
  - intros i x Hx Hdx. destruct (A3 i x Hx) as (E & _). rewrite E in Hdx. done.
  - intros i x Hx _. by apply (A3 i).
  - intros bno _. rewrite Hd. done.
  - intros bno. rewrite Hd. done.
Qed.

(** ** A machine that has booted *)

Lemma calm_insert L k name : calm L -> calm (<[k := free_lock name]> L).
Proof.
  intros [C1 C2 C3 C4 C5 C6].
  assert (forall j, (exists n, L !! j = Some (free_lock n)) ->
    exists n, <[k := free_lock name]> L !! j = Some (free_lock n)) as H.
  { intros j Hj. destruct (decide (k = j)) as [<-|]; [rewrite lookup_insert_eq; eauto|].
    by rewrite lookup_insert_ne. }
  split; intros; apply H; auto.
Qed.

Lemma calm_binit k L : calm L -> calm (binit_locks k L).
Proof.
  intros HL. unfold binit_locks. induction k as [|k IH]; [by apply calm_insert|].
  rewrite seq_S, foldl_app. by apply calm_insert.
Qed.

(** Free locks for every id of a list. *)
Definition free_locks (ks : list Z) : gmap Z spinlock :=
  foldr (fun k L => <[k := free_lock ""]> L) ∅ ks.

Lemma free_locks_elem ks k : k ∈ ks -> free_locks ks !! k = Some (free_lock "").
Proof.
  induction ks as [|j ks IH]; intros Hk; [by apply not_elem_of_nil in Hk|]. cbn.
  destruct (decide (j = k)) as [->|]; [by rewrite lookup_insert_eq|].
  rewrite lookup_insert_ne by done. apply IH. by apply elem_of_cons in Hk as [->|].
Qed.

Definition boot_locks : gmap Z spinlock :=
  free_locks ([bcache_lock; log_lock; itable_lock] ++ (proc_lock <$> seq 0 NPROC) ++
    (buf_lk <$> seq 0 NBUF) ++ (inode_lk <$> seq 0 NINODE)).

Lemma calm_boot : calm boot_locks.
Proof.
  split; intros; eexists; apply free_locks_elem; rewrite !elem_of_app.
  - right; left. apply list_elem_of_fmap_2, elem_of_seq. lia.
  - right; right; left. apply list_elem_of_fmap_2, elem_of_seq. lia.
  - right; right; right. apply list_elem_of_fmap_2, elem_of_seq. lia.
  - left. set_solver.
  - left. set_solver.
  - left. set_solver.
Qed.

(** Zero-initialised storage layers on disk [d]; process 0 of [P] runs. *)
Definition boot_dyn_of (P : list proc) (d : gmap Z (list Z)) : dyn :=
  Dyn boot_locks P (replicate NBUF zero_buf) (0, 0)%nat d
    zero_kstate.(log) zero_kstate.(sb) (replicate NINODE zero_inode).
Definition boot_dyn : gmap Z (list Z) -> dyn := boot_dyn_of (replicate NPROC zero_proc).
Definition boot_hart : hart := set_h_proc (Some 0%nat) zero_hart.

(** binit() on it gives the assertion with nothing cached. *)
Lemma boot_st_of s P p d :
  length P = NPROC -> P !! 0%nat = Some p -> (forall b, length (disk_at d b) = bsize) ->
  exists D w, binit (World boot_hart [] [] (dset (boot_dyn_of P d) s)) = Ret tt w /\ D.(d_procs) = P /\
    st p.(p_pid) boot_hart [] s D zero_kstate.(log) [] d (disk_at d) norefs nolocks w.
Proof.
  intros HP Hp Hd. assert (wp binit (fun _ w => exists D, w = World boot_hart [] [] (dset D s) /\
    binit_inv (boot_dyn_of P d) NBUF D) (World boot_hart [] [] (dset (boot_dyn_of P d) s))) as H.
  { apply wpx_binit; [apply length_replicate| |eauto].
    intros i x Hx. apply lookup_replicate in Hx. by destruct Hx as [-> _]. }
  apply wp_run in H. destruct H as ([] & w & Hr & D & -> & HI). exists D. eexists. split; [exact Hr|].
  pose proof (binit_cache p.(p_pid) _ _ HI Hd) as HC. destruct HI as [A1 A2 A3 A4 A5]. injection A5 as E1 E2 E3 E4 E5.
  split; [exact E1|]. exists boot_hart, D. split; [done|].
  split; [apply hart_le_refl|reflexivity|apply woke_refl|exact E3|reflexivity|reflexivity|exact E2| |exact HC].
  split.
  - split; cbn; lia.
  - exists 0%nat, p. rewrite E1. split; [reflexivity|]. split; [exact Hp|reflexivity].
  - rewrite A4. apply calm_binit, calm_boot.
  - rewrite E1. exact HP.
Qed.

Lemma boot_st d :
  (forall b, length (disk_at d b) = bsize) ->
  exists D w, binit (World boot_hart [] [] (dset (boot_dyn d) zero_kstate)) = Ret tt w /\
    st 0 boot_hart [] zero_kstate D zero_kstate.(log) [] d (disk_at d) norefs nolocks w.
Proof.
  intros Hd. destruct (boot_st_of zero_kstate (replicate NPROC zero_proc) zero_proc d) as (D & w & Hr & _ & H);
    [apply length_replicate|reflexivity|exact Hd|]. exists D, w. split; [exact Hr|exact H].
Qed.
