(* ===== verification/LogSpec.v ===== *)
(** * The log: commit, recovery and crash atomicity (kernel/log.c)

    commit() and recover_from_log() are shown to issue exactly a list of
    disk writes that is a pure function of the transaction and of the disk;
    on these lists, a crash after any number of writes, followed by any
    number of crashes during recovery, leaves the blocks outside the log as
    they were before the transaction, all of them, or as they are after it,
    all of them. *)

From stdpp Require Import functions.
From S2P Require Import Prelude Memory Riscv Machine Spinlock Kalloc Vm Sched Sleeplock Dyn Bytes Ring Bio Bcache Log Dstate Binit.

(** ** Sequences of disk writes *)

Abbreviation writes := (list (Z * list Z)).

Definition dwr (d : gmap Z (list Z)) (l : writes) : gmap Z (list Z) :=
  foldl (fun d '(b, x) => <[b := x]> d) d l.
Definition vwr (V : Z -> list Z) (l : writes) : Z -> list Z :=
  foldl (fun V '(b, x) => <[b := x]> V) V l.
Definition evs (l : writes) : list event := map (fun '(b, x) => EvDiskWrite ROOTDEV b x) l.

Lemma dwr_app d l1 l2 : dwr d (l1 ++ l2) = dwr (dwr d l1) l2.
Proof. apply foldl_app. Qed.
Lemma vwr_app V l1 l2 : vwr V (l1 ++ l2) = vwr (vwr V l1) l2.
Proof. apply foldl_app. Qed.

Lemma vwr_notin V l b : b ∉ l.*1 -> vwr V l b = V b.
Proof.
  revert V. induction l as [|[c x] l IH]; intros V Hb; [done|]. cbn in Hb.
  apply not_elem_of_cons in Hb. cbn. rewrite IH by tauto. rewrite fn_lookup_insert_ne; [done|].
  intros ->. tauto.
Qed.

Lemma dwr_notin d l b : b ∉ l.*1 -> disk_at (dwr d l) b = disk_at d b.
Proof.
  revert d. induction l as [|[c x] l IH]; intros d Hb; [done|]. cbn in Hb.
  apply not_elem_of_cons in Hb. cbn. rewrite IH by tauto. unfold disk_at.
  rewrite lookup_insert_ne; [done|]. intros ->. tauto.
Qed.

Lemma dwr_last d l b x : disk_at (dwr d (l ++ [(b, x)])) b = x.
Proof. rewrite dwr_app. cbn. unfold disk_at. by rewrite lookup_insert_eq. Qed.

(** With no block written twice, each block has what was written to it. *)
Lemma dwr_in d l i b x :
  NoDup l.*1 -> l !! i = Some (b, x) -> disk_at (dwr d l) b = x.
Proof.
  intros Hnd Hi. apply list_elem_of_split_length in Hi. destruct Hi as (l1 & l2 & -> & _).
  change ((b, x) :: l2) with ([(b, x)] ++ l2) in *. rewrite app_assoc, dwr_app, dwr_notin; [apply dwr_last|].
  rewrite !fmap_app in Hnd. cbn in Hnd. apply NoDup_app in Hnd. destruct Hnd as (_ & _ & Hnd).
  by apply NoDup_cons in Hnd as [].
Qed.

(** ** The header block *)

Definition head_put (n : Z) (bl : list Z) (d : list Z) : list Z :=
  foldl (fun d i => set_head_block i (bl !!! i) d) (set_head_n n d) (seq 0 (Z.to_nat n)).

(** The block numbers that a header lists. *)
Definition head_blocks (d : list Z) : list Z :=
  map (head_block d) (seq 0 (Z.to_nat (head_n d))).

Lemma head_put_prefix n (bl : list Z) d k :
  length d = bsize -> (k <= Z.to_nat LOGBLOCKS)%nat ->
  let d' := foldl (fun d i => set_head_block i (bl !!! i) d) (set_head_n n d) (seq 0 k) in
  length d' = bsize /\ get32 0 d' = u32 n /\
  forall i, (i < k)%nat -> get32 (4 + 4 * i) d' = u32 (bl !!! i).
Proof.
  intros Hd Hk. unfold bsize, BSIZE, LOGBLOCKS, MAXOPBLOCKS in *. induction k as [|k IH].
  - cbn [seq foldl]. unfold set_head_n. split_and!; [rewrite length_put32; lia|apply get32_put32; lia|lia].
  - rewrite seq_S, foldl_app. cbn [foldl Nat.add]. destruct IH as (H1 & H2 & H3); [lia|].
    set (d' := foldl _ _ _) in *. unfold set_head_block. split_and!.
    + rewrite length_put32; lia.
    + rewrite get32_put32_ne by lia. done.
    + intros i Hi. destruct (decide (i = k)) as [->|]; [apply get32_put32; lia|].
      rewrite get32_put32_ne by lia. apply H3. lia.
Qed.

Lemma length_head_put n bl d :
  length d = bsize -> n <= LOGBLOCKS -> length (head_put n bl d) = bsize.
Proof. intros Hd Hn. by apply head_put_prefix; [|lia]. Qed.

Lemma s32_u32 x : - 2 ^ 31 <= x < 2 ^ 31 -> s32 (u32 x) = x.
Proof.
  intros H. unfold s32, u32. rewrite Zplus_mod_idemp_l. rewrite Z.mod_small by lia. lia.
Qed.

(** What write_head() writes, read_head() reads. *)
Lemma head_blocks_put bl base d :
  length d = bsize -> (length bl <= Z.to_nat LOGBLOCKS)%nat ->
  (forall b, b ∈ bl -> - 2 ^ 31 <= b < 2 ^ 31) -> take (length bl) base = bl ->
  head_n (head_put (Z.of_nat (length bl)) base d) = Z.of_nat (length bl) /\
  head_blocks (head_put (Z.of_nat (length bl)) base d) = bl.
Proof.
  intros Hd Hn Hb Hbase. unfold head_put. rewrite Nat2Z.id.
  destruct (head_put_prefix (Z.of_nat (length bl)) base d (length bl) Hd Hn) as (H1 & H2 & H3).
  set (d' := foldl _ _ _) in *.
  assert (head_n d' = Z.of_nat (length bl)) as Hhn.
  { unfold head_n. rewrite H2. apply s32_u32. unfold LOGBLOCKS, MAXOPBLOCKS in Hn. lia. }
  split; [done|]. unfold head_blocks. rewrite Hhn, Nat2Z.id. apply list_eq. intros i.
  change (map ?f ?l) with (f <$> l). rewrite list_lookup_fmap.
  destruct (decide (i < length bl)%nat) as [Hi|Hi].
  - rewrite lookup_seq_lt by done. cbn [Nat.add fmap option_fmap option_map]. unfold head_block.
    rewrite H3 by done. destruct (lookup_lt_is_Some_2 _ _ Hi) as [b Hbi]. rewrite Hbi.
    assert (base !!! i = b) as ->.
    { apply list_lookup_total_correct. rewrite <-Hbase in Hbi. by apply lookup_take_Some in Hbi as []. }
    f_equal. apply s32_u32, Hb. by eapply list_elem_of_lookup_2.
  - rewrite lookup_seq_ge by lia. rewrite (lookup_ge_None_2 bl) by lia. done.
Qed.

(** ** What the operations do *)

Lemma LOGBLOCKS_eq : LOGBLOCKS = 30.
Proof. done. Qed.

(** A transaction: the in-memory header lists the blocks [bl]. *)
Record tx (lg : logstate) (bl : list Z) : Prop := {
  tx_dev : lg.(lg_dev) = ROOTDEV;
  tx_start : 0 <= lg.(lg_start) /\ lg.(lg_start) + LOGBLOCKS < 2 ^ 31;
  tx_n : lg.(lg_n) = Z.of_nat (length bl);
  tx_max : (length bl <= Z.to_nat LOGBLOCKS)%nat;
  tx_size : length lg.(lg_block) = Z.to_nat LOGBLOCKS;
  tx_blocks : take (length bl) lg.(lg_block) = bl;
  tx_home b : b ∈ bl -> 0 <= b < 2 ^ 31 /\ ~ (lg.(lg_start) <= b <= lg.(lg_start) + LOGBLOCKS)
}.

(** The log block of entry [i]. *)
Definition log_slot (lg : logstate) (i : nat) : Z := lg.(lg_start) + Z.of_nat i + 1.

Lemma tx_lookup lg bl i : tx lg bl -> (i < length bl)%nat -> exists b, bl !! i = Some b /\ lg.(lg_block) !! i = Some b.
Proof.
  intros HT Hi. destruct (lookup_lt_is_Some_2 _ _ Hi) as [b Hb]. exists b. split; [done|].
  rewrite <-(tx_blocks _ _ HT) in Hb. by apply lookup_take_Some in Hb as [].
Qed.

Lemma tx_addr lg bl i b :
  tx lg bl -> bl !! i = Some b ->
  u32 (lg.(lg_start) + Z.of_nat i + 1) = log_slot lg i /\ u32 b = b /\ b <> log_slot lg i /\
  (forall j, (j < length bl)%nat -> b <> log_slot lg j) /\ b <> lg.(lg_start) /\ log_slot lg i <> lg.(lg_start).
Proof.
  intros HT Hb. pose proof (lookup_lt_Some _ _ _ Hb) as Hi. pose proof (tx_max _ _ HT) as Hmax.
  destruct (tx_start _ _ HT). destruct (tx_home _ _ HT b) as [Hr Hout]; [by eapply list_elem_of_lookup_2|].
  unfold log_slot. split_and!; try (rewrite u32_small); try lia.
Qed.

Definition pins (bl : list Z) : Z -> Z := fun b => if bool_decide (b ∈ bl) then 1 else 0.

Lemma size_list_to_set_le (l : list Z) : (size (list_to_set l : gset Z) <= length l)%nat.
Proof.
  induction l as [|b l IH]; cbn [list_to_set]; [by rewrite size_empty|].
  transitivity (size ({[b]} : gset Z) + size (list_to_set l : gset Z))%nat.
  - rewrite size_union_alt. apply Nat.add_le_mono_l, subseteq_size. set_solver.
  - rewrite size_singleton. cbn. lia.
Qed.

Lemma roomy_pins bl : (length bl < NBUF)%nat -> roomy (pins bl).
Proof.
  intros Hl. exists (list_to_set bl). pose proof (size_list_to_set_le bl). split; [lia|].
  intros b. unfold pins. case_bool_decide; [|done]. intros _. by apply elem_of_list_to_set.
Qed.

Lemma roomy_le R R' : (forall b, R' b <> 0 -> R b <> 0) -> roomy R -> roomy R'.
Proof. intros H (S & H1 & H2). exists S. split; [done|auto]. Qed.

(** Pointwise reasoning on updated functions. *)
Ltac fns :=
  intros; unfold insert, fn_insert in *; repeat (case_decide; subst); try done; try lia; try congruence.

(** What write_log() writes: every block of the transaction, to the log. *)
Definition log_writes (lg : logstate) (V : Z -> list Z) (bl : list Z) : writes :=
  imap (fun i b => (log_slot lg i, V b)) bl.

Lemma log_writes_lookup lg V bl i b :
  bl !! i = Some b -> log_writes lg V bl !! i = Some (log_slot lg i, V b).
Proof. intros Hb. unfold log_writes. by rewrite list_lookup_imap, Hb. Qed.

(** The log blocks are not blocks of the transaction. *)
Lemma pins_slot lg bl i : tx lg bl -> (i < length bl)%nat -> pins bl (log_slot lg i) = 0.
Proof.
  intros HT Hi. unfold pins. rewrite bool_decide_false; [done|]. intros Hin.
  apply list_elem_of_lookup in Hin. destruct Hin as [j Hj].
  destruct (tx_addr _ _ j _ HT Hj) as (_ & _ & _ & N & _). by apply (N i).
Qed.

Lemma pins_home bl i b : bl !! i = Some b -> pins bl b = 1.
Proof. intros Hb. unfold pins. rewrite bool_decide_true; [done|]. by eapply list_elem_of_lookup_2. Qed.

Lemma vwr_log_home lg V bl i b k :
  tx lg bl -> bl !! i = Some b -> vwr V (take k (log_writes lg V bl)) b = V b.
Proof.
  intros HT Hb. apply vwr_notin. intros Hin. apply list_elem_of_fmap in Hin.
  destruct Hin as ([c y] & E & Hin). cbn in E. subst c. apply list_elem_of_lookup in Hin.
  destruct Hin as [j Hj]. apply lookup_take_Some in Hj. destruct Hj as [Hj _].
  unfold log_writes in Hj. rewrite list_lookup_imap in Hj.
  destruct (bl !! j) as [c|] eqn:Hbj; [|done]. injection Hj as E _.
  destruct (tx_addr _ _ i b HT Hb) as (_ & _ & _ & N & _). apply (N j); [|done].
  by eapply lookup_lt_Some.
Qed.

(** What install_trans() writes: every block of the log, to its home. *)
Definition inst_writes (lg : logstate) (V : Z -> list Z) (bl : list Z) : writes :=
  imap (fun i b => (b, V (log_slot lg i))) bl.

Lemma inst_writes_lookup lg V bl i b :
  bl !! i = Some b -> inst_writes lg V bl !! i = Some (b, V (log_slot lg i)).
Proof. intros Hb. unfold inst_writes. by rewrite list_lookup_imap, Hb. Qed.

Lemma inst_writes_fst lg V bl : (inst_writes lg V bl).*1 = bl.
Proof.
  apply list_eq. intros i. rewrite list_lookup_fmap. unfold inst_writes. rewrite list_lookup_imap.
  by destruct (bl !! i).
Qed.

Lemma vwr_inst_slot lg V bl i k :
  tx lg bl -> (i < length bl)%nat -> vwr V (take k (inst_writes lg V bl)) (log_slot lg i) = V (log_slot lg i).
Proof.
  intros HT Hi. apply vwr_notin. rewrite fmap_take, inst_writes_fst. intros Hin.
  apply list_elem_of_lookup in Hin. destruct Hin as [j Hj]. apply lookup_take_Some in Hj.
  destruct Hj as [Hj _]. destruct (tx_addr _ _ j _ HT Hj) as (_ & _ & _ & N & _). by apply (N i).
Qed.

(** The events of install_trans(): in recovery each write is announced. *)
Definition inst_event (rec : bool) (i : nat) (bx : Z * list Z) : list event :=
  (if rec then [EvPrint "recovering tail %d dst %d" [Z.of_nat i; bx.1]] else []) ++
  [EvDiskWrite ROOTDEV bx.1 bx.2].
Definition inst_events (rec : bool) (W : writes) : list event := concat (imap (inst_event rec) W).

Lemma inst_events_snoc rec W bx :
  inst_events rec (W ++ [bx]) = inst_events rec W ++ inst_event rec (length W) bx.
Proof. unfold inst_events. rewrite imap_app, concat_app. cbn. by rewrite app_nil_r, Nat.add_0_r. Qed.

(** The references during install_trans(): in recovery none, in commit()
    the blocks that are still pinned. *)
Definition inst_refs (rec : bool) (bl : list Z) : Z -> Z := if rec then norefs else pins bl.

Lemma inst_refs_slot rec lg bl i k :
  tx lg bl -> (i < length bl)%nat -> inst_refs rec (drop k bl) (log_slot lg i) = 0.
Proof.
  intros HT Hi. destruct rec; [done|]. cbn. pose proof (pins_slot lg bl i HT Hi) as P. unfold pins in *.
  rewrite bool_decide_false; [done|]. intros Hin. rewrite bool_decide_true in P; [done|].
  rewrite <-(take_drop k bl). apply elem_of_app. by right.
Qed.

Lemma inst_refs_home rec bl i b : bl !! i = Some b -> inst_refs rec (drop i bl) b = if rec then 0 else 1.
Proof.
  intros Hb. destruct rec; [done|]. apply (pins_home _ 0). by rewrite lookup_drop, Nat.add_0_r.
Qed.

Lemma inst_refs_next rec bl i b :
  NoDup bl -> bl !! i = Some b -> forall k, inst_refs rec (drop (S i) bl) k = <[b := 0]> (inst_refs rec (drop i bl)) k.
Proof.
  intros Hnd Hb k. destruct rec; cbn [inst_refs]; [fns|]. rewrite (drop_S _ _ _ Hb).
  rewrite <-(take_drop i bl), (drop_S _ _ _ Hb) in Hnd. apply NoDup_app in Hnd.
  destruct Hnd as (_ & _ & Hnd). apply NoDup_cons in Hnd. unfold pins.
  destruct (decide (b = k)) as [<-|Hne].
  - rewrite fn_lookup_insert, bool_decide_false; [done|apply Hnd].
  - rewrite fn_lookup_insert_ne by done. erewrite bool_decide_ext; [done|]. set_solver.
Qed.

Lemma roomy_inst rec bl i :
  (rec = false -> (length bl < NBUF)%nat) -> roomy (inst_refs rec (drop i bl)).
Proof.
  intros Hl. destruct rec; cbn; [|specialize (Hl eq_refl)].
  - exists ∅. split; [rewrite size_empty; unfold NBUF; lia|done].
  - apply roomy_pins. rewrite length_drop. lia.
Qed.

Lemma roomy_one b r : roomy (<[b := r]> norefs).
Proof.
  exists {[b]}. split; [rewrite size_singleton; unfold NBUF; lia|]. intros k. destruct (decide (b = k)) as [->|].
  - intros _. set_solver.
  - by rewrite fn_lookup_insert_ne.
Qed.

(** What commit() writes. *)
Definition commit_head (lg : logstate) (V : Z -> list Z) : list Z :=
  head_put lg.(lg_n) lg.(lg_block) (V lg.(lg_start)).
Definition home_writes (V : Z -> list Z) (bl : list Z) : writes := map (fun b => (b, V b)) bl.
Definition commit_writes (lg : logstate) (V : Z -> list Z) (bl : list Z) : writes :=
  if bool_decide (bl = []) then [] else
  log_writes lg V bl ++ [(lg.(lg_start), commit_head lg V)] ++
  home_writes V bl ++ [(lg.(lg_start), head_put 0 lg.(lg_block) (commit_head lg V))].

Lemma evs_app l1 l2 : evs (l1 ++ l2) = evs l1 ++ evs l2.
Proof. apply map_app. Qed.

Lemma inst_events_false W : inst_events false W = evs W.
Proof.
  induction W as [|[b x] W IH] using rev_ind; [done|]. by rewrite inst_events_snoc, evs_app, IH.
Qed.

Lemma home_writes_fst V bl : (home_writes V bl).*1 = bl.
Proof. induction bl as [|b bl IH]; [done|]. cbn. f_equal. exact IH. Qed.

Lemma log_writes_fst lg V bl : (log_writes lg V bl).*1 = map (log_slot lg) (seq 0 (length bl)).
Proof.
  apply list_eq. intros i. change (map ?f ?l) with (f <$> l). rewrite !list_lookup_fmap. unfold log_writes.
  rewrite list_lookup_imap. destruct (bl !! i) as [b|] eqn:Hb; cbn.
  - rewrite lookup_seq_lt by (by eapply lookup_lt_Some). done.
  - rewrite lookup_seq_ge by (by eapply lookup_ge_None). done.
Qed.

Lemma log_writes_nodup lg V bl : NoDup (log_writes lg V bl).*1.
Proof.
  rewrite log_writes_fst. change (map ?f ?l) with (f <$> l). apply NoDup_fmap_2; [|apply NoDup_seq].
  intros i j. unfold log_slot. lia.
Qed.

Lemma start_not_home lg bl : tx lg bl -> lg.(lg_start) ∉ bl.
Proof.
  intros HT Hin. pose proof LOGBLOCKS_eq. destruct (tx_home _ _ HT _ Hin) as [_ Hout]. lia.
Qed.

Lemma pins_start lg bl : tx lg bl -> pins bl lg.(lg_start) = 0.
Proof. intros HT. unfold pins. by rewrite bool_decide_false by (by apply start_not_home). Qed.

Lemma start_not_slot lg V bl : lg.(lg_start) ∉ (log_writes lg V bl).*1.
Proof.
  rewrite log_writes_fst. intros Hin. apply list_elem_of_fmap in Hin. destruct Hin as (i & E & _).
  unfold log_slot in E. lia.
Qed.

Lemma vwr_log_start lg V bl : vwr V (log_writes lg V bl) lg.(lg_start) = V lg.(lg_start).
Proof. apply vwr_notin, start_not_slot. Qed.

Lemma vwr_home_start lg bl V x :
  tx lg bl -> vwr x (home_writes V bl) lg.(lg_start) = x lg.(lg_start).
Proof. intros HT. apply vwr_notin. rewrite home_writes_fst. by apply start_not_home. Qed.

Lemma vwr_last V l b x : vwr V (l ++ [(b, x)]) b = x.
Proof. rewrite vwr_app. cbn. by rewrite fn_lookup_insert. Qed.

Lemma vwr_in V l i b x : NoDup l.*1 -> l !! i = Some (b, x) -> vwr V l b = x.
Proof.
  intros Hnd Hi. apply list_elem_of_split_length in Hi. destruct Hi as (l1 & l2 & -> & _).
  change ((b, x) :: l2) with ([(b, x)] ++ l2) in *. rewrite app_assoc, vwr_app, vwr_notin; [apply vwr_last|].
  rewrite !fmap_app in Hnd. cbn in Hnd. apply NoDup_app in Hnd. destruct Hnd as (_ & _ & Hnd).
  by apply NoDup_cons in Hnd as [].
Qed.

(** After write_log() and write_head() the log holds the blocks, so that
    install_trans() writes them home. *)
Lemma inst_writes_commit lg V bl x :
  inst_writes lg (<[lg.(lg_start) := x]> (vwr V (log_writes lg V bl))) bl = home_writes V bl.
Proof.
  apply list_eq. intros i. unfold inst_writes, home_writes. change (map ?f ?l) with (f <$> l).
  rewrite list_lookup_imap, list_lookup_fmap. destruct (bl !! i) as [b|] eqn:Hb; [|done]. cbn. do 2 f_equal.
  rewrite fn_lookup_insert_ne by (unfold log_slot; lia).
  eapply vwr_in; [apply log_writes_nodup|by apply log_writes_lookup].
Qed.

Lemma tx_clear lg bl : tx lg bl -> tx (set_lg_n 0 lg) [].
Proof. intros [A1 A2 A3 A4 A5 A6 A7]. split; try done. - cbn. lia. - intros b Hb. set_solver. Qed.

(** ** Recovery *)

(** The log on a disk is well formed: what commit() leaves there. *)
Record log_wf (start : Z) (d : gmap Z (list Z)) : Prop := {
  lw_start : 0 <= start /\ start + LOGBLOCKS < 2 ^ 31;
  lw_n : 0 <= head_n (disk_at d start) <= LOGBLOCKS;
  lw_nodup : NoDup (head_blocks (disk_at d start));
  lw_home b : b ∈ head_blocks (disk_at d start) -> 0 <= b < 2 ^ 31 /\ ~ (start <= b <= start + LOGBLOCKS)
}.

(** read_head(): the in-memory header. *)
Definition read_blocks (hd l : list Z) (k : nat) : list Z :=
  foldl (fun l i => <[i := head_block hd i]> l) l (seq 0 k).
Definition read_log (hd : list Z) (lg : logstate) : logstate :=
  set_lg_block (read_blocks hd lg.(lg_block) (Z.to_nat (head_n hd))) (set_lg_n (head_n hd) lg).

Lemma read_blocks_spec hd l k :
  (k <= length l)%nat -> length (read_blocks hd l k) = length l /\
  forall i, (i < k)%nat -> read_blocks hd l k !! i = Some (head_block hd i).
Proof.
  intros Hk. unfold read_blocks. induction k as [|k IH]; [split; [done|lia]|].
  destruct IH as [L H]; [lia|]. rewrite seq_S, foldl_app. cbn [foldl Nat.add]. split.
  - by rewrite length_insert.
  - intros i Hi. destruct (decide (i = k)) as [->|]; [apply list_lookup_insert_eq; lia|].
    rewrite list_lookup_insert_ne by done. apply H. lia.
Qed.

Lemma tx_read lg d :
  lg.(lg_dev) = ROOTDEV -> length lg.(lg_block) = Z.to_nat LOGBLOCKS -> log_wf lg.(lg_start) d ->
  tx (read_log (disk_at d lg.(lg_start)) lg) (head_blocks (disk_at d lg.(lg_start))).
Proof.
  intros Hdev Hlen [W1 W2 W3 W4]. set (hd := disk_at d lg.(lg_start)) in *.
  assert (length (head_blocks hd) = Z.to_nat (head_n hd)) as Hl.
  { unfold head_blocks. by rewrite length_map, length_seq. }
  destruct (read_blocks_spec hd lg.(lg_block) (Z.to_nat (head_n hd))) as [L H]; [lia|].
  split; try done; cbn [lg_n lg_block read_log set_lg_block set_lg_n]; try lia.
  rewrite Hl. unfold head_blocks. apply list_eq. intros i. change (map ?f ?l) with (f <$> l).
  rewrite list_lookup_fmap. destruct (decide (i < Z.to_nat (head_n hd))%nat) as [Hi|Hi].
  - rewrite lookup_take_lt, H, lookup_seq_lt by done. done.
  - rewrite lookup_take_ge, lookup_seq_ge by lia. done.
Qed.

(** What recover_from_log() writes. *)
Definition recover_writes (start : Z) (d : gmap Z (list Z)) : writes :=
  let hd := disk_at d start in
  imap (fun i b => (b, disk_at d (start + Z.of_nat i + 1))) (head_blocks hd) ++
  [(start, set_head_n 0 hd)].

(** The disk writes of a trace. *)
Definition disk_trace (tr : list event) : writes :=
  omap (fun e => match e with EvDiskWrite _ b x => Some (b, x) | _ => None end) tr.

Lemma disk_trace_app l1 l2 : disk_trace (l1 ++ l2) = disk_trace l1 ++ disk_trace l2.
Proof. apply omap_app. Qed.

Lemma disk_trace_inst rec W : disk_trace (inst_events rec W) = W.
Proof.
  induction W as [|[b x] W IH] using rev_ind; [done|].
  rewrite inst_events_snoc, disk_trace_app, IH. by destruct rec.
Qed.

Lemma disk_trace_evs W : disk_trace (evs W) = W.
Proof. by rewrite <-inst_events_false, disk_trace_inst. Qed.

Section triples.
Context (pid : Z) (h0 : hart) (env : list turn) (s : kstate) (D0 : dyn) (B : world -> Prop).

#[local] Abbreviation St := (st pid h0 env s D0).

Lemma st_copy_data lg tr d V R O w to from bt bf :
  St lg tr d V R O w -> O to = Some bt -> O from = Some bf ->
  wpx B (copy_data bt bf) (fun _ => St lg tr d (<[to := V from]> V) R O) w.
Proof.
  intros HI Ht Hf. unfold copy_data. wcall st_get_buf; [done..|]. intros x w' (HI' & -> & _).
  pose proof (st_data_length _ _ _ _ _ _ _ _ _ _ _ _ to HI) as L1.
  pose proof (st_data_length _ _ _ _ _ _ _ _ _ _ _ _ from HI) as L2.
  assert (splice 0 (take (Z.to_nat BSIZE) (V from)) (V to) = V from) as E.
  { unfold splice. fold bsize. rewrite (take_ge (V from)), drop_ge by lia. cbn. apply app_nil_r. }
  eapply wpx_mono; [by eapply st_upd_data with (bno := to); [done..|rewrite E]|]. cbn beta. by rewrite E.
Qed.

(** write_head() *)
Lemma st_write_head lg tr d V R O w bl :
  St lg tr d V R O w -> tx lg bl -> O lg.(lg_start) = None -> R lg.(lg_start) = 0 -> roomy R ->
  let hd := head_put lg.(lg_n) lg.(lg_block) (V lg.(lg_start)) in
  wpx B write_head (fun _ => St lg (tr ++ [EvDiskWrite ROOTDEV lg.(lg_start) hd])
    (<[lg.(lg_start) := hd]> d) (<[lg.(lg_start) := hd]> V) R O) w.
Proof.
  intros HI HT HO HR Hroom hd. pose proof LOGBLOCKS_eq. pose proof (tx_start _ _ HT) as Hst. pose proof (tx_max _ _ HT) as Hmax.
  pose proof (st_data_length _ _ _ _ _ _ _ _ _ _ _ _ (lg_start lg) HI) as L1.
  assert (Z.to_nat (lg_n lg) = length bl) as Hn by (rewrite (tx_n _ _ HT); lia).
  unfold write_head. wcall (st_get_log pid h0 env s D0 B (fun l => l)); [done|]. clear w HI. intros ? w [-> HI].
  rewrite (tx_dev _ _ HT), u32_small by lia.
  wcall st_bread; [done..|lia|done|]. clear w HI. intros b w HI.
  eapply wpx_call; [eapply st_upd_data with (bno := lg_start lg); [done|by rewrite fn_lookup_insert|]|].
  { unfold set_head_n. rewrite length_put32; [done|]. rewrite L1. unfold bsize, BSIZE. lia. }
  cbn beta. clear w HI. intros _ w HI. apply wpx_bind.
  set (Vk k := <[lg_start lg := foldl (fun d i => set_head_block i (lg_block lg !!! i) d)
                   (set_head_n (lg_n lg) (V (lg_start lg))) (seq 0 k)]> V).
  apply wpx_for_seq with (I := fun k => St lg tr d (Vk k) (<[lg_start lg := R (lg_start lg) + 1]> R)
    (<[lg_start lg := Some b]> O)).
  - eapply st_ext; [exact HI|done..].
  - clear w HI. intros k w Hk HI. destruct (tx_lookup _ _ k HT) as (x & _ & Hx); [lia|].
    wcall st_get_block; [done..|]. intros ? w' [-> HI'].
    destruct (head_put_prefix (lg_n lg) (lg_block lg) (V (lg_start lg)) (S k)) as (Lk & _); [done|lia|].
    rewrite seq_S, foldl_app in Lk. cbn [foldl Nat.add] in Lk.
    rewrite (list_lookup_total_correct _ _ _ Hx) in Lk.
    eapply wpx_mono; [eapply st_upd_data with (bno := lg_start lg);
      [done|by rewrite fn_lookup_insert|unfold Vk; by rewrite fn_lookup_insert]|].
    cbn beta. intros _ w2 HI2. eapply st_ext; [exact HI2| |done|done]. unfold Vk.
    rewrite seq_S, foldl_app. cbn [foldl Nat.add]. rewrite (list_lookup_total_correct _ _ _ Hx).
    rewrite fn_lookup_insert. fns.
  - clear w HI. intros w HI. fold hd in HI || idtac.
    assert (Vk (Z.to_nat (lg_n lg)) (lg_start lg) = hd) as E by (unfold Vk; by rewrite fn_lookup_insert).
    eapply wpx_call; [eapply st_bwrite with (bno := lg_start lg); [done|by rewrite fn_lookup_insert]|].
    cbn beta. rewrite E. clear w HI. intros _ w HI.
    eapply wpx_mono; [eapply st_brelse with (bno := lg_start lg); [done|by rewrite fn_lookup_insert| |]|].
    + rewrite fn_lookup_insert. lia.
    + intros _. rewrite E. unfold disk_at. by rewrite lookup_insert_eq.
    + cbn beta. intros _ w' HI'. eapply st_ext; [exact HI'|done| |]; fns.
Qed.

(** One iteration of write_log() after its two bread()s. *)
Lemma st_log_block lg tr d V R O w to from bt bf :
  St lg tr d V R O w -> to <> from -> O to = Some bt -> O from = Some bf ->
  R to < 2 ^ 32 -> 1 < R from < 2 ^ 32 ->
  wpx B (copy_data bt bf;; bwrite bt;; brelse bf;; brelse bt)
    (fun _ => St lg (tr ++ [EvDiskWrite ROOTDEV to (V from)]) (<[to := V from]> d) (<[to := V from]> V)
       (<[to := R to - 1]> (<[from := R from - 1]> R)) (<[to := None]> (<[from := None]> O))) w.
Proof.
  intros HI Hne Ht Hf HRt HRf. wcall st_copy_data; [done..|]. clear w HI. intros _ w HI.
  eapply wpx_call; [by eapply (st_bwrite _ _ _ _ _ _ _ _ _ _ _ _ _ to)|]. cbn beta.
  rewrite fn_lookup_insert. clear w HI. intros _ w HI.
  eapply wpx_call; [eapply (st_brelse _ _ _ _ _ _ _ _ _ _ _ _ _ from); [done..|lia|lia]|]. cbn beta.
  clear w HI. intros _ w HI.
  eapply wpx_mono; [eapply (st_brelse _ _ _ _ _ _ _ _ _ _ _ _ _ to); [done|..]|].
  - by rewrite fn_lookup_insert_ne.
  - by rewrite fn_lookup_insert_ne.
  - intros _. rewrite fn_lookup_insert. unfold disk_at. by rewrite lookup_insert_eq.
  - cbn beta. intros _ w' HI'. by rewrite fn_lookup_insert_ne in HI'.
Qed.

(** The state after a prefix of a list of writes, each made to a buffer and
    to the disk. *)
Definition stW (lg : logstate) (tr : list event) d V R (W : writes) : world -> Prop :=
  St lg (tr ++ evs W) (dwr d W) (vwr V W) R nolocks.

Lemma stW_snoc lg tr d V R W b x V' R' O' w :
  St lg ((tr ++ evs W) ++ [EvDiskWrite ROOTDEV b x]) (<[b := x]> (dwr d W)) V' R' O' w ->
  (forall k, V' k = <[b := x]> (vwr V W) k) -> (forall k, R' k = R k) -> (forall k, O' k = None) ->
  stW lg tr d V R (W ++ [(b, x)]) w.
Proof.
  intros HI HV HR HO. unfold stW, evs. rewrite map_app, dwr_app, vwr_app, app_assoc.
  eapply st_ext; [exact HI|done..].
Qed.

Lemma st_write_log lg tr d V w bl :
  St lg tr d V (pins bl) nolocks w -> tx lg bl -> (length bl < NBUF)%nat ->
  wpx B write_log (fun _ => stW lg tr d V (pins bl) (log_writes lg V bl)) w.
Proof.
  intros HI HT Hroom. set (W := log_writes lg V bl).
  unfold write_log. wcall (st_get_log pid h0 env s D0 B lg_n); [done|]. clear w HI. intros ? w [-> HI].
  rewrite (tx_n _ _ HT), Nat2Z.id.
  apply wpx_for_seq with (I := fun k => stW lg tr d V (pins bl) (take k W)).
  - unfold stW. cbn. by rewrite app_nil_r.
  - clear w HI. intros i w Hi HI. destruct (tx_lookup _ _ i HT Hi) as (b & Hb & Hgb).
    destruct (tx_addr _ _ i b HT Hb) as (E1 & E2 & N1 & N2 & _).
    pose proof (log_writes_lookup lg V bl i b Hb) as HW. pose proof (vwr_log_home lg V bl i b i HT Hb) as Vb.
    pose proof (pins_slot lg bl i HT Hi) as P0. pose proof (pins_home bl i b Hb) as P1.
    wcall (st_get_log pid h0 env s D0 B (fun l => l)); [exact HI|]. clear w HI. intros ? w [-> HI].
    rewrite (tx_dev _ _ HT), E1. wcall st_bread; [done..|lia|intros _; by apply roomy_pins|].
    clear w HI. intros bt w HI. wcall st_get_block; [done..|]. clear w HI. intros ? w [-> HI]. rewrite E2.
    wcall st_bread; [done|by rewrite fn_lookup_insert_ne by done|rewrite fn_lookup_insert_ne by done; lia|
      rewrite fn_lookup_insert_ne by done; lia|].
    clear w HI. intros bf w HI. rewrite fn_lookup_insert_ne in HI by done.
    eapply wpx_mono; [eapply (st_log_block _ _ _ _ _ _ _ (log_slot lg i) b); [done|done|fns..]|].
    cbn beta. intros _ w' HI'. unfold W in *. rewrite (take_S_r _ _ _ HW). rewrite Vb in HI'.
    eapply stW_snoc; [exact HI'|done|fns..].
  - intros w' HI'. unfold W, log_writes in HI'. by rewrite take_ge in HI' by (by rewrite length_imap).
Qed.

(** One iteration of install_trans() after its two bread()s. *)
Lemma st_install_block (rec : bool) lg tr d V R O w src dst bs bd :
  St lg tr d V R O w -> src <> dst -> O src = Some bs -> O dst = Some bd ->
  R src = 1 -> R dst = (if rec then 1 else 2) -> V src = disk_at d src ->
  wpx B (copy_data bd bs;; bwrite bd;; when (negb rec) (bunpin bd);; brelse bs;; brelse bd)
    (fun _ => St lg (tr ++ [EvDiskWrite ROOTDEV dst (V src)]) (<[dst := V src]> d) (<[dst := V src]> V)
       (<[dst := 0]> (<[src := 0]> R)) (<[dst := None]> (<[src := None]> O))) w.
Proof.
  intros HI Hne Hs Hd HRs HRd Hcl. wcall st_copy_data; [done..|]. clear w HI. intros _ w HI.
  eapply wpx_call; [by eapply (st_bwrite _ _ _ _ _ _ _ _ _ _ _ _ _ dst)|]. cbn beta.
  rewrite fn_lookup_insert. clear w HI. intros _ w HI.
  eapply wpx_call with (P := fun _ => St _ _ _ _ (<[dst := 1]> R) O).
  { destruct rec; cbn [negb when].
    - apply wpx_ret. eapply st_ext; [exact HI|done|fns|done].
    - eapply wpx_mono; [eapply (st_bunpin _ _ _ _ _ _ _ _ _ _ _ _ _ dst); [done..|lia]|].
      cbn beta. intros _ w' HI'. eapply st_ext; [exact HI'|done|fns|done]. }
  cbn beta. clear w HI. intros _ w HI.
  eapply wpx_call; [eapply (st_brelse _ _ _ _ _ _ _ _ _ _ _ _ _ src); [done|done|fns|]|].
  { intros _. rewrite fn_lookup_insert_ne by done. unfold disk_at. rewrite lookup_insert_ne by done. done. }
  cbn beta. clear w HI. intros _ w HI.
  eapply wpx_mono; [eapply (st_brelse _ _ _ _ _ _ _ _ _ _ _ _ _ dst); [done|fns|fns|]|].
  - intros _. rewrite fn_lookup_insert. unfold disk_at. by rewrite lookup_insert_eq.
  - cbn beta. intros _ w' HI'. eapply st_ext; [exact HI'|done|fns|done].
Qed.

Lemma st_install_trans (rec : bool) lg tr d V w bl :
  St lg tr d V (inst_refs rec bl) nolocks w -> tx lg bl -> NoDup bl ->
  (rec = false -> (length bl < NBUF)%nat) ->
  let W := inst_writes lg V bl in
  wpx B (install_trans rec)
    (fun _ => St lg (tr ++ inst_events rec W) (dwr d W) (vwr V W) norefs nolocks) w.
Proof.
  intros HI HT Hnd Hroom W.
  unfold install_trans. wcall (st_get_log pid h0 env s D0 B lg_n); [done|]. clear w HI. intros ? w [-> HI].
  rewrite (tx_n _ _ HT), Nat2Z.id.
  apply wpx_for_seq with (I := fun k => St lg (tr ++ inst_events rec (take k W)) (dwr d (take k W))
    (vwr V (take k W)) (inst_refs rec (drop k bl)) nolocks).
  - cbn. by rewrite app_nil_r.
  - clear w HI. intros i w Hi HI. destruct (tx_lookup _ _ i HT Hi) as (b & Hb & Hgb).
    destruct (tx_addr _ _ i b HT Hb) as (E1 & E2 & N1 & _).
    pose proof (inst_writes_lookup lg V bl i b Hb) as HW. pose proof (vwr_inst_slot lg V bl i i HT Hi) as Vs.
    pose proof (inst_refs_slot rec lg bl i i HT Hi) as P0. pose proof (inst_refs_home rec bl i b Hb) as P1.
    pose proof (inst_refs_next rec bl i b Hnd Hb) as Pn.
    apply wpx_call with (P := fun _ => St lg (tr ++ inst_events rec (take i W) ++
      (if rec then [EvPrint "recovering tail %d dst %d" [Z.of_nat i; b]] else []))
      (dwr d (take i W)) (vwr V (take i W)) (inst_refs rec (drop i bl)) nolocks).
    { rewrite app_assoc. destruct rec; cbn [when]; [|apply wpx_ret; by rewrite app_nil_r].
      wcall st_get_block; [done..|]. intros ? w' [-> HI']. by apply st_emit. }
    clear w HI. intros _ w HI.
    wcall (st_get_log pid h0 env s D0 B (fun l => l)); [exact HI|]. clear w HI. intros ? w [-> HI].
    rewrite (tx_dev _ _ HT), E1.
    assert (vwr V (take i W) (log_slot lg i) = disk_at (dwr d (take i W)) (log_slot lg i)) as Hcl
      by (by eapply st_clean).
    wcall st_bread; [done..|lia|intros _; by apply roomy_inst|].
    clear w HI. intros bs w HI. wcall st_get_block; [done..|]. clear w HI. intros ? w [-> HI]. rewrite E2, P0 in *.
    wcall st_bread; [done|fns|rewrite fn_lookup_insert_ne by done; destruct rec; lia| |].
    { rewrite fn_lookup_insert_ne, P1 by done. destruct rec; [intros _; apply roomy_one|done]. }
    clear w HI. intros bd w HI. rewrite fn_lookup_insert_ne, P1 in HI by done.
    eapply wpx_mono; [eapply (st_install_block rec _ _ _ _ _ _ _ (log_slot lg i) b); [done|done|fns..|destruct rec; fns|done]|].
    cbn beta. intros _ w' HI'. unfold W in *. rewrite (take_S_r _ _ _ HW), Vs in *.
    rewrite inst_events_snoc, dwr_app, vwr_app.
    rewrite length_take_le by (unfold inst_writes; rewrite length_imap; lia).
    rewrite <-!app_assoc in HI'. eapply st_ext; [exact HI'|done| |fns].
    intros k. rewrite Pn. fns.
  - intros w' HI'. unfold W in *. unfold inst_writes in *. rewrite take_ge in HI' by (by rewrite length_imap).
    eapply st_ext; [exact HI'|done| |done]. intros k. rewrite drop_all. by destruct rec.
Qed.

(** commit() *)
Lemma st_commit lg tr d V w bl :
  St lg tr d V (pins bl) nolocks w -> tx lg bl -> NoDup bl -> (length bl < NBUF)%nat ->
  let W := commit_writes lg V bl in
  wpx B commit (fun _ => St (set_lg_n 0 lg) (tr ++ evs W) (dwr d W) (disk_at (dwr d W)) norefs nolocks) w.
Proof.
  intros HI HT Hnd Hroom W. pose proof (tx_n _ _ HT) as Hn. unfold commit.
  wcall (st_get_log pid h0 env s D0 B lg_n); [done|]. clear w HI. intros ? w [-> HI].
  destruct (decide (bl = [])) as [->|Hne].
  { rewrite Hn. cbn. apply wpx_ret. rewrite app_nil_r. destruct lg; cbn in Hn; subst.
    eapply st_ext; [exact HI| |done|done]. intros b. symmetry. eapply st_clean; [exact HI|]. done. }
  assert ((lg_n lg >? 0) = true) as -> by (apply Z.gtb_lt; rewrite Hn; destruct bl; [done|cbn [length]; lia]). cbn [when].
  wcall st_write_log; [done..|]. clear w HI. intros _ w HI.
  wcall st_write_head; [exact HI|done|done|by eapply pins_start|by apply roomy_pins|].
  clear w HI. intros _ w HI.
  assert (vwr V (log_writes lg V bl) (lg_start lg) = V (lg_start lg)) as Vst by (by apply vwr_log_start).
  rewrite Vst in HI. fold (commit_head lg V) in HI.
  wcall (st_install_trans false); [exact HI|done..|]. clear w HI. intros _ w HI.
  rewrite inst_writes_commit, inst_events_false in HI by done.
  wcall st_upd_log; [exact HI|]. clear w HI. intros _ w HI.
  eapply wpx_mono; [eapply (st_write_head _ _ _ _ _ _ _ []);
    [exact HI|by apply (tx_clear lg bl)|done|done|apply (roomy_inst true [] 0); done]|].
  cbn beta. cbn [lg_start set_lg_n lg_n lg_block]. clear w HI. intros _ w HI.
  rewrite vwr_home_start, fn_lookup_insert in HI by done.
  unfold W, commit_writes. rewrite bool_decide_false by done. rewrite !evs_app, !dwr_app, !app_assoc.
  eapply st_ext; [exact HI| |done|done]. intros b. symmetry. by eapply st_clean.
Qed.

(** read_head() *)
Lemma st_read_head lg tr d w :
  St lg tr d (disk_at d) norefs nolocks w -> lg.(lg_dev) = ROOTDEV ->
  length lg.(lg_block) = Z.to_nat LOGBLOCKS -> log_wf lg.(lg_start) d ->
  let hd := disk_at d lg.(lg_start) in
  wpx B read_head (fun _ w' => St (read_log hd lg) tr d (disk_at d) norefs nolocks w' /\
    tx (read_log hd lg) (head_blocks hd)) w.
Proof.
  intros HI Hdev Hlen Hwf hd. pose proof LOGBLOCKS_eq. pose proof (lw_start _ _ Hwf) as Hst.
  pose proof (lw_n _ _ Hwf) as Hn. fold hd in Hn.
  unfold read_head. wcall (st_get_log pid h0 env s D0 B (fun l => l)); [done|]. clear w HI. intros ? w [-> HI].
  rewrite Hdev, u32_small by lia. wcall st_bread; [done..|unfold norefs; lia|intros _; by apply (roomy_inst true [] 0)|].
  clear w HI. intros b w HI.
  assert ((<[lg_start lg := Some b]> nolocks) (lg_start lg) = Some b) as HO by (by rewrite fn_lookup_insert).
  wcall st_get_buf; [done..|]. clear w HI. intros x w (HI & -> & _). fold hd.
  wcall st_upd_log; [done|]. clear w HI. intros _ w HI.
  wcall (st_get_log pid h0 env s D0 B lg_n); [done|]. clear w HI. intros ? w [-> HI]. cbn [lg_n set_lg_n].
  apply wpx_bind, wpx_for_seq with (I := fun k => St (set_lg_block (read_blocks hd (lg_block lg) k)
    (set_lg_n (head_n hd) lg)) tr d (disk_at d) (<[lg_start lg := norefs (lg_start lg) + 1]> norefs)
    (<[lg_start lg := Some b]> nolocks)).
  - destruct lg. exact HI.
  - clear w HI. intros k w Hk HI. wcall st_get_buf; [done..|]. clear w HI. intros x' w (HI & -> & _). fold hd.
    destruct (read_blocks_spec hd (lg_block lg) k) as [Lk _]; [lia|].
    eapply wpx_mono; [eapply st_put_block; [done|cbn; lia]|]. cbn beta. intros _ w' HI'.
    unfold read_blocks in *. rewrite seq_S, foldl_app. exact HI'.
  - clear w HI. intros w HI.
    eapply wpx_mono; [eapply (st_brelse _ _ _ _ _ _ _ _ _ _ _ _ _ (lg_start lg)); [done|done|fns|done]|].
    cbn beta. intros _ w' HI'. split; [eapply st_ext; [exact HI'|done|fns|fns]|]. by apply tx_read.
Qed.

(** recover_from_log(); the system calls in the transaction are untouched. *)
Definition same_ops (lg lg' : logstate) : Prop :=
  lg'.(lg_outstanding) = lg.(lg_outstanding) /\ lg'.(lg_committing) = lg.(lg_committing).

Lemma st_recover lg tr d w :
  St lg tr d (disk_at d) norefs nolocks w -> lg.(lg_dev) = ROOTDEV ->
  length lg.(lg_block) = Z.to_nat LOGBLOCKS -> log_wf lg.(lg_start) d ->
  let W := recover_writes lg.(lg_start) d in
  wpx B recover_from_log (fun _ w' => exists lg' tr',
    St lg' (tr ++ tr') (dwr d W) (disk_at (dwr d W)) norefs nolocks w' /\
    disk_trace tr' = W /\ tx lg' [] /\ lg'.(lg_start) = lg.(lg_start) /\ same_ops lg lg') w.
Proof.
  intros HI Hdev Hlen Hwf W. unfold recover_from_log. wcall st_read_head; [done..|].
  clear w HI. intros _ w [HI HT]. set (hd := disk_at d (lg_start lg)) in *. set (lg1 := read_log hd lg) in *.
  wcall (st_install_trans true); [exact HI|done|apply Hwf|done|]. clear w HI. intros _ w HI.
  wcall st_upd_log; [exact HI|]. clear w HI. intros _ w HI.
  eapply wpx_mono; [eapply (st_write_head _ _ _ _ _ _ _ []);
    [exact HI|by apply (tx_clear lg1 (head_blocks hd))|done|done|apply (roomy_inst true [] 0); done]|].
  cbn beta. clear w HI. intros _ w HI. cbn [lg_start set_lg_n lg_n lg_block] in HI.
  change (lg_start lg1) with (lg_start lg) in *.
  rewrite vwr_notin in HI by (rewrite inst_writes_fst; by apply (start_not_home lg1)).
  eexists _, _. rewrite app_assoc. split_and!; [|..|by apply (tx_clear lg1 (head_blocks hd))|done|done].
  - unfold W, recover_writes. fold hd. rewrite dwr_app.
    eapply st_ext; [exact HI| |done|done]. intros b. symmetry. by eapply st_clean.
  - rewrite disk_trace_app, disk_trace_inst. done.
Qed.

End triples.

(** ** log_write() *)

(** The transaction with one more block; a block it has is absorbed. *)
Definition logged (bno : Z) (bl : list Z) : list Z := if bool_decide (bno ∈ bl) then bl else bl ++ [bno].
Definition logged_st (bno : Z) (bl : list Z) (lg : logstate) : logstate :=
  if bool_decide (bno ∈ bl) then lg else
  set_lg_n (lg.(lg_n) + 1) (set_lg_block (<[length bl := bno]> lg.(lg_block)) lg).

Lemma tx_logged lg bl bno :
  tx lg bl -> lg.(lg_n) < LOGBLOCKS -> 0 <= bno < 2 ^ 31 ->
  ~ (lg.(lg_start) <= bno <= lg.(lg_start) + LOGBLOCKS) -> tx (logged_st bno bl lg) (logged bno bl).
Proof.
  intros HT Hn Hb Hh. unfold logged_st, logged. case_bool_decide as Hin; [done|].
  destruct HT as [A1 A2 A3 A4 A5 A6 A7]. split; cbn; try done.
  - rewrite length_app. cbn. lia.
  - rewrite length_app. cbn. lia.
  - by rewrite length_insert.
  - rewrite length_app, Nat.add_1_r. rewrite (take_S_r _ _ bno) by (apply list_lookup_insert_eq; lia).
    rewrite take_insert_ge by lia. by rewrite A6.
  - intros b [Hb'| ->%list_elem_of_singleton]%elem_of_app; [by apply A7|done].
Qed.

Lemma nodup_logged bno bl : NoDup bl -> NoDup (logged bno bl).
Proof.
  intros Hnd. unfold logged. case_bool_decide; [done|]. apply NoDup_app. split_and!; [done| |apply NoDup_singleton].
  intros x Hx ->%list_elem_of_singleton. done.
Qed.

(** The search loop of log_write(). *)
Lemma log_find lg bl bno :
  tx lg bl -> 0 <= bno < 2 ^ 32 -> let i := default (Z.to_nat lg.(lg_n))
    (find_index (fun k => u32 k =? bno) (take (Z.to_nat lg.(lg_n)) lg.(lg_block))) in
  if bool_decide (bno ∈ bl) then bl !! i = Some bno else i = length bl.
Proof.
  intros HT Hb. cbv zeta. rewrite (tx_n _ _ HT), Nat2Z.id, (tx_blocks _ _ HT).
  assert (forall k, k ∈ bl -> u32 k = k) as Hu.
  { intros k Hk. destruct (tx_home _ _ HT k Hk). apply u32_small. lia. }
  destruct (find_index _ bl) as [i|] eqn:E; cbn.
  - apply find_index_Some in E. destruct E as (x & Hx & Hf & _). apply Z.eqb_eq in Hf.
    rewrite Hu in Hf by (by eapply list_elem_of_lookup_2). subst x.
    rewrite bool_decide_true by (by eapply list_elem_of_lookup_2). done.
  - rewrite bool_decide_false; [done|]. intros Hin. apply list_elem_of_lookup in Hin. destruct Hin as [i Hi].
    pose proof (proj1 (find_index_None _ _) E i bno Hi) as Hf. cbn beta in Hf.
    rewrite Hu, Z.eqb_refl in Hf by (by eapply list_elem_of_lookup_2). done.
Qed.

(** Writing entry [i] of the header in memory, under any locks. *)
Lemma wpx_put_block B i b h env tr D s (Q : unit -> world -> Prop) :
  (i < length D.(d_log).(lg_block))%nat ->
  Q tt (World h env tr (dset (set_d_log (set_lg_block (<[i := b]> D.(d_log).(lg_block)) D.(d_log)) D) s)) ->
  wpx B (put_block i b) Q (World h env tr (dset D s)).
Proof.
  intros Hi HQ. unfold put_block. kstep. apply wpx_dget. cbn [log dset]. rewrite bool_decide_true by done.
  eapply wpx_dmod; [|exact HQ]. done.
Qed.

Lemma st_log_write pid h0 env s D0 B lg tr d V R O w bl bno b :
  st pid h0 env s D0 lg tr d V R O w -> O bno = Some b -> tx lg bl ->
  lg.(lg_n) < LOGBLOCKS -> 1 <= lg.(lg_outstanding) -> 0 <= bno < 2 ^ 31 -> R bno < 2 ^ 32 - 1 ->
  wpx B (log_write b) (fun _ => st pid h0 env s D0 (logged_st bno bl lg) tr d V
    (<[bno := if bool_decide (bno ∈ bl) then R bno else R bno + 1]> R) O) w.
Proof.
  intros (h & D & -> & A) HO HT Hn Hout Hb HR. pose proof A as [A1 A2 A3 A4 A5 A6 A7 A8 A9].
  pose proof A8 as [Hh Hproc HL Hsz]. destruct (cache_held _ _ _ _ _ _ _ A9 HO) as
    (x & Hx & Hd & Hbn & Hv & HV & HRx & Hpos & _).
  assert (0 <= bno < 2 ^ 32) as Hb32 by lia. pose proof (log_find lg bl bno HT Hb32) as Hf.
  unfold log_write. kstep. apply wpx_dacquire; [by apply calm_log|].
  set (L := lock_by _ _ _). kstep. apply wpx_dget. cbn [log dset d_log set_d_locks]. rewrite A4.
  assert ((lg_n lg >=? LOGBLOCKS) = false) as -> by lia.
  assert ((lg_outstanding lg <? 1) = false) as -> by lia. cbv iota.
  kstep. apply (wpx_get_buf _ _ _ _ _ _ b x); [done|]. rewrite Hbn. cbv zeta in *. set (i := default _ _) in *.
  rewrite s32_small by lia. pose proof (tx_n _ _ HT) as En. pose proof (tx_size _ _ HT) as Es.
  unfold logged_st. case_bool_decide as Hin.
  - assert (lg_block lg !! i = Some bno) as Hi.
    { rewrite <-(tx_blocks _ _ HT) in Hf. by apply lookup_take_Some in Hf as []. }
    assert (i < length bl)%nat as Hlt by (by eapply lookup_lt_Some).
    kstep. apply wpx_put_block; [cbn; rewrite A4; by eapply lookup_lt_Some|]. cbn [d_log set_d_locks]. rewrite A4.
    rewrite list_insert_id by done. assert ((Z.of_nat i =? lg_n lg) = false) as -> by lia.
    kstep. apply wpx_ret. eapply (wpx_drelease _ _ _ _ _ _ _ D.(d_locks)); [done|by apply calm_log|done|].
    replace (set_d_locks _ _) with D by (destruct D; cbn in *; subst; by destruct lg).
    exists (settle h), D. split; [done|]. split; try done.
    + eapply hart_le_trans; [done|apply hart_le_settle].
    + by apply sess_settle.
    + eapply cache_ext; [done|done| |done]. intros k. symmetry. by apply fn_same.
  - rewrite Hf in *. kstep. apply wpx_put_block; [cbn; rewrite A4; lia|]. cbn [d_log set_d_locks]. rewrite A4.
    assert ((Z.of_nat (length bl) =? lg_n lg) = true) as -> by lia.
    kstep. unfold when. kstep. unfold bpin.
    apply wpx_locked_upd; [by apply hart_push_ok| |].
    { cbn [d_locks set_d_log set_d_locks]. unfold L. rewrite lookup_lock_by_ne by done. by apply calm_bcache. }
    rewrite settle_push by done. cbn [d_bufs set_d_log set_d_locks].
    erewrite alter_as_insert by done. rewrite HRx, u32_small by lia.
    rewrite <-(alter_as_insert (set_b_refcnt (R bno + 1)) _ _ x) by done.
    set (bs := alter _ _ _). eapply (wpx_dmod _ _ _ _ _ _ _ _
      (set_d_log (set_lg_n (lg_n lg + 1) (set_lg_block (<[length bl := bno]> (lg_block lg)) lg))
        (set_d_bufs bs (set_d_locks L D)))); [done|].
    eapply (wpx_drelease _ _ _ _ _ _ _ D.(d_locks)); [done|by apply calm_log|done|].
    eexists (settle h), _. split; [done|].
    set (lg' := set_lg_n _ _).
    assert (rest h (set_d_log lg' D) (set_d_log lg' (set_d_bufs bs D))) as Hrest by (split; try done; apply woke_refl).
    replace (set_d_locks (d_locks D) _) with (set_d_log lg' (set_d_bufs bs D)) by by destruct D.
    split; try done.
    + eapply hart_le_trans; [done|apply hart_le_settle].
    + eapply sess_rest; [|exact Hrest]. by split.
    + apply (cache_frame pid (set_d_bufs bs D)); try done. apply cache_recount; [done..|lia].
Qed.

(** initlog() *)
Lemma st_initlog_ops pid h0 env s D0 B lg tr d w sb :
  st pid h0 env s D0 lg tr d (disk_at d) norefs nolocks w ->
  length lg.(lg_block) = Z.to_nat LOGBLOCKS -> log_wf sb.(sb_logstart) d ->
  let W := recover_writes sb.(sb_logstart) d in
  let D1 := set_d_locks (<[log_lock := free_lock "log"]> D0.(d_locks)) D0 in
  wpx B (initlog ROOTDEV sb) (fun _ w' => exists lg' tr',
    st pid h0 env s D1 lg' (tr ++ tr') (dwr d W) (disk_at (dwr d W)) norefs nolocks w' /\
    disk_trace tr' = W /\ tx lg' [] /\ lg'.(lg_start) = sb.(sb_logstart) /\ same_ops lg lg') w.
Proof.
  intros (h & D & -> & [A1 A2 A3 A4 A5 A6 A7 A8 A9]) Hlen Hwf W D1. unfold initlog.
  change (4 + 4 * LOGBLOCKS >=? BSIZE) with false. cbv iota.
  kstep. eapply run_wp; [apply initlock_run|].
  set (L := <[log_lock := free_lock "log"]> D0.(d_locks)).
  assert (st pid h0 env s (set_d_locks L D0) lg tr d (disk_at d) norefs nolocks
    (World h env tr (dset (set_d_locks L D) s))) as HI.
  { exists h, (set_d_locks L D). split; [done|]. split; try done.
    - destruct A8 as [S1 S2 S3 S4]. split; try done. cbn. apply calm_insert. by rewrite <-A2.
    - by apply (cache_frame pid D). }
  unfold L in HI at 2. rewrite <-A2 in HI. change (set_locks ?L (dset D s)) with (dset (set_d_locks L D) s).
  wcall st_upd_log; [exact HI|]. clear HI. intros _ w HI.
  wcall st_upd_log; [exact HI|]. clear w HI. intros _ w HI.
  eapply wpx_mono; [eapply (st_recover _ _ _ _ _ _ _ _ _ _ HI); done|].
  cbn beta. intros _ w' (lg' & tr' & HQ). by exists lg', tr'.
Qed.

Lemma st_initlog pid h0 env s D0 B lg tr d w sb :
  st pid h0 env s D0 lg tr d (disk_at d) norefs nolocks w ->
  length lg.(lg_block) = Z.to_nat LOGBLOCKS -> log_wf sb.(sb_logstart) d ->
  let W := recover_writes sb.(sb_logstart) d in
  wpx B (initlog ROOTDEV sb) (fun _ w' => exists D1 lg' tr', D1.(d_procs) = D0.(d_procs) /\
    st pid h0 env s D1 lg' (tr ++ tr') (dwr d W) (disk_at (dwr d W)) norefs nolocks w' /\
    disk_trace tr' = W /\ tx lg' [] /\ lg'.(lg_start) = sb.(sb_logstart)) w.
Proof.
  intros HI Hlen Hwf W. eapply wpx_mono; [by eapply st_initlog_ops|]. cbn beta.
  intros _ w' (lg' & tr' & H1 & H2 & H3 & H4 & _). eexists _, lg', tr'. split; [|split; [exact H1|done]]. done.
Qed.
