(* ===== verification/Crash.v ===== *)
(** * Crash atomicity of the log (kernel/log.c)

    A crash keeps the disk and loses everything else.  [crash_commit] and
    [crash_recover] are the disks that a crash during commit() and during
    initlog() can leave; a transaction is all or nothing across any number
    of them. *)

From stdpp Require Import functions.
From S2P Require Import Prelude Memory Riscv Machine Spinlock Kalloc Vm Sched Sleeplock Dyn Bytes Ring Bio Bcache Log Dstate LogSpec.

(** ** The three kinds of disk *)

(** A block outside the log. *)
Definition home (start b : Z) : Prop := ~ (start <= b <= start + LOGBLOCKS).

(** The header on the disk lists no block. *)
Definition quiet (start : Z) (d : gmap Z (list Z)) : Prop := head_n (disk_at d start) = 0.

Section classes.
Context (lg : logstate) (bl : list Z) (V : Z -> list Z) (d0 : gmap Z (list Z)).
Context (HT : tx lg bl) (Hnd : NoDup bl) (Hlen : forall b, length (V b) = bsize).
Context (Hlen0 : forall b, length (disk_at d0 b) = bsize).
Context (Hq : quiet lg.(lg_start) d0).

#[local] Abbreviation start := (lg.(lg_start)).

(** What the blocks are after the transaction. *)
Definition updated (b : Z) : list Z := if bool_decide (b ∈ bl) then V b else disk_at d0 b.

(** Before the commit point; between it and the end; afterwards. *)
Record old (d : gmap Z (list Z)) : Prop := {
  o_len b : length (disk_at d b) = bsize;
  o_quiet : quiet start d;
  o_home b : home start b -> disk_at d b = disk_at d0 b
}.
Record committed (d : gmap Z (list Z)) : Prop := {
  m_len b : length (disk_at d b) = bsize;
  m_n : head_n (disk_at d start) = Z.of_nat (length bl);
  m_blocks : head_blocks (disk_at d start) = bl;
  m_log i b : bl !! i = Some b -> disk_at d (log_slot lg i) = V b;
  m_home b : home start b -> b ∉ bl -> disk_at d b = disk_at d0 b
}.
Record new (d : gmap Z (list Z)) : Prop := {
  n_len b : length (disk_at d b) = bsize;
  n_quiet : quiet start d;
  n_home b : home start b -> disk_at d b = updated b
}.

Lemma home_slot i : (i < length bl)%nat -> ~ home start (log_slot lg i).
Proof. intros Hi. pose proof (tx_max _ _ HT). unfold home, log_slot. lia. Qed.

Lemma home_start : ~ home start start.
Proof. unfold home. pose proof LOGBLOCKS_eq. lia. Qed.

Lemma bl_home b : b ∈ bl -> home start b.
Proof. intros Hb. by apply (tx_home _ _ HT). Qed.

(** One write. *)
Lemma disk_at_insert d b x k : disk_at (<[b := x]> d) k = if bool_decide (b = k) then x else disk_at d k.
Proof.
  unfold disk_at. case_bool_decide; subst; [by rewrite lookup_insert_eq|by rewrite lookup_insert_ne].
Qed.

(** A header that lists nothing. *)
Lemma quiet_head_put hd blk : length hd = bsize -> head_n (head_put 0 blk hd) = 0.
Proof.
  intros Hl. destruct (head_put_prefix 0 blk hd 0 Hl) as (_ & H & _); [lia|].
  change (get32 0 (head_put 0 blk hd) = u32 0) in H. unfold head_n. by rewrite H.
Qed.

Lemma head_put_0 hd blk : head_put 0 blk hd = set_head_n 0 hd.
Proof. done. Qed.

(** Writing a log block before the commit point changes nothing that counts. *)
Lemma old_log_write d i b : old d -> bl !! i = Some b -> old (<[log_slot lg i := V b]> d).
Proof using HT Hlen.
  intros [A1 A2 A3] Hb. destruct (tx_addr _ _ i b HT Hb) as (_ & _ & _ & _ & _ & Hs). split.
  - intros k. rewrite disk_at_insert. by case_bool_decide.
  - unfold quiet. rewrite disk_at_insert, bool_decide_false by done. done.
  - intros k Hk. rewrite disk_at_insert, bool_decide_false; [auto|]. intros <-.
    revert Hk. apply home_slot. by eapply lookup_lt_Some.
Qed.

(** So does clearing the header. *)
Lemma old_clear d : old d -> old (<[start := set_head_n 0 (disk_at d start)]> d).
Proof.
  intros [A1 A2 A3]. assert (length (set_head_n 0 (disk_at d start)) = bsize) as Hl.
  { rewrite <-(head_put_0 _ []). apply length_head_put; [done|]. by pose proof LOGBLOCKS_eq; lia. }
  split.
  - intros k. rewrite disk_at_insert. by case_bool_decide.
  - unfold quiet. rewrite disk_at_insert, bool_decide_true by done. by apply (quiet_head_put _ []).
  - intros k Hk. rewrite disk_at_insert, bool_decide_false; [auto|]. intros <-. by apply home_start in Hk.
Qed.

Lemma new_clear d : new d -> new (<[start := set_head_n 0 (disk_at d start)]> d).
Proof.
  intros [A1 A2 A3]. assert (length (set_head_n 0 (disk_at d start)) = bsize) as Hl.
  { rewrite <-(head_put_0 _ []). apply length_head_put; [done|]. by pose proof LOGBLOCKS_eq; lia. }
  split.
  - intros k. rewrite disk_at_insert. by case_bool_decide.
  - unfold quiet. rewrite disk_at_insert, bool_decide_true by done. by apply (quiet_head_put _ []).
  - intros k Hk. rewrite disk_at_insert, bool_decide_false; [auto|]. intros <-. by apply home_start in Hk.
Qed.

(** Writing a block home after the commit point keeps the log. *)
Lemma committed_install d b : committed d -> b ∈ bl -> committed (<[b := V b]> d).
Proof using HT Hlen.
  intros [A1 A2 A3 A4 A5] Hb. assert (b <> start) as Hs by (intros ->; by apply (start_not_home lg bl)).
  split.
  - intros k. rewrite disk_at_insert. by case_bool_decide.
  - rewrite disk_at_insert, bool_decide_false by done. done.
  - rewrite disk_at_insert, bool_decide_false by done. done.
  - intros i c Hc. rewrite disk_at_insert, bool_decide_false; [auto|]. intros ->.
    apply bl_home in Hb. revert Hb. apply home_slot. by eapply lookup_lt_Some.
  - intros k Hk Hkb. rewrite disk_at_insert, bool_decide_false; [auto|]. by intros ->.
Qed.

Lemma committed_installs d l : committed d -> l ⊆ bl -> committed (dwr d (home_writes V l)).
Proof using HT Hlen.
  revert d. induction l as [|b l IH]; intros d Hd Hsub; [done|]. cbn. apply IH.
  - apply committed_install; [done|]. apply Hsub. apply list_elem_of_here.
  - intros x Hx. apply Hsub. by right.
Qed.

Lemma take_home_writes k : take k (home_writes V bl) = home_writes V (take k bl).
Proof. unfold home_writes. change (map ?f ?l) with (f <$> l). by rewrite fmap_take. Qed.

(** Writing the log blocks. *)
Lemma old_log_writes k : old (dwr d0 (take k (log_writes lg V bl))).
Proof using HT Hlen Hlen0 Hq.
  induction k as [|k IH]; [by split|].
  destruct (bl !! k) as [b|] eqn:Hb.
  - rewrite (take_S_r _ _ _ (log_writes_lookup lg V bl k b Hb)), dwr_app. by apply old_log_write.
  - rewrite !take_ge in * by (unfold log_writes; rewrite length_imap; apply lookup_ge_None in Hb; lia). done.
Qed.

(** The commit point. *)
Lemma commit_point :
  committed (<[start := commit_head lg V]> (dwr d0 (log_writes lg V bl))).
Proof using HT Hlen Hlen0 Hq.
  pose proof (old_log_writes (length bl)) as HO.
  rewrite take_ge in HO by (unfold log_writes; by rewrite length_imap). destruct HO as [A1 A2 A3].
  unfold commit_head. rewrite (tx_n _ _ HT).
  destruct (head_blocks_put bl (lg_block lg) (V start)) as [Hn Hb]; [done|apply HT| |apply HT|].
  { intros b Hb. destruct (tx_home _ _ HT b Hb). lia. }
  split.
  - intros k. rewrite disk_at_insert. case_bool_decide; [|done]. apply length_head_put; [done|].
    pose proof (tx_max _ _ HT). pose proof LOGBLOCKS_eq. lia.
  - rewrite disk_at_insert, bool_decide_true by done. done.
  - rewrite disk_at_insert, bool_decide_true by done. done.
  - intros i b Hi. rewrite disk_at_insert, bool_decide_false by (unfold log_slot; lia).
    eapply dwr_in; [apply log_writes_nodup|by apply log_writes_lookup].
  - intros b Hb' Hbl. rewrite disk_at_insert, bool_decide_false; [auto|]. intros <-. by apply home_start in Hb'.
Qed.

(** All blocks are home: clearing the header ends the transaction. *)
Lemma committed_done d x :
  committed d -> length x = bsize -> head_n x = 0 ->
  new (<[start := x]> (dwr d (home_writes V bl))).
Proof using HT Hnd Hlen.
  intros Hd Hl Hx. pose proof (committed_installs d bl Hd (reflexivity _)) as [A1 A2 A3 A4 A5]. split.
  - intros k. rewrite disk_at_insert. by case_bool_decide.
  - unfold quiet. rewrite disk_at_insert, bool_decide_true by done. done.
  - intros b Hb. rewrite disk_at_insert, bool_decide_false by (intros <-; by apply home_start in Hb).
    unfold updated. case_bool_decide as Hin; [|by apply A5].
    apply list_elem_of_lookup in Hin. destruct Hin as [i Hi]. eapply (dwr_in _ _ i).
    + by rewrite home_writes_fst.
    + unfold home_writes. change (map ?f ?l) with (f <$> l). by rewrite list_lookup_fmap, Hi.
Qed.

(** A crash after [k] writes of commit(). *)
Lemma commit_prefix k :
  let d := dwr d0 (take k (commit_writes lg V bl)) in
  (k <= length bl)%nat /\ old d \/ (length bl < k)%nat /\ (committed d \/ new d).
Proof using HT Hnd Hlen Hlen0 Hq.
  unfold commit_writes. case_bool_decide as He.
  { rewrite take_nil. cbn [dwr foldl]. destruct (decide (k <= length bl)%nat); [left|right]; split; try lia.
    - by split.
    - right. split; [done..|]. intros b _. unfold updated. rewrite bool_decide_false; [done|].
      rewrite He. apply not_elem_of_nil. }
  assert (length (log_writes lg V bl) = length bl) as L1 by (unfold log_writes; by rewrite length_imap).
  assert (length (home_writes V bl) = length bl) as L2 by (unfold home_writes; by rewrite length_map).
  cbv zeta. destruct (decide (k <= length bl)%nat) as [Hk|Hk].
  - left. rewrite take_app_le by lia. split; [done|apply old_log_writes].
  - right. split; [lia|]. rewrite take_app_ge, dwr_app by lia. rewrite L1.
    destruct (k - length bl)%nat as [|j] eqn:Ej; [lia|]. cbn [take app]. cbn [dwr foldl].
    fold (dwr (<[start := commit_head lg V]> (dwr d0 (log_writes lg V bl)))
            (take j (home_writes V bl ++ [(start, head_put 0 (lg_block lg) (commit_head lg V))]))).
    pose proof commit_point as HC. destruct (decide (j <= length bl)%nat) as [Hj|Hj].
    + left. rewrite take_app_le, take_home_writes by lia. apply committed_installs; [done|].
      intros b Hb. apply list_elem_of_lookup in Hb. destruct Hb as [i Hb]. apply lookup_take_Some in Hb.
      destruct Hb. by eapply list_elem_of_lookup_2.
    + right. rewrite take_ge, dwr_app by (rewrite length_app; cbn; lia). cbn [dwr foldl].
      assert (length (commit_head lg V) = bsize) as Hhl.
      { apply length_head_put; [done|]. pose proof (tx_max _ _ HT). pose proof LOGBLOCKS_eq. rewrite (tx_n _ _ HT). lia. }
      apply committed_done; [done| |by apply quiet_head_put].
      apply length_head_put; [done|]. pose proof LOGBLOCKS_eq. lia.
Qed.

(** ** Recovery *)

Lemma quiet_recover d : quiet start d -> recover_writes start d = [(start, set_head_n 0 (disk_at d start))].
Proof. intros H. unfold recover_writes, head_blocks. by rewrite H. Qed.

Lemma committed_recover d :
  committed d -> recover_writes start d = home_writes V bl ++ [(start, set_head_n 0 (disk_at d start))].
Proof.
  intros [A1 A2 A3 A4 A5]. unfold recover_writes. rewrite A3. f_equal. apply list_eq. intros i.
  unfold home_writes. change (map ?f ?l) with (f <$> l). rewrite list_lookup_imap, list_lookup_fmap.
  destruct (bl !! i) as [b|] eqn:Hb; [|done]. cbn. do 2 f_equal. by apply A4.
Qed.

Lemma quiet_wf d : quiet start d -> log_wf start d.
Proof using HT.
  intros H. pose proof LOGBLOCKS_eq. unfold quiet in H. split.
  - apply HT.
  - lia.
  - unfold head_blocks. rewrite H. constructor.
  - unfold head_blocks. rewrite H. intros b Hb. by apply elem_of_nil in Hb.
Qed.

Lemma committed_wf d : committed d -> log_wf start d.
Proof using HT Hnd.
  intros [A1 A2 A3 A4 A5]. pose proof LOGBLOCKS_eq. pose proof (tx_max _ _ HT). split.
  - apply HT.
  - lia.
  - by rewrite A3.
  - intros b. rewrite A3. apply HT.
Qed.

(** A disk that a crash can leave, with the writes of a recovery cut short. *)
Definition any_class (d : gmap Z (list Z)) : Prop := old d \/ committed d \/ new d.

Lemma any_wf d : any_class d -> log_wf start d.
Proof using HT Hnd. intros [[]|[|[]]]; auto using quiet_wf, committed_wf. Qed.

Lemma recover_prefix d j :
  (old d -> old (dwr d (take j (recover_writes start d)))) /\
  (committed d \/ new d ->
   committed (dwr d (take j (recover_writes start d))) \/ new (dwr d (take j (recover_writes start d)))).
Proof using HT Hnd Hlen.
  split; [intros Hd|intros [Hd|Hd]].
  - rewrite quiet_recover by apply Hd. destruct j; [done|]. cbn [take]. rewrite take_nil. by apply old_clear.
  - rewrite committed_recover by done.
    assert (length (home_writes V bl) = length bl) as L2 by (unfold home_writes; by rewrite length_map).
    destruct (decide (j <= length bl)%nat) as [Hj|Hj].
    + left. rewrite take_app_le, take_home_writes by lia. apply committed_installs; [done|].
      intros b Hb. apply list_elem_of_lookup in Hb. destruct Hb as [i Hb]. apply lookup_take_Some in Hb.
      destruct Hb. by eapply list_elem_of_lookup_2.
    + right. rewrite take_ge, dwr_app by (rewrite length_app; cbn; lia). cbn [dwr foldl].
      apply committed_done; [done| |apply (quiet_head_put _ []), Hd].
      apply (length_head_put 0 []); [apply Hd|]. pose proof LOGBLOCKS_eq. lia.
  - right. rewrite quiet_recover by apply Hd. destruct j; [done|]. cbn [take]. rewrite take_nil. by apply new_clear.
Qed.

Lemma recover_full d :
  (old d -> old (dwr d (recover_writes start d))) /\
  (committed d \/ new d -> new (dwr d (recover_writes start d))).
Proof using HT Hnd Hlen.
  split; [intros Hd|intros [Hd|Hd]].
  - rewrite quiet_recover by apply Hd. by apply old_clear.
  - rewrite committed_recover, dwr_app by done. cbn [dwr foldl].
    apply committed_done; [done| |apply (quiet_head_put _ []), Hd].
    apply (length_head_put 0 []); [apply Hd|]. pose proof LOGBLOCKS_eq. lia.
  - rewrite quiet_recover by apply Hd. by apply new_clear.
Qed.

End classes.

(** ** Crashes of the code *)

(** A machine that has just booted with disk [d]: nothing is cached and
    nothing has been written. *)
Definition booted (d : gmap Z (list Z)) (w : world) : Prop :=
  exists pid h env s D lg, st pid h env s D lg [] d (disk_at d) norefs nolocks w /\
    length lg.(lg_block) = Z.to_nat LOGBLOCKS.

(** initlog() on such a machine. *)
Lemma booted_initlog sb d w :
  booted d w -> log_wf sb.(sb_logstart) d ->
  exists w', initlog ROOTDEV sb w = Ret tt w' /\
    disk_trace w'.(w_trace) = recover_writes sb.(sb_logstart) d /\
    w'.(w_st).(disk) = dwr d (recover_writes sb.(sb_logstart) d).
Proof.
  intros (pid & h & env & s & D & lg & HI & Hlen) Hwf.
  pose proof (st_initlog pid h env s D (fun _ => False) lg [] d w sb HI Hlen Hwf) as H.
  apply wp_run in H. destruct H as ([] & w' & Hr & D1 & lg' & tr' & _ & (h' & D' & -> & HA) & Htr & _).
  eexists. split; [exact Hr|]. split; [done|]. apply HA.
Qed.

(** One crash during initlog(): some of its writes reached the disk. *)
Definition crash_recover (sb : superblock) (d d' : gmap Z (list Z)) : Prop :=
  exists w w' j, booted d w /\ initlog ROOTDEV sb w = Ret tt w' /\
    d' = dwr d (take j (disk_trace w'.(w_trace))).

(** The kind of disk survives crashes during recovery. *)
Lemma crash_classes lg bl V d0 sb d d' :
  tx lg bl -> NoDup bl -> (forall b, length (V b) = bsize) -> sb.(sb_logstart) = lg.(lg_start) ->
  rtc (crash_recover sb) d d' ->
  (old lg d0 d -> old lg d0 d') /\
  (committed lg bl V d0 d \/ new lg bl V d0 d -> committed lg bl V d0 d' \/ new lg bl V d0 d').
Proof.
  intros HT Hnd Hlen Hsb. induction 1 as [d|d d1 d2 Hstep _ IH]; [done|].
  destruct Hstep as (w & w' & j & Hb & Hr & ->).
  destruct (recover_prefix lg bl V d0 HT Hnd Hlen d j) as [P1 P2].
  assert (any_class lg bl V d0 d -> disk_trace (w_trace w') = recover_writes (lg_start lg) d) as Htr.
  { intros Hc. destruct (booted_initlog sb d w Hb) as (w2 & Hr2 & Htr & _).
    - rewrite Hsb. by eapply any_wf.
    - rewrite Hr in Hr2. injection Hr2 as <-. by rewrite Htr, Hsb. }
  split; intros Hc.
  - apply IH. rewrite Htr by (by left). auto.
  - apply IH. rewrite Htr by (destruct Hc; unfold any_class; tauto). auto.
Qed.

(** C1: Crash atomicity.  commit() of a transaction that updates the blocks
    [bl] runs to completion; if the machine crashes after any number [k] of
    its disk writes, and then crashes any number of times during recovery,
    the initlog() that finally completes leaves every block outside the log
    as it was before the transaction, or leaves every block as the
    transaction made it; which of the two depends only on whether the write
    of the header, which follows the [length bl] log blocks, was done. *)
Theorem commit_crash_atomic pid h env s D lg tr d V w bl sb :
  st pid h env s D lg tr d V (pins bl) nolocks w ->
  tx lg bl -> NoDup bl -> (length bl < NBUF)%nat -> quiet lg.(lg_start) d ->
  sb.(sb_logstart) = lg.(lg_start) ->
  exists w', commit w = Ret tt w' /\
    forall k d' wb,
      rtc (crash_recover sb) (dwr d (take k (disk_trace (drop (length tr) w'.(w_trace))))) d' ->
      booted d' wb ->
      exists wb', initlog ROOTDEV sb wb = Ret tt wb' /\
        quiet lg.(lg_start) wb'.(w_st).(disk) /\
        forall b, home lg.(lg_start) b ->
          disk_at wb'.(w_st).(disk) b =
          if bool_decide (k <= length bl)%nat then disk_at d b else updated bl V d b.
Proof.
  intros HI HT Hnd Hroom Hq Hsb.
  assert (forall b, length (V b) = bsize) as Hlen by (intros b; by eapply st_data_length).
  assert (forall b, length (disk_at d b) = bsize) as Hlen0 by (intros b; by eapply st_disk_length).
  pose proof (st_commit pid h env s D (fun _ => False) lg tr d V w bl HI HT Hnd Hroom) as H.
  apply wp_run in H. destruct H as ([] & w' & Hr & (h' & D' & -> & _)). eexists. split; [exact Hr|].
  cbn [w_trace]. rewrite drop_app_length, disk_trace_evs. intros k d' wb Hcr Hb.
  destruct (crash_classes lg bl V d sb _ _ HT Hnd Hlen Hsb Hcr) as [C1 C2].
  assert (any_class lg bl V d d') as Hany.
  { unfold any_class. destruct (commit_prefix lg bl V d HT Hnd Hlen Hlen0 Hq k) as [[_ ?]|[_ ?]]; tauto. }
  destruct (booted_initlog sb d' wb Hb) as (wb' & Hr' & _ & Hd'); [rewrite Hsb; by eapply any_wf|].
  exists wb'. split; [exact Hr'|]. rewrite Hd', Hsb.
  destruct (recover_full lg bl V d HT Hnd Hlen d') as [F1 F2].
  destruct (commit_prefix lg bl V d HT Hnd Hlen Hlen0 Hq k) as [[Hk Hc]|[Hk Hc]].
  - destruct (F1 (C1 Hc)) as [? ? ?]. rewrite bool_decide_true by done. auto.
  - destruct (F2 (C2 Hc)) as [? ? ?]. rewrite bool_decide_false by lia. auto.
Qed.
