(* ===== verification/StorageSpec.v ===== *)
(** * Properties of the buffer cache and the log *)

From stdpp Require Import functions.
From S2P Require Import Prelude Memory Riscv Machine Spinlock Kalloc Vm Sched Sleeplock Dyn Bytes Ring Bio Bcache Log Dstate Binit LogSpec Crash.

(** ** A concrete transaction *)

Definition sample_sb : superblock := Superblock 0x10203040 2000 1954 200 31 2 33 46.
Definition sample_data : list Z := replicate bsize 7.

Lemma zero_disk b : disk_at ∅ b = replicate bsize 0.
Proof. reflexivity. Qed.

Lemma quiet_zero start : quiet start ∅.
Proof. unfold quiet. rewrite zero_disk. vm_compute. reflexivity. Qed.

Lemma wf_zero start : 0 <= start -> start + LOGBLOCKS < 2 ^ 31 -> log_wf start ∅.
Proof.
  intros H1 H2. pose proof (quiet_zero start) as Hq. unfold quiet in Hq. pose proof LOGBLOCKS_eq.
  split; [done|lia|..]; unfold head_blocks; rewrite Hq; [constructor|].
  intros b Hb. by apply not_elem_of_nil in Hb.
Qed.

(** One update inside a transaction: bread(), assignment, log_write(),
    brelse(). *)
Definition update_block (bno : Z) (l : list Z) : K unit :=
  b ← bread ROOTDEV bno;
  upd_buf b (set_b_data l);;
  log_write b;;
  brelse b.

Lemma st_update_block pid h env s D B lg tr d V w bl bno l :
  st pid h env s D lg tr d V (pins bl) nolocks w -> tx lg bl -> NoDup bl -> (length bl < NBUF)%nat ->
  1 <= lg.(lg_outstanding) -> bno ∉ bl -> 0 <= bno < 2 ^ 31 -> home lg.(lg_start) bno -> length l = bsize ->
  wpx B (update_block bno l) (fun _ => st pid h env s D (logged_st bno bl lg) tr d (<[bno := l]> V)
    (pins (bl ++ [bno])) nolocks) w.
Proof.
  intros HI HT Hnd Hlen Hout Hnew Hb Hh Hl. assert (pins bl bno = 0) as P0.
  { unfold pins. by rewrite bool_decide_false. }
  pose proof (tx_n _ _ HT) as Hn. pose proof LOGBLOCKS_eq. unfold NBUF in Hlen.
  unfold update_block. wcall st_bread; [done..|lia|intros _; by apply roomy_pins|]. clear w HI. intros b w HI.
  assert ((<[bno := Some b]> nolocks) bno = Some b) as HO by (by rewrite fn_lookup_insert).
  eapply wpx_call; [by eapply (st_put_data _ _ _ _ _ _ _ _ _ _ _ _ _ bno)|]. cbn beta. clear w HI. intros _ w HI.
  eapply wpx_call; [eapply (st_log_write _ _ _ _ _ _ _ _ _ _ _ _ _ bl bno); [done..|lia|done|done|]|].
  { rewrite fn_lookup_insert. lia. }
  cbn beta. rewrite bool_decide_false, fn_lookup_insert, P0 by done. clear w HI. intros _ w HI.
  eapply wpx_mono; [eapply (st_brelse _ _ _ _ _ _ _ _ _ _ _ _ _ bno); [done..| |]|].
  - rewrite fn_lookup_insert. lia.
  - rewrite fn_lookup_insert. lia.
  - cbn beta. intros _ w' HI'. eapply st_ext; [exact HI'|done| |].
    + intros k. rewrite fn_lookup_insert. unfold pins. destruct (decide (bno = k)) as [<-|Hne].
      * rewrite fn_lookup_insert, bool_decide_true; [done|]. set_solver.
      * rewrite !fn_lookup_insert_ne by done. erewrite bool_decide_ext; [done|]. set_solver.
    + intros k. destruct (decide (bno = k)) as [<-|]; [by rewrite fn_lookup_insert|by rewrite !fn_lookup_insert_ne].
Qed.

(** A machine on an empty disk that has recovered and whose transaction has
    updated the blocks 40, 41, ... *)
Definition sample_blocks (k : nat) : list Z := map (fun i => 40 + Z.of_nat i) (seq 0 k).

Lemma sample_blocks_S k : sample_blocks (S k) = sample_blocks k ++ [40 + Z.of_nat k].
Proof. unfold sample_blocks. by rewrite seq_S, map_app. Qed.

Lemma elem_sample_blocks k b : b ∈ sample_blocks k -> 40 <= b < 40 + Z.of_nat k.
Proof.
  unfold sample_blocks. intros Hb. apply list_elem_of_fmap in Hb. destruct Hb as (i & -> & Hi).
  apply elem_of_seq in Hi. lia.
Qed.

Lemma sample_txs k :
  (k <= NBUF)%nat ->
  exists D lg tr d V w, st 0 boot_hart [] zero_kstate D lg tr d V (pins (sample_blocks k)) nolocks w /\
    tx lg (sample_blocks k) /\ NoDup (sample_blocks k) /\ lg.(lg_start) = 2 /\ 1 <= lg.(lg_outstanding) /\
    quiet 2 d /\ forall b, b ∈ sample_blocks k -> V b = sample_data.
Proof.
  induction k as [|k IH]; intros Hk.
  - destruct (boot_st ∅) as (D1 & w1 & _ & H1); [intros b; rewrite zero_disk; apply length_replicate|].
    pose proof (st_initlog _ _ _ _ _ (fun _ => False) _ _ _ _ sample_sb H1 eq_refl) as H.
    apply wp_run in H; [|by apply wf_zero]. cbn [sb_logstart sample_sb] in H.
    destruct H as ([] & w2 & _ & D2 & lg & tr & _ & H2 & _ & HT & Hst). clear H1 w1 D1.
    pose proof (st_upd_log _ _ _ _ _ (fun _ => False) (set_lg_outstanding 1) _ _ _ _ _ _ _ H2) as H.
    apply wp_run in H. destruct H as ([] & w3 & _ & H3). do 6 eexists.
    split; [eapply st_ext; [exact H3|done|done|done]|].
    split_and!; [by destruct HT|constructor|exact Hst|cbn; lia|vm_compute; reflexivity|].
    intros b Hb. by apply not_elem_of_nil in Hb.
  - destruct IH as (D & lg & tr & d & V & w & HI & HT & Hnd & Hst & Hout & Hq & HV); [lia|].
    assert (length (sample_blocks k) = k) as Hl by (unfold sample_blocks; by rewrite length_map, length_seq).
    assert (40 + Z.of_nat k ∉ sample_blocks k) as Hnew by (intros Hin; apply elem_sample_blocks in Hin; lia).
    pose proof LOGBLOCKS_eq. pose proof (tx_n _ _ HT) as Hn. unfold NBUF in Hk.
    pose proof (st_update_block 0 boot_hart [] zero_kstate D (fun _ => False) lg tr d V w (sample_blocks k)
      (40 + Z.of_nat k) sample_data HI HT Hnd) as Hu.
    apply wp_run in Hu; [|unfold NBUF; lia|done|done|lia|unfold home; lia|apply length_replicate].
    destruct Hu as ([] & w' & _ & HI').
    rewrite sample_blocks_S. exists D, (logged_st (40 + Z.of_nat k) (sample_blocks k) lg), tr, d,
      (<[40 + Z.of_nat k := sample_data]> V), w'.
    pose proof (tx_logged lg _ (40 + Z.of_nat k) HT) as HT'. pose proof (nodup_logged (40 + Z.of_nat k) _ Hnd) as Hnd'.
    unfold logged_st, logged in *. rewrite bool_decide_false in * by done.
    split_and!; [done|apply HT'; lia|done|done|done|done|].
    intros b [Hb| ->%list_elem_of_singleton]%elem_of_app; [|by rewrite fn_lookup_insert].
    rewrite fn_lookup_insert_ne; [by apply HV|]. intros <-. done.
Qed.

Lemma sample_tx :
  exists D lg tr d V w, st 0 boot_hart [] zero_kstate D lg tr d V (pins [40]) nolocks w /\
    tx lg [40] /\ lg.(lg_start) = 2 /\ quiet 2 d /\ V 40 = sample_data.
Proof.
  destruct (sample_txs 1) as (D & lg & tr & d & V & w & HI & HT & _ & Hst & _ & Hq & HV); [unfold NBUF; lia|].
  exists D, lg, tr, d, V, w. split_and!; [exact HI|exact HT|exact Hst|exact Hq|]. apply HV, list_elem_of_here.
Qed.

(** An empty machine booted from a disk. *)
Lemma booted_exists d : (forall b, length (disk_at d b) = bsize) -> exists w, booted d w.
Proof.
  intros Hd. destruct (boot_st d Hd) as (D & w & _ & Hw). exists w.
  exists 0, boot_hart, [], zero_kstate, D, zero_kstate.(log). by split.
Qed.

(** After a crash behind the commit point the update of block 40 is there. *)
Lemma commit_crash_atomic_witness :
  exists w w' k d' wb wb', commit w = Ret tt w' /\ (1 < k)%nat /\ booted d' wb /\
    initlog ROOTDEV sample_sb wb = Ret tt wb' /\ disk_at wb'.(w_st).(disk) 40 = sample_data.
Proof.
  destruct sample_tx as (D & lg & tr & d & V & w & HI & HT & Hst & Hq & HV).
  assert (forall b, length (V b) = bsize) as Hlen by (intros b; by eapply st_data_length).
  assert (forall b, length (disk_at d b) = bsize) as Hlen0 by (intros b; by eapply st_disk_length).
  pose proof (tx_max _ _ HT) as Hmax. rewrite <-Hst in Hq.
  destruct (commit_crash_atomic 0 boot_hart [] zero_kstate D lg tr d V w [40] sample_sb HI HT
    (NoDup_singleton 40)) as (w' & Hr & H); [vm_compute; lia|exact Hq|by rewrite Hst|].
  assert (disk_trace (drop (length tr) (w_trace w')) = commit_writes lg V [40]) as E.
  { pose proof (st_commit 0 boot_hart [] zero_kstate D (fun _ => False) lg tr d V w [40] HI HT
      (NoDup_singleton 40)) as Hc. apply wp_run in Hc; [|vm_compute; lia].
    destruct Hc as ([] & w2 & Hr2 & h2 & D2 & -> & _). rewrite Hr in Hr2. injection Hr2 as ->.
    cbn [w_trace]. rewrite drop_app_length. reflexivity. }
  destruct (booted_exists (dwr d (take 2 (commit_writes lg V [40])))) as [wb Hwb].
  - intros b. destruct (commit_prefix lg [40] V d HT (NoDup_singleton 40) Hlen Hlen0 Hq 2) as [[? _]|[_ [[]|[]]]];
      [cbn in *; lia|done|done].
  - destruct (H 2%nat _ wb (rtc_refl _ _)) as (wb' & Hrb & _ & Hb); [by rewrite E|].
    exists w, w', 2%nat, (dwr d (take 2 (commit_writes lg V [40]))), wb, wb'.
    split; [exact Hr|]. split; [lia|]. split; [exact Hwb|]. split; [exact Hrb|].
    rewrite Hb by (unfold home; pose proof LOGBLOCKS_eq; lia).
    cbn [length]. rewrite bool_decide_false by lia. unfold updated.
    rewrite bool_decide_true by (by apply list_elem_of_here). exact HV.
Defined.

(** ** The buffer cache *)

(** C13: bread() implements the abstract cache.  For a block that nobody
    holds it returns a buffer that is locked by the caller and has the
    block's contents, takes one reference, and changes neither the contents
    of any block nor the disk.  If no buffer has the block, the one it takes
    is the last unreferenced buffer of the LRU list. *)
Theorem bread_correct pid h env tr D s V R O order bno :
  sess pid h D -> cache pid D V R O -> ring D order ->
  O bno = None -> R bno < 2 ^ 32 - 1 -> (R bno = 0 -> roomy R) ->
  exists b D' x, bread ROOTDEV bno (World h env tr (dset D s)) = Ret b (World (settle h) env tr (dset D' s)) /\
    D'.(d_bufs) !! b = Some x /\ x.(b_blockno) = bno /\ x.(b_valid) = 1 /\ x.(b_data) = V bno /\
    x.(b_lock).(sl_locked) = 1 /\ x.(b_lock).(sl_pid) = pid /\
    D'.(d_disk) = D.(d_disk) /\ cache pid D' V (<[bno := R bno + 1]> R) (<[bno := Some b]> O) /\
    ((forall i, is_block D ROOTDEV bno i = false) ->
     exists l1 l2, order = l1 ++ b :: l2 /\ is_unused D b = true /\
       forall i, i ∈ l2 -> is_unused D i = false).
Proof.
  intros HS HC HR HO HRb Hroom.
  assert (wp (bread ROOTDEV bno) (fun b w => exists D', w = World (settle h) env tr (dset D' s) /\
    D'.(d_disk) = D.(d_disk) /\ cache pid D' V (<[bno := R bno + 1]> R) (<[bno := Some b]> O))
    (World h env tr (dset D s))) as H.
  { eapply wpx_bread; [done..|]. intros b D' _ _ Hd HC'. by exists D'. }
  apply wp_run in H. destruct H as (b & w' & Hr & D' & -> & Hd & HC').
  destruct (cache_held _ _ _ _ _ _ _ HC' (fn_lookup_insert _ _ _))
    as (x & Hx & _ & Hb & Hv & HV & _ & _ & _ & Hk & Hp).
  exists b, D', x. split_and!; try done. intros Hno.
  destruct (c_none _ _ _ _ _ HC bno Hno) as (HR0 & _).
  destruct (roomy_unused _ _ _ _ _ order HC (Hroom HR0) HR) as (b' & y & Hu & Hy & Hy0).
  assert (List.find (is_block D ROOTDEV bno) order = None) as Hf.
  { destruct (block_cases D order ROOTDEV bno HR) as [(i & _ & Hi)|[? _]]; [by rewrite Hno in Hi|done]. }
  assert (sl_locked (b_lock y) = 0) as Hfree by (by destruct (c_lock _ _ _ _ _ HC b' y Hy) as [|(_ & _ & ?)]).
  assert (b = b') as ->.
  { assert (wp (bread ROOTDEV bno) (fun i _ => i = b') (World h env tr (dset D s))) as Hdet
      by (by eapply wpx_bread_miss).
    apply wp_run in Hdet. destruct Hdet as (i & w2 & Hr2 & ->). rewrite Hr in Hr2. by injection Hr2. }
  by apply find_rev_split.
Qed.

(** Brelse() gives back the lock and one reference.  The contents of
    every block and the disk stay; when no reference is left, the buffer
    becomes the first of the LRU list and the rest of the list keeps its
    order. *)
Theorem brelse_correct pid h env tr D s V R O order bno b :
  sess pid h D -> cache pid D V R O -> ring D order ->
  O bno = Some b -> R bno < 2 ^ 32 -> (R bno = 1 -> V bno = disk_at D.(d_disk) bno) ->
  exists D', brelse b (World h env tr (dset D s)) = Ret tt (World (settle h) env tr (dset D' s)) /\
    D'.(d_disk) = D.(d_disk) /\ cache pid D' V (<[bno := R bno - 1]> R) (<[bno := None]> O) /\
    ring D' (if R bno =? 1 then touch b order else order).
Proof.
  intros HS HC HR HO HRb Hlast.
  assert (wp (brelse b) (fun _ w => exists D', w = World (settle h) env tr (dset D' s) /\
    D'.(d_disk) = D.(d_disk) /\ cache pid D' V (<[bno := R bno - 1]> R) (<[bno := None]> O))
    (World h env tr (dset D s))) as H.
  { eapply wpx_brelse; [done..|]. intros D' _ _ Hd HC'. by exists D'. }
  apply wp_run in H. destruct H as ([] & w' & Hr & D' & -> & Hd & HC'). exists D'. split_and!; try done.
  destruct (cache_held _ _ _ _ _ _ _ HC HO) as (x & Hx & _ & _ & _ & _ & HRx & Hpos & _ & Hk & Hp).
  assert (wp (brelse b) (fun _ w => exists D2, w = World (settle h) env tr (dset D2 s) /\
    ring D2 (if R bno =? 1 then touch b order else order)) (World h env tr (dset D s))) as H2.
  { eapply (wpx_brelse_exact _ _ _ _ _ _ _ HS order b x); [done..|]. intros P D2 _ _ HR2. exists D2.
    split; [done|]. cbn in HR2. rewrite HRx, u32_small in HR2 by lia.
    by replace (R bno - 1 =? 0) with (R bno =? 1) in HR2 by lia. }
  apply wp_run in H2. destruct H2 as ([] & w2 & Hr2 & D2 & -> & HR2). rewrite Hr in Hr2.
  apply (f_equal (fun o => match o with Ret _ w => w.(w_st) | _ => s end)) in Hr2.
  by rewrite (dset_inj _ _ _ Hr2).
Qed.

(** The cache after binit() on an empty disk. *)
Lemma sample_cache :
  exists D order, sess 0 boot_hart D /\ cache 0 D (disk_at ∅) norefs nolocks /\ ring D order.
Proof.
  destruct (boot_st ∅) as (D0 & w & _ & h & D & -> & HA); [intros b; rewrite zero_disk; apply length_replicate|].
  pose proof (st_sess _ _ _ _ _ _ _ _ _ _ HA) as HS. pose proof (st_cache _ _ _ _ _ _ _ _ _ _ HA) as HC.
  destruct (c_ring _ _ _ _ _ HC) as [order HR]. exists D, order. split_and!; [|done|done].
  destruct HS as [S1 S2 S3 S4]. split; [split; cbn; lia| |done|done].
  destruct (st_hart _ _ _ _ _ _ _ _ _ _ HA) as [->| ->]; [done|by rewrite settle_h_proc in S2].
Qed.

Lemma bread_correct_witness :
  exists D b D' x, bread ROOTDEV 7 (World boot_hart [] [] (dset D zero_kstate)) =
    Ret b (World (settle boot_hart) [] [] (dset D' zero_kstate)) /\
    D'.(d_bufs) !! b = Some x /\ x.(b_blockno) = 7 /\ x.(b_data) = replicate bsize 0.
Proof.
  destruct sample_cache as (D & order & HS & HC & HR).
  destruct (bread_correct 0 boot_hart [] [] D zero_kstate (disk_at ∅) norefs nolocks order 7 HS HC HR)
    as (b & D' & x & Hr & Hx & Hb & _ & Hd & _).
  - reflexivity.
  - unfold norefs. lia.
  - intros _. by apply (roomy_inst true [] 0).
  - exists D, b, D', x. split; [exact Hr|]. split; [exact Hx|]. split; [exact Hb|]. by rewrite Hd.
Defined.

(** The state with one block read. *)
Lemma sample_held :
  exists D b order, sess 0 boot_hart D /\
    cache 0 D (disk_at ∅) (<[7 := 1]> norefs) (<[7 := Some b]> nolocks) /\ ring D order /\ D.(d_disk) = ∅.
Proof.
  destruct (boot_st ∅) as (D0 & w & _ & H); [intros b; rewrite zero_disk; apply length_replicate|].
  eapply (st_bread _ _ _ _ _ (fun _ => False) _ _ _ _ _ _ _ 7) in H;
    [|reflexivity|unfold norefs; lia|intros _; by apply (roomy_inst true [] 0)].
  apply wp_run in H. destruct H as (b & w' & _ & h & D & -> & HA).
  pose proof (st_sess _ _ _ _ _ _ _ _ _ _ HA) as HS. pose proof (st_cache _ _ _ _ _ _ _ _ _ _ HA) as HC.
  destruct (c_ring _ _ _ _ _ HC) as [order HR]. exists D, b, order. split_and!; [|done|done|apply HA].
  destruct HS as [S1 S2 S3 S4]. split; [split; cbn; lia| |done|done].
  destruct (st_hart _ _ _ _ _ _ _ _ _ _ HA) as [->| ->]; [done|by rewrite settle_h_proc in S2].
Qed.

Lemma brelse_correct_witness :
  exists D b D' order, brelse b (World boot_hart [] [] (dset D zero_kstate)) =
    Ret tt (World (settle boot_hart) [] [] (dset D' zero_kstate)) /\ ring D' (touch b order).
Proof.
  destruct sample_held as (D & b & order & HS & HC & HR & Hd).
  destruct (brelse_correct 0 boot_hart [] [] D zero_kstate (disk_at ∅) (<[7 := 1]> norefs)
    (<[7 := Some b]> nolocks) order 7 b HS HC HR) as (D' & Hr & _ & _ & HR').
  - by rewrite fn_lookup_insert.
  - rewrite fn_lookup_insert. lia.
  - intros _. by rewrite Hd.
  - rewrite fn_lookup_insert in HR'. exists D, b, D', order. split; [exact Hr|exact HR'].
Defined.

(** binit() links every buffer into the LRU list exactly once and leaves
    a cache in which no block is referenced or locked and every block reads
    as it is on the disk. *)
Theorem binit_correct pid h env tr D s :
  length D.(d_bufs) = NBUF -> (forall i x, D.(d_bufs) !! i = Some x -> blank x) ->
  (forall b, length (disk_at D.(d_disk) b) = bsize) ->
  exists D', binit (World h env tr (dset D s)) = Ret tt (World h env tr (dset D' s)) /\
    ring D' (rev (seq 0 NBUF)) /\ cache pid D' (disk_at D.(d_disk)) norefs nolocks /\
    D'.(d_disk) = D.(d_disk).
Proof.
  intros Hlen Hb Hd.
  assert (wp binit (fun _ w => exists D', w = World h env tr (dset D' s) /\ binit_inv D NBUF D')
    (World h env tr (dset D s))) as H by (apply wpx_binit; eauto).
  apply wp_run in H. destruct H as ([] & w & Hr & D' & -> & HI). exists D'. split; [exact Hr|].
  pose proof (binit_cache pid _ _ HI Hd) as HC. destruct HI as [A1 A2 A3 A4 A5]. split_and!; [|done|by injection A5].
  split; [done| |done]. by rewrite <-Permutation_rev.
Qed.

Lemma binit_correct_witness :
  exists D', binit (World boot_hart [] [] (dset (boot_dyn ∅) zero_kstate)) =
    Ret tt (World boot_hart [] [] (dset D' zero_kstate)) /\ ring D' (rev (seq 0 NBUF)).
Proof.
  destruct (binit_correct 0 boot_hart [] [] (boot_dyn ∅) zero_kstate) as (D' & Hr & HR & _).
  - reflexivity.
  - intros i x Hx. apply lookup_replicate in Hx. destruct Hx as [-> _]. split_and!; reflexivity.
  - intros b. reflexivity.
  - exists D'. split; [exact Hr|exact HR].
Defined.

(** ** The log *)

Lemma st_acquire_log pid h0 env s D0 lg tr d V R O w :
  st pid h0 env s D0 lg tr d V R O w ->
  exists w', acquire log_lock w = Ret tt w' /\ w'.(w_st).(log) = lg.
Proof.
  intros (h & D & -> & A). destruct (ss_calm _ _ _ (st_sess _ _ _ _ _ _ _ _ _ _ A)) as [_ _ _ _ HL _].
  eexists. split; [by apply acquire_run|]. apply A.
Qed.

(** C24: log_write() adds a block to the transaction and pins its buffer, once:
    a block that the transaction has is absorbed.  It panics when the header
    is full and outside of a transaction. *)
Theorem log_write_correct pid h env s D lg tr d V R O w bl bno b :
  st pid h env s D lg tr d V R O w -> O bno = Some b -> tx lg bl -> NoDup bl ->
  0 <= bno < 2 ^ 31 -> home lg.(lg_start) bno -> R bno < 2 ^ 32 - 1 ->
  (LOGBLOCKS <= lg.(lg_n) -> log_write b w = Panic "too big a transaction") /\
  (lg.(lg_n) < LOGBLOCKS -> lg.(lg_outstanding) < 1 -> log_write b w = Panic "log_write outside of trans") /\
  (lg.(lg_n) < LOGBLOCKS -> 1 <= lg.(lg_outstanding) -> exists w' lg',
     log_write b w = Ret tt w' /\
     st pid h env s D lg' tr d V (<[bno := if bool_decide (bno ∈ bl) then R bno else R bno + 1]> R) O w' /\
     tx lg' (if bool_decide (bno ∈ bl) then bl else bl ++ [bno]) /\
     NoDup (if bool_decide (bno ∈ bl) then bl else bl ++ [bno])).
Proof.
  intros HI HO HT Hnd Hb Hh HR. destruct (st_acquire_log _ _ _ _ _ _ _ _ _ _ _ _ HI) as (w1 & Ha & Hl).
  split_and!.
  - intros Hn. unfold log_write. erewrite bind_run by exact Ha. erewrite bind_run by reflexivity.
    rewrite Hl. by replace (lg_n lg >=? LOGBLOCKS) with true by lia.
  - intros Hn Ho. unfold log_write. erewrite bind_run by exact Ha. erewrite bind_run by reflexivity.
    rewrite Hl. replace (lg_n lg >=? LOGBLOCKS) with false by lia.
    by replace (lg_outstanding lg <? 1) with true by lia.
  - intros Hn Ho. pose proof (st_log_write pid h env s D (fun _ => False) lg tr d V R O w bl bno b
      HI HO HT Hn Ho Hb HR) as H. apply wp_run in H. destruct H as ([] & w' & Hr & HI').
    exists w', (logged_st bno bl lg). split_and!; [done|done|by apply tx_logged|by apply nodup_logged].
Qed.

Lemma log_write_correct_witness :
  exists b w w' lg', log_write b w = Ret tt w' /\ tx lg' [40].
Proof.
  destruct (boot_st ∅) as (D1 & w1 & _ & H1); [intros b; rewrite zero_disk; apply length_replicate|].
  pose proof (st_initlog _ _ _ _ _ (fun _ => False) _ _ _ _ sample_sb H1 eq_refl) as H.
  apply wp_run in H; [|by apply wf_zero]. cbn [sb_logstart sample_sb] in H.
  destruct H as ([] & w2 & _ & D2 & lg & tr & _ & H2 & _ & HT & Hst).
  pose proof (st_upd_log _ _ _ _ _ (fun _ => False) (set_lg_outstanding 1) _ _ _ _ _ _ _ H2) as H.
  apply wp_run in H. destruct H as ([] & w3 & _ & H3).
  assert (tx (set_lg_outstanding 1 lg) []) as HT1 by (by destruct HT).
  eapply (st_bread _ _ _ _ _ (fun _ => False) _ _ _ _ _ _ _ 40) in H3;
    [|reflexivity|unfold norefs; lia|intros _; by apply (roomy_inst true [] 0)].
  apply wp_run in H3. destruct H3 as (b & w4 & _ & H4). pose proof LOGBLOCKS_eq. pose proof (tx_n _ _ HT1) as Hn.
  destruct (log_write_correct _ _ _ _ _ _ _ _ _ _ _ _ [] 40 b H4) as (_ & _ & Hok).
  - by rewrite fn_lookup_insert.
  - exact HT1.
  - constructor.
  - lia.
  - unfold home. cbn. lia.
  - rewrite fn_lookup_insert. unfold norefs. lia.
  - destruct Hok as (w' & lg' & Hr & _ & HT' & _); [cbn in *; lia|cbn; lia|].
    exists b, w4, w', lg'. split; [exact Hr|]. rewrite bool_decide_false in HT' by apply not_elem_of_nil. exact HT'.
Defined.

(** With [NBUF] blocks pinned every buffer is referenced and no other block
    is cached. *)
Lemma pinned_all pid D V O bl :
  cache pid D V (pins bl) O -> NoDup bl -> length bl = NBUF ->
  forall i, is_unused D i = false /\ forall bno, bno ∉ bl -> is_block D ROOTDEV bno i = false.
Proof.
  intros HC Hnd Hlen i. destruct (c_ring _ _ _ _ _ HC) as [order HR].
  assert (forall bno, bno ∈ bl -> exists j x, d_bufs D !! j = Some x /\ b_dev x = ROOTDEV /\ b_blockno x = bno) as Hc.
  { intros bno Hb. destruct (block_cases D order ROOTDEV bno HR) as [(j & _ & Hj)|[_ Hno]].
    - exists j. by apply is_block_true in Hj.
    - destruct (c_none _ _ _ _ _ HC bno Hno) as (H0 & _). unfold pins in H0. by rewrite bool_decide_true in H0. }
  assert (bl ≡ₚ b_blockno <$> d_bufs D) as Hperm.
  { apply submseteq_length_Permutation; [|rewrite length_fmap, (ring_len _ _ HR); lia].
    apply NoDup_submseteq; [done|]. intros bno Hb. destruct (Hc bno Hb) as (j & x & Hx & _ & <-).
    apply list_elem_of_fmap_2. by eapply list_elem_of_lookup_2. }
  unfold is_unused, is_block. destruct (d_bufs D !! i) as [x|] eqn:Hx; [|done].
  assert (b_blockno x ∈ bl) as Hin.
  { rewrite Hperm. apply list_elem_of_fmap_2. by eapply list_elem_of_lookup_2. }
  destruct (Hc _ Hin) as (j & y & Hy & Hyd & Hyb).
  assert (i = j) as <-.
  { rewrite Hperm in Hnd. eapply (NoDup_lookup _ i j (b_blockno x) Hnd); rewrite list_lookup_fmap; [by rewrite Hx|].
    rewrite Hy. cbn. by rewrite Hyb. }
  rewrite Hx in Hy. injection Hy as <-. destruct (c_used _ _ _ _ _ HC i x Hx Hyd) as (_ & _ & _ & Hr & _).
  unfold pins in Hr. rewrite bool_decide_true in Hr by done. rewrite <-Hr. split; [done|].
  intros bno Hbno. apply andb_false_iff. right. apply Z.eqb_neq. by intros <-.
Qed.

(** C25: A transaction as large as the cache cannot commit.  The log has room
    for LOGBLOCKS blocks, which is also the number of buffers; when all of
    them are pinned by the transaction, commit() finds no buffer for the
    first log block and panics. *)
Theorem commit_full_log_panics pid h env s D lg tr d V w bl :
  st pid h env s D lg tr d V (pins bl) nolocks w -> tx lg bl -> NoDup bl ->
  Z.of_nat (length bl) = LOGBLOCKS -> commit w = Panic "bget: no buffers".
Proof.
  intros (h' & D' & -> & A) HT Hnd Hlen. pose proof LOGBLOCKS_eq as HLB.
  pose proof (st_sess _ _ _ _ _ _ _ _ _ _ A) as HS. pose proof (st_cache _ _ _ _ _ _ _ _ _ _ A) as HC.
  assert (length bl = NBUF) as HN by (unfold NBUF; lia). pose proof (pinned_all _ _ _ _ _ HC Hnd HN) as Hall.
  destruct (c_ring _ _ _ _ _ HC) as [order HR]. pose proof (st_log _ _ _ _ _ _ _ _ _ _ A) as Hlg.
  destruct (tx_lookup lg bl 0 HT) as (b0 & Hb0 & _); [unfold NBUF in HN; lia|].
  destruct (tx_addr lg bl 0 b0 HT Hb0) as (E & _ & _).
  assert (bread ROOTDEV (log_slot lg 0) (World h' env tr (dset D' s)) = Panic "bget: no buffers") as Hp.
  { unfold bread. apply bind_panic. eapply bget_panic; [exact HS|exact HR| |].
    - destruct (block_cases D' order ROOTDEV (log_slot lg 0) HR) as [(i & _ & Hi)|[? _]]; [|done].
      destruct (Hall i) as [_ Hno]. rewrite Hno in Hi; [done|]. intros Hin.
      pose proof (pins_slot lg bl 0 HT) as P. unfold pins in P. rewrite bool_decide_true in P by done.
      unfold NBUF in HN. lia.
    - destruct (List.find (is_unused D') order) as [i|] eqn:Ef; [|done]. apply find_some in Ef.
      destruct Ef as [_ Ef]. destruct (Hall i) as [Hu _]. congruence. }
  unfold commit. erewrite bind_run by reflexivity. cbn [w_st log dset]. rewrite Hlg, (tx_n _ _ HT), Hlen.
  change (LOGBLOCKS >? 0) with true. cbn [when]. apply bind_panic. unfold write_log.
  erewrite bind_run by reflexivity. cbn [w_st log dset]. rewrite Hlg, (tx_n _ _ HT), Hlen.
  change (Z.to_nat LOGBLOCKS) with 30%nat. cbn [seq for_each]. apply bind_panic.
  erewrite bind_run by reflexivity. cbn [w_st log dset]. rewrite Hlg, (tx_dev _ _ HT), E. by apply bind_panic.
Qed.

Lemma commit_full_log_panics_witness : exists w, commit w = Panic "bget: no buffers".
Proof.
  destruct (sample_txs 30) as (D & lg & tr & d & V & w & HI & HT & Hnd & _); [unfold NBUF; lia|].
  exists w. apply (commit_full_log_panics 0 boot_hart [] zero_kstate D lg tr d V w (sample_blocks 30) HI HT Hnd).
  reflexivity.
Defined.
