(* ===== verification/Fs.v ===== *)
(** * File system: kernel/fs.c

    Inodes are named by their index in [itable.inode].  Disk structures are
    fields of the byte array of a block.  [readi] and [writei] copy to and
    from user memory, kernel memory, or a local variable of the caller, whose
    bytes they return or take. *)

From S2P Require Import Prelude Memory CString Riscv Machine Spinlock Kalloc Vm Sched Sleeplock Bytes Bio Log.

(** kernel/fs.h *)
Definition ROOTINO : Z := 1.
Definition FSMAGIC : Z := 0x10203040.
Definition NDIRECT : Z := 12.
Definition NINDIRECT : Z := BSIZE / 4.
Definition MAXFILE : Z := NDIRECT + NINDIRECT.
Definition IPB : Z := BSIZE / 64.
Definition IBLOCK (i : Z) (sb : superblock) : Z := u32 (i / IPB + sb.(sb_inodestart)).
Definition BPB : Z := BSIZE * 8.
Definition BBLOCK (b : Z) (sb : superblock) : Z := u32 (b / BPB + sb.(sb_bmapstart)).
Definition DIRSIZ : Z := 14.

(** kernel/stat.h *)
Definition T_DIR : Z := 1.
Definition T_FILE : Z := 2.
Definition T_DEVICE : Z := 3.

(** ** Structures on the disk *)

(** [struct superblock] *)
Definition decode_sb (d : list Z) : superblock :=
  Superblock (get32 0 d) (get32 4 d) (get32 8 d) (get32 12 d) (get32 16 d) (get32 20 d)
    (get32 24 d) (get32 28 d).

(** [struct dinode]: the fields at offset [o] of a block. *)
Definition dinode_off (inum : Z) : nat := Z.to_nat (64 * (inum mod IPB)).
Definition di_type (o : nat) (d : list Z) : Z := s16 (get16 o d).
Definition di_major (o : nat) (d : list Z) : Z := s16 (get16 (o + 2) d).
Definition di_minor (o : nat) (d : list Z) : Z := s16 (get16 (o + 4) d).
Definition di_nlink (o : nat) (d : list Z) : Z := s16 (get16 (o + 6) d).
Definition di_size (o : nat) (d : list Z) : Z := get32 (o + 8) d.
Definition di_addrs (o : nat) (d : list Z) : list Z := map (fun i => get32 (o + 12 + 4 * i) d) (seq 0 13).

Definition put_addrs (o : nat) (addrs : list Z) (d : list Z) : list Z :=
  foldl (fun d i => put32 (o + 12 + 4 * i) (addrs !!! i) d) d (seq 0 13).

(** iupdate()'s assignments to [*dip]. *)
Definition put_dinode (o : nat) (ip : inode) (d : list Z) : list Z :=
  put_addrs o ip.(i_addrs)
    (put32 (o + 8) ip.(i_size)
      (put16 (o + 6) ip.(i_nlink)
        (put16 (o + 4) ip.(i_minor)
          (put16 (o + 2) ip.(i_major) (put16 o ip.(i_type) d))))).

(** ** Access to the inode table *)

Definition get_inode (i : nat) : K inode :=
  l ← getk itable;
  match l !! i with Some x => mret x | None => bad_pointer end.

Definition upd_inode (i : nat) (f : inode -> inode) : K unit :=
  modk (fun s => set_itable (alter f i s.(itable)) s).

(** ** Superblock and blocks *)

Definition readsb (dev : Z) : K unit :=
  bp ← bread dev 1;
  x ← get_buf bp;
  modk (set_sb (decode_sb x.(b_data)));;
  brelse bp.

Definition bzero (dev bno : Z) : K unit :=
  bp ← bread dev bno;
  upd_data bp (splice 0 (replicate (Z.to_nat BSIZE) 0));;
  log_write bp;;
  brelse bp.

(** [bp->data[i]] and its assignment *)
Definition byte_at (i : nat) (d : list Z) : Z := default 0 (d !! i).
Definition put_byte (i : nat) (v : Z) (d : list Z) : list Z := <[i := u8 v]> d.

Definition balloc (dev : Z) : K Z :=
  s ← getk sb;
  r ← find_each (seq 0 (Z.to_nat ((s.(sb_size) + BPB - 1) / BPB))) (fun k =>
    let b := Z.of_nat k * BPB in
    bp ← bread dev (BBLOCK b s);
    r ← find_each (seq 0 (Z.to_nat (Z.min BPB (s.(sb_size) - b)))) (fun bi =>
      let m := Z.shiftl 1 (Z.of_nat bi mod 8) in
      x ← get_buf bp;
      if Z.land (byte_at (bi / 8) x.(b_data)) m =? 0 then
        upd_data bp (fun d => put_byte (bi / 8) (Z.lor (byte_at (bi / 8) d) m) d);;
        log_write bp;;
        brelse bp;;
        bzero dev (b + Z.of_nat bi);;
        mret (Some (b + Z.of_nat bi))
      else mret None);
    match r with
    | Some a => mret (Some a)
    | None => brelse bp;; mret None
    end);
  match r with
  | Some a => mret a
  | None => emit (EvPrint "balloc: out of blocks" []);; mret 0
  end.

Definition bfree (dev b : Z) : K unit :=
  s ← getk sb;
  bp ← bread dev (BBLOCK b s);
  let bi := Z.to_nat (b mod BPB) in
  let m := Z.shiftl 1 (Z.of_nat bi mod 8) in
  x ← get_buf bp;
  if Z.land (byte_at (bi / 8) x.(b_data)) m =? 0 then panic "freeing free block" else
  upd_data bp (fun d => put_byte (bi / 8) (Z.land (byte_at (bi / 8) d) (Z.lnot m)) d);;
  log_write bp;;
  brelse bp.

(** ** Inodes *)

Definition iinit : K unit :=
  initlock itable_lock "itable";;
  for_each (seq 0 NINODE) (fun i => initsleeplock (SLinode i) "inode").

(** The scan of iget(): the entry of the inode, or the first empty one. *)
Definition iget_scan (dev inum : Z) (l : list inode) : option nat * option nat :=
  (find_index (fun x => (x.(i_ref) >? 0) && (x.(i_dev) =? dev) && (x.(i_inum) =? inum)) l,
   find_index (fun x => x.(i_ref) =? 0) l).

Definition iget (dev inum : Z) : K nat :=
  acquire itable_lock;;
  l ← getk itable;
  match iget_scan dev inum l with
  | (Some i, _) =>
      upd_inode i (fun x => set_i_ref (s32 (x.(i_ref) + 1)) x);;
      release itable_lock;;
      mret i
  | (None, Some i) =>
      upd_inode i (set_i_dev dev);;
      upd_inode i (set_i_inum inum);;
      upd_inode i (set_i_ref 1);;
      upd_inode i (set_i_valid 0);;
      release itable_lock;;
      mret i
  | (None, None) => panic "iget: no inodes"
  end.

Definition ialloc (dev type : Z) : K (option nat) :=
  s ← getk sb;
  r ← find_each (seq 1 (Z.to_nat (s.(sb_ninodes) - 1))) (fun k =>
    let inum := Z.of_nat k in
    bp ← bread dev (IBLOCK inum s);
    let o := dinode_off inum in
    x ← get_buf bp;
    if di_type o x.(b_data) =? 0 then
      upd_data bp (fun d => put16 o type (splice o (replicate 64 0) d));;
      log_write bp;;
      brelse bp;;
      i ← iget dev inum;
      mret (Some i)
    else brelse bp;; mret None);
  match r with
  | Some i => mret (Some i)
  | None => emit (EvPrint "ialloc: no inodes" []);; mret None
  end.

Definition iupdate (i : nat) : K unit :=
  ip ← get_inode i;
  s ← getk sb;
  bp ← bread ip.(i_dev) (IBLOCK ip.(i_inum) s);
  upd_data bp (put_dinode (dinode_off ip.(i_inum)) ip);;
  log_write bp;;
  brelse bp.

Definition idup (i : nat) : K nat :=
  acquire itable_lock;;
  upd_inode i (fun x => set_i_ref (s32 (x.(i_ref) + 1)) x);;
  release itable_lock;;
  mret i.

(** The part of ilock() that reads the inode [ip] of entry [i] from the
    disk. *)
Definition iload (i : nat) (ip : inode) : K unit :=
  s ← getk sb;
  bp ← bread ip.(i_dev) (IBLOCK ip.(i_inum) s);
  x ← get_buf bp;
  let o := dinode_off ip.(i_inum) in
  let d := x.(b_data) in
  upd_inode i (set_i_type (di_type o d));;
  upd_inode i (set_i_major (di_major o d));;
  upd_inode i (set_i_minor (di_minor o d));;
  upd_inode i (set_i_nlink (di_nlink o d));;
  upd_inode i (set_i_size (di_size o d));;
  upd_inode i (set_i_addrs (di_addrs o d));;
  brelse bp;;
  upd_inode i (set_i_valid 1).

Definition ilock (o : option nat) : K unit :=
  match o with
  | None => panic "ilock"
  | Some i =>
      ip ← get_inode i;
      if ip.(i_ref) <? 1 then panic "ilock" else
      acquiresleep (SLinode i);;
      ip ← get_inode i;
      when (ip.(i_valid) =? 0)
        (iload i ip;;
         ip ← get_inode i;
         when (ip.(i_type) =? 0) (panic "ilock: no type"))
  end.

Definition iunlock (o : option nat) : K unit :=
  match o with
  | None => panic "iunlock"
  | Some i =>
      h ← holdingsleep (SLinode i);
      if negb h then panic "iunlock" else
      ip ← get_inode i;
      if ip.(i_ref) <? 1 then panic "iunlock" else
      releasesleep (SLinode i)
  end.

(** Truncation. *)
Definition itrunc (i : nat) : K unit :=
  for_each (seq 0 (Z.to_nat NDIRECT)) (fun k =>
    ip ← get_inode i;
    when (ztrue (ip.(i_addrs) !!! k))
      (bfree ip.(i_dev) (ip.(i_addrs) !!! k);;
       upd_inode i (fun x => set_i_addrs (<[k := 0]> x.(i_addrs)) x)));;
  ip ← get_inode i;
  let last := Z.to_nat NDIRECT in
  when (ztrue (ip.(i_addrs) !!! last))
    (bp ← bread ip.(i_dev) (ip.(i_addrs) !!! last);
     for_each (seq 0 (Z.to_nat NINDIRECT)) (fun j =>
       x ← get_buf bp;
       when (ztrue (get32 (4 * j) x.(b_data))) (bfree ip.(i_dev) (get32 (4 * j) x.(b_data))));;
     brelse bp;;
     bfree ip.(i_dev) (ip.(i_addrs) !!! last);;
     upd_inode i (fun x => set_i_addrs (<[last := 0]> x.(i_addrs)) x));;
  upd_inode i (set_i_size 0);;
  iupdate i.

Definition iput (i : nat) : K unit :=
  acquire itable_lock;;
  ip ← get_inode i;
  when ((ip.(i_ref) =? 1) && ztrue ip.(i_valid) && (ip.(i_nlink) =? 0))
    (acquiresleep (SLinode i);;
     release itable_lock;;
     itrunc i;;
     upd_inode i (set_i_type 0);;
     iupdate i;;
     upd_inode i (set_i_valid 0);;
     releasesleep (SLinode i);;
     acquire itable_lock);;
  upd_inode i (fun x => set_i_ref (s32 (x.(i_ref) - 1)) x);;
  release itable_lock.

Definition iunlockput (i : nat) : K unit := iunlock (Some i);; iput i.

Definition ireclaim (dev : Z) : K unit :=
  s ← getk sb;
  for_each (seq 1 (Z.to_nat (s.(sb_ninodes) - 1))) (fun k =>
    let inum := Z.of_nat k in
    bp ← bread dev (IBLOCK inum s);
    let o := dinode_off inum in
    x ← get_buf bp;
    ip ← (if negb (di_type o x.(b_data) =? 0) && (di_nlink o x.(b_data) =? 0) then
            emit (EvPrint "ireclaim: orphaned inode %d" [inum]);;
            i ← iget dev inum;
            mret (Some i)
          else mret None);
    brelse bp;;
    match ip with
    | Some i => begin_op;; ilock (Some i);; iunlock (Some i);; iput i;; end_op
    | None => mret tt
    end).

Definition fsinit (dev : Z) : K unit :=
  readsb dev;;
  s ← getk sb;
  if negb (s.(sb_magic) =? FSMAGIC) then panic "invalid file system" else
  initlog dev s;;
  ireclaim dev.

(** ** Inode content *)

Definition bmap (i : nat) (bn : Z) : K Z :=
  if bn <? NDIRECT then
    ip ← get_inode i;
    let addr := ip.(i_addrs) !!! Z.to_nat bn in
    if addr =? 0 then
      addr ← balloc ip.(i_dev);
      if addr =? 0 then mret 0 else
      upd_inode i (fun x => set_i_addrs (<[Z.to_nat bn := addr]> x.(i_addrs)) x);;
      mret addr
    else mret addr
  else
  let bn := bn - NDIRECT in
  if bn <? NINDIRECT then
    ip ← get_inode i;
    let addr := ip.(i_addrs) !!! Z.to_nat NDIRECT in
    addr ← (if addr =? 0 then
              addr ← balloc ip.(i_dev);
              when (negb (addr =? 0))
                (upd_inode i (fun x => set_i_addrs (<[Z.to_nat NDIRECT := addr]> x.(i_addrs)) x));;
              mret addr
            else mret addr);
    if addr =? 0 then mret 0 else
    bp ← bread ip.(i_dev) addr;
    x ← get_buf bp;
    let addr := get32 (4 * Z.to_nat bn) x.(b_data) in
    addr ← (if addr =? 0 then
              addr ← balloc ip.(i_dev);
              when (negb (addr =? 0))
                (upd_data bp (put32 (4 * Z.to_nat bn) addr);; log_write bp);;
              mret addr
            else mret addr);
    brelse bp;;
    mret addr
  else panic "bmap: out of range".

(** kernel/stat.h: struct stat *)
Record stat := Stat { st_dev : Z; st_ino : Z; st_type : Z; st_nlink : Z; st_size : Z }.

Definition stati (i : nat) : K stat :=
  ip ← get_inode i;
  mret (Stat ip.(i_dev) ip.(i_inum) ip.(i_type) ip.(i_nlink) ip.(i_size)).

(** Where readi() puts bytes and where writei() takes them from: an address
    of user or kernel memory, or a local variable of the caller. *)
Inductive rdst := DstUser (va : Z) | DstKernel (a : Z) | DstLocal.
Inductive wsrc := SrcUser (va : Z) | SrcKernel (a : Z) | SrcLocal (bytes : list Z).

Definition dst_add (d : rdst) (m : Z) : rdst :=
  match d with
  | DstUser va => DstUser (u64 (va + m)) | DstKernel a => DstKernel (u64 (a + m)) | DstLocal => DstLocal
  end.
Definition src_add (d : wsrc) (m : Z) : wsrc :=
  match d with
  | SrcUser va => SrcUser (u64 (va + m)) | SrcKernel a => SrcKernel (u64 (a + m))
  | SrcLocal l => SrcLocal (drop (Z.to_nat m) l)
  end.

Section fs.
Context {I : Image}.

Definition copy_to (d : rdst) (bytes : list Z) : K Z :=
  match d with
  | DstUser va => either_copyout true va bytes
  | DstKernel a => either_copyout false a bytes
  | DstLocal => mret 0
  end.

Definition copy_from (d : wsrc) (m : Z) : K (Z * list Z) :=
  match d with
  | SrcUser va => either_copyin true va m
  | SrcKernel a => either_copyin false a m
  | SrcLocal l => mret (0, take (Z.to_nat m) l)
  end.

(** The loop of readi(); at most [n / BSIZE + 2] blocks are touched.  The
    result is [tot], converted to [int], and the bytes for a local variable. *)
Fixpoint readi_loop (fuel : nat) (i : nat) (dst : rdst) (off n tot : Z) (got : list Z) : K (Z * list Z) :=
  if negb (tot <? n) then mret (s32 tot, got) else
  match fuel with
  | O => no_fuel
  | S fuel =>
      addr ← bmap i (off / BSIZE);
      if addr =? 0 then mret (s32 tot, got) else
      ip ← get_inode i;
      bp ← bread ip.(i_dev) addr;
      let m := Z.min (n - tot) (BSIZE - off mod BSIZE) in
      x ← get_buf bp;
      let bytes := slice (Z.to_nat (off mod BSIZE)) (Z.to_nat m) x.(b_data) in
      r ← copy_to dst bytes;
      if r =? -1 then brelse bp;; mret (-1, got) else
      brelse bp;;
      readi_loop fuel i (dst_add dst m) (u32 (off + m)) n (u32 (tot + m)) (got ++ bytes)
  end.

Definition readi (i : nat) (dst : rdst) (off n : Z) : K (Z * list Z) :=
  ip ← get_inode i;
  if (off >? ip.(i_size)) || (u32 (off + n) <? off) then mret (0, []) else
  let n := if u32 (off + n) >? ip.(i_size) then u32 (ip.(i_size) - off) else n in
  readi_loop (Z.to_nat (n / BSIZE) + 2) i dst off n 0 [].

(** The loop of writei(); it returns [tot] and the final [off].  What
    either_copyin() copied before it failed is in the buffer. *)
Fixpoint writei_loop (fuel : nat) (i : nat) (src : wsrc) (off n tot : Z) : K (Z * Z) :=
  if negb (tot <? n) then mret (tot, off) else
  match fuel with
  | O => no_fuel
  | S fuel =>
      addr ← bmap i (off / BSIZE);
      if addr =? 0 then mret (tot, off) else
      ip ← get_inode i;
      bp ← bread ip.(i_dev) addr;
      let m := Z.min (n - tot) (BSIZE - off mod BSIZE) in
      r ← copy_from src m;
      upd_data bp (splice (Z.to_nat (off mod BSIZE)) r.2);;
      if r.1 =? -1 then brelse bp;; mret (tot, off) else
      log_write bp;;
      brelse bp;;
      writei_loop fuel i (src_add src m) (u32 (off + m)) n (u32 (tot + m))
  end.

Definition writei (i : nat) (src : wsrc) (off n : Z) : K Z :=
  ip ← get_inode i;
  if (off >? ip.(i_size)) || (u32 (off + n) <? off) then mret (-1) else
  if u32 (off + n) >? MAXFILE * BSIZE then mret (-1) else
  r ← writei_loop (Z.to_nat (n / BSIZE) + 2) i src off n 0;
  let '(tot, off) := r in
  ip ← get_inode i;
  when (off >? ip.(i_size)) (upd_inode i (set_i_size off));;
  iupdate i;;
  mret (s32 tot).

(** ** Directories *)

(** strncmp() on two character arrays. *)
Fixpoint name_strncmp (n : nat) (p q : list Z) : Z :=
  match n with
  | O => 0
  | S n =>
      let a := hd 0 p in let b := hd 0 q in
      if negb (a =? 0) && (a =? b) then name_strncmp n (tl p) (tl q) else u8 a - u8 b
  end.

Definition namecmp (s t : list Z) : Z := name_strncmp (Z.to_nat DIRSIZ) s t.

(** [struct dirent] *)
Definition sizeof_dirent : Z := 16.
Definition de_inum (d : list Z) : Z := get16 0 d.
Definition de_name (d : list Z) : list Z := slice 2 14 d.

(** The number of entries that the loops over a directory visit. *)
Definition dir_entries (size : Z) : nat := Z.to_nat ((size + sizeof_dirent - 1) / sizeof_dirent).

Definition dirlookup (i : nat) (name : list Z) : K (option (nat * Z)) :=
  dp ← get_inode i;
  if negb (dp.(i_type) =? T_DIR) then panic "dirlookup not DIR" else
  find_each (seq 0 (dir_entries dp.(i_size))) (fun k =>
    let off := sizeof_dirent * Z.of_nat k in
    r ← readi i DstLocal off sizeof_dirent;
    if negb (r.1 =? sizeof_dirent) then panic "dirlookup read" else
    if de_inum r.2 =? 0 then mret None else
    if namecmp name (de_name r.2) =? 0 then
      ip ← iget dp.(i_dev) (de_inum r.2);
      mret (Some (ip, off))
    else mret None).

(** strncpy(de.name, name, DIRSIZ) *)
Definition dirent_name (name : list Z) : list Z :=
  take 14 name ++ replicate (14 - length (take 14 name)) 0.

Definition dirlink (i : nat) (name : list Z) (inum : Z) : K Z :=
  r ← dirlookup i name;
  match r with
  | Some (ip, _) => iput ip;; mret (-1)
  | None =>
      dp ← get_inode i;
      r ← find_each (seq 0 (dir_entries dp.(i_size))) (fun k =>
        let off := sizeof_dirent * Z.of_nat k in
        r ← readi i DstLocal off sizeof_dirent;
        if negb (r.1 =? sizeof_dirent) then panic "dirlink read" else
        if de_inum r.2 =? 0 then mret (Some off) else mret None);
      let off := default (sizeof_dirent * Z.of_nat (dir_entries dp.(i_size))) r in
      n ← writei i (SrcLocal (le_bytes 2 (u16 inum) ++ dirent_name name)) off sizeof_dirent;
      if negb (n =? sizeof_dirent) then mret (-1) else mret 0
  end.

(** ** Paths *)

(** Paths are character strings without their NUL. *)
Fixpoint skip_slashes (path : list Z) : list Z :=
  match path with c :: rest => if c =? 47 then skip_slashes rest else path | [] => [] end.

(** The characters up to the next slash, and the rest. *)
Fixpoint path_elem (path : list Z) : list Z * list Z :=
  match path with
  | [] => ([], [])
  | c :: rest => if c =? 47 then ([], path) else let '(e, r) := path_elem rest in (c :: e, r)
  end.

Definition skipelem (path : list Z) : option (list Z * list Z) :=
  match skip_slashes path with
  | [] => None
  | path => let '(e, r) := path_elem path in Some (take 14 e, skip_slashes r)
  end.

(** The walk along a path; every round removes a character at least. *)
Fixpoint namex_loop (fuel : nat) (i : nat) (path : list Z) (name : list Z) (parent : bool)
    : K (option nat * list Z) :=
  match skipelem path with
  | None => if parent then iput i;; mret (None, name) else mret (Some i, name)
  | Some (name, path) =>
      match fuel with
      | O => no_fuel
      | S fuel =>
          ilock (Some i);;
          ip ← get_inode i;
          if negb (ip.(i_type) =? T_DIR) then iunlockput i;; mret (None, name) else
          if parent && bool_decide (path = []) then iunlock (Some i);; mret (Some i, name) else
          next ← dirlookup i name;
          match next with
          | None => iunlockput i;; mret (None, name)
          | Some (n, _) => iunlockput i;; namex_loop fuel n path name parent
          end
      end
  end.

Definition namex (path : list Z) (parent : bool) : K (option nat * list Z) :=
  i ← (if bool_decide (head path = Some 47) then iget ROOTDEV ROOTINO
       else me ← cur_proc; p ← get_proc me;
            match p.(p_cwd) with Some c => idup c | None => bad_pointer end);
  namex_loop (S (length path)) i path [] parent.

Definition namei (path : list Z) : K (option nat) :=
  r ← namex path false; mret r.1.

Definition nameiparent (path : list Z) : K (option nat * list Z) := namex path true.

End fs.
