(* ===== verification/FsState.v ===== *)
(** * Assertions on the file system's state

    [fsys it tr bl V O] describes the state between the operations on the
    file system, while [out] system calls are in the transaction: the inode
    table [it], the blocks [bl] of the transaction so far, the contents [V]
    of every block as the kernel sees it, and the buffers [O] the process
    holds.  The references follow from [bl] and [O]: a block of the
    transaction is pinned once, a held one counts once more. *)

From stdpp Require Import functions.
From S2P Require Import Prelude Memory Riscv Machine Spinlock Kalloc Vm Sched Sleeplock Dyn Bytes Ring Bio Bcache Log Dstate LogSpec Crash Fs.

Definition refs (bl : list Z) (O : Z -> option nat) : Z -> Z :=
  fun b => pins bl b + (if O b is Some _ then 1 else 0).

(** The held blocks are among [hs]. *)
Definition holds (O : Z -> option nat) (hs : list Z) : Prop := forall b, is_Some (O b) -> b ∈ hs.

Lemma holds_nolocks : holds nolocks [].
Proof. intros b [? ?]. done. Qed.

Lemma holds_insert O hs b p : holds O hs -> holds (<[b := Some p]> O) (b :: hs).
Proof.
  intros H k Hk. destruct (decide (b = k)) as [->|Hne]; [apply list_elem_of_here|].
  rewrite fn_lookup_insert_ne in Hk by done. apply list_elem_of_further. by apply H.
Qed.

Lemma roomy_refs bl O hs : holds O hs -> (length bl + length hs < NBUF)%nat -> roomy (refs bl O).
Proof.
  intros HO Hl. exists (list_to_set (bl ++ hs)). pose proof (size_list_to_set_le (bl ++ hs)) as Hs.
  rewrite length_app in Hs. split; [lia|]. intros b Hb. apply elem_of_list_to_set, elem_of_app.
  unfold refs, pins in Hb. case_bool_decide; [by left|]. right. apply HO. destruct (O b); [eauto|lia].
Qed.

Lemma refs_range bl O b : 0 <= refs bl O b <= 2.
Proof. unfold refs, pins. case_bool_decide; destruct (O b); lia. Qed.

Lemma length_logged b bl : (length (logged b bl) <= S (length bl))%nat.
Proof. unfold logged. case_bool_decide; [lia|]. rewrite length_app. cbn. lia. Qed.

Lemma elem_logged b bl x : x ∈ logged b bl <-> x = b \/ x ∈ bl.
Proof. unfold logged. case_bool_decide; set_solver. Qed.

Section fstate.
Context (pid : Z) (h0 : hart) (env : list turn) (s : kstate) (B : world -> Prop).
Context (L : gmap Z spinlock) (P : list proc) (SB : superblock) (start : Z) (d : gmap Z (list Z)) (out : Z).

Definition fsys (it : list inode) (tr : list event) (bl : list Z) (V : Z -> list Z) (O : Z -> option nat)
    (w : world) : Prop :=
  exists lg D, st pid h0 env s D lg tr d V (refs bl O) O w /\
    D.(d_itable) = it /\ D.(d_sb) = SB /\ D.(d_locks) = L /\ woke h0.(h_proc) P D.(d_procs) /\
    tx lg bl /\ NoDup bl /\ lg.(lg_outstanding) = out /\ lg.(lg_start) = start /\ lg.(lg_committing) = 0.

(** A block that log_write() accepts. *)
Definition loggable (b : Z) : Prop := 0 <= b < 2 ^ 31 /\ home start b.

Lemma fsys_ext it tr bl V O V' O' w :
  fsys it tr bl V O w -> (forall b, V' b = V b) -> (forall b, O' b = O b) -> fsys it tr bl V' O' w.
Proof.
  intros (lg & D & HI & Hrest) HV HO. exists lg, D. split; [|done].
  eapply st_ext; [exact HI|done| |done]. intros b. unfold refs. by rewrite HO.
Qed.

Lemma fsys_bread it tr bl V O w hs b :
  fsys it tr bl V O w -> O b = None -> holds O hs -> (length bl + length hs < NBUF)%nat ->
  wpx B (bread ROOTDEV b) (fun p w' => fsys it tr bl V (<[b := Some p]> O) w' /\
    (b ∉ bl -> V b = disk_at d b)) w.
Proof.
  intros (lg & D & HI & Hrest) HO Hhs Hlen. pose proof (refs_range bl O b).
  assert (Hcl : b ∉ bl -> V b = disk_at d b).
  { intros Hb. eapply st_clean; [exact HI|]. unfold refs, pins. by rewrite bool_decide_false, HO. }
  eapply wpx_mono; [eapply st_bread; [exact HI|done|lia|intros _; by eapply roomy_refs]|]. cbn beta.
  intros p w' HI'. split; [|done]. exists lg, D. split; [|done]. eapply st_ext; [exact HI'|done| |done].
  intros k. unfold refs. destruct (decide (b = k)) as [->|Hne].
  - rewrite !fn_lookup_insert, HO. lia.
  - by rewrite !fn_lookup_insert_ne.
Qed.

Lemma fsys_brelse it tr bl V O w b p :
  fsys it tr bl V O w -> O b = Some p -> (b ∉ bl -> V b = disk_at d b) ->
  wpx B (brelse p) (fun _ => fsys it tr bl V (<[b := None]> O)) w.
Proof.
  intros (lg & D & HI & Hrest) HO Hcl. pose proof (refs_range bl O b).
  eapply wpx_mono; [eapply st_brelse; [exact HI|exact HO|lia|]|].
  { unfold refs, pins. rewrite HO. case_bool_decide; [lia|auto]. }
  cbn beta. intros _ w' HI'. exists lg, D. split; [|done]. eapply st_ext; [exact HI'|done| |done].
  intros k. unfold refs. destruct (decide (b = k)) as [->|Hne].
  - rewrite !fn_lookup_insert, HO. lia.
  - by rewrite !fn_lookup_insert_ne.
Qed.

Lemma fsys_get_buf it tr bl V O w b p :
  fsys it tr bl V O w -> O b = Some p ->
  wpx B (get_buf p) (fun x w' => fsys it tr bl V O w' /\ x.(b_data) = V b) w.
Proof.
  intros (lg & D & HI & Hrest) HO. eapply wpx_mono; [by eapply st_get_buf|]. cbn beta.
  intros x w' (HI' & Hd & _). split; [by exists lg, D|done].
Qed.

Lemma fsys_upd_data it tr bl V O w b p f :
  fsys it tr bl V O w -> O b = Some p -> length (f (V b)) = bsize ->
  wpx B (upd_data p f) (fun _ => fsys it tr bl (<[b := f (V b)]> V) O) w.
Proof.
  intros (lg & D & HI & Hrest) HO Hl. eapply wpx_mono; [by eapply st_upd_data|]. cbn beta.
  intros _ w' HI'. by exists lg, D.
Qed.

Lemma fsys_log_write it tr bl V O w b p :
  fsys it tr bl V O w -> 1 <= out -> O b = Some p -> (length bl < Z.to_nat LOGBLOCKS)%nat -> loggable b ->
  wpx B (log_write p) (fun _ => fsys it tr (logged b bl) V O) w.
Proof.
  intros (lg & D & HI & H1 & H2 & H3 & H4 & HT & Hnd & Ho & Hst & Hc) Hout HO Hl [Hb Hh].
  pose proof (refs_range bl O b). pose proof (tx_n _ _ HT) as Hn. pose proof LOGBLOCKS_eq.
  eapply wpx_mono; [eapply (st_log_write _ _ _ _ _ _ _ _ _ _ _ _ _ bl b); [exact HI|done|done|lia|lia|done|lia]|].
  cbn beta. intros _ w' HI'. exists (logged_st b bl lg), D. split_and!; try done.
  - eapply st_ext; [exact HI'|done| |done]. intros k. unfold refs.
    assert (E : forall x, pins (logged b bl) x = if decide (x = b) then 1 else pins bl x).
    { intros x. unfold pins. destruct (decide (x = b)) as [Hx|Hx].
      - rewrite bool_decide_true; [done|]. apply elem_logged. by left.
      - rewrite (bool_decide_ext (x ∈ logged b bl) (x ∈ bl)); [done|]. rewrite elem_logged. naive_solver. }
    destruct (decide (b = k)) as [->|Hne].
    + rewrite fn_lookup_insert, E, decide_True by done. unfold pins. rewrite HO. case_bool_decide; lia.
    + rewrite fn_lookup_insert_ne, E, decide_False by done. done.
  - apply tx_logged; [done|lia|done|]. by rewrite Hst.
  - by apply nodup_logged.
  - unfold logged_st. by case_bool_decide.
  - unfold logged_st. by case_bool_decide.
  - unfold logged_st. by case_bool_decide.
Qed.

Lemma fsys_data_length it tr bl V O w b : fsys it tr bl V O w -> length (V b) = bsize.
Proof. intros (lg & D & HI & _). by eapply st_data_length. Qed.

Lemma fsys_emit it tr bl V O w e :
  fsys it tr bl V O w -> wpx B (emit e) (fun _ => fsys it (tr ++ [e]) bl V O) w.
Proof.
  intros (lg & D & HI & Hrest). eapply wpx_mono; [by eapply st_emit|]. cbn beta. intros _ w' HI'.
  by exists lg, D.
Qed.

Lemma fsys_get_sb it tr bl V O w :
  fsys it tr bl V O w -> wpx B (getk sb) (fun x w' => x = SB /\ fsys it tr bl V O w') w.
Proof.
  intros (lg & D & (h & D1 & -> & A) & H1 & H2 & H3). apply wpx_dget. split.
  - cbn. by rewrite (st_sb _ _ _ _ _ _ _ _ _ _ A).
  - exists lg, D. split; [by exists h, D1|done].
Qed.

Lemma fsys_get_itable it tr bl V O w :
  fsys it tr bl V O w -> wpx B (getk itable) (fun x w' => x = it /\ fsys it tr bl V O w') w.
Proof.
  intros (lg & D & (h & D1 & -> & A) & H1 & H2). apply wpx_dget. split.
  - cbn. by rewrite (st_itable _ _ _ _ _ _ _ _ _ _ A).
  - exists lg, D. split; [by exists h, D1|done].
Qed.

Lemma fsys_get_inode it tr bl V O w i x :
  fsys it tr bl V O w -> it !! i = Some x ->
  wpx B (get_inode i) (fun y w' => y = x /\ fsys it tr bl V O w') w.
Proof.
  intros HI Hx. unfold get_inode. eapply wpx_call; [by apply fsys_get_itable|]. intros ? w' [-> HI'].
  rewrite Hx. by apply wpx_ret.
Qed.

Lemma fsys_set_itable it it' tr bl V O w f :
  fsys it tr bl V O w -> (forall k, k.(itable) = it -> f k = set_itable it' k) ->
  wpx B (modk f) (fun _ => fsys it' tr bl V O) w.
Proof.
  intros (lg & D & (h & D1 & -> & A) & H1 & H2 & H3) Hf. destruct A as [A1 A2 A3 A4 A5 A6 A7 A8 A9].
  eapply (wpx_dmod _ _ _ _ _ _ _ _ (set_d_itable it' D1)).
  { rewrite Hf; [done|]. cbn. congruence. }
  exists lg, (set_d_itable it' D). split; [|done]. exists h, (set_d_itable it' D1). split; [done|].
  split; try done; [destruct A8; by split|by apply (cache_frame pid D1)].
Qed.

Lemma fsys_upd_inode it tr bl V O w i x f :
  fsys it tr bl V O w -> it !! i = Some x ->
  wpx B (upd_inode i f) (fun _ => fsys (<[i := f x]> it) tr bl V O) w.
Proof.
  intros HI Hx. unfold upd_inode. eapply fsys_set_itable; [exact HI|].
  intros k Hk. rewrite Hk. f_equal. by apply alter_as_insert.
Qed.

(** ** The inode table under its locks *)

(** The worlds of [fsys], and what a step that changes only the inode table and
    wakes processes has to keep. *)
Lemma fsys_open it tr bl V O w :
  fsys it tr bl V O w -> exists h D j p, w = World h env tr (dset D s) /\ D.(d_itable) = it /\ sess pid h D /\
    h.(h_proc) = Some j /\ D.(d_procs) !! j = Some p /\ p.(p_pid) = pid /\
    forall it' P', woke h.(h_proc) D.(d_procs) P' ->
      fsys it' tr bl V O (World (settle h) env tr (dset (set_d_procs P' (set_d_itable it' D)) s)).
Proof.
  intros (lg & D & (h & D1 & -> & A) & H1 & H2 & H3 & H4 & H5). destruct A as [A1 A2 A3 A4 A5 A6 A7 A8 A9].
  pose proof A8 as [S1 (j & p & Hj & Hp & Hpid) S3 S4].
  exists h, D1, j, p. split_and!; [done|congruence|done|done|done|done|]. intros it' P' HP.
  exists lg, (set_d_procs P' (set_d_itable it' D)). rewrite (hart_le_proc _ _ A1) in HP.
  split; [|split; [done|split; [done|split; [done|split; [|done]]]]].
  - eexists _, _. split; [done|]. split; try done.
    + eapply hart_le_trans; [done|apply hart_le_settle].
    + apply woke_refl.
    + split; [by apply settle_ok| |done|].
      * rewrite settle_proc. destruct (proj2 HP j p Hp) as (p' & Hp' & [-> | (Hne & _)]); [eauto 6|].
        rewrite (hart_le_proc _ _ A1) in Hj. congruence.
      * cbn. by rewrite <-(proj1 HP).
    + by apply (cache_frame pid D1).
  - cbn. eapply woke_trans; [exact H4|]. eapply woke_trans; [exact A3|done].
Qed.

Lemma fsys_acquiresleep it tr bl V O w i x :
  fsys it tr bl V O w -> it !! i = Some x -> (i < NINODE)%nat -> x.(i_lock).(sl_locked) = 0 ->
  wpx B (acquiresleep (SLinode i)) (fun _ =>
    fsys (<[i := set_i_lock (Sleeplock 1 x.(i_lock).(sl_name) pid) x]> it) tr bl V O) w.
Proof.
  intros HI Hx Hi Hfree. destruct (fsys_open _ _ _ _ _ _ HI) as (h & D & j & p & -> & Hit & [S1 _ S3 S4] & Hj & Hp & Hpid & Hk).
  assert (Hsl : dsl (SLinode i) D = x.(i_lock)) by (cbn; by rewrite Hit, Hx).
  apply (wpx_acquiresleep _ _ _ _ _ _ _ j p); try done.
  - split; [|done]. rewrite Hit. by eapply lookup_lt_Some.
  - by rewrite Hsl.
  - rewrite Hsl, Hpid. cbn [dset_sl]. rewrite Hit, (alter_as_insert _ _ _ _ Hx).
    specialize (Hk (<[i := set_i_lock (Sleeplock 1 (sl_name (i_lock x)) pid) x]> it) D.(d_procs) (woke_refl _ _)).
    by destruct D.
Qed.

Lemma fsys_releasesleep it tr bl V O w i x :
  fsys it tr bl V O w -> it !! i = Some x -> (i < NINODE)%nat ->
  wpx B (releasesleep (SLinode i)) (fun _ =>
    fsys (<[i := set_i_lock (Sleeplock 0 x.(i_lock).(sl_name) 0) x]> it) tr bl V O) w.
Proof.
  intros HI Hx Hi. destruct (fsys_open _ _ _ _ _ _ HI) as (h & D & j & p & -> & Hit & [S1 _ S3 S4] & Hj & Hp & Hpid & Hk).
  assert (Hsl : dsl (SLinode i) D = x.(i_lock)) by (cbn; by rewrite Hit, Hx).
  apply (wpx_releasesleep _ _ _ _ _ _ _ j p); try done.
  - split; [|done]. rewrite Hit. by eapply lookup_lt_Some.
  - intros P' HP. rewrite Hsl. cbn [dset_sl]. rewrite Hit, (alter_as_insert _ _ _ _ Hx). apply Hk. by rewrite Hj.
Qed.

Lemma fsys_holdingsleep it tr bl V O w i x :
  fsys it tr bl V O w -> it !! i = Some x -> (i < NINODE)%nat ->
  x.(i_lock).(sl_locked) = 1 -> x.(i_lock).(sl_pid) = pid ->
  wpx B (holdingsleep (SLinode i)) (fun r w' => r = true /\ fsys it tr bl V O w') w.
Proof.
  intros HI Hx Hi H1 H2. destruct (fsys_open _ _ _ _ _ _ HI) as (h & D & j & p & -> & Hit & [S1 _ S3 S4] & Hj & Hp & Hpid & Hk).
  assert (Hsl : dsl (SLinode i) D = x.(i_lock)) by (cbn; by rewrite Hit, Hx).
  apply (wpx_holdingsleep _ _ _ _ _ _ _ j p); rewrite ?Hsl; try done.
  - split; [|done]. rewrite Hit. by eapply lookup_lt_Some.
  - congruence.
  - split; [done|]. specialize (Hk it D.(d_procs) (woke_refl _ _)). rewrite <-Hit in Hk at 2. by destruct D.
Qed.

(** A change of the table under itable.lock: [m] is the code between
    acquire() and release(), and what follows. *)
Lemma fsys_itable {A} it it' tr bl V O w (m : K A) a :
  fsys it tr bl V O w ->
  (forall h D, D.(d_itable) = it -> m (World h env tr (dset D s)) =
     (release itable_lock;; mret a) (World h env tr (dset (set_d_itable it' D) s))) ->
  wpx B (acquire itable_lock;; m) (fun r w' => r = a /\ fsys it' tr bl V O w') w.
Proof.
  intros HI Hm. destruct (fsys_open _ _ _ _ _ _ HI) as (h & D & j & p & -> & Hit & [S1 _ S3 S4] & Hj & Hp & Hpid & Hk).
  kstep. apply wpx_dacquire; [by apply calm_itable|]. unfold wpx. rewrite Hm by done.
  match goal with |- match ?m ?w with _ => _ end => change (wpx B m (fun r w' => r = a /\ fsys it' tr bl V O w') w) end.
  kstep. eapply (wpx_drelease _ _ _ _ _ _ _ D.(d_locks)); [done|by apply calm_itable|done|]. kstep. split; [done|].
  specialize (Hk it' D.(d_procs) (woke_refl _ _)). by destruct D.
Qed.

End fstate.

Lemma fsys_nodup {pid h0 env s L P SB start d out it tr bl V O w} :
  fsys pid h0 env s L P SB start d out it tr bl V O w -> NoDup bl.
Proof. intros (lg & D & _ & _ & _ & _ & _ & _ & Hnd & _). done. Qed.

Lemma fsys_table {pid h0 env s L P SB start d out it tr bl V O w} :
  fsys pid h0 env s L P SB start d out it tr bl V O w -> itable (w_st w) = it.
Proof. intros (lg & D & (h & D' & -> & HD) & <- & _). by destruct HD. Qed.

Lemma fsys_disk {pid h0 env s L P SB start d out it tr bl V O w} :
  fsys pid h0 env s L P SB start d out it tr bl V O w -> disk (w_st w) = d.
Proof. intros (lg & D & (h & D' & -> & HD) & _). by destruct HD. Qed.

Lemma fsys_log_n {pid h0 env s L P SB start d out it tr bl V O w} :
  fsys pid h0 env s L P SB start d out it tr bl V O w -> lg_n (log (w_st w)) = Z.of_nat (length bl).
Proof. intros (lg & D & (h & D' & -> & HD) & _ & _ & _ & _ & HT & _). destruct HD as [_ _ _ <- _ _ _ _ _]. by apply HT. Qed.

(** * System calls as transactions: begin_op() and end_op()

    The two brackets of every system call on the file system, on the
    assertion of [FsState]: begin_op() reserves space in the log, and the
    end_op() of the last system call in the transaction commits it, after
    which the disk has every block as the kernel saw it. *)

(** A change of the log's state in memory, with some processes woken up. *)
Lemma stD_set_log pid h0 D0 lg d V R O h D lg' P' :
  stD pid h0 D0 lg d V R O h D -> woke h.(h_proc) D.(d_procs) P' ->
  stD pid h0 D0 lg' d V R O (settle h) (set_d_procs P' (set_d_log lg' D)).
Proof.
  intros [A1 A2 A3 A4 A5 A6 A7 A8 A9] HP. split; try done.
  - eapply hart_le_trans; [done|apply hart_le_settle].
  - rewrite (hart_le_proc _ _ A1) in HP. cbn. by eapply woke_trans.
  - destruct A8 as [S1 (j & p & Hj & Hp & Hpid) S3 S4]. split; [by apply settle_ok| |done|cbn; by rewrite <-(proj1 HP)].
    rewrite settle_proc. destruct (proj2 HP j p Hp) as (p' & Hp' & [-> | (Hne & _)]); [by exists j, p|congruence].
  - by apply (cache_frame pid D).
Qed.

Section ops.
Context (pid : Z) (h0 : hart) (env : list turn) (s : kstate) (B : world -> Prop).
Context (L : gmap Z spinlock) (P : list proc) (SB : superblock) (start : Z).

#[local] Abbreviation fsys := (FsState.fsys pid h0 env s L P SB start).

(** begin_op() when the log has room for one more system call. *)
Lemma fsys_begin_op d out it tr bl V O w :
  fsys d out it tr bl V O w -> Z.of_nat (length bl) + (out + 1) * MAXOPBLOCKS <= LOGBLOCKS ->
  wpx B begin_op (fun _ => fsys d (out + 1) it tr bl V O) w.
Proof.
  intros (lg & D & (h & D1 & -> & A) & H1 & H2 & H3 & H4 & HT & Hnd & Ho & Hst & Hc) Hroom.
  pose proof A as [A1 A2 A3 A4 A5 A6 A7 A8 A9]. pose proof A8 as [Hh _ HL _].
  unfold begin_op. kstep. apply wpx_dacquire; [by apply calm_log|]. kstep. kstep. cbn [w_env begin_op_loop].
  kstep. apply wpx_dget. cbn [log dset d_log set_d_locks]. rewrite A4, Hc, (tx_n _ _ HT), Ho.
  assert ((Z.of_nat (length bl) + (out + 1) * MAXOPBLOCKS >? LOGBLOCKS) = false) as -> by (rewrite Z.gtb_ltb; lia).
  change (ztrue 0 || false) with false. cbv iota. kstep. unfold upd_log.
  set (lg' := set_lg_outstanding (out + 1) lg).
  eapply (wpx_dmod _ _ _ _ _ _ _ _ (set_d_log lg' (set_d_locks _ D1))).
  { cbn [dset log]. unfold lg'. rewrite <-A4. reflexivity. }
  eapply (wpx_drelease _ _ _ _ _ _ _ D1.(d_locks)); [done|by apply calm_log|done|].
  exists lg', D. split; [|split_and!; try done; by destruct HT].
  exists (settle h), (set_d_procs D1.(d_procs) (set_d_log lg' D1)). split; [by destruct D1|].
  by apply (stD_set_log _ _ _ lg), woke_refl.
Qed.
(** The part of end_op() under log.lock, and a change of the log's state. *)
Lemma st_log_locked D lg lg' tr d V R O w (m : K unit) :
  st pid h0 env s D lg tr d V R O w ->
  (forall h D1, D1.(d_log) = lg -> sess pid h D1 ->
     let lock := set_d_locks (lock_by h.(h_tp) log_lock D1.(d_locks)) in
     wpx B m (fun r w' => exists P', woke h.(h_proc) D1.(d_procs) P' /\ r = tt /\
       w' = World (hart_push h) env tr (dset (lock (set_d_procs P' (set_d_log lg' D1))) s))
     (World (hart_push h) env tr (dset (lock D1) s))) ->
  wpx B (acquire log_lock;; m;; release log_lock) (fun _ => st pid h0 env s D lg' tr d V R O) w.
Proof.
  intros (h & D1 & -> & A) Hm. pose proof A as [A1 A2 A3 A4 A5 A6 A7 A8 A9]. pose proof A8 as [Hh _ HL _].
  kstep. apply wpx_dacquire; [by apply calm_log|]. eapply wpx_call; [by apply Hm|]. cbn beta.
  intros _ w1 (P' & HP & _ & ->). eapply (wpx_drelease _ _ _ _ _ _ _ D1.(d_locks)); [done|by apply calm_log|done|].
  exists (settle h), (set_d_procs P' (set_d_log lg' D1)). split; [by destruct D1|]. by apply (stD_set_log _ _ _ lg).
Qed.

(** commit() copies the transaction to its place on the disk. *)
Lemma commit_home lg V bl d b :
  tx lg bl -> NoDup bl -> home lg.(lg_start) b -> (b ∉ bl -> V b = disk_at d b) ->
  disk_at (dwr d (commit_writes lg V bl)) b = V b.
Proof.
  intros HT Hnd Hb Hcl. assert (Hs : forall i, (i < length bl)%nat -> b <> log_slot lg i).
  { intros i Hi ->. revert Hb. by apply (home_slot lg bl HT). }
  assert (Hst : b <> lg_start lg) by (intros ->; by apply home_start in Hb).
  unfold commit_writes. case_bool_decide as He.
  { symmetry. apply Hcl. rewrite He. apply not_elem_of_nil. }
  rewrite !dwr_app. rewrite (dwr_notin _ [(_, head_put _ _ _)]) by (cbn; set_solver).
  destruct (decide (b ∈ bl)) as [Hin|Hin].
  - apply list_elem_of_lookup in Hin as [i Hi]. eapply (dwr_in _ _ i).
    + by rewrite home_writes_fst.
    + unfold home_writes. change (map ?f ?l) with (f <$> l). by rewrite list_lookup_fmap, Hi.
  - rewrite dwr_notin by (by rewrite home_writes_fst). rewrite dwr_notin by (cbn; set_solver).
    rewrite dwr_notin; [by rewrite Hcl|]. rewrite log_writes_fst. intros (i & Hi & Hin')%list_elem_of_fmap.
    apply elem_of_seq in Hin'. apply (Hs i); [lia|done].
Qed.

(** The first part of end_op(): the last system call starts to commit. *)
Lemma end_op_last D lg tr d V R O w (k : bool -> K unit) (Q : unit -> world -> Prop) :
  st pid h0 env s D lg tr d V R O w -> lg.(lg_outstanding) = 1 -> lg.(lg_committing) = 0 ->
  (forall w', st pid h0 env s D (set_lg_committing 1 (set_lg_outstanding 0 lg)) tr d V R O w' -> wpx B (k true) Q w') ->
  wpx B (acquire log_lock;;
    upd_log (fun lg => set_lg_outstanding (lg.(lg_outstanding) - 1) lg);;
    lg ← getk log;
    if ztrue lg.(lg_committing) then panic "log.committing" else
    do_commit ← (if lg.(lg_outstanding) =? 0 then upd_log (set_lg_committing 1);; mret true
                 else wakeup chan_log;; mret false);
    release log_lock;; k do_commit) Q w.
Proof.
  intros (h & D1 & -> & A) Ho Hc Hk. pose proof A as [A1 A2 A3 A4 A5 A6 A7 A8 A9]. pose proof A8 as [Hh _ HL _].
  kstep. apply wpx_dacquire; [by apply calm_log|]. set (L1 := lock_by _ _ _). set (lg1 := set_lg_outstanding 0 lg).
  kstep. unfold upd_log at 1. eapply (wpx_dmod _ _ _ _ _ _ _ _ (set_d_log lg1 (set_d_locks L1 D1))).
  { cbn [dset log]. unfold lg1. rewrite <-A4. cbn [d_log set_d_locks]. rewrite A4, Ho. by destruct D1. }
  kstep. apply wpx_dget. cbn [log dset d_log set_d_log lg_committing lg_outstanding set_lg_outstanding lg1].
  rewrite Hc. change (ztrue 0) with false. change (0 =? 0) with true. cbv iota.
  kstep. kstep. unfold upd_log at 1.
  eapply (wpx_dmod _ _ _ _ _ _ _ _ (set_d_log (set_lg_committing 1 lg1) (set_d_locks L1 D1))); [by destruct D1|].
  kstep. kstep. eapply (wpx_drelease _ _ _ _ _ _ _ D1.(d_locks)); [done|by apply calm_log|done|]. apply Hk.
  exists (settle h), (set_d_procs D1.(d_procs) (set_d_log (set_lg_committing 1 lg1) D1)). split; [by destruct D1|].
  by apply (stD_set_log _ _ _ lg), woke_refl.
Qed.

(** end_op() of the only system call in the transaction. *)
Lemma fsys_end_op d it tr bl V w :
  fsys d 1 it tr bl V nolocks w -> (length bl < NBUF)%nat ->
  wpx B end_op (fun _ w' => exists d' tr', fsys d' 0 it tr' [] (disk_at d') nolocks w' /\
    forall b, home start b -> disk_at d' b = V b) w.
Proof.
  intros (lg & D & HI & H1 & H2 & H3 & H4 & HT & Hnd & Ho & Hst & Hc) Hl. unfold end_op.
  apply (end_op_last D lg tr d V (refs bl nolocks) nolocks); [done..|]. intros w1 HI1. cbn [when].
  set (lg1 := set_lg_committing 1 (set_lg_outstanding 0 lg)) in *. assert (HT1 : tx lg1 bl) by (by destruct HT).
  wcall st_commit; [eapply st_ext; [exact HI1|done| |done]|exact HT1|done|done|].
  { intros b. unfold refs. cbn. lia. }
  intros _ w2 HI2. set (d' := dwr d (commit_writes lg1 V bl)) in *.
  set (lg2 := set_lg_committing 0 (set_lg_n 0 lg1)).
  assert (Hrun : wpx B (acquire log_lock;; (upd_log (set_lg_committing 0);; wakeup chan_log);; release log_lock)
    (fun _ => st pid h0 env s D lg2 (tr ++ evs (commit_writes lg1 V bl)) d' (disk_at d') norefs nolocks) w2).
  { eapply st_log_locked; [exact HI2|]. intros h D1 Hlg [Hh Hp HL Hlen]. cbv zeta. kstep. unfold upd_log.
    eapply (wpx_dmod _ _ _ _ _ _ _ _ (set_d_log lg2 (set_d_locks _ D1))); [unfold lg2; rewrite <-Hlg; by destruct D1|].
    apply wpx_dwakeup; [by apply hart_push_ok| |done|].
    - intros j Hj _. cbn. apply calm_proc_held; [done|by left|done].
    - intros P' HP. cbn in HP. exists P'. split_and!; [done|done|]. rewrite settle_push by done. by destruct D1. }
  eapply (wpx_mono _ _ (fun _ => st pid h0 env s D lg2 (tr ++ evs (commit_writes lg1 V bl)) d' (disk_at d') norefs nolocks));
    [|cbn beta; intros _ w3 HI3; exists d', (tr ++ evs (commit_writes lg1 V bl)); split].
  - revert Hrun. unfold wpx, mbind, M_bind. destruct (acquire log_lock w2) as [? w3| | |]; [|done..].
    destruct (upd_log _ w3); done.
  - exists lg2, D. split; [eapply st_ext; [exact HI3|done|done|done]|]. split_and!; try done; [|constructor].
    pose proof (tx_clear _ _ HT1) as []. by split.
  - intros b Hb. apply commit_home; [done|done|by rewrite <-Hst in Hb|]. intros Hn. eapply st_clean; [exact HI|].
    unfold refs, pins. by rewrite bool_decide_false.
Qed.

End ops.
