(* ===== verification/FsAlloc.v ===== *)
(** * The free map: balloc() and bfree()

    The layout of the disk, the free map as a predicate on the contents of
    the blocks, and what balloc() and bfree() do to it. *)

From stdpp Require Import functions.
From S2P Require Import Prelude Memory Riscv Machine Spinlock Kalloc Vm Sched Sleeplock Dyn Bytes Ring Bio Bcache Log Dstate LogSpec Crash Fs FsState.

(** ** The layout

    [boot | super block | log | inodes | free map | data]: the log starts at
    [start], and the other areas follow it. *)

(** The first block after the free map. *)
Definition datastart (sb : superblock) : Z := sb.(sb_bmapstart) + sb.(sb_size) / BPB + 1.

Record layout (sb : superblock) (start : Z) : Prop := {
  lay_log : 2 <= start;
  lay_inodes : start + LOGBLOCKS < sb.(sb_inodestart);
  lay_ninodes : 0 < sb.(sb_ninodes);
  lay_bmap : sb.(sb_inodestart) + sb.(sb_ninodes) / IPB < sb.(sb_bmapstart);
  lay_data : datastart sb <= sb.(sb_size);
  lay_size : sb.(sb_size) < 2 ^ 31 - BPB
}.

(** A block of the data area. *)
Definition data_block (sb : superblock) (b : Z) : Prop := datastart sb <= b < sb.(sb_size).

(** The bit of block [b] in the free map, and the map after a change. *)
Definition bit (sb : superblock) (V : Z -> list Z) (b : Z) : bool :=
  Z.testbit (byte_at (Z.to_nat (b mod BPB / 8)) (V (BBLOCK b sb))) (b mod 8).

Definition mark (sb : superblock) (b : Z) (f : Z -> Z) (V : Z -> list Z) : Z -> list Z :=
  <[BBLOCK b sb := put_byte (Z.to_nat (b mod BPB / 8))
      (f (byte_at (Z.to_nat (b mod BPB / 8)) (V (BBLOCK b sb)))) (V (BBLOCK b sb))]> V.
Definition set_used (sb : superblock) (b : Z) : (Z -> list Z) -> Z -> list Z :=
  mark sb b (fun x => Z.lor x (Z.shiftl 1 (b mod 8))).
Definition clear_used (sb : superblock) (b : Z) : (Z -> list Z) -> Z -> list Z :=
  mark sb b (fun x => Z.land x (Z.lnot (Z.shiftl 1 (b mod 8)))).

(** A block that balloc() may hand out. *)
Definition free (sb : superblock) (V : Z -> list Z) (b : Z) : Prop :=
  0 <= b < sb.(sb_size) /\ bit sb V b = false.

(** Only blocks of the data area are free. *)
Definition bitmap_ok (sb : superblock) (V : Z -> list Z) : Prop :=
  forall b, free sb V b -> data_block sb b.

Definition zeros : list Z := replicate bsize 0.

Section layout.
Context (sb : superblock) (start : Z) (HG : layout sb start).

Lemma BPB_eq : BPB = 8192.
Proof. done. Qed.

Lemma layout_facts :
  2 <= start /\ start + 30 < sb.(sb_inodestart) /\ sb.(sb_inodestart) < sb.(sb_bmapstart) /\
  datastart sb = sb.(sb_bmapstart) + sb.(sb_size) / 8192 + 1 /\ datastart sb <= sb.(sb_size) /\
  sb.(sb_size) < 2147483648 - 8192.
Proof using HG.
  destruct HG as [A1 A2 A3 A4 A5 A6]. rewrite LOGBLOCKS_eq in *.
  assert (0 <= sb_ninodes sb / IPB) by (apply Z.div_pos; [lia|done]).
  change (2 ^ 31) with 2147483648 in *. rewrite BPB_eq in *. unfold datastart in *. rewrite BPB_eq in *. dlia.
Qed.

Lemma BBLOCK_val b : 0 <= b < sb.(sb_size) -> BBLOCK b sb = b / BPB + sb.(sb_bmapstart).
Proof using HG start.
  intros Hb. pose proof layout_facts. unfold BBLOCK. rewrite BPB_eq.
  apply u32_small. change (2 ^ 32) with 4294967296. dlia.
Qed.

Lemma BBLOCK_range b : 0 <= b < sb.(sb_size) -> sb.(sb_bmapstart) <= BBLOCK b sb < datastart sb.
Proof using HG start.
  intros Hb. rewrite BBLOCK_val, BPB_eq by done. pose proof layout_facts. dlia.
Qed.

Lemma data_not_bitmap b b' : data_block sb b -> 0 <= b' < sb.(sb_size) -> b <> BBLOCK b' sb.
Proof using HG start. intros [Hb _] Hb'. pose proof (BBLOCK_range b' Hb'). lia. Qed.

Lemma data_range b : data_block sb b -> 0 < b < sb.(sb_size).
Proof using HG start. intros [H1 H2]. pose proof layout_facts. dlia. Qed.

Lemma data_loggable b : data_block sb b -> loggable start b.
Proof using HG.
  intros [H1 H2]. pose proof layout_facts. split; [dlia|]. unfold home. rewrite LOGBLOCKS_eq. dlia.
Qed.

Lemma bitmap_loggable b : 0 <= b < sb.(sb_size) -> loggable start (BBLOCK b sb).
Proof using HG.
  intros Hb. pose proof (BBLOCK_range b Hb). pose proof layout_facts. split; [lia|].
  unfold home. rewrite LOGBLOCKS_eq. dlia.
Qed.

(** ** Bits *)

Lemma bit_index b : (Z.to_nat (b mod BPB / 8) < bsize)%nat.
Proof.
  pose proof (Z.mod_pos_bound b BPB ltac:(done)). unfold bsize, BSIZE. rewrite BPB_eq in *. dlia.
Qed.

Lemma same_bit b b' :
  0 <= b < sb.(sb_size) -> 0 <= b' < sb.(sb_size) -> BBLOCK b sb = BBLOCK b' sb ->
  Z.to_nat (b mod BPB / 8) = Z.to_nat (b' mod BPB / 8) -> b mod 8 = b' mod 8 -> b = b'.
Proof using HG start.
  intros Hb Hb' E1 E2 E3. rewrite !BBLOCK_val in E1 by done. rewrite BPB_eq in *.
  pose proof (Z.mod_pos_bound b 8192 ltac:(done)). pose proof (Z.mod_pos_bound b' 8192 ltac:(done)). dlia.
Qed.

Lemma byte_at_put i j v l :
  (i < length l)%nat -> byte_at j (put_byte i v l) = if decide (j = i) then u8 v else byte_at j l.
Proof.
  intros Hi. unfold byte_at, put_byte. case_decide as E; [subst|].
  - by rewrite list_lookup_insert_eq.
  - by rewrite list_lookup_insert_ne.
Qed.

Lemma testbit_u8 v n : 0 <= n < 8 -> Z.testbit (u8 v) n = Z.testbit v n.
Proof. intros H. unfold u8. by rewrite Z.mod_pow2_bits_low by lia. Qed.

(** A change of one bit. *)
Lemma bit_mark V b f b' v :
  length (V (BBLOCK b sb)) = bsize -> 0 <= b < sb.(sb_size) -> 0 <= b' < sb.(sb_size) ->
  (forall x n, 0 <= n -> Z.testbit (f x) n = if decide (n = b mod 8) then v else Z.testbit x n) ->
  bit sb (mark sb b f V) b' = if decide (b' = b) then v else bit sb V b'.
Proof using HG start.
  intros Hl Hb Hb' Hf. unfold bit, mark. pose proof (Z.mod_pos_bound b' 8 ltac:(done)).
  destruct (decide (BBLOCK b' sb = BBLOCK b sb)) as [E|E].
  - rewrite E, fn_lookup_insert, byte_at_put by (rewrite Hl; apply bit_index).
    destruct (decide (Z.to_nat (b' mod BPB / 8) = Z.to_nat (b mod BPB / 8))) as [E2|E2].
    + rewrite testbit_u8, Hf, E2 by lia. repeat case_decide; try done; subst; try done.
      by destruct (H1 (same_bit _ _ Hb' Hb E E2 H0)).
    + case_decide; [by subst|done].
  - rewrite fn_lookup_insert_ne by congruence. case_decide; [by subst|done].
Qed.

Lemma bit_set_used V b b' :
  length (V (BBLOCK b sb)) = bsize -> 0 <= b < sb.(sb_size) -> 0 <= b' < sb.(sb_size) ->
  bit sb (set_used sb b V) b' = if decide (b' = b) then true else bit sb V b'.
Proof using HG start.
  intros Hl Hb Hb'. apply bit_mark; [done..|]. intros x n Hn. pose proof (Z.mod_pos_bound b 8 ltac:(done)).
  rewrite Z.lor_spec, Z.shiftl_1_l, Z.pow2_bits_eqb by lia. case_decide.
  - by rewrite (proj2 (Z.eqb_eq _ _)), orb_true_r by done.
  - by rewrite (proj2 (Z.eqb_neq _ _)), orb_false_r by done.
Qed.

Lemma bit_clear_used V b b' :
  length (V (BBLOCK b sb)) = bsize -> 0 <= b < sb.(sb_size) -> 0 <= b' < sb.(sb_size) ->
  bit sb (clear_used sb b V) b' = if decide (b' = b) then false else bit sb V b'.
Proof using HG start.
  intros Hl Hb Hb'. apply bit_mark; [done..|]. intros x n Hn. pose proof (Z.mod_pos_bound b 8 ltac:(done)).
  rewrite Z.land_spec, Z.lnot_spec, Z.shiftl_1_l, Z.pow2_bits_eqb by lia. case_decide.
  - by rewrite (proj2 (Z.eqb_eq _ _)), andb_false_r by done.
  - by rewrite (proj2 (Z.eqb_neq _ _)), andb_true_r by done.
Qed.

(** The test of the C code, at bit [bi] of the [k]th block of the map. *)
Lemma bit_at V k bi b :
  b = Z.of_nat k * BPB + Z.of_nat bi -> Z.of_nat bi < BPB -> b < sb.(sb_size) ->
  BBLOCK (Z.of_nat k * BPB) sb = BBLOCK b sb /\ (bi / 8)%nat = Z.to_nat (b mod BPB / 8) /\
  Z.of_nat bi mod 8 = b mod 8 /\
  (Z.land (byte_at (bi / 8) (V (BBLOCK b sb))) (Z.shiftl 1 (Z.of_nat bi mod 8)) =? 0) = negb (bit sb V b).
Proof using HG start.
  intros -> Hbi Hs. set (b := Z.of_nat k * BPB + Z.of_nat bi) in *.
  assert (E2 : (bi / 8)%nat = Z.to_nat (b mod BPB / 8)).
  { assert (b mod BPB = Z.of_nat bi) as -> by (unfold b; rewrite BPB_eq in *; dlia).
    change 8 with (Z.of_nat 8). by rewrite <-Nat2Z.inj_div, Nat2Z.id. }
  assert (E3 : Z.of_nat bi mod 8 = b mod 8) by (unfold b; rewrite BPB_eq in *; dlia).
  split_and!; [|done..|].
  - rewrite !BBLOCK_val by (unfold b in *; rewrite BPB_eq in *; lia). unfold b. rewrite BPB_eq in *. dlia.
  - rewrite E2, E3. unfold bit. rewrite Z.shiftl_1_l. pose proof (Z.mod_pos_bound b 8 ltac:(done)).
    rewrite land_pow2_testbit by lia. destruct (Z.testbit _ _); [|done]. apply Z.eqb_neq.
    apply Z.pow_nonzero; lia.
Qed.

End layout.

(** ** The operations *)

Section ops.
Context (pid : Z) (h0 : hart) (env : list turn) (s : kstate) (B : world -> Prop).
Context (L : gmap Z spinlock) (P : list proc) (SB : superblock) (start : Z) (d : gmap Z (list Z)) (out : Z).
Context (HG : layout SB start) (Hout : 1 <= out).

#[local] Abbreviation fsys := (FsState.fsys pid h0 env s L P SB start d out).

(** Locking and unlocking a block leaves the held buffers as they were. *)
Lemma unlock_lock (O : Z -> option nat) b p k :
  O b = None -> O k = (<[b := None]> (<[b := Some p]> O) : Z -> option nat) k.
Proof.
  intros HO. destruct (decide (b = k)) as [->|Hne]; [by rewrite fn_lookup_insert|].
  by rewrite !fn_lookup_insert_ne.
Qed.

Lemma bzero_spec it tr bl V O w hs b :
  fsys it tr bl V O w -> O b = None -> holds O hs -> (length bl + length hs < NBUF)%nat ->
  (length bl < Z.to_nat LOGBLOCKS)%nat -> loggable start b ->
  wpx B (bzero ROOTDEV b) (fun _ => fsys it tr (logged b bl) (<[b := zeros]> V) O) w.
Proof.
  intros HI HO Hhs Hr Hl Hlog. unfold bzero.
  wcall fsys_bread; [exact HI|done..|]. intros p w1 [HI1 _].
  wcall fsys_upd_data; [exact HI1|by rewrite fn_lookup_insert|..].
  { rewrite length_splice; [by eapply fsys_data_length|]. rewrite length_replicate.
    erewrite fsys_data_length by exact HI1. done. }
  intros _ w2 HI2.
  wcall fsys_log_write; [exact HI2|exact Hout|by rewrite fn_lookup_insert|done..|]. intros _ w3 HI3.
  eapply wpx_mono; [eapply fsys_brelse; [exact HI3|by rewrite fn_lookup_insert|]|].
  { intros Hn. destruct Hn. apply elem_logged. by left. }
  cbn beta. intros _ w4 HI4. eapply fsys_ext; [exact HI4| |intros k; by apply unlock_lock].
  intros k. destruct (decide (b = k)) as [->|Hne]; [|by rewrite !fn_lookup_insert_ne].
  rewrite !fn_lookup_insert. unfold splice. rewrite length_replicate, drop_ge, app_nil_r; [done|].
  erewrite fsys_data_length by exact HI1. done.
Qed.

(** What balloc() needs of the blocks that the caller holds. *)
Definition clear_of (O : Z -> option nat) (V : Z -> list Z) : Prop :=
  (forall b, 0 <= b < SB.(sb_size) -> O (BBLOCK b SB) = None) /\ (forall b, free SB V b -> O b = None).

(** The state after the allocation of [a]. *)
Definition alloc_map (a : Z) (V : Z -> list Z) : Z -> list Z := <[a := zeros]> (set_used SB a V).
Definition alloc_log (a : Z) (bl : list Z) : list Z := logged a (logged (BBLOCK a SB) bl).

(** The first free block, at which the scan of balloc() stops. *)
Definition first_free (V : Z -> list Z) (a : Z) : Prop :=
  free SB V a /\ forall b, 0 <= b < a -> bit SB V b = true.

Lemma balloc_take it tr bl V O w hs k bi p :
  let a := Z.of_nat k * BPB + Z.of_nat bi in
  fsys it tr bl V (<[BBLOCK a SB := Some p]> O) w -> Z.of_nat bi < BPB -> free SB V a -> bitmap_ok SB V ->
  clear_of O V -> holds O hs ->
  (length bl + length hs + 1 < NBUF)%nat -> (length bl + 1 < Z.to_nat LOGBLOCKS)%nat ->
  let m := Z.shiftl 1 (Z.of_nat bi mod 8) in
  wpx B (upd_data p (fun d => put_byte (bi / 8) (Z.lor (byte_at (bi / 8) d) m) d);;
    log_write p;; brelse p;; bzero ROOTDEV a;; mret (Some a))
    (fun r w' => r = Some a /\ fsys it tr (alloc_log a bl) (alloc_map a V) O w') w.
Proof using HG Hout.
  intros a HI Hbi [Ha Hfree] HV [Hbm HfO] Hhs Hr Hl m. assert (Hdata : data_block SB a) by (by apply HV).
  destruct (bit_at SB start HG V k bi a eq_refl Hbi ltac:(lia)) as (_ & E2 & E3 & _). unfold m. rewrite E2, E3.
  wcall fsys_upd_data; [exact HI|by rewrite fn_lookup_insert|..].
  { unfold put_byte. rewrite length_insert. by eapply fsys_data_length. }
  intros _ w1 HI1.
  wcall fsys_log_write; [exact HI1|exact Hout|by rewrite fn_lookup_insert|lia|by eapply bitmap_loggable|]. intros _ w2 HI2.
  wcall fsys_brelse; [exact HI2|by rewrite fn_lookup_insert|..].
  { intros Hn. destruct Hn. apply elem_logged. by left. }
  intros _ w3 HI3. pose proof (length_logged (BBLOCK a SB) bl).
  assert (HI3' : fsys it tr (logged (BBLOCK a SB) bl) (set_used SB a V) O w3).
  { eapply fsys_ext; [exact HI3|reflexivity|]. intros x. by apply unlock_lock, Hbm. }
  wcall bzero_spec; [exact HI3'|by apply HfO|exact Hhs|lia..|by eapply data_loggable|].
  intros _ w4 HI4. by apply wpx_ret.
Qed.

(** One block of the free map. *)
Lemma balloc_block it tr bl V O w hs k :
  fsys it tr bl V O w -> bitmap_ok SB V -> clear_of O V -> holds O hs ->
  (length bl + length hs + 1 < NBUF)%nat -> (length bl + 1 < Z.to_nat LOGBLOCKS)%nat ->
  (k < Z.to_nat ((SB.(sb_size) + BPB - 1) / BPB))%nat ->
  (forall b, 0 <= b < Z.of_nat k * BPB -> b < SB.(sb_size) -> bit SB V b = true) ->
  wpx B (p ← bread ROOTDEV (BBLOCK (Z.of_nat k * BPB) SB);
    r ← find_each (seq 0 (Z.to_nat (Z.min BPB (SB.(sb_size) - Z.of_nat k * BPB)))) (fun bi =>
      let m := Z.shiftl 1 (Z.of_nat bi mod 8) in
      x ← get_buf p;
      if Z.land (byte_at (bi / 8) x.(b_data)) m =? 0 then
        upd_data p (fun d => put_byte (bi / 8) (Z.lor (byte_at (bi / 8) d) m) d);;
        log_write p;;
        brelse p;;
        bzero ROOTDEV (Z.of_nat k * BPB + Z.of_nat bi);;
        mret (Some (Z.of_nat k * BPB + Z.of_nat bi))
      else mret None);
    match r with
    | Some a => mret (Some a)
    | None => brelse p;; mret None
    end)
    (fun r w' => match r with
      | Some a => first_free V a /\ fsys it tr (alloc_log a bl) (alloc_map a V) O w'
      | None => fsys it tr bl V O w' /\
          forall b, 0 <= b < Z.of_nat (S k) * BPB -> b < SB.(sb_size) -> bit SB V b = true end) w.
Proof using HG Hout.
  intros HI HV HC Hhs Hr Hl Hk HN. pose proof (layout_facts SB start HG) as HF.
  set (b0 := Z.of_nat k * BPB) in *. assert (Hb0 : 0 <= b0 < SB.(sb_size)).
  { unfold b0. rewrite BPB_eq in *. dlia. }
  wcall fsys_bread; [exact HI|by apply (proj1 HC)|exact Hhs|lia|]. intros p w1 [HI1 Hcl].
  eapply wpx_call; [apply (wpx_find_seq _ 0 _ _ (fun i w => fsys it tr bl V (<[BBLOCK b0 SB := Some p]> O) w /\
      forall b, 0 <= b < b0 + Z.of_nat i -> b < SB.(sb_size) -> bit SB V b = true)
    (fun r w' => match r with
      | Some a => first_free V a /\ fsys it tr (alloc_log a bl) (alloc_map a V) O w'
      | None => fsys it tr bl V (<[BBLOCK b0 SB := Some p]> O) w' /\
          forall b, 0 <= b < Z.of_nat (S k) * BPB -> b < SB.(sb_size) -> bit SB V b = true end))|].
  - split; [done|]. intros b Hb. apply HN. lia.
  - intros i w2 Hi [HI2 HN2]. cbv zeta. wcall fsys_get_buf; [exact HI2|by rewrite fn_lookup_insert|].
    intros x w3 [HI3 Hx]. rewrite Hx.
    destruct (bit_at SB start HG V k i (b0 + Z.of_nat i) eq_refl ltac:(lia) ltac:(lia)) as (E1 & _ & _ & E4).
    fold b0 in E1. rewrite E1, E4 in *. destruct (bit SB V (b0 + Z.of_nat i)) eqn:Ebit; cbn [negb].
    + apply wpx_ret. split; [done|]. intros b Hb Hs. destruct (decide (b = b0 + Z.of_nat i)); [by subst|].
      apply HN2; lia.
    + assert (Hfr : free SB V (b0 + Z.of_nat i)) by (split; [lia|done]).
      eapply wpx_mono; [eapply balloc_take; eauto; lia|]. cbn beta. intros r w4 [-> HI4]. split; [|done].
      split; [done|]. intros b Hb. apply HN2; lia.
  - intros w2 [HI2 HN2]. split; [done|]. intros b Hb Hs. apply HN2; [|done]. unfold b0. rewrite BPB_eq in *. lia.
  - intros [a|] w2 HQ; [by apply wpx_ret|]. destruct HQ as [HI2 HN2].
    wcall fsys_brelse; [exact HI2|by rewrite fn_lookup_insert|exact Hcl|]. intros _ w3 HI3. apply wpx_ret.
    split; [|done]. eapply fsys_ext; [exact HI3|done|]. intros x. apply unlock_lock. by apply (proj1 HC).
Qed.

(** balloc() hands out the first free block, marked and zeroed, or
    returns 0 with a message when no block is free. *)
Lemma balloc_spec it tr bl V O w hs :
  fsys it tr bl V O w -> bitmap_ok SB V -> clear_of O V -> holds O hs ->
  (length bl + length hs + 1 < NBUF)%nat -> (length bl + 1 < Z.to_nat LOGBLOCKS)%nat ->
  wpx B (balloc ROOTDEV) (fun r w' =>
    (first_free V r /\ fsys it tr (alloc_log r bl) (alloc_map r V) O w') \/
    (r = 0 /\ (forall b, ~ free SB V b) /\
     fsys it (tr ++ [EvPrint "balloc: out of blocks" []]) bl V O w')) w.
Proof using HG Hout.
  intros HI HV HC Hhs Hr Hl. pose proof (layout_facts SB start HG) as HF. unfold balloc.
  wcall fsys_get_sb; [exact HI|]. intros ? w1 [-> HI1].
  set (none := fun n : Z => forall b, 0 <= b < n -> b < SB.(sb_size) -> bit SB V b = true).
  eapply wpx_call; [apply (wpx_find_seq _ 0 _ _ (fun i w => fsys it tr bl V O w /\ none (Z.of_nat i * BPB))
    (fun r w' => match r with
      | Some a => first_free V a /\ fsys it tr (alloc_log a bl) (alloc_map a V) O w'
      | None => (forall b, ~ free SB V b) /\ fsys it tr bl V O w' end))|].
  - split; [done|]. intros b. lia.
  - intros k w2 Hk [HI2 HN]. eapply wpx_mono; [eapply balloc_block; [exact HI2|done|done|exact Hhs|lia..|exact HN]|].
    by intros [a|] w3 HQ.
  - intros w2 [HI2 HN]. split; [|done]. intros b [Hb Hfb]. rewrite (HN b) in Hfb; [done| |lia].
    rewrite BPB_eq in *. dlia.
  - intros [a|] w2 HQ.
    + apply wpx_ret. by left.
    + destruct HQ as [HN HI2]. wcall fsys_emit; [exact HI2|]. intros _ w3 HI3. apply wpx_ret. by right.
Qed.

(** bfree() marks the block free; a block that is free already panics. *)
Lemma bfree_bit b V : 0 <= b < SB.(sb_size) ->
  (Z.of_nat (Z.to_nat (b mod BPB)) mod 8 = b mod 8) /\ (Z.to_nat (b mod BPB) / 8)%nat = Z.to_nat (b mod BPB / 8) /\
  (Z.land (byte_at (Z.to_nat (b mod BPB) / 8) (V (BBLOCK b SB)))
    (Z.shiftl 1 (Z.of_nat (Z.to_nat (b mod BPB)) mod 8)) =? 0) = negb (bit SB V b).
Proof using HG start.
  intros Hb. pose proof (Z.mod_pos_bound b BPB ltac:(done)).
  destruct (bit_at SB start HG V (Z.to_nat (b / BPB)) (Z.to_nat (b mod BPB)) b) as (_ & E2 & E3 & E4).
  - rewrite !Z2Nat.id by (rewrite BPB_eq in *; dlia). rewrite BPB_eq in *. dlia.
  - lia.
  - lia.
  - by rewrite E4.
Qed.

Lemma bfree_spec it tr bl V O w hs b :
  fsys it tr bl V O w -> 0 <= b < SB.(sb_size) -> bit SB V b = true -> O (BBLOCK b SB) = None -> holds O hs ->
  (length bl + length hs < NBUF)%nat -> (length bl < Z.to_nat LOGBLOCKS)%nat ->
  wpx B (bfree ROOTDEV b) (fun _ => fsys it tr (logged (BBLOCK b SB) bl) (clear_used SB b V) O) w.
Proof using HG Hout.
  intros HI Hb Hbit HO Hhs Hr Hl. destruct (bfree_bit b V Hb) as (E1 & E2 & E3). unfold bfree.
  wcall fsys_get_sb; [exact HI|]. intros ? w1 [-> HI1].
  wcall fsys_bread; [exact HI1|done|exact Hhs|lia|]. intros p w2 [HI2 _]. cbv zeta.
  wcall fsys_get_buf; [exact HI2|by rewrite fn_lookup_insert|]. intros x w3 [HI3 Hx].
  rewrite Hx, E3, Hbit, E1, E2. cbn [negb].
  wcall fsys_upd_data; [exact HI3|by rewrite fn_lookup_insert|..].
  { unfold put_byte. rewrite length_insert. by eapply fsys_data_length. }
  intros _ w4 HI4.
  wcall fsys_log_write; [exact HI4|exact Hout|by rewrite fn_lookup_insert|lia|by eapply bitmap_loggable|]. intros _ w5 HI5.
  eapply wpx_mono; [eapply fsys_brelse; [exact HI5|by rewrite fn_lookup_insert|]|].
  { intros Hn. destruct Hn. apply elem_logged. by left. }
  cbn beta. intros _ w6 HI6. eapply fsys_ext; [exact HI6|reflexivity|]. intros k. by apply unlock_lock.
Qed.

End ops.
