(* ===== verification/FsInode.v ===== *)
(** * Inodes on the disk: iupdate() and ilock()

    The encoding of [struct dinode] in a block, and the two operations that
    copy an inode to the disk and back. *)

From stdpp Require Import functions.
From S2P Require Import Prelude Memory Riscv Machine Spinlock Kalloc Vm Sched Sleeplock Dyn Bytes Ring Bio Bcache Log Dstate LogSpec Crash Fs FsState FsAlloc.

(** ** The encoding *)

Definition short (v : Z) : Prop := - 2 ^ 15 <= v < 2 ^ 15.

(** The fields of an inode fit their C types. *)
Record inode_typed (x : inode) : Prop := {
  ty_type : short x.(i_type);
  ty_major : short x.(i_major);
  ty_minor : short x.(i_minor);
  ty_nlink : short x.(i_nlink);
  ty_size : 0 <= x.(i_size) < 2 ^ 32;
  ty_addrs : length x.(i_addrs) = 13%nat;
  ty_addr a : a ∈ x.(i_addrs) -> 0 <= a < 2 ^ 32
}.

(** ilock()'s assignments from [*dip]. *)
Definition load_dinode (o : nat) (d : list Z) (x : inode) : inode :=
  set_i_addrs (di_addrs o d) (set_i_size (di_size o d) (set_i_nlink (di_nlink o d)
    (set_i_minor (di_minor o d) (set_i_major (di_major o d) (set_i_type (di_type o d) x))))).

Lemma s16_u16 v : short v -> s16 (u16 v) = v.
Proof.
  unfold short, s16, u16. intros H. change (2 ^ 15) with 32768 in *. change (2 ^ 16) with 65536. dlia.
Qed.

Lemma slice_put32_ne off v l k n : (off + 4 <= length l)%nat -> (k + n <= off \/ off + 4 <= k)%nat ->
  slice k n (put32 off v l) = slice k n l.
Proof. intros. unfold put32. by rewrite slice_splice_ne by (rewrite ?length_le_bytes; lia). Qed.

Lemma slice_put16_ne off v l k n : (off + 2 <= length l)%nat -> (k + n <= off \/ off + 2 <= k)%nat ->
  slice k n (put16 off v l) = slice k n l.
Proof. intros. unfold put16. by rewrite slice_splice_ne by (rewrite ?length_le_bytes; lia). Qed.

Lemma put_addrs_prefix o (addrs : list Z) d n : (o + 12 + 4 * n <= length d)%nat ->
  let d' := foldl (fun d i => put32 (o + 12 + 4 * i) (addrs !!! i) d) d (seq 0 n) in
  length d' = length d /\
  (forall i, (i < n)%nat -> get32 (o + 12 + 4 * i) d' = u32 (addrs !!! i)) /\
  (forall k m, (k + m <= o + 12 \/ o + 12 + 4 * n <= k)%nat -> slice k m d' = slice k m d).
Proof.
  intros Hl. induction n as [|n IH]; intros d'.
  - split_and!; [done|lia|done].
  - destruct IH as (IH1 & IH2 & IH3); [lia|]. unfold d'. rewrite seq_S, foldl_app. cbn [foldl Nat.add].
    set (e := foldl _ _ _) in *. split_and!.
    + rewrite length_put32; lia.
    + intros i Hi. destruct (decide (i = n)) as [->|Hne]; [apply get32_put32; lia|].
      rewrite get32_put32_ne by lia. apply IH2. lia.
    + intros k m Hk. rewrite slice_put32_ne by lia. apply IH3. lia.
Qed.

Section codec.
Context (o : nat) (x : inode) (d : list Z) (Hl : (o + 64 <= length d)%nat).

#[local] Ltac lens := repeat (rewrite length_put32 || rewrite length_put16); lia.

Lemma length_put_dinode : length (put_dinode o x d) = length d.
Proof using Hl. unfold put_dinode, put_addrs. edestruct put_addrs_prefix as (-> & _); lens. Qed.

(** Nothing outside of the 64 bytes changes. *)
Lemma slice_put_dinode k m : (k + m <= o \/ o + 64 <= k)%nat -> slice k m (put_dinode o x d) = slice k m d.
Proof using Hl.
  intros Hk. unfold put_dinode, put_addrs.
  set (d1 := put32 (o + 8) _ _). assert (L1 : length d1 = length d) by (unfold d1; lens).
  destruct (put_addrs_prefix o (i_addrs x) d1 13) as (_ & _ & E); [lia|]. rewrite E by lia. unfold d1.
  rewrite slice_put32_ne by (lens || lia). by rewrite !slice_put16_ne by (lens || lia).
Qed.

Lemma load_put_dinode y : inode_typed x ->
  load_dinode o (put_dinode o x d) y =
    set_i_addrs x.(i_addrs) (set_i_size x.(i_size) (set_i_nlink x.(i_nlink) (set_i_minor x.(i_minor)
      (set_i_major x.(i_major) (set_i_type x.(i_type) y))))).
Proof using Hl.
  intros [T1 T2 T3 T4 T5 T6 T7]. unfold load_dinode, put_dinode, put_addrs.
  set (d1 := put32 (o + 8) _ _). assert (L1 : length d1 = length d) by (unfold d1; lens).
  edestruct (put_addrs_prefix o (i_addrs x) d1 13) as (_ & E1 & E2); [lia|].
  set (d2 := foldl _ _ _) in *.
  assert (Eh : forall k m, (k + m <= o + 12)%nat -> slice k m d2 = slice k m d1) by (intros; apply E2; lia).
  assert (D2 : forall k, (k + 2 <= o + 12)%nat -> get16 k d2 = get16 k d1) by (intros; unfold get16; by rewrite Eh by lia).
  assert (Es : get32 (o + 8) d2 = i_size x).
  { unfold get32. rewrite Eh by lia. etrans; [apply get32_put32; lens|]. by apply u32_small. }
  assert (Ea : di_addrs o d2 = i_addrs x).
  { unfold di_addrs. apply list_eq. intros j. rewrite list_lookup_fmap. destruct (decide (j < 13)%nat) as [Hj|Hj].
    - rewrite (lookup_seq_lt 0 13 j Hj). cbn [fmap option_fmap option_map Nat.add]. rewrite E1 by done.
      destruct (lookup_lt_is_Some_2 (i_addrs x) j) as [a Ha]; [lia|].
      rewrite (list_lookup_total_correct _ _ _ Ha), Ha. f_equal. apply u32_small, T7. by eapply list_elem_of_lookup_2.
    - rewrite lookup_seq_ge, lookup_ge_None_2 by lia. done. }
  unfold di_size, di_nlink, di_minor, di_major, di_type. rewrite Ea, Es, !D2 by lia.
  assert (D1 : forall k, (k + 2 <= o + 8)%nat -> get16 k d1 = get16 k (put16 (o + 6) (i_nlink x)
    (put16 (o + 4) (i_minor x) (put16 (o + 2) (i_major x) (put16 o (i_type x) d))))).
  { intros k Hk. unfold get16, d1. rewrite slice_put32_ne; [done|lens|lia]. }
  rewrite !D1 by lia. rewrite get16_put16, !(get16_put16_ne (o + 6)) by (lens || lia).
  rewrite get16_put16, !(get16_put16_ne (o + 4)) by (lens || lia).
  rewrite get16_put16, !(get16_put16_ne (o + 2)) by (lens || lia).
  rewrite get16_put16 by (lens || lia). by rewrite !s16_u16.
Qed.

End codec.

(** ** Inode blocks *)

Section blocks.
Context (sb : superblock) (start : Z) (HG : layout sb start).

Lemma IBLOCK_range i : 0 <= i < sb.(sb_ninodes) -> sb.(sb_inodestart) <= IBLOCK i sb < sb.(sb_bmapstart).
Proof using HG start.
  intros Hi. pose proof (layout_facts sb start HG). destruct HG as [_ _ _ A4 _ _].
  assert (i / IPB <= sb_ninodes sb / IPB) by (apply Z.div_le_mono; [done|lia]).
  assert (0 <= i / IPB) by (apply Z.div_pos; [lia|done]).
  unfold IBLOCK. rewrite u32_small; [lia|]. change (2 ^ 32) with 4294967296. dlia.
Qed.

Lemma inode_loggable i : 0 <= i < sb.(sb_ninodes) -> loggable start (IBLOCK i sb).
Proof using HG.
  intros Hi. pose proof (IBLOCK_range i Hi). pose proof (layout_facts sb start HG).
  split; [dlia|]. unfold home. rewrite LOGBLOCKS_eq. lia.
Qed.

Lemma dinode_fits i : (dinode_off i + 64 <= bsize)%nat.
Proof. unfold dinode_off, bsize, BSIZE. pose proof (Z.mod_pos_bound i IPB ltac:(done)). change IPB with 16 in *. lia. Qed.

End blocks.

(** ** iupdate(), ilock() and iunlock() *)

(** The contents of the blocks after iupdate(). *)
Definition update_map (sb : superblock) (x : inode) (V : Z -> list Z) : Z -> list Z :=
  <[IBLOCK x.(i_inum) sb := put_dinode (dinode_off x.(i_inum)) x (V (IBLOCK x.(i_inum) sb))]> V.

(** The inode as ilock() loads it. *)
Definition loaded (sb : superblock) (V : Z -> list Z) (x : inode) : inode :=
  if x.(i_valid) =? 0
  then set_i_valid 1 (load_dinode (dinode_off x.(i_inum)) (V (IBLOCK x.(i_inum) sb)) x) else x.

(** What the disk has of an inode. *)
Definition on_disk (x y : inode) : Prop :=
  x.(i_type) = y.(i_type) /\ x.(i_major) = y.(i_major) /\ x.(i_minor) = y.(i_minor) /\
  x.(i_nlink) = y.(i_nlink) /\ x.(i_size) = y.(i_size) /\ x.(i_addrs) = y.(i_addrs).

(** ilock() keeps what the disk does not have. *)
Lemma loaded_keeps sb V x : (loaded sb V x).(i_dev) = x.(i_dev) /\ (loaded sb V x).(i_inum) = x.(i_inum) /\
  (loaded sb V x).(i_ref) = x.(i_ref).
Proof. unfold loaded. by destruct (_ =? _). Qed.

Definition locked_by (pid : Z) (x : inode) : inode := set_i_lock (Sleeplock 1 x.(i_lock).(sl_name) pid) x.
Definition iunlocked (x : inode) : inode := set_i_lock (Sleeplock 0 x.(i_lock).(sl_name) 0) x.

Section ops.
Context (pid : Z) (h0 : hart) (env : list turn) (s : kstate) (B : world -> Prop).
Context (L : gmap Z spinlock) (P : list proc) (SB : superblock) (start : Z) (d : gmap Z (list Z)) (out : Z).
Context (HG : layout SB start).

#[local] Abbreviation fsys := (FsState.fsys pid h0 env s L P SB start d out).

Lemma iupdate_spec it tr bl V w i x :
  1 <= out -> fsys it tr bl V nolocks w -> it !! i = Some x -> x.(i_dev) = ROOTDEV -> 0 <= x.(i_inum) < SB.(sb_ninodes) ->
  (length bl < NBUF)%nat ->
  wpx B (iupdate i) (fun _ => fsys it tr (logged (IBLOCK x.(i_inum) SB) bl) (update_map SB x V) nolocks) w.
Proof using HG.
  intros Hout HI Hx Hd Hi Hr. unfold iupdate.
  wcall fsys_get_inode; [exact HI|exact Hx|]. intros ? w1 [-> HI1]. rewrite Hd.
  wcall fsys_get_sb; [exact HI1|]. intros ? w2 [-> HI2].
  wcall fsys_bread; [exact HI2|done|apply holds_nolocks|cbn; lia|]. intros p w3 [HI3 _].
  wcall fsys_upd_data; [exact HI3|by rewrite fn_lookup_insert|..].
  { rewrite length_put_dinode; erewrite fsys_data_length by exact HI3; [done|apply dinode_fits]. }
  intros _ w4 HI4.
  wcall fsys_log_write; [exact HI4|exact Hout|by rewrite fn_lookup_insert|exact Hr|by eapply inode_loggable|]. intros _ w5 HI5.
  eapply wpx_mono; [eapply fsys_brelse; [exact HI5|by rewrite fn_lookup_insert|]|].
  { intros Hn. destruct Hn. apply elem_logged. by left. }
  cbn beta. intros _ w6 HI6. eapply fsys_ext; [exact HI6|reflexivity|]. intros k. by apply unlock_lock.
Qed.

Lemma iload_spec it tr bl V w i x :
  fsys it tr bl V nolocks w -> it !! i = Some x -> x.(i_dev) = ROOTDEV -> (length bl < NBUF)%nat ->
  wpx B (iload i x) (fun _ => fsys (<[i := set_i_valid 1
    (load_dinode (dinode_off x.(i_inum)) (V (IBLOCK x.(i_inum) SB)) x)]> it) tr bl V nolocks) w.
Proof.
  intros HI Hx Hd Hr. unfold iload. assert (Hlt : (i < length it)%nat) by (by eapply lookup_lt_Some).
  assert (Hx2 : forall y, (<[i := y]> it) !! i = Some y) by (intros; by apply list_lookup_insert_eq).
  wcall fsys_get_sb; [exact HI|]. intros ? w1 [-> HI1]. rewrite Hd.
  wcall fsys_bread; [exact HI1|done|apply holds_nolocks|cbn; lia|]. intros p w2 [HI2 Hcl].
  wcall fsys_get_buf; [exact HI2|by rewrite fn_lookup_insert|]. intros y w3 [HI3 Hy]. cbv zeta. rewrite Hy.
  wcall fsys_upd_inode; [exact HI3|exact Hx|]. intros _ w4 HI4.
  do 5 (wcall fsys_upd_inode; [eassumption|apply Hx2|]; intros _ ? ?HI'; rewrite list_insert_insert_eq in *).
  wcall fsys_brelse; [eassumption|by rewrite fn_lookup_insert|exact Hcl|]. intros _ w5 HI5.
  eapply wpx_mono; [eapply fsys_upd_inode; [exact HI5|apply Hx2]|]. cbn beta. intros _ w6 HI6.
  rewrite list_insert_insert_eq in HI6. eapply fsys_ext; [exact HI6|done|]. intros k. by apply unlock_lock.
Qed.

Lemma ilock_spec it tr bl V w i x :
  fsys it tr bl V nolocks w -> it !! i = Some x -> (i < NINODE)%nat -> 1 <= x.(i_ref) -> x.(i_lock).(sl_locked) = 0 ->
  x.(i_dev) = ROOTDEV -> (length bl < NBUF)%nat ->
  (x.(i_valid) = 0 -> (loaded SB V x).(i_type) <> 0) ->
  wpx B (ilock (Some i)) (fun _ => fsys (<[i := locked_by pid (loaded SB V x)]> it) tr bl V nolocks) w.
Proof.
  intros HI Hx Hi Href Hfree Hd Hr Hty. unfold ilock. assert (Hlt : (i < length it)%nat) by (by eapply lookup_lt_Some).
  wcall fsys_get_inode; [exact HI|exact Hx|]. intros ? w1 [-> HI1]. rewrite (proj2 (Z.ltb_ge _ _)) by done.
  wcall fsys_acquiresleep; [exact HI1|exact Hx|done|done|]. intros _ w2 HI2. fold (locked_by pid x) in HI2.
  assert (Hx2 : forall y, (<[i := y]> it) !! i = Some y) by (intros; by apply list_lookup_insert_eq).
  wcall fsys_get_inode; [exact HI2|apply Hx2|]. intros ? w3 [-> HI3].
  unfold loaded in *. change (i_valid (locked_by pid x)) with (i_valid x). destruct (i_valid x =? 0) eqn:Ev.
  2:{ apply wpx_when; [done|]. by intros _. }
  apply wpx_when; [intros _|done]. specialize (Hty ltac:(lia)).
  wcall iload_spec; [exact HI3|apply Hx2|exact Hd|exact Hr|]. intros _ w4 HI4. rewrite list_insert_insert_eq in HI4.
  wcall fsys_get_inode; [exact HI4|apply Hx2|]. intros ? w5 [-> HI5].
  apply wpx_when; [intros E; exfalso; by apply Hty, Z.eqb_eq|]. intros _. exact HI5.
Qed.

Lemma iunlock_spec it tr bl V w i x :
  fsys it tr bl V nolocks w -> it !! i = Some x -> (i < NINODE)%nat -> 1 <= x.(i_ref) ->
  x.(i_lock).(sl_locked) = 1 -> x.(i_lock).(sl_pid) = pid ->
  wpx B (iunlock (Some i)) (fun _ => fsys (<[i := iunlocked x]> it) tr bl V nolocks) w.
Proof.
  intros HI Hx Hi Href H1 H2. unfold iunlock.
  wcall fsys_holdingsleep; [exact HI|exact Hx|done..|]. intros ? w1 [-> HI1]. cbn [negb].
  wcall fsys_get_inode; [exact HI1|exact Hx|]. intros ? w2 [-> HI2]. rewrite (proj2 (Z.ltb_ge _ _)) by done.
  by apply fsys_releasesleep.
Qed.

End ops.

(** An inode that the disk does not have. *)
Lemma ilock_no_type pid h0 env s L P SB start d out it tr bl V w i x :
  fsys pid h0 env s L P SB start d out it tr bl V nolocks w -> it !! i = Some x -> (i < NINODE)%nat -> 1 <= x.(i_ref) -> x.(i_lock).(sl_locked) = 0 ->
  x.(i_dev) = ROOTDEV -> (length bl < NBUF)%nat -> x.(i_valid) = 0 -> (loaded SB V x).(i_type) = 0 ->
  ilock (Some i) w = Panic "ilock: no type".
Proof.
  intros HI Hx Hi Href Hfree Hd Hr Hv Hty. assert (Hlt : (i < length it)%nat) by (by eapply lookup_lt_Some).
  assert (Hx2 : forall y, (<[i := y]> it) !! i = Some y) by (intros; by apply list_lookup_insert_eq).
  destruct (wp_run _ _ _ (fsys_get_inode _ _ _ _ (fun _ => False) _ _ _ _ _ _ _ _ _ _ _ _ i x HI Hx)) as (? & w1 & R1 & -> & HI1).
  destruct (wp_run _ _ _ (fsys_acquiresleep _ _ _ _ (fun _ => False) _ _ _ _ _ _ _ _ _ _ _ _ i x HI1 Hx Hi Hfree)) as (? & w2 & R2 & HI2).
  destruct (wp_run _ _ _ (fsys_get_inode _ _ _ _ (fun _ => False) _ _ _ _ _ _ _ _ _ _ _ _ i _ HI2 (Hx2 _))) as (? & w3 & R3 & -> & HI3).
  destruct (wp_run _ _ _ (iload_spec _ _ _ _ (fun _ => False) _ _ _ _ _ _ _ _ _ _ _ i _ HI3 (Hx2 _) Hd Hr)) as (? & w4 & R4 & HI4).
  rewrite list_insert_insert_eq in HI4.
  destruct (wp_run _ _ _ (fsys_get_inode _ _ _ _ (fun _ => False) _ _ _ _ _ _ _ _ _ _ _ _ i _ HI4 (Hx2 _))) as (? & w5 & R5 & -> & HI5).
  unfold ilock. erewrite bind_run by exact R1. rewrite (proj2 (Z.ltb_ge _ _)) by done.
  erewrite bind_run by exact R2. erewrite bind_run by exact R3. cbn [i_valid set_i_lock]. rewrite Hv. cbn [Z.eqb when].
  erewrite bind_run by exact R4. erewrite bind_run by exact R5.
  unfold loaded in Hty. rewrite Hv in Hty. cbn [Z.eqb] in Hty.
  change (i_type _) with (i_type (load_dinode (dinode_off (i_inum x)) (V (IBLOCK (i_inum x) SB)) x)).
  change (i_type (set_i_valid _ ?y)) with (i_type y) in Hty. by rewrite Hty.
Qed.
