(* ===== verification/FsTable.v ===== *)
(** * The inode table: iget(), idup() and iput()

    Entries of the table are shared: an inode has at most one entry, and the
    reference count of an entry is the number of pointers to it. *)

From stdpp Require Import functions.
From S2P Require Import Prelude Memory Riscv Machine Spinlock Kalloc Vm Sched Sleeplock Dyn Bytes Ring Bio Bcache Log Dstate LogSpec Crash Fs FsState FsAlloc FsInode.

(** At most one entry for an inode. *)
Record itable_ok (it : list inode) : Prop := {
  tab_len : length it = NINODE;
  tab_ref i x : it !! i = Some x -> 0 <= x.(i_ref);
  tab_uniq i j x y : it !! i = Some x -> it !! j = Some y -> 0 < x.(i_ref) -> 0 < y.(i_ref) ->
    x.(i_dev) = y.(i_dev) -> x.(i_inum) = y.(i_inum) -> i = j
}.

(** A change that keeps the identity of an entry in use. *)
Lemma itable_ok_keep it i x x' :
  itable_ok it -> it !! i = Some x -> 0 < x.(i_ref) -> 0 <= x'.(i_ref) -> x'.(i_dev) = x.(i_dev) ->
  x'.(i_inum) = x.(i_inum) -> itable_ok (<[i := x']> it).
Proof.
  intros [T1 T2 T3] Hx Hr Hr' Hd Hn. split; [by rewrite length_insert|..].
  - intros j y [(<- & <- & _)|[_ Hy]]%list_lookup_insert_Some; [done|eauto].
  - intros j k y z [(<- & <- & _)|[Hj Hy]]%list_lookup_insert_Some [(<- & <- & _)|[Hk Hz]]%list_lookup_insert_Some; eauto.
    + intros _ ? ? ?. eapply (T3 i k x z); congruence.
    + intros ? _ ? ?. eapply (T3 j i y x); congruence.
Qed.

(** The entry that iget() takes or fills. *)
Definition found (it : list inode) (dev inum : Z) (i : nat) : Prop :=
  exists x, it !! i = Some x /\ 0 < x.(i_ref) /\ x.(i_dev) = dev /\ x.(i_inum) = inum.

Definition fresh_entry (dev inum : Z) (x : inode) : inode :=
  set_i_valid 0 (set_i_ref 1 (set_i_inum inum (set_i_dev dev x))).

Definition got (it : list inode) (dev inum : Z) (i : nat) : list inode :=
  match it !! i with
  | Some x => if 0 <? x.(i_ref) then <[i := set_i_ref (s32 (x.(i_ref) + 1)) x]> it
              else <[i := fresh_entry dev inum x]> it
  | None => it
  end.

Lemma iget_scan_hit it dev inum : itable_ok it ->
  match iget_scan dev inum it with
  | (Some i, _) => found it dev inum i
  | (None, Some i) => (forall j, ~ found it dev inum j) /\ exists x, it !! i = Some x /\ x.(i_ref) = 0
  | (None, None) => (forall j, ~ found it dev inum j) /\ forall j x, it !! j = Some x -> 0 < x.(i_ref)
  end.
Proof.
  intros HT. unfold iget_scan. destruct (find_index _ it) as [i|] eqn:E1.
  - apply find_index_Some in E1 as (x & Hx & Hf & _). exists x. rewrite !andb_true_iff in Hf.
    destruct Hf as [[H1 H2] H3]. split_and!; [done|lia..].
  - assert (Hn : forall j, ~ found it dev inum j).
    { intros j (x & Hx & Hr & Hd & Hi). rewrite find_index_None in E1. specialize (E1 j x Hx).
      rewrite !andb_false_iff in E1. lia. }
    destruct (find_index (fun x => i_ref x =? 0) it) as [i|] eqn:E2.
    + apply find_index_Some in E2 as (x & Hx & Hf & _). split; [done|]. exists x. split; [done|lia].
    + split; [done|]. intros j x Hx. rewrite find_index_None in E2. specialize (E2 j x Hx).
      pose proof (tab_ref _ HT j x Hx). lia.
Qed.

Lemma got_ok it dev inum i :
  itable_ok it ->
  found it dev inum i /\ (forall x, it !! i = Some x -> x.(i_ref) < 2 ^ 31 - 1) \/
  (forall j, ~ found it dev inum j) /\ (exists x, it !! i = Some x /\ x.(i_ref) = 0) ->
  itable_ok (got it dev inum i) /\ found (got it dev inum i) dev inum i /\
  (forall j, j <> i -> got it dev inum i !! j = it !! j) /\
  (forall x, it !! i = Some x -> exists x', got it dev inum i !! i = Some x' /\ x'.(i_ref) = x.(i_ref) + 1).
Proof.
  intros HT Hc. unfold got. destruct Hc as [[(x & Hx & Hr & Hd & Hn) Hmax]|[Hno (x & Hx & Hr)]]; rewrite Hx.
  - specialize (Hmax x Hx). rewrite (proj2 (Z.ltb_lt _ _)) by done. rewrite s32_small by lia.
    assert (Hlt : (i < length it)%nat) by (by eapply lookup_lt_Some).
    split_and!.
    + eapply itable_ok_keep; [done|done|done|cbn; lia|done|done].
    + exists (set_i_ref (i_ref x + 1) x). rewrite list_lookup_insert_eq by done. split_and!; [done|cbn; lia|done|done].
    + intros j Hj. by rewrite list_lookup_insert_ne by done.
    + intros y [= <-]. eexists. rewrite list_lookup_insert_eq by done. split; [done|]. done.
  - rewrite (proj2 (Z.ltb_ge _ _)) by lia. assert (Hlt : (i < length it)%nat) by (by eapply lookup_lt_Some).
    split_and!.
    + destruct HT as [T1 T2 T3]. split; [by rewrite length_insert|..].
      * intros j y [(<- & <- & _)|[_ Hy]]%list_lookup_insert_Some; [cbn; lia|eauto].
      * intros j k y z [(<- & <- & _)|[Hj Hy]]%list_lookup_insert_Some [(<- & <- & _)|[Hk Hz]]%list_lookup_insert_Some; eauto.
        -- intros _ Hz0 Hd Hi. destruct (Hno k). exists z. split_and!; auto.
        -- intros Hy0 _ Hd Hi. destruct (Hno j). exists y. split_and!; auto.
    + exists (fresh_entry dev inum x). rewrite list_lookup_insert_eq by done. split_and!; [done|cbn; lia|done|done].
    + intros j Hj. by rewrite list_lookup_insert_ne by done.
    + intros y [= <-]. eexists. rewrite list_lookup_insert_eq by done. split; [done|]. cbn. lia.
Qed.

Lemma bind_mret_tt {W} (m : M W unit) w : (m;; mret tt) w = m w.
Proof. unfold mbind, M_bind, mret, M_ret. by destruct (m w) as [[]| | |]. Qed.

Section ops.
Context (pid : Z) (h0 : hart) (env : list turn) (s : kstate) (B : world -> Prop).
Context (L : gmap Z spinlock) (P : list proc) (SB : superblock) (start : Z) (d : gmap Z (list Z)) (out : Z).

#[local] Abbreviation fsys := (FsState.fsys pid h0 env s L P SB start d out).

(** The effect of upd_inode() on the storage layers. *)
Lemma upd_inode_run h tr D i x f :
  D.(d_itable) !! i = Some x ->
  upd_inode i f (World h env tr (dset D s)) = Ret tt (World h env tr (dset (set_d_itable (<[i := f x]> D.(d_itable)) D) s)).
Proof.
  intros Hx. unfold upd_inode, modk, modify, set_w_st. cbn. rewrite (alter_as_insert _ _ _ _ Hx). done.
Qed.

Lemma iget_spec it tr bl V O w dev inum :
  fsys it tr bl V O w -> itable_ok it -> (forall i x, it !! i = Some x -> x.(i_ref) < 2 ^ 31 - 1) ->
  (exists i x, it !! i = Some x /\ x.(i_ref) = 0) ->
  wpx B (iget dev inum) (fun i w' => fsys (got it dev inum i) tr bl V O w' /\
    ((found it dev inum i) \/ (forall j, ~ found it dev inum j) /\ exists x, it !! i = Some x /\ x.(i_ref) = 0)) w.
Proof.
  intros HI HT Hmax (i0 & x0 & Hx0 & Hr0). pose proof (iget_scan_hit it dev inum HT) as Hs. unfold iget.
  destruct (iget_scan dev inum it) as [[i|] o] eqn:Es; [|destruct o as [i|]].
  - eapply wpx_mono; [apply (fsys_itable _ _ _ _ _ _ _ _ _ _ _ it (got it dev inum i) _ _ _ _ _ _ i HI)|].
    + intros h D Hit. erewrite bind_run by reflexivity. change (itable (w_st _)) with D.(d_itable). rewrite Hit, Es.
      destruct Hs as (x & Hx & Hr & _). rewrite <-Hit in Hx.
      erewrite bind_run by (by apply upd_inode_run). unfold got. rewrite <-Hit, Hx, (proj2 (Z.ltb_lt _ _)) by done. done.
    + cbn beta. intros r w' [-> HI']. split; [done|by left].
  - eapply wpx_mono; [apply (fsys_itable _ _ _ _ _ _ _ _ _ _ _ it (got it dev inum i) _ _ _ _ _ _ i HI)|].
    + intros h D Hit. erewrite bind_run by reflexivity. change (itable (w_st _)) with D.(d_itable). rewrite Hit, Es.
      destruct Hs as (_ & x & Hx & Hr). rewrite <-Hit in Hx. assert (Hlt : (i < length D.(d_itable))%nat) by (by eapply lookup_lt_Some).
      do 4 (erewrite bind_run by (apply upd_inode_run; cbn [d_itable set_d_itable]; first [exact Hx|by apply list_lookup_insert_eq; rewrite ?length_insert]);
        cbn [d_itable set_d_itable]; rewrite ?list_insert_insert_eq).
      unfold got. rewrite <-Hit, Hx, (proj2 (Z.ltb_ge _ _)) by lia. by destruct D.
    + cbn beta. intros r w' [-> HI']. split; [done|by right].
  - exfalso. destruct Hs as [_ Hs]. specialize (Hs i0 x0 Hx0). lia.
Qed.

Lemma idup_spec it tr bl V O w i x :
  fsys it tr bl V O w -> it !! i = Some x ->
  wpx B (idup i) (fun r w' => r = i /\ fsys (<[i := set_i_ref (s32 (x.(i_ref) + 1)) x]> it) tr bl V O w') w.
Proof.
  intros HI Hx. unfold idup. apply (fsys_itable _ _ _ _ _ _ _ _ _ _ _ it _ _ _ _ _ _ _ i HI).
  intros h D Hit. rewrite <-Hit in Hx |- *. by erewrite bind_run by (by apply upd_inode_run).
Qed.

(** iput() of a reference that is not the last one to an inode without
    links. *)
Lemma iput_spec it tr bl V O w i x :
  fsys it tr bl V O w -> it !! i = Some x ->
  (x.(i_ref) =? 1) && ztrue x.(i_valid) && (x.(i_nlink) =? 0) = false ->
  wpx B (iput i) (fun _ => fsys (<[i := set_i_ref (s32 (x.(i_ref) - 1)) x]> it) tr bl V O) w.
Proof.
  intros HI Hx Hc. unfold iput.
  eapply wpx_mono; [apply (fsys_itable _ _ _ _ _ _ _ _ _ _ _ it (<[i := set_i_ref (s32 (x.(i_ref) - 1)) x]> it) _ _ _ _ _ _ tt HI)|].
  - intros h D Hit. rewrite <-Hit in Hx |- *. unfold get_inode.
    erewrite bind_run; [|erewrite bind_run by reflexivity; change (itable (w_st _)) with D.(d_itable); rewrite Hx; reflexivity].
    rewrite Hc. cbn [when]. erewrite bind_run by reflexivity.
    erewrite bind_run by (by apply upd_inode_run). by rewrite bind_mret_tt.
  - cbn beta. by intros [] w' [_ HI'].
Qed.

Lemma iunlockput_spec it tr bl V w i x :
  fsys it tr bl V nolocks w -> it !! i = Some x -> (i < NINODE)%nat -> 1 <= x.(i_ref) ->
  x.(i_lock).(sl_locked) = 1 -> x.(i_lock).(sl_pid) = pid -> x.(i_nlink) <> 0 ->
  wpx B (iunlockput i) (fun _ => fsys (<[i := set_i_ref (s32 (x.(i_ref) - 1)) (iunlocked x)]> it) tr bl V nolocks) w.
Proof.
  intros HI Hx Hi Hr Hl Hp Hn. assert (Hlt : (i < length it)%nat) by (by eapply lookup_lt_Some). unfold iunlockput.
  wcall iunlock_spec; [exact HI|exact Hx|done..|]. intros _ w1 HI1.
  eapply wpx_mono; [eapply iput_spec; [exact HI1|by apply list_lookup_insert_eq|]|].
  { change (i_nlink _) with (i_nlink x). by rewrite (proj2 (Z.eqb_neq _ _) Hn), andb_false_r. }
  cbn beta. intros _ w2 HI2. by rewrite list_insert_insert_eq in HI2.
Qed.

End ops.

(** ** References are counted *)

(** A use of the table: get an inode, duplicate or drop the [k]th pointer. *)
Inductive iop := OGet (dev inum : Z) | ODup (k : nat) | OPut (k : nat).

(** The pointers that are held while the operations run. *)
Fixpoint run_iops (ops : list iop) (hs : list nat) : K (list nat) :=
  match ops with
  | [] => mret hs
  | OGet dev inum :: ops => i ← iget dev inum; run_iops ops (i :: hs)
  | ODup k :: ops =>
      match hs !! k with
      | Some i => j ← idup i; run_iops ops (j :: hs)
      | None => run_iops ops hs
      end
  | OPut k :: ops =>
      match hs !! k with
      | Some i => iput i;; run_iops ops (delete k hs)
      | None => run_iops ops hs
      end
  end.

Definition pointers (i : nat) (hs : list nat) : Z := Z.of_nat (count_occ Nat.eq_dec hs i).

(** The reference count of every entry is the number of pointers to it. *)
Definition counted (it : list inode) (hs : list nat) : Prop :=
  (forall i, i ∈ hs -> (i < length it)%nat) /\ forall i x, it !! i = Some x -> x.(i_ref) = pointers i hs.

(** No inode is waiting for its last reference to be truncated. *)
Definition linked (it : list inode) : Prop := forall i x, it !! i = Some x -> x.(i_valid) = 0 \/ x.(i_nlink) <> 0.

Lemma pointers_cons i j hs : pointers i (j :: hs) = (if decide (j = i) then 1 else 0) + pointers i hs.
Proof. unfold pointers. cbn. destruct (Nat.eq_dec j i), (decide (j = i)); done || lia. Qed.

Lemma pointers_le i hs : 0 <= pointers i hs <= Z.of_nat (length hs).
Proof. unfold pointers. pose proof (count_occ_bound Nat.eq_dec i hs). lia. Qed.

Lemma pointers_delete i k j hs : hs !! k = Some j -> pointers i hs = (if decide (j = i) then 1 else 0) + pointers i (delete k hs).
Proof.
  intros Hk. rewrite <-pointers_cons. unfold pointers. f_equal. apply Permutation_count_occ.
  by apply delete_Permutation.
Qed.

(** A change of the reference count of one entry. *)
Lemma counted_insert it i x hs hs' n :
  counted it hs -> it !! i = Some x -> x.(i_ref) = n ->
  (forall j, j ∈ hs' -> j = i \/ j ∈ hs) ->
  (forall j, j <> i -> pointers j hs' = pointers j hs) ->
  forall it' x', it' !! i = Some x' -> x'.(i_ref) = pointers i hs' -> length it' = length it ->
  (forall j, j <> i -> it' !! j = it !! j) -> counted it' hs'.
Proof.
  intros [C1 C2] Hx Hn Hsub Hp it' x' Hx' Hr Hl Hj. split.
  - intros j Hj'. rewrite Hl. destruct (Hsub j Hj') as [-> | ?]; [by eapply lookup_lt_Some|auto].
  - intros j y Hy. destruct (decide (j = i)) as [->|Hne]; [congruence|].
    rewrite Hj in Hy by done. rewrite Hp by done. by apply C2.
Qed.

Lemma free_entry it hs : itable_ok it -> counted it hs -> (length hs < NINODE)%nat ->
  exists i x, it !! i = Some x /\ x.(i_ref) = 0.
Proof.
  intros HT [C1 C2] Hl. destruct (find_index (fun x => i_ref x =? 0) it) as [i|] eqn:E.
  - apply find_index_Some in E as (x & Hx & Hf & _). exists i, x. split; [done|lia].
  - exfalso. rewrite find_index_None in E. assert (Hs : seq 0 NINODE ⊆+ hs).
    { apply NoDup_submseteq; [apply NoDup_seq|]. intros i Hi%elem_of_seq.
      destruct (lookup_lt_is_Some_2 it i) as [x Hx]; [rewrite (tab_len _ HT); lia|].
      specialize (E i x Hx). specialize (C2 i x Hx). unfold pointers in C2.
      apply list_elem_of_In, (count_occ_In Nat.eq_dec). lia. }
    apply submseteq_length in Hs. rewrite length_seq in Hs. lia.
Qed.

Lemma linked_insert it i x : linked it -> x.(i_valid) = 0 \/ x.(i_nlink) <> 0 -> linked (<[i := x]> it).
Proof. intros HL Hx j y [(<- & <- & _)|[_ Hy]]%list_lookup_insert_Some; eauto. Qed.

Section counting.
Context (pid : Z) (h0 : hart) (env : list turn) (s : kstate) (B : world -> Prop).
Context (L : gmap Z spinlock) (P : list proc) (SB : superblock) (start : Z) (d : gmap Z (list Z)) (out : Z).

#[local] Abbreviation fsys := (FsState.fsys pid h0 env s L P SB start d out).

(** The table, its pointers and that nothing is to be truncated. *)
Definition table_inv (it : list inode) (hs : list nat) : Prop := itable_ok it /\ counted it hs /\ linked it.

Lemma refs_small it hs i x : table_inv it hs -> (length hs < NINODE)%nat -> it !! i = Some x -> i_ref x < 2 ^ 31 - 1.
Proof.
  intros (_ & HC & _) Hl Hx. rewrite (proj2 HC i x Hx). pose proof (pointers_le i hs). unfold NINODE in Hl. lia.
Qed.

(** The pointer that iget() returns is counted. *)
Lemma got_counted it hs dev inum i :
  table_inv it hs -> (length hs < NINODE)%nat ->
  found it dev inum i \/ (forall j, ~ found it dev inum j) /\ (exists x, it !! i = Some x /\ x.(i_ref) = 0) ->
  table_inv (got it dev inum i) (i :: hs).
Proof.
  intros HI Hl Hc. pose proof HI as (HT & HC & HL).
  assert (Hx : exists x, it !! i = Some x) by (destruct Hc as [(x & ? & _)|(_ & x & ? & _)]; eauto).
  destruct Hx as [x Hx]. destruct (got_ok it dev inum i HT) as (G1 & G2 & G3 & G4).
  { destruct Hc as [?|?]; [left|by right]. split; [done|]. intros y. by apply refs_small with hs. }
  destruct (G4 x Hx) as (x' & Hx' & Hr'). split_and!; [done|..].
  - eapply (counted_insert it i x hs); [done|done|reflexivity| | |exact Hx'| |by rewrite (tab_len _ G1), (tab_len _ HT)|done].
    + intros j [->|]%elem_of_cons; auto.
    + intros j Hj. by rewrite pointers_cons, decide_False by congruence.
    + rewrite pointers_cons, decide_True, Hr', (proj2 HC i x Hx) by done. lia.
  - unfold got. rewrite Hx. destruct (0 <? i_ref x); apply linked_insert; try done; [exact (HL i x Hx)|by left].
Qed.

Lemma iget_counted it hs tr bl V O w dev inum :
  fsys it tr bl V O w -> table_inv it hs -> (length hs < NINODE)%nat ->
  wpx B (iget dev inum) (fun i w' => exists it', fsys it' tr bl V O w' /\ table_inv it' (i :: hs)) w.
Proof.
  intros HI HT Hl. pose proof HT as (HT0 & HC & _).
  eapply wpx_mono; [eapply iget_spec; [exact HI|done|by intros; eapply refs_small|by eapply free_entry]|]. cbn beta.
  intros i w' [HI' Hc]. exists (got it dev inum i). split; [done|]. by apply got_counted.
Qed.

(** The same for idup() and iput(), which change the count of one entry. *)
Lemma table_inv_ref it i x hs hs' n :
  table_inv it hs -> it !! i = Some x -> 0 < x.(i_ref) -> 0 <= n -> n = pointers i hs' ->
  (forall j, j ∈ hs' -> j = i \/ j ∈ hs) -> (forall j, j <> i -> pointers j hs' = pointers j hs) ->
  table_inv (<[i := set_i_ref n x]> it) hs'.
Proof.
  intros (HT & HC & HL) Hx Hr Hn Hp Hsub Hoth. assert (Hlt : (i < length it)%nat) by (by eapply lookup_lt_Some).
  split_and!.
  - by eapply itable_ok_keep.
  - eapply (counted_insert it i x hs); [done|done|reflexivity|done|done|by apply list_lookup_insert_eq|done|by rewrite length_insert|].
    intros j Hj. by rewrite list_lookup_insert_ne.
  - apply linked_insert; [done|]. exact (HL i x Hx).
Qed.

Lemma held_entry it hs k i : table_inv it hs -> hs !! k = Some i -> exists x, it !! i = Some x /\ 0 < x.(i_ref) /\ x.(i_ref) = pointers i hs.
Proof.
  intros (HT & [C1 C2] & HL) Hk. destruct (lookup_lt_is_Some_2 it i) as [x Hx].
  { apply C1. by eapply list_elem_of_lookup_2. }
  exists x. rewrite (C2 i x Hx). split_and!; [done| |done]. rewrite (pointers_delete _ _ _ _ Hk), decide_True by done.
  pose proof (pointers_le i (delete k hs)). lia.
Qed.

Lemma dup_counted it hs k i x :
  table_inv it hs -> (length hs < NINODE)%nat -> hs !! k = Some i -> it !! i = Some x ->
  table_inv (<[i := set_i_ref (s32 (x.(i_ref) + 1)) x]> it) (i :: hs).
Proof.
  intros HT Hl Hk Hx. destruct (held_entry _ _ _ _ HT Hk) as (x' & Hx' & Hr & Hp). simplify_eq.
  pose proof (pointers_le i hs). unfold NINODE in Hl. rewrite s32_small by lia.
  eapply table_inv_ref; [exact HT|done|done|lia|rewrite pointers_cons, decide_True by done; lia| |].
  - intros j [->|]%elem_of_cons; auto.
  - intros j Hj. by rewrite pointers_cons, decide_False by congruence.
Qed.

Lemma put_counted it hs k i x :
  table_inv it hs -> (length hs < NINODE)%nat -> hs !! k = Some i -> it !! i = Some x ->
  table_inv (<[i := set_i_ref (s32 (x.(i_ref) - 1)) x]> it) (delete k hs).
Proof.
  intros HT Hl Hk Hx. destruct (held_entry _ _ _ _ HT Hk) as (x' & Hx' & Hr & Hp). simplify_eq.
  pose proof (pointers_le i hs). unfold NINODE in Hl. rewrite s32_small by lia.
  pose proof (pointers_delete i k i hs Hk) as Hpd. rewrite decide_True in Hpd by done.
  eapply table_inv_ref; [exact HT|done|done|lia|lia| |].
  - intros j Hj. right. by eapply elem_of_submseteq; [|apply submseteq_delete].
  - intros j Hj. pose proof (pointers_delete j k i hs Hk) as Hpj. rewrite decide_False in Hpj by congruence. lia.
Qed.

Lemma run_iops_spec ops : forall it hs tr bl V O w,
  fsys it tr bl V O w -> table_inv it hs -> (length hs + length ops < NINODE)%nat ->
  wpx B (run_iops ops hs) (fun hs' w' => exists it', fsys it' tr bl V O w' /\ table_inv it' hs') w.
Proof.
  induction ops as [|op ops IH]; intros it hs tr bl V O w HI HT Hl; cbn [run_iops].
  { apply wpx_ret. eauto. }
  cbn [length] in Hl. destruct op as [dev inum|k|k].
  - wcall iget_counted; [exact HI|exact HT|lia|]. intros i w1 (it1 & HI1 & HT1). eapply IH; [exact HI1|done|cbn; lia].
  - destruct (hs !! k) as [i|] eqn:Hk; [|eapply IH; [exact HI|done|lia]].
    destruct (held_entry _ _ _ _ HT Hk) as (x & Hx & Hr & Hp).
    wcall idup_spec; [exact HI|exact Hx|]. intros ? w1 [-> HI1].
    eapply IH; [exact HI1|eapply dup_counted; [done|lia|done..]|cbn; lia].
  - destruct (hs !! k) as [i|] eqn:Hk; [|eapply IH; [exact HI|done|lia]].
    destruct (held_entry _ _ _ _ HT Hk) as (x & Hx & Hr & Hp).
    assert (Hdel : length (delete k hs) = (length hs - 1)%nat) by (apply length_delete; eauto).
    wcall iput_spec; [exact HI|exact Hx| |].
    { destruct HT as (_ & _ & HL). destruct (HL i x Hx) as [-> | Hn]; [by rewrite andb_false_r|].
      apply Z.eqb_neq in Hn. rewrite Hn. by rewrite andb_false_r. }
    intros _ w1 HI1. eapply IH; [exact HI1|eapply put_counted; [done|lia|done..]|lia].
Qed.

End counting.
