(* ===== verification/FsFile.v ===== *)
(** * The blocks of a file: bmap()

    A file is its indirect block and a function from block indices to disk
    blocks; 0 stands for no block.  [owned_ok] says that the blocks of a file
    are distinct data blocks that are marked in the free map, and [grows]
    what an operation that adds blocks to a file may change. *)

From stdpp Require Import functions.
From S2P Require Import Prelude Memory Riscv Machine Spinlock Kalloc Vm Sched Sleeplock Dyn Bytes Ring Bio Bcache Log Dstate LogSpec Crash Fs FsState FsAlloc.

Definition ind_block (x : inode) : Z := x.(i_addrs) !!! Z.to_nat NDIRECT.

(** The disk block of block [k] of the file. *)
Definition fblock (V : Z -> list Z) (x : inode) (k : Z) : Z :=
  if k <? NDIRECT then x.(i_addrs) !!! Z.to_nat k else
  if ind_block x =? 0 then 0 else get32 (4 * Z.to_nat (k - NDIRECT)) (V (ind_block x)).

Definition in_file (k : Z) : Prop := 0 <= k < MAXFILE.

(** The bytes of block [k]; a hole is zero. *)
Definition content (V : Z -> list Z) (f : Z -> Z) (k : Z) : list Z := if f k =? 0 then zeros else V (f k).

Definition owns (ind : Z) (f : Z -> Z) (b : Z) : Prop := b <> 0 /\ (b = ind \/ exists k, in_file k /\ f k = b).

Section owned.
Context (sb : superblock).

Record owned_ok (V : Z -> list Z) (ind : Z) (f : Z -> Z) : Prop := {
  own_blk k : in_file k -> f k <> 0 -> data_block sb (f k) /\ bit sb V (f k) = true /\ f k <> ind;
  own_inj k k' : in_file k -> in_file k' -> f k <> 0 -> f k = f k' -> k = k';
  own_ind : ind <> 0 -> data_block sb ind /\ bit sb V ind = true
}.

(** The invariant of an inode in memory. *)
Record file_ok (V : Z -> list Z) (x : inode) : Prop := {
  file_dev : x.(i_dev) = ROOTDEV;
  file_addrs : length x.(i_addrs) = 13%nat;
  file_owned : owned_ok V (ind_block x) (fblock V x)
}.

(** A block of the free map. *)
Definition in_bitmap (b : Z) : Prop := sb.(sb_bmapstart) <= b < datastart sb.

(** Blocks were added to a file, and nothing else changed. *)
Record grows (V : Z -> list Z) (ind : Z) (f : Z -> Z) (V' : Z -> list Z) (ind' : Z) (f' : Z -> Z) : Prop := {
  gr_blk k : in_file k -> f k <> 0 -> f' k = f k;
  gr_ind : ind <> 0 -> ind' = ind;
  gr_bits b : 0 <= b < sb.(sb_size) -> bit sb V b = true -> bit sb V' b = true;
  gr_new b : 0 <= b < sb.(sb_size) -> bit sb V b = false -> bit sb V' b = true -> owns ind' f' b;
  gr_frame b : ~ in_bitmap b -> ~ owns ind' f' b -> V' b = V b;
  gr_own b : owns ind' f' b -> owns ind f b \/ free sb V b
}.

Lemma grows_refl V ind f : grows V ind f V ind f.
Proof. split; try done; [congruence|auto]. Qed.

Lemma grows_owns V ind f V' ind' f' b : grows V ind f V' ind' f' -> owns ind f b -> owns ind' f' b.
Proof.
  intros G [Hb [-> | (k & Hk & <-)]]; split; [done| |done|].
  - left. symmetry. by apply (gr_ind _ _ _ _ _ _ G).
  - right. exists k. split; [done|]. by apply (gr_blk _ _ _ _ _ _ G).
Qed.

Lemma grows_trans V ind f V1 ind1 f1 V2 ind2 f2 :
  grows V ind f V1 ind1 f1 -> grows V1 ind1 f1 V2 ind2 f2 -> grows V ind f V2 ind2 f2.
Proof.
  intros G1 G2. pose proof G1 as [A1 A2 A3 A4 A5 A6]. pose proof G2 as [B1 B2 B3 B4 B5 B6]. split.
  - intros k Hk Hf. rewrite B1 by (rewrite ?A1; done). by apply A1.
  - intros Hi. rewrite B2 by (rewrite A2; done). by apply A2.
  - auto.
  - intros b Hb E1 E2. destruct (bit sb V1 b) eqn:E; [|by apply B4].
    eapply grows_owns; [exact G2|]. by apply A4.
  - intros b Hb Hn. rewrite B5 by done. apply A5; [done|]. contradict Hn. by eapply grows_owns.
  - intros b [Hb|[Hb E]]%B6; [auto|]. right. split; [done|]. destruct (bit sb V b) eqn:E0; [|done].
    by rewrite (A3 b Hb E0) in E.
Qed.

(** The state after balloc() has returned [a]. *)
Record taken (V V1 : Z -> list Z) (a : Z) : Prop := {
  al_data : data_block sb a;
  al_old : bit sb V a = false;
  al_bits b : 0 <= b < sb.(sb_size) -> bit sb V1 b = if decide (b = a) then true else bit sb V b;
  al_frame b : ~ in_bitmap b -> b <> a -> V1 b = V b;
  al_zero : V1 a = zeros
}.

Context (start : Z) (HG : layout sb start).

Lemma taken_map V a :
  (forall b, length (V b) = bsize) -> bitmap_ok sb V -> first_free sb V a -> taken V (alloc_map sb a V) a.
Proof using HG.
  intros Hl HV [Hfr _]. pose proof (HV _ Hfr) as Hd. destruct Hfr as [Ha Hbit].
  split; [done|done|..].
  - intros b Hb. rewrite <-(bit_set_used sb start HG V a b) by done. unfold bit, alloc_map.
    rewrite fn_lookup_insert_ne; [done|]. by eapply data_not_bitmap.
  - intros b Hb Hne. unfold alloc_map, set_used, mark. rewrite !fn_lookup_insert_ne; [done| |done].
    intros <-. by apply Hb, (BBLOCK_range sb start HG).
  - apply fn_lookup_insert.
Qed.

Lemma taken_bitmap V V1 a : bitmap_ok sb V -> taken V V1 a -> bitmap_ok sb V1.
Proof.
  intros HV A b [Hb Hbit]. rewrite (al_bits _ _ _ A) in Hbit by done. case_decide; [done|]. by apply HV.
Qed.

Lemma taken_free V V1 a : taken V V1 a -> free sb V a.
Proof using HG start.
  intros A. destruct (data_range sb start HG a (al_data _ _ _ A)). split; [lia|apply A].
Qed.

(** A block of the file is not the new one. *)
Lemma taken_fresh V V1 a ind f b : taken V V1 a -> owned_ok V ind f -> owns ind f b -> b <> a.
Proof.
  intros A W [Hb Ho] ->. pose proof (al_old _ _ _ A). destruct Ho as [-> | (k & Hk & <-)].
  - destruct (own_ind _ _ _ W Hb). congruence.
  - destruct (own_blk _ _ _ W k Hk Hb) as (_ & ? & _). congruence.
Qed.

Lemma not_bitmap b : data_block sb b -> ~ in_bitmap b.
Proof. unfold data_block, in_bitmap. lia. Qed.

Lemma owned_data V ind f b : owned_ok V ind f -> owns ind f b -> data_block sb b /\ bit sb V b = true.
Proof.
  intros W [Hb [-> | (k & Hk & <-)]]; [by apply (own_ind _ _ _ W)|].
  destruct (own_blk _ _ _ W k Hk Hb) as (? & ? & _). done.
Qed.

(** A change of data blocks leaves the free map alone. *)
Lemma bit_agree V V1 b :
  (forall c, in_bitmap c -> V1 c = V c) -> 0 <= b < sb.(sb_size) -> bit sb V1 b = bit sb V b.
Proof using HG start. intros HV Hb. unfold bit. rewrite HV; [done|]. by apply (BBLOCK_range sb start HG). Qed.

Lemma owned_agree V V1 ind f f' :
  owned_ok V ind f -> (forall c, in_bitmap c -> V1 c = V c) -> (forall k, in_file k -> f' k = f k) -> owned_ok V1 ind f'.
Proof using HG start.
  intros W HV Hf. split.
  - intros k Hk. rewrite Hf by done. intros H0. destruct (own_blk _ _ _ W k Hk H0) as (A & Bt & C).
    rewrite (bit_agree V) by (done || destruct (data_range sb start HG _ A); lia). done.
  - intros k k' Hk Hk'. rewrite !Hf by done. by apply (own_inj _ _ _ W).
  - intros Hi. destruct (own_ind _ _ _ W Hi) as [A Bt].
    rewrite (bit_agree V) by (done || destruct (data_range sb start HG _ A); lia). done.
Qed.

(** The new block becomes block [bn] of the file; its pointer is in the inode
    or in the indirect block. *)
Lemma install_block V V1 V2 a ind f f' bn :
  taken V V1 a -> owned_ok V ind f -> bitmap_ok sb V -> in_file bn -> f bn = 0 ->
  (forall k, in_file k -> f' k = if decide (k = bn) then a else f k) ->
  (forall b, b <> ind \/ ind = 0 -> V2 b = V1 b) ->
  owned_ok V2 ind f' /\ bitmap_ok sb V2 /\ grows V ind f V2 ind f' /\
  (forall k, in_file k -> content V2 f' k = content V f k).
Proof using HG start.
  intros A W HV Hbn H0 Hf HV2. pose proof (al_data _ _ _ A) as Ha. pose proof (data_range sb start HG a Ha).
  assert (Hne : forall b, owns ind f b -> b <> a) by (intros b; by apply (taken_fresh V V1)).
  assert (Hbm : forall c, in_bitmap c -> V2 c = V1 c).
  { intros c Hc. apply HV2. destruct (decide (ind = 0)); [by right|left]. intros ->.
    by apply (not_bitmap ind); [apply (own_ind _ _ _ W)|]. }
  assert (Hbit : forall b, 0 <= b < sb_size sb -> bit sb V2 b = if decide (b = a) then true else bit sb V b).
  { intros b Hb. rewrite (bit_agree V1) by done. by apply (al_bits _ _ _ A). }
  assert (Hown : forall b, owns ind f b -> bit sb V2 b = true).
  { intros b Hb. destruct (owned_data V ind f b W Hb) as [Hd Hu]. rewrite Hbit, Hu; [by case_decide|].
    destruct (data_range sb start HG b Hd). lia. }
  assert (Hblk : forall k, in_file k -> f k <> 0 -> owns ind f (f k)) by (intros k Hk Hz; split; eauto).
  assert (Hind : ind <> 0 -> owns ind f ind) by (intros Hz; split; [done|by left]).
  split_and!.
  - split.
    + intros k Hk. rewrite Hf by done. case_decide as E.
      * intros _. split_and!; [done|by rewrite Hbit, decide_True by lia|].
        intros E2. apply (Hne ind); [|done]. apply Hind. lia.
      * intros Hz. destruct (own_blk _ _ _ W k Hk Hz) as (? & _ & ?). split_and!; auto.
    + intros k k' Hk Hk'. rewrite !Hf by done. repeat case_decide; subst; try done.
      * intros Hz E. destruct (Hne (f k')); [|done]. apply Hblk; [done|lia].
      * intros Hz E. destruct (Hne (f k)); [|done]. by apply Hblk.
      * by apply (own_inj _ _ _ W).
    + intros Hz. split; [by apply (own_ind _ _ _ W)|auto].
  - intros b [Hb Hb2]. rewrite Hbit in Hb2 by done. case_decide; [done|]. by apply HV.
  - split.
    + intros k Hk Hz. rewrite Hf by done. case_decide; [by subst|done].
    + done.
    + intros b Hb E. rewrite Hbit, E by done. by case_decide.
    + intros b Hb E. rewrite Hbit, E by done. case_decide; [|done]. subst. intros _. split; [lia|].
      right. exists bn. split; [done|]. rewrite Hf by done. by rewrite decide_True.
    + intros b Hb Hn. assert (b <> a).
      { intros ->. apply Hn. split; [lia|]. right. exists bn. rewrite Hf, decide_True by done. done. }
      destruct (decide (b = 0)) as [->|Hb0].
      { rewrite HV2 by lia. by apply (al_frame _ _ _ A). }
      rewrite HV2; [by apply (al_frame _ _ _ A)|]. left. intros ->. apply Hn. split; [done|by left].
    + intros b [Hb [-> | (k & Hk & <-)]]; [left; by apply Hind|]. rewrite Hf in * by done. case_decide; [|left; by apply Hblk].
      right. by apply (taken_free V V1).
  - intros k Hk. unfold content. rewrite Hf by done. case_decide as E.
    + subst. rewrite H0, (proj2 (Z.eqb_neq a 0)) by lia. cbn. rewrite HV2; [by apply (al_zero _ _ _ A)|].
      destruct (decide (ind = 0)); [by right|left]. intros <-. by apply (Hne a); [apply Hind|].
    + destruct (Z.eqb_spec (f k) 0) as [|Hz]; [done|]. destruct (own_blk _ _ _ W k Hk Hz) as (Hd & _ & Hi).
      rewrite HV2 by (by left). apply (al_frame _ _ _ A); [by apply not_bitmap|]. by apply Hne, Hblk.
Qed.

(** The new block becomes the indirect block, with no entries. *)
Lemma install_indirect V V1 a f f' :
  taken V V1 a -> owned_ok V 0 f -> bitmap_ok sb V -> (forall k, in_file k -> f' k = f k) ->
  owned_ok V1 a f' /\ bitmap_ok sb V1 /\ grows V 0 f V1 a f' /\
  (forall k, in_file k -> content V1 f' k = content V f k).
Proof using HG start.
  intros A W HV Hf. pose proof (al_data _ _ _ A) as Ha. pose proof (data_range sb start HG a Ha).
  assert (Hne : forall b, owns 0 f b -> b <> a) by (intros b; by apply (taken_fresh V V1)).
  assert (Hblk : forall k, in_file k -> f k <> 0 -> owns 0 f (f k)) by (intros k Hk Hz; split; eauto).
  split_and!.
  - split.
    + intros k Hk. rewrite Hf by done. intros Hz. destruct (own_blk _ _ _ W k Hk Hz) as (Hd & Hb & _).
      split_and!; [done| |by apply Hne, Hblk]. destruct (data_range sb start HG _ Hd).
      rewrite (al_bits _ _ _ A), Hb by lia. by case_decide.
    + intros k k' Hk Hk'. rewrite !Hf by done. by apply (own_inj _ _ _ W).
    + intros _. split; [done|]. by rewrite (al_bits _ _ _ A), decide_True by lia.
  - by eapply taken_bitmap.
  - split; [by intros k Hk _; apply Hf|done|..].
    + intros b Hb E. rewrite (al_bits _ _ _ A), E by done. by case_decide.
    + intros b Hb E. rewrite (al_bits _ _ _ A), E by done. case_decide; [|done]. subst. intros _.
      split; [lia|by left].
    + intros b Hb Hn. apply (al_frame _ _ _ A); [done|]. intros ->. apply Hn. split; [lia|by left].
    + intros b [Hb [-> | (k & Hk & <-)]]; [right; by apply (taken_free V V1)|]. rewrite Hf in * by done. left. by apply Hblk.
  - intros k Hk. unfold content. rewrite Hf by done. destruct (Z.eqb_spec (f k) 0) as [|Hz]; [done|].
    destruct (own_blk _ _ _ W k Hk Hz) as (Hd & _ & _).
    apply (al_frame _ _ _ A); [by apply not_bitmap|]. by apply Hne, Hblk.
Qed.

End owned.

(** ** Pointers *)

Lemma get32_zeros o : get32 o zeros = 0.
Proof.
  unfold get32, slice, zeros. rewrite drop_replicate, take_replicate. generalize (4 `min` (bsize - o))%nat.
  intros n. induction n as [|n IH]; cbn [replicate le_val]; [done|]. by rewrite IH.
Qed.

Lemma addrs_lookup x k : length x.(i_addrs) = 13%nat -> (k < 13)%nat -> x.(i_addrs) !! k = Some (x.(i_addrs) !!! k).
Proof. intros Hl Hk. apply list_lookup_lookup_total_lt. lia. Qed.

Lemma addrs_insert x (k j : nat) a : length x.(i_addrs) = 13%nat -> (k < 13)%nat ->
  (<[k := a]> x.(i_addrs)) !!! j = if decide (j = k) then a else x.(i_addrs) !!! j.
Proof.
  intros Hl Hk. case_decide as E; [subst|].
  - apply list_lookup_total_insert_eq. lia.
  - by apply list_lookup_total_insert_ne.
Qed.

Definition set_addr (k : nat) (a : Z) (x : inode) : inode := set_i_addrs (<[k := a]> x.(i_addrs)) x.

Lemma fblock_direct V x bn a k : length x.(i_addrs) = 13%nat -> 0 <= bn < NDIRECT -> 0 <= k ->
  fblock V (set_addr (Z.to_nat bn) a x) k = if decide (k = bn) then a else fblock V x k.
Proof.
  intros Hl Hbn Hk. unfold fblock, ind_block, set_addr. cbn [i_addrs set_i_addrs]. unfold NDIRECT in *.
  rewrite !addrs_insert by lia. rewrite (decide_False (P := Z.to_nat 12 = _)) by lia.
  destruct (Z.ltb_spec k 12); [|by rewrite decide_False by lia].
  destruct (decide (k = bn)) as [->|]; [by rewrite decide_True|]. by rewrite decide_False by lia.
Qed.

Lemma ind_direct x bn a : length x.(i_addrs) = 13%nat -> 0 <= bn < NDIRECT ->
  ind_block (set_addr (Z.to_nat bn) a x) = ind_block x.
Proof.
  intros Hl Hbn. unfold ind_block, set_addr. cbn [i_addrs set_i_addrs]. unfold NDIRECT in *.
  rewrite addrs_insert, decide_False by lia. done.
Qed.

Lemma ind_indirect x a : length x.(i_addrs) = 13%nat -> ind_block (set_addr (Z.to_nat NDIRECT) a x) = a.
Proof.
  intros Hl. unfold ind_block, set_addr. cbn [i_addrs set_i_addrs]. unfold NDIRECT.
  by rewrite addrs_insert, decide_True by lia.
Qed.

Lemma fblock_indirect V V1 x a k : length x.(i_addrs) = 13%nat -> 0 <= k -> ind_block x = 0 -> V1 a = zeros ->
  fblock V1 (set_addr (Z.to_nat NDIRECT) a x) k = fblock V x k.
Proof.
  intros Hl Hk H0 Hz. unfold fblock. rewrite ind_indirect, H0 by done. cbn [Z.eqb].
  destruct (Z.ltb_spec k NDIRECT).
  - unfold set_addr. cbn [i_addrs set_i_addrs]. unfold NDIRECT in *. rewrite addrs_insert by lia. by rewrite decide_False by lia.
  - rewrite Hz, get32_zeros. by destruct (a =? 0).
Qed.

Lemma fblock_agree V V1 x k : V1 (ind_block x) = V (ind_block x) -> fblock V1 x k = fblock V x k.
Proof. intros H. unfold fblock. by rewrite H. Qed.

Lemma fblock_entry V x bn a k : length (V (ind_block x)) = bsize -> ind_block x <> 0 -> 0 <= bn < NINDIRECT ->
  0 <= k < MAXFILE -> 0 <= a < 2 ^ 32 ->
  fblock (<[ind_block x := put32 (4 * Z.to_nat bn) a (V (ind_block x))]> V) x k =
    if decide (k = NDIRECT + bn) then a else fblock V x k.
Proof.
  intros Hl Hi Hbn Hk Ha. unfold fblock. rewrite fn_lookup_insert, (proj2 (Z.eqb_neq _ _)) by done.
  unfold MAXFILE, NINDIRECT, NDIRECT, BSIZE, bsize in *. change (1024 / 4) with 256 in *.
  destruct (Z.ltb_spec k 12); [by rewrite decide_False by lia|].
  destruct (decide (k = 12 + bn)) as [->|Hne].
  - replace (12 + bn - 12) with bn by lia. rewrite get32_put32 by (rewrite Hl; unfold BSIZE; lia). by apply u32_small.
  - apply get32_put32_ne; [rewrite Hl; unfold BSIZE; lia|]. lia.
Qed.

(** ** bmap() *)

(** The message of balloc() when it returns 0. *)
Definition oops (r : Z) : list event := if r =? 0 then [EvPrint "balloc: out of blocks" []] else [].

(** The inode [x] has become [x'], with blocks added to its file and the
    same bytes in it. *)
Record fgrow (sb : superblock) (V : Z -> list Z) (x : inode) (V' : Z -> list Z) (x' : inode) : Prop := {
  fg_ok : file_ok sb V' x';
  fg_map : bitmap_ok sb V';
  fg_inode : x' = set_i_addrs x'.(i_addrs) x;
  fg_grows : grows sb V (ind_block x) (fblock V x) V' (ind_block x') (fblock V' x');
  fg_data k : in_file k -> content V' (fblock V' x') k = content V (fblock V x) k
}.

Lemma fgrow_refl sb V x : file_ok sb V x -> bitmap_ok sb V -> fgrow sb V x V x.
Proof. intros H1 H2. split; try done; [by destruct x|apply grows_refl]. Qed.

Lemma fgrow_trans sb V x V1 x1 V2 x2 : fgrow sb V x V1 x1 -> fgrow sb V1 x1 V2 x2 -> fgrow sb V x V2 x2.
Proof.
  intros [A1 A2 A3 A4 A5] [B1 B2 B3 B4 B5]. split; try done.
  - rewrite B3, A3. by destruct x.
  - by eapply grows_trans.
  - intros k Hk. by rewrite B5, A5.
Qed.

(** The blocks that the mapping of block [bn] may log. *)
Definition touched (sb : superblock) (V : Z -> list Z) (x : inode) (bn c : Z) : Prop :=
  in_bitmap sb c \/ (c <> 0 /\ (c = ind_block x \/ c = fblock V x bn)).

Section bmap.
Context (pid : Z) (h0 : hart) (env : list turn) (s : kstate) (B : world -> Prop).
Context (L : gmap Z spinlock) (P : list proc) (SB : superblock) (start : Z) (d : gmap Z (list Z)) (out : Z).
Context (HG : layout SB start) (Hout : 1 <= out).

#[local] Abbreviation fsys := (FsState.fsys pid h0 env s L P SB start d out).

Lemma room_log (n : nat) : (n < NBUF)%nat -> (n < Z.to_nat LOGBLOCKS)%nat.
Proof. done. Qed.

Lemma length_alloc_log a bl : (length (alloc_log SB a bl) <= length bl + 2)%nat.
Proof. unfold alloc_log. pose proof (length_logged a (logged (BBLOCK a SB) bl)). pose proof (length_logged (BBLOCK a SB) bl). lia. Qed.

Lemma elem_alloc_log a bl c : c ∈ alloc_log SB a bl <-> c = a \/ c = BBLOCK a SB \/ c ∈ bl.
Proof. unfold alloc_log. rewrite !elem_logged. done. Qed.

Lemma balloc_alloc it tr bl V O w hs :
  fsys it tr bl V O w -> bitmap_ok SB V -> clear_of SB O V -> holds O hs -> (length bl + length hs + 1 < NBUF)%nat ->
  wpx B (balloc ROOTDEV) (fun a w' =>
    (a <> 0 /\ taken SB V (alloc_map SB a V) a /\ fsys it tr (alloc_log SB a bl) (alloc_map SB a V) O w') \/
    (a = 0 /\ (forall b, ~ free SB V b) /\ fsys it (tr ++ oops 0) bl V O w')) w.
Proof using HG Hout.
  intros HI HV HC Hhs Hr. eapply wpx_mono.
  - eapply balloc_spec; [exact HG|exact Hout|exact HI|done|done|exact Hhs|lia|]. apply room_log. lia.
  - cbn beta. intros a w' [[Hff HI']|Hno]; [left|by right].
    assert (A : taken SB V (alloc_map SB a V) a).
    { eapply taken_map; [done| |done|done]. intros b. by eapply fsys_data_length. }
    split; [|done]. destruct (data_range SB start HG a (al_data _ _ _ _ A)). lia.
Qed.

(** A file's own blocks are not in the way of balloc(). *)
Lemma clear_nolocks V : clear_of SB nolocks V.
Proof. done. Qed.

Lemma clear_ind V ind p : data_block SB ind -> bit SB V ind = true -> clear_of SB (<[ind := Some p]> nolocks) V.
Proof using HG start.
  intros Hd Hb. split; intros b Hb'; rewrite fn_lookup_insert_ne; try done.
  - by eapply data_not_bitmap.
  - destruct Hb' as [_ Hb']. congruence.
Qed.

Lemma taken_ind V V1 a x : taken SB V V1 a -> file_ok SB V x -> ind_block x <> 0 ->
  V1 (ind_block x) = V (ind_block x).
Proof.
  intros A [_ _ W] Hi. apply (al_frame _ _ _ _ A).
  - apply not_bitmap. by apply (own_ind _ _ _ _ W).
  - eapply (taken_fresh SB V V1); [done|exact W|]. split; [done|by left].
Qed.

Lemma grow_direct V V1 a x bn :
  taken SB V V1 a -> file_ok SB V x -> bitmap_ok SB V -> 0 <= bn < NDIRECT -> fblock V x bn = 0 ->
  fgrow SB V x V1 (set_addr (Z.to_nat bn) a x).
Proof using HG start.
  intros A F HV Hbn H0. pose proof F as [F1 F2 F3].
  assert (E : forall k, in_file k -> fblock V1 (set_addr (Z.to_nat bn) a x) k = if decide (k = bn) then a else fblock V x k).
  { intros k [Hk _]. rewrite fblock_direct by done. case_decide; [done|].
    unfold fblock. destruct (k <? NDIRECT); [done|]. destruct (Z.eqb_spec (ind_block x) 0); [done|].
    by erewrite taken_ind. }
  destruct (install_block SB start HG V V1 V1 a (ind_block x) (fblock V x)
    (fblock V1 (set_addr (Z.to_nat bn) a x)) bn) as (R1 & R2 & R3 & R4); try done.
  { unfold in_file, MAXFILE, NINDIRECT, NDIRECT, BSIZE in *. change (1024 / 4) with 256. lia. }
  split; rewrite ?ind_direct by done; try done. split; [done| |by rewrite ind_direct].
  unfold set_addr. cbn. by rewrite length_insert.
Qed.

Lemma grow_indirect V V1 a x :
  taken SB V V1 a -> file_ok SB V x -> bitmap_ok SB V -> ind_block x = 0 ->
  fgrow SB V x V1 (set_addr (Z.to_nat NDIRECT) a x).
Proof using HG start.
  intros A F HV H0. pose proof F as [F1 F2 F3]. rewrite H0 in F3.
  destruct (install_indirect SB start HG V V1 a (fblock V x)
    (fblock V1 (set_addr (Z.to_nat NDIRECT) a x))) as (R1 & R2 & R3 & R4); try done.
  { intros k [Hk _]. apply fblock_indirect; [done..|]. by apply (al_zero _ _ _ _ A). }
  split; rewrite ?H0, ?ind_indirect by done; try done. split; [done| |by rewrite ind_indirect].
  unfold set_addr. cbn. by rewrite length_insert.
Qed.

Lemma grow_block_entry V V1 a x j :
  (forall b, length (V1 b) = bsize) ->
  taken SB V V1 a -> file_ok SB V x -> bitmap_ok SB V -> ind_block x <> 0 -> 0 <= j < NINDIRECT ->
  fblock V x (NDIRECT + j) = 0 ->
  fgrow SB V x (<[ind_block x := put32 (4 * Z.to_nat j) a (V1 (ind_block x))]> V1) x.
Proof using HG start.
  intros Hlen A F HV Hi Hj H0. pose proof F as [F1 F2 F3].
  destruct (data_range SB start HG a (al_data _ _ _ _ A)). pose proof (layout_facts SB start HG).
  set (V2 := <[_ := _]> V1).
  assert (E : forall k, in_file k -> fblock V2 x k = if decide (k = NDIRECT + j) then a else fblock V x k).
  { intros k Hk. unfold V2. rewrite fblock_entry by (done || lia). case_decide; [done|].
    apply fblock_agree. by eapply taken_ind. }
  destruct (install_block SB start HG V V1 V2 a (ind_block x) (fblock V x)
    (fblock V2 x) (NDIRECT + j)) as (R1 & R2 & R3 & R4); try done.
  { unfold in_file, MAXFILE, NDIRECT in *. lia. }
  { intros b Hb. unfold V2. rewrite fn_lookup_insert_ne; [done|]. destruct Hb; congruence. }
  split; try done. by destruct x.
Qed.

(** What bmap() returns and leaves. *)
Record bmapped (it : list inode) (i : nat) (x : inode) (bl : list Z) (V : Z -> list Z) (bn r : Z)
    (it' : list inode) (x' : inode) (bl' : list Z) (V' : Z -> list Z) : Prop := {
  bm_table : it' = <[i := x']> it;
  bm_grow : fgrow SB V x V' x';
  bm_log c : c ∈ bl' -> c ∈ bl \/ touched SB V' x' bn c;
  bm_res : r = fblock V' x' bn;
  bm_full : r = 0 -> forall b, ~ free SB V' b;
  bm_same : fblock V x bn <> 0 -> V' = V /\ x' = x /\ bl' = bl
}.

Lemma bmapped_id it i x bl V bn r :
  it !! i = Some x -> file_ok SB V x -> bitmap_ok SB V -> r = fblock V x bn -> (r = 0 -> forall b, ~ free SB V b) ->
  bmapped it i x bl V bn r it x bl V.
Proof.
  intros Hx F HV Hr Hz. split; [by rewrite list_insert_id|by apply fgrow_refl|auto|done..].
Qed.

Lemma file_size_bounds : NDIRECT = 12 /\ NINDIRECT = 256 /\ MAXFILE = 268.
Proof. done. Qed.

Lemma bmap_direct it tr bl V w i x bn :
  fsys it tr bl V nolocks w -> it !! i = Some x -> file_ok SB V x -> bitmap_ok SB V ->
  (length bl + 1 < NBUF)%nat -> 0 <= bn < NDIRECT ->
  wpx B (bmap i bn) (fun r w' => exists it' x' bl' V',
    bmapped it i x bl V bn r it' x' bl' V' /\ fsys it' (tr ++ oops r) bl' V' nolocks w') w.
Proof using HG Hout.
  intros HI Hx F HV Hr Hbn. unfold bmap. rewrite (proj2 (Z.ltb_lt bn NDIRECT)) by lia.
  wcall fsys_get_inode; [exact HI|exact Hx|]. intros ? w1 [-> HI1]. cbv zeta.
  assert (E0 : fblock V x bn = i_addrs x !!! Z.to_nat bn).
  { unfold fblock. by rewrite (proj2 (Z.ltb_lt bn NDIRECT)) by lia. }
  rewrite <-E0, (file_dev _ _ _ F). destruct (Z.eqb_spec (fblock V x bn) 0) as [Ez|Ez].
  - wcall balloc_alloc; [exact HI1|done|apply clear_nolocks|apply holds_nolocks|cbn;lia|].
    intros a w2 [(Ha & A & HI2)|(-> & Hno & HI2)].
    + rewrite (proj2 (Z.eqb_neq a 0)) by done. pose proof (grow_direct _ _ _ _ _ A F HV Hbn Ez) as GR.
      wcall fsys_upd_inode; [exact HI2|exact Hx|]. intros _ w3 HI3. apply wpx_ret.
      assert (Er : a = fblock (alloc_map SB a V) (set_addr (Z.to_nat bn) a x) bn).
      { rewrite fblock_direct, decide_True; [done..|apply F|done|lia]. }
      eexists _, (set_addr (Z.to_nat bn) a x), _, _. split; [split|]; [reflexivity|done| |done|done|done|].
      * intros c Hc%elem_alloc_log. destruct Hc as [-> | [-> | ?]]; [right|right|by left].
        -- right. split; [done|]. right. done.
        -- left. apply (BBLOCK_range SB start HG). apply al_data in A. destruct (data_range _ _ HG a A). lia.
      * unfold oops. rewrite (proj2 (Z.eqb_neq a 0)), app_nil_r by done. done.
    + cbn [Z.eqb]. apply wpx_ret. eexists _, _, _, _. split; [by apply bmapped_id|done].
  - apply wpx_ret. eexists _, _, _, _. split; [by apply bmapped_id|].
    unfold oops. rewrite (proj2 (Z.eqb_neq _ 0)), app_nil_r by done. done.
Qed.

(** The indirect block, taken when there is none. *)
Lemma bmap_load it tr bl V w i x :
  fsys it tr bl V nolocks w -> it !! i = Some x -> file_ok SB V x -> bitmap_ok SB V -> (length bl + 1 < NBUF)%nat ->
  wpx B (if ind_block x =? 0 then
      addr ← balloc ROOTDEV;
      when (negb (addr =? 0))
        (upd_inode i (fun x => set_i_addrs (<[Z.to_nat NDIRECT := addr]> x.(i_addrs)) x));;
      mret addr
    else mret (ind_block x))
    (fun r w' => exists x' bl' V', fsys (<[i := x']> it) (tr ++ oops r) bl' V' nolocks w' /\
      fgrow SB V x V' x' /\ (length bl' <= length bl + 2)%nat /\
      (forall c, c ∈ bl' -> c ∈ bl \/ in_bitmap SB c \/ (c <> 0 /\ c = ind_block x')) /\
      r = ind_block x' /\ (r = 0 -> forall b, ~ free SB V' b) /\
      (ind_block x <> 0 -> V' = V /\ x' = x /\ bl' = bl)) w.
Proof using HG Hout.
  intros HI Hx F HV Hr. destruct (Z.eqb_spec (ind_block x) 0) as [Ez|Ez].
  - wcall balloc_alloc; [exact HI|done|apply clear_nolocks|apply holds_nolocks|cbn;lia|].
    intros a w2 [(Ha & A & HI2)|(-> & Hno & HI2)].
    + rewrite (proj2 (Z.eqb_neq a 0)) by done. pose proof (grow_indirect _ _ _ _ A F HV Ez) as GR.
      wcall fsys_upd_inode; [exact HI2|exact Hx|]. intros _ w3 HI3. apply wpx_ret.
      exists (set_addr (Z.to_nat NDIRECT) a x), (alloc_log SB a bl), (alloc_map SB a V).
      unfold oops. rewrite (proj2 (Z.eqb_neq a 0)), app_nil_r, ind_indirect by (done || apply F).
      split_and!; try done; [apply length_alloc_log|].
      intros c Hc%elem_alloc_log. destruct Hc as [-> | [-> | ?]]; [by right;right|right;left|by left].
      apply (BBLOCK_range SB start HG). apply al_data in A. destruct (data_range _ _ HG a A). lia.
    + cbn [Z.eqb negb]. apply wpx_bind, wpx_ret, wpx_ret. exists x, bl, V. rewrite list_insert_id by done.
      split_and!; try done; [by apply fgrow_refl|lia|auto].
  - apply wpx_ret. exists x, bl, V. unfold oops. rewrite (proj2 (Z.eqb_neq _ 0)), app_nil_r, list_insert_id by done.
    split_and!; try done; [by apply fgrow_refl|lia|auto].
Qed.

(** The entry of the indirect block, taken when it is empty. *)
Lemma bmap_entry it tr bl V w i x j :
  fsys it tr bl V nolocks w -> it !! i = Some x -> file_ok SB V x -> bitmap_ok SB V -> (length bl + 2 < NBUF)%nat ->
  ind_block x <> 0 -> 0 <= j < NINDIRECT ->
  wpx B (bp ← bread ROOTDEV (ind_block x);
    y ← get_buf bp;
    let addr := get32 (4 * Z.to_nat j) y.(b_data) in
    addr ← (if addr =? 0 then
              addr ← balloc ROOTDEV;
              when (negb (addr =? 0))
                (upd_data bp (put32 (4 * Z.to_nat j) addr);; log_write bp);;
              mret addr
            else mret addr);
    brelse bp;;
    mret addr)
    (fun r w' => exists bl' V', bmapped it i x bl V (NDIRECT + j) r it x bl' V' /\
      fsys it (tr ++ oops r) bl' V' nolocks w') w.
Proof using HG Hout.
  intros HI Hx F HV Hr Hi Hj. pose proof F as [_ _ W]. destruct (own_ind _ _ _ _ W Hi) as [Hd Hb].
  assert (E0 : fblock V x (NDIRECT + j) = get32 (4 * Z.to_nat j) (V (ind_block x))).
  { unfold fblock. rewrite (proj2 (Z.ltb_ge _ _)), (proj2 (Z.eqb_neq _ _)) by (done || lia). do 3 f_equal. lia. }
  wcall fsys_bread; [exact HI|done|apply holds_nolocks|cbn;lia|]. intros p w1 [HI1 Hcl].
  wcall fsys_get_buf; [exact HI1|by rewrite fn_lookup_insert|]. intros y w2 [HI2 Hy]. cbv zeta.
  rewrite Hy, <-E0. assert (Hhs : holds (<[ind_block x := Some p]> nolocks) [ind_block x]) by apply holds_insert, holds_nolocks.
  destruct (Z.eqb_spec (fblock V x (NDIRECT + j)) 0) as [Ez|Ez].
  - apply wpx_bind. wcall balloc_alloc; [exact HI2|done|by apply clear_ind|exact Hhs|cbn;lia|].
    intros a w3 [(Ha & A & HI3)|(-> & Hno & HI3)].
    + rewrite (proj2 (Z.eqb_neq a 0)) by done. cbn [negb]. apply wpx_bind. unfold when.
      assert (Hlen : forall b, length (alloc_map SB a V b) = bsize) by (intros b; by eapply fsys_data_length).
      wcall fsys_upd_data; [exact HI3|by rewrite fn_lookup_insert|..].
      { rewrite length_put32; [done|]. rewrite Hlen. unfold bsize, BSIZE. destruct file_size_bounds as (_ & ? & _). lia. }
      intros _ w4 HI4. pose proof (length_alloc_log a bl).
      eapply wpx_mono; [eapply fsys_log_write; [exact HI4|exact Hout|by rewrite fn_lookup_insert|apply room_log; lia|by eapply data_loggable]|].
      cbn beta. intros _ w5 HI5. apply wpx_ret.
      wcall fsys_brelse; [exact HI5|by rewrite fn_lookup_insert|..].
      { intros Hn. destruct Hn. apply elem_logged. by left. }
      intros _ w6 HI6. apply wpx_ret. pose proof (grow_block_entry _ _ _ _ _ Hlen A F HV Hi Hj Ez) as GR.
      eexists _, _. split; [|unfold oops; rewrite (proj2 (Z.eqb_neq a 0)), app_nil_r by done;
        eapply fsys_ext; [exact HI6|reflexivity|intros k; by apply unlock_lock]].
      assert (Er : a = fblock (<[ind_block x := put32 (4 * Z.to_nat j) a (alloc_map SB a V (ind_block x))]>
        (alloc_map SB a V)) x (NDIRECT + j)).
      { apply al_data in A. destruct (data_range _ _ HG a A). pose proof (layout_facts SB start HG).
        destruct file_size_bounds as (? & ? & ?). rewrite fblock_entry, decide_True by (done || lia). done. }
      split; try done; [by rewrite list_insert_id|].
      intros c [-> | Hc%elem_alloc_log]%elem_logged; [by right;right;split;[|left]|].
      destruct Hc as [-> | [-> | ?]]; [by right;right;split;[|right]|right;left|by left].
      apply (BBLOCK_range SB start HG). apply al_data in A. destruct (data_range _ _ HG a A). lia.
    + cbn [Z.eqb negb]. apply wpx_bind, wpx_ret, wpx_ret.
      wcall fsys_brelse; [exact HI3|by rewrite fn_lookup_insert|exact Hcl|]. intros _ w4 HI4. apply wpx_ret.
      eexists _, _. split; [by apply bmapped_id|].
      eapply fsys_ext; [exact HI4|reflexivity|intros k; by apply unlock_lock].
  - apply wpx_bind, wpx_ret.
    wcall fsys_brelse; [exact HI2|by rewrite fn_lookup_insert|exact Hcl|]. intros _ w4 HI4. apply wpx_ret.
    eexists _, _. split; [by apply bmapped_id|]. unfold oops. rewrite (proj2 (Z.eqb_neq _ 0)), app_nil_r by done.
    eapply fsys_ext; [exact HI4|reflexivity|intros k; by apply unlock_lock].
Qed.

Lemma bmap_spec it tr bl V w i x bn :
  fsys it tr bl V nolocks w -> it !! i = Some x -> file_ok SB V x -> bitmap_ok SB V ->
  (length bl + 4 < NBUF)%nat -> in_file bn ->
  wpx B (bmap i bn) (fun r w' => exists it' x' bl' V',
    bmapped it i x bl V bn r it' x' bl' V' /\ fsys it' (tr ++ oops r) bl' V' nolocks w') w.
Proof using HG Hout.
  intros HI Hx F HV Hr [Hbn1 Hbn2]. destruct file_size_bounds as (N1 & N2 & N3).
  destruct (Z.ltb_spec bn NDIRECT) as [Hlt|Hge]; [apply bmap_direct; (done || lia)|].
  unfold bmap. rewrite (proj2 (Z.ltb_ge bn NDIRECT)), (proj2 (Z.ltb_lt (bn - NDIRECT) NINDIRECT)) by lia. cbv zeta.
  wcall fsys_get_inode; [exact HI|exact Hx|]. intros ? w1 [-> HI1]. rewrite (file_dev _ _ _ F). fold (ind_block x).
  wcall bmap_load; [exact HI1|exact Hx|done|done|lia|].
  intros r w2 (x1 & bl1 & V1 & HI2 & GR & Hl1 & Hlog & Er & Hfull & Hsame).
  destruct (Z.eqb_spec r 0) as [Ez|Ez].
  - apply wpx_ret. eexists _, x1, bl1, V1. split; [|by rewrite Ez in HI2].
    assert (E0 : fblock V1 x1 bn = 0).
    { unfold fblock. by rewrite (proj2 (Z.ltb_ge bn NDIRECT)), <-Er, Ez by lia. }
    split; [done|done| |done|intros _; by apply Hfull|].
    + intros c [?|[?|?]]%Hlog; [by left|by right;left|right;right; naive_solver].
    + intros H0. rewrite (fg_grows _ _ _ _ _ GR).(gr_blk _ _ _ _ _ _ _) in E0; [done|split; lia|done].
  - unfold oops in HI2. rewrite (proj2 (Z.eqb_neq r 0)), app_nil_r in HI2 by done. rewrite Er.
    assert (Hi : (i < length it)%nat) by (by eapply lookup_lt_Some).
    eapply wpx_mono; [eapply (bmap_entry _ _ _ _ _ i); [exact HI2|by apply list_lookup_insert_eq|
      apply GR|apply GR|lia|congruence|lia]|].
    cbn beta. intros r' w3 (bl' & V' & [M1 M2 M3 M4 M5 M6] & HI3). replace (NDIRECT + (bn - NDIRECT)) with bn in * by lia.
    eexists _, x1, bl', V'. split; [|done]. split; [done|by eapply fgrow_trans| |done|done|].
    + intros c [Hc%Hlog|?]%M3; [|by right]. destruct Hc as [?|[?|?]]; [by left|by right;left|right;right; naive_solver].
    + intros H0. assert (Hi0 : ind_block x <> 0).
      { intros E. apply H0. unfold fblock. by rewrite (proj2 (Z.ltb_ge bn NDIRECT)), E by lia. }
      destruct (Hsame Hi0) as (-> & -> & ->). by apply M6.
Qed.

End bmap.
