(* ===== verification/FsIo.v ===== *)
(** * The bytes of a file: readi() and writei()

    A file is the sequence of the bytes of its blocks.  Where readi() copies
    to is an interface ([sink]): user memory, kernel memory and a local
    variable of the kernel are instances of it. *)

From stdpp Require Import functions.
From S2P Require Import Prelude Memory Riscv Machine Spinlock Kalloc Vm Sched Sleeplock Dyn Bytes Ring Bio Bcache Log Dstate LogSpec Crash Fs FsState FsAlloc FsInode FsFile.

(** Byte [p] of a file, and [n] bytes from [off] on. *)
Definition fbyte (V : Z -> list Z) (x : inode) (p : Z) : Z :=
  byte_at (Z.to_nat (p mod BSIZE)) (content V (fblock V x) (p / BSIZE)).
Definition fbytes (V : Z -> list Z) (x : inode) (off : Z) (n : nat) : list Z :=
  map (fun j => fbyte V x (off + Z.of_nat j)) (seq 0 n).

Lemma length_fbytes V x off n : length (fbytes V x off n) = n.
Proof. unfold fbytes. by rewrite length_map, length_seq. Qed.

Lemma fbytes_app V x off n m :
  fbytes V x off (n + m) = fbytes V x off n ++ fbytes V x (off + Z.of_nat n) m.
Proof.
  unfold fbytes. rewrite seq_app, map_app. f_equal.
  replace (seq (0 + n) m) with (Nat.add n <$> seq 0 m) by (rewrite fmap_add_seq; f_equal; lia).
  rewrite <-list_fmap_compose. apply map_ext. intros j. cbn. f_equal. lia.
Qed.

Lemma lookup_fbytes V x off n j : (j < n)%nat -> fbytes V x off n !! j = Some (fbyte V x (off + Z.of_nat j)).
Proof. intros Hj. unfold fbytes. by rewrite list_lookup_fmap, (lookup_seq_lt 0 n j Hj). Qed.

Lemma slice_bytes o m (l : list Z) :
  (o + m <= length l)%nat -> slice o m l = map (fun j => byte_at (o + j) l) (seq 0 m).
Proof.
  intros Hl. apply list_eq. intros j. unfold slice. rewrite list_lookup_fmap.
  destruct (decide (j < m)%nat) as [Hj|Hj].
  - rewrite lookup_take_lt, lookup_drop, (lookup_seq_lt 0 m j Hj) by done. cbn. unfold byte_at.
    destruct (l !! (o + j)%nat) eqn:E; [done|]. apply lookup_ge_None in E. lia.
  - rewrite lookup_take_ge, (lookup_seq_ge 0 m j) by lia. done.
Qed.

(** The part of one block. *)
Lemma fbytes_block V x off m :
  0 <= off -> length (content V (fblock V x) (off / BSIZE)) = bsize -> off mod BSIZE + Z.of_nat m <= BSIZE ->
  slice (Z.to_nat (off mod BSIZE)) m (content V (fblock V x) (off / BSIZE)) = fbytes V x off m.
Proof.
  intros Ho Hl Hm. pose proof (Z.mod_pos_bound off BSIZE ltac:(done)).
  rewrite slice_bytes by (rewrite Hl; unfold bsize; lia). unfold fbytes. apply map_ext_in.
  intros j [_ Hj]%in_seq. unfold fbyte. unfold BSIZE in *.
  replace ((off + Z.of_nat j) / 1024) with (off / 1024) by dlia.
  replace ((off + Z.of_nat j) mod 1024) with (off mod 1024 + Z.of_nat j) by dlia. f_equal. lia.
Qed.

Lemma dst_add_add e a b : dst_add (dst_add e a) b = dst_add e (a + b).
Proof. destruct e; cbn; [..|done]; f_equal; unfold u64; rewrite Z.add_mod_idemp_l by done; f_equal; lia. Qed.

Section read.
Context {I : Image} (pid : Z) (h0 : hart) (env : list turn) (B : world -> Prop).
Context (L : gmap Z spinlock) (P : list proc) (SB : superblock) (start : Z) (d : gmap Z (list Z)) (out : Z).

#[local] Abbreviation fsys s := (FsState.fsys pid h0 env s L P SB start d out).

(** A block that the file has needs no allocation. *)
Lemma bmap_mapped s it tr bl V w i x bn :
  fsys s it tr bl V nolocks w -> it !! i = Some x -> file_ok SB V x -> in_file bn -> fblock V x bn <> 0 ->
  (length bl < NBUF)%nat ->
  wpx B (bmap i bn) (fun r w' => r = fblock V x bn /\ fsys s it tr bl V nolocks w') w.
Proof.
  intros HI Hx F [H1 H2] Hz Hr. destruct file_size_bounds as (N1 & N2 & N3). unfold bmap. unfold fblock in *.
  destruct (bn <? NDIRECT) eqn:E1.
  - wcall fsys_get_inode; [exact HI|exact Hx|]. intros ? w1 [-> HI1]. cbv zeta.
    rewrite (proj2 (Z.eqb_neq _ _)) by done. by apply wpx_ret.
  - cbv zeta. rewrite (proj2 (Z.ltb_lt (bn - NDIRECT) NINDIRECT)) by lia.
    wcall fsys_get_inode; [exact HI|exact Hx|]. intros ? w1 [-> HI1]. cbv zeta. fold (ind_block x).
    destruct (ind_block x =? 0) eqn:E2; [done|]. apply wpx_bind, wpx_ret. rewrite E2, (file_dev _ _ _ F).
    wcall fsys_bread; [exact HI1|done|apply holds_nolocks|cbn; lia|]. intros p w2 [HI2 Hcl].
    wcall fsys_get_buf; [exact HI2|by rewrite fn_lookup_insert|]. intros y w3 [HI3 Hy]. cbv zeta. rewrite Hy.
    rewrite (proj2 (Z.eqb_neq (get32 _ _) 0)) by done. apply wpx_bind, wpx_ret.
    wcall fsys_brelse; [exact HI3|by rewrite fn_lookup_insert|exact Hcl|]. intros _ w4 HI4. apply wpx_ret.
    split; [done|]. eapply fsys_ext; [exact HI4|done|]. intros k. by apply unlock_lock.
Qed.

(** Every block with bytes below [e], from [off] on, is in the file. *)
Definition filled (V : Z -> list Z) (x : inode) (off e : Z) : Prop :=
  forall p, off <= p < e -> in_file (p / BSIZE) /\ fblock V x (p / BSIZE) <> 0.

(** Where the bytes go: [sink got s] holds after [got] was delivered. *)
Class Sink (dst : rdst) (total : list Z) (sink : list Z -> kstate -> Prop) := {
  sink_start : dst_add dst 0 = dst;
  sink_copy s got chunk it tr bl V O w :
    sink got s -> got ++ chunk `prefix_of` total -> fsys s it tr bl V O w ->
    wpx B (copy_to (dst_add dst (Z.of_nat (length got))) chunk) (fun r w' =>
      r <> -1 /\ exists s', sink (got ++ chunk) s' /\ fsys s' it tr bl V O w') w
}.

Lemma readi_loop_spec dst sink (it : list inode) tr bl V i x off n fuel got s w :
  Sink dst (fbytes V x off (Z.to_nat n)) sink ->
  it !! i = Some x -> file_ok SB V x -> (length bl < NBUF)%nat -> 0 <= off -> 0 <= n -> off + n < 2 ^ 32 ->
  filled V x off (off + n) ->
  sink got s -> fsys s it tr bl V nolocks w ->
  let tot := Z.of_nat (length got) in
  tot <= n -> got = fbytes V x off (length got) ->
  (tot < n -> (off + n - 1) / BSIZE - (off + tot) / BSIZE < Z.of_nat fuel) ->
  wpx B (readi_loop fuel i (dst_add dst tot) (off + tot) n tot got) (fun r w' =>
    r = (s32 n, fbytes V x off (Z.to_nat n)) /\
    exists s', sink (fbytes V x off (Z.to_nat n)) s' /\ fsys s' it tr bl V nolocks w') w.
Proof.
  intros HS Hx F Hr Hoff Hn Hov Hfill. revert got s w. induction fuel as [|fuel IH]; intros got s w Hk HI tot Htot Hgot Hfuel;
    pose proof (eq_refl : tot = Z.of_nat (length got)) as Et.
  all: unfold readi_loop; fold readi_loop; destruct (Z.ltb_spec tot n) as [Hlt|Hge]; cbn [negb].
  2, 4: apply wpx_ret; assert (Z.to_nat n = length got) as -> by lia; replace tot with n by lia;
    rewrite <-Hgot; split; [done|eauto].
  { specialize (Hfuel Hlt). assert ((off + tot) / BSIZE <= (off + n - 1) / BSIZE); [apply Z.div_le_mono; [done|lia]|lia]. }
  destruct (Hfill (off + tot) ltac:(lia)) as [Hin Hnz].
  wcall bmap_mapped; [exact HI|exact Hx|exact F|exact Hin|exact Hnz|done|]. intros a w1 [-> HI1].
  rewrite (proj2 (Z.eqb_neq _ _)) by done.
  wcall fsys_get_inode; [exact HI1|exact Hx|]. intros ? w2 [-> HI2]. rewrite (file_dev _ _ _ F).
  wcall fsys_bread; [exact HI2|done|apply holds_nolocks|cbn; lia|]. intros p w3 [HI3 Hcl]. cbv zeta.
  wcall fsys_get_buf; [exact HI3|by rewrite fn_lookup_insert|]. intros y w4 [HI4 Hy]. rewrite Hy.
  assert (Ec : V (fblock V x ((off + tot) / BSIZE)) = content V (fblock V x) ((off + tot) / BSIZE)).
  { unfold content. by rewrite (proj2 (Z.eqb_neq _ _)). }
  set (m := Z.min (n - tot) (BSIZE - (off + tot) mod BSIZE)).
  pose proof (Z.mod_pos_bound (off + tot) BSIZE ltac:(done)) as Hmod. assert (Hm : 0 < m <= n - tot) by lia.
  rewrite Ec, fbytes_block; [|lia|rewrite <-Ec; by eapply fsys_data_length|lia].
  set (chunk := fbytes V x (off + tot) (Z.to_nat m)).
  assert (Happ : got ++ chunk = fbytes V x off (length got + Z.to_nat m)).
  { rewrite fbytes_app, <-Hgot. done. }
  eapply wpx_call; [eapply (sink_copy s got chunk); [exact Hk| |exact HI4]|].
  { rewrite Happ. exists (fbytes V x (off + Z.of_nat (length got + Z.to_nat m)) (Z.to_nat n - (length got + Z.to_nat m))).
    rewrite <-fbytes_app. f_equal. lia. }
  cbn beta. intros r w5 (Hr1 & s' & Hk' & HI5). rewrite (proj2 (Z.eqb_neq r (-1))) by done.
  wcall fsys_brelse; [exact HI5|by rewrite fn_lookup_insert|exact Hcl|]. intros _ w6 HI6.
  assert (HI6' : fsys s' it tr bl V nolocks w6).
  { eapply fsys_ext; [exact HI6|done|]. intros k. by apply unlock_lock. }
  assert (El : Z.of_nat (length (got ++ chunk)) = tot + m) by (rewrite Happ, length_fbytes; lia).
  rewrite dst_add_add, (u32_small (tot + m)), (u32_small (off + tot + m)) by lia.
  rewrite <-El, <-Z.add_assoc, <-El. apply (IH (got ++ chunk) s' w6); [done|done|lia|by rewrite Happ, length_fbytes|].
  rewrite El. intros Hlt2. specialize (Hfuel Hlt). unfold m in *. unfold BSIZE in *. clear - Hfuel Hlt2 Hmod. dlia.
Qed.

(** The length and the blocks of a file: no holes below its size. *)
Definition whole (V : Z -> list Z) (x : inode) : Prop :=
  0 <= x.(i_size) <= MAXFILE * BSIZE /\ filled V x 0 x.(i_size).

(** How many bytes a read of [n] bytes at [off] gets. *)
Definition read_len (x : inode) (off n : Z) : Z :=
  if (off >? x.(i_size)) || (off + n >=? 2 ^ 32) then 0 else Z.min n (x.(i_size) - off).

Lemma u32_wraps off n : 0 <= off < 2 ^ 32 -> 0 <= n < 2 ^ 32 ->
  (u32 (off + n) <? off) = (off + n >=? 2 ^ 32) /\ (off + n < 2 ^ 32 -> u32 (off + n) = off + n).
Proof.
  intros Ho Hn. unfold u32. change (2 ^ 32) with 4294967296 in *. split; [|intros; apply Z.mod_small; lia].
  destruct (Z.geb_spec (off + n) 4294967296); [apply Z.ltb_lt|apply Z.ltb_ge]; dlia.
Qed.

Lemma readi_spec dst sink (it : list inode) tr bl V i x off n s w :
  Sink dst (fbytes V x off (Z.to_nat (read_len x off n))) sink ->
  it !! i = Some x -> file_ok SB V x -> whole V x -> (length bl < NBUF)%nat ->
  0 <= off < 2 ^ 32 -> 0 <= n < 2 ^ 32 -> sink [] s -> fsys s it tr bl V nolocks w ->
  wpx B (readi i dst off n) (fun r w' =>
    r = (read_len x off n, fbytes V x off (Z.to_nat (read_len x off n))) /\
    exists s', sink r.2 s' /\ fsys s' it tr bl V nolocks w') w.
Proof.
  intros HS Hx F [Hsz Hfill] Hr Hoff Hn Hk HI. unfold readi.
  assert (Hmax : MAXFILE * BSIZE = 274432) by done.
  wcall fsys_get_inode; [exact HI|exact Hx|]. intros ? w1 [-> HI1].
  destruct (u32_wraps off n Hoff Hn) as [-> Hu]. unfold read_len in *.
  destruct ((off >? i_size x) || (off + n >=? 2 ^ 32)) eqn:Eg.
  { apply wpx_ret. split; [done|]. by exists s. }
  apply orb_false_iff in Eg as [Eo Ew]. rewrite Z.gtb_ltb in Eo. apply Z.ltb_ge in Eo. rewrite Z.geb_leb in Ew. apply Z.leb_gt in Ew.
  cbv zeta. rewrite (Hu Ew). set (n' := Z.min n (i_size x - off)) in *.
  replace (if off + n >? i_size x then u32 (i_size x - off) else n) with n'.
  2:{ rewrite Z.gtb_ltb. destruct (Z.ltb_spec (i_size x) (off + n)); [rewrite u32_small by lia|]; lia. }
  assert (Hn' : 0 <= n') by lia. rewrite <-(sink_start (dst := dst)), <-(Z.add_0_r off) at 1.
  eapply wpx_mono; [eapply (readi_loop_spec dst sink it tr bl V i x off n' _ [] s w1); try done; try lia|].
  - intros p Hp. apply Hfill. lia.
  - intros _. cbn [length]. rewrite Z.add_0_r. unfold BSIZE. rewrite Nat2Z.inj_add, Z2Nat.id; [dlia|]. dlia.
  - cbn beta. intros r w2 (-> & Hs). rewrite s32_small by lia. done.
Qed.

(** A local variable of the kernel. *)
#[export] Instance local_sink total s0 : Sink DstLocal total (fun _ s => s = s0).
Proof. split; [done|]. intros s got chunk it tr bl V O w -> _ HI. apply wpx_ret. cbn beta. split; [done|eauto]. Qed.

End read.

(** ** Writing *)

Lemma byte_at_splice o bs l j :
  (o + length bs <= length l)%nat ->
  byte_at j (splice o bs l) =
    if decide (o <= j < o + length bs)%nat then byte_at (j - o) bs else byte_at j l.
Proof.
  intros Hl. unfold byte_at, splice. case_decide as H.
  - rewrite lookup_app_r, length_take_le, lookup_app_l by (rewrite ?length_take_le; lia). done.
  - destruct (decide (j < o)%nat).
    + rewrite lookup_app_l, lookup_take_lt by (rewrite ?length_take_le; lia). done.
    + rewrite lookup_app_r, length_take_le, lookup_app_r, lookup_drop by (rewrite ?length_take_le; lia).
      do 2 f_equal. lia.
Qed.

Lemma byte_at_slice o m l j : (j < m)%nat -> byte_at j (slice o m l) = byte_at (o + j) l.
Proof. intros Hj. unfold byte_at, slice. by rewrite lookup_take_lt, lookup_drop. Qed.

(** The bytes of a file after [bs] has been written at [off]. *)
Definition written (V : Z -> list Z) (x : inode) (off : Z) (bs : list Z) (p : Z) : Z :=
  if decide (off <= p < off + Z.of_nat (length bs)) then byte_at (Z.to_nat (p - off)) bs else fbyte V x p.

(** A position that a file can have. *)
Definition in_range (p : Z) : Prop := 0 <= p < MAXFILE * BSIZE.

Lemma in_range_file p : in_range p -> in_file (p / BSIZE).
Proof.
  unfold in_range, in_file. destruct file_size_bounds as (_ & _ & ->). unfold BSIZE. intros. dlia.
Qed.

(** A write of bytes into a block of the file. *)
Lemma write_block sb start V x k o bs :
  layout sb start -> file_ok sb V x -> bitmap_ok sb V -> in_file k -> fblock V x k <> 0 ->
  length (V (fblock V x k)) = bsize -> 0 <= o -> o + Z.of_nat (length bs) <= BSIZE ->
  let V' := <[fblock V x k := splice (Z.to_nat o) bs (V (fblock V x k))]> V in
  file_ok sb V' x /\ bitmap_ok sb V' /\
  grows sb V (ind_block x) (fblock V x) V' (ind_block x) (fblock V' x) /\
  (forall j, fblock V' x j = fblock V x j) /\
  (forall p, in_range p -> fbyte V' x p = written V x (k * BSIZE + o) bs p).
Proof.
  intros HG F HV Hk Hz Hl Ho Hbs V'. pose proof F as [F1 F2 W]. destruct (own_blk _ _ _ _ W k Hk Hz) as (Hd & Hb & Hi).
  assert (E : forall j, fblock V' x j = fblock V x j).
  { intros j. apply fblock_agree. unfold V'. by rewrite fn_lookup_insert_ne. }
  assert (Hbm : forall c, in_bitmap sb c -> V' c = V c).
  { intros c Hc. unfold V'. rewrite fn_lookup_insert_ne; [done|]. intros <-. by eapply not_bitmap. }
  assert (Hbit : forall b, 0 <= b < sb_size sb -> bit sb V' b = bit sb V b) by (intros; by eapply bit_agree).
  split_and!; [|..|done|].
  - split; [done|done|]. eapply owned_agree; [done|exact W|done|auto].
  - intros b [Hb1 Hb2]. rewrite Hbit in Hb2 by done. by apply HV.
  - split; [auto|done| | | |].
    + intros b Hb1. by rewrite Hbit.
    + intros b Hb1. rewrite Hbit by done. congruence.
    + intros b Hb1 Hn. unfold V'. rewrite fn_lookup_insert_ne; [done|]. intros <-. apply Hn. split; [done|].
      right. exists k. by rewrite E.
    + intros b [Hb1 Hown]. left. split; [done|]. destruct Hown as [?|(j & Hj & <-)]; [by left|right]. exists j. by rewrite E.
  - intros p Hp. pose proof (in_range_file p Hp) as Hpk. unfold fbyte, content, written. rewrite E.
    destruct (decide (p / BSIZE = k)) as [Ek|Ek].
    + rewrite Ek, (proj2 (Z.eqb_neq _ _)) by done. unfold V'. rewrite fn_lookup_insert.
      rewrite byte_at_splice by (rewrite Hl; unfold bsize; lia).
      pose proof (Z.mod_pos_bound p BSIZE ltac:(done)). assert (p = k * BSIZE + p mod BSIZE) by (unfold BSIZE in *; dlia).
      repeat case_decide; try lia; [f_equal; lia|]. unfold fbyte, content. by rewrite Ek, (proj2 (Z.eqb_neq _ _)).
    + rewrite decide_False by (unfold BSIZE in *; dlia). destruct (Z.eqb_spec (fblock V x (p / BSIZE)) 0) as [Ez|Ez].
      * unfold fbyte, content. by rewrite Ez.
      * unfold V'. rewrite fn_lookup_insert_ne; [unfold fbyte, content; by rewrite (proj2 (Z.eqb_neq _ _))|].
        intros Ef. apply Ek. symmetry. by eapply own_inj.
Qed.

(** Consecutive writes. *)
Lemma written_app V x V1 x1 off bs bs' p :
  (forall q, in_range q -> fbyte V1 x1 q = written V x off bs q) -> in_range p ->
  written V1 x1 (off + Z.of_nat (length bs)) bs' p = written V x off (bs ++ bs') p.
Proof.
  intros H1 Hp. unfold written. rewrite length_app, H1 by done. unfold written.
  repeat case_decide; try lia; try done.
  - unfold byte_at. rewrite lookup_app_r by lia. do 2 f_equal. lia.
  - unfold byte_at. rewrite lookup_app_l by lia. done.
Qed.

(** What holds of the file while writei() is in its loop: the bytes [bs] have
    been written at [off], and the write ends before [e]. *)
Record writing (sb : superblock) (V : Z -> list Z) (x : inode) (bl : list Z) (off e : Z) (bs : list Z)
    (V' : Z -> list Z) (x' : inode) (bl' : list Z) : Prop := {
  wr_ok : file_ok sb V' x';
  wr_map : bitmap_ok sb V';
  wr_inode : x' = set_i_addrs x'.(i_addrs) x;
  wr_grows : grows sb V (ind_block x) (fblock V x) V' (ind_block x') (fblock V' x');
  wr_bytes p : in_range p -> fbyte V' x' p = written V x off bs p;
  wr_filled : filled V' x' off (off + Z.of_nat (length bs));
  wr_log c : c ∈ bl' -> c ∈ bl \/ in_bitmap sb c \/ (c <> 0 /\ (c = ind_block x' \/
    exists k, off / BSIZE <= k /\ k * BSIZE < e /\ c = fblock V' x' k))
}.

Lemma writing_start sb V x bl off e : file_ok sb V x -> bitmap_ok sb V -> writing sb V x bl off e [] V x bl.
Proof.
  intros F HV. split; try done; [by destruct x|apply grows_refl|..].
  - intros p Hp. unfold written. by rewrite decide_False by (cbn; lia).
  - intros p. cbn. lia.
  - auto.
Qed.

Lemma filled_grows sb V x V' x' off e :
  grows sb V (ind_block x) (fblock V x) V' (ind_block x') (fblock V' x') -> filled V x off e -> filled V' x' off e.
Proof.
  intros G Hf p Hp. destruct (Hf p Hp) as [Hin Hz]. split; [done|]. by rewrite (gr_blk _ _ _ _ _ _ _ G).
Qed.

Lemma writing_bmap sb V x bl off e bs V1 x1 bl1 it1 i bn r it2 x2 bl2 V2 :
  0 <= off -> e <= MAXFILE * BSIZE -> in_file bn ->
  writing sb V x bl off e bs V1 x1 bl1 -> bmapped sb it1 i x1 bl1 V1 bn r it2 x2 bl2 V2 ->
  r = 0 \/ (off / BSIZE <= bn /\ bn * BSIZE < e) -> writing sb V x bl off e bs V2 x2 bl2.
Proof.
  intros Ho He Hbn [A1 A2 A3 A4 A5 A6 A7] [B1 [C1 C2 C3 C4 C5] B2 B3 B4 B5] Hr. split; try done.
  - rewrite C3, A3. by destruct x.
  - by eapply grows_trans.
  - intros p Hp. rewrite <-A5 by done. unfold fbyte. by rewrite C5 by (by apply in_range_file).
  - by eapply filled_grows.
  - intros c [Hc|Hc]%B2.
    + destruct (A7 c Hc) as [?|[?|(Hc0 & [-> | (k & Hk1 & Hk2 & ->)])]]; [by left|by right;left|right;right|right;right].
      * split; [done|]. left. symmetry. by apply (gr_ind _ _ _ _ _ _ _ C4).
      * split; [done|]. right. exists k. split_and!; [done..|]. symmetry. apply (gr_blk _ _ _ _ _ _ _ C4); [|done].
        unfold in_file. assert (0 <= off / BSIZE) by (apply Z.div_pos; done). unfold BSIZE in *. lia.
    + destruct Hc as [?|(Hc0 & [-> | ->])]; [by right;left|right;right; split; [done|by left]|right;right].
      split; [done|]. right. destruct Hr as [Hr|[? ?]]; [congruence|]. by exists bn.
Qed.

Lemma writing_block sb start V x bl off e bs V1 x1 bl1 chunk k o :
  layout sb start -> writing sb V x bl off e bs V1 x1 bl1 -> in_file k -> fblock V1 x1 k <> 0 ->
  length (V1 (fblock V1 x1 k)) = bsize -> 0 <= o < BSIZE -> o + Z.of_nat (length chunk) <= BSIZE -> 0 <= off ->
  k * BSIZE + o = off + Z.of_nat (length bs) -> k * BSIZE < e ->
  writing sb V x bl off e (bs ++ chunk)
    (<[fblock V1 x1 k := splice (Z.to_nat o) chunk (V1 (fblock V1 x1 k))]> V1) x1 (logged (fblock V1 x1 k) bl1).
Proof.
  intros HG [A1 A2 A3 A4 A5 A6 A7] Hk Hz Hl Ho Hc Hoff Ep He.
  destruct (write_block sb start V1 x1 k o chunk HG A1 A2 Hk Hz Hl (proj1 Ho) Hc) as (B1 & B2 & B3 & B4 & B5).
  split; try done.
  - by eapply grows_trans.
  - intros p Hp. rewrite B5, Ep by done. by apply written_app.
  - intros p Hp. rewrite length_app in Hp. rewrite B4. destruct (decide (p < off + Z.of_nat (length bs))) as [Hlt|Hge].
    { apply A6. lia. }
    assert (p / BSIZE = k) as -> by (unfold BSIZE in *; dlia). done.
  - intros c [-> | Hc']%elem_logged.
    + right; right. split; [done|]. right. exists k. split_and!; [unfold BSIZE in *; dlia|done|by rewrite B4].
    + destruct (A7 c Hc') as [?|[?|(Hc0 & [-> | (k' & Hk1 & Hk2 & ->)])]]; [by left|by right;left|right;right|right;right].
      * split; [done|by left].
      * split; [done|]. right. exists k'. by rewrite B4.
Qed.

(** ** The size of a transaction *)

(** The blocks of the free map, and the blocks that bytes [off, e) touch. *)
Definition bitmap_blocks (sb : superblock) : nat := Z.to_nat (sb.(sb_size) / BPB + 1).
Definition span (off e : Z) : nat := Z.to_nat ((e - 1) / BSIZE - off / BSIZE + 1).

Lemma writing_length sb start V x bl off e bs V' x' bl' :
  layout sb start -> 0 <= off -> writing sb V x bl off e bs V' x' bl' -> NoDup bl' ->
  (length bl' <= length bl + bitmap_blocks sb + 1 + span off e)%nat.
Proof.
  intros HG Hoff W Hnd. pose proof (layout_facts sb start HG) as HF.
  set (M := bl ++ (seqZ (sb_bmapstart sb) (sb_size sb / BPB + 1)) ++ [ind_block x'] ++
    (fblock V' x' <$> seqZ (off / BSIZE) ((e - 1) / BSIZE - off / BSIZE + 1))).
  assert (Hsub : bl' ⊆+ M).
  { apply NoDup_submseteq; [done|]. intros c [Hc|[Hc|(Hc0 & [-> | (k & Hk1 & Hk2 & ->)])]]%(wr_log _ _ _ _ _ _ _ _ _ _ W).
    - apply elem_of_app. by left.
    - apply elem_of_app. right. apply elem_of_app. left. apply elem_of_seqZ. unfold in_bitmap, datastart in Hc. lia.
    - do 2 (apply elem_of_app; right). apply elem_of_app. left. by apply list_elem_of_singleton.
    - do 3 (apply elem_of_app; right). apply list_elem_of_fmap. exists k. split; [done|]. apply elem_of_seqZ.
      unfold BSIZE in *. split; [done|]. dlia. }
  apply submseteq_length in Hsub. unfold M in Hsub. rewrite !length_app, length_fmap, !length_seqZ in Hsub.
  cbn [length] in Hsub. unfold bitmap_blocks, span. lia.
Qed.

Lemma src_add_add e a b : 0 <= a -> 0 <= b -> src_add (src_add e a) b = src_add e (a + b).
Proof.
  intros Ha Hb. destruct e; cbn; f_equal; [..|rewrite drop_drop; f_equal; lia].
  all: unfold u64; rewrite Z.add_mod_idemp_l by done; f_equal; lia.
Qed.

Section write.
Context {I : Image} (pid : Z) (h0 : hart) (env : list turn) (B : world -> Prop).
Context (L : gmap Z spinlock) (P : list proc) (SB : superblock) (start : Z) (d : gmap Z (list Z)) (out : Z).
Context (HG : layout SB start) (Hout : 1 <= out).

#[local] Abbreviation fsys s := (FsState.fsys pid h0 env s L P SB start d out).

(** Where the bytes come from; copying may change the kernel's state, when a
    user page is taken on demand. *)
Class Source (src : wsrc) (total : list Z) (inv : kstate -> Prop) := {
  source_start : src_add src 0 = src;
  source_copy s k m it tr bl V O w :
    inv s -> 0 <= m -> Z.of_nat k + m <= Z.of_nat (length total) -> fsys s it tr bl V O w ->
    wpx B (copy_from (src_add src (Z.of_nat k)) m) (fun r w' =>
      r.1 <> -1 /\ r.2 = slice k (Z.to_nat m) total /\ exists s', inv s' /\ fsys s' it tr bl V O w') w
}.

#[export] Instance local_source total s0 : Source (SrcLocal total) total (fun s => s = s0).
Proof.
  split; [done|]. intros s k m it tr bl V O w -> Hm Hkm HI. unfold copy_from, src_add. rewrite Nat2Z.id.
  apply wpx_ret. split_and!; [done|done|eauto].
Qed.

(** The room in the log and in the buffer cache that a write needs. *)
Definition write_room (bl : list Z) (off e : Z) : Prop :=
  (length bl + bitmap_blocks SB + span off e + 5 < NBUF)%nat.

Lemma slice_0 n (l : list Z) : slice 0 n l = take n l.
Proof. unfold slice. by rewrite drop_0. Qed.

Lemma take_slice n m (l : list Z) : take n l ++ slice n m l = take (n + m) l.
Proof. unfold slice. apply take_take_drop. Qed.

(** The state at the end of the loop. *)
Definition write_result (inv : kstate -> Prop) it tr i x bl V off n total (tot : Z) (w' : world) : Prop :=
  exists s' x' bl' V', inv s' /\ 0 <= tot <= n /\ (tot < n -> (forall b, ~ free SB V' b) /\ fblock V' x' ((off + tot) / BSIZE) = 0) /\
    writing SB V x bl off (off + n) (take (Z.to_nat tot) total) V' x' bl' /\
    fsys s' (<[i := x']> it) (tr ++ if tot <? n then oops 0 else []) bl' V' nolocks w'.

Lemma writei_loop_spec src inv it tr i x bl V off n total fuel s x1 bl1 V1 w (k : nat) :
  Source src total inv -> Z.of_nat (length total) = n -> (i < length it)%nat ->
  0 <= off -> off + n <= MAXFILE * BSIZE -> write_room bl off (off + n) ->
  inv s -> fsys s (<[i := x1]> it) tr bl1 V1 nolocks w ->
  writing SB V x bl off (off + n) (take k total) V1 x1 bl1 -> (k <= length total)%nat ->
  let tot := Z.of_nat k in
  (tot < n -> (off + n - 1) / BSIZE - (off + tot) / BSIZE < Z.of_nat fuel) ->
  wpx B (writei_loop fuel i (src_add src tot) (off + tot) n tot) (fun r w' =>
    r = (r.1, off + r.1) /\ write_result inv it tr i x bl V off n total r.1 w') w.
Proof using HG Hout.
  intros HS Hn Hi Hoff Hmax Hroom. assert (Em : MAXFILE * BSIZE = 274432) by done.
  revert k s x1 bl1 V1 w. induction fuel as [|fuel IH]; intros k s x1 bl1 V1 w Hk HI W Hle tot Hfuel;
    pose proof (eq_refl : tot = Z.of_nat k) as Et.
  all: unfold writei_loop; fold writei_loop; destruct (Z.ltb_spec tot n) as [Hlt|Hge]; cbn [negb].
  2, 4: apply wpx_ret; cbn [fst]; split; [done|]; exists s, x1, bl1, V1; rewrite (proj2 (Z.ltb_ge _ _)), app_nil_r by lia;
    replace (Z.to_nat tot) with k by lia; split_and!; (done || lia).
  { specialize (Hfuel Hlt). assert ((off + tot) / BSIZE <= (off + n - 1) / BSIZE); [apply Z.div_le_mono; [done|lia]|lia]. }
  pose proof (writing_length _ _ _ _ _ _ _ _ _ _ _ HG Hoff W (fsys_nodup HI)) as Hlen.
  unfold write_room in Hroom. pose proof W as [F1 HV1 _ _ _ _ _].
  assert (Hx1 : (<[i := x1]> it) !! i = Some x1) by (by apply list_lookup_insert_eq).
  assert (Hin : in_file ((off + tot) / BSIZE)) by (apply in_range_file; unfold in_range; lia).
  wcall bmap_spec; [exact HG|exact Hout|exact HI|exact Hx1|exact F1|exact HV1|lia|exact Hin|].
  intros a w1 (it2 & x2 & bl2 & V2 & HB & HI1).
  pose proof (bm_res _ _ _ _ _ _ _ _ _ _ _ _ HB) as Ea. pose proof (bm_table _ _ _ _ _ _ _ _ _ _ _ _ HB) as Eit.
  rewrite list_insert_insert_eq in Eit. subst it2.
  assert (W2 : writing SB V x bl off (off + n) (take k total) V2 x2 bl2).
  { eapply writing_bmap; [exact Hoff|lia|exact Hin|exact W|exact HB|]. right.
    split; [apply Z.div_le_mono; [done|lia]|]. unfold BSIZE in *. dlia. }
  destruct (Z.eqb_spec a 0) as [Hz|Hz].
  { apply wpx_ret. cbn [fst]. split; [done|]. exists s, x2, bl2, V2. rewrite (proj2 (Z.ltb_lt _ _)) by lia.
    replace (Z.to_nat tot) with k by lia. rewrite Hz in HI1. split_and!; try (done || lia).
    intros _. split; [by apply (bm_full _ _ _ _ _ _ _ _ _ _ _ _ HB)|congruence]. }
  unfold oops in HI1. rewrite (proj2 (Z.eqb_neq a 0)), app_nil_r in HI1 by done. pose proof W2 as [F2 _ _ _ _ _ _].
  wcall fsys_get_inode; [exact HI1|by apply list_lookup_insert_eq|]. intros ? w2 [-> HI2]. rewrite (file_dev _ _ _ F2).
  pose proof (writing_length _ _ _ _ _ _ _ _ _ _ _ HG Hoff W2 (fsys_nodup HI2)) as Hlen2.
  wcall fsys_bread; [exact HI2|done|apply holds_nolocks|cbn; lia|]. intros p w3 [HI3 _]. cbv zeta.
  remember (Z.min (n - tot) (BSIZE - (off + tot) mod BSIZE)) as m eqn:Em2.
  pose proof (Z.mod_pos_bound (off + tot) BSIZE ltac:(done)) as Hmod. assert (Hm : 0 < m <= n - tot) by lia.
  eapply wpx_call; [eapply (source_copy s k m); [exact Hk|lia|lia|exact HI3]|].
  cbn beta. intros [r bytes] w4 (Hr & Hb & s' & Hk' & HI4). cbn [fst snd] in *.
  set (chunk := slice k (Z.to_nat m) total) in *. subst bytes.
  assert (Hlc : length chunk = Z.to_nat m) by (unfold chunk, slice; rewrite length_take, length_drop; lia).
  wcall fsys_upd_data; [exact HI4|by rewrite fn_lookup_insert|..].
  { rewrite length_splice; [by eapply fsys_data_length|]. erewrite fsys_data_length by exact HI4. rewrite Hlc. unfold bsize. lia. }
  intros _ w5 HI5. rewrite (proj2 (Z.eqb_neq r (-1))) by done.
  wcall fsys_log_write; [exact HI5|exact Hout|by rewrite fn_lookup_insert|apply room_log; lia|..].
  { rewrite Ea. eapply data_loggable; [exact HG|]. rewrite Ea in Hz.
    apply (own_blk _ _ _ _ (file_owned _ _ _ F2) _ Hin Hz). }
  intros _ w6 HI6. wcall fsys_brelse; [exact HI6|by rewrite fn_lookup_insert|..].
  { intros Hnb. destruct Hnb. apply elem_logged. by left. }
  intros _ w7 HI7. rewrite src_add_add, (u32_small (tot + m)), (u32_small (off + tot + m)) by lia.
  replace (off + tot + m) with (off + Z.of_nat (k + Z.to_nat m)) by lia.
  replace (tot + m) with (Z.of_nat (k + Z.to_nat m)) by lia.
  eapply IH; [exact Hk'| | |lia|].
  - eapply fsys_ext; [exact HI7|reflexivity|]. intros b. by apply unlock_lock.
  - rewrite <-take_slice, Ea. eapply writing_block; [exact HG|exact W2|done|by rewrite <-Ea| |lia|rewrite Hlc; lia|done| |].
    + eapply fsys_data_length. exact HI4.
    + rewrite length_take. unfold BSIZE in *. dlia.
    + unfold BSIZE in *. dlia.
  - intros Hlt2. specialize (Hfuel Hlt). unfold BSIZE in *. clear - Hfuel Hlt2 Hmod Et Hm Em2. dlia.
Qed.

(** The inode after a write that ended at [off]. *)
Definition extend (off : Z) (x : inode) : inode := if off >? x.(i_size) then set_i_size off x else x.

(** The blocks of the file do not depend on its inode block. *)
Lemma inode_block_apart i b : 0 <= i < SB.(sb_ninodes) -> data_block SB b \/ in_bitmap SB b -> IBLOCK i SB <> b.
Proof using HG start.
  intros Hi Hb E. pose proof (IBLOCK_range SB start HG i Hi). pose proof (layout_facts SB start HG).
  unfold data_block, in_bitmap in Hb. dlia.
Qed.

Lemma update_map_data x V b : 0 <= x.(i_inum) < SB.(sb_ninodes) -> data_block SB b \/ in_bitmap SB b ->
  update_map SB x V b = V b.
Proof using HG start. intros Hi Hb. unfold update_map. rewrite fn_lookup_insert_ne; [done|]. by apply inode_block_apart. Qed.

Lemma fblock_extend V off x k : fblock V (extend off x) k = fblock V x k.
Proof. unfold extend. by destruct (off >? i_size x). Qed.

Lemma fblock_update y x V k : 0 <= y.(i_inum) < SB.(sb_ninodes) -> file_ok SB V x ->
  fblock (update_map SB y V) x k = fblock V x k.
Proof using HG start.
  intros Hi F. unfold fblock. destruct (k <? NDIRECT); [done|]. destruct (Z.eqb_spec (ind_block x) 0) as [|Hz]; [done|].
  rewrite update_map_data; [done|done|]. left. by apply (own_ind _ _ _ _ (file_owned _ _ _ F)).
Qed.

Lemma file_ok_update y x V off : 0 <= y.(i_inum) < SB.(sb_ninodes) -> file_ok SB V x -> bitmap_ok SB V ->
  file_ok SB (update_map SB y V) (extend off x) /\ bitmap_ok SB (update_map SB y V) /\
  forall p, in_range p -> fbyte (update_map SB y V) (extend off x) p = fbyte V x p.
Proof using HG start.
  intros Hi F HV. pose proof F as [F1 F2 W].
  assert (E : forall k, fblock (update_map SB y V) (extend off x) k = fblock V x k).
  { intros k. by rewrite fblock_extend, fblock_update. }
  assert (Hbm : forall c, in_bitmap SB c -> update_map SB y V c = V c) by (intros c Hc; apply update_map_data; auto).
  split_and!.
  - split; [unfold extend; by case_match|unfold extend; by case_match|].
    replace (ind_block (extend off x)) with (ind_block x) by (unfold extend; by case_match).
    eapply owned_agree; [exact HG|exact W|done|auto].
  - intros b [Hb1 Hb2]. erewrite (bit_agree SB start HG V) in Hb2 by done. by apply HV.
  - intros p Hp. unfold fbyte, content. rewrite E. destruct (Z.eqb_spec (fblock V x (p / BSIZE)) 0) as [|Hz]; [done|].
    rewrite update_map_data; [done|done|]. left. by apply (own_blk _ _ _ _ W _ (in_range_file p Hp) Hz).
Qed.

(** What a write leaves: the bytes [bs] are in the file at [off]. *)
Record wrote (V : Z -> list Z) (x : inode) (bl : list Z) (off e : Z) (bs : list Z)
    (V' : Z -> list Z) (x' : inode) (bl' : list Z) : Prop := {
  wt_ok : file_ok SB V' x';
  wt_map : bitmap_ok SB V';
  wt_whole : whole V' x';
  wt_inode : x' = set_i_size (Z.max x.(i_size) (off + Z.of_nat (length bs))) (set_i_addrs x'.(i_addrs) x);
  wt_bytes p : in_range p -> fbyte V' x' p = written V x off bs p;
  wt_keep k : in_file k -> fblock V x k <> 0 -> fblock V' x' k = fblock V x k;
  wt_disk : V' (IBLOCK x.(i_inum) SB) = put_dinode (dinode_off x.(i_inum)) x' (V (IBLOCK x.(i_inum) SB));
  wt_new b : 0 <= b < SB.(sb_size) -> bit SB V b = false -> bit SB V' b = true -> owns (ind_block x') (fblock V' x') b;
  wt_used b : 0 <= b < SB.(sb_size) -> bit SB V b = true -> bit SB V' b = true;
  wt_frame b : ~ in_bitmap SB b -> ~ owns (ind_block x') (fblock V' x') b -> b <> IBLOCK x.(i_inum) SB -> V' b = V b;
  wt_own b : owns (ind_block x') (fblock V' x') b -> owns (ind_block x) (fblock V x) b \/ free SB V b;
  wt_ind : ind_block x <> 0 -> ind_block x' = ind_block x;
  wt_log : (length bl' <= length bl + bitmap_blocks SB + span off e + 2)%nat
}.

Lemma writing_wrote V x bl off e bs V1 x1 bl1 :
  0 <= x.(i_inum) < SB.(sb_ninodes) -> 0 <= off <= x.(i_size) -> off + Z.of_nat (length bs) <= MAXFILE * BSIZE ->
  whole V x -> NoDup bl1 -> writing SB V x bl off e bs V1 x1 bl1 ->
  let x' := extend (off + Z.of_nat (length bs)) x1 in
  wrote V x bl off e bs (update_map SB x' V1) x' (logged (IBLOCK x.(i_inum) SB) bl1).
Proof using HG.
  intros Hi Hoff Hmax [Hsz Hfill] Hnd W x'. pose proof (writing_length _ _ _ _ _ _ _ _ _ _ _ HG (proj1 Hoff) W Hnd) as Hlen.
  destruct W as [F1 HV1 Ei G Hby Hf Hlog].
  assert (Ein : i_inum x' = i_inum x) by (unfold x', extend; rewrite Ei; by case_match).
  assert (Esz : i_size x1 = i_size x) by (rewrite Ei; by destruct x).
  assert (Hi' : 0 <= i_inum x' < SB.(sb_ninodes)) by lia.
  destruct (file_ok_update x' x1 V1 (off + Z.of_nat (length bs)) Hi' F1 HV1) as (R1 & R2 & R3).
  assert (E : forall k, fblock (update_map SB x' V1) x' k = fblock V1 x1 k).
  { intros k. unfold x' at 2. by rewrite fblock_extend, fblock_update. }
  assert (Eind : ind_block x' = ind_block x1) by (unfold x', extend; by case_match).
  assert (Eo : forall b, owns (ind_block x') (fblock (update_map SB x' V1) x') b <-> owns (ind_block x1) (fblock V1 x1) b).
  { intros b. unfold owns. rewrite Eind. by setoid_rewrite E. }
  assert (Exz : i_size x' = Z.max (i_size x) (off + Z.of_nat (length bs))).
  { unfold x', extend. rewrite Z.gtb_ltb, Esz. destruct (Z.ltb_spec (i_size x) (off + Z.of_nat (length bs))); cbn; lia. }
  assert (Hbit : forall b, 0 <= b < SB.(sb_size) -> bit SB (update_map SB x' V1) b = bit SB V1 b).
  { intros b Hb. eapply bit_agree; [exact HG| |done]. intros c Hc. apply update_map_data; auto. }
  split; try done.
  - split; [rewrite Exz; lia|]. rewrite Exz. intros p Hp. rewrite E. destruct (decide (p < i_size x)) as [Hlt|Hge].
    + apply (filled_grows _ _ _ _ _ _ _ G Hfill). lia.
    + apply Hf. lia.
  - rewrite <-Exz. unfold x', extend. rewrite Ei. by case_match.
  - intros p Hp. by rewrite R3, Hby.
  - intros k Hk Hz. rewrite E. by apply (gr_blk _ _ _ _ _ _ _ G).
  - unfold update_map. rewrite Ein, fn_lookup_insert. f_equal. apply (gr_frame _ _ _ _ _ _ _ G).
    + intros Hc. by eapply (inode_block_apart (i_inum x)); [|right|].
    + intros Ho. eapply (inode_block_apart (i_inum x)); [done|left|done].
      by apply (owned_data SB _ _ _ _ (file_owned _ _ _ F1)).
  - intros b Hb H0. rewrite Hbit, Eo by done. by apply (gr_new _ _ _ _ _ _ _ G).
  - intros b Hb H0. rewrite Hbit by done. by apply (gr_bits _ _ _ _ _ _ _ G).
  - intros b Hb Ho Hne. rewrite Eo in Ho. unfold update_map. rewrite Ein, fn_lookup_insert_ne by done.
    by apply (gr_frame _ _ _ _ _ _ _ G).
  - intros b. rewrite Eo. apply (gr_own _ _ _ _ _ _ _ G).
  - intros Hz. rewrite Eind. by apply (gr_ind _ _ _ _ _ _ _ G).
  - pose proof (length_logged (IBLOCK (i_inum x) SB) bl1). lia.
Qed.

Lemma writei_spec src inv it tr i x bl V off n total s w :
  Source src total inv -> Z.of_nat (length total) = n ->
  it !! i = Some x -> file_ok SB V x -> whole V x -> bitmap_ok SB V -> 0 <= x.(i_inum) < SB.(sb_ninodes) ->
  0 <= off <= x.(i_size) -> off + n <= MAXFILE * BSIZE -> write_room bl off (off + n) ->
  inv s -> fsys s it tr bl V nolocks w ->
  wpx B (writei i src off n) (fun tot w' => exists s' x' bl' V', inv s' /\ 0 <= tot <= n /\
    (tot < n -> (forall b, ~ free SB V' b) /\ fblock V' x' ((off + tot) / BSIZE) = 0) /\
    wrote V x bl off (off + n) (take (Z.to_nat tot) total) V' x' bl' /\
    fsys s' (<[i := x']> it) (tr ++ if tot <? n then oops 0 else []) bl' V' nolocks w') w.
Proof using HG Hout.
  intros HS Hn Hx F HW HV Hi Hoff Hmax Hroom Hk HI. assert (Em : MAXFILE * BSIZE = 274432) by done.
  pose proof HW as [Hsz _]. assert (Hlt : (i < length it)%nat) by (by eapply lookup_lt_Some). unfold writei.
  wcall fsys_get_inode; [exact HI|exact Hx|]. intros ? w1 [-> HI1].
  rewrite Z.gtb_ltb, (proj2 (Z.ltb_ge _ _)) by lia. rewrite !(u32_small (off + n)) by lia.
  rewrite (proj2 (Z.ltb_ge (off + n) off)), Z.gtb_ltb, (proj2 (Z.ltb_ge _ (off + n))) by lia. cbn [orb].
  eapply wpx_call; [|cbn beta].
  { pose proof (writei_loop_spec src inv it tr i x bl V off n total (Z.to_nat (n / BSIZE) + 2) s x bl V w1 0) as HL.
    cbv zeta in HL. change (Z.of_nat 0) with 0 in HL. rewrite Z.add_0_r, source_start in HL. apply HL; try done; try lia.
    - by rewrite list_insert_id.
    - by apply writing_start.
    - intros _. unfold BSIZE. rewrite Nat2Z.inj_add, Z2Nat.id; dlia. }
  intros [tot off'] w2 [Eoff (s' & x1 & bl1 & V1 & Hk' & Htot & Hfull & W & HI2)]. cbn [fst] in *. injection Eoff as ->.
  pose proof (writing_length _ _ _ _ _ _ _ _ _ _ _ HG (proj1 Hoff) W (fsys_nodup HI2)) as Hlen.
  assert (Hbs : Z.of_nat (length (take (Z.to_nat tot) total)) = tot) by (rewrite length_take; lia).
  wcall fsys_get_inode; [exact HI2|by apply list_lookup_insert_eq|]. intros ? w3 [-> HI3].
  eapply (wpx_call _ _ _ (fun _ => fsys s' (<[i := extend (off + tot) x1]> it) (tr ++ if tot <? n then oops 0 else []) bl1 V1 nolocks)).
  { unfold extend. apply wpx_when; intros E; rewrite E; [|done].
    eapply wpx_mono; [eapply fsys_upd_inode; [exact HI3|by apply list_lookup_insert_eq]|].
    cbn beta. intros _ w4. by rewrite list_insert_insert_eq. }
  intros _ w4 HI4. pose proof (wr_inode _ _ _ _ _ _ _ _ _ _ W) as Ei.
  assert (Ein : i_inum (extend (off + tot) x1) = i_inum x) by (trans (i_inum x1); [unfold extend; by destruct (off + tot >? i_size x1)|by rewrite Ei]).
  wcall iupdate_spec; [exact HG|exact Hout|exact HI4|by apply list_lookup_insert_eq| |by rewrite Ein|unfold write_room in Hroom; lia|].
  { unfold extend. destruct (off + tot >? i_size x1); cbn; apply (file_dev _ _ _ (wr_ok _ _ _ _ _ _ _ _ _ _ W)). }
  intros _ w5 HI5. apply wpx_ret. rewrite s32_small by lia. rewrite Ein in HI5.
  pose proof (writing_wrote V x bl off (off + n) (take (Z.to_nat tot) total) V1 x1 bl1 Hi Hoff ltac:(lia) HW (fsys_nodup HI2) W) as HR.
  cbv zeta in HR. rewrite Hbs in HR. exists s', (extend (off + tot) x1), (logged (IBLOCK (i_inum x) SB) bl1),
    (update_map SB (extend (off + tot) x1) V1). split; [done|]. split; [done|]. split; [|by split].
  intros Hl. destruct (Hfull Hl) as [Hfr Hz]. split.
  - intros b [Hb1 Hb2]. apply (Hfr b). split; [done|]. rewrite <-Hb2. symmetry.
    eapply bit_agree; [exact HG| |done]. intros c Hc. apply update_map_data; [by rewrite Ein|by right].
  - rewrite fblock_extend, fblock_update; [done|by rewrite Ein|apply W].
Qed.

End write.

(** ** Reading what was written *)

Lemma wrote_bytes sb V x bl off e bs V' x' bl' :
  wrote sb V x bl off e bs V' x' bl' -> 0 <= off -> off + Z.of_nat (length bs) <= MAXFILE * BSIZE ->
  fbytes V' x' off (length bs) = bs.
Proof.
  intros W Ho He. apply list_eq. intros j. destruct (decide (j < length bs)%nat) as [Hj|Hj].
  - rewrite lookup_fbytes, (wt_bytes _ _ _ _ _ _ _ _ _ _ W) by (done || (unfold in_range; lia)). unfold written.
    rewrite decide_True by lia. replace (Z.to_nat (off + Z.of_nat j - off)) with j by lia.
    destruct (lookup_lt_is_Some_2 bs j Hj) as [b Hb]. unfold byte_at. by rewrite Hb.
  - rewrite !lookup_ge_None_2; [done|lia|rewrite length_fbytes; lia].
Qed.

Lemma wrote_other sb V x bl off e bs V' x' bl' o n :
  wrote sb V x bl off e bs V' x' bl' -> 0 <= o -> o + Z.of_nat n <= MAXFILE * BSIZE ->
  o + Z.of_nat n <= off \/ off + Z.of_nat (length bs) <= o -> fbytes V' x' o n = fbytes V x o n.
Proof.
  intros W Ho He Hd. apply list_eq. intros j. destruct (decide (j < n)%nat) as [Hj|Hj].
  - rewrite !lookup_fbytes, (wt_bytes _ _ _ _ _ _ _ _ _ _ W) by (done || (unfold in_range; lia)). unfold written.
    by rewrite decide_False by lia.
  - rewrite !lookup_ge_None_2; [done|rewrite length_fbytes; lia|rewrite length_fbytes; lia].
Qed.
