(* ===== verification/FsDir.v ===== *)
(** * Directories: dirlookup() and dirlink()

    A directory is a file of 16-byte entries.  dirlookup() finds the first
    entry in use with a name, and dirlink() fills the first free one. *)

From stdpp Require Import functions.
From S2P Require Import Prelude Memory Riscv Machine Spinlock Kalloc Vm Sched Sleeplock Dyn Bytes Ring Bio Bcache Log Dstate LogSpec Crash Fs FsState FsAlloc FsInode FsTable FsFile FsIo.

(** ** Names *)

(** The name that a string or an entry holds: at most 14 characters, up to a
    NUL. *)
Definition name_of (l : list Z) : list Z := upto_nul (take 14 l).

Definition chars_ok (l : list Z) : Prop := Forall (fun c => 0 <= c < 2 ^ 8) l.

Lemma name_strncmp_spec n p q : chars_ok p -> chars_ok q ->
  name_strncmp n p q = 0 <-> upto_nul (take n p) = upto_nul (take n q).
Proof.
  revert p q. induction n as [|n IH]; intros p q Hp Hq; [by rewrite !take_0|].
  destruct p as [|a p], q as [|b q]; cbn [name_strncmp hd tl take upto_nul]; rewrite ?take_nil; cbn [upto_nul].
  - done.
  - apply Forall_cons in Hq as [Hb _]. cbn. destruct (Z.eqb_spec b 0) as [->|]; [done|].
    split; [|done]. rewrite (u8_small b), (u8_small 0) by lia. lia.
  - apply Forall_cons in Hp as [Ha _]. destruct (Z.eqb_spec a 0) as [->|]; [done|].
    cbn [negb andb]. destruct (Z.eqb_spec a 0); [done|]. split; [|done]. rewrite (u8_small a), (u8_small 0) by lia. lia.
  - apply Forall_cons in Hp as [Ha Hp], Hq as [Hb Hq]. destruct (Z.eqb_spec a 0) as [->|Ha0]; cbn [negb andb].
    + rewrite !u8_small by lia. destruct (Z.eqb_spec b 0) as [->|]; [done|]. split; [lia|done].
    + destruct (Z.eqb_spec a b) as [->|Hne].
      * destruct (Z.eqb_spec b 0); [done|]. rewrite IH by done. split; [by intros ->|by intros [=]].
      * rewrite !u8_small by lia. split; [lia|]. destruct (b =? 0); intros [=]; done.
Qed.

Lemma namecmp_spec p q : chars_ok p -> chars_ok q -> namecmp p q = 0 <-> name_of p = name_of q.
Proof. apply (name_strncmp_spec 14). Qed.

(** What strncpy() puts in an entry names the same file. *)
Lemma upto_nul_pad (l : list Z) n : upto_nul (l ++ replicate n 0) = upto_nul l.
Proof. induction l as [|c l IH]; cbn; [by destruct n|]. destruct (c =? 0); [done|]. by rewrite IH. Qed.

Lemma length_dirent_name name : length (dirent_name name) = 14%nat.
Proof. unfold dirent_name. rewrite length_app, length_replicate, length_take. lia. Qed.

Lemma name_of_dirent name : name_of (dirent_name name) = name_of name.
Proof.
  unfold name_of. rewrite (take_ge (dirent_name name)) by (rewrite length_dirent_name; lia).
  apply upto_nul_pad.
Qed.

(** ** Entries *)

Definition dirent (V : Z -> list Z) (x : inode) (k : nat) : list Z := fbytes V x (sizeof_dirent * Z.of_nat k) 16.

Definition dir_len (x : inode) : nat := Z.to_nat (x.(i_size) / sizeof_dirent).

(** A directory in memory. *)
Record dir_ok (sb : superblock) (V : Z -> list Z) (x : inode) : Prop := {
  dir_type : x.(i_type) = T_DIR;
  dir_size : x.(i_size) mod sizeof_dirent = 0;
  dir_file : file_ok sb V x;
  dir_whole : whole V x
}.

(** Entry [k] is in use and has the name. *)
Definition names (V : Z -> list Z) (x : inode) (name : list Z) (k : nat) : Prop :=
  de_inum (dirent V x k) <> 0 /\ namecmp name (de_name (dirent V x k)) = 0.

#[export] Instance names_dec V x name k : Decision (names V x name k).
Proof. apply and_dec; [apply not_dec|]; apply Z.eq_dec. Defined.

Section dirs.
Context {I : Image} (pid : Z) (h0 : hart) (env : list turn) (s : kstate) (B : world -> Prop).
Context (L : gmap Z spinlock) (P : list proc) (SB : superblock) (start : Z) (d : gmap Z (list Z)) (out : Z).

#[local] Abbreviation fsys := (FsState.fsys pid h0 env s L P SB start d out).

Lemma dir_entries_len V x : dir_ok SB V x -> dir_entries x.(i_size) = dir_len x /\ i_size x = sizeof_dirent * Z.of_nat (dir_len x).
Proof.
  intros [_ Hm _ [Hs _]]. unfold dir_entries, dir_len, sizeof_dirent in *.
  split; [f_equal; dlia|]. rewrite Z2Nat.id by dlia. dlia.
Qed.

(** One entry is read. *)
Lemma read_dirent it tr bl V w i x k :
  fsys it tr bl V nolocks w -> it !! i = Some x -> dir_ok SB V x -> (length bl < NBUF)%nat -> (k < dir_len x)%nat ->
  wpx B (readi i DstLocal (sizeof_dirent * Z.of_nat k) sizeof_dirent)
    (fun r w' => r = (sizeof_dirent, dirent V x k) /\ fsys it tr bl V nolocks w') w.
Proof.
  intros HI Hx HD Hr Hk. destruct (dir_entries_len V x HD) as [_ Hsz]. pose proof HD as [_ _ F HW]. pose proof HW as [Hb _].
  assert (Hmax : MAXFILE * BSIZE = 274432) by done. unfold sizeof_dirent in *.
  assert (El : read_len x (16 * Z.of_nat k) 16 = 16).
  { unfold read_len. rewrite Z.gtb_ltb, (proj2 (Z.ltb_ge _ _)), Z.geb_leb, (proj2 (Z.leb_gt _ _)) by lia. cbn [orb]. lia. }
  eapply wpx_mono; [eapply (readi_spec _ _ _ _ _ _ _ _ _ _ DstLocal (fun _ s' => s' = s)); try done; [apply local_sink|lia]|].
  cbn beta. rewrite El. intros r w' (-> & s' & -> & HI'). done.
Qed.

(** What dirlookup() returns. *)
Definition looked_up (it : list inode) tr bl V x name (r : option (nat * Z)) (w' : world) : Prop :=
  match r with
  | Some (ip, off) => exists k, off = sizeof_dirent * Z.of_nat k /\ (k < dir_len x)%nat /\ names V x name k /\
      (forall j, (j < k)%nat -> ~ names V x name j) /\
      let inum := de_inum (dirent V x k) in
      fsys (got it ROOTDEV inum ip) tr bl V nolocks w' /\
      (found it ROOTDEV inum ip \/ (forall j, ~ found it ROOTDEV inum j) /\ exists y, it !! ip = Some y /\ y.(i_ref) = 0)
  | None => (forall k, (k < dir_len x)%nat -> ~ names V x name k) /\ fsys it tr bl V nolocks w'
  end.

Lemma dirlookup_spec it tr bl V w i x name :
  fsys it tr bl V nolocks w -> it !! i = Some x -> dir_ok SB V x -> (length bl < NBUF)%nat ->
  itable_ok it -> (forall j y, it !! j = Some y -> y.(i_ref) < 2 ^ 31 - 1) -> (exists j y, it !! j = Some y /\ y.(i_ref) = 0) ->
  wpx B (dirlookup i name) (looked_up it tr bl V x name) w.
Proof.
  intros HI Hx HD Hr HT Hmax Hfree. unfold dirlookup.
  wcall fsys_get_inode; [exact HI|exact Hx|]. intros ? w1 [-> HI1]. rewrite (dir_type _ _ _ HD). change (T_DIR =? T_DIR) with true.
  cbn [negb]. destruct (dir_entries_len V x HD) as [-> _].
  apply (wpx_find_seq _ 0 _ _ (fun k w => fsys it tr bl V nolocks w /\ forall j, (j < k)%nat -> ~ names V x name j)).
  - split; [done|lia].
  - intros k w2 Hk [HI2 Hno]. cbv zeta. wcall read_dirent; [exact HI2|exact Hx|done|done|lia|]. intros r w3 [-> HI3].
    cbn [fst snd]. rewrite Z.eqb_refl. cbn [negb].
    assert (Hnext : ~ names V x name k -> forall j, (j < S k)%nat -> ~ names V x name j).
    { intros Hn j Hj. destruct (decide (j = k)) as [->|]; [done|]. apply Hno. lia. }
    destruct (Z.eqb_spec (de_inum (dirent V x k)) 0) as [E0|E0].
    { apply wpx_ret. split; [done|]. apply Hnext. by intros [? _]. }
    destruct (Z.eqb_spec (namecmp name (de_name (dirent V x k))) 0) as [E1|E1].
    2:{ apply wpx_ret. split; [done|]. apply Hnext. by intros [_ ?]. }
    rewrite (file_dev _ _ _ (dir_file _ _ _ HD)).
    wcall iget_spec; [exact HI3|done|done|done|]. intros ip w4 [HI4 Hc]. apply wpx_ret. exists k. cbv zeta.
    split_and!; try done. lia.
  - intros w2 [HI2 Hno]. split; [|done]. intros k Hk. by apply Hno.
Qed.

(** The slot that dirlink() fills. *)
Definition free_slot (V : Z -> list Z) (x : inode) (k : nat) : Prop :=
  (k <= dir_len x)%nat /\ (forall j, (j < k)%nat -> de_inum (dirent V x j) <> 0) /\
  (k = dir_len x \/ de_inum (dirent V x k) = 0).

Definition new_dirent (name : list Z) (inum : Z) : list Z := le_bytes 2 (u16 inum) ++ dirent_name name.

Lemma length_new_dirent name inum : length (new_dirent name inum) = 16%nat.
Proof. unfold new_dirent. by rewrite length_app, length_le_bytes, length_dirent_name. Qed.

Context (HG : layout SB start) (Hout : 1 <= out).

(** dirlink() of a name that the directory does not have. *)
Lemma dirlink_spec it tr bl V w i x name inum :
  fsys it tr bl V nolocks w -> it !! i = Some x -> dir_ok SB V x -> bitmap_ok SB V ->
  itable_ok it -> (forall j y, it !! j = Some y -> y.(i_ref) < 2 ^ 31 - 1) -> (exists j y, it !! j = Some y /\ y.(i_ref) = 0) ->
  0 <= x.(i_inum) < SB.(sb_ninodes) -> x.(i_size) + sizeof_dirent <= MAXFILE * BSIZE ->
  (length bl + bitmap_blocks SB + 6 < NBUF)%nat ->
  (forall k, (k < dir_len x)%nat -> ~ names V x name k) ->
  wpx B (dirlink i name inum) (fun r w' => exists k tot x' bl' V', free_slot V x k /\
    r = (if tot =? sizeof_dirent then 0 else -1) /\ 0 <= tot <= sizeof_dirent /\
    (tot < sizeof_dirent -> (forall b, ~ free SB V' b) /\
       fblock V' x' ((sizeof_dirent * Z.of_nat k + tot) / BSIZE) = 0) /\
    let off := sizeof_dirent * Z.of_nat k in
    wrote SB V x bl off (off + sizeof_dirent) (take (Z.to_nat tot) (new_dirent name inum)) V' x' bl' /\
    fsys (<[i := x']> it) (tr ++ if tot <? sizeof_dirent then oops 0 else []) bl' V' nolocks w') w.
Proof using HG Hout.
  intros HI Hx HD HV HT Hmax Hfree Hi Hsz Hroom Hnone. unfold dirlink. destruct (dir_entries_len V x HD) as [El Es].
  eapply wpx_call; [eapply dirlookup_spec; [exact HI|exact Hx|exact HD|lia|done|done|done]|].
  intros [[ip off]|] w1 HL.
  { destruct HL as (k & _ & Hk & Hn & _). by destruct (Hnone k Hk). }
  destruct HL as [_ HI1]. wcall fsys_get_inode; [exact HI1|exact Hx|]. intros ? w2 [-> HI2]. rewrite El.
  eapply wpx_call; [apply (wpx_find_seq _ 0 _ _ (fun k w => fsys it tr bl V nolocks w /\ forall j, (j < k)%nat -> de_inum (dirent V x j) <> 0)
    (fun r w => fsys it tr bl V nolocks w /\ exists k, default (sizeof_dirent * Z.of_nat (dir_len x)) r = sizeof_dirent * Z.of_nat k /\ free_slot V x k))|].
  - split; [done|lia].
  - intros k w3 Hk [HI3 Hno]. cbv zeta. wcall read_dirent; [exact HI3|exact Hx|done|lia|lia|]. intros r w4 [-> HI4].
    cbn [fst snd]. rewrite Z.eqb_refl. cbn [negb]. destruct (Z.eqb_spec (de_inum (dirent V x k)) 0) as [E0|E0].
    + apply wpx_ret. split; [done|]. exists k. split; [done|]. split_and!; [lia|done|by right].
    + apply wpx_ret. split; [done|]. intros j Hj. destruct (decide (j = k)) as [->|]; [done|]. apply Hno. lia.
  - intros w3 [HI3 Hno]. split; [done|]. exists (dir_len x). split; [done|]. split_and!; [lia|done|by left].
  - intros r w3 [HI3 (k & Ek & Hk)]. rewrite Ek. pose proof HD as [_ _ F HW]. pose proof Hk as (Hk1 & Hk2 & Hk3).
    assert (Hsp : (span (sizeof_dirent * Z.of_nat k) (sizeof_dirent * Z.of_nat k + sizeof_dirent) <= 1)%nat).
    { unfold span, sizeof_dirent, BSIZE. dlia. }
    eapply wpx_call; [eapply (writei_spec _ _ _ _ _ _ _ _ _ _ HG Hout (SrcLocal (new_dirent name inum)) (fun s' => s' = s));
      [apply local_source|by rewrite length_new_dirent|exact Hx|done|done|done|done| | | |reflexivity|exact HI3]|].
    + unfold sizeof_dirent in *. lia.
    + unfold sizeof_dirent in *. lia.
    + unfold write_room. lia.
    + cbn beta. intros tot w4 (s' & x' & bl' & V' & -> & Htot & Hfull & HWr & HI4).
      destruct (tot =? sizeof_dirent) eqn:Et; cbn [negb]; apply wpx_ret; exists k, tot, x', bl', V'; rewrite Et;
        (split; [done|]); (split; [done|]); (split; [done|]); by split.
Qed.

End dirs.

(** ** A new entry *)

Lemma de_inum_new name inum : de_inum (new_dirent name inum) = u16 inum.
Proof.
  unfold de_inum, get16, slice, new_dirent. rewrite drop_0, <-(length_le_bytes 2 (u16 inum)) at 1.
  rewrite take_app_length, (le_val_bytes 2). unfold u16. change (256 ^ Z.of_nat 2) with (2 ^ 16). by rewrite Z.mod_mod.
Qed.

Lemma de_name_new name inum : de_name (new_dirent name inum) = dirent_name name.
Proof.
  unfold de_name, slice, new_dirent. rewrite drop_app_length' by (by rewrite length_le_bytes).
  apply take_ge. rewrite length_dirent_name. lia.
Qed.

Lemma chars_ok_dirent name : chars_ok name -> chars_ok (dirent_name name).
Proof. intros H. apply Forall_app. split; [by apply Forall_take|]. apply Forall_replicate. lia. Qed.

(** The directory after a successful dirlink(). *)
Lemma linked_dir sb V x bl e k name inum V' x' bl' :
  dir_ok sb V x -> free_slot V x k -> x.(i_size) + sizeof_dirent <= MAXFILE * BSIZE -> chars_ok name -> u16 inum <> 0 ->
  (forall j, (j < dir_len x)%nat -> ~ names V x name j) ->
  wrote sb V x bl (sizeof_dirent * Z.of_nat k) e (new_dirent name inum) V' x' bl' ->
  dir_ok sb V' x' /\ (k < dir_len x')%nat /\ dirent V' x' k = new_dirent name inum /\ names V' x' name k /\
  (forall j, (j < dir_len x)%nat -> j <> k -> dirent V' x' j = dirent V x j) /\
  (forall j, (j < k)%nat -> ~ names V' x' name j).
Proof.
  intros HD (Hk1 & Hk2 & Hk3) Hsz Hn Hin Hnone W. destruct (dir_entries_len sb V x HD) as [_ Es].
  assert (Hmax : MAXFILE * BSIZE = 274432) by done. pose proof (wt_inode _ _ _ _ _ _ _ _ _ _ W) as Ei.
  rewrite length_new_dirent in Ei. unfold sizeof_dirent in *.
  assert (Esz : i_size x' = Z.max (i_size x) (16 * Z.of_nat k + 16)) by (rewrite Ei; reflexivity).
  assert (E0 : dirent V' x' k = new_dirent name inum).
  { unfold dirent. rewrite <-(length_new_dirent name inum). eapply wrote_bytes; [exact W|unfold sizeof_dirent; lia|rewrite length_new_dirent; unfold sizeof_dirent; lia]. }
  assert (Eo : forall j, (j < dir_len x)%nat -> j <> k -> dirent V' x' j = dirent V x j).
  { intros j Hj Hne. unfold dirent. eapply wrote_other; [exact W|unfold sizeof_dirent; lia..|].
    rewrite length_new_dirent. unfold sizeof_dirent. lia. }
  assert (Hnk : names V' x' name k).
  { split; rewrite E0; [by rewrite de_inum_new|]. rewrite de_name_new. apply namecmp_spec; [done|by apply chars_ok_dirent|].
    by rewrite name_of_dirent. }
  split_and!; try done.
  - split; [rewrite Ei; apply HD| |apply W|apply W]. rewrite Esz. pose proof (dir_size _ _ _ HD). unfold sizeof_dirent in *. dlia.
  - unfold dir_len, sizeof_dirent. rewrite Esz. dlia.
  - intros j Hj. unfold names. rewrite Eo by lia. apply Hnone. lia.
Qed.
