(* ===== verification/FsTrunc.v ===== *)
(** * Truncation: itrunc()

    itrunc() returns every block of a file to the free map, and no other. *)

From stdpp Require Import functions.
From S2P Require Import Prelude Memory Riscv Machine Spinlock Kalloc Vm Sched Sleeplock Dyn Bytes Ring Bio Bcache Log Dstate LogSpec Crash Fs FsState FsAlloc FsInode FsFile FsIo.

(** [V'] is [V] with the blocks of [fl] marked free. *)
Record unmarked (sb : superblock) (V V' : Z -> list Z) (fl : list Z) : Prop := {
  um_bits b : 0 <= b < sb.(sb_size) -> bit sb V' b = bit sb V b && negb (bool_decide (b ∈ fl));
  um_frame b : ~ in_bitmap sb b -> V' b = V b
}.

(** The log grows by blocks of the free map. *)
Definition bitmap_logged (sb : superblock) (bl bl' : list Z) : Prop :=
  (forall c, c ∈ bl' -> c ∈ bl \/ in_bitmap sb c) /\ forall c, c ∈ bl -> c ∈ bl'.

Lemma bitmap_logged_refl sb bl : bitmap_logged sb bl bl.
Proof. split; auto. Qed.

(** A block outside of the free map is logged as before. *)
Lemma bitmap_logged_iff sb bl bl' c : bitmap_logged sb bl bl' -> ~ in_bitmap sb c -> c ∈ bl' <-> c ∈ bl.
Proof. intros [H1 H2] Hc. split; [|auto]. intros [?|?]%H1; done. Qed.

Lemma bitmap_logged_length sb start bl bl' :
  layout sb start -> NoDup bl' -> bitmap_logged sb bl bl' -> (length bl' <= length bl + bitmap_blocks sb)%nat.
Proof.
  intros HG Hnd [Hl _]. pose proof (layout_facts sb start HG).
  assert (Hsub : bl' ⊆+ bl ++ seqZ (sb_bmapstart sb) (sb_size sb / BPB + 1)).
  { apply NoDup_submseteq; [done|]. intros c [Hc|Hc]%Hl; apply elem_of_app; [by left|right].
    apply elem_of_seqZ. unfold in_bitmap, datastart in Hc. lia. }
  apply submseteq_length in Hsub. rewrite length_app, length_seqZ in Hsub. unfold bitmap_blocks. lia.
Qed.

Lemma unmarked_refl sb V : unmarked sb V V [].
Proof. split; [|done]. intros b Hb. by rewrite bool_decide_false, andb_true_r by apply not_elem_of_nil. Qed.

Section trunc.
Context (pid : Z) (h0 : hart) (env : list turn) (s : kstate) (B : world -> Prop).
Context (L : gmap Z spinlock) (P : list proc) (SB : superblock) (start : Z) (d : gmap Z (list Z)) (out : Z).
Context (HG : layout SB start) (Hout : 1 <= out).

#[local] Abbreviation fsys := (FsState.fsys pid h0 env s L P SB start d out).

(** One more block is freed. *)
Lemma free_step it tr bl V O w hs bl0 V0 fl a :
  fsys it tr bl V O w -> unmarked SB V0 V fl -> bitmap_logged SB bl0 bl -> data_block SB a -> bit SB V0 a = true -> a ∉ fl ->
  (forall b, 0 <= b < SB.(sb_size) -> O (BBLOCK b SB) = None) -> holds O hs -> (length bl + length hs < NBUF)%nat ->
  wpx B (bfree ROOTDEV a) (fun _ w' => exists bl' V', fsys it tr bl' V' O w' /\ unmarked SB V0 V' (a :: fl) /\
    bitmap_logged SB bl0 bl') w.
Proof using HG Hout.
  intros HI [U1 U2] Hl Hd Hb Hfl HO Hhs Hr. pose proof (data_range SB start HG a Hd) as Ha.
  assert (Hlen : forall b, length (V b) = bsize) by (intros b; by eapply fsys_data_length).
  eapply wpx_mono; [eapply bfree_spec; [exact HG|exact Hout|exact HI|lia| |apply HO; lia|exact Hhs|done|apply room_log; lia]|].
  { rewrite U1, Hb, bool_decide_false by (done || lia). done. }
  cbn beta. intros _ w' HI'. exists (logged (BBLOCK a SB) bl), (clear_used SB a V). split_and!; [done| |].
  - split.
    + intros b Hb'. rewrite (bit_clear_used SB start HG) by (done || lia). rewrite U1 by done.
      case_decide as E; [subst; by rewrite bool_decide_true, andb_false_r by apply list_elem_of_here|].
      do 2 f_equal. apply bool_decide_ext. rewrite elem_of_cons. naive_solver.
    + intros b Hb'. unfold clear_used, mark. rewrite fn_lookup_insert_ne; [by apply U2|].
      intros <-. apply Hb', (BBLOCK_range SB start HG). lia.
  - split; [|intros c Hc; apply elem_logged; right; by apply Hl].
    intros c [-> | Hc]%elem_logged; [right; apply (BBLOCK_range SB start HG); lia|by apply Hl].
Qed.

(** The inode with its first [k] direct blocks cleared. *)
Definition zap (k : nat) (x : inode) : inode := set_i_addrs (replicate k 0 ++ drop k x.(i_addrs)) x.

Lemma zap_lookup k x j : (k <= j < length x.(i_addrs))%nat -> (zap k x).(i_addrs) !!! j = x.(i_addrs) !!! j.
Proof.
  intros Hj. cbn. apply list_lookup_total_correct. rewrite lookup_app_r, length_replicate, lookup_drop by (rewrite ?length_replicate; lia).
  replace (k + (j - k))%nat with j by lia. apply list_lookup_lookup_total_lt. lia.
Qed.

Lemma zap_step k x : (k < length x.(i_addrs))%nat ->
  set_i_addrs (<[k := 0]> (zap k x).(i_addrs)) (zap k x) = zap (S k) x.
Proof.
  intros Hk. unfold zap. cbn [i_addrs set_i_addrs]. unfold set_i_addrs. cbn. f_equal. rewrite insert_app_r_alt by (rewrite length_replicate; lia).
  rewrite length_replicate, Nat.sub_diag. rewrite (drop_S _ (i_addrs x !!! k) k) by (apply list_lookup_lookup_total_lt; lia).
  change (0 :: replicate k 0 ++ drop (S k) (i_addrs x)) with (replicate (S k) 0 ++ drop (S k) (i_addrs x)).
  by rewrite replicate_S_end, <-app_assoc.
Qed.

Lemma zap_zero k x : (k < length x.(i_addrs))%nat -> x.(i_addrs) !!! k = 0 -> zap (S k) x = zap k x.
Proof.
  intros Hk H0. rewrite <-zap_step by done. unfold zap, set_i_addrs. cbn. f_equal. apply list_insert_id.
  rewrite lookup_app_r, length_replicate, Nat.sub_diag, lookup_drop, Nat.add_0_r by (rewrite length_replicate; lia).
  pose proof (list_lookup_lookup_total_lt (i_addrs x) k Hk) as E. by rewrite H0 in E.
Qed.

(** The direct blocks. *)
Lemma itrunc_direct it tr bl V w i x :
  fsys it tr bl V nolocks w -> it !! i = Some x -> file_ok SB V x -> (length bl + bitmap_blocks SB < NBUF)%nat ->
  wpx B (for_each (seq 0 (Z.to_nat NDIRECT)) (fun k =>
      ip ← get_inode i;
      when (ztrue (ip.(i_addrs) !!! k))
        (bfree ip.(i_dev) (ip.(i_addrs) !!! k);;
         upd_inode i (fun x => set_i_addrs (<[k := 0]> x.(i_addrs)) x))))
    (fun _ w' => exists bl' V' fl, fsys (<[i := zap 12 x]> it) tr bl' V' nolocks w' /\ unmarked SB V V' fl /\
      bitmap_logged SB bl bl' /\ forall b, b ∈ fl <-> b <> 0 /\ exists j, 0 <= j < NDIRECT /\ fblock V x j = b) w.
Proof using HG Hout.
  intros HI Hx F Hr. pose proof F as [Fd Fl W]. assert (Hlt : (i < length it)%nat) by (by eapply lookup_lt_Some).
  assert (Hfb : forall k, (k < 12)%nat -> fblock V x (Z.of_nat k) = x.(i_addrs) !!! k).
  { intros k Hk. unfold fblock. rewrite (proj2 (Z.ltb_lt _ _)) by (unfold NDIRECT; lia). by rewrite Nat2Z.id. }
  apply (wpx_for_seq _ _ _ (fun k w' => exists bl' V' fl, fsys (<[i := zap k x]> it) tr bl' V' nolocks w' /\ unmarked SB V V' fl /\
      bitmap_logged SB bl bl' /\ forall b, b ∈ fl <-> b <> 0 /\ exists j, 0 <= j < Z.of_nat k /\ fblock V x j = b)).
  - exists bl, V, []. split_and!; [|apply unmarked_refl|apply bitmap_logged_refl|].
    + replace (zap 0 x) with x by (unfold zap; by destruct x). by rewrite list_insert_id.
    + intros b. split; [by intros ?%not_elem_of_nil|]. intros (_ & j & Hj & _). cbn in Hj. lia.
  - intros k w1 Hk (bl1 & V1 & fl & HI1 & HU & Hlog & Hfl). change (Z.to_nat NDIRECT) with 12%nat in Hk.
    wcall fsys_get_inode; [exact HI1|by apply list_lookup_insert_eq|]. intros ? w2 [-> HI2].
    rewrite zap_lookup by lia. change (i_dev (zap k x)) with (i_dev x). rewrite Fd, <-Hfb by done.
    assert (Hin : in_file (Z.of_nat k)) by (destruct file_size_bounds as (_ & _ & E); split; lia).
    assert (Hext : forall b, (exists j, 0 <= j < Z.of_nat (S k) /\ fblock V x j = b) <->
      fblock V x (Z.of_nat k) = b \/ exists j, 0 <= j < Z.of_nat k /\ fblock V x j = b).
    { intros b. split.
      - intros (j & Hj & E). destruct (decide (j = Z.of_nat k)) as [->|]; [by left|right]. exists j. split; [lia|done].
      - intros [E|(j & Hj & E)]; [exists (Z.of_nat k)|exists j]; split; (done || lia). }
    apply wpx_when; rewrite ?ztrue_true, ?ztrue_false; intros Hz.
    + destruct (own_blk _ _ _ _ W _ Hin Hz) as (Hd & Hb & _).
      pose proof (bitmap_logged_length _ _ _ _ HG (fsys_nodup HI2) Hlog).
      wcall free_step; [exact HI2|exact HU|exact Hlog|exact Hd|exact Hb| |done|apply holds_nolocks|cbn; lia|].
      { rewrite Hfl. intros (_ & j & Hj & E). assert (j = Z.of_nat k); [|lia].
        symmetry. apply (own_inj _ _ _ _ W); [done| |done|done]. destruct Hin. split; lia. }
      intros _ w3 (bl2 & V2 & HI3 & HU2 & Hl2).
      eapply wpx_mono; [eapply fsys_upd_inode; [exact HI3|by apply list_lookup_insert_eq]|]. cbn beta.
      intros _ w4 HI4. rewrite list_insert_insert_eq, zap_step in HI4 by lia. exists bl2, V2, (fblock V x (Z.of_nat k) :: fl).
      split_and!; [done..|]. intros b. rewrite elem_of_cons, Hext, Hfl. naive_solver.
    + exists bl1, V1, fl. rewrite zap_zero by (lia || by rewrite <-Hfb). split_and!; [done..|].
      intros b. rewrite Hext, Hfl. naive_solver.
  - intros w'. done.
Qed.

(** The entries of the indirect block, which is held in buffer [p]. *)
Lemma itrunc_entries it tr bl V w x p V1 bl1 fl1 :
  fsys it tr bl1 V1 (<[ind_block x := Some p]> nolocks) w -> file_ok SB V x -> ind_block x <> 0 ->
  unmarked SB V V1 fl1 -> bitmap_logged SB bl bl1 ->
  (forall b, b ∈ fl1 <-> b <> 0 /\ exists j, 0 <= j < NDIRECT /\ fblock V x j = b) ->
  (length bl + bitmap_blocks SB + 1 < NBUF)%nat ->
  wpx B (for_each (seq 0 (Z.to_nat NINDIRECT)) (fun j =>
       y ← get_buf p;
       when (ztrue (get32 (4 * j) y.(b_data))) (bfree ROOTDEV (get32 (4 * j) y.(b_data)))))
    (fun _ w' => exists bl' V' fl, fsys it tr bl' V' (<[ind_block x := Some p]> nolocks) w' /\ unmarked SB V V' fl /\
      bitmap_logged SB bl bl' /\ forall b, b ∈ fl <-> b <> 0 /\ exists j, in_file j /\ fblock V x j = b) w.
Proof using HG Hout.
  intros HI F Hi HU1 Hl1 Hf1 Hr. pose proof F as [Fd Fl W]. destruct (own_ind _ _ _ _ W Hi) as [Hdi Hbi].
  destruct file_size_bounds as (N1 & N2 & N3).
  assert (Hfb : forall j, fblock V x (NDIRECT + Z.of_nat j) = get32 (4 * j) (V (ind_block x))).
  { intros j. unfold fblock. rewrite (proj2 (Z.ltb_ge _ _)), (proj2 (Z.eqb_neq _ _)) by (done || lia). do 2 f_equal. lia. }
  eapply wpx_mono.
  1: apply (wpx_for_seq _ _ _ (fun k w' => exists bl' V' fl, fsys it tr bl' V' (<[ind_block x := Some p]> nolocks) w' /\
      unmarked SB V V' fl /\ bitmap_logged SB bl bl' /\
      forall b, b ∈ fl <-> b <> 0 /\ exists j, 0 <= j < NDIRECT + Z.of_nat k /\ fblock V x j = b) (fun _ w' => exists bl' V' fl, fsys it tr bl' V' (<[ind_block x := Some p]> nolocks) w' /\
      unmarked SB V V' fl /\ bitmap_logged SB bl bl' /\
      forall b, b ∈ fl <-> b <> 0 /\ exists j, 0 <= j < MAXFILE /\ fblock V x j = b)).
  - exists bl1, V1, fl1. by rewrite Z.add_0_r.
  - intros k w1 Hk (bl2 & V2 & fl & HI2 & HU & Hlog & Hfl).
    wcall fsys_get_buf; [exact HI2|by rewrite fn_lookup_insert|]. intros y w2 [HI3 Hy]. rewrite Hy.
    rewrite (um_frame _ _ _ _ HU) by (by apply not_bitmap). rewrite <-Hfb.
    assert (Hin : in_file (NDIRECT + Z.of_nat k)) by (split; lia).
    assert (Hext : forall b, (exists j, 0 <= j < NDIRECT + Z.of_nat (S k) /\ fblock V x j = b) <->
      fblock V x (NDIRECT + Z.of_nat k) = b \/ exists j, 0 <= j < NDIRECT + Z.of_nat k /\ fblock V x j = b).
    { intros b. split.
      - intros (j & Hj & E). destruct (decide (j = NDIRECT + Z.of_nat k)) as [->|]; [by left|right]. exists j. split; [lia|done].
      - intros [E|(j & Hj & E)]; [exists (NDIRECT + Z.of_nat k)|exists j]; split; (done || lia). }
    apply wpx_when; rewrite ?ztrue_true, ?ztrue_false; intros Hz.
    + destruct (own_blk _ _ _ _ W _ Hin Hz) as (Hd & Hb & _).
      pose proof (bitmap_logged_length _ _ _ _ HG (fsys_nodup HI3) Hlog).
      eapply wpx_mono; [eapply free_step; [exact HI3|exact HU|exact Hlog|exact Hd|exact Hb| | |apply holds_insert, holds_nolocks|cbn; lia]|].
      * rewrite Hfl. intros (_ & j & Hj & E). assert (j = NDIRECT + Z.of_nat k); [|lia].
        symmetry. apply (own_inj _ _ _ _ W); [done| |done|done]. split; lia.
      * intros b Hb'. rewrite fn_lookup_insert_ne; [done|]. by eapply data_not_bitmap.
      * cbn beta. intros _ w3 (bl3 & V3 & HI4 & HU3 & Hl3). exists bl3, V3, (fblock V x (NDIRECT + Z.of_nat k) :: fl).
        split_and!; [done..|]. intros b. rewrite elem_of_cons, Hext, Hfl. naive_solver.
    + exists bl2, V2, fl. split_and!; [done..|]. intros b. rewrite Hext, Hfl. naive_solver.
  - intros w' (bl2 & V2 & fl & HI2 & HU & Hlog & Hfl). exists bl2, V2, fl.
    replace (NDIRECT + Z.of_nat (Z.to_nat NINDIRECT)) with MAXFILE in Hfl by lia. done.
  - cbn beta. intros _ w' HQ. exact HQ.
Qed.

(** The inode after itrunc(). *)
Definition truncated (x : inode) : inode := set_i_size 0 (set_i_addrs (replicate 13 0) x).

(** Both kinds of blocks, and the indirect block itself. *)
Lemma itrunc_indirect it tr bl V w i x V1 bl1 fl1 :
  fsys (<[i := zap 12 x]> it) tr bl1 V1 nolocks w -> it !! i = Some x -> file_ok SB V x ->
  unmarked SB V V1 fl1 -> bitmap_logged SB bl bl1 ->
  (forall b, b ∈ fl1 <-> b <> 0 /\ exists j, 0 <= j < NDIRECT /\ fblock V x j = b) ->
  (length bl + bitmap_blocks SB + 1 < NBUF)%nat ->
  wpx B (ip ← get_inode i;
    let last := Z.to_nat NDIRECT in
    when (ztrue (ip.(i_addrs) !!! last))
      (bp ← bread ip.(i_dev) (ip.(i_addrs) !!! last);
       for_each (seq 0 (Z.to_nat NINDIRECT)) (fun j =>
         x ← get_buf bp;
         when (ztrue (get32 (4 * j) x.(b_data))) (bfree ip.(i_dev) (get32 (4 * j) x.(b_data))));;
       brelse bp;;
       bfree ip.(i_dev) (ip.(i_addrs) !!! last);;
       upd_inode i (fun x => set_i_addrs (<[last := 0]> x.(i_addrs)) x)))
    (fun _ w' => exists bl' V' fl, fsys (<[i := set_i_addrs (replicate 13 0) x]> it) tr bl' V' nolocks w' /\ unmarked SB V V' fl /\
      bitmap_logged SB bl bl' /\ forall b, b ∈ fl <-> owns (ind_block x) (fblock V x) b) w.
Proof using HG Hout.
  intros HI Hx F HU Hlog Hfl Hr. pose proof F as [Fd Fl W]. assert (Hlt : (i < length it)%nat) by (by eapply lookup_lt_Some).
  destruct file_size_bounds as (N1 & N2 & N3).
  wcall fsys_get_inode; [exact HI|by apply list_lookup_insert_eq|]. intros ? w1 [-> HI1]. cbv zeta.
  rewrite zap_lookup by (change (Z.to_nat NDIRECT) with 12%nat; lia). fold (ind_block x).
  change (i_dev (zap 12 x)) with (i_dev x). rewrite Fd.
  assert (Ez : set_i_addrs (<[12%nat := 0]> (zap 12 x).(i_addrs)) (zap 12 x) = set_i_addrs (replicate 13 0) x).
  { rewrite zap_step by lia. unfold zap. by rewrite drop_ge, app_nil_r by lia. }
  apply wpx_when; rewrite ?ztrue_true, ?ztrue_false; intros Hz.
  - destruct (own_ind _ _ _ _ W Hz) as [Hdi Hbi].
    pose proof (bitmap_logged_length _ _ _ _ HG (fsys_nodup HI1) Hlog).
    wcall fsys_bread; [exact HI1|done|apply holds_nolocks|cbn; lia|]. intros p w2 [HI2 Hcl].
    eapply wpx_call; [eapply (itrunc_entries _ _ bl V _ x p); [exact HI2|done|done|exact HU|exact Hlog|exact Hfl|done]|].
    cbn beta. intros _ w3 (bl3 & V3 & fl3 & HI3 & HU3 & Hl3 & Hf3).
    pose proof (bitmap_logged_length _ _ _ _ HG (fsys_nodup HI3) Hl3).
    wcall fsys_brelse; [exact HI3|by rewrite fn_lookup_insert|..].
    { intros Hnb. rewrite (um_frame _ _ _ _ HU3), <-(um_frame _ _ _ _ HU) by (by apply not_bitmap). apply Hcl.
      rewrite (bitmap_logged_iff _ _ _ _ Hlog) by (by apply not_bitmap).
      by rewrite <-(bitmap_logged_iff _ _ _ _ Hl3) by (by apply not_bitmap). }
    intros _ w4 HI4. assert (HI4' : fsys (<[i := zap 12 x]> it) tr bl3 V3 nolocks w4).
    { eapply fsys_ext; [exact HI4|done|]. intros k. by apply unlock_lock. }
    assert (Hni : ind_block x ∉ fl3).
    { rewrite Hf3. intros (_ & j & Hj & E). destruct (own_blk _ _ _ _ W j Hj) as (_ & _ & ?); congruence. }
    wcall free_step; [exact HI4'|exact HU3|exact Hl3|exact Hdi|exact Hbi|exact Hni|done|apply holds_nolocks|cbn; lia|].
    intros _ w5 (bl5 & V5 & HI5 & HU5 & Hl5).
    eapply wpx_mono; [eapply fsys_upd_inode; [exact HI5|by apply list_lookup_insert_eq]|]. cbn beta.
    intros _ w6 HI6. change (Z.to_nat NDIRECT) with 12%nat in HI6. rewrite list_insert_insert_eq, Ez in HI6.
    exists bl5, V5, (ind_block x :: fl3). split_and!; [done..|]. intros b. rewrite elem_of_cons, Hf3. unfold owns. naive_solver.
  - exists bl1, V1, fl1. split_and!; try done.
    + rewrite <-Ez. rewrite zap_step, zap_zero by (lia || done). done.
    + intros b. rewrite Hfl. unfold owns. rewrite Hz. split.
      * intros (Hb & j & Hj & E). split; [done|]. right. exists j. split; [split; lia|done].
      * intros (Hb & [?|(j & [Hj1 Hj2] & E)]); [done|]. split; [done|]. exists j. split; [|done]. split; [done|].
        destruct (Z.ltb_spec j NDIRECT) as [|Hge]; [done|]. unfold fblock in E.
        rewrite (proj2 (Z.ltb_ge _ _)), Hz in E by lia. cbn in E. congruence.
Qed.

(** itrunc() frees exactly the blocks of the file and empties it. *)
Lemma itrunc_spec it tr bl V w i x :
  fsys it tr bl V nolocks w -> it !! i = Some x -> file_ok SB V x -> 0 <= x.(i_inum) < SB.(sb_ninodes) ->
  (length bl + bitmap_blocks SB + 1 < NBUF)%nat ->
  wpx B (itrunc i) (fun _ w' => exists bl' V' V1 fl,
    fsys (<[i := truncated x]> it) tr bl' V' nolocks w' /\
    unmarked SB V V1 fl /\ (forall b, b ∈ fl <-> owns (ind_block x) (fblock V x) b) /\
    V' = update_map SB (truncated x) V1 /\ (length bl' <= length bl + bitmap_blocks SB + 1)%nat) w.
Proof using HG Hout.
  intros HI Hx F Hi Hr. assert (Hlt : (i < length it)%nat) by (by eapply lookup_lt_Some). unfold itrunc.
  wcall itrunc_direct; [exact HI|exact Hx|exact F|lia|]. intros _ w1 (bl1 & V1 & fl1 & HI1 & HU1 & Hl1 & Hf1).
  cbv zeta. apply (wpx_assoc _ (get_inode i) _ (fun _ => upd_inode i (set_i_size 0);; iupdate i)).
  eapply wpx_call; [eapply (itrunc_indirect it tr bl V _ i x); [exact HI1|exact Hx|exact F|exact HU1|exact Hl1|exact Hf1|done]|].
  cbn beta. intros _ w2 (bl2 & V2 & fl2 & HI2 & HU2 & Hl2 & Hf2).
  wcall fsys_upd_inode; [exact HI2|by apply list_lookup_insert_eq|]. intros _ w3 HI3. rewrite list_insert_insert_eq in HI3.
  pose proof (bitmap_logged_length _ _ _ _ HG (fsys_nodup HI3) Hl2).
  eapply wpx_mono; [eapply iupdate_spec; [exact HG|exact Hout|exact HI3|by apply list_lookup_insert_eq|apply F|exact Hi|lia]|].
  cbn beta. intros _ w4 HI4. eexists _, _, V2, fl2. split; [exact HI4|]. split_and!; [done..|].
  pose proof (length_logged (IBLOCK (i_inum x) SB) bl2). cbn [i_inum truncated set_i_size set_i_addrs]. lia.
Qed.

End trunc.
