(* ===== verification/FsUser.v ===== *)
(** * Files and user memory

    User memory as a destination of readi() and as a source of writei(): the
    instances of the two interfaces for the memory of the calling process. *)

From S2P Require Import Prelude Memory Riscv Machine Spinlock Kalloc Vm Pagetable Uvm UvmCopy UserCopy UserPages Sched Sleeplock Dyn Bytes Ring Bio Bcache Log Dstate LogSpec Crash Fs FsState FsAlloc FsInode FsFile FsIo.

Section user.
Context {I : Image} {IOk : ImageOk I} (pid : Z) (h0 : hart) (env : list turn) (B : world -> Prop).
Context (L : gmap Z spinlock) (P : list proc) (SB : superblock) (start : Z) (d : gmap Z (list Z)) (out : Z).
Context (j : nat) (p : proc) (Hj : h0.(h_proc) = Some j) (Hp : P !! j = Some p).
Context (own : Z -> bool) (pool : list Z) (T : tables) (U : gmap Z Z) (fl : Z) (l : list Z).
Context (Hown : user_owned own U) (s0 : kstate).

#[local] Abbreviation fsys s := (FsState.fsys pid h0 env s L P SB start d out).
#[local] Abbreviation vm m := (vm_inv own m fl p.(p_pagetable) l T U pool).

(** The world of [fsys]: the calling process runs, and the rest of the kernel's
    state may be exchanged. *)
Lemma fsys_world s it tr bl V O w :
  fsys s it tr bl V O w -> exists h D, w = World h env tr (dset D s) /\ hart_ok h /\ h.(h_proc) = Some j /\
    D.(d_procs) !! j = Some p /\ forall s', fsys s' it tr bl V O (World (settle h) env tr (dset D s')).
Proof using Hj Hp.
  intros (lg & D & (h & D1 & -> & A) & H1 & H2 & H3 & H4 & H5). pose proof A as [A1 A2 A3 A4 A5 A6 A7 A8 A9].
  pose proof A8 as [S1 (j' & p' & Hj' & Hp' & Hpid) S3 S4]. exists h, D1.
  assert (Hh : h_proc h = Some j) by (rewrite (hart_le_proc _ _ A1); exact Hj).
  split_and!; [done|done|done| |].
  - destruct (woke_trans _ _ _ _ H4 A3) as [_ Hw]. destruct (Hw j p Hp) as (q & Hq & [-> | (Hne & _)]); [done|]. congruence.
  - intros s'. exists lg, D. split; [|done]. exists (settle h), D1. split; [done|]. split; try done.
    + eapply hart_le_trans; [done|apply hart_le_settle].
    + split; [by apply settle_ok|rewrite settle_proc; eauto 6|done|done].
Qed.

Lemma fsys_cur_proc s it tr bl V O w : fsys s it tr bl V O w ->
  wpx B cur_proc (fun r w' => r = j /\ fsys s it tr bl V O w') w.
Proof using Hj Hp.
  intros HI. destruct (fsys_world _ _ _ _ _ _ _ HI) as (h & D & -> & Hh & Hj' & _ & Hs).
  eapply run_wp; [by apply cur_proc_run|]. split; [done|apply Hs].
Qed.

Lemma fsys_get_proc s it tr bl V O w : fsys s it tr bl V O w ->
  wpx B (get_proc j) (fun r w' => r = p /\ fsys s it tr bl V O w') w.
Proof using Hj Hp.
  intros HI. destruct (fsys_world _ _ _ _ _ _ _ HI) as (h & D & -> & Hh & Hj' & Hp' & Hs).
  eapply run_wp; [by apply get_proc_run|]. done.
Qed.

(** ** Reading into user memory *)

Definition user_sink (m0 : memory) (va : Z) (got : list Z) (s : kstate) : Prop :=
  exists m, s = set_km m fl s0 /\ vm m /\ stored p.(p_sz) U m0 m va got.

#[export] Instance user_is_sink m0 va total :
  0 <= va -> va + Z.of_nat (length total) < 2 ^ 64 -> Forall (fun b => 0 <= b < 2 ^ 8) total ->
  (forall k, 0 <= k < Z.of_nat (length total) -> writable U (va + k)) ->
  Sink pid h0 env B L P SB start d out (DstUser va) total (user_sink m0 va).
Proof using Hj Hp Hown IOk.
  intros Hva Hend Hb Hw. split; [cbn; f_equal; rewrite Z.add_0_r; apply u64_small; lia|].
  intros s got chunk it tr bl V O w (m & -> & Hv & Hst) [rest ->] HI. cbn [dst_add copy_to].
  rewrite !length_app in *. rewrite u64_small by lia.
  destruct (fsys_world _ _ _ _ _ _ _ HI) as (h & D & -> & Hh & Hpr & Hpj & Hk). unfold either_copyout.
  destruct (copyout_resident own pool p.(p_pagetable) T U fl l p Hown (settle h) env tr (dset D s0)
    (va + Z.of_nat (length got)) chunk m) as (m' & R & Hv' & Hs'); [done|lia| | |].
  { apply Forall_app in Hb as [Hb _]. by apply Forall_app in Hb as [_ Hb]. }
  { intros k Hk'. rewrite <-Z.add_assoc. apply Hw. lia. }
  apply (run_wp _ _ _ _ 0 (World (settle h) env tr (dset D (set_km m' fl s0)))).
  - erewrite bind_run by (apply cur_proc_run; done). erewrite bind_run by (by apply get_proc_run). exact R.
  - split; [done|]. exists (set_km m' fl s0). split; [|apply Hk]. exists m'. split_and!; [done|done|].
    by eapply stored_app.
Qed.

(** ** Writing from user memory *)

Definition user_source (m : memory) (s : kstate) : Prop := s = set_km m fl s0.

#[export] Instance user_is_source m va total :
  vm m -> 0 <= va -> va + Z.of_nat (length total) < 2 ^ 64 ->
  (forall k b, total !! k = Some b -> uview U m p.(p_sz) (va + Z.of_nat k) = Some b) ->
  (forall k, 0 <= k < Z.of_nat (length total) -> readable U (va + k)) ->
  Source pid h0 env B L P SB start d out (SrcUser va) total (user_source m).
Proof using Hj Hp Hown IOk.
  intros Hv Hva Hend Hview Hrd. split; [cbn; f_equal; rewrite Z.add_0_r; apply u64_small; lia|].
  intros s k n it tr bl V O w -> Hn Hkn HI. cbn [src_add copy_from]. rewrite u64_small by lia.
  destruct (fsys_world _ _ _ _ _ _ _ HI) as (h & D & -> & Hh & Hpr & Hpj & Hk). unfold either_copyin.
  destruct (copyin_resident own pool p.(p_pagetable) T U fl l p Hown (settle h) env tr (dset D s0)
    (va + Z.of_nat k) n m) as (bs & R & Hlen & Hbs); [done|lia|done| |].
  { intros i Hi. rewrite <-Z.add_assoc. apply Hrd. lia. }
  apply (run_wp _ _ _ _ (0, bs) (World (settle h) env tr (dset D (set_km m fl s0)))).
  - erewrite bind_run by (apply cur_proc_run; done). erewrite bind_run by (by apply get_proc_run). exact R.
  - split; [done|]. split; [|by exists (set_km m fl s0)]. cbn [snd]. apply list_eq. intros i. unfold slice.
    destruct (decide (i < Z.to_nat n)%nat) as [Hi|Hi].
    + rewrite lookup_take_lt, lookup_drop by done. destruct (lookup_lt_is_Some_2 bs i) as [b Hb]; [lia|].
      destruct (lookup_lt_is_Some_2 total (k + i)) as [c Hc]; [lia|]. rewrite Hb, Hc. f_equal.
      specialize (Hbs i b Hb). specialize (Hview (k + i)%nat c Hc). rewrite Nat2Z.inj_add, Z.add_assoc in Hview. congruence.
    + rewrite lookup_take_ge, lookup_ge_None_2 by lia. done.
Qed.

End user.
