(* ===== verification/FsDemo.v ===== *)
(** * A concrete file system

    A disk of 40 blocks with one regular file of 100 bytes and a directory of
    two entries, and a machine that has recovered its log and loaded the two
    inodes.  The witnesses of the
    file system's properties use it. *)

From stdpp Require Import functions.
From S2P Require Import Prelude Memory Riscv Machine Spinlock Kalloc Vm Sched Sleeplock Dyn Bytes Ring Bio Bcache Log Dstate Binit LogSpec Crash StorageSpec Fs FsState FsAlloc FsInode FsTable FsFile FsIo FsDir.

(** Log at 2, inodes at 33, free map at 34, data from 35 on. *)
Definition demo_sb : superblock := Superblock FSMAGIC 40 5 10 31 2 33 34.

(** The free map: blocks 0 to 36 are in use. *)
Definition demo_map : list Z := [255; 255; 255; 255; 31] ++ replicate 1019 0.
Definition demo_data : list Z := replicate 1024 65.
(** Entry 0 is the name a of inode 3, entry 1 is not in use. *)
Definition demo_dir_data : list Z := [3; 0; 97] ++ replicate 1021 0.

(** An inode in memory of a file with one block. *)
Definition one_block (inum type size b : Z) : inode :=
  Inode ROOTDEV inum 1 zero_sleeplock 1 type 0 0 1 size (b :: replicate 12 0).

(** Inode 3: a file of 100 bytes in block 35.  Inode 1: the directory. *)
Definition demo_inode : inode := one_block 3 T_FILE 100 35.
Definition demo_dir : inode := one_block 1 T_DIR 32 36.
Definition demo_itable : list inode := demo_inode :: demo_dir :: replicate 48 zero_inode.

Definition demo_disk : gmap Z (list Z) :=
  <[33 := put_dinode (dinode_off 1) demo_dir (put_dinode (dinode_off 3) demo_inode (replicate 1024 0))]>
  (<[34 := demo_map]> (<[35 := demo_data]> (<[36 := demo_dir_data]> ∅))).

Lemma demo_layout : layout demo_sb 2.
Proof. split; vm_compute; congruence. Qed.

Lemma demo_disk_length b : length (disk_at demo_disk b) = bsize.
Proof.
  unfold disk_at, demo_disk.
  destruct (decide (b = 33)) as [->|]; [vm_compute; reflexivity|rewrite lookup_insert_ne by done].
  destruct (decide (b = 34)) as [->|]; [vm_compute; reflexivity|rewrite lookup_insert_ne by done].
  destruct (decide (b = 35)) as [->|]; [vm_compute; reflexivity|rewrite lookup_insert_ne by done].
  destruct (decide (b = 36)) as [->|]; [vm_compute; reflexivity|rewrite lookup_insert_ne by done].
  apply length_replicate.
Qed.

(** The machine: the log is recovered, [out] system calls are in the
    transaction and nothing is logged yet.  [it] is the inode table, process 0 of [P] runs, and [s] is
    the rest of the kernel's state. *)
Lemma demo_fsys_of it s P p out : length P = NPROC -> P !! 0%nat = Some p -> exists L P' tr d V w,
  fsys p.(p_pid) boot_hart [] s L P' demo_sb 2 d out it tr [] V nolocks w /\ P' !! 0%nat = Some p /\
  forall b, b <> 2 -> V b = disk_at demo_disk b.
Proof.
  intros HP Hp. destruct (boot_st_of s P p demo_disk HP Hp demo_disk_length) as (D1 & w1 & _ & EP & H1).
  assert (E2 : disk_at demo_disk 2 = replicate 1024 0) by (vm_compute; reflexivity).
  assert (Hh : head_blocks (disk_at demo_disk 2) = []) by (rewrite E2; vm_compute; reflexivity).
  pose proof (st_initlog _ _ _ _ _ (fun _ => False) _ _ _ _ demo_sb H1 eq_refl) as H.
  apply wp_run in H.
  2:{ split; cbn [sb_logstart demo_sb]; rewrite ?Hh; [by rewrite LOGBLOCKS_eq|rewrite E2; vm_compute; split; congruence|constructor|].
      intros b Hb. by apply not_elem_of_nil in Hb. }
  cbn [sb_logstart demo_sb] in H. destruct H as ([] & w2 & _ & D2 & lg & tr & EP2 & H2 & _ & HT & Hst).
  assert (Ew : recover_writes 2 demo_disk = [(2, set_head_n 0 (disk_at demo_disk 2))]).
  { unfold recover_writes. by rewrite Hh. }
  rewrite Ew in H2. set (d := dwr demo_disk _) in *.
  destruct H2 as (h & D3 & -> & [A1 A2 A3 A4 A5 A6 A7 A8 A9]).
  set (lg' := set_lg_committing 0 (set_lg_outstanding out lg)).
  set (D4 := set_d_itable it (set_d_sb demo_sb (set_d_log lg' D3))).
  exists (d_locks D3), (d_procs D3), ([] ++ tr), d, (disk_at d), (World h [] ([] ++ tr) (dset D4 s)).
  split_and!.
  - exists lg', D4. split; [|split_and!; try done].
    + exists h, D4. split; [done|]. split; try done.
      * apply woke_refl.
      * destruct A8. by split.
      * eapply cache_ext; [by apply (cache_frame p.(p_pid) D3)|done| |done]. intros b. reflexivity.
    + apply woke_refl.
    + destruct HT. by split.
    + constructor.
  - destruct (proj2 A3 0%nat p) as (q & Hq & [-> | (Hne & _)]); [by rewrite EP2, EP|done|done].
  - intros b Hb. unfold d, dwr. cbn [foldl]. unfold disk_at at 1. by rewrite lookup_insert_ne.
Qed.

Lemma demo_fsys_with it out : exists L P tr d V w,
  fsys 0 boot_hart [] zero_kstate L P demo_sb 2 d out it tr [] V nolocks w /\
  forall b, b <> 2 -> V b = disk_at demo_disk b.
Proof.
  destruct (demo_fsys_of it zero_kstate (replicate NPROC zero_proc) zero_proc out) as (L & P & tr & d & V & w & H & _ & HV);
    [apply length_replicate|done|]. by exists L, P, tr, d, V, w.
Qed.

Lemma demo_fsys out : exists L P tr d V w,
  fsys 0 boot_hart [] zero_kstate L P demo_sb 2 d out demo_itable tr [] V nolocks w /\
  forall b, b <> 2 -> V b = disk_at demo_disk b.
Proof. apply demo_fsys_with. Qed.

(** The entries of the table. *)
Lemma demo_table i x : demo_itable !! i = Some x -> x = demo_inode \/ x = demo_dir \/ x = zero_inode.
Proof.
  destruct i as [|[|i]]; cbn; [intros [= <-]; auto..|]. intros [-> _]%(lookup_replicate 48). auto.
Qed.

Lemma demo_table_ok : itable_ok demo_itable.
Proof.
  split; [reflexivity|..].
  - intros i x Hx. by apply demo_table in Hx as [-> | [-> | ->]].
  - assert (H : forall i x, demo_itable !! i = Some x -> 0 < x.(i_ref) -> i = Z.to_nat ((3 - x.(i_inum)) / 2)).
    { intros i x. destruct i as [|[|i]]; cbn; [by intros [= <-]..|]. by intros [-> _]%(lookup_replicate 48). }
    intros i j x y Hx Hy Hx0 Hy0 _ E. by rewrite (H i x), (H j y), E by done.
Qed.

Lemma demo_table_inv : table_inv demo_itable [0; 1]%nat.
Proof.
  split_and!; [apply demo_table_ok|split|].
  - intros i Hi. apply elem_of_cons in Hi as [-> | ->%list_elem_of_singleton]; cbn; lia.
  - intros i x Hx. destruct i as [|[|i]]; cbn in Hx; [by injection Hx as <-..|].
    by apply (lookup_replicate 48) in Hx as [-> _].
  - intros i x Hx. apply demo_table in Hx as [-> | [-> | ->]]; [by right|by right|by left].
Qed.

Lemma demo_inode_typed : inode_typed demo_inode.
Proof.
  split; [split; done..|done|]. intros a Ha. change (i_addrs demo_inode) with (35 :: replicate 12 0) in Ha.
  apply elem_of_cons in Ha as [-> | [-> _]%elem_of_replicate]; done.
Qed.

Section facts.
Context (V : Z -> list Z) (HV : forall b, b <> 2 -> V b = disk_at demo_disk b).

Lemma demo_bit b : 0 <= b < 40 -> bit demo_sb V b = (b <=? 36).
Proof using HV.
  intros Hb. assert (E : BBLOCK b demo_sb = 34).
  { unfold BBLOCK. cbn [sb_bmapstart demo_sb]. rewrite Z.div_small by (rewrite BPB_eq; lia). reflexivity. }
  unfold bit. rewrite E, HV by done. change (disk_at demo_disk 34) with demo_map.
  rewrite (Z.mod_small b BPB) by (rewrite BPB_eq; lia). replace b with (Z.of_nat (Z.to_nat b)) by lia.
  assert (Hall : forallb (fun n => Bool.eqb (Z.testbit (byte_at (Z.to_nat (Z.of_nat n / 8)) demo_map) (Z.of_nat n mod 8))
    (Z.of_nat n <=? 36)) (seq 0 40) = true) by (vm_compute; reflexivity).
  rewrite forallb_forall in Hall. specialize (Hall (Z.to_nat b)). apply eqb_prop, Hall. apply in_seq. lia.
Qed.

Lemma demo_bitmap_ok : bitmap_ok demo_sb V.
Proof using HV.
  intros b [Hb Hbit]. cbn in Hb. rewrite demo_bit in Hbit by lia. apply Z.leb_gt in Hbit.
  split; [change (datastart demo_sb) with 35; lia|cbn; lia].
Qed.

Lemma one_fblock inum ty size b k : in_file k ->
  fblock V (one_block inum ty size b) k = if decide (k = 0) then b else 0.
Proof using.
  intros [Hk1 Hk2]. unfold fblock. destruct (Z.ltb_spec k NDIRECT) as [Hlt|Hge].
  - unfold NDIRECT in Hlt. case_decide as E; [by subst|].
    change (i_addrs (one_block inum ty size b)) with (b :: replicate 12 0). replace (Z.to_nat k) with (S (Z.to_nat k - 1)) by lia.
    cbn [lookup_total list_lookup_total]. apply list_lookup_total_correct, lookup_replicate. lia.
  - rewrite decide_False by (unfold NDIRECT in Hge; lia). reflexivity.
Qed.

Lemma one_file_ok inum ty size b : 35 <= b <= 36 -> file_ok demo_sb V (one_block inum ty size b).
Proof using HV.
  intros Hb. split; [done|done|]. change (ind_block (one_block inum ty size b)) with 0. split.
  - intros k Hk. rewrite one_fblock by done. case_decide; [|done]. intros _. rewrite demo_bit by lia.
    split_and!; [|lia|lia]. split; [change (datastart demo_sb) with 35|cbn]; lia.
  - intros k k' Hk Hk'. rewrite !one_fblock by done. repeat case_decide; subst; done.
  - done.
Qed.

Lemma one_whole inum ty size b : 0 <= size <= 1024 -> b <> 0 -> whole V (one_block inum ty size b).
Proof using HV.
  intros Hs Hb. assert (Em : MAXFILE * BSIZE = 274432) by done. split; [cbn [i_size one_block]; lia|]. intros p Hp. cbn [i_size one_block] in Hp.
  rewrite Z.div_small by (unfold BSIZE; lia). split; [split; [lia|reflexivity]|]. rewrite one_fblock; [done|].
  split; [lia|reflexivity].
Qed.

Lemma demo_file_ok : file_ok demo_sb V demo_inode.
Proof using HV. by apply one_file_ok. Qed.

Lemma demo_whole : whole V demo_inode.
Proof using HV. by apply one_whole. Qed.

Lemma demo_dir_ok : dir_ok demo_sb V demo_dir.
Proof using HV. split; [done|done|by apply one_file_ok|by apply one_whole]. Qed.

(** A byte of a file with one block. *)
Lemma one_fbyte inum ty size b p : 0 <= p < 1024 -> b <> 0 -> b <> 2 ->
  fbyte V (one_block inum ty size b) p = byte_at (Z.to_nat p) (disk_at demo_disk b).
Proof using HV.
  intros Hp H0 H2. unfold fbyte, content. rewrite Z.div_small, Z.mod_small by (unfold BSIZE; lia).
  rewrite one_fblock by (split; [lia|reflexivity]). rewrite decide_True, (proj2 (Z.eqb_neq _ _) H0), HV by done. done.
Qed.

Lemma demo_fbytes off n : 0 <= off -> off + Z.of_nat n <= 1024 -> fbytes V demo_inode off n = replicate n 65.
Proof using HV.
  intros Ho Hn. apply list_eq. intros j. destruct (decide (j < n)%nat) as [Hj|Hj].
  - rewrite lookup_fbytes by done. rewrite lookup_replicate_2 by done. f_equal. unfold demo_inode. rewrite one_fbyte by lia.
    change (disk_at demo_disk 35) with (replicate 1024 65). unfold byte_at. rewrite lookup_replicate_2 by lia. done.
  - rewrite !lookup_ge_None_2; [done|rewrite length_replicate; lia|rewrite length_fbytes; lia].
Qed.

(** The entries of the directory. *)
Lemma demo_dirent k : (k < 2)%nat -> dirent V demo_dir k = take 16 (drop (16 * k) demo_dir_data).
Proof using HV.
  intros Hk. unfold dirent, fbytes. transitivity (map (fun j => byte_at (16 * k + j) demo_dir_data) (seq 0 16)).
  - apply map_ext_in. intros j [_ Hj]%in_seq. unfold demo_dir. rewrite one_fbyte by (unfold sizeof_dirent; lia).
    unfold sizeof_dirent. by replace (Z.to_nat (16 * Z.of_nat k + Z.of_nat j)) with (16 * k + j)%nat by lia.
  - destruct k as [|[|]]; [vm_compute; reflexivity..|lia].
Qed.

End facts.
