(* ===== verification/FsSpec.v ===== *)
(** * Properties of the file system *)

From stdpp Require Import functions.
From S2P Require Import Prelude Memory Riscv Machine Spinlock Kalloc Vm Pagetable Uvm UvmCopy UserCopy UserPages VmSpec Sched Demo Sleeplock Dyn Bytes Ring Bio Bcache Log Dstate Binit LogSpec Crash StorageSpec Fs FsState FsAlloc FsInode FsTable FsFile FsIo FsDir FsTrunc FsUser FsDemo.

(** ** The free map *)

(** C17: balloc() hands out the first free block: it is zeroed, marked in the
    free map and logged, and no other block or mark changes.  When no block
    is free it prints a message, returns 0 and changes nothing. *)
Theorem balloc_correct pid h0 env s L P sb start d out it tr bl V w :
  layout sb start -> 1 <= out -> fsys pid h0 env s L P sb start d out it tr bl V nolocks w ->
  bitmap_ok sb V -> (length bl + 1 < NBUF)%nat ->
  exists a w', balloc ROOTDEV w = Ret a w' /\
    ((a <> 0 /\ free sb V a /\ (forall b, 0 <= b < a -> ~ free sb V b) /\ exists V',
       fsys pid h0 env s L P sb start d out it tr (logged a (logged (BBLOCK a sb) bl)) V' nolocks w' /\ V' a = zeros /\
       (forall b, 0 <= b < sb.(sb_size) -> bit sb V' b = (b =? a) || bit sb V b) /\
       forall b, ~ in_bitmap sb b -> b <> a -> V' b = V b) \/
     (a = 0 /\ (forall b, ~ free sb V b) /\
      fsys pid h0 env s L P sb start d out it (tr ++ [EvPrint "balloc: out of blocks" []]) bl V nolocks w')).
Proof.
  intros HG Hout HI HV Hr. assert (Hlen : forall b, length (V b) = bsize) by (intros b; by eapply fsys_data_length).
  destruct (wp_run _ _ _ (balloc_spec _ _ _ _ (fun _ => False) _ _ _ _ _ _ HG Hout _ _ _ _ _ _ [] HI HV (clear_nolocks sb V)
    holds_nolocks ltac:(cbn; lia) (room_log _ Hr))) as (a & w' & Hrun & [[Hff HI']|(-> & Hno & HI')]).
  - exists a, w'. split; [done|]. left. pose proof (taken_map sb start HG V a Hlen HV Hff) as A.
    destruct (data_range sb start HG a (al_data _ _ _ _ A)). destruct Hff as [Hfr Hfirst].
    split_and!; [lia|done|intros b Hb [_ Hf]; rewrite Hfirst in Hf by done; done|].
    exists (alloc_map sb a V). split_and!; [done|apply A| |apply A].
    intros b Hb. rewrite (al_bits _ _ _ _ A) by done. by destruct (decide (b = a)), (Z.eqb_spec b a).
  - exists 0, w'. split; [done|]. by right.
Qed.

Lemma balloc_correct_witness : exists w w', balloc ROOTDEV w = Ret 37 w'.
Proof.
  destruct (demo_fsys 1) as (L & P & tr & d & V & w & HI & HV). pose proof (demo_bit V HV) as Hb.
  destruct (balloc_correct _ _ _ _ _ _ _ _ _ _ _ _ _ _ _ demo_layout (Z.le_refl 1) HI (demo_bitmap_ok V HV))
    as (a & w' & Hr & [(_ & [Ha Hf] & Hmin & _)|(_ & Hno & _)]); [cbn; unfold NBUF; lia|..].
  - exists w, w'. rewrite Hr. f_equal. change (sb_size demo_sb) with 40 in Ha. rewrite Hb in Hf by done. apply Z.leb_gt in Hf.
    destruct (decide (37 < a)) as [Hlt|]; [|lia]. destruct (Hmin 37 ltac:(lia)). split; [done|]. by rewrite Hb.
  - destruct (Hno 37). split; [done|]. by rewrite Hb.
Defined.

(** balloc() followed by bfree() of what it returned. *)
Definition alloc_and_free : K Z :=
  a ← balloc ROOTDEV;
  when (negb (a =? 0)) (bfree ROOTDEV a);;
  mret a.

(** Bfree() undoes balloc(): every mark of the free map is as before, and
    so is every block but the one that was handed out. *)
Theorem balloc_bfree_roundtrip pid h0 env s L P sb start d out it tr bl V w :
  layout sb start -> 1 <= out -> fsys pid h0 env s L P sb start d out it tr bl V nolocks w ->
  bitmap_ok sb V -> (length bl + 2 < NBUF)%nat ->
  exists a w' tr' bl' V', alloc_and_free w = Ret a w' /\
    fsys pid h0 env s L P sb start d out it tr' bl' V' nolocks w' /\
    (forall b, 0 <= b < sb.(sb_size) -> bit sb V' b = bit sb V b) /\
    forall b, ~ in_bitmap sb b -> b <> a \/ a = 0 -> V' b = V b.
Proof.
  intros HG Hout HI HV Hr. assert (Hlen : forall b, length (V b) = bsize) by (intros b; by eapply fsys_data_length).
  assert (H : wp alloc_and_free (fun a w' => exists tr' bl' V',
    fsys pid h0 env s L P sb start d out it tr' bl' V' nolocks w' /\
    (forall b, 0 <= b < sb.(sb_size) -> bit sb V' b = bit sb V b) /\
    forall b, ~ in_bitmap sb b -> b <> a \/ a = 0 -> V' b = V b) w).
  { unfold alloc_and_free.
    wcall balloc_alloc; [exact HG|exact Hout|exact HI|done|apply clear_nolocks|apply holds_nolocks|cbn; lia|].
    intros a w1 [(Ha & A & HI1)|(-> & _ & HI1)].
    - rewrite (proj2 (Z.eqb_neq a 0)) by done. cbn [negb when]. pose proof (al_data _ _ _ _ A) as Hd.
      pose proof (length_alloc_log sb a bl). destruct (data_range sb start HG a Hd).
      assert (Hb1 : bit sb (alloc_map sb a V) a = true) by (by rewrite (al_bits _ _ _ _ A), decide_True by lia).
      wcall bfree_spec; [exact HG|exact Hout|exact HI1|lia|exact Hb1|done|apply holds_nolocks|cbn; lia|apply room_log; lia|].
      intros _ w2 HI2. apply wpx_ret. eexists _, _, (clear_used sb a (alloc_map sb a V)). split; [exact HI2|]. split.
      + intros b Hb. rewrite (bit_clear_used sb start HG) by (done || lia || (eapply fsys_data_length; exact HI1)).
        rewrite (al_bits _ _ _ _ A) by done. case_decide; [by subst; rewrite (al_old _ _ _ _ A)|done].
      + intros b Hb [Hne|?]; [|done]. unfold clear_used, mark. rewrite fn_lookup_insert_ne; [by apply (al_frame _ _ _ _ A)|].
        intros <-. apply Hb, (BBLOCK_range sb start HG). lia.
    - cbn [Z.eqb negb when]. apply wpx_bind, wpx_ret, wpx_ret. by eexists _, _, V. }
  apply wp_run in H as (a & w' & Hrun & tr' & bl' & V' & HQ). by exists a, w', tr', bl', V'.
Qed.

Lemma balloc_bfree_roundtrip_witness : exists w a w' V', alloc_and_free w = Ret a w' /\
  forall b, 0 <= b < 40 -> bit demo_sb V' b = (b <=? 36).
Proof.
  destruct (demo_fsys 1) as (L & P & tr & d & V & w & HI & HV).
  destruct (balloc_bfree_roundtrip _ _ _ _ _ _ _ _ _ _ _ _ _ _ _ demo_layout (Z.le_refl 1) HI (demo_bitmap_ok V HV))
    as (a & w' & tr' & bl' & V' & Hr & _ & Hb & _); [cbn; unfold NBUF; lia|].
  exists w, a, w', V'. split; [exact Hr|]. intros b Hb'. rewrite Hb by done. by apply demo_bit.
Defined.

(** bfree() of a block that is free already panics. *)
Theorem bfree_free_block_panics pid h0 env s L P sb start d out it tr bl V w b :
  layout sb start -> fsys pid h0 env s L P sb start d out it tr bl V nolocks w -> (length bl < NBUF)%nat ->
  free sb V b -> bfree ROOTDEV b w = Panic "freeing free block".
Proof.
  intros HG HI Hr [Hb Hbit]. destruct (bfree_bit sb start HG b V Hb) as (_ & _ & E3).
  destruct (wp_run _ _ _ (fsys_get_sb _ _ _ _ (fun _ => False) _ _ _ _ _ _ _ _ _ _ _ _ HI)) as (? & w1 & R1 & -> & HI1).
  destruct (wp_run _ _ _ (fsys_bread _ _ _ _ (fun _ => False) _ _ _ _ _ _ _ _ _ _ _ _ [] (BBLOCK b sb) HI1 eq_refl
    holds_nolocks ltac:(cbn; lia))) as (p & w2 & R2 & HI2 & _).
  destruct (wp_run _ _ _ (fsys_get_buf _ _ _ _ (fun _ => False) _ _ _ _ _ _ _ _ _ _ _ _ (BBLOCK b sb) p HI2
    ltac:(by rewrite fn_lookup_insert))) as (x & w3 & R3 & _ & Hx).
  unfold bfree. erewrite bind_run by exact R1. erewrite bind_run by exact R2. cbv zeta. erewrite bind_run by exact R3.
  by rewrite Hx, E3, Hbit.
Qed.

Lemma bfree_free_block_panics_witness : exists w, bfree ROOTDEV 37 w = Panic "freeing free block".
Proof.
  destruct (demo_fsys 1) as (L & P & tr & d & V & w & HI & HV). exists w.
  apply (bfree_free_block_panics _ _ _ _ _ _ _ _ _ _ _ _ _ _ _ 37 demo_layout HI).
  - cbn. unfold NBUF. lia.
  - split; [done|]. by rewrite (demo_bit V HV).
Defined.

(** ** File contents *)

(** C4: readi() delivers exactly the bytes of the file from [off] on, at most
    [n] and not beyond its size, to wherever it is told to copy, and returns
    their number; 0 when [off] is beyond the end or [off + n] overflows.  No
    block, mark or inode changes.  [Sink] is what the destination promises. *)
Theorem readi_correct {I : Image} pid h0 env L P sb start d out dst sink it tr bl V i x off n s w :
  Sink pid h0 env (fun _ => False) L P sb start d out dst (fbytes V x off (Z.to_nat (read_len x off n))) sink ->
  fsys pid h0 env s L P sb start d out it tr bl V nolocks w -> sink [] s ->
  it !! i = Some x -> file_ok sb V x -> whole V x -> (length bl < NBUF)%nat ->
  0 <= off < 2 ^ 32 -> 0 <= n < 2 ^ 32 ->
  exists w' s', readi i dst off n w = Ret (read_len x off n, fbytes V x off (Z.to_nat (read_len x off n))) w' /\
    sink (fbytes V x off (Z.to_nat (read_len x off n))) s' /\
    fsys pid h0 env s' L P sb start d out it tr bl V nolocks w'.
Proof.
  intros HS HI Hk Hx F HW Hr Ho Hn.
  destruct (wp_run _ _ _ (readi_spec _ _ _ _ _ _ _ _ _ _ dst sink it tr bl V i x off n s w HS Hx F HW Hr Ho Hn Hk HI))
    as (r & w' & Hrun & -> & s' & Hk' & HI'). by exists w', s'.
Qed.

(** The process of the demo machine, with one page of memory at 0. *)
Definition demo_procs : list proc := demo_proc :: replicate (NPROC - 1) zero_proc.

Lemma demo_range U m fl l T n : demo_mem m fl l T U -> n <= PGSIZE ->
  forall k, 0 <= k < n -> writable U (0 + k).
Proof. intros [_ _ Hp _ _] Hn k Hk. apply Hp. lia. Qed.

#[local] Existing Instances small_image small_image_ok.

(** Ten bytes of the demo file are read into user memory. *)
Lemma readi_correct_witness : exists w w' m U sz, readi 0 (DstUser 0) 90 20 w = Ret (10, replicate 10 65) w' /\
  uview U m sz 9 = Some 65.
Proof.
  destruct demo_mem_exists as (m & fl & l & T & U & HM).
  destruct (demo_fsys_of demo_itable (set_km m fl zero_kstate) demo_procs demo_proc 0 eq_refl eq_refl)
    as (L & P & tr & d & V & w & HI & HP & HV).
  assert (El : read_len demo_inode 90 20 = 10) by reflexivity.
  assert (Eb : fbytes V demo_inode 90 10 = replicate 10 65) by (by apply demo_fbytes).
  assert (HS : Sink (p_pid demo_proc) boot_hart [] (fun _ => False) L P demo_sb 2 d 0 (DstUser 0)
    (fbytes V demo_inode 90 (Z.to_nat (read_len demo_inode 90 20))) (user_sink demo_proc user_page small_pool T U fl l zero_kstate m 0)).
  { rewrite El. change (Z.to_nat 10) with 10%nat. rewrite Eb.
    eapply (user_is_sink _ _ _ _ _ _ _ _ _ _ 0%nat); [reflexivity|exact HP|apply HM|lia|done| |].
    - apply Forall_replicate. lia.
    - by eapply (demo_range U m fl l T). }
  destruct (readi_correct (p_pid demo_proc) boot_hart [] L P demo_sb 2 d 0 (DstUser 0) _ demo_itable tr [] V 0 demo_inode 90 20
    _ w HS HI) as (w' & s' & Hr & (m' & _ & _ & Hst) & _).
  - exists m. split_and!; [done|apply HM|apply stored_nil].
  - reflexivity.
  - by apply demo_file_ok.
  - by apply demo_whole.
  - cbn. unfold NBUF. lia.
  - lia.
  - lia.
  - rewrite El in Hr, Hst. change (Z.to_nat 10) with 10%nat in *. rewrite Eb in Hr, Hst.
    exists w, w', m', U, (p_sz demo_proc). split; [exact Hr|]. specialize (Hst 9). by rewrite decide_True in Hst by (cbn; lia).
Defined.

(** C3: writei() of [n] bytes at [off], not beyond the end of the file and
    with room in the log, writes them and returns their number, or as many as
    fit when the disk fills up.  [wrote] says what it leaves: those bytes are
    in the file at [off] and every other byte of it is as before; the size is
    extended if needed and written back to the disk; the file's blocks are
    distinct marked data blocks without holes; blocks that were marked are the
    file's; and no block of another file changes. *)
Theorem writei_correct {I : Image} pid h0 env L P sb start d out src total inv it tr bl V i x off s w :
  let n := Z.of_nat (length total) in
  layout sb start -> 1 <= out ->
  Source pid h0 env (fun _ => False) L P sb start d out src total inv ->
  fsys pid h0 env s L P sb start d out it tr bl V nolocks w -> inv s ->
  it !! i = Some x -> file_ok sb V x -> whole V x -> bitmap_ok sb V -> 0 <= x.(i_inum) < sb.(sb_ninodes) ->
  0 <= off <= x.(i_size) -> off + n <= MAXFILE * BSIZE -> write_room sb bl off (off + n) ->
  exists tot w' s' x' bl' V', writei i src off n w = Ret tot w' /\ inv s' /\ 0 <= tot <= n /\
    (tot < n -> (forall b, ~ free sb V' b) /\ fblock V' x' ((off + tot) / BSIZE) = 0) /\
    wrote sb V x bl off (off + n) (take (Z.to_nat tot) total) V' x' bl' /\
    fsys pid h0 env s' L P sb start d out (<[i := x']> it) (tr ++ if tot <? n then oops 0 else []) bl' V' nolocks w'.
Proof.
  intros n HG Hout HS HI Hk Hx F HW HV Hi Ho He Hr.
  destruct (wp_run _ _ _ (writei_spec pid h0 env (fun _ => False) L P sb start d out HG Hout src inv it tr i x bl V off n total s w
    HS eq_refl Hx F HW HV Hi Ho He Hr Hk HI)) as (tot & w' & Hrun & s' & x' & bl' & V' & HQ).
  by exists tot, w', s', x', bl', V'.
Qed.

(** Five bytes of user memory are appended to the demo file. *)
Lemma writei_correct_witness : exists w w' V' x', writei 0 (SrcUser 0) 100 5 w = Ret 5 w' /\
  x'.(i_size) = 105 /\ fbyte V' x' 104 = 0 /\ fbyte V' x' 99 = 65.
Proof.
  destruct demo_mem_exists as (m & fl & l & T & U & HM).
  destruct (demo_fsys_of demo_itable (set_km m fl zero_kstate) demo_procs demo_proc 1 eq_refl eq_refl)
    as (L & P & tr & d & V & w & HI & HP & HV).
  assert (HS : Source (p_pid demo_proc) boot_hart [] (fun _ => False) L P demo_sb 2 d 1 (SrcUser 0)
    (replicate 5 0) (user_source fl zero_kstate m)).
  { eapply (user_is_source _ boot_hart _ _ _ _ _ _ _ _ 0%nat demo_proc (eq_refl : h_proc boot_hart = Some 0%nat) HP user_page small_pool T U fl l);
      [apply HM|apply HM|lia|done| |].
    - intros k b Hb. apply lookup_replicate in Hb as [-> Hk]. apply HM. llia.
    - intros k Hk. destruct (demo_range U m fl l T 5 HM ltac:(llia) k Hk) as (v & ? & ? & _). by exists v. }
  destruct (writei_correct (p_pid demo_proc) boot_hart [] L P demo_sb 2 d 1 (SrcUser 0) _ _ demo_itable tr [] V 0 demo_inode 100
    _ w demo_layout (Z.le_refl 1) HS HI eq_refl eq_refl (demo_file_ok V HV) (demo_whole V HV) (demo_bitmap_ok V HV))
    as (tot & w' & s' & x' & bl' & V' & Hr & _ & Htot & Hfull & W & _).
  { split; cbn; lia. }
  { split; cbn; lia. }
  { vm_compute. congruence. }
  { apply Nat.ltb_lt. vm_compute. reflexivity. }
  change (Z.of_nat (length (replicate 5 0))) with 5 in *.
  assert (tot = 5) as ->.
  { destruct (decide (tot < 5)) as [Hlt|]; [|lia]. exfalso. destruct (Hfull Hlt) as [_ Hz].
    rewrite Z.div_small in Hz by (unfold BSIZE; lia).
    rewrite (wt_keep _ _ _ _ _ _ _ _ _ _ W) in Hz; [done|split; [lia|reflexivity]|done]. }
  exists w, w', V', x'. split; [exact Hr|]. split_and!.
  - by rewrite (wt_inode _ _ _ _ _ _ _ _ _ _ W).
  - by rewrite (wt_bytes _ _ _ _ _ _ _ _ _ _ W).
  - rewrite (wt_bytes _ _ _ _ _ _ _ _ _ _ W) by done. unfold written. rewrite decide_False by (cbn; lia).
    pose proof (demo_fbytes V HV 99 1 ltac:(lia) ltac:(lia)) as E. cbn in E. by injection E.
Defined.

(** A write followed by a read of the same range. *)
Definition write_then_read {I : Image} (i : nat) (bs : list Z) (off : Z) : K (Z * (Z * list Z)) :=
  tot ← writei i (SrcLocal bs) off (Z.of_nat (length bs));
  r ← readi i DstLocal off (Z.of_nat (length bs));
  mret (tot, r).

(** C9: readi() reads back what writei() wrote: the same bytes when all of
    them were written, and else a sequence that begins with those that were.
    All are written when the file has the blocks already. *)
Theorem writei_readi_roundtrip {I : Image} pid h0 env s L P sb start d out bs it tr bl V i x off w :
  let n := Z.of_nat (length bs) in
  layout sb start -> 1 <= out -> fsys pid h0 env s L P sb start d out it tr bl V nolocks w ->
  it !! i = Some x -> file_ok sb V x -> whole V x -> bitmap_ok sb V -> 0 <= x.(i_inum) < sb.(sb_ninodes) ->
  0 <= off <= x.(i_size) -> off + n <= MAXFILE * BSIZE -> write_room sb bl off (off + n) ->
  exists tot rest w', write_then_read i bs off w =
      Ret (tot, (Z.of_nat (length (take (Z.to_nat tot) bs ++ rest)), take (Z.to_nat tot) bs ++ rest)) w' /\
    0 <= tot <= n /\ (tot = n -> rest = []) /\ (filled V x off (off + n) -> tot = n).
Proof.
  intros n HG Hout HI Hx F HW HV Hi Ho He Hr. assert (Em : MAXFILE * BSIZE = 274432) by done.
  assert (Hn0 : 0 <= n) by (unfold n; lia).
  assert (Hlt : (i < length it)%nat) by (by eapply lookup_lt_Some).
  assert (H : wp (write_then_read i bs off) (fun a w' => exists tot rest,
    a = (tot, (Z.of_nat (length (take (Z.to_nat tot) bs ++ rest)), take (Z.to_nat tot) bs ++ rest)) /\
    0 <= tot <= n /\ (tot = n -> rest = []) /\ (filled V x off (off + n) -> tot = n)) w).
  { unfold write_then_read. eapply wpx_call; [eapply (writei_spec pid h0 env (fun _ => False) L P sb start d out HG Hout
      (SrcLocal bs) (fun s' => s' = s)); [apply local_source|reflexivity|exact Hx|done..|exact HI]|].
    cbn beta. intros tot w1 (s' & x' & bl' & V' & -> & Htot & Hfull & W & HI1).
    pose proof (wt_log _ _ _ _ _ _ _ _ _ _ W) as Hlog. unfold write_room in Hr. fold n in Htot, Hfull, W, HI1, Hlog |- *.
    eapply wpx_call; [eapply (readi_spec pid h0 env (fun _ => False) L P sb start d out DstLocal (fun _ s' => s' = s) _ _ bl');
      [apply local_sink|by apply list_lookup_insert_eq|apply W|apply W|lia|lia|lia|reflexivity|exact HI1]|].
    cbn beta. intros r w2 (-> & _). apply wpx_ret. pose proof (wt_inode _ _ _ _ _ _ _ _ _ _ W) as Ei.
    set (tb := take (Z.to_nat tot) bs) in *. assert (Htb : Z.of_nat (length tb) = tot) by (unfold tb; rewrite length_take; lia).
    assert (Esz : i_size x' = Z.max (i_size x) (off + tot)) by (rewrite Ei, Htb; done).
    assert (Erl : read_len x' off n = Z.min n (i_size x' - off)).
    { unfold read_len. rewrite Z.gtb_ltb, (proj2 (Z.ltb_ge _ _)), Z.geb_leb, (proj2 (Z.leb_gt _ _)) by lia. done. }
    rewrite Erl. set (k := Z.min n (i_size x' - off)). assert (Hk : tot <= k <= n) by lia.
    exists tot, (fbytes V' x' (off + tot) (Z.to_nat (k - tot))).
    assert (Eb : fbytes V' x' off (Z.to_nat k) = tb ++ fbytes V' x' (off + tot) (Z.to_nat (k - tot))).
    { replace (Z.to_nat k) with (length tb + Z.to_nat (k - tot))%nat by lia.
      rewrite fbytes_app, Htb. f_equal. eapply wrote_bytes; [exact W|lia|lia]. }
    fold tb. rewrite <-Eb, length_fbytes. split_and!; [do 2 f_equal; lia|lia|lia| |].
    - intros ->. by replace (Z.to_nat (k - n)) with 0%nat by lia.
    - intros Hf. destruct (decide (tot < n)) as [Hlt'|]; [|lia]. exfalso. destruct (Hfull Hlt') as [_ Hz].
      destruct (Hf (off + tot) ltac:(lia)) as [Hin Hnz]. by rewrite (wt_keep _ _ _ _ _ _ _ _ _ _ W) in Hz. }
  apply wp_run in H as ([] & w' & Hrun & tot & rest & [= -> ->] & HQ). by exists tot, rest, w'.
Qed.

Lemma writei_readi_roundtrip_witness : exists w w', write_then_read 0 [1; 2; 3] 98 w = Ret (3, (3, [1; 2; 3])) w'.
Proof.
  destruct (demo_fsys 1) as (L & P & tr & d & V & w & HI & HV).
  destruct (writei_readi_roundtrip _ _ _ _ _ _ _ _ _ _ [1; 2; 3] _ _ _ _ 0%nat demo_inode 98 w demo_layout (Z.le_refl 1) HI eq_refl
    (demo_file_ok V HV) (demo_whole V HV) (demo_bitmap_ok V HV)) as (tot & rest & w' & Hr & Htot & Hrest).
  { split; cbn; lia. }
  { split; cbn; lia. }
  { vm_compute. congruence. }
  { apply Nat.ltb_lt. vm_compute. reflexivity. }
  exists w, w'. rewrite Hr. change (Z.of_nat (length [1; 2; 3])) with 3 in *. destruct Hrest as [Hrest Hall].
  assert (tot = 3) as ->; [|by rewrite (Hrest eq_refl)]. apply Hall. intros p Hp.
  rewrite Z.div_small by (unfold BSIZE; lia). split; [split; [lia|reflexivity]|done].
Defined.
