(* ===== verification/FsInodeSpec.v ===== *)
(** * Properties of inodes and directories *)

From stdpp Require Import functions.
From S2P Require Import Prelude Memory Riscv Machine Spinlock Kalloc Vm Sched Demo Sleeplock Dyn Bytes Ring Bio Bcache Log Dstate Binit LogSpec Crash StorageSpec Fs FsState FsAlloc FsInode FsTable FsFile FsIo FsDir FsTrunc FsDemo.

(** ** Inodes on the disk and in memory *)

(** Write an inode back, drop the reference to it and get it again. *)
Definition put_and_get (i : nat) : K nat :=
  ilock (Some i);;
  iupdate i;;
  ip ← get_inode i;
  iunlockput i;;
  j ← iget ip.(i_dev) ip.(i_inum);
  ilock (Some j);;
  mret j.

Lemma loaded_updated sb V x y : inode_typed x -> length (V (IBLOCK x.(i_inum) sb)) = bsize -> y.(i_inum) = x.(i_inum) ->
  y.(i_valid) = 0 -> on_disk (loaded sb (update_map sb x V) y) x.
Proof.
  intros T Hl Hn Hv. unfold loaded, update_map. rewrite Hv, Hn, fn_lookup_insert. cbn [Z.eqb].
  rewrite load_put_dinode; [by split_and!|pose proof (dinode_fits (i_inum x)); lia|done].
Qed.

(** The entry that iget() gives for an inode that is in the table or was
    dropped from it just now: [y] is what the table has of it. *)
Lemma got_again it i x y j :
  itable_ok it -> it !! i = Some x -> 0 < x.(i_ref) ->
  y.(i_dev) = x.(i_dev) -> y.(i_inum) = x.(i_inum) -> 0 <= y.(i_ref) ->
  found (<[i := y]> it) x.(i_dev) x.(i_inum) j -> j = i /\ 0 < y.(i_ref).
Proof.
  intros HT Hx Hr Hd Hn Hy (z & Hz & Hz0 & Hzd & Hzn).
  apply list_lookup_insert_Some in Hz as [(<- & <- & _)|[Hne Hz]]; [done|].
  destruct Hne. by eapply (tab_uniq _ HT i j x z).
Qed.

(** The entry after that, and what ilock() makes of it. *)
Lemma got_reload sb V it i x y j :
  itable_ok it -> it !! i = Some x -> x.(i_ref) = y.(i_ref) + 1 -> 0 <= y.(i_ref) < 2 ^ 31 - 1 ->
  y.(i_dev) = x.(i_dev) -> y.(i_inum) = x.(i_inum) -> on_disk y x -> y.(i_valid) <> 0 -> y.(i_lock).(sl_locked) = 0 ->
  (forall j z, it !! j = Some z -> z.(i_ref) = 0 -> z.(i_lock).(sl_locked) = 0) ->
  inode_typed x -> length (V (IBLOCK x.(i_inum) sb)) = bsize ->
  let it1 := <[i := y]> it in
  found it1 x.(i_dev) x.(i_inum) j \/
  (forall j, ~ found it1 x.(i_dev) x.(i_inum) j) /\ (exists z, it1 !! j = Some z /\ z.(i_ref) = 0) ->
  exists z, got it1 x.(i_dev) x.(i_inum) j = <[j := z]> it1 /\ z.(i_dev) = x.(i_dev) /\ z.(i_inum) = x.(i_inum) /\
    z.(i_lock).(sl_locked) = 0 /\ 1 <= z.(i_ref) /\ (x.(i_ref) = 1 -> z.(i_ref) = 1) /\
    on_disk (loaded sb (update_map sb x V) z) x /\ (loaded sb (update_map sb x V) z).(i_valid) <> 0.
Proof.
  intros HT Hx Hr Hy Hd Hn Ho Hv Hl Hfl T HV it1. unfold got.
  assert (Hlt : (i < length it)%nat) by (by eapply lookup_lt_Some). intros [Hf|[Hno (z & Hz & Hz0)]].
  - destruct (got_again it i x y j) as [-> Hy0]; try done; try lia. unfold it1. rewrite list_lookup_insert_eq by done.
    rewrite (proj2 (Z.ltb_lt _ _)), s32_small by lia. eexists. split; [done|].
    assert (El : forall z, i_valid z <> 0 -> loaded sb (update_map sb x V) z = z).
    { intros z Hz. unfold loaded. by rewrite (proj2 (Z.eqb_neq _ _) Hz). }
    rewrite El by done. cbn. destruct Ho as (? & ? & ? & ? & ? & ?). repeat split; try done; lia.
  - rewrite Hz, Hz0. cbn [Z.ltb]. exists (fresh_entry (i_dev x) (i_inum x) z). split; [done|]. split; [done|]. split; [done|].
    split; [|split; [done|split; [done|split]]].
    + apply list_lookup_insert_Some in Hz as [(_ & <- & _)|[_ Hz]]; [done|exact (Hfl j z Hz Hz0)].
    + by apply loaded_updated.
    + done.
Qed.

Section reload.
Context (pid : Z) (h0 : hart) (env : list turn) (s : kstate) (B : world -> Prop).
Context (L : gmap Z spinlock) (P : list proc) (sb : superblock) (start : Z) (d : gmap Z (list Z)) (out : Z).
Context (HG : layout sb start) (Hout : 1 <= out).

#[local] Abbreviation fsys := (FsState.fsys pid h0 env s L P sb start d out).

Lemma put_and_get_spec it tr bl V w i x :
  fsys it tr bl V nolocks w -> itable_ok it -> it !! i = Some x -> 1 <= x.(i_ref) < 2 ^ 31 - 1 -> x.(i_valid) <> 0 ->
  x.(i_lock).(sl_locked) = 0 -> (forall j y, it !! j = Some y -> y.(i_ref) = 0 -> y.(i_lock).(sl_locked) = 0) ->
  (forall j y, it !! j = Some y -> y.(i_ref) < 2 ^ 31 - 1) -> (exists j y, it !! j = Some y /\ y.(i_ref) = 0) ->
  x.(i_dev) = ROOTDEV -> 0 <= x.(i_inum) < sb.(sb_ninodes) -> x.(i_nlink) <> 0 -> x.(i_type) <> 0 -> inode_typed x ->
  (length bl + 1 < NBUF)%nat ->
  wpx B (put_and_get i) (fun j w' => exists it' bl' V' x', fsys it' tr bl' V' nolocks w' /\
    it' !! j = Some x' /\ x'.(i_dev) = x.(i_dev) /\ x'.(i_inum) = x.(i_inum) /\ x'.(i_valid) <> 0 /\ on_disk x' x /\
    (x.(i_ref) = 1 -> x'.(i_ref) = 1)) w.
Proof using HG Hout.
  intros HI HT Hx Hr Hv Hl Hfl Hmax (j0 & y0 & Hy0 & Hr0) Hd Hi Hn Hty T Hroom. unfold put_and_get.
  assert (Hlt : (i < length it)%nat) by (by eapply lookup_lt_Some). pose proof (tab_len _ HT) as Hlen.
  assert (El : loaded sb V x = x) by (unfold loaded; by rewrite (proj2 (Z.eqb_neq _ _) Hv)).
  wcall ilock_spec; [exact HI|exact Hx|lia|lia|done|done|lia|done|]. rewrite El. intros _ w1 HI1.
  assert (Hins : forall y, (<[i := y]> it) !! i = Some y) by (intros; by apply list_lookup_insert_eq).
  wcall (iupdate_spec pid h0 env s B L P sb start d out HG); [done|exact HI1|apply Hins|done|done|lia|]. intros _ w2 HI2.
  pose proof (length_logged (IBLOCK (i_inum (locked_by pid x)) sb) bl) as Hbl.
  wcall fsys_get_inode; [exact HI2|apply Hins|]. intros ? w3 [-> HI3].
  wcall iunlockput_spec; [exact HI3|apply Hins|lia|cbn; lia|done..|]. intros _ w5 HI5. rewrite list_insert_insert_eq in HI5. set (y := set_i_ref _ _) in HI5.
  assert (Ey : i_ref y = i_ref x - 1) by (cbn; rewrite s32_small; lia).
  assert (HT5 : itable_ok (<[i := y]> it)) by (eapply itable_ok_keep; [done|exact Hx|lia|lia|done|done]).
  wcall iget_spec; [exact HI5|done| | |].
  { intros j z [(<- & <- & _)|[_ Hz]]%list_lookup_insert_Some; [lia|by eapply Hmax]. }
  { destruct (decide (j0 = i)) as [->|]; [simplify_eq; lia|]. exists j0, y0. by rewrite list_lookup_insert_ne by done. }
  change (i_dev (locked_by pid x)) with (i_dev x). change (i_inum (locked_by pid x)) with (i_inum x) in *.
  change (update_map sb (locked_by pid x) V) with (update_map sb x V) in *.
  intros j w6 [HI6 Hc].
  destruct (got_reload sb V it i x y j) as (z & Ez & Zd & Zn & Zl & Zr & Zr1 & Zo & Zv); try done; try lia.
  { by eapply fsys_data_length. }
  rewrite Ez in HI6. assert (Hj : (j < length (<[i := y]> it))%nat).
  { destruct Hc as [(? & ?%lookup_lt_Some & _)|(_ & ? & ?%lookup_lt_Some & _)]; done. }
  wcall ilock_spec; [exact HI6|by apply list_lookup_insert_eq|rewrite length_insert in Hj; lia|done|done|congruence|lia| |].
  { intros _. destruct Zo as (-> & _). done. }
  intros _ w7 HI7. apply wpx_ret. rewrite list_insert_insert_eq in HI7. eexists _, _, _, _. split; [exact HI7|].
  rewrite list_lookup_insert_eq by done. split; [reflexivity|]. cbn [i_dev i_inum i_valid i_ref locked_by set_i_lock].
  destruct (loaded_keeps sb (update_map sb x V) z) as (-> & -> & ->). by split_and!.
Qed.

End reload.

(** C18: an inode survives its entry in the table.  Written back with iupdate()
    and dropped, it is got again, from the table or from the disk, with the
    fields it had: its type, device numbers, link count, size and block
    addresses. *)
Theorem inode_reload_roundtrip pid h0 env s L P sb start d out it tr bl V w i x :
  layout sb start -> 1 <= out -> fsys pid h0 env s L P sb start d out it tr bl V nolocks w -> itable_ok it ->
  it !! i = Some x -> 1 <= x.(i_ref) < 2 ^ 31 - 1 -> x.(i_valid) <> 0 -> x.(i_lock).(sl_locked) = 0 ->
  (forall j y, it !! j = Some y -> y.(i_ref) = 0 -> y.(i_lock).(sl_locked) = 0) ->
  (forall j y, it !! j = Some y -> y.(i_ref) < 2 ^ 31 - 1) -> (exists j y, it !! j = Some y /\ y.(i_ref) = 0) ->
  x.(i_dev) = ROOTDEV -> 0 <= x.(i_inum) < sb.(sb_ninodes) -> x.(i_nlink) <> 0 -> x.(i_type) <> 0 -> inode_typed x ->
  (length bl + 1 < NBUF)%nat ->
  exists j w' it' bl' V' x', put_and_get i w = Ret j w' /\
    fsys pid h0 env s L P sb start d out it' tr bl' V' nolocks w' /\ it' !! j = Some x' /\
    x'.(i_dev) = x.(i_dev) /\ x'.(i_inum) = x.(i_inum) /\ x'.(i_valid) <> 0 /\ on_disk x' x.
Proof.
  intros HG Hout HI HT Hx Hr Hv Hl Hfl Hmax Hfree Hd Hi Hn Hty T Hroom.
  destruct (wp_run _ _ _ (put_and_get_spec pid h0 env s (fun _ => False) L P sb start d out HG Hout it tr bl V w i x
    HI HT Hx Hr Hv Hl Hfl Hmax Hfree Hd Hi Hn Hty T Hroom)) as (j & w' & Hrun & it' & bl' & V' & x' & HI' & Hx' & H1 & H2 & H3 & H4 & _).
  by exists j, w', it', bl', V', x'.
Qed.

Lemma inode_reload_roundtrip_witness : exists w j w' x', put_and_get 0 w = Ret j w' /\
  (itable (w_st w')) !! j = Some x' /\ x'.(i_size) = 100 /\ x'.(i_addrs) = 35 :: replicate 12 0.
Proof.
  destruct (demo_fsys 1) as (L & P & tr & d & V & w & HI & HV).
  destruct (inode_reload_roundtrip _ _ _ _ _ _ _ _ _ _ _ _ _ _ w 0%nat demo_inode demo_layout (Z.le_refl 1) HI demo_table_ok
    eq_refl) as (j & w' & it' & bl' & V' & x' & Hr & HI' & Hx' & _ & _ & _ & (_ & _ & _ & _ & Hsz & Ha)); try done.
  { intros k y Hk _. by apply demo_table in Hk as [-> | [-> | ->]]. }
  { intros k y Hk. by apply demo_table in Hk as [-> | [-> | ->]]. }
  { by exists 2%nat, zero_inode. }
  { apply demo_inode_typed. }
  { apply Nat.ltb_lt. reflexivity. }
  exists w, j, w', x'. split_and!; [exact Hr| |by rewrite Hsz|by rewrite Ha]. rewrite <-Hx'. f_equal. exact (fsys_table HI').
Defined.

(** ** Loading an inode *)

Lemma le_val_bound l : chars_ok l -> 0 <= le_val l < 256 ^ Z.of_nat (length l).
Proof.
  induction 1 as [|b l Hb _ IH]; cbn [le_val length]; [done|]. change (2 ^ 8) with 256 in Hb.
  rewrite Nat2Z.inj_succ, Z.pow_succ_r by lia. lia.
Qed.

Lemma get32_bound o l : chars_ok l -> 0 <= get32 o l < 2 ^ 32.
Proof.
  intros Hl. pose proof (le_val_bound (slice o 4 l)) as H. unfold get32.
  assert (Hs : chars_ok (slice o 4 l)) by (by apply Forall_take, Forall_drop).
  specialize (H Hs). pose proof (length_take_le (drop o l) 4) as _.
  assert (256 ^ Z.of_nat (length (slice o 4 l)) <= 256 ^ 4); [|change (2 ^ 32) with (256 ^ 4); lia].
  apply Z.pow_le_mono_r; [done|]. unfold slice. rewrite length_take. lia.
Qed.

Lemma s16_short v : short (s16 v).
Proof. unfold short, s16. change (2 ^ 15) with 32768. change (2 ^ 16) with 65536. dlia. Qed.

(** Every content of the disk decodes to an inode whose fields fit. *)
Lemma load_dinode_typed o b x : chars_ok b -> inode_typed (load_dinode o b x).
Proof.
  intros Hb. split; [apply s16_short..|by apply get32_bound|done|].
  intros a (k & -> & _)%list_elem_of_fmap. by apply get32_bound.
Qed.

(** C38: ilock() of an entry that is not loaded yet reads the inode from the
    disk, marks it valid and locks it for the process; whatever bytes the
    disk has, the fields fit their C types.  An inode without a type is a
    panic. *)
Theorem ilock_loads_typed pid h0 env s L P sb start d out it tr bl V w i x :
  fsys pid h0 env s L P sb start d out it tr bl V nolocks w -> it !! i = Some x -> (i < NINODE)%nat ->
  1 <= x.(i_ref) -> x.(i_valid) = 0 -> x.(i_lock).(sl_locked) = 0 -> x.(i_dev) = ROOTDEV ->
  (length bl < NBUF)%nat -> chars_ok (V (IBLOCK x.(i_inum) sb)) ->
  let b := V (IBLOCK x.(i_inum) sb) in
  let o := dinode_off x.(i_inum) in
  if di_type o b =? 0 then ilock (Some i) w = Panic "ilock: no type" else
  exists w' y, ilock (Some i) w = Ret tt w' /\
    fsys pid h0 env s L P sb start d out (<[i := y]> it) tr bl V nolocks w' /\
    y = locked_by pid (set_i_valid 1 (load_dinode o b x)) /\ inode_typed y.
Proof.
  intros HI Hx Hi Hr Hv Hl Hd Hroom Hb b o. assert (El : loaded sb V x = set_i_valid 1 (load_dinode o b x)).
  { unfold loaded. by rewrite Hv. }
  destruct (Z.eqb_spec (di_type o b) 0) as [E|E].
  - eapply ilock_no_type; [exact HI|exact Hx|done..|]. by rewrite El.
  - destruct (wp_run _ _ _ (ilock_spec _ _ _ _ (fun _ => False) _ _ _ _ _ _ _ _ _ _ _ i x HI Hx Hi Hr Hl Hd Hroom
      ltac:(by rewrite El))) as ([] & w' & Hrun & HI').
    rewrite El in HI'. eexists w', _. split; [done|]. split; [exact HI'|]. split; [done|].
    pose proof (load_dinode_typed o b x Hb) as []. by split.
Qed.

(** Inode 3 of the disk, in an entry that is not loaded. *)
Lemma ilock_loads_typed_witness : exists w w' y, ilock (Some 0%nat) w = Ret tt w' /\ itable (w_st w') !! 0%nat = Some y /\
  y.(i_size) = 100 /\ inode_typed y.
Proof.
  set (x := fresh_entry ROOTDEV 3 zero_inode).
  destruct (demo_fsys_with (x :: replicate 49 zero_inode) 0) as (L & P & tr & d & V & w & HI & HV).
  assert (EV : V 33 = disk_at demo_disk 33) by (by apply HV).
  pose proof (ilock_loads_typed _ _ _ _ _ _ _ _ _ _ _ _ _ _ w 0%nat x HI eq_refl ltac:(apply Nat.ltb_lt; reflexivity)) as H.
  change (IBLOCK (i_inum x) demo_sb) with 33 in H. rewrite EV in H.
  change (di_type _ _ =? 0) with false in H. cbn zeta iota in H.
  destruct H as (w' & y & Hr & HI' & -> & T); try done.
  { apply Nat.ltb_lt. reflexivity. }
  { apply (bool_decide_unpack _). vm_compute. exact I. }
  eexists w, w', _. split; [exact Hr|]. rewrite (fsys_table HI'). split; [reflexivity|]. split; [vm_compute; reflexivity|exact T].
Defined.

(** ** References *)

(** C19: whatever iget(), idup() and iput() are called for, in any order, the
    reference count of every entry of the inode table is the number of
    pointers to it that are held, and no inode has two entries; as long as
    fewer pointers are held than the table has entries no call fails. *)
Theorem inode_refs_counted pid h0 env s L P sb start d out it hs tr bl V O w ops :
  fsys pid h0 env s L P sb start d out it tr bl V O w -> table_inv it hs -> (length hs + length ops < NINODE)%nat ->
  exists hs' w' it', run_iops ops hs w = Ret hs' w' /\
    fsys pid h0 env s L P sb start d out it' tr bl V O w' /\ itable_ok it' /\ counted it' hs'.
Proof.
  intros HI HT Hl. destruct (wp_run _ _ _ (run_iops_spec _ _ _ _ (fun _ => False) _ _ _ _ _ _ ops _ _ _ _ _ _ _ HI HT Hl))
    as (hs' & w' & Hr & it' & HI' & H1 & H2 & _).
  by exists hs', w', it'.
Qed.

Lemma inode_refs_counted_witness : exists w hs' w',
  run_iops [OGet ROOTDEV 3; ODup 1; OPut 0; OGet ROOTDEV 4] [0; 1]%nat w = Ret hs' w' /\ counted (itable (w_st w')) hs'.
Proof.
  destruct (demo_fsys 0) as (L & P & tr & d & V & w & HI & HV).
  destruct (inode_refs_counted _ _ _ _ _ _ _ _ _ _ _ _ _ _ _ _ w [OGet ROOTDEV 3; ODup 1; OPut 0; OGet ROOTDEV 4] HI demo_table_inv)
    as (hs' & w' & it' & Hr & HI' & _ & HC); [apply Nat.ltb_lt; reflexivity|].
  exists w, hs', w'. split; [exact Hr|]. by rewrite (fsys_table HI').
Defined.

(** ** Directories *)

(** Dirlookup() finds the first entry in use whose name is the one asked
    for, returns its offset and the entry of its inode in the table, with one
    more reference; without such an entry it returns 0.  It changes neither the
    directory nor the disk. *)
Theorem dirlookup_correct {I : Image} pid h0 env s L P sb start d out it tr bl V w i x name :
  fsys pid h0 env s L P sb start d out it tr bl V nolocks w -> it !! i = Some x -> dir_ok sb V x -> (length bl < NBUF)%nat ->
  itable_ok it -> (forall j y, it !! j = Some y -> y.(i_ref) < 2 ^ 31 - 1) -> (exists j y, it !! j = Some y /\ y.(i_ref) = 0) ->
  exists r w', dirlookup i name w = Ret r w' /\
  match r with
  | Some (ip, off) => exists k, off = sizeof_dirent * Z.of_nat k /\ (k < dir_len x)%nat /\ names V x name k /\
      (forall j, (j < k)%nat -> ~ names V x name j) /\
      let inum := de_inum (dirent V x k) in
      fsys pid h0 env s L P sb start d out (got it ROOTDEV inum ip) tr bl V nolocks w' /\
      itable_ok (got it ROOTDEV inum ip) /\ found (got it ROOTDEV inum ip) ROOTDEV inum ip
  | None => (forall k, (k < dir_len x)%nat -> ~ names V x name k) /\
      fsys pid h0 env s L P sb start d out it tr bl V nolocks w'
  end.
Proof.
  intros HI Hx HD Hr HT Hmax Hfree.
  destruct (wp_run _ _ _ (dirlookup_spec _ _ _ _ (fun _ => False) _ _ _ _ _ _ _ _ _ _ _ _ _ name HI Hx HD Hr HT Hmax Hfree))
    as (r & w' & Hrun & HQ). exists r, w'. split; [done|]. destruct r as [[ip off]|]; [|done].
  destruct HQ as (k & Ho & Hk & Hn & Hno & HI' & Hc). exists k. cbv zeta in *.
  destruct (got_ok it ROOTDEV (de_inum (dirent V x k)) ip HT) as (G1 & G2 & _).
  { destruct Hc as [Hf|?]; [left; split; [done|]; intros y; apply Hmax|by right]. }
  by split_and!.
Qed.

Lemma demo_ref_small j y : demo_itable !! j = Some y -> y.(i_ref) < 2 ^ 31 - 1.
Proof. intros Hy. by apply demo_table in Hy as [-> | [-> | ->]]. Qed.

Lemma demo_free_entry : exists j y, demo_itable !! j = Some y /\ y.(i_ref) = 0.
Proof. by exists 2%nat, zero_inode. Qed.

#[local] Existing Instance small_image.

(** The name a is found in entry 0. *)
Lemma dirlookup_correct_witness : exists w w' ip, dirlookup 1 [97; 0] w = Ret (Some (ip, 0)) w'.
Proof.
  destruct (demo_fsys 0) as (L & P & tr & d & V & w & HI & HV).
  destruct (dirlookup_correct _ _ _ _ _ _ _ _ _ _ _ _ _ _ w 1%nat demo_dir [97; 0] HI eq_refl (demo_dir_ok V HV)
    ltac:(apply Nat.ltb_lt; reflexivity) demo_table_ok demo_ref_small demo_free_entry) as (r & w' & Hr & HQ).
  assert (Hn : names V demo_dir [97; 0] 0).
  { unfold names. rewrite (demo_dirent V HV) by lia. split; [done|reflexivity]. }
  destruct r as [[ip off]|].
  - destruct HQ as (k & -> & Hk & _ & Hno & _). exists w, w', ip. rewrite Hr. destruct k as [|k]; [done|].
    destruct (Hno 0%nat); [lia|done].
  - destruct HQ as [Hno _]. destruct (Hno 0%nat); [|done]. apply Nat.ltb_lt. reflexivity.
Defined.

(** A name is entered into a directory and looked up. *)
Definition link_then_lookup {I : Image} (i : nat) (name : list Z) (inum : Z) : K (option (nat * Z)) :=
  r ← dirlink i name inum;
  if r <? 0 then mret None else dirlookup i name.

(** What it returns: an entry, or nothing when the disk is full. *)
Definition linked_and_found pid h0 env s L P sb start d out (tr : list event) V x name inum
    (o : option (nat * Z)) (w' : world) : Prop :=
  exists it' bl' V' x',
  match o with
  | Some (j, off) => exists k, off = sizeof_dirent * Z.of_nat k /\ free_slot V x k /\
      dirent V' x' k = new_dirent name inum /\ found it' ROOTDEV (u16 inum) j /\
      (forall e, (e < dir_len x)%nat -> e <> k -> dirent V' x' e = dirent V x e) /\
      fsys pid h0 env s L P sb start d out it' tr bl' V' nolocks w'
  | None => (forall b, ~ free sb V' b) /\ fsys pid h0 env s L P sb start d out it' (tr ++ oops 0) bl' V' nolocks w'
  end.

(** The table after dirlink(), which changes the size and the blocks of the
    directory only. *)
Lemma wrote_table sb V x bl off e bs V' x' bl' it i :
  wrote sb V x bl off e bs V' x' bl' -> itable_ok it -> it !! i = Some x -> 0 < x.(i_ref) ->
  itable_ok (<[i := x']> it) /\ x'.(i_ref) = x.(i_ref).
Proof.
  intros W HT Hx Hr. pose proof (wt_inode _ _ _ _ _ _ _ _ _ _ W) as E.
  assert (E3 : i_ref x' = i_ref x) by (by rewrite E). split; [|done].
  eapply itable_ok_keep; [done|exact Hx|done|lia|by rewrite E|by rewrite E].
Qed.

Lemma link_then_lookup_spec {I : Image} pid h0 env s B L P sb start d out it tr bl V w i x name inum :
  layout sb start -> 1 <= out -> fsys pid h0 env s L P sb start d out it tr bl V nolocks w -> it !! i = Some x ->
  dir_ok sb V x -> bitmap_ok sb V -> itable_ok it -> 0 < x.(i_ref) ->
  (forall j y, it !! j = Some y -> y.(i_ref) < 2 ^ 31 - 1) -> (exists j y, it !! j = Some y /\ y.(i_ref) = 0) ->
  0 <= x.(i_inum) < sb.(sb_ninodes) -> x.(i_size) + sizeof_dirent <= MAXFILE * BSIZE ->
  (length bl + bitmap_blocks sb + 6 < NBUF)%nat -> chars_ok name -> u16 inum <> 0 ->
  (forall k, (k < dir_len x)%nat -> ~ names V x name k) ->
  wpx B (link_then_lookup i name inum) (linked_and_found pid h0 env s L P sb start d out tr V x name inum) w.
Proof.
  intros HG Hout HI Hx HD HV HT Hr Hmax Hfree Hi Hsz Hroom Hn Hin Hno. unfold link_then_lookup.
  assert (Hlt : (i < length it)%nat) by (by eapply lookup_lt_Some).
  eapply wpx_call; [by eapply (dirlink_spec pid h0 env s B L P sb start d out HG Hout)|].
  cbv zeta. intros r w1 (k & tot & x' & bl' & V' & Hk & -> & Htot & Hfull & W & HI1).
  destruct (Z.eqb_spec tot sizeof_dirent) as [->|Hne].
  2:{ apply wpx_ret. exists (<[i := x']> it), bl', V', x'. rewrite (proj2 (Z.ltb_lt _ _)) in HI1 by lia.
      split; [apply Hfull; lia|done]. }
  rewrite take_ge in W by (by rewrite length_new_dirent). change (sizeof_dirent <? sizeof_dirent) with false in HI1.
  rewrite app_nil_r in HI1. destruct (wrote_table _ _ _ _ _ _ _ _ _ _ _ _ W HT Hx Hr) as [HT' Er].
  destruct (linked_dir sb V x bl _ k name inum V' x' bl' HD Hk Hsz Hn Hin Hno W) as (HD' & Hk' & Ek & Hnk & Eo & Hlow).
  pose proof (wt_log _ _ _ _ _ _ _ _ _ _ W) as Hlog.
  assert (Hsp : (span (sizeof_dirent * Z.of_nat k) (sizeof_dirent * Z.of_nat k + sizeof_dirent) <= 1)%nat).
  { unfold span, sizeof_dirent, BSIZE. dlia. }
  change (0 <? 0) with false. cbv iota.
  eapply wpx_mono; [eapply dirlookup_spec; [exact HI1|by apply list_lookup_insert_eq|exact HD'|lia|done|..]|].
  - intros j y [(<- & <- & _)|[_ Hy]]%list_lookup_insert_Some; [rewrite Er|]; by eapply Hmax.
  - destruct Hfree as (j & y & Hy & Hy0). exists j, y. split; [|done]. rewrite list_lookup_insert_ne; [done|]. intros <-. simplify_eq. lia.
  - intros [[j off]|] w2 HQ; [|destruct HQ as [HQ _]; by destruct (HQ k)].
    destruct HQ as (k2 & -> & Hk2 & Hn2 & Hno2 & HI2 & Hc). cbv zeta in *.
    assert (k2 = k) as ->.
    { destruct (decide (k2 < k)%nat); [by destruct (Hlow k2)|]. destruct (decide (k < k2)%nat); [by destruct (Hno2 k)|lia]. }
    rewrite Ek, de_inum_new in *. eexists _, bl', V', x', k. split_and!; [done..| |done|exact HI2].
    eapply got_ok; [done|]. destruct Hc as [Hf|?]; [left; split; [done|]|by right].
    intros y [(<- & <- & _)|[_ Hy]]%list_lookup_insert_Some; [rewrite Er|]; by eapply Hmax.
Qed.

(** C10: a name that dirlink() enters is found by dirlookup(): in the first
    free slot or behind the last entry, with the inode number it was entered
    for, and every other entry is as before.  dirlink() fails only when the
    directory needs a block and none is free. *)
Theorem dirlink_dirlookup_roundtrip {I : Image} pid h0 env s L P sb start d out it tr bl V w i x name inum :
  layout sb start -> 1 <= out -> fsys pid h0 env s L P sb start d out it tr bl V nolocks w -> it !! i = Some x ->
  dir_ok sb V x -> bitmap_ok sb V -> itable_ok it -> 0 < x.(i_ref) ->
  (forall j y, it !! j = Some y -> y.(i_ref) < 2 ^ 31 - 1) -> (exists j y, it !! j = Some y /\ y.(i_ref) = 0) ->
  0 <= x.(i_inum) < sb.(sb_ninodes) -> x.(i_size) + sizeof_dirent <= MAXFILE * BSIZE ->
  (length bl + bitmap_blocks sb + 6 < NBUF)%nat -> chars_ok name -> u16 inum <> 0 ->
  (forall k, (k < dir_len x)%nat -> ~ names V x name k) ->
  exists o w', link_then_lookup i name inum w = Ret o w' /\
    linked_and_found pid h0 env s L P sb start d out tr V x name inum o w'.
Proof.
  intros. apply wp_run. by eapply link_then_lookup_spec.
Qed.

(** The name b is entered for inode 5 into the free slot of the directory, or
    there is no free block. *)
Lemma dirlink_dirlookup_roundtrip_witness : exists w o w', link_then_lookup 1 [98; 0] 5 w = Ret o w' /\
  forall j off, o = Some (j, off) -> off = 16 /\ exists y, itable (w_st w') !! j = Some y /\ y.(i_inum) = 5.
Proof.
  destruct (demo_fsys 1) as (L & P & tr & d & V & w & HI & HV).
  destruct (dirlink_dirlookup_roundtrip _ _ _ _ _ _ _ _ _ _ _ _ _ _ w 1%nat demo_dir [98; 0] 5 demo_layout (Z.le_refl 1) HI
    eq_refl (demo_dir_ok V HV) (demo_bitmap_ok V HV) demo_table_ok) as (o & w' & Hr & it' & bl' & V' & x' & HQ); try done.
  { apply demo_ref_small. }
  { apply demo_free_entry. }
  { apply Nat.ltb_lt. vm_compute. reflexivity. }
  { apply (bool_decide_unpack _). vm_compute. exact I. }
  { intros k Hk. change (dir_len demo_dir) with 2%nat in Hk. unfold names. rewrite (demo_dirent V HV) by done.
    destruct k as [|[|]]; [by intros [_ ?]|by intros [? _]|lia]. }
  exists w, o, w'. split; [exact Hr|]. intros j off ->. destruct HQ as (k & -> & (Hk & Hlow & Hk3) & _ & (y & Hy & _ & _ & Hi) & _ & HI').
  change (dir_len demo_dir) with 2%nat in *. split.
  - destruct k as [|[|[|]]]; [|done| |lia].
    + destruct Hk3 as [|Hz]; [done|]. by rewrite (demo_dirent V HV) in Hz by lia.
    + destruct (Hlow 1%nat); [lia|]. by rewrite (demo_dirent V HV) by lia.
  - exists y. rewrite (fsys_table HI'). by split.
Defined.

(** ** Truncation *)

(** C11: itrunc() returns to the free map the blocks of the file, its indirect
    block included, and no other block: every other mark is as before, and no
    block but those of the free map and the inode's own changes.  The file is
    then empty, in memory and on the disk. *)
Theorem itrunc_correct pid h0 env s L P sb start d out it tr bl V w i x :
  layout sb start -> 1 <= out -> fsys pid h0 env s L P sb start d out it tr bl V nolocks w ->
  it !! i = Some x -> file_ok sb V x -> 0 <= x.(i_inum) < sb.(sb_ninodes) ->
  (length bl + bitmap_blocks sb + 1 < NBUF)%nat ->
  exists w' bl' V', itrunc i w = Ret tt w' /\
    fsys pid h0 env s L P sb start d out (<[i := truncated x]> it) tr bl' V' nolocks w' /\
    (forall b, 0 <= b < sb.(sb_size) -> bit sb V' b = true <-> bit sb V b = true /\ ~ owns (ind_block x) (fblock V x) b) /\
    (forall b, ~ in_bitmap sb b -> b <> IBLOCK x.(i_inum) sb -> V' b = V b) /\
    V' (IBLOCK x.(i_inum) sb) = put_dinode (dinode_off x.(i_inum)) (truncated x) (V (IBLOCK x.(i_inum) sb)).
Proof.
  intros HG Hout HI Hx F Hi Hr.
  destruct (wp_run _ _ _ (itrunc_spec _ _ _ _ (fun _ => False) _ _ _ _ _ _ HG Hout _ _ _ _ _ _ _ HI Hx F Hi Hr))
    as ([] & w' & Hrun & bl' & V' & V1 & fl & HI' & [U1 U2] & Hfl & -> & _).
  assert (Hib : ~ in_bitmap sb (IBLOCK (i_inum x) sb)).
  { intros Hb. pose proof (IBLOCK_range sb start HG _ Hi). unfold in_bitmap in Hb. lia. }
  eexists w', bl', _. split; [done|]. split; [exact HI'|]. unfold update_map. change (i_inum (truncated x)) with (i_inum x). split_and!.
  - intros b Hb. rewrite (bit_agree sb start HG V1) by (done || (intros c Hc; apply fn_lookup_insert_ne; congruence)).
    rewrite U1, andb_true_iff, negb_true_iff, bool_decide_eq_false, Hfl by done. done.
  - intros b Hb Hne. rewrite fn_lookup_insert_ne by done. by apply U2.
  - by rewrite fn_lookup_insert, (U2 _ Hib).
Qed.

Lemma itrunc_correct_witness : exists w w' V', itrunc 0 w = Ret tt w' /\
  itable (w_st w') !! 0%nat = Some (truncated demo_inode) /\ bit demo_sb V' 35 = false /\ bit demo_sb V' 36 = true.
Proof.
  destruct (demo_fsys 1) as (L & P & tr & d & V & w & HI & HV).
  destruct (itrunc_correct _ _ _ _ _ _ _ _ _ _ _ _ _ _ w 0%nat demo_inode demo_layout (Z.le_refl 1) HI eq_refl (demo_file_ok V HV))
    as (w' & bl' & V' & Hr & HI' & Hb & _); [done|apply Nat.ltb_lt; vm_compute; reflexivity|].
  exists w, w', V'. rewrite (fsys_table HI'). split; [exact Hr|]. split; [done|]. split.
  - apply not_true_iff_false. intros [_ Hno]%Hb; [|done]. apply Hno. split; [done|]. right. by exists 0.
  - apply Hb; [done|]. split; [by rewrite (demo_bit V HV)|]. intros [_ [?|(k & Hk & E)]]; [done|].
    unfold demo_inode in E. rewrite one_fblock in E by done. by destruct (decide (k = 0)).
Defined.
