(* ===== verification/FsPath.v ===== *)
(** * Path names: skipelem() and namex()

    A path is the list of its components.  namex() follows them from
    directory to directory, as they are on the disk, and gives the entry of
    the inode table for the inode at the end. *)

From stdpp Require Import functions.
From S2P Require Import Prelude Memory Riscv Machine Spinlock Kalloc Vm Sched Demo Sleeplock Dyn Bytes Ring Bio Bcache Log Dstate LogSpec Crash Fs FsState FsAlloc FsInode FsTable FsFile FsIo FsDir FsUser FsDemo.

(** ** Components *)

(** The components of a path, with [cur] before it: what is between slashes
    and is not empty. *)
Fixpoint components (cur path : list Z) : list (list Z) :=
  match path with
  | [] => if bool_decide (cur = []) then [] else [cur]
  | c :: rest =>
      if c =? 47 then (if bool_decide (cur = []) then [] else [cur]) ++ components [] rest
      else components (cur ++ [c]) rest
  end.

(** The names a path goes through: components cut to DIRSIZ characters. *)
Definition path_names (path : list Z) : list (list Z) := map (take 14) (components [] path).

Lemma components_skip path : components [] (skip_slashes path) = components [] path.
Proof. induction path as [|c path IH]; cbn; [done|]. destruct (c =? 47) eqn:E; cbn; [done|by rewrite E]. Qed.

Lemma length_skip path : (length (skip_slashes path) <= length path)%nat.
Proof. induction path as [|c path IH]; cbn; [done|]. destruct (c =? 47); cbn; lia. Qed.

Lemma components_elem path cur : let '(e, r) := path_elem path in
  components cur path = (if bool_decide (cur ++ e = []) then [] else [cur ++ e]) ++ components [] r.
Proof.
  revert cur. induction path as [|c path IH]; intros cur; cbn [path_elem].
  { cbn. by rewrite !app_nil_r. }
  destruct (c =? 47) eqn:E.
  - cbn. rewrite E, app_nil_r. done.
  - specialize (IH (cur ++ [c])). destruct (path_elem path) as [e r]. cbn. rewrite E, IH.
    by rewrite <-app_assoc.
Qed.

Lemma length_elem path : let '(e, r) := path_elem path in (length e + length r = length path)%nat.
Proof.
  induction path as [|c path IH]; cbn; [done|]. destruct (c =? 47); cbn; [done|].
  destruct (path_elem path) as [e r]. cbn. lia.
Qed.

Lemma components_nonempty path : forall cur, cur <> [] -> components cur path <> [].
Proof.
  induction path as [|c path IH]; intros cur Hc; cbn; [by rewrite bool_decide_false|].
  destruct (c =? 47); [by rewrite bool_decide_false|]. apply IH. by destruct cur.
Qed.

(** A path that does not begin with a slash has a name unless it is empty. *)
Lemma names_skip path : path_names (skip_slashes path) = [] <-> skip_slashes path = [].
Proof.
  unfold path_names. split; [|by intros ->]. intros H%map_eq_nil. induction path as [|c path IH]; [done|]. cbn in *.
  destruct (c =? 47) eqn:E; [auto|]. cbn in H. rewrite E in H. by apply components_nonempty in H.
Qed.

(** skipelem() takes the first name, and what is left is shorter. *)
Lemma skipelem_names path :
  match skipelem path with
  | None => path_names path = []
  | Some (e, r) => path_names path = e :: path_names r /\ (length r < length path)%nat /\ (path_names r = [] <-> r = [])
  end.
Proof.
  unfold skipelem, path_names. rewrite <-(components_skip path). pose proof (length_skip path) as Hl.
  destruct (skip_slashes path) as [|c p] eqn:E; [done|].
  assert (Hc : c <> 47).
  { clear -E. revert E. induction path as [|a path IH]; [done|]. cbn. destruct (a =? 47) eqn:Ea; [done|].
    intros [= <- <-]. lia. }
  pose proof (components_elem (c :: p) []) as Hcomp. pose proof (length_elem (c :: p)) as Hlen.
  destruct (path_elem (c :: p)) as [e r] eqn:Ee. rewrite Hcomp. rewrite app_nil_l in *.
  assert (He : e <> []).
  { cbn in Ee. rewrite (proj2 (Z.eqb_neq _ _) Hc) in Ee. destruct (path_elem p). by injection Ee as <- _. }
  rewrite bool_decide_false by done. cbn [app map]. pose proof (names_skip r) as Hns. unfold path_names in Hns.
  rewrite components_skip in *. split; [done|]. split; [|exact Hns]. pose proof (length_skip r). destruct e; [done|]. cbn in *. lia.
Qed.

(** ** What a path denotes *)

(** Inode [n] of the disk. *)
Definition dnode (sb : superblock) (V : Z -> list Z) (n : Z) : inode := loaded sb V (fresh_entry ROOTDEV n zero_inode).

(** The inode number of the first entry with the name. *)
Definition entry_of (V : Z -> list Z) (x : inode) (name : list Z) : option Z :=
  k ← find_index (fun k => bool_decide (names V x name k)) (seq 0 (dir_len x));
  Some (de_inum (dirent V x k)).

(** The inode at the end of the path or, for nameiparent(), the directory
    that has the last name. *)
Fixpoint walk_to (sb : superblock) (V : Z -> list Z) (parent : bool) (n : Z) (path : list (list Z)) : option Z :=
  match path with
  | [] => if parent then None else Some n
  | name :: rest =>
      if negb ((dnode sb V n).(i_type) =? T_DIR) then None
      else if parent && bool_decide (rest = []) then Some n
      else m ← entry_of V (dnode sb V n) name; walk_to sb V parent m rest
  end.

Lemma entry_of_spec V x name :
  match entry_of V x name with
  | Some m => exists k, m = de_inum (dirent V x k) /\ (k < dir_len x)%nat /\ names V x name k /\
      forall j, (j < k)%nat -> ~ names V x name j
  | None => forall k, (k < dir_len x)%nat -> ~ names V x name k
  end.
Proof.
  unfold entry_of. destruct (find_index _ _) as [k|] eqn:E; cbn.
  - apply find_index_Some in E as (k' & Hk & Hn & Hlow). apply lookup_seq in Hk as [-> Hk].
    apply bool_decide_eq_true in Hn. exists k. split_and!; [done..|]. intros j Hj.
    specialize (Hlow j j Hj). rewrite lookup_seq_lt in Hlow by lia. apply bool_decide_eq_false in Hlow; done.
  - intros k Hk. rewrite find_index_None in E. specialize (E k k). rewrite lookup_seq_lt in E by lia.
    apply bool_decide_eq_false in E; done.
Qed.

Lemma entry_of_first V x name k :
  (k < dir_len x)%nat -> names V x name k -> (forall j, (j < k)%nat -> ~ names V x name j) ->
  entry_of V x name = Some (de_inum (dirent V x k)).
Proof.
  intros Hk Hn Hlow. pose proof (entry_of_spec V x name) as H. destruct (entry_of V x name) as [m|]; [|by destruct (H k)].
  destruct H as (j & -> & Hj & Hnj & Hlowj). do 2 f_equal. f_equal.
  destruct (decide (j < k)%nat); [by destruct (Hlow j)|]. destruct (decide (k < j)%nat); [by destruct (Hlowj k)|lia].
Qed.

Lemma entry_of_none V x name : (forall k, (k < dir_len x)%nat -> ~ names V x name k) -> entry_of V x name = None.
Proof.
  intros Hno. pose proof (entry_of_spec V x name) as H. destruct (entry_of V x name) as [m|]; [|done].
  destruct H as (k & _ & Hk & Hn & _). by destruct (Hno k).
Qed.

(** An inode in memory that agrees with the disk has its files and entries. *)
Section agree.
Context (sb : superblock) (V : Z -> list Z) (x y : inode) (Hd : on_disk x y).

Lemma agree_fblock : fblock V x = fblock V y.
Proof using Hd. destruct Hd as (_ & _ & _ & _ & _ & E). unfold fblock, ind_block. by rewrite E. Qed.

Lemma agree_dirent k : dirent V x k = dirent V y k.
Proof using Hd. unfold dirent, fbytes, fbyte. by rewrite agree_fblock. Qed.

Lemma agree_dir_len : dir_len x = dir_len y.
Proof using Hd. destruct Hd as (_ & _ & _ & _ & E & _). unfold dir_len. by rewrite E. Qed.

Lemma agree_names name k : names V x name k <-> names V y name k.
Proof using Hd. unfold names. by rewrite agree_dirent. Qed.

Lemma agree_dir_ok : x.(i_dev) = y.(i_dev) -> dir_ok sb V y -> dir_ok sb V x.
Proof using Hd.
  intros Hdev [D1 D2 D3 D4]. pose proof agree_fblock as Ef. destruct Hd as (E1 & _ & _ & _ & E2 & E3). split; [congruence|congruence|..].
  - destruct D3 as [F1 F2 F3]. split; [congruence|congruence|]. unfold ind_block in *. by rewrite Ef, E3.
  - destruct D4 as [W1 W2]. split; [congruence|]. rewrite E2. unfold filled in *. by rewrite Ef.
Qed.

End agree.

(** ** The walk *)

(** Inodes that path names lead to: in use, linked, and directories are well
    formed and have entries for such inodes only. *)
Record tree_ok (sb : superblock) (V : Z -> list Z) (R : Z -> Prop) : Prop := {
  tree_type n : R n -> (dnode sb V n).(i_type) <> 0;
  tree_nlink n : R n -> (dnode sb V n).(i_nlink) <> 0;
  tree_dir n : R n -> (dnode sb V n).(i_type) = T_DIR -> dir_ok sb V (dnode sb V n);
  tree_entry n k : R n -> (dnode sb V n).(i_type) = T_DIR -> (k < dir_len (dnode sb V n))%nat ->
    de_inum (dirent V (dnode sb V n) k) <> 0 -> R (de_inum (dirent V (dnode sb V n) k))
}.

(** The entries in use that are loaded agree with the disk. *)
Definition synced (sb : superblock) (V : Z -> list Z) (it : list inode) : Prop :=
  forall i x, it !! i = Some x -> 0 < x.(i_ref) -> x.(i_valid) <> 0 -> x.(i_dev) = ROOTDEV -> on_disk x (dnode sb V x.(i_inum)).

(** Nobody has an entry locked but the process [pid], which may have [o]. *)
Definition locks_ok (pid : Z) (o : option nat) (it : list inode) : Prop :=
  forall i x, it !! i = Some x ->
    if decide (o = Some i) then x.(i_lock).(sl_locked) = 1 /\ x.(i_lock).(sl_pid) = pid else x.(i_lock).(sl_locked) = 0.

(** The table while a path is followed: [hs] are the pointers held. *)
Record walking (pid : Z) (sb : superblock) (V : Z -> list Z) (it : list inode) (hs : list nat) (o : option nat) : Prop := {
  wk_table : table_inv it hs;
  wk_synced : synced sb V it;
  wk_locks : locks_ok pid o it
}.

(** Entry [i] is for inode [n]. *)
Definition entry_for (it : list inode) (i : nat) (n : Z) : Prop :=
  exists x, it !! i = Some x /\ x.(i_dev) = ROOTDEV /\ x.(i_inum) = n.

(** A change of one entry that keeps its identity. *)
Lemma entry_for_insert it i x x' j n :
  it !! i = Some x -> x'.(i_dev) = x.(i_dev) -> x'.(i_inum) = x.(i_inum) ->
  entry_for it j n -> entry_for (<[i := x']> it) j n.
Proof.
  intros Hx Hd Hn (y & Hy & Hyd & Hyn). assert ((i < length it)%nat) by (by eapply lookup_lt_Some).
  destruct (decide (i = j)) as [->|Hne].
  - exists x'. rewrite list_lookup_insert_eq by done. simplify_eq. split_and!; congruence.
  - exists y. by rewrite list_lookup_insert_ne.
Qed.

Lemma locks_ok_insert pid o o' it i x' :
  locks_ok pid o it -> (forall j, j <> i -> o' = Some j <-> o = Some j) ->
  (if decide (o' = Some i) then x'.(i_lock).(sl_locked) = 1 /\ x'.(i_lock).(sl_pid) = pid else x'.(i_lock).(sl_locked) = 0) ->
  locks_ok pid o' (<[i := x']> it).
Proof.
  intros HL Ho Hx j y [(<- & <- & _)|[Hne Hy]]%list_lookup_insert_Some; [done|].
  specialize (HL j y Hy). specialize (Ho j ltac:(congruence)). destruct (decide (o' = Some j)), (decide (o = Some j)); tauto.
Qed.

Lemma synced_insert sb V it i x' :
  synced sb V it -> (0 < x'.(i_ref) -> x'.(i_valid) <> 0 -> x'.(i_dev) = ROOTDEV -> on_disk x' (dnode sb V x'.(i_inum))) ->
  synced sb V (<[i := x']> it).
Proof. intros HS Hx j y [(<- & <- & _)|[_ Hy]]%list_lookup_insert_Some; [done|by apply (HS j)]. Qed.

(** A change of one entry that keeps its identity and its count. *)
Lemma table_inv_keep it hs i x x' :
  table_inv it hs -> it !! i = Some x -> 0 < x.(i_ref) -> x'.(i_ref) = x.(i_ref) -> x'.(i_dev) = x.(i_dev) ->
  x'.(i_inum) = x.(i_inum) -> x'.(i_valid) = 0 \/ x'.(i_nlink) <> 0 -> table_inv (<[i := x']> it) hs.
Proof.
  intros (HT & HC & HL) Hx Hr Er Ed En Hl. assert (Hlt : (i < length it)%nat) by (by eapply lookup_lt_Some). split_and!.
  - eapply itable_ok_keep; [done|exact Hx|done|lia|done|done].
  - eapply (counted_insert it i x hs); [done|done|reflexivity|auto|done|by apply list_lookup_insert_eq| |by rewrite length_insert|].
    + rewrite Er. by apply HC.
    + intros j Hj. by rewrite list_lookup_insert_ne.
  - by apply linked_insert.
Qed.

Section walk.
Context {I : Image} (pid : Z) (h0 : hart) (env : list turn) (s : kstate) (B : world -> Prop).
Context (L : gmap Z spinlock) (P : list proc) (sb : superblock) (start : Z) (d : gmap Z (list Z)) (out : Z).
Context (V : Z -> list Z) (R : Z -> Prop) (HR : tree_ok sb V R) (bl : list Z) (Hbl : (length bl < NBUF)%nat) (tr : list event).

#[local] Abbreviation fsys it := (FsState.fsys pid h0 env s L P sb start d out it tr bl V nolocks).

(** An entry, loaded from the disk or before, agrees with it. *)
Lemma loaded_agrees it hs o i x : walking pid sb V it hs o -> it !! i = Some x -> 0 < x.(i_ref) -> x.(i_dev) = ROOTDEV ->
  on_disk (loaded sb V x) (dnode sb V x.(i_inum)) /\ (loaded sb V x).(i_valid) <> 0.
Proof.
  intros [_ HS _] Hx Hr Hd. unfold loaded. destruct (Z.eqb_spec (i_valid x) 0) as [E|E]; [|split; [by eapply HS|done]].
  split; [by split_and!|done].
Qed.

Lemma walk_ilock it hs i n w :
  fsys it w -> walking pid sb V it hs None -> i ∈ hs -> entry_for it i n -> R n ->
  wpx B (ilock (Some i)) (fun _ w' => exists it' y, fsys it' w' /\ walking pid sb V it' hs (Some i) /\
    it' !! i = Some y /\ y.(i_dev) = ROOTDEV /\ y.(i_inum) = n /\ on_disk y (dnode sb V n)) w.
Proof using HR Hbl.
  intros HI HW Hi (x & Hx & Hd & Hn) HRn. apply list_elem_of_lookup in Hi as [k Hk].
  destruct (held_entry _ _ _ _ (wk_table _ _ _ _ _ _ HW) Hk) as (x' & Hx' & Hr & _). simplify_eq.
  destruct (loaded_agrees it hs None i x HW Hx Hr Hd) as [Ha Hv]. pose proof Ha as (Et & _ & _ & El & _).
  assert (Hlt : (i < length it)%nat) by (by eapply lookup_lt_Some). pose proof HW as [HT HS HL].
  assert (Hlen : length it = NINODE) by apply HT.
  eapply wpx_mono; [eapply ilock_spec; [exact HI|exact Hx|lia|lia|exact (HL i x Hx)|done|done|]|].
  { intros _. rewrite Et. by apply (tree_type _ _ _ HR). }
  cbn beta. intros _ w' HI'. eexists _, _. split; [exact HI'|]. destruct (loaded_keeps sb V x) as (K1 & K2 & K3).
  rewrite list_lookup_insert_eq by done. split; [split|split_and!; [done|cbn; congruence|exact K2|exact Ha]].
  - eapply table_inv_keep; [done|exact Hx|done|exact K3|exact K1|exact K2|]. right. cbn. rewrite El. by apply (tree_nlink _ _ _ HR).
  - apply synced_insert; [done|]. intros _ _ _. cbn. by rewrite K2.
  - eapply locks_ok_insert; [done| |by rewrite decide_True].
    intros j Hj. split; [intros [= ->]; done|done].
Qed.

(** A pointer that is held and locked. *)
Lemma walk_held it hs i : walking pid sb V it hs (Some i) -> i ∈ hs -> exists k x, hs !! k = Some i /\ it !! i = Some x /\
  0 < x.(i_ref) /\ x.(i_lock).(sl_locked) = 1 /\ x.(i_lock).(sl_pid) = pid /\ (i < NINODE)%nat.
Proof.
  intros [HT HS HL] Hi. apply list_elem_of_lookup in Hi as [k Hk].
  destruct (held_entry _ _ _ _ HT Hk) as (x & Hx & Hr & _). exists k, x. pose proof (HL i x Hx) as Hlk. rewrite decide_True in Hlk by done.
  assert (Hlt : (i < length it)%nat) by (by eapply lookup_lt_Some). destruct HT as ([Hlen _ _] & _). split_and!; [done..|tauto|tauto|lia].
Qed.

Lemma walk_unlocked it hs i x : walking pid sb V it hs (Some i) -> it !! i = Some x -> 0 < x.(i_ref) ->
  walking pid sb V (<[i := iunlocked x]> it) hs None.
Proof.
  intros [HT HS HL] Hx Hr. split.
  - eapply table_inv_keep; [done|exact Hx|done..|]. by apply HT in Hx.
  - apply synced_insert; [done|]. exact (HS i x Hx).
  - eapply locks_ok_insert; [done| |by rewrite decide_False]. intros j Hj. split; [done|intros [= ->]; done].
Qed.

(** The handles after a pointer to [i] is dropped. *)
Lemma walk_put it hs k i x : walking pid sb V it hs None -> (length hs < NINODE)%nat -> hs !! k = Some i -> it !! i = Some x ->
  walking pid sb V (<[i := set_i_ref (s32 (x.(i_ref) - 1)) x]> it) (delete k hs) None.
Proof.
  intros [HT HS HL] Hl Hk Hx. destruct (held_entry _ _ _ _ HT Hk) as (x' & Hx' & Hr & _). simplify_eq. split.
  - by eapply put_counted.
  - apply synced_insert; [done|]. intros _. by apply (HS i x Hx).
  - eapply locks_ok_insert; [done|done|]. rewrite decide_False by done. exact (HL i x Hx).
Qed.

Lemma walk_iput it hs k i w :
  fsys it w -> walking pid sb V it hs None -> (length hs < NINODE)%nat -> hs !! k = Some i ->
  wpx B (iput i) (fun _ w' => exists it', fsys it' w' /\ walking pid sb V it' (delete k hs) None) w.
Proof.
  intros HI HW Hl Hk. destruct (held_entry _ _ _ _ (wk_table _ _ _ _ _ _ HW) Hk) as (x & Hx & Hr & _).
  eapply wpx_mono; [eapply iput_spec; [exact HI|exact Hx|]|].
  { destruct (wk_table _ _ _ _ _ _ HW) as (_ & _ & HL). destruct (HL i x Hx) as [-> | Hn]; [by rewrite andb_false_r|].
    by rewrite (proj2 (Z.eqb_neq _ _) Hn), andb_false_r. }
  cbn beta. intros _ w' HI'. eexists. split; [exact HI'|]. by apply walk_put.
Qed.

Lemma walk_iunlock it hs i w :
  fsys it w -> walking pid sb V it hs (Some i) -> i ∈ hs ->
  wpx B (iunlock (Some i)) (fun _ w' => exists it', fsys it' w' /\ walking pid sb V it' hs None /\
    forall j m, entry_for it j m -> entry_for it' j m) w.
Proof.
  intros HI HW Hi. destruct (walk_held _ _ _ HW Hi) as (k & x & Hk & Hx & Hr & Hl1 & Hl2 & Hlt).
  eapply wpx_mono; [eapply iunlock_spec; [exact HI|exact Hx|done|lia|done|done]|]. cbn beta. intros _ w' HI'.
  eexists. split; [exact HI'|]. split; [by apply walk_unlocked|]. intros j m. by eapply entry_for_insert.
Qed.

Lemma walk_iunlockput it hs k i w :
  fsys it w -> walking pid sb V it hs (Some i) -> (length hs < NINODE)%nat -> hs !! k = Some i ->
  wpx B (iunlockput i) (fun _ w' => exists it', fsys it' w' /\ walking pid sb V it' (delete k hs) None /\
    forall j m, entry_for it j m -> entry_for it' j m) w.
Proof.
  intros HI HW Hl Hk. assert (Hi : i ∈ hs) by (by eapply list_elem_of_lookup_2). unfold iunlockput.
  wcall walk_iunlock; [exact HI|exact HW|exact Hi|]. intros _ w1 (it1 & HI1 & HW1 & He1).
  destruct (held_entry _ _ _ _ (wk_table _ _ _ _ _ _ HW1) Hk) as (x & Hx & Hr & _).
  eapply wpx_mono; [eapply iput_spec; [exact HI1|exact Hx|]|].
  { destruct (wk_table _ _ _ _ _ _ HW1) as (_ & _ & HL). destruct (HL i x Hx) as [-> | Hn]; [by rewrite andb_false_r|].
    by rewrite (proj2 (Z.eqb_neq _ _) Hn), andb_false_r. }
  cbn beta. intros _ w' HI'. eexists. split; [exact HI'|]. split; [by apply walk_put|].
  intros j m Hj%He1. by eapply entry_for_insert.
Qed.

(** The entry that dirlookup() gives. *)
Lemma walk_got it hs o m j :
  walking pid sb V it hs o -> (length hs < NINODE)%nat ->
  found it ROOTDEV m j \/ (forall i, ~ found it ROOTDEV m i) /\ (exists y, it !! j = Some y /\ y.(i_ref) = 0) ->
  walking pid sb V (got it ROOTDEV m j) (j :: hs) o /\ entry_for (got it ROOTDEV m j) j m.
Proof.
  intros [HT HS HL] Hl Hc. pose proof (got_counted it hs ROOTDEV m j HT Hl Hc) as HT'. split; [split; [done|..]|].
  - unfold got. destruct (it !! j) as [y|] eqn:Hy; [|done]. destruct (Z.ltb_spec 0 (i_ref y)).
    + apply synced_insert; [done|]. intros _. by apply (HS j y Hy).
    + apply synced_insert; [done|]. intros _ Hv. by destruct Hv.
  - unfold got. destruct (it !! j) as [y|] eqn:Hy; [|done]. destruct (0 <? i_ref y);
      (eapply locks_ok_insert; [done|done|]); exact (HL j y Hy).
  - destruct (got_ok it ROOTDEV m j) as (_ & (y & Hy & _ & Hd & Hn) & _); [apply HT| |by exists y].
    destruct Hc as [Hf|?]; [left; split; [done|]|by right]. intros y. by eapply refs_small.
Qed.

Lemma walk_lookup it hs i n y name w :
  fsys it w -> walking pid sb V it hs (Some i) -> (length hs < NINODE)%nat -> it !! i = Some y ->
  y.(i_dev) = ROOTDEV -> on_disk y (dnode sb V n) -> R n -> y.(i_type) = T_DIR ->
  wpx B (dirlookup i name) (fun r w' => match r with
    | Some (j, _) => exists m it', entry_of V (dnode sb V n) name = Some m /\ R m /\ fsys it' w' /\
        walking pid sb V it' (j :: hs) (Some i) /\ entry_for it' j m
    | None => entry_of V (dnode sb V n) name = None /\ fsys it w' end) w.
Proof using HR Hbl.
  intros HI HW Hl Hy Hd Ha HRn Hty. assert (Hty' : (dnode sb V n).(i_type) = T_DIR) by (by destruct Ha as (<- & _)).
  assert (HD : dir_ok sb V y) by (eapply agree_dir_ok; [exact Ha|done|by apply (tree_dir _ _ _ HR)]).
  pose proof (wk_table _ _ _ _ _ _ HW) as HT. pose proof HT as (HT0 & HC & _).
  eapply wpx_mono; [eapply dirlookup_spec; [exact HI|exact Hy|exact HD|exact Hbl|done|by intros; eapply refs_small|by eapply free_entry]|].
  intros [[j off]|] w'; cbn [looked_up].
  - intros (k & _ & Hk & Hn & Hno & HI' & Hc). cbv zeta in *. rewrite (agree_dir_len _ _ Ha) in Hk. rewrite (agree_dirent V _ _ Ha) in *.
    rewrite (agree_names V _ _ Ha) in Hn. destruct (walk_got it hs (Some i) _ j HW Hl Hc) as [HW' He].
    eexists _, _. split; [apply entry_of_first; [exact Hk|exact Hn|]|]; [|split_and!; [|exact HI'|exact HW'|exact He]].
    + intros j' Hj'. rewrite <-(agree_names V _ _ Ha). by apply Hno.
    + apply (tree_entry _ _ _ HR); [done..|]. apply Hn.
  - intros [Hno HI']. split; [|done]. apply entry_of_none. intros k Hk. rewrite <-(agree_names V _ _ Ha). apply Hno.
    by rewrite (agree_dir_len _ _ Ha).
Qed.

(** The whole walk: it ends at the inode that the path denotes, and keeps no
    other pointer. *)
Lemma namex_loop_spec parent : forall fuel it hs i n path name w,
  fsys it w -> walking pid sb V it (i :: hs) None -> (length hs + 2 < NINODE)%nat -> entry_for it i n -> R n ->
  (length path < fuel)%nat ->
  wpx B (namex_loop fuel i path name parent) (fun r w' => exists it', fsys it' w' /\
    match walk_to sb V parent n (path_names path) with
    | Some m => exists j, r = (Some j, default name (last (path_names path))) /\ entry_for it' j m /\ walking pid sb V it' (j :: hs) None
    | None => r.1 = None /\ walking pid sb V it' hs None
    end) w.
Proof using HR Hbl.
  induction fuel as [|fuel IH]; intros it hs i n path name w HI HW Hl He HRn Hf; [lia|]. cbn [namex_loop].
  pose proof (skipelem_names path) as Hs. destruct (skipelem path) as [[e rest]|].
  2:{ rewrite Hs. cbn [walk_to]. destruct parent.
      - wcall (walk_iput it (i :: hs) 0); [exact HI|done|cbn; lia|done|]. intros _ w1 (it1 & HI1 & HW1). apply wpx_ret. by exists it1.
      - apply wpx_ret. exists it. split; [done|]. by exists i. }
  destruct Hs as (Hnames & Hlen & Hnil). rewrite Hnames. cbn [walk_to].
  wcall walk_ilock; [exact HI|exact HW|by left|exact He|exact HRn|]. intros _ w1 (it1 & y & HI1 & HW1 & Hy & Hd & Hn & Ha).
  wcall fsys_get_inode; [exact HI1|exact Hy|]. intros ? w2 [-> HI2]. pose proof Ha as (<- & _).
  destruct (Z.eqb_spec (i_type y) T_DIR) as [Hty|Hty]; cbn [negb].
  2:{ wcall (walk_iunlockput it1 (i :: hs) 0); [exact HI2|done|cbn; lia|done|]. intros _ w3 (it3 & HI3 & HW3 & _).
      apply wpx_ret. by exists it3. }
  rewrite (bool_decide_ext (rest = []) (path_names rest = [])) by done.
  destruct (parent && bool_decide (path_names rest = [])) eqn:Hp.
  { apply andb_true_iff in Hp as [-> Hp%bool_decide_eq_true]. wcall walk_iunlock; [exact HI2|done|by left|].
    intros _ w3 (it3 & HI3 & HW3 & He3). apply wpx_ret. exists it3. split; [done|]. exists i. rewrite Hp. split_and!; [done| |done].
    apply He3. by exists y. }
  wcall walk_lookup; [exact HI2|exact HW1|cbn; lia|exact Hy|done|exact Ha|exact HRn|exact Hty|].
  intros [[j off]|] w3.
  - intros (m & it3 & Em & HRm & HI3 & HW3 & He3). rewrite Em. cbn [mbind option_bind].
    wcall (walk_iunlockput it3 (j :: i :: hs) 1); [exact HI3|done|cbn; lia|done|]. intros _ w4 (it4 & HI4 & HW4 & He4).
    eapply wpx_mono; [eapply (IH it4 hs j m rest e); [done|exact HW4|lia|by apply He4|done|lia]|]. cbn beta.
    intros r w5 (it5 & HI5 & HQ). exists it5. split; [done|]. destruct (walk_to _ _ _ _ _) as [m'|]; [|done].
    destruct HQ as (j' & -> & HQ). exists j'. split; [|done]. rewrite last_cons. by destruct (last (path_names rest)).
  - intros [-> HI3]. cbn [mbind option_bind]. wcall (walk_iunlockput it1 (i :: hs) 0); [exact HI3|done|cbn; lia|done|].
    intros _ w4 (it4 & HI4 & HW4 & _). apply wpx_ret. by exists it4.
Qed.

Lemma walk_idup it hs i n w :
  fsys it w -> walking pid sb V it hs None -> (length hs < NINODE)%nat -> i ∈ hs -> entry_for it i n ->
  wpx B (idup i) (fun r w' => exists it', r = i /\ fsys it' w' /\ walking pid sb V it' (i :: hs) None /\ entry_for it' i n) w.
Proof.
  intros HI [HT HS HL] Hl Hi He. apply list_elem_of_lookup in Hi as [k Hk].
  destruct (held_entry _ _ _ _ HT Hk) as (x & Hx & Hr & _).
  eapply wpx_mono; [by eapply idup_spec|]. cbn beta. intros r w' [-> HI']. eexists. split; [done|]. split; [exact HI'|].
  split; [split|by eapply entry_for_insert].
  - by eapply dup_counted.
  - apply synced_insert; [done|]. intros _. by apply (HS i x Hx).
  - eapply locks_ok_insert; [done|done|]. rewrite decide_False by done. exact (HL i x Hx).
Qed.

(** Where a path begins: at the root, or at the current directory of the
    process. *)
Definition starts_at (p : proc) (it : list inode) (hs : list nat) (path : list Z) (n : Z) : Prop :=
  if bool_decide (head path = Some 47) then n = ROOTINO
  else exists c, p.(p_cwd) = Some c /\ c ∈ hs /\ entry_for it c n.

Lemma namex_spec parent it hs path n w me p :
  fsys it w -> walking pid sb V it hs None -> (length hs + 2 < NINODE)%nat -> h0.(h_proc) = Some me -> P !! me = Some p ->
  starts_at p it hs path n -> R n ->
  wpx B (namex path parent) (fun r w' => exists it', fsys it' w' /\
    match walk_to sb V parent n (path_names path) with
    | Some m => exists j, r = (Some j, default [] (last (path_names path))) /\ entry_for it' j m /\ walking pid sb V it' (j :: hs) None
    | None => r.1 = None /\ walking pid sb V it' hs None
    end) w.
Proof using HR Hbl.
  intros HI HW Hl Hme Hp Hst HRn. unfold namex.
  eapply (wpx_call _ _ _ (fun i w' => exists it', fsys it' w' /\ walking pid sb V it' (i :: hs) None /\ entry_for it' i n)).
  - unfold starts_at in Hst. destruct (bool_decide (head path = Some 47)).
    + subst n. pose proof (wk_table _ _ _ _ _ _ HW) as HT. pose proof HT as (HT0 & HC & _).
      eapply wpx_mono; [eapply iget_spec; [exact HI|done|intros; eapply refs_small; [done|lia|done]|eapply free_entry; [done|done|lia]]|]. cbn beta.
      intros i w1 [HI1 Hc]. destruct (walk_got it hs None ROOTINO i HW ltac:(lia) Hc). eauto.
    + destruct Hst as (c & Hc & Hin & He).
      wcall fsys_cur_proc; [exact Hme|exact Hp|exact HI|]. intros ? w1 [-> HI1].
      wcall fsys_get_proc; [exact Hme|exact Hp|exact HI1|]. intros ? w2 [-> HI2]. rewrite Hc.
      eapply wpx_mono; [eapply walk_idup; [exact HI2|exact HW|lia|exact Hin|exact He]|]. cbn beta. intros r w3 (it3 & -> & ?). eauto.
  - intros i w1 (it1 & HI1 & HW1 & He1). apply namex_loop_spec with it1; [done..|lia].
Qed.

End walk.

(** ** Properties *)

(** skipelem() again and again, as namex() calls it. *)
Fixpoint skip_all (fuel : nat) (path : list Z) : option (list (list Z)) :=
  match skipelem path with
  | None => Some []
  | Some (name, rest) => match fuel with O => None | S fuel => (fun l => name :: l) <$> skip_all fuel rest end
  end.

(** C39: skipelem(), called until it returns 0, ends after at most as many
    calls as the path has characters and gives the components of the path:
    what is between slashes and is not empty, cut to DIRSIZ characters. *)
Theorem skipelem_components path : skip_all (length path) path = Some (map (take 14) (components [] path)).
Proof.
  fold (path_names path). assert (H : forall fuel p, (length p <= fuel)%nat -> skip_all fuel p = Some (path_names p)); [|by apply H].
  induction fuel as [|fuel IH]; intros p Hp; cbn [skip_all]; pose proof (skipelem_names p) as Hs;
    destruct (skipelem p) as [[e r]|]; [lia|by rewrite Hs| |by rewrite Hs].
  destruct Hs as (-> & Hl & _). by rewrite IH by lia.
Qed.

(** C2: path names are followed as the disk has them.  namex() starts at the
    root or at the current directory and returns the entry of the inode that
    the path denotes there, or of the directory of its last name for
    nameiparent(), with that name; it returns 0 when a name is missing or what
    should be a directory is none.  The only pointer that is added is the one
    returned, no inode stays locked, and the disk is unchanged. *)
Theorem namex_correct {I : Image} pid h0 env s L P sb start d out it hs tr bl V w R parent path n me p :
  tree_ok sb V R -> fsys pid h0 env s L P sb start d out it tr bl V nolocks w ->
  walking pid sb V it hs None -> (length bl < NBUF)%nat -> (length hs + 2 < NINODE)%nat ->
  h0.(h_proc) = Some me -> P !! me = Some p -> starts_at p it hs path n -> R n ->
  exists r w' it', namex path parent w = Ret r w' /\ fsys pid h0 env s L P sb start d out it' tr bl V nolocks w' /\
    match walk_to sb V parent n (path_names path) with
    | Some m => exists j, r = (Some j, default [] (last (path_names path))) /\ entry_for it' j m /\ walking pid sb V it' (j :: hs) None
    | None => r.1 = None /\ walking pid sb V it' hs None
    end.
Proof.
  intros HR HI HW Hb Hl Hme Hp Hst HRn.
  destruct (wp_run _ _ _ (namex_spec pid h0 env s (fun _ => False) L P sb start d out V R HR bl Hb tr parent it hs path n w me p
    HI HW Hl Hme Hp Hst HRn)) as (r & w' & Hrun & it' & HQ). by exists r, w', it'.
Qed.

Section demo.
Context (V : Z -> list Z) (HV : forall b, b <> 2 -> V b = disk_at demo_disk b).

Lemma demo_dnode n : n = 1 \/ n = 3 -> dnode demo_sb V n = if n =? 1 then demo_dir else demo_inode.
Proof using HV.
  intros Hn. unfold dnode, loaded. change (i_valid _ =? 0) with true. cbv iota. change (i_inum _) with n.
  assert (E : IBLOCK n demo_sb = 33) by (by destruct Hn as [-> | ->]). rewrite E, HV by done.
  destruct Hn as [-> | ->]; vm_compute; reflexivity.
Qed.

Lemma demo_tree : tree_ok demo_sb V (fun n => n = 1 \/ n = 3).
Proof using HV.
  split; intros n.
  - intros Hn. rewrite demo_dnode by done. by destruct Hn as [-> | ->].
  - intros Hn. rewrite demo_dnode by done. by destruct Hn as [-> | ->].
  - intros Hn. rewrite demo_dnode by done. destruct Hn as [-> | ->]; [|done]. intros _. by apply demo_dir_ok.
  - intros k Hn. rewrite demo_dnode by done. destruct Hn as [-> | ->]; [|done]. change (1 =? 1) with true. cbv iota.
    intros _ Hk. change (dir_len demo_dir) with 2%nat in Hk. rewrite (demo_dirent V HV) by done.
    destruct k as [|[|]]; [by right|by intros []|lia].
Qed.

Lemma demo_walking : walking 0 demo_sb V demo_itable [0; 1]%nat None.
Proof using HV.
  split; [apply demo_table_inv|..].
  - intros i x Hx. apply demo_table in Hx as [-> | [-> | ->]]; [..|done]; intros _ _ _; rewrite demo_dnode by auto; by split_and!.
  - intros i x Hx. rewrite decide_False by done. by apply demo_table in Hx as [-> | [-> | ->]].
Qed.

Lemma demo_walk : walk_to demo_sb V false 1 [[97]] = Some 3.
Proof using HV.
  cbn [walk_to andb]. rewrite demo_dnode by auto. cbn [Z.eqb Pos.eqb].
  change (negb (i_type demo_dir =? T_DIR)) with false. cbv iota.
  rewrite (entry_of_first _ _ _ 0); [by rewrite (demo_dirent V HV) by lia|by apply Nat.ltb_lt| |lia].
  unfold names. rewrite (demo_dirent V HV) by lia. by split.
Qed.

End demo.

#[local] Existing Instance small_image.

(** The path /a leads to inode 3. *)
Lemma namex_correct_witness : exists w j w', namex [47; 97] false w = Ret (Some j, [97]) w' /\
  entry_for (itable (w_st w')) j 3.
Proof.
  destruct (demo_fsys_of demo_itable zero_kstate (replicate NPROC zero_proc) zero_proc 0) as (L & P & tr & d & V & w & HI & HP & HV);
    [apply length_replicate|done|].
  destruct (namex_correct 0 _ _ _ _ _ _ _ _ _ _ _ _ _ _ w _ false [47; 97] 1 0%nat zero_proc (demo_tree V HV) HI (demo_walking V HV)
    ltac:(apply Nat.ltb_lt; reflexivity) ltac:(apply Nat.ltb_lt; reflexivity) eq_refl HP eq_refl (or_introl eq_refl))
    as (r & w' & it' & Hr & HI' & HQ).
  change (path_names [47; 97]) with [[97]] in HQ. rewrite (demo_walk V HV) in HQ. destruct HQ as (j & -> & He & _).
  exists w, j, w'. split; [exact Hr|]. by rewrite (fsys_table HI').
Defined.
