(* ===== verification/Mkfs.v ===== *)
(** * Building a file system image: mkfs/mkfs.c

    The program runs on the development machine.  Its state is the image
    file, as a list of blocks, and the two counters; [die] and a failed
    [assert] end it, which is a panic of the monad.  The files to install are
    its input: the name on the command line and, if it can be opened, the
    pieces that [read] delivers, one after the other.  Values of the image
    are little-endian, whatever the host: [xint] and [xshort] arrange that,
    and on the little-endian host that is modelled they change nothing. *)

From S2P Require Import Prelude Riscv Machine Bytes Bio Fs.

Definition NINODES : Z := 200.
Definition nbitmap : Z := FSSIZE / BPB + 1.
Definition ninodeblocks : Z := NINODES / IPB + 1.
Definition nlog : Z := LOGBLOCKS + 1.
Definition nmeta : Z := 2 + nlog + ninodeblocks + nbitmap.
Definition nblocks : Z := FSSIZE - nmeta.

(** The value whose bytes in memory are those of [x], lowest first. *)
Definition xshort (x : Z) : Z := le_val (le_bytes 2 x).
Definition xint (x : Z) : Z := le_val (le_bytes 4 x).

(** The assignments to [sb]. *)
Definition mkfs_sb : superblock :=
  Superblock FSMAGIC (xint FSSIZE) (xint nblocks) (xint NINODES) (xint nlog) (xint 2)
    (xint (2 + nlog)) (xint (2 + nlog + ninodeblocks)).

Definition zeroes : list Z := replicate (Z.to_nat BSIZE) 0.

Record mkfs := MkFs {
  fsimg : list (list Z);
  freeinode : Z;
  freeblock : Z;
}.

(** [struct dinode] *)
Record dinode := Dinode {
  d_type : Z;
  d_major : Z;
  d_minor : Z;
  d_nlink : Z;
  d_size : Z;
  d_addrs : list Z;
}.

Definition get_dinode (o : nat) (d : list Z) : dinode :=
  Dinode (di_type o d) (di_major o d) (di_minor o d) (di_nlink o d) (di_size o d) (di_addrs o d).

Definition set_dinode (o : nat) (din : dinode) (d : list Z) : list Z :=
  put_addrs o din.(d_addrs)
    (put32 (o + 8) din.(d_size)
      (put16 (o + 6) din.(d_nlink)
        (put16 (o + 4) din.(d_minor)
          (put16 (o + 2) din.(d_major) (put16 o din.(d_type) d))))).

Definition set_d_size (v : Z) (d : dinode) : dinode :=
  Dinode d.(d_type) d.(d_major) d.(d_minor) d.(d_nlink) v d.(d_addrs).
Definition set_d_addr (i : nat) (v : Z) (d : dinode) : dinode :=
  Dinode d.(d_type) d.(d_major) d.(d_minor) d.(d_nlink) d.(d_size) (<[i := v]> d.(d_addrs)).

Abbreviation H := (M mkfs).

Definition die {A} (s : string) : H A := panic s.
Definition assert (b : bool) : H unit := if b then mret tt else panic "assert".

(** The block at the offset that [lseek] is given, an unsigned 32-bit value. *)
Definition seek (sec : Z) : nat := Z.to_nat (u32 (sec * BSIZE) / BSIZE).

(** A write past the end leaves zeroes between. *)
Definition wsect (sec : Z) (buf : list Z) : H unit :=
  let k := seek sec in
  modify (fun s => MkFs (<[k := buf]> (s.(fsimg) ++ replicate (S k - length s.(fsimg)) zeroes)) s.(freeinode) s.(freeblock)).

Definition rsect (sec : Z) : H (list Z) :=
  img ← gets fsimg;
  match img !! seek sec with Some buf => mret buf | None => die "read" end.

Definition winode (inum : Z) (ip : dinode) : H unit :=
  let bn := IBLOCK inum mkfs_sb in
  buf ← rsect bn;
  wsect bn (set_dinode (dinode_off inum) ip buf).

Definition rinode (inum : Z) : H dinode :=
  let bn := IBLOCK inum mkfs_sb in
  buf ← rsect bn;
  mret (get_dinode (dinode_off inum) buf).

Definition ialloc (type : Z) : H Z :=
  inum ← gets freeinode;
  modify (fun s => MkFs s.(fsimg) (u32 (inum + 1)) s.(freeblock));;
  winode inum (Dinode (s16 (xshort type)) 0 0 (s16 (xshort 1)) (xint 0) (replicate 13 0));;
  mret inum.

(** The loop of [balloc]: blocks [0], ..., [used - 1] are in use. *)
Definition used_map (used : Z) : list Z :=
  foldl (fun buf i => put_byte (i / 8) (Z.lor (byte_at (i / 8) buf) (Z.shiftl 1 (Z.of_nat i mod 8))) buf)
    zeroes (seq 0 (Z.to_nat used)).

Definition balloc (used : Z) : H unit :=
  assert (used <? BPB);;
  wsect mkfs_sb.(sb_bmapstart) (used_map used).

(** [xint(freeblock++)] *)
Definition next_block : H Z :=
  b ← gets freeblock;
  modify (fun s => MkFs s.(fsimg) s.(freeinode) (u32 (b + 1)));;
  mret (xint b).

(** The block of the file's block [fbn], with blocks added as needed: the
    first half of the loop of [iappend]. *)
Definition file_block (din : dinode) (fbn : Z) : H (dinode * Z) :=
  if fbn <? NDIRECT then
    let i := Z.to_nat fbn in
    din ← (if xint (din.(d_addrs) !!! i) =? 0 then b ← next_block; mret (set_d_addr i b din) else mret din);
    mret (din, xint (din.(d_addrs) !!! i))
  else
    let i := Z.to_nat NDIRECT in
    din ← (if xint (din.(d_addrs) !!! i) =? 0 then b ← next_block; mret (set_d_addr i b din) else mret din);
    indirect ← rsect (xint (din.(d_addrs) !!! i));
    let o := (4 * Z.to_nat (fbn - NDIRECT))%nat in
    indirect ← (if get32 o indirect =? 0 then
                  b ← next_block;
                  wsect (xint (din.(d_addrs) !!! i)) (put32 o b indirect);;
                  mret (put32 o b indirect)
                else mret indirect);
    mret (din, xint (get32 o indirect)).

(** The loop: [p] are the bytes that are left, [off] is where they go. *)
Fixpoint iappend_loop (k : nat) (din : dinode) (off : Z) (p : list Z) : H (dinode * Z) :=
  match k with
  | O => no_fuel
  | S k =>
      if bool_decide (p = []) then mret (din, off)
      else
        let fbn := off / BSIZE in
        assert (fbn <? MAXFILE);;
        '(din, x) ← file_block din fbn;
        let n1 := Z.min (Z.of_nat (length p)) ((fbn + 1) * BSIZE - off) in
        buf ← rsect x;
        wsect x (splice (Z.to_nat (off - fbn * BSIZE)) (take (Z.to_nat n1) p) buf);;
        iappend_loop k din (u32 (off + n1)) (drop (Z.to_nat n1) p)
  end.

Definition iappend (inum : Z) (p : list Z) : H unit :=
  din ← rinode inum;
  '(din, off) ← iappend_loop (S (length p)) din (xint din.(d_size)) p;
  winode inum (set_d_size (xint off) din).

(** [struct dirent] after [bzero] and the assignments. *)
Definition mk_dirent (inum : Z) (name : list Z) : list Z :=
  le_bytes 2 (xshort inum) ++ take 14 (name ++ replicate 14 0).

(** One file of the command line. *)
Definition shortname (arg : list Z) : list Z :=
  if bool_decide (take 5 arg = chars "user/") then drop 5 arg else arg.

Definition strip (name : list Z) : list Z :=
  match name with c :: l => if c =? 95 then l else name | [] => name end.

Definition install (rootino : Z) (file : list Z * option (list (list Z))) : H unit :=
  let '(arg, contents) := file in
  let name := shortname arg in
  assert (negb (bool_decide (47 ∈ name)));;
  match contents with
  | None => die "open"
  | Some pieces =>
      let name := strip name in
      assert (Z.of_nat (length name) <=? DIRSIZ);;
      inum ← ialloc T_FILE;
      iappend rootino (mk_dirent inum name);;
      for_each pieces (iappend inum)
  end.

(** "fix size of root inode dir" *)
Definition fix_root (rootino : Z) : H unit :=
  din ← rinode rootino;
  let off := xint din.(d_size) in
  let off := u32 ((off / BSIZE + 1) * BSIZE) in
  winode rootino (set_d_size (xint off) din).

(** The superblock as bytes. *)
Definition sb_bytes (s : superblock) : list Z :=
  le_bytes 4 s.(sb_magic) ++ le_bytes 4 s.(sb_size) ++ le_bytes 4 s.(sb_nblocks) ++ le_bytes 4 s.(sb_ninodes) ++
  le_bytes 4 s.(sb_nlog) ++ le_bytes 4 s.(sb_logstart) ++ le_bytes 4 s.(sb_inodestart) ++ le_bytes 4 s.(sb_bmapstart).

Definition main (files : list (list Z * option (list (list Z)))) : H unit :=
  modify (fun s => MkFs s.(fsimg) s.(freeinode) nmeta);;
  for_each (seq 0 (Z.to_nat FSSIZE)) (fun i => wsect (Z.of_nat i) zeroes);;
  wsect 1 (splice 0 (sb_bytes mkfs_sb) zeroes);;
  rootino ← ialloc T_DIR;
  assert (rootino =? ROOTINO);;
  iappend rootino (mk_dirent rootino (chars "."));;
  iappend rootino (mk_dirent rootino (chars ".."));;
  for_each files (install rootino);;
  fix_root rootino;;
  fb ← gets freeblock;
  balloc (s32 fb).

(** The image file is empty at first. *)
Definition mkfs_start : mkfs := MkFs [] 1 0.
