(* ===== verification/MkfsFiles.v ===== *)
(** * The files of an image under construction

    What mkfs keeps true of the data blocks: every file has the blocks for
    its bytes and no others, no block belongs to two files, and the blocks
    that have not been handed out are zero.  Blocks, files and inodes are
    described as for the kernel (FsAlloc, FsFile, FsIo). *)

From stdpp Require Import functions.
From S2P Require Import Prelude Riscv Machine Bytes Bio Bcache Fs FsAlloc FsInode FsFile FsIo.

(** A file: its inode, the number of its blocks, and its bytes. *)
Record mfile := MFile { mf_node : inode; mf_nb : Z; mf_data : list Z }.

Definition data_len (data : list Z) : Z := Z.of_nat (length data).

(** The blocks for [n] blocks of data, with the indirect block. *)
Definition cost (nb : Z) : Z := if 12 <? nb then nb + 1 else nb.

Definition mf_owns (V : Z -> list Z) (f : mfile) (b : Z) : Prop :=
  owns (ind_block f.(mf_node)) (fblock V f.(mf_node)) b.

Section files.
(** The first data block, and the end of the disk. *)
Context (lo size : Z) (Hlo : 0 < lo) (Hsize : size < 2 ^ 32).

Record fpart (V : Z -> list Z) (fb : Z) (f : mfile) : Prop := {
  fp_addrs : length f.(mf_node).(i_addrs) = 13%nat;
  fp_nb : 0 <= f.(mf_nb) <= MAXFILE;
  fp_len : data_len f.(mf_data) <= f.(mf_nb) * BSIZE;
  fp_blk k : in_file k -> k < f.(mf_nb) -> lo <= fblock V f.(mf_node) k < fb;
  fp_none k : in_file k -> f.(mf_nb) <= k -> fblock V f.(mf_node) k = 0;
  fp_ind : 12 < f.(mf_nb) -> lo <= ind_block f.(mf_node) < fb;
  fp_noind : f.(mf_nb) <= 12 -> ind_block f.(mf_node) = 0;
  fp_inj k k' : in_file k -> in_file k' -> fblock V f.(mf_node) k <> 0 ->
    fblock V f.(mf_node) k = fblock V f.(mf_node) k' -> k = k';
  fp_apart k : in_file k -> fblock V f.(mf_node) k <> 0 -> fblock V f.(mf_node) k <> ind_block f.(mf_node);
  fp_byte p : in_range p -> fbyte V f.(mf_node) p = byte_at (Z.to_nat p) f.(mf_data);
}.

Definition total_cost (l : list mfile) : Z := foldr (fun f n => cost f.(mf_nb) + n) 0 l.

Record files_ok (V : Z -> list Z) (fb : Z) (l : list mfile) : Prop := {
  fo_part : Forall (fpart V fb) l;
  fo_disjoint i j f g b : i <> j -> l !! i = Some f -> l !! j = Some g -> mf_owns V f b -> ~ mf_owns V g b;
  fo_fresh b : fb <= b < size -> V b = zeros;
  fo_blocks b : length (V b) = bsize;
  fo_cost : fb = lo + total_cost l;
}.

Lemma total_cost_insert l i f f' :
  l !! i = Some f -> total_cost (<[i := f']> l) = total_cost l + cost f'.(mf_nb) - cost f.(mf_nb).
Proof.
  unfold total_cost. revert i; induction l as [|g l IH]; intros [|i] Hi; try done.
  - injection Hi as ->. change (<[0%nat := f']> (f :: l)) with (f' :: l). cbn [foldr]. lia.
  - change (<[S i := f']> (g :: l)) with (g :: <[i := f']> l). cbn [foldr]. specialize (IH i Hi). lia.
Qed.

Lemma fpart_owns V fb f b : fpart V fb f -> mf_owns V f b -> lo <= b < fb.
Proof.
  intros Hf [Hb [->|(k & Hk & <-)]].
  - destruct (decide (12 < f.(mf_nb))); [by apply Hf|]. rewrite (fp_noind _ _ _ Hf) in Hb; [done|lia].
  - destruct (decide (k < f.(mf_nb))); [by apply Hf|]. rewrite (fp_none _ _ _ Hf) in Hb; [done..|lia].
Qed.

(** A file does not notice changes of blocks that are not its own. *)
Lemma fpart_frame V V' fb fb' f :
  fpart V fb f -> fb <= fb' -> (forall b, mf_owns V f b -> V' b = V b) ->
  fpart V' fb' f /\ forall k, fblock V' f.(mf_node) k = fblock V f.(mf_node) k.
Proof.
  intros Hf Hfb HV.
  assert (E : forall k, fblock V' f.(mf_node) k = fblock V f.(mf_node) k).
  { intros k. unfold fblock. destruct (k <? NDIRECT); [done|].
    destruct (Z.eqb_spec (ind_block f.(mf_node)) 0) as [|Hi]; [done|]. rewrite HV; [done|]. split; [done|by left]. }
  split; [|done]. destruct Hf as [H1 H2 H3 H4 H5 H6 H7 H8 H9 H10]. split; try done.
  - intros k Hk Hn. rewrite E. specialize (H4 k Hk Hn). lia.
  - intros k Hk Hn. rewrite E. by apply H5.
  - intros Hn. specialize (H6 Hn). lia.
  - intros k k' Hk Hk'. rewrite !E. by apply H8.
  - intros k Hk. rewrite E. by apply H9.
  - intros p Hp. rewrite <-(H10 p Hp). unfold fbyte, content. rewrite E.
    destruct (Z.eqb_spec (fblock V f.(mf_node) (p / BSIZE)) 0) as [|Hz]; [done|]. rewrite HV; [done|].
    split; [done|]. right. exists (p / BSIZE). split; [by apply in_range_file|done].
Qed.

(** A change of file [i]: blocks that were its own or fresh change. *)
Lemma files_ok_update V V' fb fb' l i f f' :
  files_ok V fb l -> l !! i = Some f -> fpart V' fb' f' -> fb <= fb' ->
  fb' = fb + cost f'.(mf_nb) - cost f.(mf_nb) ->
  (forall b, mf_owns V' f' b -> mf_owns V f b \/ fb <= b) ->
  (forall b, ~ mf_owns V' f' b -> V' b = V b) -> (forall b, length (V' b) = bsize) ->
  files_ok V' fb' (<[i := f']> l).
Proof.
  intros [Hp Hd Hf Hl Hc] Hi Hf' Hfb Hfb' Hown HV HV'.
  assert (i < length l)%nat as Hlt by (by eapply lookup_lt_Some).
  rewrite Forall_lookup in Hp.
  assert (Hother : forall j g b, i <> j -> l !! j = Some g -> mf_owns V g b -> ~ mf_owns V' f' b).
  { intros j g b Hij Hj Hgb Hfb1. destruct (Hown b Hfb1) as [H1|H1]; [by eapply Hd|].
    pose proof (fpart_owns _ _ _ _ (Hp j g Hj) Hgb). lia. }
  assert (Hfr : forall j g, i <> j -> l !! j = Some g ->
    fpart V' fb' g /\ forall k, fblock V' g.(mf_node) k = fblock V g.(mf_node) k).
  { intros j g Hij Hj. apply (fpart_frame V V' fb fb' g); [by eapply Hp|done|].
    intros b Hb. apply HV. by eapply Hother. }
  assert (Heq : forall j g b, i <> j -> l !! j = Some g -> mf_owns V' g b -> mf_owns V g b).
  { intros j g b Hij Hj [Hb [->|(k & Hk & <-)]]; (split; [done|]); [by left|right].
    destruct (Hfr j g Hij Hj) as [_ E]. exists k. by rewrite E. }
  split.
  - apply Forall_lookup. intros j g Hj. destruct (decide (i = j)) as [->|Hij].
    + rewrite list_lookup_insert_eq in Hj by done. by simplify_eq.
    + rewrite list_lookup_insert_ne in Hj by done. by apply (Hfr j g).
  - intros j1 j2 g1 g2 b Hne H1 H2. destruct (decide (i = j1)) as [<-|H1'], (decide (i = j2)) as [<-|H2']; [done| | |];
      repeat match goal with
      | H : <[_ := _]> _ !! _ = Some _ |- _ =>
          (rewrite list_lookup_insert_eq in H by done) || (rewrite list_lookup_insert_ne in H by done)
      end; simplify_eq.
    + intros Hb1 Hb2. apply (Hother j2 g2 b); try done. by apply (Heq j2).
    + intros Hb1 Hb2. apply (Hother j1 g1 b); try done. by apply (Heq j1).
    + intros Hb1 Hb2. apply (Hd j1 j2 g1 g2 b); try done; [by apply (Heq j1)|by apply (Heq j2)].
  - intros b Hb. rewrite HV; [apply Hf; lia|]. intros Hn. pose proof (fpart_owns _ _ _ _ Hf' Hn). lia.
  - done.
  - rewrite (total_cost_insert _ _ f f' Hi). lia.
Qed.

(** ** Adding a block *)

(** The inode of [f] is [x], with one more block. *)
Definition with_block (f : mfile) (x : inode) : mfile := MFile x (f.(mf_nb) + 1) f.(mf_data).

Lemma new_content V V' x x' p n :
  (forall k, in_file k -> fblock V' x' k = if decide (k = n) then fblock V' x' n else fblock V x k) ->
  fblock V x n = 0 -> V' (fblock V' x' n) = zeros ->
  (forall k, in_file k -> fblock V x k <> 0 -> V' (fblock V x k) = V (fblock V x k)) ->
  in_range p -> fbyte V' x' p = fbyte V x p.
Proof.
  intros E H0 Hz HV Hp%in_range_file. unfold fbyte, content. rewrite (E _ Hp). case_decide as Hn.
  - rewrite Hn, H0, Hz. cbn. by destruct (_ =? 0).
  - destruct (Z.eqb_spec (fblock V x (p / BSIZE)) 0) as [|Hnz]; [done|]. by rewrite HV.
Qed.

(** What [fpart] needs of a file with a new block [b] at the end. *)
Lemma fpart_add V V' fb fb' f x b :
  fpart V fb f -> length x.(i_addrs) = 13%nat -> f.(mf_nb) < MAXFILE -> fb <= b < fb' -> lo <= fb ->
  (forall k, in_file k -> fblock V' x k = if decide (k = f.(mf_nb)) then b else fblock V f.(mf_node) k) ->
  (if 12 <=? f.(mf_nb) then lo <= ind_block x < fb' /\ ind_block x <> b /\
     (forall k, in_file k -> fblock V f.(mf_node) k <> ind_block x)
   else ind_block x = 0) ->
  V' b = zeros -> (forall k, in_file k -> fblock V f.(mf_node) k <> 0 -> V' (fblock V f.(mf_node) k) = V (fblock V f.(mf_node) k)) ->
  fpart V' fb' (with_block f x).
Proof.
  intros Hf Hx Hnb Hb Hfb E Hi Hz HV. pose proof Hf as [H1 H2 H3 H4 H5 H6 H7 H8 H9 H10].
  assert (forall k, in_file k -> fblock V f.(mf_node) k <> b) as Hnew.
  { intros k Hk Eb. destruct (decide (k < f.(mf_nb))) as [Hlt|Hge]; [specialize (H4 k Hk Hlt); lia|].
    rewrite H5 in Eb by (done || lia). lia. }
  split; cbn [with_block mf_node mf_nb mf_data]; try done.
  - lia.
  - unfold BSIZE in *. lia.
  - intros k Hk Hn. rewrite E by done. case_decide; [lia|]. specialize (H4 k Hk ltac:(lia)). lia.
  - intros k Hk Hn. rewrite E by done. rewrite decide_False by lia. apply H5; [done|lia].
  - intros Hn. rewrite (proj2 (Z.leb_le _ _)) in Hi by lia. apply Hi.
  - intros Hn. rewrite (proj2 (Z.leb_gt _ _)) in Hi by lia. done.
  - intros k k' Hk Hk'. rewrite !E by done. repeat case_decide; subst; try done.
    + intros _ Eb. by destruct (Hnew k' Hk').
    + intros _ Eb. by destruct (Hnew k Hk).
    + by apply H8.
  - intros k Hk. rewrite E by done. destruct (Z.leb_spec 12 f.(mf_nb)); [|rewrite Hi; by case_decide].
    destruct Hi as (_ & Hi1 & Hi2). case_decide; [by intros _ ?|]. intros _. by apply Hi2.
  - intros p Hp. rewrite <-H10 by done. assert (in_file f.(mf_nb)) as Hin by (unfold in_file; lia).
    apply (new_content V V' f.(mf_node) x p f.(mf_nb)); try done.
    + intros k Hk. rewrite !E by done. rewrite (decide_True (P := f.(mf_nb) = f.(mf_nb))) by done. done.
    + apply H5; [done|lia].
    + by rewrite E, decide_True.
Qed.

Lemma files_fb V fb l : files_ok V fb l -> lo <= fb.
Proof.
  intros [Hp _ _ _ E]. assert (0 <= total_cost l); [|lia]. unfold total_cost. clear -Hp.
  induction Hp as [|f l Hf Hl IH]; cbn; [done|]. pose proof (fp_nb _ _ _ Hf) as Hn.
  assert (0 <= cost f.(mf_nb)); [|lia]. unfold cost. destruct (12 <? f.(mf_nb)); lia.
Qed.

Lemma cost_succ n : cost (n + 1) - cost n = if n =? 12 then 2 else 1.
Proof. unfold cost. destruct (Z.ltb_spec 12 (n + 1)), (Z.ltb_spec 12 n), (Z.eqb_spec n 12); lia. Qed.

(** A direct block. *)
Lemma add_direct V fb l i f :
  files_ok V fb l -> l !! i = Some f -> f.(mf_nb) < 12 -> fb < size ->
  files_ok V (fb + 1) (<[i := with_block f (set_addr (Z.to_nat f.(mf_nb)) fb f.(mf_node))]> l).
Proof using Hlo Hsize.
  intros Hl Hi Hn Hfb. pose proof (files_fb _ _ _ Hl) as Hlo'.
  assert (fpart V fb f) as Hf by (eapply Forall_lookup_1; [apply Hl|done]). pose proof (fp_nb _ _ _ Hf) as Hnb.
  pose proof (fp_addrs _ _ _ Hf) as Hx. destruct file_size_bounds as (N1 & N2 & N3).
  assert (forall k, in_file k -> fblock V (set_addr (Z.to_nat f.(mf_nb)) fb f.(mf_node)) k =
    if decide (k = f.(mf_nb)) then fb else fblock V f.(mf_node) k) as E.
  { intros k [Hk _]. apply fblock_direct; [done|lia|done]. }
  assert (ind_block (set_addr (Z.to_nat f.(mf_nb)) fb f.(mf_node)) = 0) as Ei.
  { rewrite ind_direct by (done || lia). apply (fp_noind _ _ _ Hf). lia. }
  eapply files_ok_update; [done|done| | | | | |apply Hl].
  - eapply fpart_add; [done| |lia| | |exact E| | |]; try lia.
    + unfold set_addr. cbn. by rewrite length_insert.
    + by rewrite (proj2 (Z.leb_gt _ _)) by lia.
    + apply (fo_fresh _ _ _ Hl). lia.
    + done.
  - lia.
  - cbn [with_block mf_nb]. pose proof (cost_succ f.(mf_nb)) as Hc. rewrite (proj2 (Z.eqb_neq _ _)) in Hc by lia. lia.
  - intros b [Hb [->|(k & Hk & <-)]]; cbn [with_block mf_node] in *; [done|]. rewrite (E k Hk) in *. case_decide; [right; lia|].
    left. split; [done|]. right. by exists k.
  - done.
Qed.

(** A block with an entry in the indirect block. *)
Lemma add_entry V fb l i f :
  files_ok V fb l -> l !! i = Some f -> 12 < f.(mf_nb) < MAXFILE -> fb < size ->
  let ind := ind_block f.(mf_node) in
  files_ok (<[ind := put32 (4 * Z.to_nat (f.(mf_nb) - NDIRECT)) fb (V ind)]> V) (fb + 1)
    (<[i := with_block f f.(mf_node)]> l).
Proof using Hlo Hsize.
  intros Hl Hi Hn Hfb ind. pose proof (files_fb _ _ _ Hl) as Hlo'.
  assert (fpart V fb f) as Hf by (eapply Forall_lookup_1; [apply Hl|done]). pose proof (fp_nb _ _ _ Hf) as Hnb.
  pose proof (fp_ind _ _ _ Hf ltac:(lia)) as Hind. destruct file_size_bounds as (N1 & N2 & N3).
  set (V' := <[ind := _]> V).
  assert (forall k, in_file k -> fblock V' f.(mf_node) k = if decide (k = f.(mf_nb)) then fb else fblock V f.(mf_node) k) as E.
  { intros k Hk. unfold V', ind. rewrite fblock_entry; [|apply Hl|lia|lia|done|lia]. by replace (NDIRECT + (f.(mf_nb) - NDIRECT)) with f.(mf_nb) by lia. }
  assert (forall b, b <> ind -> V' b = V b) as HV by (intros b Hb; unfold V'; by rewrite fn_lookup_insert_ne).
  eapply files_ok_update; [done|done| | | | | |].
  - eapply fpart_add; [done|apply Hf|lia| | |exact E| | |]; try lia.
    + rewrite (proj2 (Z.leb_le _ _)) by lia. split_and!; [lia|lia|lia|]. intros k Hk Eb.
      apply (fp_apart _ _ _ Hf k Hk); [lia|done].
    + rewrite HV by lia. apply (fo_fresh _ _ _ Hl). lia.
    + intros k Hk Hz. apply HV. by apply (fp_apart _ _ _ Hf).
  - lia.
  - cbn [with_block mf_nb]. pose proof (cost_succ f.(mf_nb)) as Hc. rewrite (proj2 (Z.eqb_neq _ _)) in Hc by lia. lia.
  - intros b [Hb [->|(k & Hk & <-)]]; cbn [with_block mf_node] in *; [left; split; [done|by left]|].
    rewrite (E k Hk) in *. case_decide; [right; lia|]. left. split; [done|]. right. by exists k.
  - intros b Hb. apply HV. intros ->. apply Hb. split; [unfold ind; lia|by left].
  - intros b. unfold V'. destruct (decide (b = ind)) as [->|]; [|rewrite fn_lookup_insert_ne by done; apply Hl].
    rewrite fn_lookup_insert, length_put32; [apply Hl|]. rewrite (fo_blocks _ _ _ Hl). unfold bsize, BSIZE. lia.
Qed.

(** The first block that needs the indirect block, and that block. *)
Lemma add_indirect V fb l i f :
  files_ok V fb l -> l !! i = Some f -> f.(mf_nb) = 12 -> fb + 1 < size ->
  files_ok (<[fb := put32 0 (fb + 1) (V fb)]> V) (fb + 2)
    (<[i := with_block f (set_addr (Z.to_nat NDIRECT) fb f.(mf_node))]> l).
Proof using Hlo Hsize.
  intros Hl Hi Hn Hfb. pose proof (files_fb _ _ _ Hl) as Hlo'.
  assert (fpart V fb f) as Hf by (eapply Forall_lookup_1; [apply Hl|done]).
  pose proof (fp_addrs _ _ _ Hf) as Hx. pose proof (fp_noind _ _ _ Hf ltac:(lia)) as H0.
  destruct file_size_bounds as (N1 & N2 & N3). set (V' := <[fb := _]> V). set (x := set_addr _ fb _).
  assert (ind_block x = fb) as Ei by (by apply ind_indirect).
  assert (V fb = zeros) as Hz by (apply (fo_fresh _ _ _ Hl); lia).
  assert (forall k, in_file k -> fblock V' x k = if decide (k = f.(mf_nb)) then fb + 1 else fblock V f.(mf_node) k) as E.
  { intros k Hk. pose proof (fblock_entry V x 0 (fb + 1) k) as E1. rewrite Ei in E1.
    change (4 * Z.to_nat 0)%nat with 0%nat in E1. unfold V'. rewrite E1 by (apply Hl || done || lia). clear E1.
    rewrite Hn, N1. case_decide; [by rewrite decide_True by lia|]. rewrite decide_False by lia.
    apply fblock_indirect; [done|by destruct Hk|done|done]. }
  assert (forall b, b <> fb -> V' b = V b) as HV by (intros b Hb; unfold V'; by rewrite fn_lookup_insert_ne).
  assert (forall k, in_file k -> fblock V f.(mf_node) k <> fb) as Hne.
  { intros k Hk Eb. destruct (decide (k < f.(mf_nb))) as [Hlt|]; [pose proof (fp_blk _ _ _ Hf k Hk Hlt); lia|].
    rewrite (fp_none _ _ _ Hf) in Eb by (done || lia). lia. }
  eapply files_ok_update; [done|done| | | | | |].
  - eapply (fpart_add V V' fb); [done| |lia| | |exact E| | |]; try lia.
    + unfold x, set_addr. cbn. by rewrite length_insert.
    + rewrite (proj2 (Z.leb_le _ _)) by lia. rewrite Ei. split_and!; try lia. done.
    + rewrite HV by lia. apply (fo_fresh _ _ _ Hl). lia.
    + intros k Hk _. by apply HV, Hne.
  - lia.
  - cbn [with_block mf_nb]. pose proof (cost_succ f.(mf_nb)) as Hc. rewrite (proj2 (Z.eqb_eq _ _)) in Hc by done. lia.
  - intros b [Hb [->|(k & Hk & <-)]]; cbn [with_block mf_node] in *; [right; lia|].
    rewrite (E k Hk) in *. case_decide; [right; lia|]. left. split; [done|]. right. by exists k.
  - intros b Hb. apply HV. intros ->. apply Hb. split; [lia|left]. cbn. by rewrite Ei.
  - intros b. unfold V'. destruct (decide (b = fb)) as [->|]; [|rewrite fn_lookup_insert_ne by done; apply Hl].
    rewrite fn_lookup_insert, length_put32; [apply Hl|]. rewrite (fo_blocks _ _ _ Hl). unfold bsize, BSIZE. lia.
Qed.

(** ** Appending bytes *)

Lemma byte_at_app l l' p :
  byte_at p (l ++ l') = if decide (p < length l)%nat then byte_at p l else byte_at (p - length l) l'.
Proof.
  unfold byte_at. case_decide; [by rewrite lookup_app_l|]. rewrite lookup_app_r by lia. done.
Qed.

Lemma byte_at_ge l p : (length l <= p)%nat -> byte_at p l = 0.
Proof. intros Hp. unfold byte_at. by rewrite lookup_ge_None_2. Qed.

(** Bytes are put where the file ends, in a block that it has. *)
Lemma append_bytes V fb l i f chunk :
  files_ok V fb l -> l !! i = Some f ->
  let len := data_len f.(mf_data) in
  let a := fblock V f.(mf_node) (len / BSIZE) in
  len / BSIZE < f.(mf_nb) -> len mod BSIZE + data_len chunk <= BSIZE ->
  files_ok (<[a := splice (Z.to_nat (len mod BSIZE)) chunk (V a)]> V) fb
    (<[i := MFile f.(mf_node) f.(mf_nb) (f.(mf_data) ++ chunk)]> l).
Proof using Hlo Hsize.
  intros Hl Hi len a Hn Hc. assert (fpart V fb f) as Hf by (eapply Forall_lookup_1; [apply Hl|done]).
  pose proof Hf as [H1 H2 H3 H4 H5 H6 H7 H8 H9 H10]. set (o := len mod BSIZE) in *. set (k := len / BSIZE) in *.
  destruct file_size_bounds as (N1 & N2 & N3). unfold data_len in *.
  assert (in_file k) as Hk by (split; [apply Z.div_pos; [unfold len; lia|done]|lia]).
  assert (lo <= a < fb) as Ha by (by apply H4). assert (0 <= o < BSIZE) as Ho by (apply Z.mod_pos_bound; done).
  set (V' := <[a := _]> V). assert (forall b, b <> a -> V' b = V b) as HV by (intros b Hb; unfold V'; by rewrite fn_lookup_insert_ne).
  assert (forall j, fblock V' f.(mf_node) j = fblock V f.(mf_node) j) as E.
  { intros j. unfold fblock. destruct (j <? NDIRECT); [done|]. destruct (Z.eqb_spec (ind_block f.(mf_node)) 0); [done|].
    rewrite HV; [done|]. intros Ea. apply (H9 k Hk); [unfold a in *; lia|done]. }
  assert (length (V a) = bsize) as Hlen by apply Hl.
  assert (Z.to_nat o + length chunk <= length (V a))%nat as Hfit by (rewrite Hlen; unfold bsize; lia).
  assert (len = k * BSIZE + o) as Elen by (unfold k, o, BSIZE; dlia).
  eapply files_ok_update; [done|done| | | | | |]; cbn [mf_nb mf_node mf_data].
  - split; cbn [mf_nb mf_node mf_data]; try done.
    + unfold data_len. rewrite length_app. unfold BSIZE in *. lia.
    + intros j Hj Hn'. rewrite E. by apply H4.
    + intros j Hj Hn'. rewrite E. by apply H5.
    + intros j j' Hj Hj'. rewrite !E. by apply H8.
    + intros j Hj. rewrite E. by apply H9.
    + intros p Hp. rewrite byte_at_app. pose proof (in_range_file p Hp) as Hpk. destruct Hp as [Hp0 Hp1].
      unfold fbyte, content. rewrite E. destruct (decide (p / BSIZE = k)) as [Ek|Ek].
      * rewrite Ek. fold a. rewrite (proj2 (Z.eqb_neq a 0)) by lia. unfold V'. rewrite fn_lookup_insert, byte_at_splice by done.
        pose proof (H10 p ltac:(by split)) as Hb. unfold fbyte, content in Hb. rewrite Ek in Hb. fold a in Hb.
        rewrite (proj2 (Z.eqb_neq a 0)) in Hb by lia.
        assert (p = k * BSIZE + p mod BSIZE) as Ep by (unfold BSIZE in *; dlia).
        pose proof (Z.mod_pos_bound p BSIZE ltac:(done)). unfold len in *.
        case_decide; case_decide; try lia; [f_equal; lia|].
        rewrite Hb, byte_at_ge, byte_at_ge by lia. done.
      * pose proof (H10 p ltac:(by split)) as Hb. unfold fbyte, content in Hb.
        assert (byte_at (Z.to_nat (p mod BSIZE)) (if fblock V f.(mf_node) (p / BSIZE) =? 0 then zeros
          else V' (fblock V f.(mf_node) (p / BSIZE))) = byte_at (Z.to_nat p) f.(mf_data)) as ->.
        { rewrite <-Hb. destruct (Z.eqb_spec (fblock V f.(mf_node) (p / BSIZE)) 0) as [|Hz]; [done|]. rewrite HV; [done|].
          intros Ea. apply Ek. by apply (H8 (p / BSIZE) k). }
        case_decide; [done|]. unfold len in *. rewrite !byte_at_ge; [done|unfold BSIZE in *; dlia|lia].
  - lia.
  - lia.
  - intros b [Hb [->|(j & Hj & <-)]]; left; (split; [done|]); [by left|right]. exists j. by rewrite E.
  - intros b Hb. apply HV. intros ->. apply Hb. split; [lia|right]. exists k. split; [done|]. cbn [mf_node]. by rewrite E.
  - intros b. unfold V'. destruct (decide (b = a)) as [->|]; [|rewrite fn_lookup_insert_ne by done; apply Hl].
    by rewrite fn_lookup_insert, length_splice.
Qed.

(** ** A new file *)

Lemma add_file V fb l x :
  files_ok V fb l -> x.(i_addrs) = replicate 13 0 -> files_ok V fb (l ++ [MFile x 0 []]).
Proof.
  intros [Hp Hd Hf Hl Hc] Hx.
  assert (E : forall k, in_file k -> fblock V x k = 0).
  { intros k [Hk0 Hk1]. destruct file_size_bounds as (N1 & N2 & N3). unfold fblock, ind_block. rewrite Hx.
    destruct (Z.ltb_spec k NDIRECT); [|done]. apply (lookup_total_replicate_2 13 0 (Z.to_nat k)). lia. }
  assert (Ei : ind_block x = 0) by (unfold ind_block; by rewrite Hx).
  assert (Hno : forall b, ~ mf_owns V (MFile x 0 []) b).
  { intros b [Hb [->|(k & Hk & <-)]]; apply Hb; cbn; [done|by apply E]. }
  split; try done.
  - apply Forall_app. split; [done|]. constructor; [|done]. destruct file_size_bounds as (N1 & N2 & N3).
    split; cbn [mf_node mf_nb mf_data]; try done; try lia.
    + by rewrite Hx.
    + intros k Hk ?. destruct Hk. lia.
    + intros k Hk _. by apply E.
    + intros k k' Hk Hk' Hz. by rewrite E in Hz.
    + intros p Hp0. unfold fbyte, content. rewrite E by (by apply in_range_file). cbn [Z.eqb].
      rewrite (byte_at_ge []) by (cbn; lia). unfold byte_at, zeros. destruct (decide (Z.to_nat (p mod BSIZE) < bsize)%nat).
      * by rewrite lookup_replicate_2.
      * rewrite lookup_ge_None_2 by (rewrite length_replicate; lia). done.
  - intros i j f g b Hij Hi Hj. rewrite lookup_app_Some in Hi, Hj.
    destruct Hi as [Hi|[_ Hi]], Hj as [Hj|[_ Hj]].
    + by eapply Hd.
    + apply list_lookup_singleton_Some in Hj as [_ <-]. intros _. apply Hno.
    + apply list_lookup_singleton_Some in Hi as [_ <-]. intros Hb. by destruct (Hno b).
    + apply list_lookup_singleton_Some in Hi as [_ <-]. intros Hb. by destruct (Hno b).
  - unfold total_cost in *. rewrite foldr_app. cbn. rewrite Hc. done.
Qed.
End files.
