(* ===== verification/MkfsSpec.v ===== *)
(** * The image that mkfs makes is what the kernel expects

    The operations of Mkfs on an image whose blocks are described as the
    kernel's proofs describe the disk: a function from block numbers to
    bytes.  The invariant is that of MkfsFiles for the data blocks, and that
    the inode blocks hold the inodes of the files. *)

From stdpp Require Import functions.
From S2P Require Import Prelude Riscv Machine Bytes Bio Bcache Fs FsAlloc FsInode FsTable FsFile FsIo FsDir FsPath Mkfs MkfsFiles.

(** ** Blocks *)

Definition view (img : list (list Z)) (b : Z) : list Z :=
  if b <? 0 then zeros else default zeros (img !! Z.to_nat b).

(** The image is complete and has the blocks [V]. *)
Record shows (s : mkfs) (V : Z -> list Z) (fi fb : Z) : Prop := {
  sh_length : length s.(fsimg) = Z.to_nat FSSIZE;
  sh_blocks b : view s.(fsimg) b = V b;
  sh_inode : s.(freeinode) = fi;
  sh_block : s.(freeblock) = fb;
}.

Lemma seek_small sec : 0 <= sec < 2 ^ 22 -> seek sec = Z.to_nat sec.
Proof. intros H. unfold seek, BSIZE. rewrite u32_small by lia. f_equal. dlia. Qed.

Lemma xint_small x : 0 <= x < 2 ^ 32 -> xint x = x.
Proof. intros H. unfold xint. rewrite le_val_bytes. by apply Z.mod_small. Qed.

Lemma xshort_small x : 0 <= x < 2 ^ 16 -> xshort x = x.
Proof. intros H. unfold xshort. rewrite le_val_bytes. by apply Z.mod_small. Qed.

Lemma s16_small x : 0 <= x < 2 ^ 15 -> s16 x = x.
Proof. unfold s16. intros H. change (2 ^ 15) with 32768 in *. change (2 ^ 16) with 65536. dlia. Qed.

Section ops.
Context (B : mkfs -> Prop).

Lemma rsect_spec s V fi fb sec :
  shows s V fi fb -> 0 <= sec < FSSIZE -> wpx B (rsect sec) (fun r s' => r = V sec /\ s' = s) s.
Proof.
  intros [Hl Hb _ _] Hs. unfold rsect. apply wpx_bind, wpx_gets. unfold FSSIZE in *. rewrite seek_small by lia.
  specialize (Hb sec). unfold view in Hb. rewrite (proj2 (Z.ltb_ge _ _)) in Hb by lia.
  destruct (lookup_lt_is_Some_2 s.(fsimg) (Z.to_nat sec)) as [buf E]; [lia|]. rewrite E in Hb |- *. by apply wpx_ret.
Qed.

Lemma wsect_spec s V fi fb sec buf :
  shows s V fi fb -> 0 <= sec < FSSIZE -> wpx B (wsect sec buf) (fun _ s' => shows s' (<[sec := buf]> V) fi fb) s.
Proof.
  intros [Hl Hb Hi Hf] Hs. unfold wsect. apply wpx_modify. unfold FSSIZE in *. rewrite seek_small by lia.
  replace (S (Z.to_nat sec) - length (fsimg s))%nat with 0%nat by lia. cbn [replicate]. rewrite app_nil_r.
  split; cbn [fsimg freeinode freeblock]; [by rewrite length_insert| |done|done].
  intros b. unfold view. destruct (decide (b = sec)) as [->|Hne].
  - rewrite fn_lookup_insert, (proj2 (Z.ltb_ge _ _)), list_lookup_insert_eq by lia. done.
  - rewrite fn_lookup_insert_ne by done. rewrite <-Hb. unfold view. destruct (Z.ltb_spec b 0); [done|].
    rewrite list_lookup_insert_ne by lia. done.
Qed.

Lemma next_block_spec s V fi fb :
  shows s V fi fb -> 0 <= fb < 2 ^ 32 - 1 ->
  wpx B next_block (fun r s' => r = fb /\ shows s' V fi (fb + 1)) s.
Proof.
  intros [Hl Hb Hi Hf] Hfb. unfold next_block. apply wpx_bind, wpx_gets, wpx_bind, wpx_modify, wpx_ret.
  rewrite Hf, xint_small, u32_small by lia. split; [done|]. by split.
Qed.
End ops.

(** ** Inodes *)

Record dinode_typed (d : dinode) : Prop := {
  dt_type : short d.(d_type);
  dt_major : short d.(d_major);
  dt_minor : short d.(d_minor);
  dt_nlink : short d.(d_nlink);
  dt_size : 0 <= d.(d_size) < 2 ^ 32;
  dt_addrs : length d.(d_addrs) = 13%nat;
  dt_addr a : a ∈ d.(d_addrs) -> 0 <= a < 2 ^ 32;
}.

(** The in-memory inode that the kernel makes of it. *)
Definition node (n : Z) (d : dinode) : inode :=
  set_i_valid 1 (set_i_addrs d.(d_addrs) (set_i_size d.(d_size) (set_i_nlink d.(d_nlink)
    (set_i_minor d.(d_minor) (set_i_major d.(d_major) (set_i_type d.(d_type) (fresh_entry ROOTDEV n zero_inode))))))).

Definition inode_in (V : Z -> list Z) (n : Z) : dinode :=
  get_dinode (dinode_off n) (V (IBLOCK n mkfs_sb)).

Lemma dnode_node V n : dnode mkfs_sb V n = node n (inode_in V n).
Proof. done. Qed.

Lemma set_dinode_put o d l n : set_dinode o d l = put_dinode o (node n d) l.
Proof. done. Qed.

Lemma get_set_dinode o d l : (o + 64 <= length l)%nat -> dinode_typed d -> get_dinode o (set_dinode o d l) = d.
Proof.
  intros Hl [H1 H2 H3 H4 H5 H6 H7].
  assert (inode_typed (node 0 d)) as Ht by (by split).
  pose proof (load_put_dinode o (node 0 d) l Hl zero_inode Ht) as E. rewrite <-set_dinode_put in E.
  generalize dependent (set_dinode o d l). intros l' E.
  pose proof (f_equal i_type E) as E1. pose proof (f_equal i_major E) as E2. pose proof (f_equal i_minor E) as E3.
  pose proof (f_equal i_nlink E) as E4. pose proof (f_equal i_size E) as E5. pose proof (f_equal i_addrs E) as E6.
  change (di_type o l' = d.(d_type)) in E1. change (di_major o l' = d.(d_major)) in E2.
  change (di_minor o l' = d.(d_minor)) in E3. change (di_nlink o l' = d.(d_nlink)) in E4.
  change (di_size o l' = d.(d_size)) in E5. change (di_addrs o l' = d.(d_addrs)) in E6.
  unfold get_dinode. rewrite E1, E2, E3, E4, E5, E6. by destruct d.
Qed.

Lemma get_dinode_ext o l l' :
  (forall k m, (o <= k /\ k + m <= o + 64)%nat -> slice k m l' = slice k m l) -> get_dinode o l' = get_dinode o l.
Proof.
  intros H. unfold get_dinode, di_type, di_major, di_minor, di_nlink, di_size, di_addrs, get16, get32.
  rewrite !H by lia. f_equal. apply map_ext_in. intros i [_ Hi]%in_seq. by rewrite H by lia.
Qed.

Lemma mkfs_layout : layout mkfs_sb 2.
Proof. by vm_compute. Qed.

(** The inode blocks are between the log and the free map. *)
Lemma iblock_val n : 0 <= n < NINODES -> IBLOCK n mkfs_sb = n / 16 + 33 /\ 33 <= n / 16 + 33 < 46.
Proof.
  unfold NINODES. intros Hn. assert (0 <= n / 16 < 13) by dlia.
  unfold IBLOCK. change (sb_inodestart mkfs_sb) with 33. change IPB with 16. rewrite u32_small; lia.
Qed.

(** Writing one inode leaves the others. *)
Lemma inode_in_write V n m d :
  (forall b, length (V b) = bsize) -> 0 <= n < NINODES -> 0 <= m < NINODES -> dinode_typed d ->
  let V' := <[IBLOCK n mkfs_sb := set_dinode (dinode_off n) d (V (IBLOCK n mkfs_sb))]> V in
  inode_in V' m = if decide (m = n) then d else inode_in V m.
Proof.
  intros Hl Hn Hm Hd V'. unfold inode_in, V'. case_decide as E.
  - subst m. rewrite fn_lookup_insert. apply get_set_dinode; [|done]. rewrite Hl. apply dinode_fits.
  - destruct (iblock_val n Hn) as [En _], (iblock_val m Hm) as [Em _].
    destruct (decide (IBLOCK m mkfs_sb = IBLOCK n mkfs_sb)) as [Eb|Eb]; [|by rewrite fn_lookup_insert_ne].
    rewrite Eb, fn_lookup_insert. apply get_dinode_ext. intros k j Hk. rewrite (set_dinode_put _ _ _ n).
    apply slice_put_dinode; [rewrite Hl; apply dinode_fits|]. unfold dinode_off in *. change IPB with 16 in *.
    assert (m mod 16 <> n mod 16) by dlia. pose proof (Z.mod_pos_bound m 16 ltac:(done)).
    pose proof (Z.mod_pos_bound n 16 ltac:(done)). lia.
Qed.

(** ** Blocks of a file *)

Definition nblk (data : list Z) : Z := (data_len data + (BSIZE - 1)) / BSIZE.

Abbreviation files_ok := (MkfsFiles.files_ok nmeta FSSIZE).
Abbreviation fpart := (MkfsFiles.fpart nmeta).

Lemma nmeta_val : nmeta = 47 /\ FSSIZE = 2000.
Proof. done. Qed.

(** The block where the next byte goes is the last one, or a new one. *)
Lemma nblk_last data : let k := data_len data / BSIZE in
  (data_len data mod BSIZE = 0 /\ nblk data = k) \/ (data_len data mod BSIZE <> 0 /\ nblk data = k + 1).
Proof.
  unfold nblk, data_len, BSIZE. cbv zeta. destruct (decide (Z.of_nat (length data) mod 1024 = 0)); [left|right]; split; dlia.
Qed.

Lemma files_fpart V fb l i f : files_ok V fb l -> l !! i = Some f -> fpart V fb f.
Proof. intros Hl Hi. eapply Forall_lookup_1; [apply Hl|done]. Qed.

Lemma dinode_typed_addr d k b : dinode_typed d -> 0 <= b < 2 ^ 32 -> dinode_typed (set_d_addr k b d).
Proof.
  intros [H1 H2 H3 H4 H5 H6 H7] Hb. split; cbn; try done; [by rewrite length_insert|].
  intros a Ha. apply list_elem_of_lookup in Ha as [j Hj]. destruct (decide (k = j)) as [->|Hne].
  - destruct (decide (j < length d.(d_addrs))%nat).
    + rewrite list_lookup_insert_eq in Hj by done. by simplify_eq.
    + rewrite list_insert_ge in Hj by lia. apply H7. by eapply list_elem_of_lookup_2.
  - rewrite list_lookup_insert_ne in Hj by done. apply H7. by eapply list_elem_of_lookup_2.
Qed.

(** What [file_block] gives: the block of the file's block [fbn], which is
    the last one. *)
Record has_block (V : Z -> list Z) (fb fi : Z) (l : list mfile) (i : nat) (n : Z) (din : dinode) (data : list Z)
    (r : dinode * Z) (s' : mkfs) (V' : Z -> list Z) (fb' : Z) : Prop := {
  hb_shows : shows s' V' fi fb';
  hb_files : files_ok V' fb' (<[i := MFile (node n r.1) (data_len data / BSIZE + 1) data]> l);
  hb_block : r.2 = fblock V' (node n r.1) (data_len data / BSIZE);
  hb_typed : dinode_typed r.1;
  hb_inode : r.1 = Dinode din.(d_type) din.(d_major) din.(d_minor) din.(d_nlink) din.(d_size) r.1.(d_addrs);
  hb_meta b : b < nmeta -> V' b = V b;
}.

Section blocks.
Context (B : mkfs -> Prop) (V : Z -> list Z) (fi fb : Z) (l : list mfile) (i : nat) (n : Z) (din : dinode) (data : list Z).
Context (Hl : files_ok V fb l) (Hi : l !! i = Some (MFile (node n din) (nblk data) data)) (Ht : dinode_typed din).

Let fbn := data_len data / BSIZE.
Let x := node n din.

Context (Hfbn : fbn < MAXFILE) (Hroom : fb + cost (fbn + 1) - cost (nblk data) <= FSSIZE).

Lemma fbn_file : in_file fbn.
Proof using Hfbn. split; [|done]. apply Z.div_pos; [unfold data_len; lia|done]. Qed.

(** A block that is there. *)
Lemma fblock_old : nblk data = fbn + 1 -> nmeta <= fblock V x fbn < fb.
Proof using All.
  intros En. apply (fp_blk _ _ _ _ (files_fpart _ _ _ _ _ Hl Hi)); [apply fbn_file|]. cbn. lia.
Qed.

Lemma fblock_new : nblk data = fbn -> fblock V x fbn = 0.
Proof using All.
  intros En. apply (fp_none _ _ _ _ (files_fpart _ _ _ _ _ Hl Hi)); [apply fbn_file|]. cbn. lia.
Qed.

Lemma fb_range : nmeta <= fb /\ (nblk data = fbn -> fb + (if fbn =? 12 then 2 else 1) <= FSSIZE) /\ fb <= FSSIZE.
Proof using All.
  pose proof (files_fb _ _ _ _ _ Hl) as Hlo. split_and!; [done| |].
  - intros En. pose proof (cost_succ fbn). rewrite En in Hroom. lia.
  - pose proof (cost_succ fbn). destruct (nblk_last data) as [[_ En]|[_ En]]; fold fbn in En; rewrite En in Hroom;
      [destruct (fbn =? 12); lia|lia].
Qed.

Lemma same_has_block s :
  shows s V fi fb -> nblk data = fbn + 1 -> has_block V fb fi l i n din data (din, fblock V x fbn) s V fb.
Proof using Hl Hi Ht.
  intros Hs En. split; try done; [|by destruct din]. cbn [fst]. fold fbn. rewrite <-En. by rewrite list_insert_id.
Qed.

Lemma file_block_direct s :
  shows s V fi fb -> fbn < NDIRECT ->
  wpx B (file_block din fbn) (fun r s' => exists V' fb', has_block V fb fi l i n din data r s' V' fb') s.
Proof using All.
  intros Hs Hn. unfold file_block. rewrite (proj2 (Z.ltb_lt _ _)) by done. pose proof fbn_file as [Hk _].
  assert (forall d, xint (d_addrs d !!! Z.to_nat fbn) = xint (fblock V (node n d) fbn)) as Ef.
  { intros d. unfold fblock. by rewrite (proj2 (Z.ltb_lt fbn NDIRECT)). }
  destruct fb_range as (Hlo & Hnew & Hhi). destruct nmeta_val as [N1 N2]. rewrite Ef. fold x.
  destruct (nblk_last data) as [[_ En]|[_ En]]; fold fbn in En.
  - rewrite (fblock_new En), xint_small by lia. cbn [Z.eqb]. specialize (Hnew En).
    assert (fb < FSSIZE) as Hfb by (destruct (fbn =? 12); lia).
    apply wpx_bind, wpx_bind. eapply wpx_mono; [apply (next_block_spec B s V fi fb Hs); lia|].
    intros r s1 [-> Hs1]. apply wpx_ret, wpx_ret. rewrite Ef.
    pose proof (add_direct nmeta FSSIZE ltac:(lia) ltac:(lia) V fb l i _ Hl Hi) as Ha. cbn [mf_nb mf_node] in Ha.
    rewrite En in Ha. specialize (Ha Hn Hfb).
    assert (fblock V (node n (set_d_addr (Z.to_nat fbn) fb din)) fbn = fb) as Eb.
    { change (node n (set_d_addr (Z.to_nat fbn) fb din)) with (set_addr (Z.to_nat fbn) fb x).
      rewrite fblock_direct, decide_True; try done; apply Ht. }
    exists V, (fb + 1). rewrite Eb, xint_small by lia. split; cbn [fst snd]; fold fbn; try done.
    apply dinode_typed_addr; [done|lia].
  - pose proof (fblock_old En) as Ho. rewrite xint_small by lia. rewrite (proj2 (Z.eqb_neq _ _)) by lia.
    apply wpx_bind, wpx_ret, wpx_ret. rewrite Ef. fold x. rewrite xint_small by lia.
    exists V, fb. by apply same_has_block.
Qed.

(** The entry of the indirect block. *)
Lemma fblock_ind W d :
  NDIRECT <= fbn -> ind_block (node n d) <> 0 ->
  get32 (4 * Z.to_nat (fbn - NDIRECT)) (W (ind_block (node n d))) = fblock W (node n d) fbn.
Proof.
  intros Hn Hi0. unfold fblock. rewrite (proj2 (Z.ltb_ge _ _)) by done. by rewrite (proj2 (Z.eqb_neq _ _)).
Qed.

Lemma file_block_old s :
  shows s V fi fb -> NDIRECT <= fbn -> nblk data = fbn + 1 ->
  wpx B (file_block din fbn) (fun r s' => exists V' fb', has_block V fb fi l i n din data r s' V' fb') s.
Proof using All.
  intros Hs Hn En. unfold file_block. rewrite (proj2 (Z.ltb_ge _ _)) by done. destruct nmeta_val as [N1 N2].
  assert (NDIRECT = 12) as N3 by done. destruct fb_range as (_ & _ & Hhi).
  pose proof (fblock_old En) as Ho. pose proof (fp_ind _ _ _ _ (files_fpart _ _ _ _ _ Hl Hi)) as Hind. cbn [mf_nb mf_node] in Hind.
  specialize (Hind ltac:(lia)). fold x in Hind. change (d_addrs din !!! Z.to_nat NDIRECT) with (ind_block x).
  rewrite xint_small by lia. rewrite (proj2 (Z.eqb_neq _ _)) by lia. apply wpx_bind, wpx_ret.
  change (d_addrs din !!! Z.to_nat NDIRECT) with (ind_block x). rewrite xint_small by lia.
  apply wpx_bind. eapply wpx_mono; [apply (rsect_spec B s V fi fb _ Hs); lia|]. intros r s1 [-> ->].
  cbv zeta. unfold x. rewrite fblock_ind by (done || (unfold x in Hind; lia)). fold x.
  rewrite (proj2 (Z.eqb_neq _ _)) by lia. apply wpx_bind, wpx_ret, wpx_ret. unfold x.
  rewrite fblock_ind by (done || (unfold x in Hind; lia)). fold x. rewrite xint_small by lia.
  exists V, fb. by apply same_has_block.
Qed.

Lemma file_block_entry s :
  shows s V fi fb -> NDIRECT < fbn -> nblk data = fbn ->
  wpx B (file_block din fbn) (fun r s' => exists V' fb', has_block V fb fi l i n din data r s' V' fb') s.
Proof using All.
  intros Hs Hn En. unfold file_block. rewrite (proj2 (Z.ltb_ge _ _)) by lia. destruct nmeta_val as [N1 N2].
  destruct file_size_bounds as (N3 & N4 & N5). destruct fb_range as (Hlo & Hnew & Hhi). specialize (Hnew En).
  rewrite (proj2 (Z.eqb_neq fbn 12)) in Hnew by lia. pose proof (files_fpart _ _ _ _ _ Hl Hi) as Hf.
  pose proof (fp_ind _ _ _ _ Hf) as Hind. cbn [mf_nb mf_node] in Hind.
  specialize (Hind ltac:(lia)). fold x in Hind. change (d_addrs din !!! Z.to_nat NDIRECT) with (ind_block x).
  rewrite xint_small by lia. rewrite (proj2 (Z.eqb_neq _ _)) by lia. apply wpx_bind, wpx_ret.
  change (d_addrs din !!! Z.to_nat NDIRECT) with (ind_block x). rewrite xint_small by lia.
  apply wpx_bind. eapply wpx_mono; [apply (rsect_spec B s V fi fb _ Hs); lia|]. intros r s1 [-> ->].
  cbv zeta. unfold x. rewrite fblock_ind by (done || lia || (unfold x in Hind; lia)). fold x. rewrite (fblock_new En). cbn [Z.eqb].
  apply wpx_bind, wpx_bind. eapply wpx_mono; [apply (next_block_spec B s V fi fb Hs); lia|]. intros r s1 [-> Hs1].
  apply wpx_bind. eapply wpx_mono; [apply (wsect_spec B s1 V fi (fb + 1) _ _ Hs1); lia|]. intros [] s2 Hs2.
  apply wpx_ret, wpx_ret. rewrite get32_put32, u32_small, xint_small;
    [|lia|lia|rewrite (fo_blocks _ _ _ _ _ Hl); unfold bsize, BSIZE, in_file in *; lia].
  pose proof (add_entry nmeta FSSIZE ltac:(lia) ltac:(lia) V fb l i _ Hl Hi) as Ha. cbn [mf_nb mf_node] in Ha.
  fold x in Ha. rewrite En in Ha. specialize (Ha ltac:(lia) ltac:(lia)). cbv zeta in Ha. eexists _, (fb + 1).
  split; cbn [fst snd]; fold fbn; fold x; [exact Hs2|exact Ha| |done|by destruct din|].
  - rewrite fblock_entry; [|apply Hl|lia|lia|apply fbn_file|lia]. by rewrite decide_True by lia.
  - intros b Hb. by rewrite fn_lookup_insert_ne by lia.
Qed.

Lemma file_block_first s :
  shows s V fi fb -> fbn = 12 -> nblk data = fbn ->
  wpx B (file_block din fbn) (fun r s' => exists V' fb', has_block V fb fi l i n din data r s' V' fb') s.
Proof using All.
  intros Hs Hn En. unfold file_block. destruct nmeta_val as [N1 N2].
  destruct file_size_bounds as (N3 & N4 & N5). rewrite (proj2 (Z.ltb_ge _ _)) by lia.
  destruct fb_range as (Hlo & Hnew & Hhi). specialize (Hnew En).
  rewrite (proj2 (Z.eqb_eq fbn 12)) in Hnew by lia. pose proof (files_fpart _ _ _ _ _ Hl Hi) as Hf.
  pose proof (fp_noind _ _ _ _ Hf ltac:(cbn; lia)) as Hind. cbn [mf_node] in Hind. fold x in Hind.
  change (d_addrs din !!! Z.to_nat NDIRECT) with (ind_block x). rewrite Hind, xint_small by lia. cbn [Z.eqb].
  apply wpx_bind, wpx_bind. eapply wpx_mono; [apply (next_block_spec B s V fi fb Hs); lia|]. intros r s1 [-> Hs1].
  apply wpx_ret. set (din1 := set_d_addr (Z.to_nat NDIRECT) fb din). set (y := node n din1).
  assert (ind_block y = fb) as Ey by (apply (ind_indirect x fb), Ht).
  change (d_addrs din1 !!! Z.to_nat NDIRECT) with (ind_block y). rewrite Ey, xint_small by lia.
  apply wpx_bind. eapply wpx_mono; [apply (rsect_spec B s1 V fi (fb + 1) _ Hs1); lia|]. intros r s2 [-> ->].
  rewrite (fo_fresh _ _ _ _ _ Hl fb) by lia. cbv zeta. rewrite get32_zeros. cbn [Z.eqb].
  apply wpx_bind, wpx_bind. eapply wpx_mono; [apply (next_block_spec B s1 V fi (fb + 1) Hs1); lia|]. intros r s2 [-> Hs2].
  apply wpx_bind. eapply wpx_mono; [apply (wsect_spec B s2 V fi _ _ _ Hs2); lia|]. intros [] s3 Hs3.
  apply wpx_ret, wpx_ret. replace (4 * Z.to_nat (fbn - NDIRECT))%nat with 0%nat in * by lia.
  rewrite get32_put32, u32_small, xint_small; [|lia|lia|unfold zeros; rewrite length_replicate; unfold bsize, BSIZE; lia].
  pose proof (add_indirect nmeta FSSIZE ltac:(lia) ltac:(lia) V fb l i _ Hl Hi) as Ha. cbn [mf_nb mf_node] in Ha.
  fold x in Ha. rewrite En in Ha. specialize (Ha ltac:(lia) ltac:(lia)). rewrite (fo_fresh _ _ _ _ _ Hl fb) in Ha by lia.
  replace (fb + 1 + 1) with (fb + 2) in * by lia. eexists _, (fb + 2).
  split; cbn [fst snd]; fold fbn; fold y; [exact Hs3|exact Ha| |apply dinode_typed_addr; [done|lia]|done|].
  - rewrite <-(fblock_ind _ din1) by (lia || (fold y; lia)). fold y. rewrite Ey, fn_lookup_insert.
    replace (4 * Z.to_nat (fbn - NDIRECT))%nat with 0%nat by lia.
    rewrite get32_put32, u32_small; [done|lia|unfold zeros; rewrite length_replicate; unfold bsize, BSIZE; lia].
  - intros b Hb. by rewrite fn_lookup_insert_ne by lia.
Qed.

Lemma file_block_spec s :
  shows s V fi fb ->
  wpx B (file_block din fbn) (fun r s' => exists V' fb', has_block V fb fi l i n din data r s' V' fb') s.
Proof using All.
  intros Hs. destruct (decide (fbn < NDIRECT)); [by apply file_block_direct|].
  destruct (nblk_last data) as [[_ En]|[_ En]]; fold fbn in En.
  - destruct (decide (fbn = 12)); [by apply file_block_first|]. apply file_block_entry; try done.
    unfold NDIRECT in *. lia.
  - apply file_block_old; try done. lia.
Qed.
End blocks.

(** ** Appending to a file *)

Lemma cost_mono a b : a <= b -> cost a <= cost b.
Proof. unfold cost. destruct (Z.ltb_spec 12 a), (Z.ltb_spec 12 b); lia. Qed.

Lemma data_len_app a b : data_len (a ++ b) = data_len a + data_len b.
Proof. unfold data_len. rewrite length_app. lia. Qed.

(** The file has the bytes [data], and the inode [din] with other addresses. *)
Record appended (V : Z -> list Z) (fi : Z) (l : list mfile) (i : nat) (n : Z) (din : dinode) (data : list Z)
    (r : dinode * Z) (s' : mkfs) (V' : Z -> list Z) (fb' : Z) : Prop := {
  ap_shows : shows s' V' fi fb';
  ap_files : files_ok V' fb' (<[i := MFile (node n r.1) (nblk data) data]> l);
  ap_off : r.2 = data_len data;
  ap_typed : dinode_typed r.1;
  ap_inode : r.1 = Dinode din.(d_type) din.(d_major) din.(d_minor) din.(d_nlink) din.(d_size) r.1.(d_addrs);
  ap_meta b : b < nmeta -> V' b = V b;
}.

(** What one turn of the loop writes. *)
Lemma chunk_facts data p :
  p <> [] -> let len := data_len data in let k := len / BSIZE in
  let n1 := Z.min (Z.of_nat (length p)) ((k + 1) * BSIZE - len) in
  let chunk := take (Z.to_nat n1) p in
  0 < n1 /\ data_len chunk = n1 /\ len mod BSIZE + data_len chunk <= BSIZE /\ nblk (data ++ chunk) = k + 1 /\
  len - k * BSIZE = len mod BSIZE /\ k + 1 <= nblk (data ++ p) /\ (n1 < Z.of_nat (length p) -> len + n1 = (k + 1) * BSIZE).
Proof.
  intros Hp len k n1 chunk. assert (0 < Z.of_nat (length p)) as Hlp by (destruct p; [done|simpl; lia]).
  assert (0 <= len) as Hl0 by (unfold len, data_len; lia).
  assert (k * 1024 <= len < (k + 1) * 1024) as Hk by (unfold k, BSIZE; dlia).
  assert (0 < n1) as Hn1 by (unfold n1, BSIZE; lia).
  assert (data_len chunk = n1) as Hc by (unfold chunk, data_len; rewrite length_take; unfold n1; lia).
  unfold nblk. rewrite !data_len_app, Hc. fold len. unfold n1, data_len, BSIZE in *. split_and!; try dlia; done.
Qed.

Lemma iappend_loop_spec B k V fi fb l i n din data p s :
  files_ok V fb l -> l !! i = Some (MFile (node n din) (nblk data) data) -> dinode_typed din ->
  data_len (data ++ p) <= MAXFILE * BSIZE -> fb + cost (nblk (data ++ p)) - cost (nblk data) <= FSSIZE ->
  (length p < k)%nat -> shows s V fi fb ->
  wpx B (iappend_loop k din (data_len data) p) (fun r s' => exists V' fb',
    appended V fi l i n din (data ++ p) r s' V' fb') s.
Proof.
  revert V fb l din data p s. induction k as [|k IH]; intros V fb l din data p s Hl Hi Ht Hmax Hroom Hk Hs; [lia|].
  cbn [iappend_loop]. destruct (decide (p = [])) as [->|Hp].
  - rewrite bool_decide_eq_true_2 by done. apply wpx_ret. rewrite app_nil_r. exists V, fb.
    split; try done; [by rewrite list_insert_id|by destruct din].
  - rewrite bool_decide_eq_false_2 by done. destruct (chunk_facts data p Hp) as (Hn1 & Hc & Hfit & Hnb & Eo & Hle & Hend).
    set (fbn := data_len data / BSIZE) in *. set (n1 := Z.min _ _) in *. set (chunk := take (Z.to_nat n1) p) in *.
    destruct file_size_bounds as (N1 & N2 & N3). rewrite data_len_app in Hmax. unfold data_len in Hmax at 2.
    assert (0 < Z.of_nat (length p)) as Hlp by (destruct p; [done|simpl; lia]).
    assert (fbn < MAXFILE) as Hfbn by (unfold fbn, BSIZE in *; dlia).
    rewrite (proj2 (Z.ltb_lt _ _)) by done. cbn [assert]. apply wpx_bind, wpx_ret, wpx_bind.
    pose proof (cost_mono _ _ Hle) as Hcm.
    eapply wpx_mono; [apply (file_block_spec B V fi fb l i n din data Hl Hi Ht Hfbn ltac:(fold fbn; lia) s Hs)|].
    intros [din1 x] s1 (V1 & fb1 & Hb). pose proof Hb as [Hs1 Hl1 Hx Ht1 Hd1 Hm1]. cbn [fst snd] in Hx, Ht1, Hd1, Hl1.
    fold fbn in Hl1, Hx. assert (i < length l)%nat as Hlen by (by eapply lookup_lt_Some).
    set (f1 := MFile (node n din1) (fbn + 1) data) in *.
    assert (<[i := f1]> l !! i = Some f1) as Hi1 by (by apply list_lookup_insert_eq).
    assert (fb1 = fb + cost (fbn + 1) - cost (nblk data)) as Efb.
    { rewrite (fo_cost _ _ _ _ _ Hl1), (fo_cost _ _ _ _ _ Hl), (total_cost_insert l i _ f1 Hi). cbn [f1 mf_nb]. lia. }
    pose proof (fp_blk _ _ _ _ (files_fpart _ _ _ _ _ Hl1 Hi1) fbn) as Hblk. cbn [f1 mf_node mf_nb] in Hblk. rewrite <-Hx in Hblk.
    specialize (Hblk ltac:(apply fbn_file; done) ltac:(lia)). destruct nmeta_val as [M1 M2].
    apply wpx_bind. eapply wpx_mono; [apply (rsect_spec B s1 V1 fi fb1 x Hs1); lia|]. intros buf s2 [-> ->].
    apply wpx_bind. eapply wpx_mono; [apply (wsect_spec B s1 V1 fi fb1 x _ Hs1); lia|]. intros [] s2 Hs2.
    rewrite Eo in Hs2. fold chunk in Hs2.
    pose proof (append_bytes nmeta FSSIZE ltac:(lia) ltac:(lia) V1 fb1 _ i f1 chunk Hl1 Hi1) as Ha.
    cbn [f1 mf_node mf_nb mf_data] in Ha. fold fbn in Ha. rewrite <-Hx in Ha. specialize (Ha ltac:(lia) Hfit).
    rewrite list_insert_insert_eq, <-Hnb in Ha.
    assert ((data ++ chunk) ++ drop (Z.to_nat n1) p = data ++ p) as Eapp by (unfold chunk; by rewrite <-app_assoc, take_drop).
    assert (u32 (data_len data + n1) = data_len (data ++ chunk)) as Eoff.
    { rewrite data_len_app, Hc. apply u32_small. unfold data_len, BSIZE in *. lia. }
    rewrite Eoff. eapply wpx_mono.
    + eapply (IH _ fb1 _ din1 (data ++ chunk) (drop (Z.to_nat n1) p) s2 Ha); try done.
      * by apply list_lookup_insert_eq.
      * rewrite Eapp, data_len_app. unfold data_len at 2. lia.
      * rewrite Eapp, Hnb. lia.
      * rewrite length_drop. lia.
    + intros r s3 (V3 & fb3 & [A1 A2 A3 A4 A5 A6]). rewrite Eapp in *. exists V3, fb3.
      split; try done.
      * by rewrite list_insert_insert_eq in A2.
      * rewrite A5, Hd1. done.
      * intros b Hb1. rewrite A6, fn_lookup_insert_ne by lia. by apply Hm1.
Qed.

(** ** The image *)

(** The files in the order of their inodes: inode and bytes. *)
Definition mfile_of (i : nat) (d : dinode * list Z) : mfile :=
  MFile (node (Z.of_nat i + 1) d.1) (nblk d.2) d.2.
Definition mk_files (ds : list (dinode * list Z)) : list mfile := imap mfile_of ds.

Record image_ok (V : Z -> list Z) (fi fb : Z) (ds : list (dinode * list Z)) : Prop := {
  im_files : files_ok V fb (mk_files ds);
  im_inode i d : ds !! i = Some d -> inode_in V (Z.of_nat i + 1) = d.1;
  im_typed i d : ds !! i = Some d -> dinode_typed d.1 /\ d.1.(d_size) = data_len d.2;
  im_count : fi = 1 + Z.of_nat (length ds);
  im_max : fi <= NINODES;
  im_free n : fi <= n < NINODES -> (inode_in V n).(d_type) = 0;
}.

Lemma mk_files_insert ds i d : <[i := mfile_of i d]> (mk_files ds) = mk_files (<[i := d]> ds).
Proof.
  apply list_eq. intros j. unfold mk_files. rewrite list_lookup_imap. destruct (decide (i = j)) as [->|Hne].
  - destruct (decide (j < length ds)%nat) as [Hj|Hj].
    + rewrite !list_lookup_insert_eq by (rewrite ?length_imap; done). done.
    + rewrite !list_insert_ge by (rewrite ?length_imap; lia). by rewrite list_lookup_imap.
  - rewrite !list_lookup_insert_ne by done. by rewrite list_lookup_imap.
Qed.

Lemma mk_files_snoc ds d : mk_files (ds ++ [d]) = mk_files ds ++ [mfile_of (length ds) d].
Proof. unfold mk_files. rewrite imap_app. cbn. by rewrite Nat.add_0_r. Qed.

Lemma lookup_mk_files ds i d : ds !! i = Some d -> mk_files ds !! i = Some (mfile_of i d).
Proof. intros Hi. unfold mk_files. by rewrite list_lookup_imap, Hi. Qed.

(** Changes before the data blocks do not matter to the files. *)
Lemma files_ok_meta V V' fb l :
  files_ok V fb l -> (forall b, nmeta <= b -> V' b = V b) -> (forall b, length (V' b) = bsize) -> files_ok V' fb l.
Proof.
  intros Hl HV HV'. pose proof (files_fb _ _ _ _ _ Hl) as Hlo. pose proof Hl as [Hp Hd Hf Hb Hc].
  assert (forall i f, l !! i = Some f -> fpart V' fb f /\ forall k, fblock V' f.(mf_node) k = fblock V f.(mf_node) k) as Hfr.
  { intros i f Hi. pose proof (files_fpart _ _ _ _ _ Hl Hi) as Hfp. apply (fpart_frame nmeta ltac:(done) V V' fb fb f); [done|lia|].
    intros b Hb'. apply HV. apply (fpart_owns _ _ _ _ _ Hfp Hb'). }
  assert (forall i f b, l !! i = Some f -> mf_owns V' f b -> mf_owns V f b) as Ho.
  { intros i f b Hi [Hb0 [->|(k & Hk & <-)]]; (split; [done|]); [by left|right]. exists k. by rewrite (proj2 (Hfr i f Hi)). }
  split; try done.
  - apply Forall_lookup. intros i f Hi. by apply (Hfr i).
  - intros i j f g b Hij Hi Hj Hb1%(Ho i) Hb2%(Ho j); try done. by eapply Hd.
  - intros b Hb'. rewrite HV by lia. by apply Hf.
Qed.

Lemma winode_files V fb l n d :
  files_ok V fb l -> 0 <= n < NINODES ->
  files_ok (<[IBLOCK n mkfs_sb := set_dinode (dinode_off n) d (V (IBLOCK n mkfs_sb))]> V) fb l.
Proof.
  intros Hl Hn. destruct (iblock_val n Hn) as [En Hr]. destruct nmeta_val as [N1 N2]. apply (files_ok_meta V); [done| |].
  - intros b Hb. rewrite fn_lookup_insert_ne; [done|]. rewrite En. lia.
  - intros b. destruct (decide (b = IBLOCK n mkfs_sb)) as [->|Hne].
    + rewrite fn_lookup_insert, (set_dinode_put _ _ _ n), length_put_dinode; [apply Hl|].
      rewrite (fo_blocks _ _ _ _ _ Hl). apply dinode_fits.
    + rewrite fn_lookup_insert_ne by done. apply Hl.
Qed.

(** Only the addresses of an inode matter to the blocks of its file, and
    zeroes after its bytes are not noticed. *)
Lemma files_ok_node V fb l i f x data :
  files_ok V fb (<[i := f]> l) -> x.(i_addrs) = f.(mf_node).(i_addrs) -> data_len data <= f.(mf_nb) * BSIZE ->
  (forall p, byte_at p data = byte_at p f.(mf_data)) -> files_ok V fb (<[i := MFile x f.(mf_nb) data]> l).
Proof.
  intros Hl Hx Hlen Hdata. destruct (decide (i < length l)%nat) as [Hi|Hi].
  2:{ rewrite list_insert_ge in Hl |- * by lia. done. }
  assert (<[i := f]> l !! i = Some f) as Hf by (by apply list_lookup_insert_eq).
  rewrite <-(list_insert_insert_eq l i (MFile x _ _) f). pose proof (files_fpart _ _ _ _ _ Hl Hf) as Hp.
  assert (forall k, fblock V x k = fblock V f.(mf_node) k) as E by (intros k; unfold fblock, ind_block; by rewrite Hx).
  assert (ind_block x = ind_block f.(mf_node)) as Ei by (unfold ind_block; by rewrite Hx).
  assert (forall b, mf_owns V (MFile x f.(mf_nb) data) b -> mf_owns V f b) as Ho.
  { intros b [Hb [->|(k & Hk & <-)]]; (split; [done|]); [left; exact Ei|right; exists k; split; [done|symmetry; apply E]]. }
  eapply files_ok_update; [done|exact Hl|exact Hf| |lia|cbn; lia|by auto|done|apply Hl].
  destruct Hp as [H1 H2 H3 H4 H5 H6 H7 H8 H9 H10].
  split; cbn [mf_node mf_nb mf_data]; rewrite ?Hx, ?Ei; try done; intros; rewrite ?E in *; auto.
  rewrite Hdata, <-H10 by done. unfold fbyte, content. by rewrite E.
Qed.

Section image.
Context (B : mkfs -> Prop).

Lemma rinode_spec s V fi fb n :
  shows s V fi fb -> 0 <= n < NINODES -> wpx B (rinode n) (fun r s' => r = inode_in V n /\ s' = s) s.
Proof.
  intros Hs Hn. destruct (iblock_val n Hn) as [En Hr]. destruct nmeta_val as [N1 N2]. unfold rinode.
  apply wpx_bind. eapply wpx_mono; [apply (rsect_spec B s V fi fb _ Hs); lia|]. intros buf s1 [-> ->]. by apply wpx_ret.
Qed.

Lemma winode_spec s V fi fb n d :
  shows s V fi fb -> 0 <= n < NINODES ->
  wpx B (winode n d) (fun _ s' =>
    shows s' (<[IBLOCK n mkfs_sb := set_dinode (dinode_off n) d (V (IBLOCK n mkfs_sb))]> V) fi fb) s.
Proof.
  intros Hs Hn. destruct (iblock_val n Hn) as [En Hr]. destruct nmeta_val as [N1 N2]. unfold winode.
  apply wpx_bind. eapply wpx_mono; [apply (rsect_spec B s V fi fb _ Hs); lia|]. intros buf s1 [-> ->].
  apply (wsect_spec B s V fi fb); [done|lia].
Qed.

(** Before the inodes nothing changes. *)
Definition head_same (V V' : Z -> list Z) : Prop := forall b, b < 33 -> V' b = V b.

Lemma iappend_spec s V fi fb ds i din data p :
  shows s V fi fb -> image_ok V fi fb ds -> ds !! i = Some (din, data) ->
  data_len (data ++ p) <= MAXFILE * BSIZE -> fb + cost (nblk (data ++ p)) - cost (nblk data) <= FSSIZE ->
  wpx B (iappend (Z.of_nat i + 1) p) (fun _ s' => exists V' fb' din',
    shows s' V' fi fb' /\ image_ok V' fi fb' (<[i := (din', data ++ p)]> ds) /\ head_same V V' /\
    fb' = fb + cost (nblk (data ++ p)) - cost (nblk data) /\
    din' = Dinode din.(d_type) din.(d_major) din.(d_minor) din.(d_nlink) (data_len (data ++ p)) din'.(d_addrs)) s.
Proof.
  intros Hs [Hf Hin Hty Hc Hmax Hfree] Hi Hp Hroom. assert (i < length ds)%nat as Hlt by (by eapply lookup_lt_Some).
  destruct (Hty i _ Hi) as [Ht Hsz]. cbn [fst snd] in Ht, Hsz. destruct nmeta_val as [N1 N2].
  assert (0 <= Z.of_nat i + 1 < NINODES) as Hn by lia. destruct (iblock_val _ Hn) as [En Hr].
  assert (0 <= data_len (data ++ p) < 2 ^ 32) as Hlen.
  { destruct file_size_bounds as (_ & _ & N3). unfold data_len, BSIZE in *. lia. }
  unfold iappend. apply wpx_bind. eapply wpx_mono; [by apply (rinode_spec s V fi fb)|]. intros d s1 [-> ->].
  rewrite (Hin i _ Hi). cbn [fst]. rewrite Hsz, xint_small by (rewrite data_len_app in Hlen; unfold data_len in *; lia).
  apply wpx_bind. eapply wpx_mono.
  { apply (iappend_loop_spec B _ V fi fb (mk_files ds) i (Z.of_nat i + 1) din data p);
      [exact Hf|exact (lookup_mk_files ds i _ Hi)|exact Ht|exact Hp|exact Hroom|apply Nat.lt_succ_diag_r|exact Hs]. }
  intros [din1 off] s1 (V1 & fb1 & [A1 A2 A3 A4 A5 A6]). cbn [fst snd] in *. rewrite A3, xint_small by done.
  set (din2 := set_d_size (data_len (data ++ p)) din1).
  assert (dinode_typed din2) as Ht2 by (destruct A4; by split).
  eapply wpx_mono; [by apply (winode_spec s1 V1 fi fb1 _ din2)|]. intros [] s2 Hs2.
  eexists _, fb1, din2. split; [exact Hs2|].
  assert (MFile (node (Z.of_nat i + 1) din2) (nblk (data ++ p)) (data ++ p) = mfile_of i (din2, data ++ p)) as Em by done.
  assert (files_ok V1 fb1 (mk_files (<[i := (din2, data ++ p)]> ds))) as Hf1.
  { rewrite <-mk_files_insert. apply (files_ok_node V1 fb1 (mk_files ds) i (MFile (node (Z.of_nat i + 1) din1) (nblk (data ++ p)) (data ++ p)) _ (data ++ p)); [done|done| |done].
    cbn [mf_nb]. unfold nblk, BSIZE. dlia. }
  split_and!.
  - split; [by apply winode_files|..].
    + intros j d Hj. rewrite inode_in_write; [|apply Hf1|done| |done].
      * case_decide as E; [replace j with i in Hj by lia; rewrite list_lookup_insert_eq in Hj by done; by simplify_eq|].
        rewrite list_lookup_insert_ne in Hj by lia. rewrite <-(Hin j d Hj). unfold inode_in. rewrite A6; [done|].
        apply lookup_lt_Some in Hj. destruct (iblock_val (Z.of_nat j + 1)); lia.
      * apply lookup_lt_Some in Hj. rewrite length_insert in Hj. lia.
    + intros j d Hj. destruct (decide (i = j)) as [->|Hne].
      * rewrite list_lookup_insert_eq in Hj by done. by simplify_eq.
      * rewrite list_lookup_insert_ne in Hj by done. by apply (Hty j).
    + by rewrite length_insert.
    + done.
    + intros m Hm. rewrite inode_in_write; [|apply Hf1|done|lia|done]. rewrite decide_False by lia.
      rewrite <-(Hfree m Hm). unfold inode_in. rewrite A6; [done|]. destruct (iblock_val m); lia.
  - intros b Hb. rewrite fn_lookup_insert_ne by lia. apply A6. lia.
  - rewrite (fo_cost _ _ _ _ _ Hf1), (fo_cost _ _ _ _ _ Hf), <-mk_files_insert.
    rewrite (total_cost_insert _ _ _ _ (lookup_mk_files ds i _ Hi)). cbn [mfile_of mf_nb fst snd]. lia.
  - unfold din2. rewrite A5. done.
Qed.
End image.

(** A new inode: one link, no bytes. *)
Definition new_dinode (type : Z) : dinode := Dinode type 0 0 1 0 (replicate 13 0).

Lemma new_dinode_typed type : 0 <= type < 2 ^ 15 -> dinode_typed (new_dinode type).
Proof. intros Ht. split; cbn; try (split; lia); try done. intros a [-> _]%(elem_of_replicate 13 0). lia. Qed.

Lemma ialloc_spec B s V fi fb ds type :
  shows s V fi fb -> image_ok V fi fb ds -> fi < NINODES -> 0 <= type < 2 ^ 15 ->
  wpx B (ialloc type) (fun r s' => r = fi /\ exists V',
    shows s' V' (fi + 1) fb /\ image_ok V' (fi + 1) fb (ds ++ [(new_dinode type, [])]) /\ head_same V V') s.
Proof.
  intros Hs [Hf Hin Hty Hc Hmax Hfree] Hfi Ht. pose proof (new_dinode_typed type Ht) as Htd. unfold ialloc.
  assert (1 <= fi) as H1 by lia. assert (0 <= fi < NINODES) as Hr by lia. destruct (iblock_val _ Hr) as [En Hb].
  apply wpx_bind, wpx_gets. rewrite (sh_inode _ _ _ _ Hs). apply wpx_bind, wpx_modify.
  rewrite u32_small by (unfold NINODES in *; lia).
  assert (s16 (xshort type) = type) as -> by (rewrite xshort_small by lia; apply s16_small; lia).
  change (Dinode type 0 0 (s16 (xshort 1)) (xint 0) (replicate 13 0)) with (new_dinode type).
  apply wpx_bind. eapply wpx_mono.
  { apply (winode_spec B _ V (fi + 1) fb); [|exact Hr]. destruct Hs. by split. }
  intros [] s1 Hs1. apply wpx_ret. split; [done|]. eexists. split; [exact Hs1|]. split.
  - split.
    + apply winode_files; [|exact Hr]. rewrite mk_files_snoc. apply add_file; [exact Hf|reflexivity].
    + intros j d Hj. rewrite inode_in_write; [|apply Hf|exact Hr| |exact Htd].
      * apply lookup_app_Some in Hj as [Hj|[Hge Hj]].
        -- rewrite decide_False by (apply lookup_lt_Some in Hj; lia). by apply Hin.
        -- apply list_lookup_singleton_Some in Hj as [E <-]. by rewrite decide_True by lia.
      * apply lookup_lt_Some in Hj. rewrite length_app in Hj. cbn in Hj. lia.
    + intros j d [Hj|[_ [_ <-]%list_lookup_singleton_Some]]%lookup_app_Some; [by apply (Hty j)|done].
    + rewrite length_app. cbn. lia.
    + lia.
    + intros m Hm. rewrite inode_in_write; [|apply Hf|exact Hr|lia|exact Htd]. rewrite decide_False by lia. apply Hfree. lia.
  - intros b Hb'. by rewrite fn_lookup_insert_ne by lia.
Qed.
