(* ===== verification/MkfsOk.v ===== *)
(** * What mkfs makes of its command line

    The image that [main] builds, for every command line whose files fit: the
    superblock, an empty log, a free map that marks just the blocks in use,
    a root directory with the names, and the files with their contents.  All
    of it is stated with the predicates that the proofs about the kernel have
    as their hypotheses (FsAlloc, FsFile, FsDir, FsPath). *)

From stdpp Require Import functions.
From S2P Require Import Prelude Riscv Machine Bytes Bio Bcache Fs FsAlloc FsInode FsTable FsFile FsIo FsDir FsPath Mkfs MkfsFiles MkfsSpec.

(** ** The root directory *)

Definition root_entries (names : list (list Z)) : list (Z * list Z) :=
  (ROOTINO, chars ".") :: (ROOTINO, chars "..") :: imap (fun j name => (Z.of_nat j + 2, name)) names.

Definition dirents (l : list (Z * list Z)) : list Z := concat (map (fun e => mk_dirent e.1 e.2) l).

Definition root_bytes (names : list (list Z)) : list Z := dirents (root_entries names).

Lemma root_entries_snoc names name :
  root_entries (names ++ [name]) = root_entries names ++ [(Z.of_nat (length names) + 2, name)].
Proof. unfold root_entries. rewrite imap_app. cbn. by rewrite Nat.add_0_r. Qed.

Lemma dirents_snoc l e : dirents (l ++ [e]) = dirents l ++ mk_dirent e.1 e.2.
Proof. unfold dirents. rewrite map_app, concat_app. cbn. by rewrite app_nil_r. Qed.

Lemma length_mk_dirent n name : length (mk_dirent n name) = 16%nat.
Proof. unfold mk_dirent. rewrite length_app, length_le_bytes, length_take, length_app, length_replicate. lia. Qed.

Lemma length_dirents l : length (dirents l) = (16 * length l)%nat.
Proof.
  unfold dirents. induction l as [|e l IH]; [done|]. cbn [map concat length]. rewrite length_app, length_mk_dirent, IH. lia.
Qed.

Lemma length_root_bytes names : length (root_bytes names) = (16 * (2 + length names))%nat.
Proof. unfold root_bytes. rewrite length_dirents. cbn. rewrite length_imap. lia. Qed.

(** ** Files *)

(** A file and its inode: one link, the size of the contents. *)
Definition plain (type : Z) (d : dinode * list Z) : Prop :=
  d.1 = Dinode type 0 0 1 (data_len d.2) d.1.(d_addrs).

(** The root directory and the files so far, as names and contents. *)
Definition built (ds : list (dinode * list Z)) (fl : list (list Z * list Z)) : Prop :=
  exists rd fds, ds = (rd, root_bytes fl.*1) :: fds /\ plain T_DIR (rd, root_bytes fl.*1) /\
    Forall2 (fun d f => d.2 = f.2 /\ plain T_FILE d) fds fl.

(** The blocks that contents need. *)
Definition sum_cost {A} (l : list (A * list Z)) : Z := foldr (fun f n => cost (nblk f.2) + n) 0 l.

(** The first block that is not in use. *)
Definition blocks_used (fl : list (list Z * list Z)) : Z :=
  nmeta + cost (nblk (root_bytes fl.*1)) + sum_cost fl.

Lemma cost_nonneg data : 0 <= cost (nblk data).
Proof.
  unfold cost. assert (0 <= nblk data) by (unfold nblk, data_len, BSIZE; dlia). destruct (12 <? nblk data); lia.
Qed.

Lemma nblk_mono a b : (length a <= length b)%nat -> nblk a <= nblk b.
Proof. intros H. unfold nblk, data_len, BSIZE. dlia. Qed.

Lemma sum_cost_cons {A} (f : A * list Z) l : sum_cost (f :: l) = cost (nblk f.2) + sum_cost l.
Proof. done. Qed.

Lemma total_cost_mk ds : total_cost (mk_files ds) = sum_cost ds.
Proof.
  unfold total_cost, mk_files. change (imap mfile_of ds) with (imap (fun i => mfile_of (0 + i)%nat) ds).
  generalize 0%nat. induction ds as [|d ds IH]; intros k; [done|]. rewrite imap_cons, sum_cost_cons. cbn [foldr mfile_of mf_nb].
  f_equal. rewrite <-(IH (S k)). f_equal. apply imap_ext. intros i x _. cbn. by replace (k + S i)%nat with (S (k + i)) by lia.
Qed.

Lemma sum_cost_app {A} (l1 l2 : list (A * list Z)) : sum_cost (l1 ++ l2) = sum_cost l1 + sum_cost l2.
Proof. unfold sum_cost. induction l1 as [|f l1 IH]; cbn; [done|]. rewrite IH. lia. Qed.

Lemma sum_cost_nonneg {A} (l : list (A * list Z)) : 0 <= sum_cost l.
Proof. unfold sum_cost. induction l as [|f l IH]; cbn; [done|]. pose proof (cost_nonneg f.2). lia. Qed.

Lemma sum_cost_files fds (fl : list (list Z * list Z)) :
  Forall2 (fun d f => d.2 = f.2 /\ plain T_FILE d) fds fl -> sum_cost fds = sum_cost fl.
Proof. unfold sum_cost. induction 1 as [|d f fds fl [E _] Hf IH]; [done|]. cbn. by rewrite E, IH. Qed.

Lemma built_sum ds fl : built ds fl -> nmeta + sum_cost ds = blocks_used fl.
Proof.
  intros (rd & fds & -> & _ & Hf). unfold blocks_used. rewrite <-(sum_cost_files _ _ Hf). rewrite sum_cost_cons. apply Z.add_assoc.
Qed.

Lemma image_blocks V fi fb ds : image_ok V fi fb ds -> fb = nmeta + sum_cost ds.
Proof. intros HI. by rewrite (fo_cost _ _ _ _ _ (im_files _ _ _ _ HI)), total_cost_mk. Qed.

Lemma built_count V fi fb ds fl : image_ok V fi fb ds -> built ds fl -> fi = Z.of_nat (length fl) + 2.
Proof.
  intros HI (rd & fds & -> & _ & Hf). rewrite (im_count _ _ _ _ HI). cbn. rewrite (Forall2_length _ _ _ Hf). lia.
Qed.

(** More names and contents need at least as many blocks. *)
Lemma blocks_used_app fl name d1 d2 rest :
  (length d1 <= length d2)%nat -> blocks_used (fl ++ [(name, d1)]) <= blocks_used (fl ++ (name, d2) :: rest).
Proof.
  intros Hd. unfold blocks_used. rewrite !sum_cost_app, !sum_cost_cons. cbn [snd]. change (@sum_cost (list Z) []) with 0.
  pose proof (sum_cost_nonneg rest). pose proof (cost_mono _ _ (nblk_mono _ _ Hd)).
  assert (cost (nblk (root_bytes (fl ++ [(name, d1)]).*1)) <= cost (nblk (root_bytes (fl ++ (name, d2) :: rest).*1))); [|lia].
  apply cost_mono, nblk_mono. rewrite !length_root_bytes, !length_fmap, !length_app. cbn. lia.
Qed.

(** ** The operations *)

(** The image has the files [fl], and the blocks before the inodes are those
    of [V0]. *)
Definition made (V0 : Z -> list Z) (fl : list (list Z * list Z)) (s : mkfs) : Prop :=
  exists V fi fb ds, shows s V fi fb /\ image_ok V fi fb ds /\ built ds fl /\ head_same V0 V.

Lemma head_same_trans V0 V V' : head_same V0 V -> head_same V V' -> head_same V0 V'.
Proof. intros H1 H2 b Hb. rewrite H2 by done. by apply H1. Qed.

Lemma plain_append type d data p din' :
  plain type (d, data) ->
  din' = Dinode d.(d_type) d.(d_major) d.(d_minor) d.(d_nlink) (data_len (data ++ p)) din'.(d_addrs) ->
  plain type (din', data ++ p).
Proof. unfold plain. cbn [fst snd]. intros ->. done. Qed.

Lemma fst_snoc (fl : list (list Z * list Z)) name data : (fl ++ [(name, data)]).*1 = fl.*1 ++ [name].
Proof. by rewrite fmap_app. Qed.

Section build.
Context (B : mkfs -> Prop) (V0 : Z -> list Z).

Lemma append_to_file fl name data p s :
  made V0 (fl ++ [(name, data)]) s -> data_len (data ++ p) <= MAXFILE * BSIZE ->
  blocks_used (fl ++ [(name, data ++ p)]) <= FSSIZE ->
  wpx B (iappend (Z.of_nat (length fl) + 2) p) (fun _ s' => made V0 (fl ++ [(name, data ++ p)]) s') s.
Proof.
  intros (V & fi & fb & ds & Hs & HI & Hb & Hh) Hmax Hroom. pose proof (image_blocks _ _ _ _ HI) as Efb. rewrite (built_sum _ _ Hb) in Efb.
  destruct Hb as (rd & fds & -> & Hrd & Hf). apply Forall2_app_inv_r in Hf as (fds1 & fds2 & Hf1 & Hf2 & ->).
  apply Forall2_cons_inv_r in Hf2 as ([d data'] & fds3 & [E Hp] & ->%Forall2_nil_inv_r & ->). cbn in E. subst data'.
  pose proof (Forall2_length _ _ _ Hf1) as Hlen.
  assert (((rd, root_bytes (fl ++ [(name, data)]).*1) :: fds1 ++ [(d, data)]) !! S (length fl) = Some (d, data)) as Hi.
  { rewrite lookup_cons_ne_0 by done. cbn [Nat.pred]. rewrite lookup_app_r by lia. by rewrite Hlen, Nat.sub_diag. }
  replace (Z.of_nat (length fl) + 2) with (Z.of_nat (S (length fl)) + 1) by lia.
  eapply wpx_mono; [apply (iappend_spec B s V fi fb _ _ d data p Hs HI Hi Hmax)|].
  - rewrite Efb. unfold blocks_used in *. rewrite !fst_snoc, !sum_cost_app in *. cbn [sum_cost snd foldr] in *. lia.
  - intros [] s' (V' & fb' & din' & Hs' & HI' & Hh' & _ & Ed). eexists V', fi, fb', _. split_and!; [exact Hs'|exact HI'| |by eapply head_same_trans].
    exists rd, (fds1 ++ [(din', data ++ p)]). rewrite fst_snoc in *. split_and!.
    + rewrite fst_snoc. trans ((rd, root_bytes (fl.*1 ++ [name])) :: <[length fl := (din', data ++ p)]> (fds1 ++ [(d, data)])); [done|].
      rewrite insert_app_r_alt by lia. by rewrite Hlen, Nat.sub_diag.
    + by rewrite fst_snoc.
    + apply Forall2_app; [done|]. constructor; [|done]. split; [done|]. by eapply plain_append.
Qed.

Lemma append_pieces fl name pieces s :
  made V0 (fl ++ [(name, [])]) s -> data_len (concat pieces) <= MAXFILE * BSIZE ->
  blocks_used (fl ++ [(name, concat pieces)]) <= FSSIZE ->
  wpx B (for_each pieces (iappend (Z.of_nat (length fl) + 2))) (fun _ s' => made V0 (fl ++ [(name, concat pieces)]) s') s.
Proof.
  intros Hm Hmax Hroom. apply (wpx_for_each B pieces _ (fun done_ s' => made V0 (fl ++ [(name, concat done_)]) s')); [done| |done].
  intros l1 p l2 s1 -> Hm1. rewrite concat_app. cbn [concat]. rewrite app_nil_r.
  rewrite concat_app in Hmax, Hroom. cbn [concat] in Hmax, Hroom.
  assert (length (concat l1 ++ p) <= length (concat l1 ++ p ++ concat l2))%nat as Hle by (rewrite !length_app; lia).
  apply append_to_file; [done| |].
  - unfold data_len in *. lia.
  - etrans; [|exact Hroom]. by apply blocks_used_app.
Qed.

Lemma add_name fl name s V fi fb ds :
  shows s V fi fb -> image_ok V fi fb (ds ++ [(new_dinode T_FILE, [])]) -> built ds fl -> head_same V0 V ->
  blocks_used (fl ++ [(name, [])]) <= FSSIZE -> (length fl < 198)%nat ->
  wpx B (iappend ROOTINO (mk_dirent (Z.of_nat (length fl) + 2) name)) (fun _ s' => made V0 (fl ++ [(name, [])]) s') s.
Proof.
  intros Hs HI Hb Hh Hroom Hmax. pose proof (image_blocks _ _ _ _ HI) as Efb.
  rewrite sum_cost_app, Z.add_assoc, (built_sum _ _ Hb) in Efb. change (sum_cost [(new_dinode T_FILE, [])]) with 0 in Efb.
  destruct Hb as (rd & fds & -> & Hrd & Hf).
  assert (root_bytes (fl ++ [(name, [])]).*1 = root_bytes fl.*1 ++ mk_dirent (Z.of_nat (length fl) + 2) name) as Er.
  { unfold root_bytes. rewrite fmap_app. cbn [fmap list_fmap fst]. rewrite root_entries_snoc, dirents_snoc. cbn. by rewrite length_fmap. }
  change ROOTINO with (Z.of_nat 0 + 1).
  eapply wpx_mono; [apply (iappend_spec B s V fi fb _ 0 rd (root_bytes fl.*1) _ Hs HI); [done|..]; rewrite <-Er|].
  - unfold data_len. rewrite length_root_bytes, length_fmap, length_app. change (MAXFILE * BSIZE) with 274432. cbn [length]. lia.
  - rewrite Efb. unfold blocks_used in *. rewrite sum_cost_app in Hroom. change (sum_cost [(name, [])]) with 0 in Hroom. lia.
  - intros [] s' (V' & fb' & din' & Hs' & HI' & Hh' & _ & Ed). eexists V', fi, fb', _.
    split_and!; [exact Hs'|exact HI'| |by eapply head_same_trans].
    exists din', (fds ++ [(new_dinode T_FILE, [])]). rewrite Er. split_and!; [done|by eapply plain_append|].
    apply Forall2_app; [done|]. constructor; [|done]. done.
Qed.

(** The file that an argument asks for. *)
Record asks (file : list Z * option (list (list Z))) (f : list Z * list Z) : Prop := {
  ask_slash : 47 ∉ shortname file.1;
  ask_name : f.1 = strip (shortname file.1);
  ask_char : Forall (fun c => 0 < c < 2 ^ 8) f.1;
  ask_length : (length f.1 <= 14)%nat;
  ask_open : exists pieces, file.2 = Some pieces /\ f.2 = concat pieces;
  ask_size : data_len f.2 <= MAXFILE * BSIZE;
}.

Lemma install_spec fl file f s :
  made V0 fl s -> asks file f -> blocks_used (fl ++ [f]) <= FSSIZE -> (length fl < 198)%nat ->
  wpx B (install ROOTINO file) (fun _ s' => made V0 (fl ++ [f]) s') s.
Proof.
  intros (V & fi & fb & ds & Hs & HI & Hb & Hh) [A1 A2 A3 A4 (pieces & A5 & A6) A7] Hroom Hmax.
  destruct file as [arg contents], f as [name data]. cbn [fst snd] in *. subst name data contents.
  unfold install. rewrite bool_decide_eq_false_2 by done. unfold assert at 1. cbn [negb].
  apply wpx_bind, wpx_ret. rewrite (proj2 (Z.leb_le _ _)) by (unfold DIRSIZ; lia). unfold assert. apply wpx_bind, wpx_ret.
  pose proof (built_count _ _ _ _ _ HI Hb) as Efi.
  apply wpx_bind. eapply wpx_mono; [apply (ialloc_spec B s V fi fb ds T_FILE Hs HI); [unfold NINODES; lia|done]|].
  intros inum s1 [-> (V1 & Hs1 & HI1 & Hh1)]. rewrite Efi. apply wpx_bind. eapply wpx_mono.
  { apply (add_name fl (strip (shortname arg)) s1 V1 (fi + 1) fb ds Hs1 HI1 Hb); [by eapply head_same_trans| |done].
    etrans; [|exact Hroom]. apply blocks_used_app. cbn. lia. }
  intros [] s2 Hm. apply append_pieces; done.
Qed.

Lemma install_all files fl s :
  made V0 [] s -> Forall2 asks files fl -> blocks_used fl <= FSSIZE -> (length fl <= 198)%nat ->
  wpx B (for_each files (install ROOTINO)) (fun _ s' => made V0 fl s') s.
Proof.
  intros Hm Hf Hroom Hmax. pose proof (Forall2_length _ _ _ Hf) as Hlen.
  apply (wpx_for_each B files _ (fun l s' => made V0 (take (length l) fl) s')); [done| |].
  - intros l1 file l2 s1 -> Hm1. apply Forall2_app_inv_l in Hf as (fl1 & fl2 & Hf1 & Hf2 & ->).
    apply Forall2_cons_inv_l in Hf2 as (f & fl3 & Ha & Hf3 & ->). pose proof (Forall2_length _ _ _ Hf1) as Hl1.
    rewrite length_app, Hl1 in *. rewrite take_app_length in Hm1. cbn [length].
    replace (take (length fl1 + 1) (fl1 ++ f :: fl3)) with (fl1 ++ [f]).
    2:{ rewrite take_app_add'; [done|done]. }
    apply install_spec; [done|done| |cbn in Hmax; lia].
    etrans; [|exact Hroom]. destruct f as [name data]. by apply blocks_used_app.
  - intros s' Hm'. by rewrite Hlen, firstn_all in Hm'.
Qed.
End build.

(** ** The first and the last steps of [main] *)

Section steps.
Context (B : mkfs -> Prop).

Lemma zero_all s :
  s.(fsimg) = [] -> s.(freeinode) = 1 -> s.(freeblock) = nmeta ->
  wpx B (for_each (seq 0 (Z.to_nat FSSIZE)) (fun i => wsect (Z.of_nat i) zeroes)) (fun _ s' =>
    shows s' (fun _ => zeros) 1 nmeta) s.
Proof.
  intros H1 H2 H3. apply (wpx_for_each B _ _ (fun l s' => s' = MkFs (replicate (length l) zeroes) 1 nmeta)).
  - destruct s. cbn in *. by subst.
  - intros l1 i l2 s1 Hl ->. assert (i = length l1 /\ (i < 2000)%nat) as [-> Hi].
    { assert (seq 0 (Z.to_nat FSSIZE) !! length l1 = Some i) as E by (rewrite Hl, list_lookup_middle; done).
      apply lookup_seq in E as [-> E]. split; [done|]. change (Z.to_nat FSSIZE) with 2000%nat in E. lia. }
    apply wpx_modify. cbn [fsimg freeinode freeblock]. rewrite seek_small, Nat2Z.id by lia. f_equal.
    rewrite length_replicate, <-replicate_add, length_app. cbn [length].
    replace (length l1 + (S (length l1) - length l1))%nat with (length l1 + 1)%nat by lia. apply insert_replicate.
  - intros s' ->. rewrite length_seq. split; [apply length_replicate| |done..].
    intros b. unfold view. destruct (b <? 0); [done|]. cbn [fsimg].
    destruct (replicate (Z.to_nat FSSIZE) zeroes !! Z.to_nat b) as [d|] eqn:E; [|done].
    by apply lookup_replicate in E as [-> _].
Qed.

(** The empty image. *)
Lemma zero_type n : di_type (dinode_off n) zeros = 0.
Proof.
  assert (Forall (fun k => di_type (Z.to_nat (64 * Z.of_nat k)) zeros = 0) (seq 0 16)) as H
    by (repeat constructor; vm_compute; reflexivity).
  unfold dinode_off. change IPB with 16. rewrite <-(Z2Nat.id (n mod 16)) by dlia.
  eapply (proj1 (Forall_forall _ _) H). apply elem_of_seq. dlia.
Qed.

Lemma image_empty V : (forall b, 2 <= b -> V b = zeros) -> (forall b, length (V b) = bsize) -> image_ok V 1 nmeta [].
Proof.
  intros HV Hl. destruct nmeta_val as [N1 N2]. split; try done.
  - split; try done. intros b Hb. apply HV. lia.
  - intros n Hn. destruct (iblock_val n) as [En _]; [lia|]. unfold inode_in. rewrite HV by dlia. apply zero_type.
Qed.

(** "." and ".." *)
Lemma make_root {A} s V (k : Z -> H A) Q :
  shows s V 1 nmeta -> image_ok V 1 nmeta [] -> (forall s', made V [] s' -> wpx B (k ROOTINO) Q s') ->
  wpx B (rootino ← ialloc T_DIR; assert (rootino =? ROOTINO);; iappend rootino (mk_dirent rootino (chars "."));;
         iappend rootino (mk_dirent rootino (chars ".."));; k rootino) Q s.
Proof.
  intros Hs HI Hk. apply wpx_bind. eapply wpx_mono; [apply (ialloc_spec B s V 1 nmeta [] T_DIR Hs HI); done|].
  intros r s1 (-> & V1 & Hs1 & HI1 & Hh1). apply wpx_bind, wpx_ret. cbn [app] in HI1. change (1 + 1) with 2 in *.
  change (iappend 1) with (iappend (Z.of_nat 0 + 1)). apply wpx_bind. eapply wpx_mono.
  { apply (iappend_spec B s1 V1 2 nmeta _ 0 (new_dinode T_DIR) [] _ Hs1 HI1); [done|..]; rewrite app_nil_l; vm_compute; discriminate. }
  intros [] s2 (V2 & fb2 & d2 & Hs2 & HI2 & Hh2 & Ef2 & Ed2). rewrite app_nil_l in *.
  apply wpx_bind. eapply wpx_mono.
  { apply (iappend_spec B s2 V2 2 fb2 _ 0 d2 (mk_dirent 1 (chars ".")) _ Hs2 HI2); [done|..]; [|rewrite Ef2]; vm_compute; discriminate. }
  intros [] s3 (V3 & fb3 & d3 & Hs3 & HI3 & Hh3 & Ef3 & Ed3). apply Hk.
  eexists V3, 2, fb3, _. split_and!; [exact Hs3|exact HI3| |by eauto using head_same_trans].
  exists d3, []. split_and!; [done| |constructor]. unfold plain. cbn [fst snd]. rewrite Ed3 at 1. by rewrite Ed2.
Qed.

(** The root directory gets zeroes up to the end of its last block. *)
Definition padded (data : list Z) : list Z :=
  data ++ replicate (Z.to_nat ((data_len data / BSIZE + 1) * BSIZE - data_len data)) 0.

Lemma padded_len data : data_len (padded data) = (data_len data / BSIZE + 1) * BSIZE.
Proof. unfold padded. rewrite data_len_app. unfold data_len at 2. rewrite length_replicate. unfold data_len, BSIZE. dlia. Qed.

Lemma padded_nblk data : data_len data mod BSIZE <> 0 -> nblk (padded data) = nblk data.
Proof. unfold nblk. rewrite padded_len. unfold data_len, BSIZE. dlia. Qed.

Lemma padded_byte data p : byte_at p (padded data) = byte_at p data.
Proof.
  unfold padded. rewrite byte_at_app. case_decide; [done|]. rewrite (byte_at_ge data) by lia. unfold byte_at.
  destruct (replicate _ 0 !! _) as [v|] eqn:E; [|done]. by apply lookup_replicate in E as [-> _].
Qed.

Lemma fix_root_spec s V fi fb rd data fds :
  shows s V fi fb -> image_ok V fi fb ((rd, data) :: fds) -> plain T_DIR (rd, data) ->
  data_len data mod BSIZE <> 0 -> data_len data < 2 ^ 20 ->
  wpx B (fix_root ROOTINO) (fun _ s' => exists V' rd', shows s' V' fi fb /\
    image_ok V' fi fb ((rd', padded data) :: fds) /\ plain T_DIR (rd', padded data) /\ head_same V V') s.
Proof.
  intros Hs [Hf Hin Hty Hc Hmax Hfree] Hp Hmod Hlen. unfold fix_root. assert (0 <= ROOTINO < NINODES) as Hr by done.
  destruct (Hty 0%nat (rd, data) eq_refl) as [Ht Hsz]. cbn [fst snd] in Ht, Hsz. assert (0 <= data_len data) by (unfold data_len; lia).
  apply wpx_bind. eapply wpx_mono; [by apply (rinode_spec B s V fi fb)|]. intros d s1 [-> ->].
  rewrite (Hin 0%nat (rd, data) eq_refl : inode_in V ROOTINO = rd), Hsz. rewrite (xint_small (data_len data)) by lia.
  rewrite <-padded_len. pose proof (padded_len data) as Epad.
  assert (0 <= data_len (padded data) < 2 ^ 32) as Hpl by (rewrite Epad; unfold BSIZE in *; dlia).
  rewrite u32_small, xint_small by done. set (rd' := set_d_size _ rd).
  assert (dinode_typed rd') as Ht' by (destruct Ht; by split).
  eapply wpx_mono; [by apply (winode_spec B s V fi fb ROOTINO rd')|]. intros [] s' Hs'. eexists _, rd'. split; [exact Hs'|].
  assert (files_ok V fb (mk_files ((rd', padded data) :: fds))) as Hf'.
  { change ((rd', padded data) :: fds) with (<[0%nat := (rd', padded data)]> ((rd, data) :: fds)).
    rewrite <-mk_files_insert. unfold mfile_of. cbn [fst snd]. rewrite padded_nblk by done.
    apply (files_ok_node V fb (mk_files ((rd, data) :: fds)) 0 (mfile_of 0 (rd, data))); [|done| |apply padded_byte].
    - rewrite list_insert_id by done. exact Hf.
    - rewrite Epad. cbn [mfile_of mf_nb snd]. unfold nblk, BSIZE in *. dlia. }
  split_and!.
  - split; [by apply winode_files|..]; try done.
    + intros i d' Hi. assert (Z.of_nat i + 1 < NINODES) as Hi'.
      { apply lookup_lt_Some in Hi. cbn in *. lia. }
      rewrite inode_in_write; [|apply Hf|done|lia|done]. destruct i as [|i]; [by injection Hi as <-|].
      rewrite decide_False by (unfold ROOTINO; lia). by apply (Hin (S i)).
    + intros i d' Hi. destruct i as [|i]; [by injection Hi as <-|]. by apply (Hty (S i)).
    + intros n Hn. cbn [length] in Hc. rewrite inode_in_write; [|apply Hf|done|lia|done].
      rewrite decide_False by (unfold ROOTINO; lia). by apply Hfree.
  - unfold plain in *. cbn [fst snd] in *. unfold rd'. by rewrite Hp.
  - intros b Hb. rewrite fn_lookup_insert_ne; [done|]. change (IBLOCK ROOTINO mkfs_sb) with 33. lia.
Qed.

(** The free map. *)
Lemma used_map_snoc n : used_map (Z.of_nat (S n)) =
  put_byte (n / 8) (Z.lor (byte_at (n / 8) (used_map (Z.of_nat n))) (Z.shiftl 1 (Z.of_nat n mod 8))) (used_map (Z.of_nat n)).
Proof. unfold used_map. rewrite !Nat2Z.id, seq_S, foldl_app. done. Qed.

Lemma used_map_bit n b :
  Z.of_nat n <= 8192 -> length (used_map (Z.of_nat n)) = bsize /\
  (0 <= b < 8192 -> Z.testbit (byte_at (Z.to_nat (b / 8)) (used_map (Z.of_nat n))) (b mod 8) = (b <? Z.of_nat n)).
Proof.
  induction n as [|n IH]; intros Hn.
  - split; [done|]. intros Hb. change (used_map _) with zeros. unfold byte_at, zeros.
    rewrite lookup_replicate_2 by (unfold bsize; change (Z.to_nat BSIZE) with 1024%nat; dlia). cbn [default].
    rewrite Z.testbit_0_l. symmetry. apply Z.ltb_ge. lia.
  - destruct (IH ltac:(lia)) as [Hl Hbit]. rewrite used_map_snoc. split; [unfold put_byte; by rewrite length_insert|]. intros Hb. specialize (Hbit Hb).
    pose proof (Nat2Z.inj_div n 8) as En. change (Z.of_nat 8) with 8 in En.
    assert (n / 8 < bsize)%nat as Hfit by (unfold bsize; change (Z.to_nat BSIZE) with 1024%nat; dlia).
    rewrite byte_at_put by lia. case_decide as E.
    + rewrite testbit_u8 by dlia. rewrite Z.lor_spec, <-E, Hbit, Z.shiftl_1_l, Z.pow2_bits_eqb by dlia.
      destruct (Z.eqb_spec (Z.of_nat n mod 8) (b mod 8)), (Z.ltb_spec b (Z.of_nat n)), (Z.ltb_spec b (Z.of_nat (S n))); try done; dlia.
    + rewrite Hbit. destruct (Z.ltb_spec b (Z.of_nat n)), (Z.ltb_spec b (Z.of_nat (S n))); try done; dlia.
Qed.

Lemma write_map_spec s V fi fb ds :
  shows s V fi fb -> image_ok V fi fb ds -> 0 <= fb <= FSSIZE ->
  wpx B (balloc (s32 fb)) (fun _ s' => exists V', shows s' V' fi fb /\ image_ok V' fi fb ds /\ head_same V V' /\
    forall b, 0 <= b < FSSIZE -> bit mkfs_sb V' b = (b <? fb)) s.
Proof.
  intros Hs HI Hfb. destruct nmeta_val as [N1 N2]. unfold balloc.
  replace (s32 fb) with fb by (unfold s32; change (2 ^ 31) with 2147483648; change (2 ^ 32) with 4294967296; dlia).
  rewrite (proj2 (Z.ltb_lt _ _)) by (change BPB with 8192; lia). apply wpx_bind, wpx_ret.
  change (sb_bmapstart mkfs_sb) with 46. eapply wpx_mono; [apply (wsect_spec B s V fi fb 46 _ Hs); lia|].
  intros [] s' Hs'. eexists. split; [exact Hs'|]. pose proof (used_map_bit (Z.to_nat fb)) as Hbit. rewrite Z2Nat.id in Hbit by lia.
  split_and!.
  - destruct HI as [Hf Hin Hty Hc Hmax Hfree]. split; try done.
    + apply (files_ok_meta V); [done| |].
      * intros b Hb. apply fn_lookup_insert_ne. lia.
      * intros b. destruct (decide (b = 46)) as [->|]; [rewrite fn_lookup_insert; by apply (Hbit 0); lia|].
        rewrite fn_lookup_insert_ne by done. apply Hf.
    + intros i d Hi. rewrite <-(Hin i d Hi). unfold inode_in. rewrite fn_lookup_insert_ne; [done|].
      apply lookup_lt_Some in Hi. destruct (iblock_val (Z.of_nat i + 1)); lia.
    + intros n Hn. rewrite <-(Hfree n Hn). unfold inode_in. rewrite fn_lookup_insert_ne; [done|].
      destruct (iblock_val n); lia.
  - intros b Hb. apply fn_lookup_insert_ne. lia.
  - intros b Hb. unfold bit. assert (BBLOCK b mkfs_sb = 46) as ->.
    { unfold BBLOCK. change BPB with 8192. change (sb_bmapstart mkfs_sb) with 46. rewrite Z.div_small by lia. done. }
    rewrite fn_lookup_insert. change BPB with 8192. rewrite (Z.mod_small b 8192) by lia. apply Hbit; lia.
Qed.
End steps.

(** ** The image as the kernel sees it *)

Section seen.
Context (V : Z -> list Z) (fi fb : Z) (ds : list (dinode * list Z)).
Context (HI : image_ok V fi fb ds) (Hfb : fb <= FSSIZE) (Hbit : forall b, 0 <= b < FSSIZE -> bit mkfs_sb V b = (b <? fb)).

Lemma seen_inode i d : ds !! i = Some d -> dnode mkfs_sb V (Z.of_nat i + 1) = node (Z.of_nat i + 1) d.1.
Proof using HI. intros Hi. rewrite dnode_node. by rewrite (im_inode _ _ _ _ HI i d Hi). Qed.

Lemma seen_part i d : ds !! i = Some d -> fpart V fb (mfile_of i d).
Proof using HI. intros Hi. eapply files_fpart; [apply HI|]. by apply lookup_mk_files. Qed.

Lemma seen_data b : nmeta <= b < fb -> data_block mkfs_sb b /\ bit mkfs_sb V b = true.
Proof using Hfb Hbit.
  destruct nmeta_val as [N1 N2]. intros Hb. split; [|rewrite Hbit by lia; lia].
  unfold data_block. change (datastart mkfs_sb) with 47. change (sb_size mkfs_sb) with FSSIZE. lia.
Qed.

Lemma seen_file i d : ds !! i = Some d -> file_ok mkfs_sb V (node (Z.of_nat i + 1) d.1).
Proof using HI Hfb Hbit.
  intros Hi. destruct (seen_part i d Hi) as [H1 H2 H3 H4 H5 H6 H7 H8 H9 H10]. cbn [mfile_of mf_node mf_nb mf_data] in *.
  split; [done|done|]. split; [|done|].
  - intros k Hk Hz. split_and!; [| |by apply H9];
      (destruct (decide (k < nblk d.2)) as [Hlt|]; [apply seen_data; by apply H4|rewrite H5 in Hz; [done..|lia]]).
  - intros Hz. destruct (decide (12 < nblk d.2)) as [Hlt|]; [apply seen_data; by apply H6|rewrite H7 in Hz; [done|lia]].
Qed.

Lemma seen_whole i d : ds !! i = Some d -> data_len d.2 <= MAXFILE * BSIZE -> whole V (node (Z.of_nat i + 1) d.1).
Proof using HI.
  intros Hi Hmax. destruct (im_typed _ _ _ _ HI i d Hi) as [_ Hsz]. pose proof (seen_part i d Hi) as Hp. split.
  - change (i_size (node (Z.of_nat i + 1) d.1)) with (d_size d.1). rewrite Hsz. unfold data_len in *. lia.
  - intros p. change (i_size (node (Z.of_nat i + 1) d.1)) with (d_size d.1). rewrite Hsz. intros Hr.
    assert (in_file (p / BSIZE)) as Hf by (apply in_range_file; unfold in_range; lia). split; [done|].
    pose proof (fp_blk _ _ _ _ Hp (p / BSIZE) Hf) as Hb. cbn [mfile_of mf_node mf_nb] in Hb.
    assert (p / BSIZE < nblk d.2) as Hlt by (unfold nblk, BSIZE in *; dlia). specialize (Hb Hlt). destruct nmeta_val. lia.
Qed.

(** The bytes of a file: a part of its contents. *)
Lemma seen_bytes i d off n : ds !! i = Some d -> (off + n <= length d.2)%nat -> data_len d.2 <= MAXFILE * BSIZE ->
  fbytes V (node (Z.of_nat i + 1) d.1) (Z.of_nat off) n = slice off n d.2.
Proof using HI.
  intros Hi Hn Hmax. pose proof (seen_part i d Hi) as Hp. apply list_eq. intros j. unfold fbytes, slice.
  rewrite list_lookup_fmap. destruct (decide (j < n)%nat) as [Hj|Hj].
  - rewrite lookup_seq_lt by done. cbn [fmap option_fmap option_map]. rewrite lookup_take_lt, lookup_drop by done.
    pose proof (fp_byte _ _ _ _ Hp (Z.of_nat off + Z.of_nat (0 + j))) as Hb. cbn [mfile_of mf_node mf_data] in Hb.
    rewrite Hb by (unfold in_range, data_len in *; lia). unfold byte_at.
    replace (Z.to_nat (Z.of_nat off + Z.of_nat (0 + j))) with (off + j)%nat by lia.
    destruct (lookup_lt_is_Some_2 d.2 (off + j)) as [v ->]; [lia|done].
  - rewrite lookup_seq_ge by lia. symmetry. apply lookup_ge_None_2. rewrite length_take. lia.
Qed.

(** No block is in two files. *)
Lemma seen_apart i j d e b :
  i <> j -> ds !! i = Some d -> ds !! j = Some e ->
  let x := node (Z.of_nat i + 1) d.1 in let y := node (Z.of_nat j + 1) e.1 in
  owns (ind_block x) (fblock V x) b -> ~ owns (ind_block y) (fblock V y) b.
Proof using HI.
  intros Hij Hi Hj x y. apply (fo_disjoint _ _ _ _ _ (im_files _ _ _ _ HI) i j (mfile_of i d) (mfile_of j e)); try done;
    by apply lookup_mk_files.
Qed.
End seen.

(** ** The entries of the root directory *)

(** A name as the kernel compares names. *)
Definition clean (name : list Z) : Prop := Forall (fun c => 0 < c < 2 ^ 8) name /\ (length name <= 14)%nat.

Lemma clean_name_of name : clean name -> name_of name = name.
Proof.
  intros [Hc Hl]. unfold name_of. rewrite take_ge by done. clear Hl. induction Hc as [|c name Hc Hn IH]; [done|].
  cbn. rewrite (proj2 (Z.eqb_neq _ _)) by lia. by rewrite IH.
Qed.

Lemma slice_app_l off n (a b : list Z) : (off + n <= length a)%nat -> slice off n (a ++ b) = slice off n a.
Proof. intros H. unfold slice. rewrite drop_app_le by lia. rewrite take_app_le; [done|]. rewrite length_drop. lia. Qed.

Lemma slice_dirents l k e : l !! k = Some e -> slice (16 * k) 16 (dirents l) = mk_dirent e.1 e.2.
Proof.
  intros Hk. rewrite <-(take_drop_middle l k e Hk). unfold dirents, slice. rewrite map_app, concat_app. cbn [map concat].
  assert (length (concat (map (fun e => mk_dirent e.1 e.2) (take k l))) = 16 * k)%nat as Hl.
  { fold (dirents (take k l)). rewrite length_dirents, length_take. apply lookup_lt_Some in Hk. lia. }
  rewrite drop_app_length' by lia. apply take_app_length'. by rewrite length_mk_dirent.
Qed.

Lemma slice_padded data k : (length data <= 16 * k)%nat -> (16 * k + 16 <= length (padded data))%nat ->
  slice (16 * k) 16 (padded data) = replicate 16 0.
Proof.
  unfold padded. intros H1 H2. unfold slice. rewrite drop_app_ge by done. rewrite length_app, length_replicate in H2.
  rewrite drop_replicate, take_replicate. f_equal. lia.
Qed.

Lemma de_inum_mk n name : 0 <= n < 2 ^ 16 -> de_inum (mk_dirent n name) = n.
Proof.
  intros Hn. unfold de_inum, get16, mk_dirent. rewrite slice_app_l by (rewrite length_le_bytes; lia).
  unfold slice. rewrite drop_0, take_ge by (rewrite length_le_bytes; lia). rewrite (xshort_small n) by done. by apply xshort_small.
Qed.

Lemma de_name_mk n name : de_name (mk_dirent n name) = take 14 (name ++ replicate 14 0).
Proof.
  unfold de_name, mk_dirent, slice. rewrite drop_app_length' by (by rewrite length_le_bytes). rewrite take_take. done.
Qed.

Lemma de_name_clean n name : clean name -> name_of (de_name (mk_dirent n name)) = name /\ chars_ok (de_name (mk_dirent n name)).
Proof.
  intros Hc. pose proof Hc as [Hf Hl]. rewrite de_name_mk. split.
  - unfold name_of. rewrite take_take. cbn [Nat.min]. rewrite take_app, (take_ge name), take_replicate, upto_nul_pad by done.
    pose proof (clean_name_of name Hc) as E. unfold name_of in E. by rewrite take_ge in E.
  - apply Forall_take, Forall_app. split; [eapply Forall_impl; [exact Hf|intros c Hb; cbn in Hb; lia]|]. by apply Forall_replicate.
Qed.

Section root.
Context (V : Z -> list Z) (fi fb : Z) (rd : dinode) (nms : list (list Z)) (fds : list (dinode * list Z)).
Context (HI : image_ok V fi fb ((rd, padded (root_bytes nms)) :: fds)) (Hrd : plain T_DIR (rd, padded (root_bytes nms))).
Context (Hcl : Forall clean nms) (Hn : (length nms <= 198)%nat) (Hnd : NoDup (root_entries nms).*2).

#[local] Abbreviation x := (node ROOTINO rd).

Lemma root_len : data_len (padded (root_bytes nms)) <= MAXFILE * BSIZE /\
  Z.of_nat (dir_len x) * 16 = data_len (padded (root_bytes nms)) /\ (length (root_entries nms) < dir_len x)%nat.
Proof using Hrd Hn.
  assert (i_size x = data_len (padded (root_bytes nms))) as E by (change (i_size x) with (d_size rd); unfold plain in Hrd; cbn in Hrd; by rewrite Hrd).
  unfold dir_len. rewrite E. cbn [root_entries length]. rewrite length_imap.
  pose proof (padded_len (root_bytes nms)) as Ep. unfold data_len at 2 in Ep. rewrite length_root_bytes in Ep.
  change (MAXFILE * BSIZE) with 274432. unfold sizeof_dirent, BSIZE in *. rewrite Ep. split_and!; dlia.
Qed.

(** An entry in use is one of those that were written. *)
Lemma root_dirent k : (k < dir_len x)%nat ->
  dirent V x k = match root_entries nms !! k with Some e => mk_dirent e.1 e.2 | None => replicate 16 0 end.
Proof using HI Hrd Hn.
  intros Hk. destruct root_len as (Hmax & Hdl & Hlt). unfold dirent, sizeof_dirent.
  replace (16 * Z.of_nat k) with (Z.of_nat (16 * k)) by lia. change (node ROOTINO) with (node (Z.of_nat 0 + 1)).
  pose proof (length_root_bytes nms) as Hlr. unfold data_len in *.
  pose proof (seen_bytes V fi fb _ HI 0 (rd, padded (root_bytes nms)) (16 * k) 16 eq_refl) as Eb. cbn [fst snd] in Eb.
  rewrite Eb by (done || lia). clear Eb.
  destruct (root_entries nms !! k) as [e|] eqn:E.
  - rewrite <-(slice_dirents _ _ _ E). apply slice_app_l. apply lookup_lt_Some in E.
    unfold root_bytes. rewrite length_dirents. lia.
  - apply lookup_ge_None in E. apply slice_padded; [|lia]. unfold root_bytes. rewrite length_dirents. lia.
Qed.

Lemma root_entry k e : root_entries nms !! k = Some e -> 1 <= e.1 <= Z.of_nat (length nms) + 1 /\ clean e.2.
Proof using Hcl Hn.
  destruct k as [|[|k]]; cbn [root_entries lookup list_lookup].
  1,2: intros [= <-]; (split; [cbn; unfold ROOTINO; lia|]); split; [|cbn; lia]; repeat constructor; lia.
  intros Hk. change (imap (fun j name => (Z.of_nat j + 2, name)) nms !! k = Some e) in Hk.
  rewrite list_lookup_imap in Hk. destruct (nms !! k) as [name|] eqn:E; [|done]. injection Hk as <-. cbn [fst snd].
  split; [apply lookup_lt_Some in E; lia|]. by eapply Forall_lookup_1.
Qed.

Lemma root_inum k : (k < dir_len x)%nat ->
  de_inum (dirent V x k) = match root_entries nms !! k with Some e => e.1 | None => 0 end.
Proof using HI Hrd Hn Hcl.
  intros Hk. rewrite root_dirent by done. destruct (root_entries nms !! k) as [e|] eqn:E; [|done].
  apply de_inum_mk. destruct (root_entry k e E). lia.
Qed.

Lemma root_names name k : (k < dir_len x)%nat -> chars_ok name ->
  names V x name k <-> snd <$> root_entries nms !! k = Some (name_of name).
Proof using HI Hrd Hn Hcl.
  intros Hk Hc. unfold names. rewrite root_inum, root_dirent by done. destruct (root_entries nms !! k) as [e|] eqn:E; cbn [fmap option_fmap option_map].
  - destruct (root_entry k e E) as [He Hcle]. destruct (de_name_clean e.1 e.2 Hcle) as [E1 E2].
    rewrite namecmp_spec, E1 by done. split; [by intros [_ ->]|intros [= ->]; split; [lia|done]].
  - split; [|done]. by intros [? _].
Qed.

Lemma root_find name k n :
  chars_ok name -> root_entries nms !! k = Some (n, name_of name) -> entry_of V x name = Some n.
Proof using HI Hrd Hn Hcl Hnd.
  intros Hc Hk. destruct root_len as (_ & _ & Hlt). pose proof (lookup_lt_Some _ _ _ Hk) as Hkl.
  rewrite (entry_of_first V x name k); [|lia| |].
  - rewrite root_inum by lia. by rewrite Hk.
  - apply root_names; [lia|done|]. by rewrite Hk.
  - intros j Hj Hnj%root_names; [|lia|done]. assert (j = k); [|lia].
    apply (NoDup_lookup (root_entries nms).*2 j k (name_of name)); [done| |]; rewrite list_lookup_fmap; [done|by rewrite Hk].
Qed.

Lemma root_not_found name :
  chars_ok name -> name_of name ∉ (root_entries nms).*2 -> entry_of V x name = None.
Proof using HI Hrd Hn Hcl.
  intros Hc Hno. apply entry_of_none. intros k Hk Hnk%root_names; [|done..]. apply Hno.
  apply list_elem_of_lookup. exists k. by rewrite list_lookup_fmap.
Qed.
End root.

(** ** The result *)

(** What the kernel finds on a disk with the files [fl]. *)
Record holds (V : Z -> list Z) (fl : list (list Z * list Z)) : Prop := {
  ho_super : decode_sb (V 1) = mkfs_sb;
  ho_layout : layout mkfs_sb 2;
  ho_log b : 2 <= b < mkfs_sb.(sb_inodestart) -> V b = zeros;
  ho_map b : 0 <= b < FSSIZE -> bit mkfs_sb V b = (b <? blocks_used fl);
  ho_bitmap : bitmap_ok mkfs_sb V;
  ho_tree : tree_ok mkfs_sb V (fun n => 1 <= n <= Z.of_nat (length fl) + 1);
  ho_find j name data : fl !! j = Some (name, data) -> walk_to mkfs_sb V false ROOTINO [name] = Some (Z.of_nat j + 2);
  ho_links n : 1 <= n <= Z.of_nat (length fl) + 1 -> (dnode mkfs_sb V n).(i_nlink) = 1;
  ho_free n : Z.of_nat (length fl) + 1 < n < NINODES -> (dnode mkfs_sb V n).(i_type) = 0;
  ho_none name : chars_ok name -> name_of name ∉ chars "." :: chars ".." :: fl.*1 ->
    walk_to mkfs_sb V false ROOTINO [name] = None;
  ho_file j name data : fl !! j = Some (name, data) -> let x := dnode mkfs_sb V (Z.of_nat j + 2) in
    x.(i_type) = T_FILE /\ x.(i_nlink) = 1 /\ x.(i_size) = data_len data /\ file_ok mkfs_sb V x /\ whole V x /\
    fbytes V x 0 (length data) = data;
  ho_apart n m b : 1 <= n <= Z.of_nat (length fl) + 1 -> 1 <= m <= Z.of_nat (length fl) + 1 -> n <> m ->
    let x := dnode mkfs_sb V n in let y := dnode mkfs_sb V m in
    owns (ind_block x) (fblock V x) b -> ~ owns (ind_block y) (fblock V y) b;
}.

Lemma root_entries_names nms : (root_entries nms).*2 = chars "." :: chars ".." :: nms.
Proof.
  change ((root_entries nms).*2) with (chars "." :: chars ".." :: (imap (fun j name => (Z.of_nat j + 2, name)) nms).*2).
  do 2 f_equal. rewrite fmap_imap. apply list_eq. intros i. rewrite list_lookup_imap. by destruct (nms !! i).
Qed.

Section final.
Context (V : Z -> list Z) (fi fb : Z) (rd : dinode) (fl : list (list Z * list Z)) (fds : list (dinode * list Z)).
Context (HI : image_ok V fi fb ((rd, padded (root_bytes fl.*1)) :: fds)) (Hrd : plain T_DIR (rd, padded (root_bytes fl.*1))).
Context (Hf : Forall2 (fun d f => d.2 = f.2 /\ plain T_FILE d) fds fl).
Context (Hcl : Forall clean fl.*1) (Hn : (length fl <= 198)%nat) (Hnd : NoDup (chars "." :: chars ".." :: fl.*1)).
Context (Hmax : Forall (fun f => data_len f.2 <= MAXFILE * BSIZE) fl).
Context (Hfb : fb <= FSSIZE) (Hbit : forall b, 0 <= b < FSSIZE -> bit mkfs_sb V b = (b <? fb)).

#[local] Abbreviation ds := ((rd, padded (root_bytes fl.*1)) :: fds).

Lemma final_count : (length fl.*1 <= 198)%nat.
Proof using Hn. by rewrite length_fmap. Qed.

Lemma final_nodup : NoDup (root_entries fl.*1).*2.
Proof using Hnd. by rewrite root_entries_names. Qed.

Lemma final_at n : 1 <= n <= Z.of_nat (length fl) + 1 -> exists i d, ds !! i = Some d /\ n = Z.of_nat i + 1.
Proof using Hf Hn.
  intros Hr. destruct (lookup_lt_is_Some_2 ds (Z.to_nat (n - 1))) as [d Hd].
  { cbn. rewrite (Forall2_length _ _ _ Hf). lia. }
  exists (Z.to_nat (n - 1)), d. split; [done|lia].
Qed.

Lemma final_file j name data : fl !! j = Some (name, data) -> exists d, ds !! S j = Some (d, data) /\ plain T_FILE (d, data).
Proof using Hf.
  intros Hj. destruct (Forall2_lookup_r _ _ _ _ _ Hf Hj) as ([d data'] & Hd & E & Hp). cbn in E. subst data'. by exists d.
Qed.

Lemma final_plain i d : ds !! i = Some d -> d.1.(d_nlink) = 1 /\
  (i = 0%nat /\ d.1.(d_type) = T_DIR \/ i <> 0%nat /\ d.1.(d_type) = T_FILE).
Proof using Hf Hrd.
  destruct i as [|i].
  - intros [= <-]. unfold plain in Hrd. cbn [fst snd] in *. rewrite Hrd. cbn. auto.
  - intros Hi. destruct (Forall2_lookup_l _ _ _ _ _ Hf Hi) as (f & _ & _ & Hp). unfold plain in Hp. rewrite Hp. cbn. auto.
Qed.

Lemma final_root : dnode mkfs_sb V ROOTINO = node ROOTINO rd.
Proof using HI. exact (seen_inode V fi fb ds HI 0 (rd, _) eq_refl). Qed.

Lemma final_dir : dir_ok mkfs_sb V (node ROOTINO rd).
Proof using HI Hrd Hn Hfb Hbit.
  destruct (root_len rd fl.*1 Hrd final_count) as (H1 & H2 & _).
  change (node ROOTINO rd) with (node (Z.of_nat 0 + 1) (rd, padded (root_bytes fl.*1)).1). split.
  - unfold plain in Hrd. cbn [fst snd] in *. by rewrite Hrd.
  - change (i_size _) with (d_size rd). unfold plain in Hrd. cbn [fst snd] in Hrd. rewrite Hrd. cbn [d_size]. unfold sizeof_dirent. dlia.
  - by eapply seen_file.
  - by eapply seen_whole.
Qed.

Lemma final_kind n : 1 <= n <= Z.of_nat (length fl) + 1 ->
  (dnode mkfs_sb V n).(i_nlink) = 1 /\
  (n = ROOTINO /\ (dnode mkfs_sb V n).(i_type) = T_DIR \/ (dnode mkfs_sb V n).(i_type) = T_FILE).
Proof using HI Hrd Hf Hn.
  intros (i & d & Hi & ->)%final_at. rewrite (seen_inode V fi fb ds HI i d Hi).
  change (i_type _) with (d_type d.1). change (i_nlink _) with (d_nlink d.1).
  destruct (final_plain i d Hi) as [-> [[-> ->]|[_ ->]]]; split; auto.
Qed.

Lemma final_links n : 1 <= n <= Z.of_nat (length fl) + 1 -> (dnode mkfs_sb V n).(i_nlink) = 1.
Proof using HI Hrd Hf Hn. intros Hr. by destruct (final_kind n Hr). Qed.

Lemma final_free n : Z.of_nat (length fl) + 1 < n < NINODES -> (dnode mkfs_sb V n).(i_type) = 0.
Proof using HI Hf Hn.
  intros Hr. rewrite dnode_node. pose proof (im_count _ _ _ _ HI) as Hc. cbn [length] in Hc.
  rewrite (Forall2_length _ _ _ Hf) in Hc. apply (im_free _ _ _ _ HI). lia.
Qed.

Lemma final_tree : tree_ok mkfs_sb V (fun n => 1 <= n <= Z.of_nat (length fl) + 1).
Proof using HI Hrd Hf Hcl Hn Hfb Hbit.
  split.
  - intros n Hr. by destruct (final_kind n Hr) as [_ [[_ ->]| ->]].
  - intros n Hr. by destruct (final_kind n Hr) as [-> _].
  - intros n Hr. destruct (final_kind n Hr) as [_ [[-> _]| ->]]; [|done]. intros _. rewrite final_root. apply final_dir.
  - intros n k Hr. destruct (final_kind n Hr) as [_ [[-> _]| ->]]; [|done]. intros _. rewrite final_root. intros Hk.
    rewrite (root_inum V fi fb rd fl.*1 fds HI Hrd Hcl final_count k Hk).
    destruct (root_entries fl.*1 !! k) as [e|] eqn:E; [|done]. intros _.
    destruct (root_entry fl.*1 Hcl final_count k e E) as [He _]. by rewrite length_fmap in He.
Qed.

Lemma final_find j name data : fl !! j = Some (name, data) -> walk_to mkfs_sb V false ROOTINO [name] = Some (Z.of_nat j + 2).
Proof using HI Hrd Hcl Hn Hnd.
  intros Hj. cbn [walk_to andb]. rewrite final_root. change (i_type _) with (d_type rd).
  assert (fl.*1 !! j = Some name) as Hj1 by (by rewrite list_lookup_fmap, Hj).
  assert (d_type rd = T_DIR) as -> by (unfold plain in Hrd; cbn [fst snd] in Hrd; by rewrite Hrd).
  assert (clean name) as Hc by (by eapply Forall_lookup_1 in Hj1; [|exact Hcl]).
  change (negb (T_DIR =? T_DIR)) with false. cbv iota.
  rewrite (root_find V fi fb rd fl.*1 fds HI Hrd Hcl final_count final_nodup name (S (S j)) (Z.of_nat j + 2)); [done| |].
  - destruct Hc as [Hc _]. eapply Forall_impl; [exact Hc|]. intros c Hb; cbn in Hb; lia.
  - rewrite clean_name_of by done. change (imap (fun j name => (Z.of_nat j + 2, name)) fl.*1 !! j = Some (Z.of_nat j + 2, name)).
    by rewrite list_lookup_imap, Hj1.
Qed.

Lemma final_none name : chars_ok name -> name_of name ∉ chars "." :: chars ".." :: fl.*1 ->
  walk_to mkfs_sb V false ROOTINO [name] = None.
Proof using HI Hrd Hcl Hn.
  intros Hc Hno. cbn [walk_to andb]. rewrite final_root, root_not_found with (fi := fi) (fb := fb) (nms := fl.*1) (fds := fds);
    [by destruct (negb _)|done..|exact final_count|done|by rewrite root_entries_names].
Qed.

Lemma final_contents j name data : fl !! j = Some (name, data) -> let x := dnode mkfs_sb V (Z.of_nat j + 2) in
  x.(i_type) = T_FILE /\ x.(i_nlink) = 1 /\ x.(i_size) = data_len data /\ file_ok mkfs_sb V x /\ whole V x /\
  fbytes V x 0 (length data) = data.
Proof using HI Hf Hmax Hfb Hbit Hn.
  intros Hj x. destruct (final_file j name data Hj) as (d & Hd & Hp).
  assert (x = node (Z.of_nat (S j) + 1) (d, data).1) as ->.
  { unfold x. replace (Z.of_nat j + 2) with (Z.of_nat (S j) + 1) by lia. exact (seen_inode V fi fb ds HI _ _ Hd). }
  assert (data_len data <= MAXFILE * BSIZE) as Hm by (eapply (Forall_lookup_1 _ _ _ _ Hmax) in Hj; done).
  assert (d.(d_type) = T_FILE /\ d.(d_nlink) = 1 /\ d.(d_size) = data_len data) as (E1 & E2 & E3).
  { unfold plain in Hp. cbn [fst snd] in Hp. by rewrite Hp. }
  split; [exact E1|]. split; [exact E2|]. split; [exact E3|].
  split; [by eapply (seen_file V fi fb ds HI Hfb Hbit)|]. split; [by eapply (seen_whole V fi fb ds HI)|].
  change 0 with (Z.of_nat 0). rewrite (seen_bytes V fi fb ds HI (S j) (d, data) 0 (length data) Hd); [|cbn; lia|done].
  unfold slice. by rewrite drop_0, firstn_all.
Qed.

Lemma final_apart n m b :
  1 <= n <= Z.of_nat (length fl) + 1 -> 1 <= m <= Z.of_nat (length fl) + 1 -> n <> m ->
  let x := dnode mkfs_sb V n in let y := dnode mkfs_sb V m in
  owns (ind_block x) (fblock V x) b -> ~ owns (ind_block y) (fblock V y) b.
Proof using HI Hf Hn.
  intros (i & d & Hi & ->)%final_at (j & e & Hj & ->)%final_at Hne. rewrite (seen_inode V fi fb ds HI i d Hi).
  rewrite (seen_inode V fi fb ds HI j e Hj). apply (seen_apart V fi fb ds HI i j d e b); [lia|done|done].
Qed.

Lemma final_bitmap : nmeta <= fb -> bitmap_ok mkfs_sb V.
Proof using Hbit Hfb.
  clear Hn. intros Hlo b [Hr Hb]. change (sb_size mkfs_sb) with FSSIZE in Hr. rewrite Hbit in Hb by done. apply Z.ltb_ge in Hb.
  destruct nmeta_val as [N1 N2]. unfold data_block. change (datastart mkfs_sb) with 47. change (sb_size mkfs_sb) with FSSIZE. lia.
Qed.
End final.

Lemma image_ext V W fi fb ds : (forall b, W b = V b) -> image_ok V fi fb ds -> image_ok W fi fb ds.
Proof.
  intros E [Hf Hin Hty Hc Hmax Hfree]. split; try done.
  - apply (files_ok_meta V); [done|by intros|]. intros b. rewrite E. apply Hf.
  - intros i d Hi. unfold inode_in. rewrite E. by apply Hin.
  - intros n Hn. unfold inode_in. rewrite E. by apply Hfree.
Qed.

Section main.
Context (files : list (list Z * option (list (list Z)))) (fl : list (list Z * list Z)).
Context (Hasks : Forall2 asks files fl) (Hcount : (length fl <= 198)%nat) (Hroom : blocks_used fl <= FSSIZE).
Context (Hhole : data_len (root_bytes fl.*1) mod BSIZE <> 0) (Hnd : NoDup (chars "." :: chars ".." :: fl.*1)).

Lemma asks_clean : Forall clean fl.*1 /\ Forall (fun f => data_len f.2 <= MAXFILE * BSIZE) fl.
Proof using Hasks.
  split.
  - apply Forall_fmap. eapply Forall2_Forall_r; [exact Hasks|]. apply Forall_true. intros file f [A1 A2 A3 A4 A5 A6]. by split.
  - eapply Forall2_Forall_r; [exact Hasks|]. apply Forall_true. by intros file f [A1 A2 A3 A4 A5 A6].
Qed.

Lemma main_spec B : wpx B (main files) (fun _ s' => length s'.(fsimg) = Z.to_nat FSSIZE /\ holds (view s'.(fsimg)) fl) mkfs_start.
Proof using Hasks Hcount Hroom Hhole Hnd.
  unfold main. apply wpx_bind, wpx_modify. cbn [fsimg freeinode freeblock mkfs_start].
  apply wpx_bind. eapply wpx_mono; [by apply zero_all|]. intros [] s1 Hs1. destruct nmeta_val as [N1 N2].
  apply wpx_bind. eapply wpx_mono; [apply (wsect_spec B s1 _ 1 nmeta 1 _ Hs1); lia|]. intros [] s2 Hs2.
  set (V1 := <[1 := _]> _) in Hs2. assert (image_ok V1 1 nmeta []) as HI1.
  { apply image_empty; intros b; unfold V1.
    - intros Hb. by rewrite fn_lookup_insert_ne by lia.
    - destruct (decide (b = 1)) as [->|]; [by rewrite fn_lookup_insert|by rewrite fn_lookup_insert_ne]. }
  apply (make_root B s2 V1); [done|done|]. intros s3 Hm3.
  apply wpx_bind. eapply wpx_mono; [by apply (install_all B V1 files fl)|]. intros [] s4 (V4 & fi & fb & ds & Hs4 & HI4 & Hb4 & Hh4).
  pose proof (image_blocks _ _ _ _ HI4) as Efb. rewrite (built_sum _ _ Hb4) in Efb. destruct Hb4 as (rd & fds & -> & Hrd & Hf).
  apply wpx_bind. eapply wpx_mono.
  { apply (fix_root_spec B s4 V4 fi fb rd _ fds Hs4 HI4 Hrd Hhole).
    unfold data_len. rewrite length_root_bytes, length_fmap. lia. }
  intros [] s5 (V5 & rd' & Hs5 & HI5 & Hrd' & Hh5). apply wpx_bind, wpx_gets. rewrite (sh_block _ _ _ _ Hs5).
  pose proof (files_fb _ _ _ _ _ (im_files _ _ _ _ HI5)) as Hlo.
  eapply wpx_mono; [apply (write_map_spec B s5 V5 fi fb _ Hs5 HI5); lia|]. intros [] s6 (V6 & Hs6 & HI6 & Hh6 & Hbit).
  split; [apply Hs6|]. pose proof (sh_blocks _ _ _ _ Hs6) as EW. set (W := view s6.(fsimg)) in *.
  apply (image_ext V6 W) in HI6; [|done].
  assert (forall b, 0 <= b < FSSIZE -> bit mkfs_sb W b = (b <? fb)) as HbitW by (intros b Hb; unfold bit; rewrite EW; by apply Hbit).
  assert (forall b, b < 33 -> W b = V1 b) as Hhead by (intros b Hb; rewrite EW, Hh6, Hh5, Hh4 by done; done).
  destruct asks_clean as [Hcl Hmax]. assert (fb <= FSSIZE) as Hfb by lia.
  split; try (by eauto using mkfs_layout, final_tree, final_find, final_none, final_contents, final_apart, final_bitmap, final_links, final_free).
  - by rewrite Hhead.
  - intros b Hb. change (sb_inodestart mkfs_sb) with 33 in Hb. rewrite Hhead by lia. unfold V1. by rewrite fn_lookup_insert_ne by lia.
  - rewrite <-Efb. exact HbitW.
Qed.
End main.

(** C5: mkfs builds the image that its command line asks for.  Let every
    argument name a file that can be opened, without '/' after "user/", with
    a name of at most 14 characters, and of at most MAXFILE blocks; let the
    names be distinct, at most 198 of them, and everything fit in FSSIZE
    blocks; and let the entries of the root directory not fill their last
    block.  Then the program succeeds, and the kernel finds on the disk: the
    superblock, an empty log, a free map with just the first blocks in use, a
    directory tree in which a path with one name leads to the inode of that
    file and other names are missing, the other inodes free, and for each file
    its contents, in blocks that no other file has. *)
Theorem mkfs_correct files fl :
  Forall2 asks files fl -> (length fl <= 198)%nat -> blocks_used fl <= FSSIZE ->
  data_len (root_bytes fl.*1) mod BSIZE <> 0 -> NoDup (chars "." :: chars ".." :: fl.*1) ->
  exists s', main files mkfs_start = Ret tt s' /\ length s'.(fsimg) = Z.to_nat FSSIZE /\ holds (view s'.(fsimg)) fl.
Proof.
  intros H1 H2 H3 H4 H5. destruct (wp_run _ _ _ (main_spec files fl H1 H2 H3 H4 H5 (fun _ => False))) as ([] & s' & Hr & HQ).
  exists s'. split; [exact Hr|exact HQ].
Qed.

(** Two files: a program whose contents arrive in two pieces, and a text. *)
Definition demo_files : list (list Z * option (list (list Z))) :=
  [(chars "user/_sh", Some [replicate 1024 7; replicate 500 8]); (chars "README", Some [chars "xv6"])].
Definition demo_fl : list (list Z * list Z) :=
  [(chars "sh", replicate 1024 7 ++ replicate 500 8); (chars "README", chars "xv6")].

Lemma demo_asks : Forall2 asks demo_files demo_fl.
Proof.
  repeat constructor; cbn [fst snd demo_files demo_fl]; try lia; try (vm_compute; discriminate).
  - by apply (bool_decide_unpack (47 ∉ _)).
  - eexists. split; [reflexivity|]. cbn [concat]. by rewrite app_nil_r.
  - by apply (bool_decide_unpack (47 ∉ _)).
  - by eexists.
Qed.

Lemma mkfs_correct_witness :
  exists s', main demo_files mkfs_start = Ret tt s' /\ length s'.(fsimg) = Z.to_nat FSSIZE /\ holds (view s'.(fsimg)) demo_fl.
Proof.
  apply mkfs_correct; [exact demo_asks|cbn; lia|vm_compute; discriminate|vm_compute; discriminate|].
  by apply (bool_decide_unpack (NoDup _)).
Defined.

(** When the entries do fill their last block (two and 62 files make 64), the
    size of the root directory is rounded up to a block that it does not
    have: the invariant that every directory has its blocks is broken. *)
Definition full_files : list (list Z * option (list (list Z))) :=
  map (fun i => ([97; Z.of_nat i + 48], Some [])) (seq 0 62).

Definition root_hole (s : mkfs) : bool :=
  let V := view s.(fsimg) in let x := dnode mkfs_sb V ROOTINO in
  (x.(i_size) =? 2 * BSIZE) && (fblock V x 1 =? 0).

Lemma full_root_directory_has_hole :
  exists s', main full_files mkfs_start = Ret tt s' /\ ~ whole (view s'.(fsimg)) (dnode mkfs_sb (view s'.(fsimg)) ROOTINO).
Proof.
  assert (match main full_files mkfs_start with Ret _ s' => root_hole s' | _ => false end = true) as H by (vm_compute; reflexivity).
  destruct (main full_files mkfs_start) as [[] s'| | |]; try done. exists s'. split; [done|].
  unfold root_hole in H. apply andb_true_iff in H as [H1%Z.eqb_eq H2%Z.eqb_eq]. intros [_ Hw].
  destruct (Hw 1024) as [_ Hz]; [rewrite H1; done|]. by apply Hz.
Qed.
