(* ===== verification/Fsinit.v ===== *)
(** * The file system at boot

    fsinit() on a machine that has just booted: it reads the superblock,
    recovers the log and looks for inodes without links.  Applied to the disk
    that mkfs builds, it gives the state from which the file system's
    operations are verified, and the files can be found. *)

From stdpp Require Import functions.
From S2P Require Import Prelude Memory Riscv Machine Spinlock Kalloc Vm Sched Sleeplock Dyn Bytes Ring Bio Bcache Log Dstate Binit LogSpec Crash Fs FsState FsAlloc FsInode FsTable FsFile FsIo FsPath Mkfs MkfsFiles MkfsSpec MkfsOk.

(** No inode in use lacks a link. *)
Definition no_orphans (sb : superblock) (V : Z -> list Z) : Prop :=
  forall n, 1 <= n < sb.(sb_ninodes) -> (dnode sb V n).(i_type) = 0 \/ (dnode sb V n).(i_nlink) <> 0.

Section boot.
Context (pid : Z) (h0 : hart) (env : list turn) (s : kstate) (B : world -> Prop).

(** readsb() *)
Lemma st_readsb D lg tr d w :
  st pid h0 env s D lg tr d (disk_at d) norefs nolocks w ->
  wpx B (readsb ROOTDEV)
    (fun _ => st pid h0 env s (set_d_sb (decode_sb (disk_at d 1)) D) lg tr d (disk_at d) norefs nolocks) w.
Proof.
  intros HI. unfold readsb.
  wcall st_bread; [exact HI|done|unfold norefs; lia|intros _; by apply (roomy_inst true [] 0)|]. clear w HI. intros b w HI.
  assert ((<[1 := Some b]> nolocks) 1 = Some b) as HO by (by rewrite fn_lookup_insert).
  wcall st_get_buf; [exact HI|exact HO|]. clear w HI. intros x w ((h & D1 & -> & HA) & -> & _).
  set (SB := decode_sb _). destruct HA as [A1 A2 A3 A4 A5 A6 A7 A8 A9].
  apply wpx_bind. eapply (wpx_dmod _ _ _ _ _ _ _ _ (set_d_sb SB D1)); [done|].
  eapply wpx_mono; [eapply (st_brelse pid h0 env s (set_d_sb SB D) _ lg tr d (disk_at d) _ _ _ 1); [|exact HO|..]|].
  - exists h, (set_d_sb SB D1). split; [done|]. split; try done; [destruct A8; by split|by apply (cache_frame pid D1)].
  - fns.
  - done.
  - cbn beta. intros _ w' HI'. eapply st_ext; [exact HI'|done|fns|fns].
Qed.

(** ireclaim() when there is nothing to reclaim *)
Lemma ireclaim_none L P SB start d out it tr V w :
  fsys pid h0 env s L P SB start d out it tr [] V nolocks w -> no_orphans SB V ->
  wpx B (ireclaim ROOTDEV) (fun _ => fsys pid h0 env s L P SB start d out it tr [] V nolocks) w.
Proof.
  intros HI Hno. unfold ireclaim. wcall fsys_get_sb; [exact HI|]. clear w HI. intros ? w [-> HI].
  apply (wpx_for_each _ _ _ (fun _ => fsys pid h0 env s L P SB start d out it tr [] V nolocks)); [exact HI| |done].
  clear w HI. intros l1 k l2 w El HI.
  assert (1 <= Z.of_nat k < SB.(sb_ninodes)) as Hk.
  { assert (k ∈ seq 1 (Z.to_nat (sb_ninodes SB - 1))) as Hin by (rewrite El; set_solver). apply elem_of_seq in Hin. lia. }
  set (b := IBLOCK (Z.of_nat k) SB).
  wcall (fsys_bread pid h0 env s B L P SB start d out it tr [] V nolocks w [] b);
    [exact HI|done|apply holds_nolocks|cbn; unfold NBUF; lia|]. clear w HI. intros p w [HI Hcl].
  assert ((<[b := Some p]> nolocks) b = Some p) as HO by (by rewrite fn_lookup_insert).
  wcall fsys_get_buf; [exact HI|exact HO|]. clear w HI. intros x w [HI ->].
  assert (negb (di_type (dinode_off (Z.of_nat k)) (V b) =? 0) && (di_nlink (dinode_off (Z.of_nat k)) (V b) =? 0) = false) as ->.
  { destruct (Hno (Z.of_nat k) Hk) as [E|E].
    - change (di_type (dinode_off (Z.of_nat k)) (V b) = 0) in E. by rewrite E.
    - change (di_nlink (dinode_off (Z.of_nat k)) (V b) <> 0) in E. rewrite (proj2 (Z.eqb_neq _ _) E). apply andb_false_r. }
  apply wpx_bind, wpx_ret. wcall fsys_brelse; [exact HI|exact HO|exact Hcl|]. clear w HI. intros _ w HI.
  apply wpx_ret. eapply fsys_ext; [exact HI|done|]. fns.
Qed.

(** fsinit() *)
Lemma fsinit_spec D lg tr d w :
  let SB := decode_sb (disk_at d 1) in
  let W := recover_writes SB.(sb_logstart) d in
  st pid h0 env s D lg tr d (disk_at d) norefs nolocks w ->
  length lg.(lg_block) = Z.to_nat LOGBLOCKS -> lg.(lg_committing) = 0 ->
  SB.(sb_magic) = FSMAGIC -> log_wf SB.(sb_logstart) d -> no_orphans SB (disk_at (dwr d W)) ->
  wpx B (fsinit ROOTDEV) (fun _ w' => exists L tr',
    fsys pid h0 env s L D.(d_procs) SB SB.(sb_logstart) (dwr d W) lg.(lg_outstanding) D.(d_itable) (tr ++ tr') []
      (disk_at (dwr d W)) nolocks w' /\ disk_trace tr' = W) w.
Proof.
  intros SB W HI Hlen Hcom Hmagic Hwf Hno. unfold fsinit. wcall st_readsb; [exact HI|]. clear w HI. intros _ w HI. fold SB in HI.
  eapply (wpx_call _ _ _ (fun x w' => x = SB /\ st pid h0 env s (set_d_sb SB D) lg tr d (disk_at d) norefs nolocks w')).
  { destruct HI as (h & D1 & -> & HA). apply wpx_dget. split; [by destruct HA|by exists h, D1]. }
  clear w HI. intros ? w [-> HI]. rewrite Hmagic, Z.eqb_refl. cbn [negb].
  wcall st_initlog_ops; [exact HI|exact Hlen|exact Hwf|]. clear w HI. fold W.
  intros _ w (lg' & tr' & HI & Htr & HT & Hst & Ho & Hc).
  eapply wpx_mono; [eapply ireclaim_none; [|exact Hno]|].
  - exists lg'. eexists. split; [eapply st_ext; [exact HI|done| |done]; intros b; reflexivity|].
    split_and!; try done; [apply woke_refl|constructor|congruence].
  - cbn beta. intros _ w' HI'. eauto.
Qed.
End boot.

(** ** The image of mkfs *)

(** The log is empty, so recovery writes only the header it finds. *)
Lemma image_disk d V fl b :
  holds V fl -> (forall b, disk_at d b = V b) -> disk_at (dwr d (recover_writes 2 d)) b = V b.
Proof.
  intros HV Hd. assert (disk_at d 2 = zeros) as E2 by (rewrite Hd; by apply (ho_log _ _ HV)).
  unfold recover_writes. rewrite E2. change (head_blocks zeros) with (@nil Z). cbn [imap app].
  unfold dwr. cbn [foldl]. unfold disk_at. destruct (decide (b = 2)) as [->|Hne].
  - rewrite lookup_insert_eq. cbn [default]. rewrite <-Hd, E2. vm_compute. reflexivity.
  - rewrite lookup_insert_ne by done. apply Hd.
Qed.

Lemma image_log_wf d V fl : holds V fl -> (forall b, disk_at d b = V b) -> log_wf 2 d.
Proof.
  intros HV Hd. assert (disk_at d 2 = zeros) as E2 by (rewrite Hd; by apply (ho_log _ _ HV)).
  split; rewrite ?E2; [by rewrite LOGBLOCKS_eq|vm_compute; split; congruence|constructor|].
  intros b Hb. by apply not_elem_of_nil in Hb.
Qed.

Lemma image_no_orphans V fl : holds V fl -> no_orphans mkfs_sb V.
Proof.
  intros HV n Hn. change (sb_ninodes mkfs_sb) with NINODES in Hn.
  destruct (decide (n <= Z.of_nat (length fl) + 1)) as [Hle|Hgt].
  - right. rewrite (ho_links _ _ HV) by lia. done.
  - left. apply (ho_free _ _ HV). lia.
Qed.

(** The path that names a file of the root directory. *)
Lemma components_plain name cur : 47 ∉ name -> components cur name = if bool_decide (cur ++ name = []) then [] else [cur ++ name].
Proof.
  revert cur. induction name as [|c name IH]; intros cur Hn; cbn [components]; [by rewrite app_nil_r|].
  apply not_elem_of_cons in Hn as [Hc Hn]. rewrite (proj2 (Z.eqb_neq c 47)) by congruence.
  rewrite IH by done. by rewrite <-app_assoc.
Qed.

Lemma root_path name : 47 ∉ name -> name <> [] -> (length name <= 14)%nat -> path_names (47 :: name) = [name].
Proof.
  intros Hs Hne Hl. unfold path_names. cbn [components Z.eqb Pos.eqb]. rewrite components_plain by done.
  rewrite bool_decide_true by done. rewrite bool_decide_false by done. cbn [app map]. by rewrite take_ge.
Qed.

Lemma asks_slash file f : asks file f -> 47 ∉ f.1.
Proof.
  intros [A1 A2 _ _ _ _]. rewrite A2. unfold strip. destruct (shortname file.1) as [|c l]; [done|].
  destruct (c =? 95); [|done]. by apply not_elem_of_cons in A1 as [_ A1].
Qed.

(** An inode table after iinit(). *)
Definition unused (it : list inode) : Prop :=
  length it = NINODE /\ forall i x, it !! i = Some x -> x.(i_ref) = 0 /\ x.(i_valid) = 0 /\ x.(i_lock).(sl_locked) = 0.

Lemma unused_walking pid sb V it : unused it -> walking pid sb V it [] None.
Proof.
  intros [Hl Hu]. split.
  - split_and!; [split; [done|..]|split|].
    + intros i x Hx. by destruct (Hu _ _ Hx) as (-> & _).
    + intros i j x y Hx _ Hx0. destruct (Hu _ _ Hx) as (E & _). lia.
    + by intros i ?%not_elem_of_nil.
    + intros i x Hx. by destruct (Hu _ _ Hx) as (-> & _).
    + intros i x Hx. left. by destruct (Hu _ _ Hx) as (_ & -> & _).
  - intros i x Hx Hr. destruct (Hu _ _ Hx) as (E & _). lia.
  - intros i x Hx. rewrite decide_False by done. by destruct (Hu _ _ Hx) as (_ & _ & ->).
Qed.

(** What the disk has of a file is the file. *)
Lemma agree_file sb V x y : on_disk y x -> y.(i_dev) = ROOTDEV -> file_ok sb V x -> file_ok sb V y.
Proof.
  intros (_ & _ & _ & _ & _ & E) Hd [_ H2 H3]. split; [done|by rewrite E|].
  unfold fblock, ind_block in *. by rewrite E.
Qed.

Lemma agree_whole V x y : on_disk y x -> whole V x -> whole V y.
Proof.
  intros (_ & _ & _ & _ & Es & E). unfold whole, filled, fblock, ind_block. by rewrite E, Es.
Qed.

Lemma agree_bytes V x y off n : on_disk y x -> fbytes V y off n = fbytes V x off n.
Proof. intros (_ & _ & _ & _ & _ & E). unfold fbytes, fbyte, content, fblock, ind_block. by rewrite E. Qed.

Section image.
Context {I : Image} (pid : Z) (h0 : hart) (env : list turn) (s : kstate) (D : dyn) (lg : logstate) (d : gmap Z (list Z)).
Context (V : Z -> list Z) (fl : list (list Z * list Z)) (HV : holds V fl) (Hd : forall b, disk_at d b = V b).
Context (Hlen : length lg.(lg_block) = Z.to_nat LOGBLOCKS) (Hcom : lg.(lg_committing) = 0) (Hit : unused D.(d_itable)).

Definition mounted (L : gmap Z spinlock) (tr : list event) : world -> Prop :=
  fsys pid h0 env s L D.(d_procs) mkfs_sb 2 (dwr d (recover_writes 2 d)) lg.(lg_outstanding) D.(d_itable) tr [] V nolocks.

(** fsinit() accepts the image and leaves its blocks as they are. *)
Lemma image_fsinit B w :
  st pid h0 env s D lg [] d (disk_at d) norefs nolocks w ->
  wpx B (fsinit ROOTDEV) (fun _ w' => exists L tr, mounted L tr w') w.
Proof using HV Hd Hlen Hcom.
  intros HI. assert (decode_sb (disk_at d 1) = mkfs_sb) as Esb by (rewrite Hd; apply (ho_super _ _ HV)).
  pose proof (fsinit_spec pid h0 env s B D lg [] d w) as H. cbv zeta in H. rewrite Esb in H.
  change (sb_logstart mkfs_sb) with 2 in H.
  assert (forall b, V b = disk_at (dwr d (recover_writes 2 d)) b) as E by (intros b; symmetry; by apply (image_disk d V fl)).
  eapply wpx_mono; [apply H; [exact HI|exact Hlen|exact Hcom|done|by eapply image_log_wf|]|].
  - intros n Hn. unfold dnode, loaded. rewrite <-E. by apply (image_no_orphans V fl).
  - cbn beta. intros _ w' (L & tr & HI' & _). exists L, tr. eapply fsys_ext; [exact HI'|exact E|done].
Qed.

(** A file is found at its path, and its contents are read. *)
Lemma image_read B L tr w me p j name data n :
  mounted L tr w ->
  h0.(h_proc) = Some me -> D.(d_procs) !! me = Some p ->
  fl !! j = Some (name, data) -> path_names (47 :: name) = [name] -> data_len data <= n < 2 ^ 32 ->
  wpx B (namex (47 :: name) false) (fun r w1 => exists i, r = (Some i, name) /\
    wpx B (ilock (Some i)) (fun _ w2 =>
      wpx B (readi i DstLocal 0 n) (fun r w3 => r = (data_len data, data)) w2) w1) w.
Proof using HV Hit.
  clear Hlen. intros HI Hme Hp Hj Hpath Hn. pose proof (ho_tree _ _ HV) as HT. assert (0 <= data_len data) as H0 by (unfold data_len; lia).
  assert ((0 < NBUF)%nat) as Hb by (unfold NBUF; lia). pose proof (lookup_lt_Some _ _ _ Hj) as Hlt.
  eapply wpx_mono; [eapply (namex_spec pid h0 env s B L _ mkfs_sb 2 _ _ V _ HT [] Hb tr false _ [] (47 :: name) ROOTINO w me p);
    [exact HI|by apply unused_walking|cbn; unfold NINODE; lia|done|done|done|unfold ROOTINO; lia]|].
  cbn beta. rewrite Hpath, (ho_find _ _ HV j name data Hj). intros r w1 (it1 & HI1 & i & -> & He & HW1). exists i. split; [done|].
  eapply wpx_mono; [eapply (walk_ilock pid h0 env s B L _ mkfs_sb 2 _ _ V _ HT [] Hb tr it1 [i] i (Z.of_nat j + 2));
    [exact HI1|exact HW1|by left|exact He|lia]|].
  cbn beta. intros _ w2 (it2 & y & HI2 & _ & Hy & Hdev & _ & Ha).
  destruct (ho_file _ _ HV j name data Hj) as (_ & _ & Hsz & Hok & Hwh & Hbytes).
  assert (read_len y 0 n = data_len data) as El.
  { destruct Ha as (_ & _ & _ & _ & Es & _). unfold read_len. rewrite Es, Hsz.
    rewrite Z.gtb_ltb, Z.geb_leb, (proj2 (Z.ltb_ge _ _)), (proj2 (Z.leb_gt _ _)) by lia. cbn [orb]. lia. }
  eapply wpx_mono; [eapply (readi_spec _ _ _ _ _ _ _ _ _ _ DstLocal (fun _ s' => s' = s) it2 tr [] V i y 0 n s);
    [apply local_sink|exact Hy|by eapply agree_file|by eapply agree_whole|exact Hb|lia|lia|done|exact HI2]|].
  cbn beta. intros r w3 [-> _]. rewrite El, (agree_bytes V _ y _ _ Ha). unfold data_len at 2. rewrite Nat2Z.id. by rewrite Hbytes.
Qed.
End image.

(** C6: mkfs and the kernel agree.  Let mkfs succeed on a command line as in
    its own theorem, and let a machine boot with the image on its disk, with an
    empty buffer cache and an empty inode table.  Then fsinit() mounts it, and
    the path of every file leads to an inode that ilock() loads and from which
    readi() reads the bytes that the command line's file had. *)
Theorem mkfs_image_boots {I : Image} pid h0 env s D lg d w files fl img me p :
  Forall2 asks files fl -> (length fl <= 198)%nat -> blocks_used fl <= FSSIZE ->
  data_len (root_bytes fl.*1) mod BSIZE <> 0 -> NoDup (chars "." :: chars ".." :: fl.*1) ->
  main files mkfs_start = Ret tt img -> (forall b, disk_at d b = view img.(fsimg) b) ->
  st pid h0 env s D lg [] d (disk_at d) norefs nolocks w -> length lg.(lg_block) = Z.to_nat LOGBLOCKS ->
  lg.(lg_committing) = 0 -> unused D.(d_itable) -> h0.(h_proc) = Some me -> D.(d_procs) !! me = Some p ->
  exists w0, fsinit ROOTDEV w = Ret tt w0 /\
    forall j name data n, fl !! j = Some (name, data) -> name <> [] -> data_len data <= n < 2 ^ 32 ->
      exists i w1 w2 w3, namex (47 :: name) false w0 = Ret (Some i, name) w1 /\ ilock (Some i) w1 = Ret tt w2 /\
        readi i DstLocal 0 n w2 = Ret (data_len data, data) w3.
Proof.
  intros H1 H2 H3 H4 H5 Hmain Hd HI Hlen Hcom Hit Hme Hp.
  destruct (wp_run _ _ _ (main_spec files fl H1 H2 H3 H4 H5 (fun _ => False))) as ([] & img' & Hr & _ & HV).
  rewrite Hmain in Hr. injection Hr as <-.
  destruct (wp_run _ _ _ (image_fsinit pid h0 env s D lg d _ fl HV Hd Hlen Hcom (fun _ => False) w HI)) as ([] & w0 & Hr0 & L & tr & HM).
  exists w0. split; [exact Hr0|]. intros j name data n Hj Hne Hn.
  assert (path_names (47 :: name) = [name]) as Hpath.
  { destruct (Forall2_lookup_r _ _ _ _ _ H1 Hj) as (file & _ & Ha). pose proof (ask_length _ _ Ha). pose proof (asks_slash _ _ Ha).
    by apply root_path. }
  destruct (wp_run _ _ _ (image_read pid h0 env s D lg d _ fl HV Hit (fun _ => False) L tr w0 me p j name data n HM Hme Hp Hj Hpath Hn))
    as (r & w1 & Hr1 & i & -> & H6).
  destruct (wp_run _ _ _ H6) as ([] & w2 & Hr2 & H7). destruct (wp_run _ _ _ H7) as (r & w3 & Hr3 & ->).
  exists i, w1, w2, w3. split; [exact Hr1|]. split; [exact Hr2|exact Hr3].
Qed.

(** The disk with an image. *)
Definition disk_of (img : list (list Z)) : gmap Z (list Z) := map_seqZ 0 img.

Lemma disk_of_view img b : disk_at (disk_of img) b = view img b.
Proof.
  unfold disk_at, disk_of, view. destruct (Z.ltb_spec b 0) as [Hb|Hb].
  - rewrite lookup_map_seqZ, option_guard_False by lia. done.
  - rewrite lookup_map_seqZ, option_guard_True by done. by rewrite Z.sub_0_r.
Qed.

Lemma view_length img b : forallb (fun l => length l =? bsize)%nat img = true -> length (view img b) = bsize.
Proof.
  intros H. unfold view. destruct (b <? 0); [apply length_replicate|]. destruct (img !! Z.to_nat b) as [l|] eqn:E; [|apply length_replicate].
  cbn. rewrite forallb_forall in H. apply Nat.eqb_eq, H. by eapply list_elem_of_In, list_elem_of_lookup_2.
Qed.

(** Another inode table in the same machine. *)
Lemma st_with_itable pid h0 env s D lg tr d V R O w it :
  st pid h0 env s D lg tr d V R O w -> exists w', st pid h0 env s (set_d_itable it D) lg tr d V R O w'.
Proof.
  intros (h & D1 & -> & [A1 A2 A3 A4 A5 A6 A7 A8 A9]). exists (World h env tr (dset (set_d_itable it D1) s)).
  exists h, (set_d_itable it D1). split; [done|].
  split; try done; [destruct A8; by split|by apply (cache_frame pid D1)].
Qed.

Lemma unused_zero : unused (replicate NINODE zero_inode).
Proof. split; [apply length_replicate|]. by intros i x [-> _]%(lookup_replicate NINODE). Qed.

#[local] Existing Instance small_image.

(** The text README of the demo image is read back from inode 3. *)
Lemma mkfs_image_boots_witness : exists w w0 i w1 w2 w3, fsinit ROOTDEV w = Ret tt w0 /\
  namex (47 :: chars "README") false w0 = Ret (Some i, chars "README") w1 /\ ilock (Some i) w1 = Ret tt w2 /\
  readi i DstLocal 0 100 w2 = Ret (3, chars "xv6") w3.
Proof.
  assert (match main demo_files mkfs_start with Ret _ m => forallb (fun l => length l =? bsize)%nat m.(fsimg) | _ => false end = true)
    as Hl by (vm_compute; reflexivity).
  destruct (main demo_files mkfs_start) as [[] m| | |] eqn:Em; [|discriminate Hl..].
  destruct (boot_st_of zero_kstate (replicate NPROC zero_proc) zero_proc (disk_of m.(fsimg))) as (D & w1 & _ & EP & H1);
    [apply length_replicate|reflexivity|intros b; rewrite disk_of_view; apply view_length; exact Hl|].
  destruct (st_with_itable _ _ _ _ _ _ _ _ _ _ _ _ (replicate NINODE zero_inode) H1) as [w H2].
  destruct (mkfs_image_boots _ _ _ _ _ _ _ w demo_files demo_fl m 0%nat zero_proc demo_asks ltac:(cbn; lia)
    ltac:(vm_compute; discriminate) ltac:(vm_compute; discriminate) ltac:(by apply (bool_decide_unpack (NoDup _))) Em
    (disk_of_view _) H2 eq_refl eq_refl unused_zero eq_refl ltac:(cbn; rewrite EP; reflexivity)) as (w0 & Hr & Hf).
  destruct (Hf 1%nat (chars "README") (chars "xv6") 100 eq_refl ltac:(discriminate) ltac:(vm_compute; split; congruence))
    as (i & w2 & w3 & w4 & Hr1 & Hr2 & Hr3).
  exists w, w0, i, w2, w3, w4. split; [exact Hr|]. split; [exact Hr1|]. split; [exact Hr2|exact Hr3].
Defined.
