(* ===== verification/Uart.v ===== *)
(** * UART driver and kernel printf: kernel/uart.c, kernel/printf.c

    A device is a parameter: what a read of one of its registers returns is a
    function of everything that happened before.  Reads are events
    themselves, so that a register that is polled can change. *)

From S2P Require Import Prelude Memory Riscv Machine Spinlock Kalloc Vm Sched.

Class Device := {
  dev_read : list event -> Z -> Z;  (* the value of a register, given the past *)
  dev_time : list event -> Z;       (* the time CSR *)
  dev_patience : nat                (* how often a busy register is polled at most *)
}.

Section uart.
Context {Dev : Device}.

Definition mmio_read (a : Z) : K Z :=
  v ← gets (fun w => dev_read w.(w_trace) a);
  emit (EvRead a v);;
  mret v.
Definition mmio_write (a v : Z) : K unit := emit (EvMMIO a v).

(** ** kernel/uart.c *)

Definition Reg (reg : Z) : Z := UART0 + reg.
Definition RHR : Z := 0.
Definition THR : Z := 0.
Definition IER : Z := 1.
Definition IER_RX_ENABLE : Z := Z.shiftl 1 0.
Definition IER_TX_ENABLE : Z := Z.shiftl 1 1.
Definition FCR : Z := 2.
Definition FCR_FIFO_ENABLE : Z := Z.shiftl 1 0.
Definition FCR_FIFO_CLEAR : Z := Z.shiftl 3 1.
Definition ISR : Z := 2.
Definition LCR : Z := 3.
Definition LCR_EIGHT_BITS : Z := Z.shiftl 3 0.
Definition LCR_BAUD_LATCH : Z := Z.shiftl 1 7.
Definition LSR : Z := 5.
Definition LSR_RX_READY : Z := Z.shiftl 1 0.
Definition LSR_TX_IDLE : Z := Z.shiftl 1 5.

Definition ReadReg (reg : Z) : K Z := v ← mmio_read (Reg reg); mret (u8 v).
Definition WriteReg (reg v : Z) : K unit := mmio_write (Reg reg) (u8 v).

Definition uartinit : K unit :=
  WriteReg IER 0;;
  WriteReg LCR LCR_BAUD_LATCH;;
  WriteReg 0 3;;
  WriteReg 1 0;;
  WriteReg LCR LCR_EIGHT_BITS;;
  WriteReg FCR (Z.lor FCR_FIFO_ENABLE FCR_FIFO_CLEAR);;
  WriteReg IER (Z.lor IER_TX_ENABLE IER_RX_ENABLE);;
  initlock tx_lock "uart".

(** [while(tx_busy != 0) sleep(&tx_chan, &tx_lock)] *)
Fixpoint uart_wait (fuel : nat) : K unit :=
  busy ← getk tx_busy;
  if busy =? 0 then mret tt else
  match fuel with
  | O => no_fuel
  | S fuel => sleep chan_tx tx_lock;; uart_wait fuel
  end.

Definition uartwrite (buf : list Z) : K unit :=
  acquire tx_lock;;
  for_each buf (fun c =>
    fuel ← gets (fun w => S (length w.(w_env)));
    uart_wait fuel;;
    WriteReg THR c;;
    modk (set_tx_busy 1));;
  release tx_lock.

(** [while((ReadReg(LSR) & LSR_TX_IDLE) == 0) ;] *)
Fixpoint wait_tx_idle (fuel : nat) : K unit :=
  lsr ← ReadReg LSR;
  if Z.land lsr LSR_TX_IDLE =? 0 then
    match fuel with O => no_fuel | S fuel => wait_tx_idle fuel end
  else mret tt.

(** Once [panicked] is set, every hart that prints spins forever. *)
Definition uartputc_sync (c : Z) : K unit :=
  p ← getk panicking;
  when (p =? 0) push_off;;
  dead ← getk panicked;
  if ztrue dead then no_fuel else
  wait_tx_idle dev_patience;;
  WriteReg THR c;;
  p ← getk panicking;
  when (p =? 0) pop_off.

Definition uartgetc : K Z :=
  lsr ← ReadReg LSR;
  if ztrue (Z.land lsr LSR_RX_READY) then ReadReg RHR else mret (-1).

(** ** kernel/console.c *)

Definition BACKSPACE : Z := 0x100.

Definition consputc (c : Z) : K unit :=
  if c =? BACKSPACE then uartputc_sync 8;; uartputc_sync 32;; uartputc_sync 8
  else uartputc_sync c.

End uart.

(** ** kernel/printf.c *)

Definition digits : list Z :=
  chars "0123456789abcdef".

(** The do-while loop of printint(): the digits, least significant first.
    A 64-bit value has at most 64 digits. *)
Fixpoint digits_of (fuel : nat) (x base : Z) : list Z :=
  match fuel with
  | O => []
  | S fuel =>
      let d := digits !!! Z.to_nat (x mod base) in
      if x / base =? 0 then [d] else d :: digits_of fuel (x / base) base
  end.

(** The characters printint() sends to consputc(); [xx] is a [long long]. *)
Definition printint (xx base : Z) (sign : bool) : list Z :=
  let neg := sign && (xx <? 0) in
  let x := u64 (if neg then - xx else xx) in
  rev (digits_of 64 x base ++ (if neg then [45] else [])).

Definition printptr (x : Z) : list Z :=
  [48; 120] ++ map (fun i => digits !!! Z.to_nat (Z.shiftr (u64 (Z.shiftl x (4 * Z.of_nat i))) 60)) (seq 0 16).

(** An argument of printf(): an integer register, or a string. *)
Inductive parg := PInt (v : Z) | PStr (s : option (list Z)).

Definition arg_val (a : option parg) : Z := match a with Some (PInt v) => v | _ => 0 end.
Definition arg_str (a : option parg) : list Z :=
  match a with
  | Some (PStr (Some s)) => s
  | _ => chars "(null)"
  end.

(** Signed and unsigned readings of an argument register. *)
Definition s64 (x : Z) : Z := (x + 2 ^ 63) mod 2 ^ 64 - 2 ^ 63.

(** One conversion after '%': what is printed, how many more characters of
    the format are consumed, and whether an argument is used; [None] ends the
    loop. *)
Definition convert (c0 c1 c2 : Z) (a : option parg) : option (list Z * nat * bool) :=
  if c0 =? 100 then Some (printint (s32 (arg_val a)) 10 true, 0%nat, true)
  else if (c0 =? 108) && (c1 =? 100) then Some (printint (s64 (arg_val a)) 10 true, 1%nat, true)
  else if (c0 =? 108) && (c1 =? 108) && (c2 =? 100) then Some (printint (s64 (arg_val a)) 10 true, 2%nat, true)
  else if c0 =? 117 then Some (printint (u32 (arg_val a)) 10 false, 0%nat, true)
  else if (c0 =? 108) && (c1 =? 117) then Some (printint (s64 (arg_val a)) 10 false, 1%nat, true)
  else if (c0 =? 108) && (c1 =? 108) && (c2 =? 117) then Some (printint (s64 (arg_val a)) 10 false, 2%nat, true)
  else if c0 =? 120 then Some (printint (u32 (arg_val a)) 16 false, 0%nat, true)
  else if (c0 =? 108) && (c1 =? 120) then Some (printint (s64 (arg_val a)) 16 false, 1%nat, true)
  else if (c0 =? 108) && (c1 =? 108) && (c2 =? 120) then Some (printint (s64 (arg_val a)) 16 false, 2%nat, true)
  else if c0 =? 112 then Some (printptr (u64 (arg_val a)), 0%nat, true)
  else if c0 =? 99 then Some ([u32 (arg_val a)], 0%nat, true)
  else if c0 =? 115 then Some (arg_str a, 0%nat, true)
  else if c0 =? 37 then Some ([37], 0%nat, false)
  else if c0 =? 0 then None
  else Some ([37; c0], 0%nat, false).

(** The characters printf() sends to consputc().  The format is a string
    without its NUL. *)
Fixpoint printf_chars (fuel : nat) (fmt : list Z) (args : list parg) : list Z :=
  match fuel, fmt with
  | S fuel, cx :: fmt =>
      if negb (cx =? 37) then cx :: printf_chars fuel fmt args else
      let c0 := hd 0 fmt in
      let c1 := if ztrue c0 then hd 0 (tl fmt) else 0 in
      let c2 := if ztrue c1 then hd 0 (tl (tl fmt)) else 0 in
      match convert c0 c1 c2 (head args) with
      | None => []
      | Some (out, more, used) =>
          out ++ printf_chars fuel (drop (S more) fmt) (if used : bool then tl args else args)
      end
  | _, _ => []
  end.

Section printf.
Context {Dev : Device}.

Definition printf (fmt : list Z) (args : list parg) : K unit :=
  p ← getk panicking;
  when (p =? 0) (acquire pr_lock);;
  for_each (printf_chars (length fmt) fmt args) consputc;;
  p ← getk panicking;
  when (p =? 0) (release pr_lock).

Definition printfinit : K unit := initlock pr_lock "pr".

(** panic(): print and never return. *)
Definition kpanic (s : list Z) : K unit :=
  modk (set_panicking 1);;
  printf (chars "panic: ") [];;
  printf (chars "%s" ++ [10]) [PStr (Some s)];;
  modk (set_panicked 1);;
  no_fuel.

End printf.

(** * Console output

    What uartputc_sync(), consputc() and printf() send to the UART, for a
    device whose transmitter becomes idle again within the bound on polling.
    [uart_out] is the sequence of bytes written to the transmit register. *)

Definition uart_out (tr : list event) : list Z :=
  omap (fun e => match e with EvMMIO a v => if a =? Reg THR then Some v else None | _ => None end) tr.

Lemma uart_out_app tr tr' : uart_out (tr ++ tr') = uart_out tr ++ uart_out tr'.
Proof. apply omap_app. Qed.

(** The bytes that consputc() sends for a character. *)
Definition cons_bytes (c : Z) : list Z := if c =? BACKSPACE then [8; 32; 8] else [u8 c].

Section output.
Context {Dev : Device}.

(** The transmitter is seen idle within [n] more polls. *)
Fixpoint idle_within (n : nat) (tr : list event) : bool :=
  let v := dev_read tr (Reg LSR) in
  if Z.land (u8 v) LSR_TX_IDLE =? 0 then
    match n with O => false | S n => idle_within n (tr ++ [EvRead (Reg LSR) v]) end
  else true.

Class UartReady : Prop := uart_ready tr : idle_within dev_patience tr = true.

Lemma wait_tx_idle_run n : forall h env tr s, idle_within n tr = true ->
  exists tr', wait_tx_idle n (World h env tr s) = Ret tt (World h env tr' s) /\ uart_out tr' = uart_out tr.
Proof.
  induction n as [|n IH]; intros h env tr s Hi; cbn [wait_tx_idle idle_within] in *;
    unfold ReadReg, mmio_read; erewrite bind_run by reflexivity; cbn;
    destruct (Z.land (u8 (dev_read tr (Reg LSR))) LSR_TX_IDLE =? 0) eqn:E; try done.
  - eexists. split; [done|]. rewrite uart_out_app. cbn. by rewrite app_nil_r.
  - destruct (IH h env _ s Hi) as (tr' & Hr & Ho). exists tr'. split; [exact Hr|].
    rewrite Ho, uart_out_app. cbn. by rewrite app_nil_r.
  - eexists. split; [done|]. rewrite uart_out_app. cbn. by rewrite app_nil_r.
Qed.

Context {Ready : UartReady}.

(** The states in which printing works. *)
Definition printable (s : kstate) : Prop := s.(panicking) = 0 /\ s.(panicked) = 0.

Lemma uartputc_sync_run c h env tr s :
  hart_ok h -> printable s ->
  exists tr', uartputc_sync c (World h env tr s) = Ret tt (World (settle h) env tr' s) /\
    uart_out tr' = uart_out tr ++ [u8 c].
Proof using Ready.
  intros Hh [Hp Hd].
  destruct (wait_tx_idle_run dev_patience (hart_push h) env tr s (uart_ready tr)) as (tr1 & Hw & Ho).
  exists (tr1 ++ [EvMMIO (Reg THR) (u8 c)]). split.
  - unfold uartputc_sync. erewrite bind_run by reflexivity. cbn [w_st]. rewrite Hp. cbn [Z.eqb when].
    erewrite bind_run by apply push_off_run. erewrite bind_run by reflexivity. cbn [w_st set_w_hart].
    rewrite Hd. change (ztrue 0) with false. cbv iota. erewrite bind_run by exact Hw.
    erewrite bind_run by reflexivity. erewrite bind_run by reflexivity. cbn [w_st set_w_trace].
    rewrite Hp. cbn [Z.eqb when]. pose proof (hart_push_ok h Hh) as [Hn Hs]. destruct Hh as [Hh1 Hh2].
    rewrite pop_off_run; cbn [w_hart set_w_trace]; [|cbn; lia|apply Hs; cbn; lia].
    unfold set_w_hart. cbn. by rewrite hart_pop_push.
  - rewrite uart_out_app, Ho. done.
Qed.

Lemma consputc_run c h env tr s :
  hart_ok h -> printable s ->
  exists tr', consputc c (World h env tr s) = Ret tt (World (settle h) env tr' s) /\
    uart_out tr' = uart_out tr ++ cons_bytes c.
Proof using Ready.
  intros Hh Hp. unfold consputc, cons_bytes. destruct (c =? BACKSPACE); [|by apply uartputc_sync_run].
  pose proof (settle_ok h Hh) as Hs.
  destruct (uartputc_sync_run 8 h env tr s Hh Hp) as (t1 & R1 & O1).
  destruct (uartputc_sync_run 32 (settle h) env t1 s Hs Hp) as (t2 & R2 & O2).
  destruct (uartputc_sync_run 8 (settle h) env t2 s Hs Hp) as (t3 & R3 & O3). rewrite settle_idemp in *.
  exists t3. split; [|by rewrite O3, O2, O1, <-!app_assoc].
  by erewrite bind_run, bind_run by (exact R1 || exact R2).
Qed.

Lemma put_chars_run l : forall h env tr s,
  hart_ok h -> settle h = h -> printable s ->
  exists tr', for_each l consputc (World h env tr s) = Ret tt (World h env tr' s) /\
    uart_out tr' = uart_out tr ++ concat (cons_bytes <$> l).
Proof using Ready.
  induction l as [|c l IH]; intros h env tr s Hh Hset Hp; cbn [for_each].
  { exists tr. split; [done|]. cbn. by rewrite app_nil_r. }
  destruct (consputc_run c h env tr s Hh Hp) as (t1 & R1 & O1). rewrite Hset in R1.
  destruct (IH h env t1 s Hh Hset Hp) as (t2 & R2 & O2).
  exists t2. split; [by erewrite bind_run by exact R1|]. rewrite O2, O1. cbn. by rewrite app_assoc.
Qed.

Lemma printf_run fmt args h env tr s :
  hart_ok h -> printable s -> lock_free s pr_lock ->
  exists tr', printf fmt args (World h env tr s) = Ret tt (World (settle h) env tr' s) /\
    uart_out tr' = uart_out tr ++ concat (cons_bytes <$> printf_chars (length fmt) fmt args).
Proof using Ready.
  intros Hh Hp HL. pose proof (hart_push_ok h Hh) as Hh1. destruct HL as [name HL].
  set (s1 := set_locks (lock_by h.(h_tp) pr_lock s.(locks)) s).
  destruct (put_chars_run (printf_chars (length fmt) fmt args) (hart_push h) env tr s1 Hh1
    (settle_push h Hh) Hp) as (t1 & R1 & O1).
  exists t1. split; [|exact O1]. unfold printf. erewrite bind_run by reflexivity. cbn [w_st].
  destruct Hp as [Hp Hd]. rewrite Hp. cbn [Z.eqb when]. erewrite bind_run by (apply acquire_run; by exists name).
  unfold acquired, set_w_hart, set_w_st. cbn [w_hart w_env w_trace w_st]. fold s1.
  erewrite bind_run by exact R1. erewrite bind_run by reflexivity. cbn [w_st].
  change (panicking s1) with s.(panicking). rewrite Hp. cbn [Z.eqb when].
  rewrite (release_locked_run _ h _ _ _ s.(locks)) by (done || by exists name). unfold s1. by destruct s.
Qed.

End output.

(** ** Numbers

    The value of a digit character, and of a numeral with the least
    significant digit first. *)

Definition digit_value (c : Z) : Z := if c <? 58 then c - 48 else c - 87.
Definition numeral (base : Z) (l : list Z) : Z := foldr (fun c acc => digit_value c + base * acc) 0 l.

Lemma digit_value_digits d : 0 <= d < 16 -> digit_value (digits !!! Z.to_nat d) = d.
Proof.
  intros Hd. assert (H : forallb (fun n => digit_value (digits !!! n) =? Z.of_nat n) (seq 0 16) = true) by done.
  rewrite forallb_forall in H. specialize (H (Z.to_nat d)). rewrite in_seq in H.
  specialize (H ltac:(lia)). apply Z.eqb_eq in H. lia.
Qed.

Lemma numeral_cons base c l : numeral base (c :: l) = digit_value c + base * numeral base l.
Proof. done. Qed.

Lemma digits_of_S fuel x base : digits_of (S fuel) x base =
  digits !!! Z.to_nat (x mod base) :: if x / base =? 0 then [] else digits_of fuel (x / base) base.
Proof. cbn. by destruct (x / base =? 0). Qed.

(** printint()'s digits denote its argument. *)
Lemma digits_of_numeral base : 2 <= base <= 16 -> forall fuel x,
  0 <= x < base ^ Z.of_nat (S fuel) -> numeral base (digits_of (S fuel) x base) = x.
Proof.
  intros Hb. induction fuel as [|fuel IH]; intros x Hx; rewrite digits_of_S, numeral_cons;
    (rewrite digit_value_digits by (pose proof (Z.mod_pos_bound x base); lia));
    pose proof (Z.div_mod x base ltac:(lia)) as Hdm.
  - change (Z.of_nat 1) with 1 in Hx. rewrite Z.pow_1_r in Hx. rewrite (Z.div_small x) in * by done. cbn. lia.
  - destruct (Z.eqb_spec (x / base) 0) as [E|Hne]; [rewrite E in Hdm; cbn; lia|]. rewrite IH; [lia|].
    rewrite (Nat2Z.inj_succ (S fuel)), Z.pow_succ_r in Hx by lia.
    split; [apply Z.div_pos; lia|apply Z.div_lt_upper_bound; lia].
Qed.
