(* ===== verification/Virtio.v ===== *)
(** * Disk driver: kernel/virtio_disk.c

    The queue pages are shared with the device; their contents are fields of
    [vdisk].  The code that runs the buffer cache uses [disk_rw] of [Bio],
    one atomic transfer; this file has the driver behind it. *)

From S2P Require Import Prelude Memory CString Riscv Machine Spinlock Kalloc Vm Sched Sleeplock Bytes Bio Uart.

(** ** kernel/virtio.h *)

(** The control registers. *)
Inductive mmio_reg :=
| VIRTIO_MMIO_MAGIC_VALUE | VIRTIO_MMIO_VERSION | VIRTIO_MMIO_DEVICE_ID | VIRTIO_MMIO_VENDOR_ID
| VIRTIO_MMIO_DEVICE_FEATURES | VIRTIO_MMIO_DRIVER_FEATURES | VIRTIO_MMIO_QUEUE_SEL | VIRTIO_MMIO_QUEUE_NUM_MAX
| VIRTIO_MMIO_QUEUE_NUM | VIRTIO_MMIO_QUEUE_READY | VIRTIO_MMIO_QUEUE_NOTIFY | VIRTIO_MMIO_INTERRUPT_STATUS
| VIRTIO_MMIO_INTERRUPT_ACK | VIRTIO_MMIO_STATUS | VIRTIO_MMIO_QUEUE_DESC_LOW | VIRTIO_MMIO_QUEUE_DESC_HIGH
| VIRTIO_MMIO_DRIVER_DESC_LOW | VIRTIO_MMIO_DRIVER_DESC_HIGH | VIRTIO_MMIO_DEVICE_DESC_LOW | VIRTIO_MMIO_DEVICE_DESC_HIGH.

Definition mmio_off (r : mmio_reg) : Z :=
  match r with
  | VIRTIO_MMIO_MAGIC_VALUE => 0x000
  | VIRTIO_MMIO_VERSION => 0x004
  | VIRTIO_MMIO_DEVICE_ID => 0x008
  | VIRTIO_MMIO_VENDOR_ID => 0x00c
  | VIRTIO_MMIO_DEVICE_FEATURES => 0x010
  | VIRTIO_MMIO_DRIVER_FEATURES => 0x020
  | VIRTIO_MMIO_QUEUE_SEL => 0x030
  | VIRTIO_MMIO_QUEUE_NUM_MAX => 0x034
  | VIRTIO_MMIO_QUEUE_NUM => 0x038
  | VIRTIO_MMIO_QUEUE_READY => 0x044
  | VIRTIO_MMIO_QUEUE_NOTIFY => 0x050
  | VIRTIO_MMIO_INTERRUPT_STATUS => 0x060
  | VIRTIO_MMIO_INTERRUPT_ACK => 0x064
  | VIRTIO_MMIO_STATUS => 0x070
  | VIRTIO_MMIO_QUEUE_DESC_LOW => 0x080
  | VIRTIO_MMIO_QUEUE_DESC_HIGH => 0x084
  | VIRTIO_MMIO_DRIVER_DESC_LOW => 0x090
  | VIRTIO_MMIO_DRIVER_DESC_HIGH => 0x094
  | VIRTIO_MMIO_DEVICE_DESC_LOW => 0x0a0
  | VIRTIO_MMIO_DEVICE_DESC_HIGH => 0x0a4
  end.
Coercion mmio_off : mmio_reg >-> Z.

(** The bits of the status register. *)
Inductive status_bit :=
| VIRTIO_CONFIG_S_ACKNOWLEDGE | VIRTIO_CONFIG_S_DRIVER | VIRTIO_CONFIG_S_DRIVER_OK | VIRTIO_CONFIG_S_FEATURES_OK.

Definition status_mask (r : status_bit) : Z :=
  match r with
  | VIRTIO_CONFIG_S_ACKNOWLEDGE => 1
  | VIRTIO_CONFIG_S_DRIVER => 2
  | VIRTIO_CONFIG_S_DRIVER_OK => 4
  | VIRTIO_CONFIG_S_FEATURES_OK => 8
  end.
Coercion status_mask : status_bit >-> Z.

(** The feature bits. *)
Inductive feature :=
| VIRTIO_BLK_F_RO | VIRTIO_BLK_F_SCSI | VIRTIO_BLK_F_CONFIG_WCE | VIRTIO_BLK_F_MQ
| VIRTIO_F_ANY_LAYOUT | VIRTIO_RING_F_INDIRECT_DESC | VIRTIO_RING_F_EVENT_IDX.

Definition feature_bit (r : feature) : Z :=
  match r with
  | VIRTIO_BLK_F_RO => 5
  | VIRTIO_BLK_F_SCSI => 7
  | VIRTIO_BLK_F_CONFIG_WCE => 11
  | VIRTIO_BLK_F_MQ => 12
  | VIRTIO_F_ANY_LAYOUT => 27
  | VIRTIO_RING_F_INDIRECT_DESC => 28
  | VIRTIO_RING_F_EVENT_IDX => 29
  end.
Coercion feature_bit : feature >-> Z.

Definition NUM : Z := 8.
Definition VRING_DESC_F_NEXT : Z := 1.
Definition VRING_DESC_F_WRITE : Z := 2.
Definition VIRTIO_BLK_T_IN : Z := 0.
Definition VIRTIO_BLK_T_OUT : Z := 1.

(** ** Access to [disk] *)

Definition upd_vdisk (f : vdisk -> vdisk) : K unit := modk (fun s => set_vdsk (f s.(vdsk)) s).

Definition upd_desc (i : Z) (f : virtq_desc -> virtq_desc) : K unit :=
  upd_vdisk (fun d => set_vq_desc (alter f (Z.to_nat i) d.(vq_desc)) d).

Definition get_desc (i : Z) : K virtq_desc :=
  d ← getk vdsk;
  match d.(vq_desc) !! Z.to_nat i with Some x => mret x | None => bad_pointer end.

Definition set_free (i : Z) (v : Z) : K unit :=
  upd_vdisk (fun d => set_vq_free (<[Z.to_nat i := v]> d.(vq_free)) d).

(** ** Descriptors *)

Definition alloc_desc : K Z :=
  r ← find_each (seq 0 (Z.to_nat NUM)) (fun i =>
    d ← getk vdsk;
    if ztrue (d.(vq_free) !!! i) then
      set_free (Z.of_nat i) 0;;
      mret (Some (Z.of_nat i))
    else mret None);
  mret (default (-1) r).

Definition free_desc (i : Z) : K unit :=
  if i >=? NUM then panic "free_desc 1" else
  d ← getk vdsk;
  if ztrue (d.(vq_free) !!! Z.to_nat i) then panic "free_desc 2" else
  upd_desc i (set_vd_addr DmaNull);;
  upd_desc i (set_vd_len 0);;
  upd_desc i (set_vd_flags 0);;
  upd_desc i (set_vd_next 0);;
  set_free i 1;;
  wakeup chan_disk_free.

(** free_desc() panics on a descriptor that is free already, so a chain has
    at most [NUM] links. *)
Fixpoint free_chain (fuel : nat) (i : Z) : K unit :=
  match fuel with
  | O => no_fuel
  | S fuel =>
      d ← get_desc i;
      free_desc i;;
      if ztrue (Z.land d.(vd_flags) VRING_DESC_F_NEXT) then free_chain fuel d.(vd_next) else mret tt
  end.

(** [None] for -1, otherwise the three indices. *)
Definition alloc3_desc : K (option (Z * Z * Z)) :=
  i0 ← alloc_desc;
  if i0 <? 0 then mret None else
  i1 ← alloc_desc;
  if i1 <? 0 then free_desc i0;; mret None else
  i2 ← alloc_desc;
  if i2 <? 0 then free_desc i0;; free_desc i1;; mret None else
  mret (Some (i0, i1, i2)).

(** [while(1) { if(alloc3_desc(idx) == 0) break; sleep(...); }] *)
Fixpoint wait_desc (fuel : nat) : K (Z * Z * Z) :=
  r ← alloc3_desc;
  match r with
  | Some idx => mret idx
  | None =>
      match fuel with
      | O => no_fuel
      | S fuel => sleep chan_disk_free vdisk_lock;; wait_desc fuel
      end
  end.

(** [while(b->disk == 1) sleep(b, ...)] *)
Fixpoint wait_disk (fuel : nat) (b : nat) : K unit :=
  x ← get_buf b;
  if x.(b_disk) =? 1 then
    match fuel with
    | O => no_fuel
    | S fuel => sleep (chan_buf b) vdisk_lock;; wait_disk fuel b
    end
  else mret tt.

Section virtio.
Context {I : Image} {Dev : Device}.

Definition vread (r : Z) : K Z := v ← mmio_read (VIRTIO0 + r); mret (u32 v).
Definition vwrite (r v : Z) : K unit := mmio_write (VIRTIO0 + r) (u32 v).

(** The request that virtio_disk_rw() formats in the descriptors. *)
Definition format_request (b : nat) (write : bool) (idx : Z * Z * Z) : K unit :=
  let '(i0, i1, i2) := idx in
  x ← get_buf b;
  let sector := u32 (x.(b_blockno) * (BSIZE / 512)) in
  upd_vdisk (fun d => set_vq_ops
    (<[Z.to_nat i0 := ((if write then VIRTIO_BLK_T_OUT else VIRTIO_BLK_T_IN), sector)]> d.(vq_ops)) d);;
  upd_desc i0 (fun _ => VirtqDesc (DmaOps i0) 16 VRING_DESC_F_NEXT i1);;
  upd_desc i1 (fun _ => VirtqDesc (DmaData b) BSIZE
    (Z.lor (if write then 0 else VRING_DESC_F_WRITE) VRING_DESC_F_NEXT) i2);;
  upd_vdisk (fun d => set_vq_info_status (<[Z.to_nat i0 := 0xff]> d.(vq_info_status)) d);;
  upd_desc i2 (fun _ => VirtqDesc (DmaStatus i0) 1 VRING_DESC_F_WRITE 0);;
  upd_buf b (set_b_disk 1);;
  upd_vdisk (fun d => set_vq_info_b (<[Z.to_nat i0 := Some b]> d.(vq_info_b)) d);;
  upd_vdisk (fun d => set_vq_avail_ring
    (<[Z.to_nat (d.(vq_avail_idx) mod NUM) := i0]> d.(vq_avail_ring)) d);;
  upd_vdisk (fun d => set_vq_avail_idx (u16 (d.(vq_avail_idx) + 1)) d);;
  vwrite VIRTIO_MMIO_QUEUE_NOTIFY 0.

Definition virtio_disk_rw (b : nat) (write : bool) : K unit :=
  acquire vdisk_lock;;
  fuel ← gets (fun w => S (length w.(w_env)));
  idx ← wait_desc fuel;
  format_request b write idx;;
  fuel ← gets (fun w => S (length w.(w_env)));
  wait_disk fuel b;;
  let i0 := idx.1.1 in
  upd_vdisk (fun d => set_vq_info_b (<[Z.to_nat i0 := None]> d.(vq_info_b)) d);;
  free_chain (S (Z.to_nat NUM)) i0;;
  release vdisk_lock.

(** The loop of virtio_disk_intr(); 16-bit indices bound the rounds. *)
Fixpoint intr_loop (fuel : nat) : K unit :=
  d ← getk vdsk;
  if d.(vq_seen) =? d.(vq_used_idx) then mret tt else
  match fuel with
  | O => no_fuel
  | S fuel =>
      let id := d.(vq_used_ring) !!! Z.to_nat (d.(vq_seen) mod NUM) in
      if negb (d.(vq_info_status) !!! Z.to_nat id =? 0) then panic "virtio_disk_intr status" else
      match d.(vq_info_b) !!! Z.to_nat id with
      | None => bad_pointer
      | Some b =>
          upd_buf b (set_b_disk 0);;
          wakeup (chan_buf b);;
          upd_vdisk (fun d => set_vq_seen (u16 (d.(vq_seen) + 1)) d);;
          intr_loop fuel
      end
  end.

Definition virtio_disk_intr : K unit :=
  acquire vdisk_lock;;
  st ← vread VIRTIO_MMIO_INTERRUPT_STATUS;
  vwrite VIRTIO_MMIO_INTERRUPT_ACK (Z.land st 3);;
  intr_loop (Z.to_nat (2 ^ 16));;
  release vdisk_lock.

(** ** Initialisation *)

Definition clear_bit (bit features : Z) : Z := Z.land features (Z.lnot (Z.shiftl 1 bit)).

Definition driver_features (features : Z) : Z :=
  clear_bit VIRTIO_RING_F_INDIRECT_DESC
    (clear_bit VIRTIO_RING_F_EVENT_IDX
      (clear_bit VIRTIO_F_ANY_LAYOUT
        (clear_bit VIRTIO_BLK_F_MQ
          (clear_bit VIRTIO_BLK_F_CONFIG_WCE
            (clear_bit VIRTIO_BLK_F_SCSI (clear_bit VIRTIO_BLK_F_RO features)))))).

(** The test of the identification registers, with the evaluation order of
    [||]. *)
Definition disk_missing : K bool :=
  v ← vread VIRTIO_MMIO_MAGIC_VALUE;
  if negb (v =? 0x74726976) then mret true else
  v ← vread VIRTIO_MMIO_VERSION;
  if negb (v =? 2) then mret true else
  v ← vread VIRTIO_MMIO_DEVICE_ID;
  if negb (v =? 2) then mret true else
  v ← vread VIRTIO_MMIO_VENDOR_ID;
  mret (negb (v =? 0x554d4551)).

(** Allocate the queue memory and tell the device where it is. *)
Definition setup_queue : K unit :=
  desc ← kalloc;
  upd_vdisk (set_vq_desc_pa desc);;
  avail ← kalloc;
  upd_vdisk (set_vq_avail_pa avail);;
  used ← kalloc;
  upd_vdisk (set_vq_used_pa used);;
  if (desc =? 0) || (avail =? 0) || (used =? 0) then panic "virtio disk kalloc" else
  modmem (fun m => memset m desc 0 PGSIZE);;
  upd_vdisk (set_vq_desc (replicate 8 (VirtqDesc DmaNull 0 0 0)));;
  modmem (fun m => memset m avail 0 PGSIZE);;
  upd_vdisk (fun d => set_vq_avail_idx 0 (set_vq_avail_ring (replicate 8 0) d));;
  modmem (fun m => memset m used 0 PGSIZE);;
  upd_vdisk (fun d => set_vq_used_idx 0 (set_vq_used_ring (replicate 8 0) d));;
  vwrite VIRTIO_MMIO_QUEUE_NUM NUM;;
  vwrite VIRTIO_MMIO_QUEUE_DESC_LOW desc;;
  vwrite VIRTIO_MMIO_QUEUE_DESC_HIGH (Z.shiftr desc 32);;
  vwrite VIRTIO_MMIO_DRIVER_DESC_LOW avail;;
  vwrite VIRTIO_MMIO_DRIVER_DESC_HIGH (Z.shiftr avail 32);;
  vwrite VIRTIO_MMIO_DEVICE_DESC_LOW used;;
  vwrite VIRTIO_MMIO_DEVICE_DESC_HIGH (Z.shiftr used 32);;
  vwrite VIRTIO_MMIO_QUEUE_READY 1.

Definition virtio_disk_init : K unit :=
  initlock vdisk_lock "virtio_disk";;
  missing ← disk_missing;
  if missing : bool then panic "could not find virtio disk" else
  vwrite VIRTIO_MMIO_STATUS 0;;
  vwrite VIRTIO_MMIO_STATUS VIRTIO_CONFIG_S_ACKNOWLEDGE;;
  vwrite VIRTIO_MMIO_STATUS (Z.lor VIRTIO_CONFIG_S_ACKNOWLEDGE VIRTIO_CONFIG_S_DRIVER);;
  features ← vread VIRTIO_MMIO_DEVICE_FEATURES;
  vwrite VIRTIO_MMIO_DRIVER_FEATURES (driver_features features);;
  vwrite VIRTIO_MMIO_STATUS
    (Z.lor (Z.lor VIRTIO_CONFIG_S_ACKNOWLEDGE VIRTIO_CONFIG_S_DRIVER) VIRTIO_CONFIG_S_FEATURES_OK);;
  status ← vread VIRTIO_MMIO_STATUS;
  if negb (ztrue (Z.land status VIRTIO_CONFIG_S_FEATURES_OK)) then panic "virtio disk FEATURES_OK unset" else
  vwrite VIRTIO_MMIO_QUEUE_SEL 0;;
  ready ← vread VIRTIO_MMIO_QUEUE_READY;
  if ztrue ready then panic "virtio disk should not be ready" else
  max ← vread VIRTIO_MMIO_QUEUE_NUM_MAX;
  if max =? 0 then panic "virtio disk has no queue 0" else
  if max <? NUM then panic "virtio disk max queue too short" else
  setup_queue;;
  for_each (seq 0 (Z.to_nat NUM)) (fun i => set_free (Z.of_nat i) 1);;
  vwrite VIRTIO_MMIO_STATUS (Z.lor status VIRTIO_CONFIG_S_DRIVER_OK).

End virtio.
