(* ===== verification/RingBuf.v ===== *)
(** * Ring buffers with wrapping counters

    An array of [N] cells indexed by 32-bit counters modulo [N], where [N]
    divides 2^32: the pipe's and the console's buffers.  A queue [q] that
    starts at counter [start] is held by the cells [start], [start + 1], ...
    modulo [N]. *)

From S2P Require Import Prelude.

Lemma u32_add_idemp a b : u32 (u32 a + b) = u32 (a + b).
Proof. unfold u32. by rewrite Z.add_mod_idemp_l by lia. Qed.

Lemma u32_eq_range a k : 0 <= a < 2 ^ 32 -> 0 <= k < 2 ^ 32 -> u32 (a + k) = a -> k = 0.
Proof.
  unfold u32. intros Ha Hk H. destruct (Z.ltb_spec (a + k) (2 ^ 32)).
  - rewrite Z.mod_small in H; lia.
  - replace (a + k) with (a + k - 2 ^ 32 + 1 * 2 ^ 32) in H by lia.
    rewrite Z.mod_add, Z.mod_small in H; lia.
Qed.

(** Two counters at distances [a] and [b] from the same start. *)
Lemma u32_dist_eqb x a b :
  0 <= a < 2 ^ 32 -> 0 <= b < 2 ^ 32 -> (u32 (x + a) =? u32 (x + b)) = (a =? b).
Proof.
  intros Ha Hb. destruct (Z.eqb_spec a b) as [->|Hne]; [apply Z.eqb_refl|]. apply Z.eqb_neq. intros E.
  destruct (Z.lt_total a b) as [Hlt|[?|Hlt]]; [|done|].
  - apply Hne. enough (b - a = 0) by lia. apply (u32_eq_range (u32 (x + a))); [apply u32_range|lia|].
    rewrite u32_add_idemp, E. f_equal. lia.
  - apply Hne. enough (a - b = 0) by lia. apply (u32_eq_range (u32 (x + b))); [apply u32_range|lia|].
    rewrite u32_add_idemp, <-E. f_equal. lia.
Qed.

Lemma u32_sub_dist x a : 0 <= a < 2 ^ 32 -> u32 (u32 (x + a) - u32 x) = a.
Proof.
  intros Ha. unfold u32. rewrite <-Zminus_mod. replace (x + a - x) with a by lia. by apply Z.mod_small.
Qed.

Section ringbuf.
Context (N : Z) (HN : 0 < N) (Hdiv : (N | 2 ^ 32)).

Record ring_holds (data : list Z) (start : Z) (q : list Z) : Prop := {
  rh_data : length data = Z.to_nat N;
  rh_bound : Z.of_nat (length q) <= N;
  rh_at k b : q !! k = Some b -> data !! Z.to_nat ((start + Z.of_nat k) mod N) = Some b;
}.

Lemma u32_mod_ring x : u32 x mod N = x mod N.
Proof using HN Hdiv.
  destruct Hdiv as [k Hk]. unfold u32. rewrite Hk, (Z.mul_comm k N).
  assert (0 < k) by nia. rewrite Z.rem_mul_r by lia.
  rewrite (Z.mul_comm N (_ mod k)), Z.mod_add, Z.mod_mod by lia. done.
Qed.

Lemma ring_index x : (Z.to_nat (x mod N) < Z.to_nat N)%nat.
Proof using HN. pose proof (Z.mod_pos_bound x N HN). lia. Qed.

Lemma ring_push data start q c :
  ring_holds data start q -> Z.of_nat (length q) < N ->
  ring_holds (<[Z.to_nat (u32 (start + Z.of_nat (length q)) mod N) := c]> data) start (q ++ [c]).
Proof using HN Hdiv.
  intros [Hd Hb Hq] Hlt. rewrite u32_mod_ring. split.
  - by rewrite length_insert.
  - rewrite length_app. cbn [length]. lia.
  - intros k b Hk. apply lookup_app_Some in Hk as [Hk|[Hge Hk]].
    + rewrite list_lookup_insert_ne; [by apply Hq|]. apply lookup_lt_Some in Hk.
      intros E. apply (f_equal Z.of_nat) in E. rewrite !Z2Nat.id in E by (by apply Z.mod_pos_bound).
      assert (Hz : (Z.of_nat (length q) - Z.of_nat k) mod N = 0).
      { replace (Z.of_nat (length q) - Z.of_nat k) with
          (start + Z.of_nat (length q) - (start + Z.of_nat k)) by lia.
        rewrite Zminus_mod, E, Z.sub_diag. by apply Z.mod_0_l; lia. }
      rewrite Z.mod_small in Hz by lia. lia.
    + apply list_lookup_singleton_Some in Hk as [Hk <-].
      replace (Z.of_nat k) with (Z.of_nat (length q)) by lia. apply list_lookup_insert_eq.
      rewrite Hd. apply ring_index.
Qed.

Lemma ring_pop data start c q :
  ring_holds data start (c :: q) ->
  data !!! Z.to_nat (start mod N) = c /\ ring_holds data (u32 (start + 1)) q.
Proof using HN Hdiv.
  intros [Hd Hb Hq]. split.
  - specialize (Hq 0%nat c eq_refl). rewrite Z.add_0_r in Hq. by apply list_lookup_total_correct.
  - split; [done|cbn [length] in Hb; lia|]. intros k b Hk. specialize (Hq (S k) b Hk). rewrite <-Hq. do 2 f_equal.
    rewrite <-(Z.add_mod_idemp_l (u32 _)), u32_mod_ring, Z.add_mod_idemp_l by lia. f_equal. lia.
Qed.

Lemma ring_last data start q c :
  ring_holds data start (q ++ [c]) ->
  data !!! Z.to_nat (u32 (start + Z.of_nat (length q)) mod N) = c /\ ring_holds data start q.
Proof using HN Hdiv.
  intros [Hd Hb Hq]. rewrite length_app in Hb. cbn [length] in Hb. rewrite u32_mod_ring. split.
  - apply list_lookup_total_correct, Hq. by rewrite lookup_app_r, Nat.sub_diag by lia.
  - split; [done|lia|]. intros k b Hk. apply Hq. by apply lookup_app_l_Some.
Qed.

End ringbuf.
