(* ===== verification/Pipe.v ===== *)
(** * Pipes: kernel/pipe.c

    A pipe is named by the address of its page; its fields are a record of
    the map [pipes], its lock is the lock of the same name.  Freeing the page
    ends the pipe. *)

From S2P Require Import Prelude Memory Riscv Machine Spinlock Kalloc Vm Sched.

Definition PIPESIZE : Z := 512.

Definition get_pipe (pi : Z) : K pipe :=
  m ← getk pipes;
  match m !! pi with Some x => mret x | None => bad_pointer end.

Definition upd_pipe (pi : Z) (f : pipe -> pipe) : K unit :=
  modk (fun s => set_pipes (alter f pi s.(pipes)) s).

(** [pi->nwrite == pi->nread + PIPESIZE] *)
Definition pipe_full (p : pipe) : bool := p.(pi_nwrite) =? u32 (p.(pi_nread) + PIPESIZE).

(** [pi->data[pi->nwrite++ % PIPESIZE] = ch] *)
Definition pipe_push (ch : Z) (p : pipe) : pipe :=
  set_pi_nwrite (u32 (p.(pi_nwrite) + 1))
    (set_pi_data (<[Z.to_nat (p.(pi_nwrite) mod PIPESIZE) := ch]> p.(pi_data)) p).

(** [pi->nread == pi->nwrite] *)
Definition pipe_empty (p : pipe) : bool := p.(pi_nread) =? p.(pi_nwrite).

(** [pi->data[pi->nread++ % PIPESIZE]]: the character, and the increment *)
Definition pipe_head (p : pipe) : Z := p.(pi_data) !!! Z.to_nat (p.(pi_nread) mod PIPESIZE).
Definition pipe_pop (p : pipe) : pipe := set_pi_nread (u32 (p.(pi_nread) + 1)) p.

Section pipe.
Context {I : Image}.

Definition pipeclose (pi : Z) (writable : Z) : K unit :=
  acquire pi;;
  (if ztrue writable then
     upd_pipe pi (set_pi_writeopen 0);;
     wakeup (chan_pipe_nread pi)
   else
     upd_pipe pi (set_pi_readopen 0);;
     wakeup (chan_pipe_nwrite pi));;
  p ← get_pipe pi;
  if (p.(pi_readopen) =? 0) && (p.(pi_writeopen) =? 0) then
    release pi;;
    kfree pi;;
    modk (fun s => set_pipes (delete pi s.(pipes)) s)
  else release pi.

(** The writer's loop.  A round copies one byte or sleeps for a turn of the
    schedule, so [n] and the length of the schedule bound the rounds. *)
Fixpoint pipewrite_loop (fuel : nat) (pi : Z) (pr : nat) (addr n i : Z) : K Z :=
  if i <? n then
    match fuel with
    | O => no_fuel
    | S fuel =>
        p ← get_pipe pi;
        k ← (if p.(pi_readopen) =? 0 then mret 1 else killed pr);
        if ztrue k then release pi;; mret (-1) else
        if pipe_full p then
          wakeup (chan_pipe_nread pi);;
          sleep (chan_pipe_nwrite pi) pi;;
          pipewrite_loop fuel pi pr addr n i
        else
          q ← get_proc pr;
          r ← copyin q.(p_pagetable) (u64 (addr + i)) 1;
          if r.1 =? -1 then
            wakeup (chan_pipe_nread pi);;
            release pi;;
            mret i
          else
            upd_pipe pi (pipe_push (hd 0 r.2));;
            pipewrite_loop fuel pi pr addr n (i + 1)
    end
  else
    wakeup (chan_pipe_nread pi);;
    release pi;;
    mret i.

Definition pipewrite (pi addr n : Z) : K Z :=
  pr ← cur_proc;
  acquire pi;;
  fuel ← gets (fun w => Z.to_nat n + S (length w.(w_env)))%nat;
  pipewrite_loop fuel pi pr addr n 0.

(** [while(pi->nread == pi->nwrite && pi->writeopen) ...]; [false] when the
    process was killed. *)
Fixpoint piperead_wait (fuel : nat) (pi : Z) (pr : nat) : K bool :=
  p ← get_pipe pi;
  if pipe_empty p && ztrue p.(pi_writeopen) then
    k ← killed pr;
    if ztrue k then mret false else
    match fuel with
    | O => no_fuel
    | S fuel => sleep (chan_pipe_nread pi) pi;; piperead_wait fuel pi pr
    end
  else mret true.

Fixpoint piperead_copy (todo : nat) (pi : Z) (pr : nat) (addr i : Z) : K Z :=
  match todo with
  | O => mret i
  | S todo =>
      p ← get_pipe pi;
      if pipe_empty p then mret i else
      let ch := pipe_head p in
      upd_pipe pi pipe_pop;;
      q ← get_proc pr;
      r ← copyout q.(p_pagetable) (u64 (addr + i)) [ch];
      if r =? -1 then mret i else piperead_copy todo pi pr addr (i + 1)
  end.

Definition piperead (pi addr n : Z) : K Z :=
  pr ← cur_proc;
  acquire pi;;
  fuel ← gets (fun w => S (length w.(w_env)));
  alive ← piperead_wait fuel pi pr;
  if negb alive then release pi;; mret (-1) else
  i ← piperead_copy (Z.to_nat n) pi pr addr 0;
  wakeup (chan_pipe_nwrite pi);;
  release pi;;
  mret i.

End pipe.
