(* ===== verification/PipeSpec.v ===== *)
(** * Pipes are bounded queues

    The ring buffer of a pipe represents a queue of at most [PIPESIZE]
    bytes; its 32-bit counters wrap around without losing the position,
    because [PIPESIZE] divides 2^32.  Writing appends to the queue and
    reading removes from its front, for every interleaving of readers and
    writers that hold the lock. *)

From S2P Require Import Prelude Memory CString Riscv Machine Spinlock Kalloc Vm Pagetable Uvm UserCopy UserPages VmSpec Sched Demo RingBuf Pipe.

(** [q] is the contents of the pipe, oldest byte first. *)
Record pipe_rep (p : pipe) (q : list Z) : Prop := {
  pr_ring : ring_holds PIPESIZE p.(pi_data) p.(pi_nread) q;
  pr_nread : 0 <= p.(pi_nread) < 2 ^ 32;
  pr_nwrite : p.(pi_nwrite) = u32 (p.(pi_nread) + Z.of_nat (length q));
  pr_bytes : Forall (fun b => 0 <= b < 2 ^ 8) q;
}.

Lemma PIPESIZE_div : (PIPESIZE | 2 ^ 32).
Proof. by exists (2 ^ 23). Qed.

Lemma pr_bound p q : pipe_rep p q -> Z.of_nat (length q) <= PIPESIZE.
Proof. intros Hp. apply (rh_bound _ _ _ _ (pr_ring _ _ Hp)). Qed.

Lemma pipe_empty_spec p q : pipe_rep p q -> pipe_empty p = bool_decide (q = []).
Proof.
  intros Hp. pose proof (pr_bound _ _ Hp) as Hb. destruct Hp as [Hd Hr Hw Hf]. unfold pipe_empty. rewrite Hw.
  rewrite <-(u32_small p.(pi_nread)) at 1 by done. rewrite <-(Z.add_0_r p.(pi_nread)) at 1.
  rewrite u32_dist_eqb by (unfold PIPESIZE in *; lia). by destruct q.
Qed.

Lemma pipe_full_spec p q : pipe_rep p q -> pipe_full p = bool_decide (Z.of_nat (length q) = PIPESIZE).
Proof.
  intros Hp. pose proof (pr_bound _ _ Hp) as Hb. destruct Hp as [Hd Hr Hw Hf]. unfold pipe_full. rewrite Hw.
  rewrite u32_dist_eqb by (unfold PIPESIZE in *; lia). by case_bool_decide; [apply Z.eqb_eq|apply Z.eqb_neq].
Qed.

Lemma pipe_rep_push p q c :
  pipe_rep p q -> Z.of_nat (length q) < PIPESIZE -> 0 <= c < 2 ^ 8 -> pipe_rep (pipe_push c p) (q ++ [c]).
Proof.
  intros [Hd Hr Hw Hf] Hlt Hc. unfold pipe_push. split; cbn.
  - rewrite Hw. apply ring_push; [done|apply PIPESIZE_div|done|done].
  - done.
  - rewrite length_app, Hw, u32_add_idemp. f_equal. cbn. lia.
  - apply Forall_app. by rewrite Forall_singleton.
Qed.

Lemma pipe_rep_pop p c q : pipe_rep p (c :: q) -> pipe_head p = c /\ pipe_rep (pipe_pop p) q.
Proof.
  intros [Hd Hr Hw Hf]. destruct (ring_pop PIPESIZE ltac:(done) PIPESIZE_div _ _ _ _ Hd) as [Hh Hd'].
  split; [done|]. unfold pipe_pop. split; cbn.
  - done.
  - apply u32_range.
  - rewrite Hw, u32_add_idemp. f_equal. cbn. lia.
  - by apply Forall_cons in Hf as [_ Hf].
Qed.

(** ** Interleavings of readers and writers

    Every access happens under the lock, a byte at a time; a state is the
    pipe with the bytes written and read so far. *)

Inductive pipe_step : pipe * list Z * list Z -> pipe * list Z * list Z -> Prop :=
| step_write p W R c : pipe_full p = false -> 0 <= c < 2 ^ 8 ->
    pipe_step (p, W, R) (pipe_push c p, W ++ [c], R)
| step_read p W R : pipe_empty p = false ->
    pipe_step (p, W, R) (pipe_pop p, W, R ++ [pipe_head p]).

Lemma pipe_step_inv p W R p' W' R' q :
  pipe_step (p, W, R) (p', W', R') -> pipe_rep p q -> W = R ++ q ->
  exists q', pipe_rep p' q' /\ W' = R' ++ q'.
Proof.
  intros Hst Hp HW. inversion Hst as [? ? ? c Hf Hc|? ? ? He]; subst; clear Hst.
  - rewrite (pipe_full_spec _ q Hp) in Hf. apply bool_decide_eq_false in Hf.
    pose proof (pr_bound _ _ Hp). exists (q ++ [c]). split; [|by rewrite app_assoc].
    apply pipe_rep_push; [done|lia|done].
  - rewrite (pipe_empty_spec _ q Hp) in He. apply bool_decide_eq_false in He.
    destruct q as [|c q]; [done|]. destruct (pipe_rep_pop _ _ _ Hp) as [-> Hp']. exists q.
    split; [done|]. by rewrite <-app_assoc.
Qed.

Lemma pipe_steps_inv x y :
  rtc pipe_step x y -> forall q, pipe_rep x.1.1 q -> x.1.2 = x.2 ++ q ->
  exists q', pipe_rep y.1.1 q' /\ y.1.2 = y.2 ++ q'.
Proof.
  induction 1 as [|[[p W] R] [[p1 W1] R1] y Hst _ IH]; intros q Hp HW; [by exists q|]. cbn in *.
  destruct (pipe_step_inv _ _ _ _ _ _ _ Hst Hp HW) as (q1 & Hp1 & HW1). by apply (IH q1).
Qed.

(** An empty pipe, with whatever the counters have reached. *)
Definition fresh (p : pipe) : Prop :=
  length p.(pi_data) = Z.to_nat PIPESIZE /\ 0 <= p.(pi_nread) < 2 ^ 32 /\ p.(pi_nwrite) = p.(pi_nread).

Lemma fresh_rep p : fresh p -> pipe_rep p [].
Proof.
  intros (Hd & Hr & Hw). split; try done. cbn. by rewrite Z.add_0_r, u32_small.
Qed.

(** C29: In every interleaving of one-byte writes and reads from an empty
    pipe, the bytes read so far are a prefix of the bytes written so far, at
    most [PIPESIZE] bytes are in flight, and a writer is stopped exactly when
    [PIPESIZE] are, a reader exactly when none is. *)
Theorem pipe_fifo p p' W R :
  fresh p -> rtc pipe_step (p, [], []) (p', W, R) ->
  exists q, W = R ++ q /\ Z.of_nat (length q) <= PIPESIZE /\
    pipe_full p' = bool_decide (Z.of_nat (length q) = PIPESIZE) /\
    pipe_empty p' = bool_decide (q = []).
Proof.
  intros Hf Hst. destruct (pipe_steps_inv _ _ Hst [] (fresh_rep p Hf) eq_refl) as (q & Hp & HW).
  exists q. split_and!; [done|by apply pr_bound in Hp|by apply pipe_full_spec|by apply pipe_empty_spec].
Qed.

(** ** The system call's side: pipewrite() and piperead()

    A process [i] with page table [root] and address space [U] calls them;
    nobody else holds the locks they take. *)

Lemma page_lock_ne pi : KERNBASE <= pi -> pi <> kmem_lock /\ forall j, (j < NPROC)%nat -> pi <> proc_lock j.
Proof. unfold KERNBASE, kmem_lock, proc_lock, NPROC. split; [|intros j Hj]; lia. Qed.

(** copyout() to an address beyond the process's memory fails. *)
Lemma copyout_beyond_run {I : Image} {IOk : ImageOk I} own pool T U va c h env tr s m fl l i p :
  settle h = h -> hart_ok h -> 0 <= va -> h.(h_proc) = Some i -> s.(procs) !! i = Some p ->
  vm_inv own m fl p.(p_pagetable) l T U pool ->
  U !! PGROUNDDOWN va = None -> p.(p_sz) <= PGROUNDDOWN va ->
  copyout p.(p_pagetable) va [c] (World h env tr (set_km m fl s)) = Ret (-1) (World h env tr (set_km m fl s)).
Proof.
  intros Hset Hh Hva Hme Hp Hv HU Hsz. pose proof (PGROUNDDOWN_bounds va) as [Ha Hb].
  assert (0 <= PGROUNDDOWN va) by (rewrite PGROUNDDOWN_eq; pose proof (Z.div_pos va PGSIZE); llia).
  unfold copyout. cbn [length copyout_loop]. change (Z.of_nat 1 <=? 0) with false. cbv iota.
  destruct (Z.leb_spec MAXVA (PGROUNDDOWN va)) as [|Hlt]; [done|].
  erewrite bind_run by (eapply walkaddr_run; [apply Hv|done|done]).
  unfold uaddr. rewrite HU. change (0 =? 0) with true. cbv iota.
  assert (Hf : vmfault p.(p_pagetable) (PGROUNDDOWN va) (World h env tr (set_km m fl s)) =
    Ret 0 (World h env tr (set_km m fl s))).
  { unfold vmfault. erewrite bind_run by (by apply myproc_run). cbn. rewrite Hset, Hme.
    unfold the_proc. erewrite bind_run by (erewrite bind_run by reflexivity; cbn;
      change (procs (set_km m fl s)) with s.(procs); by rewrite Hp).
    by destruct (Z.leb_spec p.(p_sz) (PGROUNDDOWN va)); [|lia]. }
  erewrite bind_run by exact Hf. done.
Qed.

Section calls.
Context {I : Image} {IOk : ImageOk I}.
Context (own : Z -> bool) (env : list turn) (tr : list event) (s : kstate) (h : hart) (pi : Z).
Context (i : nat) (p : proc) (pool : list Z).

Record ready : Prop := {
  rd_hart : hart_ok h;
  rd_me : h.(h_proc) = Some i;
  rd_proc : s.(procs) !! i = Some p;
  rd_sized : sized s;
  rd_locks j : (j < NPROC)%nat -> lock_free s (proc_lock j);
  rd_kmem : lock_free s kmem_lock;
  rd_pi : lock_free s pi;
  rd_page : KERNBASE <= pi;
  rd_sz : p.(p_sz) <= MAXVA;
  rd_own va : va < p.(p_sz) -> own va = true;
}.

(** The state while the lock is held. *)
Definition holding_st (m : memory) (fl : Z) (x : pipe) : kstate :=
  set_km m fl (set_pipes (<[pi := x]> s.(pipes)) (set_locks (lock_by h.(h_tp) pi s.(locks)) s)).

(** The state after the lock is released and the sleepers on [chan] are
    awake. *)
Definition done_st (chan : Z) (m : memory) (fl : Z) (x : pipe) : kstate :=
  set_km m fl (set_procs (wake_all (Some i) chan s.(procs)) (set_pipes (<[pi := x]> s.(pipes)) s)).

Context (HR : ready).

Lemma rd_lt : (i < NPROC)%nat.
Proof using HR. pose proof (lookup_lt_Some _ _ _ (rd_proc HR)). pose proof (rd_sized HR) as E. unfold sized in E. lia. Qed.

Lemma holding_lock m fl x lk : lk <> pi -> lock_free s lk -> lock_free (holding_st m fl x) lk.
Proof. intros Hne [name Hl]. exists name. etrans; [by apply lookup_lock_by_ne|exact Hl]. Qed.

Lemma holding_locks m fl x j : (j < NPROC)%nat -> lock_free (holding_st m fl x) (proc_lock j).
Proof using HR.
  intros Hj. apply holding_lock; [|by apply (rd_locks HR)].
  intros E. by apply (proj2 (page_lock_ne pi (rd_page HR)) j).
Qed.

Lemma get_pipe_run h' m fl x :
  get_pipe pi (World h' env tr (holding_st m fl x)) = Ret x (World h' env tr (holding_st m fl x)).
Proof.
  unfold get_pipe. erewrite bind_run by reflexivity. cbn.
  change (pipes (holding_st m fl x)) with (<[pi := x]> s.(pipes)). by rewrite lookup_insert_eq.
Qed.

Lemma upd_pipe_run f h' m fl x :
  upd_pipe pi f (World h' env tr (holding_st m fl x)) = Ret tt (World h' env tr (holding_st m fl (f x))).
Proof.
  unfold upd_pipe, modk, modify, set_w_st. cbn. do 2 f_equal. unfold holding_st. destruct s. cbn.
  unfold set_km, set_freelist, set_mem, set_pipes. cbn. f_equal. by rewrite alter_insert_eq.
Qed.

(** wakeup() and release() at the end of both functions. *)
Lemma wpx_finish {A} (r : A) chan (Q : A -> world -> Prop) m fl x :
  Q r (World (settle h) env tr (done_st chan m fl x)) ->
  wp (wakeup chan;; release pi;; mret r) Q (World (hart_push h) env tr (holding_st m fl x)).
Proof using HR.
  intros HQ. pose proof (hart_push_ok h (rd_hart HR)) as Hh.
  eapply wpx_bind, run_wp.
  { apply wakeup_run; [done| |exact (rd_sized HR)]. intros j Hj _. by apply holding_locks. }
  rewrite settle_push by apply (rd_hart HR).
  eapply wpx_bind, (wpx_release _ _ _ h _ _ _ s.(locks)); [apply (rd_hart HR)|apply (rd_pi HR)|done|].
  apply wpx_ret. change (h_proc (hart_push h)) with h.(h_proc). rewrite (rd_me HR).
  unfold holding_st, done_st in *. destruct s. exact HQ.
Qed.

Definition user_bytes (U : gmap Z Z) (m : memory) (va : Z) (bs : list Z) : Prop :=
  forall k b, bs !! k = Some b -> uview U m p.(p_sz) (va + Z.of_nat k) = Some b.

Lemma uview_byte U m va b : mem_ok m -> uview U m p.(p_sz) va = Some b -> 0 <= b < 2 ^ 8.
Proof.
  intros Hm. unfold uview. destruct (U !! _) as [v|].
  - destruct (pte_user v); [|done]. intros [= <-]. apply Hm.
  - destruct (_ <? _); [|done]. intros [= <-]. lia.
Qed.

(** No page of the range is waiting to be allocated lazily. *)
Definition resident (U : gmap Z Z) (va n : Z) : Prop :=
  forall k, 0 <= k < n -> U !! PGROUNDDOWN (va + k) = None -> p.(p_sz) <= PGROUNDDOWN (va + k).

Lemma resident_sub U U' va n : U ⊆ U' -> resident U va n -> resident U' va n.
Proof.
  intros HU H k Hk HN. apply H; [done|]. destruct (U !! PGROUNDDOWN (va + k)) as [v|] eqn:E; [|done].
  by rewrite (lookup_weaken _ _ _ _ E HU) in HN.
Qed.

(** One byte of the user is copied in, or is not readable. *)
Lemma wp_copyin_byte {A} (k : Z * list Z -> K A) (Q : A -> world -> Prop) U va m fl l T x :
  vm_inv own m fl p.(p_pagetable) l T U pool -> user_owned own U -> 0 <= va < 2 ^ 64 ->
  resident U va 1 ->
  (forall r m' fl' l' T' U', vm_inv own m' fl' p.(p_pagetable) l' T' U' pool -> user_owned own U' ->
     same_view own p.(p_sz) U U' m m' ->
     (exists b, r = (0, [b]) /\ uview U m p.(p_sz) va = Some b) \/
     r.1 = -1 /\ uview U m p.(p_sz) va = None ->
     wp (k r) Q (World (hart_push h) env tr (holding_st m' fl' x))) ->
  wp (r ← copyin p.(p_pagetable) va 1; k r) Q (World (hart_push h) env tr (holding_st m fl x)).
Proof using HR IOk.
  intros Hv Ho Hva Hres Hk. pose proof (hart_push_ok h (rd_hart HR)) as Hh.
  set (s1 := set_pipes (<[pi := x]> s.(pipes)) (set_locks (lock_by h.(h_tp) pi s.(locks)) s)).
  assert (HL : lock_free s1 kmem_lock).
  { apply (holding_lock s.(mem) s.(freelist) x); [|apply (rd_kmem HR)].
    intros E. by apply (page_lock_ne pi (rd_page HR)). }
  eapply wpx_call.
  { apply (wp_copyin own _ env tr s1 HL i p (rd_proc HR) eq_refl (rd_sz HR) (rd_own HR) pool U va 1 _ m fl l T);
      [done|apply (rd_me HR)|done|done|done|lia]. }
  intros [r bs] w' (h' & m' & fl' & l' & T' & U' & got & -> & Hef & Hv' & Hsv & Hr & Hl & Hg & Hcase).
  cbn in Hr, Hcase. subst bs. destruct Hef as [Hle _ _].
  assert (h' = hart_push h) as ->.
  { destruct Hle as [-> | ->]; [done|]. apply settle_push, (rd_hart HR). }
  apply (Hk _ m' fl' l' T' U'); [done|by eapply user_owned_same|done|].
  destruct Hcase as [[-> Hlen]|[-> Hbad]].
  - left. destruct got as [|b [|]]; cbn in Hlen; try lia. exists b. split; [done|].
    specialize (Hg 0%nat b eq_refl). by rewrite Z.add_0_r in Hg.
  - right. split; [done|]. destruct Hbad as [(k' & Hk' & HN)|[(k' & Hk' & HN) _]];
      (assert (k' = 0) as -> by lia; rewrite Z.add_0_r in HN).
    + done.
    + specialize (Hres 0 ltac:(lia)). rewrite Z.add_0_r in Hres. unfold uview. rewrite HN.
      by destruct (Z.ltb_spec (PGROUNDDOWN va) p.(p_sz)); [specialize (Hres HN); lia|].
Qed.

(** The outcome of pipewrite() from byte [i0] on. *)
Definition wrote (U : gmap Z Z) (m : memory) (q : list Z) (addr n i0 : Z) (r : Z) (w' : world) : Prop :=
  exists m' fl' l' T' U' x' bs,
    w' = World (settle h) env tr (done_st (chan_pipe_nread pi) m' fl' x') /\
    vm_inv own m' fl' p.(p_pagetable) l' T' U' pool /\ user_owned own U' /\
    same_view own p.(p_sz) U U' m m' /\ pipe_rep x' (q ++ bs) /\
    user_bytes U m (addr + i0) bs /\ r = i0 + Z.of_nat (length bs) /\
    (r = n \/ r < n /\ uview U m p.(p_sz) (addr + r) = None).

Lemma wp_pipewrite_loop fuel : forall addr n i0 U m fl l T x q,
  vm_inv own m fl p.(p_pagetable) l T U pool -> user_owned own U ->
  pipe_rep x q -> x.(pi_readopen) <> 0 -> p.(p_killed) = 0 ->
  0 <= addr -> addr + n <= 2 ^ 64 -> resident U addr n -> 0 <= i0 <= n ->
  Z.of_nat (length q) + (n - i0) <= PIPESIZE -> n - i0 <= Z.of_nat fuel ->
  wp (pipewrite_loop fuel pi i addr n i0) (wrote U m q addr n i0)
    (World (hart_push h) env tr (holding_st m fl x)).
Proof using HR IOk.
  induction fuel as [|fuel IH]; intros addr n i0 U m fl l T x q Hv Ho Hx Hopen Hk Ha Hend Hres Hi Hroom Hfuel;
    cbn [pipewrite_loop]; destruct (Z.ltb_spec i0 n) as [Hlt|Hge]; try lia.
  1,3: assert (i0 = n) as -> by lia; apply wpx_finish; exists m, fl, l, T, U, x, [];
    rewrite app_nil_r; split_and!; auto using same_view_refl; [done|cbn; lia].
  eapply wpx_bind, run_wp; [apply get_pipe_run|].
  apply Z.eqb_neq in Hopen as Hopen'. rewrite Hopen'.
  eapply wpx_bind, run_wp.
  { apply killed_run; [apply hart_push_ok, (rd_hart HR)|apply (rd_proc HR)|apply holding_locks, rd_lt]. }
  rewrite settle_push by apply (rd_hart HR). rewrite Hk. change (ztrue 0) with false. cbv iota.
  rewrite (pipe_full_spec _ q) by done. rewrite bool_decide_eq_false_2 by lia.
  eapply wpx_bind, run_wp; [by apply get_proc_run, (rd_proc HR)|].
  rewrite (u64_small (addr + i0)) by lia.
  eapply wp_copyin_byte; [done|done|lia| |].
  { intros k Hk0 HN. specialize (Hres (i0 + k) ltac:(lia)). rewrite Z.add_assoc in Hres. by apply Hres. }
  intros r m' fl' l' T' U' Hv' Ho' Hsv [(b & -> & Hb)|[Hr Hb]]; cbn [fst snd hd].
  - change (0 =? -1) with false. cbv iota. eapply wpx_bind, run_wp; [apply upd_pipe_run|].
    pose proof (uview_byte _ _ _ _ (km_mem _ _ _ (vm_kmem _ _ _ _ _ _ _ _ Hv)) Hb) as Hbb.
    eapply wpx_mono; [eapply (IH addr n (i0 + 1) U' m' _ _ _ _ (q ++ [b])); try done|].
    + by apply pipe_rep_push; [|lia|].
    + by eapply resident_sub; [apply Hsv|].
    + lia.
    + rewrite length_app. cbn. lia.
    + lia.
    + intros v w' (m2 & fl2 & l2 & T2 & U2 & x2 & bs & -> & Hv2 & Ho2 & Hsv2 & Hx2 & Hu & -> & Hend2).
      exists m2, fl2, l2, T2, U2, x2, (b :: bs). rewrite <-app_assoc in Hx2.
      assert (Hvw : forall z, uview U' m' p.(p_sz) z = uview U m p.(p_sz) z) by (intros; by eapply uview_same).
      split_and!; try done.
      * by eapply same_view_trans.
      * intros [|k] c Hc; cbn in Hc.
        -- injection Hc as <-. by rewrite Z.add_0_r.
        -- specialize (Hu k c Hc). rewrite Hvw in Hu. rewrite <-Hu. f_equal. lia.
      * cbn. lia.
      * destruct Hend2 as [|[? Hn]]; [left; lia|right]. split; [lia|].
        rewrite Hvw in Hn. rewrite <-Hn. f_equal.
  - rewrite Hr. change (-1 =? -1) with true. cbv iota. apply wpx_finish.
    exists m', fl', l', T', U', x, []. rewrite app_nil_r. split_and!; try done; [cbn; lia|].
    right. split; [lia|]. done.
Qed.

Lemma wp_piperead_copy todo : forall addr i0 U m fl l T x q,
  vm_inv own m fl p.(p_pagetable) l T U pool -> user_owned own U -> pipe_rep x q ->
  0 <= addr + i0 -> addr + i0 + Z.of_nat (length (take todo q)) <= 2 ^ 64 ->
  (forall j, 0 <= j < Z.of_nat (length (take todo q)) -> writable U (addr + i0 + j)) ->
  wp (piperead_copy todo pi i addr i0) (fun r w' => exists m' x',
      w' = World (hart_push h) env tr (holding_st m' fl x') /\
      vm_inv own m' fl p.(p_pagetable) l T U pool /\ pipe_rep x' (drop todo q) /\
      r = i0 + Z.of_nat (length (take todo q)) /\ stored p.(p_sz) U m m' (addr + i0) (take todo q))
    (World (hart_push h) env tr (holding_st m fl x)).
Proof using HR IOk.
  induction todo as [|todo IH]; intros addr i0 U m fl l T x q Hv Ho Hx Ha Hmax Hw; cbn [piperead_copy].
  { apply wpx_ret. exists m, x. rewrite take_0, drop_0. cbn [length].
    split_and!; [done..|lia|]. intros z. cbn [length]. by rewrite decide_False by lia. }
  eapply wpx_bind, run_wp; [apply get_pipe_run|]. rewrite (pipe_empty_spec _ q) by done.
  destruct q as [|c q].
  { apply wpx_ret. exists m, x. rewrite take_nil, drop_nil. cbn [length].
    split_and!; [done..|lia|]. intros z. cbn [length]. by rewrite decide_False by lia. }
  rewrite bool_decide_eq_false_2 by done. destruct (pipe_rep_pop _ _ _ Hx) as [-> Hx'].
  pose proof (pr_bytes _ _ Hx) as Hbytes. apply Forall_cons in Hbytes as [Hc _].
  change (take (S todo) (c :: q)) with (c :: take todo q) in *. cbn [length] in Hmax, Hw.
  change (drop (S todo) (c :: q)) with (drop todo q). cbn [length].
  eapply wpx_bind, run_wp; [apply upd_pipe_run|].
  eapply wpx_bind, run_wp; [by apply get_proc_run, (rd_proc HR)|].
  rewrite (u64_small (addr + i0)) by lia.
  destruct (copyout_byte own pool p.(p_pagetable) T U fl l p Ho (hart_push h) env tr
    (set_pipes (<[pi := pipe_pop x]> s.(pipes)) (set_locks (lock_by h.(h_tp) pi s.(locks)) s)) (addr + i0) c m)
    as (m1 & R & Hv1 & Hs1); [done|lia|done|by rewrite <-(Z.add_0_r (addr + i0)); apply Hw; lia|].
  eapply wpx_bind, run_wp; [exact R|]. change (0 =? -1) with false. cbv iota.
  eapply wpx_mono; [eapply (IH addr (i0 + 1)); [exact Hv1|done|exact Hx'|lia|lia|]|].
  { intros j Hj. specialize (Hw (j + 1) ltac:(lia)). by replace (addr + (i0 + 1) + j) with (addr + i0 + (j + 1)) by lia. }
  intros r w' (m' & x' & -> & Hv' & Hx2 & -> & Hst). exists m', x'. split_and!; [done..|lia|].
  eapply stored_cons; [exact Hs1|by replace (addr + i0 + 1) with (addr + (i0 + 1)) by lia].
Qed.

(** The state before the lock is taken. *)
Definition idle_st (m : memory) (fl : Z) (x : pipe) : kstate :=
  set_km m fl (set_pipes (<[pi := x]> s.(pipes)) s).

Lemma wp_enter {A} (k : nat -> K A) (Q : A -> world -> Prop) m fl x :
  wp (k i) Q (World (hart_push (settle h)) env tr (holding_st m fl x)) ->
  wp (pr ← cur_proc; acquire pi;; k pr) Q (World h env tr (idle_st m fl x)).
Proof using HR.
  intros HQ. eapply wpx_bind, run_wp; [apply cur_proc_run; [apply (rd_hart HR)|apply (rd_me HR)]|].
  eapply wpx_bind, wpx_acquire; [apply (rd_pi HR)|].
  unfold acquired, set_w_hart, set_w_st. cbn. unfold holding_st, idle_st in *.
  replace (h_tp (settle h)) with h.(h_tp) by (unfold settle; by destruct (_ =? 0)). by destruct s.
Qed.

End calls.

Lemma settle_ready own s h pi i p : ready own s h pi i p -> ready own s (settle h) pi i p.
Proof.
  intros []. split; try done.
  - by apply settle_ok.
  - by rewrite settle_proc.
Qed.

Lemma holding_st_settle s h pi m fl x : holding_st s (settle h) pi m fl x = holding_st s h pi m fl x.
Proof. unfold holding_st. replace (h_tp (settle h)) with h.(h_tp); [done|]. unfold settle. by destruct (_ =? 0). Qed.

Section theorems.
Context {I : Image} {IOk : ImageOk I}.


(** Piperead() of [n] bytes, from a pipe that is not empty or has no
    writer left, takes the first [min n (length q)] bytes off the queue,
    stores them at [addr] and nowhere else, wakes the writers, and returns
    their number. *)
Theorem piperead_correct own env tr s h pi i p pool U m fl l T x q addr n :
  ready own s h pi i p -> vm_inv own m fl p.(p_pagetable) l T U pool -> user_owned own U ->
  pipe_rep x q -> (q = [] -> x.(pi_writeopen) = 0) ->
  0 <= addr -> 0 <= n -> addr + n <= 2 ^ 64 ->
  (forall j, 0 <= j < n -> j < Z.of_nat (length q) -> writable U (addr + j)) ->
  wp (piperead pi addr n) (fun r w' => exists m' x',
      w' = World (settle h) env tr (done_st s pi i (chan_pipe_nwrite pi) m' fl x') /\
      vm_inv own m' fl p.(p_pagetable) l T U pool /\ pipe_rep x' (drop (Z.to_nat n) q) /\
      r = Z.min n (Z.of_nat (length q)) /\ stored p.(p_sz) U m m' addr (take (Z.to_nat n) q))
    (World h env tr (idle_st s pi m fl x)).
Proof.
  intros HR Hv Ho Hx Hopen Ha Hn Hend Hw. unfold piperead.
  apply (wp_enter own env tr s h pi i p HR). rewrite <-(holding_st_settle s h).
  pose proof (settle_ready _ _ _ _ _ _ HR) as HR'. kstep. kstep.
  assert (Hwait : pipe_empty x && ztrue x.(pi_writeopen) = false).
  { rewrite (pipe_empty_spec _ q) by done. case_bool_decide as E; [|done]. by rewrite (Hopen E). }
  eapply wpx_bind, run_wp.
  { cbn [piperead_wait]. erewrite bind_run by apply get_pipe_run. by rewrite Hwait. }
  cbn [negb]. assert (Hlen : Z.of_nat (length (take (Z.to_nat n) q)) = Z.min n (Z.of_nat (length q)))
    by (rewrite length_take; lia).
  eapply wpx_call.
  { eapply (wp_piperead_copy own env tr s _ pi i p pool HR'); [done|done|done|lia|lia|].
    intros j Hj. rewrite Z.add_0_r. apply Hw; lia. }
  intros r w' (m' & x' & -> & Hv' & Hx' & -> & Hst).
  apply (wpx_finish own env tr s (settle h) pi i p HR'). rewrite settle_idemp. exists m', x'.
  rewrite Z.add_0_r in Hst. split_and!; try done; lia.
Qed.

(** When the first byte cannot be stored because [addr] is beyond the
    process's memory, piperead() returns 0, as at the end of the stream, and
    the byte is gone from the pipe: nobody will read it. *)
Theorem piperead_bad_address_loses_byte own env tr s h pi i p pool U m fl l T x c q addr n :
  ready own s h pi i p -> vm_inv own m fl p.(p_pagetable) l T U pool ->
  pipe_rep x (c :: q) -> 0 <= addr < 2 ^ 64 -> 0 < n ->
  U !! PGROUNDDOWN addr = None -> p.(p_sz) <= PGROUNDDOWN addr ->
  wp (piperead pi addr n) (fun r w' => r = 0 /\ exists x',
      w' = World (settle h) env tr (done_st s pi i (chan_pipe_nwrite pi) m fl x') /\ pipe_rep x' q)
    (World h env tr (idle_st s pi m fl x)).
Proof.
  intros HR Hv Hx Ha Hn HU Hsz. unfold piperead.
  apply (wp_enter own env tr s h pi i p HR). rewrite <-(holding_st_settle s h).
  pose proof (settle_ready _ _ _ _ _ _ HR) as HR'. kstep. kstep.
  assert (Hne : pipe_empty x = false) by (by rewrite (pipe_empty_spec _ (c :: q))).
  eapply wpx_bind, run_wp.
  { cbn [piperead_wait]. erewrite bind_run by apply get_pipe_run. by rewrite Hne. }
  cbn [negb]. destruct (Z.to_nat n) as [|todo] eqn:En; [lia|]. cbn [piperead_copy].
  destruct (pipe_rep_pop _ _ _ Hx) as [_ Hx'].
  eapply wpx_bind. eapply wpx_bind, run_wp; [apply get_pipe_run|]. rewrite Hne.
  eapply wpx_bind, run_wp; [apply upd_pipe_run|].
  eapply wpx_bind, run_wp; [by apply get_proc_run, (rd_proc _ _ _ _ _ _ HR)|].
  rewrite Z.add_0_r, u64_small by done.
  eapply wpx_bind, run_wp.
  { pose proof (rd_hart _ _ _ _ _ _ HR') as Hh.
    eapply copyout_beyond_run; try done;
      [by apply settle_push|by apply hart_push_ok|lia|exact (rd_me _ _ _ _ _ _ HR')|exact (rd_proc _ _ _ _ _ _ HR)]. }
  change (-1 =? -1) with true. cbv iota. apply wpx_ret.
  apply (wpx_finish own env tr s (settle h) pi i p HR'). rewrite settle_idemp. split; [done|]. by eexists.
Qed.

End theorems.

(** ** Concrete instances *)

#[local] Existing Instances small_image small_image_ok.

(** A pipe whose counters are about to wrap around, open on both sides. *)
Definition wrap_pipe : pipe := Pipe (replicate 512 0) (2 ^ 32 - 1) (2 ^ 32 - 1) 1 1.

Lemma wrap_pipe_fresh : fresh wrap_pipe.
Proof. split_and!; [reflexivity|cbn; lia|cbn; lia|reflexivity]. Qed.

Lemma pipe_fifo_witness :
  exists p', rtc pipe_step (wrap_pipe, [], []) (p', [7; 8], [7]) /\ p'.(pi_nwrite) = 1 /\ exists q, [7; 8] = [7] ++ q.
Proof.
  exists (pipe_pop (pipe_push 8 (pipe_push 7 wrap_pipe))).
  assert (H : rtc pipe_step (wrap_pipe, [], []) (pipe_pop (pipe_push 8 (pipe_push 7 wrap_pipe)), [7; 8], [7])).
  { eapply rtc_l; [apply (step_write _ [] [] 7); [reflexivity|lia]|].
    eapply rtc_l; [apply (step_write _ [7] [] 8); [reflexivity|lia]|].
    apply rtc_once. exact (step_read (pipe_push 8 (pipe_push 7 wrap_pipe)) [7; 8] [] eq_refl). }
  destruct (pipe_fifo _ _ _ _ wrap_pipe_fresh H) as (q & Hq & _).
  split; [exact H|]. split; [reflexivity|]. by exists q.
Defined.

Lemma demo_ready : ready user_page demo_st demo_hart demo_pipe 0 demo_proc.
Proof.
  split; try reflexivity.
  - apply demo_hart_ok.
  - apply demo_proc_lock.
  - by apply demo_static_lock.
  - apply demo_pipe_lock.
  - done.
  - intros va Hva. change (p_sz demo_proc) with PGSIZE in Hva. apply Z.ltb_lt. llia.
Qed.

Lemma wrap_pipe_rep : pipe_rep (pipe_push 7 wrap_pipe) [7].
Proof. by apply (pipe_rep_push wrap_pipe []); [apply fresh_rep, wrap_pipe_fresh|..]. Qed.


Lemma piperead_correct_witness : exists m fl w',
  piperead demo_pipe 100 5 (World demo_hart [] [] (idle_st demo_st demo_pipe m fl (pipe_push 7 wrap_pipe))) = Ret 1 w'.
Proof.
  destruct demo_mem_exists as (m & fl & l & T & U & [Hv Ho Hp Hz HN]).
  pose proof (piperead_correct user_page [] [] demo_st demo_hart demo_pipe 0 demo_proc small_pool U m fl l T
    (pipe_push 7 wrap_pipe) [7] 100 5 demo_ready Hv Ho wrap_pipe_rep ltac:(done) ltac:(lia) ltac:(lia)
    ltac:(lia) ltac:(intros j Hj _; apply Hp; llia)) as H.
  apply wp_run in H. destruct H as (r & w' & Hr & m' & x' & _ & _ & _ & -> & _).
  exists m, fl, w'. exact Hr.
Defined.

Lemma piperead_bad_address_loses_byte_witness : exists m fl w' x',
  piperead demo_pipe 8192 5 (World demo_hart [] [] (idle_st demo_st demo_pipe m fl (pipe_push 7 wrap_pipe))) = Ret 0 w' /\
  w'.(w_st).(pipes) !! demo_pipe = Some x' /\ pipe_rep x' [].
Proof.
  destruct demo_mem_exists as (m & fl & l & T & U & [Hv Ho Hp Hz HN]).
  pose proof (piperead_bad_address_loses_byte user_page [] [] demo_st demo_hart demo_pipe 0 demo_proc small_pool U
    m fl l T (pipe_push 7 wrap_pipe) 7 [] 8192 5 demo_ready Hv wrap_pipe_rep ltac:(lia) ltac:(lia)
    (HN 8192 ltac:(llia)) ltac:(by vm_compute)) as H.
  apply wp_run in H. destruct H as (r & w' & Hr & -> & x' & -> & Hx).
  exists m, fl. eexists _, x'. split; [exact Hr|]. split; [|exact Hx]. cbn. apply lookup_insert_eq.
Defined.
