(* ===== verification/Console.v ===== *)
(** * Console: kernel/console.c, the interrupt side of kernel/uart.c, and
    procdump() of kernel/proc.c *)

From S2P Require Import Prelude Memory Riscv Machine Spinlock Kalloc Vm Sched Uart.

Definition INPUT_BUF_SIZE : Z := 128.

(** [C(x)]: control-x *)
Definition CTRL (x : Z) : Z := x - 64.

Definition upd_cons (f : console -> console) : K unit := modk (fun s => set_cons (f s.(cons)) s).

(** The table [states] of procdump(). *)
Definition state_name (st : procstate) : string :=
  match st with
  | UNUSED => "unused" | USED => "used" | SLEEPING => "sleep " | RUNNABLE => "runble"
  | RUNNING => "run   " | ZOMBIE => "zombie"
  end.

Section console.
Context {I : Image} {Dev : Device}.

(** procdump(): one line per process that is in use. *)
Definition procdump : K unit :=
  printf [10] [];;
  for_each (seq 0 NPROC) (fun i =>
    p ← get_proc i;
    if bool_decide (p.(p_state) = UNUSED) then mret tt else
    printf (chars "%d %s %s") [PInt p.(p_pid); PStr (Some (chars (state_name p.(p_state))));
                               PStr (Some (upto_nul p.(p_name)))];;
    printf [10] []).

(** The loop of consolewrite(), 32 bytes a round. *)
Fixpoint consolewrite_loop (fuel : nat) (user_src : bool) (src n i : Z) : K Z :=
  if i <? n then
    match fuel with
    | O => no_fuel
    | S fuel =>
        let nn := if 32 >? n - i then n - i else 32 in
        r ← either_copyin user_src (u64 (src + i)) nn;
        if r.1 =? -1 then mret i else
        uartwrite r.2;;
        consolewrite_loop fuel user_src src n (i + nn)
    end
  else mret i.

Definition consolewrite (user_src : bool) (src n : Z) : K Z :=
  consolewrite_loop (S (Z.to_nat (n / 32))) user_src src n 0.

(** [while(cons.r == cons.w) ...]; [false] when the process was killed. *)
Fixpoint cons_wait (fuel : nat) : K bool :=
  c ← getk cons;
  if c.(cons_r) =? c.(cons_w) then
    me ← cur_proc;
    k ← killed me;
    if ztrue k then mret false else
    match fuel with
    | O => no_fuel
    | S fuel => sleep chan_cons_r cons_lock;; cons_wait fuel
    end
  else mret true.

(** The outer loop; it returns [None] when the process was killed and
    [Some n] with what is left of [n] otherwise. *)
Fixpoint consoleread_loop (fuel : nat) (user_dst : bool) (dst target n : Z) : K (option Z) :=
  if n >? 0 then
    match fuel with
    | O => no_fuel
    | S fuel =>
        turns ← gets (fun w => S (length w.(w_env)));
        alive ← cons_wait turns;
        if negb alive then mret None else
        cs ← getk cons;
        let c := cs.(cons_buf) !!! Z.to_nat (cs.(cons_r) mod INPUT_BUF_SIZE) in
        upd_cons (fun cs => set_cons_r (u32 (cs.(cons_r) + 1)) cs);;
        if c =? CTRL 68 then
          when (n <? target) (upd_cons (fun cs => set_cons_r (u32 (cs.(cons_r) - 1)) cs));;
          mret (Some n)
        else
        r ← either_copyout user_dst dst [u8 c];
        if r =? -1 then mret (Some n) else
        if c =? 10 then mret (Some (n - 1)) else
        consoleread_loop fuel user_dst (u64 (dst + 1)) target (n - 1)
    end
  else mret (Some n).

Definition consoleread (user_dst : bool) (dst n : Z) : K Z :=
  acquire cons_lock;;
  r ← consoleread_loop (Z.to_nat n) user_dst dst n n;
  release cons_lock;;
  match r with
  | None => mret (-1)
  | Some rest => mret (s32 (n - rest))
  end.

(** [case C('U')]: at most the buffer's size can be erased. *)
Fixpoint kill_line (fuel : nat) : K unit :=
  c ← getk cons;
  if negb (c.(cons_e) =? c.(cons_w)) &&
     negb (c.(cons_buf) !!! Z.to_nat (u32 (c.(cons_e) - 1) mod INPUT_BUF_SIZE) =? 10) then
    match fuel with
    | O => no_fuel
    | S fuel =>
        upd_cons (fun c => set_cons_e (u32 (c.(cons_e) - 1)) c);;
        consputc BACKSPACE;;
        kill_line fuel
    end
  else mret tt.

(** [default:] *)
Definition cons_default (c : Z) : K unit :=
  cs ← getk cons;
  when (negb (c =? 0) && (u32 (cs.(cons_e) - cs.(cons_r)) <? INPUT_BUF_SIZE))
    (let c := if c =? 13 then 10 else c in
     consputc c;;
     upd_cons (fun cs => set_cons_e (u32 (cs.(cons_e) + 1))
       (set_cons_buf (<[Z.to_nat (cs.(cons_e) mod INPUT_BUF_SIZE) := u8 c]> cs.(cons_buf)) cs));;
     cs ← getk cons;
     when ((c =? 10) || (c =? CTRL 68) || (u32 (cs.(cons_e) - cs.(cons_r)) =? INPUT_BUF_SIZE))
       (upd_cons (fun cs => set_cons_w cs.(cons_e) cs);;
        wakeup chan_cons_r)).

(** [switch(c)] *)
Definition cons_switch (c : Z) : K unit :=
  if c =? CTRL 80 then procdump
  else if c =? CTRL 85 then kill_line (Z.to_nat INPUT_BUF_SIZE)
  else if (c =? CTRL 72) || (c =? 127) then
    cs ← getk cons;
    when (negb (cs.(cons_e) =? cs.(cons_w)))
      (upd_cons (fun cs => set_cons_e (u32 (cs.(cons_e) - 1)) cs);;
       consputc BACKSPACE)
  else cons_default c.

Definition consoleintr (c : Z) : K unit :=
  acquire cons_lock;;
  cons_switch c;;
  release cons_lock.

Definition CONSOLE : Z := 1.

Definition consoleinit : K unit :=
  initlock cons_lock "cons";;
  uartinit;;
  modk (fun s => set_devsw (<[CONSOLE := ConsoleDriver]> s.(devsw)) s).

(** The loop of uartintr() that drains the receiver. *)
Fixpoint uart_drain (fuel : nat) : K unit :=
  c ← uartgetc;
  if c =? -1 then mret tt else
  match fuel with
  | O => no_fuel
  | S fuel => consoleintr c;; uart_drain fuel
  end.

Definition uartintr : K unit :=
  ReadReg ISR;;
  acquire tx_lock;;
  lsr ← ReadReg LSR;
  when (ztrue (Z.land lsr LSR_TX_IDLE))
    (modk (set_tx_busy 0);;
     wakeup chan_tx);;
  release tx_lock;;
  uart_drain dev_patience.

End console.
