(* ===== verification/ConsoleSpec.v ===== *)
(** * The console's line editor

    The input buffer holds a queue of committed characters, which readers
    may take, followed by the line being edited.  [line_input] is what a
    keystroke means for the two, and consoleintr() implements it with 32-bit
    counters into a ring of 128 bytes. *)

From S2P Require Import Prelude Memory CString Riscv Machine Spinlock Kalloc Vm Pagetable Uvm UserCopy UserPages VmSpec Sched Demo Uart RingBuf Pipe PipeSpec Console.

(** [A]: committed characters; [B]: the line being edited, which has no
    newline. *)
Record cons_rep (c : console) (A B : list Z) : Prop := {
  cr_ring : ring_holds INPUT_BUF_SIZE c.(cons_buf) c.(cons_r) (A ++ B);
  cr_r : 0 <= c.(cons_r) < 2 ^ 32;
  cr_w : c.(cons_w) = u32 (c.(cons_r) + Z.of_nat (length A));
  cr_e : c.(cons_e) = u32 (c.(cons_r) + Z.of_nat (length (A ++ B)));
  cr_line : 10 ∉ B;
  cr_bytes : Forall (fun b => 0 <= b < 2 ^ 8) (A ++ B);
}.

Lemma INPUT_BUF_div : (INPUT_BUF_SIZE | 2 ^ 32).
Proof. by exists (2 ^ 25). Qed.

Section rep.
Context (c : console) (A B : list Z) (Hc : cons_rep c A B).

Lemma cons_total : Z.of_nat (length (A ++ B)) <= INPUT_BUF_SIZE.
Proof using Hc. apply (rh_bound _ _ _ _ (cr_ring _ _ _ Hc)). Qed.

Lemma cons_count : u32 (c.(cons_e) - c.(cons_r)) = Z.of_nat (length (A ++ B)).
Proof using Hc.
  pose proof cons_total. rewrite (cr_e _ _ _ Hc). rewrite <-(u32_small c.(cons_r)) at 2 by apply Hc.
  apply u32_sub_dist. unfold INPUT_BUF_SIZE in *. lia.
Qed.

(** [cons.e == cons.w]: nothing is being edited *)
Lemma cons_e_w : (c.(cons_e) =? c.(cons_w)) = bool_decide (B = []).
Proof using Hc.
  pose proof cons_total as Ht. rewrite (cr_e _ _ _ Hc), (cr_w _ _ _ Hc). rewrite length_app in *.
  rewrite u32_dist_eqb by (unfold INPUT_BUF_SIZE in *; lia).
  destruct B; cbn [length] in *; [|by apply Z.eqb_neq; lia].
  by rewrite bool_decide_eq_true_2 by done; apply Z.eqb_eq; lia.
Qed.

(** [cons.r == cons.w]: nothing to read *)
Lemma cons_r_w : (c.(cons_r) =? c.(cons_w)) = bool_decide (A = []).
Proof using Hc.
  pose proof cons_total as Ht. rewrite (cr_w _ _ _ Hc). rewrite length_app in *.
  rewrite <-(u32_small c.(cons_r)) at 1 by apply Hc. rewrite <-(Z.add_0_r c.(cons_r)) at 1.
  rewrite u32_dist_eqb by (unfold INPUT_BUF_SIZE in *; lia). by destruct A.
Qed.

Lemma cons_rep_append ch :
  Z.of_nat (length (A ++ B)) < INPUT_BUF_SIZE -> ch <> 10 -> 0 <= ch < 2 ^ 8 ->
  cons_rep (set_cons_e (u32 (c.(cons_e) + 1))
    (set_cons_buf (<[Z.to_nat (c.(cons_e) mod INPUT_BUF_SIZE) := ch]> c.(cons_buf)) c)) A (B ++ [ch]).
Proof using Hc.
  intros Hlt Hch Hb. destruct Hc as [H1 H2 H3 H4 H5 H6]. split; cbn; try done.
  - rewrite app_assoc, H4. by apply ring_push; [|apply INPUT_BUF_div|..].
  - rewrite app_assoc, length_app, H4, u32_add_idemp. f_equal. cbn [length]. lia.
  - rewrite elem_of_app, list_elem_of_singleton. intros [?|E]; [done|by symmetry in E].
  - rewrite app_assoc. apply Forall_app. by rewrite Forall_singleton.
Qed.

Lemma cons_rep_commit ch :
  Z.of_nat (length (A ++ B)) < INPUT_BUF_SIZE -> 0 <= ch < 2 ^ 8 ->
  let c1 := set_cons_e (u32 (c.(cons_e) + 1))
    (set_cons_buf (<[Z.to_nat (c.(cons_e) mod INPUT_BUF_SIZE) := ch]> c.(cons_buf)) c) in
  cons_rep (set_cons_w c1.(cons_e) c1) (A ++ B ++ [ch]) [].
Proof using Hc.
  intros Hlt Hb. destruct Hc as [H1 H2 H3 H4 H5 H6]. split; cbn; rewrite ?app_nil_r; try done.
  - rewrite app_assoc, H4. by apply ring_push; [|apply INPUT_BUF_div|..].
  - rewrite app_assoc, (length_app _ [ch]), H4, u32_add_idemp. f_equal. cbn [length]. lia.
  - rewrite app_assoc, (length_app _ [ch]), H4, u32_add_idemp. f_equal. cbn [length]. lia.
  - set_solver.
  - rewrite app_assoc. apply Forall_app. by rewrite Forall_singleton.
Qed.

End rep.

(** Taking back the last character of the line. *)
Lemma cons_rep_erase c A B ch :
  cons_rep c A (B ++ [ch]) ->
  u32 (c.(cons_e) - 1) = u32 (c.(cons_r) + Z.of_nat (length (A ++ B))) /\
  c.(cons_buf) !!! Z.to_nat (u32 (c.(cons_e) - 1) mod INPUT_BUF_SIZE) = ch /\
  cons_rep (set_cons_e (u32 (c.(cons_e) - 1)) c) A B.
Proof.
  intros [H1 H2 H3 H4 H5 H6]. rewrite app_assoc in H1, H6. apply Forall_app in H6 as [H6 _].
  destruct (ring_last INPUT_BUF_SIZE ltac:(done) INPUT_BUF_div _ _ _ _ H1) as [Hch H1'].
  assert (E : u32 (c.(cons_e) - 1) = u32 (c.(cons_r) + Z.of_nat (length (A ++ B)))).
  { rewrite H4, app_assoc, length_app. cbn [length]. unfold Z.sub. rewrite u32_add_idemp. f_equal. lia. }
  split_and!; [done|by rewrite E|]. split; cbn; try done. set_solver.
Qed.

(** Taking the first committed character. *)
Lemma cons_rep_take c ch A B :
  cons_rep c (ch :: A) B ->
  c.(cons_buf) !!! Z.to_nat (c.(cons_r) mod INPUT_BUF_SIZE) = ch /\
  cons_rep (set_cons_r (u32 (c.(cons_r) + 1)) c) A B.
Proof.
  intros [H1 H2 H3 H4 H5 H6]. apply Forall_cons in H6 as [_ H6].
  destruct (ring_pop INPUT_BUF_SIZE ltac:(done) INPUT_BUF_div _ _ _ _ H1) as [Hch H1'].
  split; [done|]. split; cbn; try done.
  - apply u32_range.
  - rewrite H3, u32_add_idemp. f_equal. cbn [length]. lia.
  - rewrite H4, u32_add_idemp. f_equal. cbn [length app]. lia.
Qed.

(** ** What a keystroke means *)

Definition stored_char (c : Z) : Z := if c =? 13 then 10 else c.

(** The character ends the line, or fills the buffer. *)
Definition commits (c n : Z) : bool := (c =? 10) || (c =? CTRL 68) || (n + 1 =? INPUT_BUF_SIZE).

(** The committed characters and the line after the key [c]. *)
Definition line_input (c : Z) (A B : list Z) : list Z * list Z :=
  if c =? CTRL 80 then (A, B)
  else if c =? CTRL 85 then (A, [])
  else if (c =? CTRL 72) || (c =? 127) then (A, removelast B)
  else if (c =? 0) || (INPUT_BUF_SIZE <=? Z.of_nat (length (A ++ B))) then (A, B)
  else if commits (stored_char c) (Z.of_nat (length (A ++ B))) then (A ++ B ++ [stored_char c], [])
  else (A, B ++ [stored_char c]).

(** The characters procdump() prints for a process. *)
Definition proc_line (p : proc) : list Z :=
  if bool_decide (p.(p_state) = UNUSED) then [] else
  printf_chars 8 (chars "%d %s %s") [PInt p.(p_pid); PStr (Some (chars (state_name p.(p_state))));
    PStr (Some (upto_nul p.(p_name)))] ++ [10].

(** What the terminal gets to see. *)
Definition echo (ps : list proc) (c : Z) (A B : list Z) : list Z :=
  concat (cons_bytes <$>
    (if c =? CTRL 80 then 10 :: concat (proc_line <$> ps)
     else if c =? CTRL 85 then replicate (length B) BACKSPACE
     else if (c =? CTRL 72) || (c =? 127) then (if decide (B = []) then [] else [BACKSPACE])
     else if (c =? 0) || (INPUT_BUF_SIZE <=? Z.of_nat (length (A ++ B))) then []
     else [stored_char c])).

Section intr.
Context {I : Image} {Dev : Device} {Ready : UartReady}.
Context (env : list turn) (s : kstate) (h : hart).
Context (Hh : hart_ok h) (Hp : printable s) (Hsz : sized s).
Context (HLc : lock_free s cons_lock) (HLp : lock_free s pr_lock).
Context (HL : forall j, (j < NPROC)%nat -> lock_free s (proc_lock j)).

(** The state while the console's lock is held. *)
Definition cons_st (c : console) : kstate := set_cons c (set_locks (lock_by h.(h_tp) cons_lock s.(locks)) s).

Lemma cons_st_lock c lk : lk <> cons_lock -> lock_free s lk -> lock_free (cons_st c) lk.
Proof. intros Hne [name E]. exists name. etrans; [by apply lookup_lock_by_ne|exact E]. Qed.

Lemma put_run ch tr c :
  exists tr', consputc ch (World (hart_push h) env tr (cons_st c)) = Ret tt (World (hart_push h) env tr' (cons_st c)) /\
    uart_out tr' = uart_out tr ++ cons_bytes ch.
Proof using Ready Hh Hp.
  destruct (consputc_run ch (hart_push h) env tr (cons_st c)) as (tr' & R & O); [by apply hart_push_ok|done|].
  rewrite settle_push in R by done. by exists tr'.
Qed.

Lemma print_run fmt args tr c :
  exists tr', printf fmt args (World (hart_push h) env tr (cons_st c)) = Ret tt (World (hart_push h) env tr' (cons_st c)) /\
    uart_out tr' = uart_out tr ++ concat (cons_bytes <$> printf_chars (length fmt) fmt args).
Proof using Ready Hh Hp HLp.
  destruct (printf_run fmt args (hart_push h) env tr (cons_st c)) as (tr' & R & O);
    [by apply hart_push_ok|done|by apply cons_st_lock|].
  rewrite settle_push in R by done. by exists tr'.
Qed.

Definition dump_one (i : nat) : K unit :=
  p ← get_proc i;
  if bool_decide (p.(p_state) = UNUSED) then mret tt else
  printf (chars "%d %s %s") [PInt p.(p_pid); PStr (Some (chars (state_name p.(p_state))));
                             PStr (Some (upto_nul p.(p_name)))];;
  printf [10] [].

Lemma dump_one_run i p tr c :
  s.(procs) !! i = Some p ->
  exists tr', dump_one i (World (hart_push h) env tr (cons_st c)) = Ret tt (World (hart_push h) env tr' (cons_st c)) /\
    uart_out tr' = uart_out tr ++ concat (cons_bytes <$> proc_line p).
Proof using Ready Hh Hp HLp.
  intros Hi. unfold dump_one, proc_line.
  destruct (print_run (chars "%d %s %s") [PInt p.(p_pid); PStr (Some (chars (state_name p.(p_state))));
    PStr (Some (upto_nul p.(p_name)))] tr c) as (t1 & R1 & O1).
  destruct (print_run [10] [] t1 c) as (t2 & R2 & O2).
  case_bool_decide as E.
  - exists tr. split; [|by rewrite app_nil_r]. erewrite bind_run by (by apply get_proc_run).
    by rewrite bool_decide_eq_true_2.
  - exists t2. split.
    + erewrite bind_run by (by apply get_proc_run). rewrite bool_decide_eq_false_2 by done.
      erewrite bind_run by exact R1. exact R2.
    + rewrite O2, O1, <-app_assoc, fmap_app, concat_app. done.
Qed.

Lemma dump_run n : forall k tr c, (k + n = length s.(procs))%nat ->
  exists tr', for_each (seq k n) dump_one (World (hart_push h) env tr (cons_st c)) =
    Ret tt (World (hart_push h) env tr' (cons_st c)) /\
    uart_out tr' = uart_out tr ++ concat (cons_bytes <$> concat (proc_line <$> drop k s.(procs))).
Proof using Ready Hh Hp HLp.
  induction n as [|n IH]; intros k tr c Hk; cbn [seq for_each].
  - exists tr. split; [done|]. rewrite drop_ge by lia. cbn. by rewrite app_nil_r.
  - destruct (lookup_lt_is_Some_2 s.(procs) k ltac:(lia)) as [p Hi].
    destruct (dump_one_run k p tr c Hi) as (t1 & R1 & O1).
    destruct (IH (S k) t1 c ltac:(lia)) as (t2 & R2 & O2).
    exists t2. split; [by erewrite bind_run by exact R1|]. rewrite O2, O1, (drop_S _ _ _ Hi).
    rewrite fmap_cons. cbn [concat]. by rewrite fmap_app, concat_app, <-app_assoc.
Qed.

Lemma procdump_run tr c :
  exists tr', procdump (World (hart_push h) env tr (cons_st c)) = Ret tt (World (hart_push h) env tr' (cons_st c)) /\
    uart_out tr' = uart_out tr ++ concat (cons_bytes <$> 10 :: concat (proc_line <$> s.(procs))).
Proof using Ready Hh Hp HLp Hsz.
  destruct (print_run [10] [] tr c) as (t1 & R1 & O1).
  destruct (dump_run NPROC 0 t1 c ltac:(by rewrite Hsz)) as (t2 & R2 & O2).
  exists t2. split.
  - unfold procdump. erewrite bind_run by exact R1. exact R2.
  - rewrite O2, O1, drop_0, <-app_assoc. done.
Qed.

(** Kill the line: erase it character by character. *)
Lemma kill_line_run fuel : forall tr c A B,
  cons_rep c A B -> (length B <= fuel)%nat ->
  exists tr' c', kill_line fuel (World (hart_push h) env tr (cons_st c)) = Ret tt (World (hart_push h) env tr' (cons_st c')) /\
    cons_rep c' A [] /\ uart_out tr' = uart_out tr ++ concat (cons_bytes <$> replicate (length B) BACKSPACE).
Proof using Ready Hh Hp.
  clear Hsz HLc HLp HL.
  induction fuel as [|fuel IH]; intros tr c A B Hc Hlen; cbn [kill_line];
    erewrite bind_run by reflexivity; change (cons (w_st (World (hart_push h) env tr (cons_st c)))) with c;
    rewrite (cons_e_w _ _ _ Hc).
  - destruct B; [|cbn in Hlen; lia]. exists tr, c. split_and!; [done|done|]. cbn. by rewrite app_nil_r.
  - destruct B as [|ch B _] using rev_ind.
    { exists tr, c. split_and!; [done|done|]. cbn. by rewrite app_nil_r. }
    rewrite bool_decide_eq_false_2 by (by destruct B). cbn [negb andb].
    destruct (cons_rep_erase _ _ _ _ Hc) as (_ & Hch & Hc'). rewrite Hch.
    assert (ch <> 10) as Hne by (intros ->; apply (cr_line _ _ _ Hc); set_solver).
    apply Z.eqb_neq in Hne. rewrite Hne. cbn [negb].
    erewrite bind_run by reflexivity. change (set_w_st _ _) with
      (World (hart_push h) env tr (cons_st (set_cons_e (u32 (c.(cons_e) - 1)) c))).
    destruct (put_run BACKSPACE tr (set_cons_e (u32 (c.(cons_e) - 1)) c)) as (t1 & R1 & O1).
    rewrite length_app in Hlen. cbn [length] in Hlen.
    destruct (IH t1 _ A B Hc' ltac:(lia)) as (t2 & c2 & R2 & Hc2 & O2).
    exists t2, c2. split; [by erewrite bind_run by exact R1|]. split; [done|].
    rewrite O2, O1, <-app_assoc, length_app, Nat.add_comm. done.
Qed.

(** What consoleintr() does between acquire() and release(): the processes
    waiting for input are woken when a line was committed. *)
Definition edited (A B : list Z) (ch : Z) (tr : list event) (r : outcome world unit) : Prop :=
  exists tr' c' ps, r = Ret tt (World (hart_push h) env tr' (set_procs ps (cons_st c'))) /\
    cons_rep c' (line_input ch A B).1 (line_input ch A B).2 /\
    uart_out tr' = uart_out tr ++ echo s.(procs) ch A B /\
    ps = (if decide ((line_input ch A B).1 = A) then s.(procs)
          else wake_all h.(h_proc) chan_cons_r s.(procs)).

Lemma edited_quiet A B A' B' ch tr tr' c' :
  line_input ch A B = (A', B') -> A' = A -> cons_rep c' A' B' ->
  uart_out tr' = uart_out tr ++ echo s.(procs) ch A B ->
  edited A B ch tr (Ret tt (World (hart_push h) env tr' (cons_st c'))).
Proof.
  intros E -> Hc Ho. exists tr', c', s.(procs). rewrite E, decide_True by done. split_and!; done.
Qed.

Lemma cons_default_run ch tr c A B :
  cons_rep c A B -> 0 <= ch < 2 ^ 8 ->
  ch <> CTRL 80 -> ch <> CTRL 85 -> ch <> CTRL 72 -> ch <> 127 ->
  edited A B ch tr (cons_default ch (World (hart_push h) env tr (cons_st c))).
Proof using Ready Hh Hp Hsz HL.
  intros Hc Hch H1 H2 H3 H4. apply Z.eqb_neq in H1, H2, H3, H4.
  pose proof (cons_total _ _ _ Hc) as Ht. unfold cons_default. erewrite bind_run by reflexivity.
  change (cons (w_st (World (hart_push h) env tr (cons_st c)))) with c. rewrite (cons_count _ _ _ Hc).
  set (n := Z.of_nat (length (A ++ B))) in *.
  assert (Hguard : negb (ch =? 0) && (n <? INPUT_BUF_SIZE) = negb ((ch =? 0) || (INPUT_BUF_SIZE <=? n))).
  { by rewrite negb_orb, Z.ltb_antisym. }
  rewrite Hguard. destruct ((ch =? 0) || (INPUT_BUF_SIZE <=? n)) eqn:Eg; cbn [negb when].
  { eapply edited_quiet; [|done|exact Hc|].
    - unfold line_input. rewrite H1, H2, H3, H4. cbn [orb]. fold n. by rewrite Eg.
    - unfold echo. rewrite H1, H2, H3, H4. cbn [orb]. fold n. rewrite Eg. cbn. by rewrite app_nil_r. }
  fold (stored_char ch). set (x := stored_char ch).
  assert (Hx : 0 <= x < 2 ^ 8) by (unfold x, stored_char; destruct (ch =? 13); lia).
  apply orb_false_iff in Eg as Eg'. destruct Eg' as [_ Hn%Z.leb_gt].
  destruct (put_run x tr c) as (t1 & R1 & O1). erewrite bind_run by exact R1.
  erewrite bind_run by reflexivity. rewrite u8_small by done.
  set (c1 := set_cons_e (u32 (c.(cons_e) + 1))
    (set_cons_buf (<[Z.to_nat (c.(cons_e) mod INPUT_BUF_SIZE) := x]> c.(cons_buf)) c)).
  change (set_w_st _ _) with (World (hart_push h) env t1 (cons_st c1)).
  erewrite bind_run by reflexivity. change (cons (w_st (World (hart_push h) env t1 (cons_st c1)))) with c1.
  assert (Hcnt : u32 (c1.(cons_e) - c1.(cons_r)) = n + 1).
  { cbn. rewrite (cr_e _ _ _ Hc). fold n. rewrite u32_add_idemp.
    rewrite <-(u32_small c.(cons_r)) at 2 by apply Hc. rewrite <-Z.add_assoc.
    apply u32_sub_dist. unfold INPUT_BUF_SIZE in *. lia. }
  rewrite Hcnt. fold (commits x n).
  assert (Hecho : uart_out t1 = uart_out tr ++ echo s.(procs) ch A B).
  { rewrite O1. unfold echo. rewrite H1, H2, H3, H4. cbn [orb]. fold n. rewrite Eg. fold x. cbn. by rewrite app_nil_r. }
  assert (Hline : line_input ch A B = if commits x n then (A ++ B ++ [x], []) else (A, B ++ [x])).
  { unfold line_input. rewrite H1, H2, H3, H4. cbn [orb]. fold n. rewrite Eg. by fold x. }
  destruct (commits x n) eqn:Ecm; cbn [when].
  - erewrite bind_run by reflexivity.
    change (set_w_st _ _) with (World (hart_push h) env t1 (cons_st (set_cons_w c1.(cons_e) c1))).
    rewrite wakeup_run; [|by apply hart_push_ok| |exact Hsz].
    2:{ intros j Hj _. apply cons_st_lock; [unfold proc_lock, cons_lock; lia|by apply HL]. }
    rewrite settle_push by done. eexists _, _, _. split; [done|]. rewrite Hline. cbn [fst snd].
    split; [by apply cons_rep_commit|]. split; [done|]. rewrite decide_False; [done|].
    intros E. apply (f_equal length) in E. rewrite !length_app in E. cbn in E. lia.
  - eapply edited_quiet; [exact Hline|done| |exact Hecho]. apply cons_rep_append; [done|done| |done].
    intros E. unfold commits in Ecm. rewrite E in Ecm. done.
Qed.

Lemma cons_switch_run ch tr c A B :
  cons_rep c A B -> 0 <= ch < 2 ^ 8 ->
  edited A B ch tr (cons_switch ch (World (hart_push h) env tr (cons_st c))).
Proof using Ready Hh Hp Hsz HL HLp.
  intros Hc Hch. pose proof (cons_total _ _ _ Hc) as Ht. unfold cons_switch.
  destruct (Z.eqb_spec ch (CTRL 80)) as [->|N1].
  { destruct (procdump_run tr c) as (t1 & -> & O1). by eapply edited_quiet. }
  destruct (Z.eqb_spec ch (CTRL 85)) as [->|N2].
  { destruct (kill_line_run (Z.to_nat INPUT_BUF_SIZE) tr c A B Hc) as (t1 & c1 & -> & Hc1 & O1);
      [rewrite length_app in Ht; lia|]. by eapply edited_quiet. }
  destruct ((ch =? CTRL 72) || (ch =? 127)) eqn:E3.
  2:{ apply orb_false_iff in E3 as [E3%Z.eqb_neq E4%Z.eqb_neq]. by apply cons_default_run. }
  apply Z.eqb_neq in N1, N2.
  assert (Hl : line_input ch A B = (A, removelast B)) by (unfold line_input; by rewrite N1, N2, E3).
  assert (He : echo s.(procs) ch A B = concat (cons_bytes <$> if decide (B = []) then [] else [BACKSPACE]))
    by (unfold echo; by rewrite N1, N2, E3).
  erewrite bind_run by reflexivity. change (cons (w_st (World (hart_push h) env tr (cons_st c)))) with c.
  rewrite (cons_e_w _ _ _ Hc). destruct B as [|x B _] using rev_ind.
  - eapply edited_quiet; [exact Hl|done|exact Hc|]. rewrite He. cbn. by rewrite app_nil_r.
  - rewrite bool_decide_eq_false_2 by (by destruct B). cbn [negb when].
    destruct (cons_rep_erase _ _ _ _ Hc) as (_ & _ & Hc1). erewrite bind_run by reflexivity.
    change (set_w_st _ _) with (World (hart_push h) env tr (cons_st (set_cons_e (u32 (c.(cons_e) - 1)) c))).
    destruct (put_run BACKSPACE tr (set_cons_e (u32 (c.(cons_e) - 1)) c)) as (t1 & -> & O1).
    rewrite removelast_last in Hl. eapply edited_quiet; [exact Hl|done|exact Hc1|].
    rewrite He, O1, decide_False by (by destruct B). done.
Qed.

End intr.

(** C31: consoleintr() implements the line editor: the key [c] turns the
    committed characters [A] and the edited line [B] into those of
    [line_input], sends exactly [echo] to the terminal and wakes the readers
    when characters were committed; the buffer is never overrun, and nothing
    else of the kernel changes. *)
Theorem consoleintr_correct {I : Image} {Dev : Device} {Ready : UartReady} env s h tr c A B ch :
  hart_ok h -> printable s -> sized s -> lock_free s cons_lock -> lock_free s pr_lock ->
  (forall j, (j < NPROC)%nat -> lock_free s (proc_lock j)) ->
  s.(cons) = c -> cons_rep c A B -> 0 <= ch < 2 ^ 8 ->
  exists tr' c' ps, consoleintr ch (World h env tr s) =
      Ret tt (World (settle h) env tr' (set_procs ps (set_cons c' s))) /\
    cons_rep c' (line_input ch A B).1 (line_input ch A B).2 /\
    uart_out tr' = uart_out tr ++ echo s.(procs) ch A B /\
    ps = (if decide ((line_input ch A B).1 = A) then s.(procs)
          else wake_all h.(h_proc) chan_cons_r s.(procs)).
Proof.
  intros Hh Hp Hsz HLc HLp HL <- Hc Hch. unfold consoleintr. erewrite bind_run by (by apply acquire_run).
  destruct (cons_switch_run env s h Hh Hp Hsz HLp HL ch tr s.(cons) A B Hc Hch)
    as (tr' & c' & ps & R & Hc' & Ho & Hps).
  exists tr', c', ps. split_and!; try done.
  assert (Heq : acquired cons_lock (World h env tr s) = World (hart_push h) env tr (cons_st s h s.(cons))).
  { unfold acquired, cons_st, set_w_hart, set_w_st. cbn. by destruct s. }
  rewrite Heq. erewrite bind_run by exact R.
  rewrite (release_locked_run _ h _ _ _ s.(locks)) by (done || by apply HLc). unfold cons_st. by destruct s.
Qed.

(** ** Reading a line

    The characters that a read of at most [n] delivers and those it leaves:
    up to and including a newline; an end-of-file character ends the read
    and is kept for the next one unless it came first. *)
Fixpoint read_line (first : bool) (n : nat) (A : list Z) : list Z * list Z :=
  match n, A with
  | S n, ch :: A =>
      if ch =? CTRL 68 then ([], if first then A else ch :: A)
      else if ch =? 10 then ([ch], A)
      else let '(d, rest) := read_line false n A in (ch :: d, rest)
  | _, _ => ([], A)
  end.

(** The read ends without waiting for more input. *)
Fixpoint line_ready (n : nat) (A : list Z) : bool :=
  match n, A with
  | O, _ => true
  | S n, [] => false
  | S n, ch :: A => (ch =? CTRL 68) || (ch =? 10) || line_ready n A
  end.

Section read.
Context {I : Image} {IOk : ImageOk I} {Dev : Device}.
Context (own : Z -> bool) (env : list turn) (tr : list event) (s : kstate) (h : hart).
Context (i : nat) (p : proc) (pool : list Z).
Context (Hh : hart_ok h) (Hme : h.(h_proc) = Some i) (Hproc : s.(procs) !! i = Some p).
Context (U : gmap Z Z) (fl : Z) (l : list Z) (T : tables) (Ho : user_owned own U).

Abbreviation reading m c := (World (hart_push h) env tr (set_km m fl (cons_st s h c))).

Lemma consoleread_char dst ch m c :
  0 <= dst -> 0 <= ch < 2 ^ 8 -> writable U dst -> vm_inv own m fl p.(p_pagetable) l T U pool ->
  exists m1, either_copyout true dst [ch] (reading m c) = Ret 0 (reading m1 c) /\
    vm_inv own m1 fl p.(p_pagetable) l T U pool /\ stored p.(p_sz) U m m1 dst [ch].
Proof using Hh Hme Hproc Ho IOk.
  intros Hd Hc Hw Hv. unfold either_copyout.
  destruct (copyout_byte own pool p.(p_pagetable) T U fl l p Ho (hart_push h) env tr (cons_st s h c) dst ch m)
    as (m1 & R & Hv1 & Hs1); [done..|]. exists m1. split; [|done].
  erewrite bind_run by (apply cur_proc_run; [by apply hart_push_ok|exact Hme]). rewrite settle_push by done.
  erewrite bind_run by (by apply get_proc_run). exact R.
Qed.

(** An end-of-file character: consumed when nothing was read, else kept. *)
Lemma consoleread_eof n dst target m c A B :
  vm_inv own m fl p.(p_pagetable) l T U pool -> cons_rep c (CTRL 68 :: A) B -> Z.of_nat (S n) <= target ->
  exists c', (when (Z.of_nat (S n) <? target) (upd_cons (fun c => set_cons_r (u32 (c.(cons_r) - 1)) c));;
      mret (Some (Z.of_nat (S n)))) (reading m (set_cons_r (u32 (c.(cons_r) + 1)) c)) =
      Ret (Some (Z.of_nat (S n))) (reading m c') /\
    cons_rep c' (if Z.of_nat (S n) =? target then A else CTRL 68 :: A) B /\ stored p.(p_sz) U m m dst [].
Proof using.
  intros Hv Hc Hn. destruct (cons_rep_take _ _ _ _ Hc) as [_ Hc'].
  destruct (Z.eqb_spec (Z.of_nat (S n)) target) as [<-|Hlt].
  - rewrite Z.ltb_irrefl. cbn [when]. eexists. split; [done|]. split; [done|apply stored_nil].
  - destruct (Z.ltb_spec (Z.of_nat (S n)) target) as [_|]; [|lia]. cbn [when].
    assert (Eback : set_cons_r (u32 (u32 (c.(cons_r) + 1) - 1)) (set_cons_r (u32 (c.(cons_r) + 1)) c) = c).
    { unfold Z.sub. rewrite u32_add_idemp. replace (cons_r c + 1 + - (1)) with (cons_r c) by lia.
      rewrite u32_small by apply Hc. by destruct c. }
    exists c. split; [|split; [done|apply stored_nil]]. erewrite bind_run by reflexivity.
    change (set_w_st _ _) with (reading m (set_cons_r (u32 (u32 (c.(cons_r) + 1) - 1)) (set_cons_r (u32 (c.(cons_r) + 1)) c))).
    by rewrite Eback.
Qed.

Lemma consoleread_loop_run n : forall dst target m c A B,
  vm_inv own m fl p.(p_pagetable) l T U pool -> cons_rep c A B -> line_ready n A = true ->
  Z.of_nat n <= target -> 0 <= dst -> dst + Z.of_nat n < 2 ^ 64 ->
  let d := (read_line (Z.of_nat n =? target) n A).1 in
  (forall j, 0 <= j < Z.of_nat (length d) -> writable U (dst + j)) ->
  exists m' c', consoleread_loop n true dst target (Z.of_nat n) (reading m c) =
      Ret (Some (Z.of_nat n - Z.of_nat (length d))) (reading m' c') /\
    vm_inv own m' fl p.(p_pagetable) l T U pool /\
    cons_rep c' (read_line (Z.of_nat n =? target) n A).2 B /\ stored p.(p_sz) U m m' dst d.
Proof using Hh Hme Hproc Ho IOk.
  induction n as [|n IH]; intros dst target m c A B Hv Hc Hready Hn Hdst Hmax d Hw.
  { exists m, c. split_and!; try done. intros z. cbn [length]. by rewrite decide_False by (cbn; lia). }
  destruct A as [|ch A]; [done|]. cbn [line_ready] in Hready. unfold d in *. clear d. cbn [read_line consoleread_loop] in *.
  destruct (Z.gtb_spec (Z.of_nat (S n)) 0) as [_|]; [|lia]. erewrite bind_run by reflexivity.
  assert (Hwait : forall turns, cons_wait turns (reading m c) = Ret true (reading m c)).
  { intros [|turns]; cbn [cons_wait]; erewrite bind_run by reflexivity;
      change (cons (w_st (reading m c))) with c; by rewrite (cons_r_w _ _ _ Hc). }
  erewrite bind_run by apply Hwait. cbn [negb]. erewrite bind_run by reflexivity.
  change (cons (w_st (reading m c))) with c. destruct (cons_rep_take _ _ _ _ Hc) as [-> Hc'].
  erewrite bind_run by reflexivity.
  change (set_w_st _ _) with (reading m (set_cons_r (u32 (c.(cons_r) + 1)) c)).
  pose proof (cr_bytes _ _ _ Hc) as Hb. apply Forall_cons in Hb as [Hb _].
  destruct (Z.eqb_spec ch (CTRL 68)) as [->|Hne].
  { destruct (consoleread_eof n dst target m c A B Hv Hc Hn) as (c2 & R & Hc2 & Hs2). exists m, c2.
    destruct (Z.of_nat (S n) =? target); cbn [fst snd length] in *; rewrite Z.sub_0_r; by split_and!. }
  set (rl := read_line (Z.of_nat n =? target) n A) in *.
  assert (Hfst : read_line false n A = rl \/ Z.of_nat n = target).
  { unfold rl. destruct (Z.eqb_spec (Z.of_nat n) target); auto. }
  assert (Hrl : read_line false n A = rl) by (destruct Hfst as [|E]; [done|lia]). rewrite Hrl in Hw |- *. clear Hfst.
  assert (Hw0 : writable U dst).
  { rewrite <-(Z.add_0_r dst). apply Hw. destruct (ch =? 10); [cbn; lia|]. destruct rl. cbn [fst length]. lia. }
  rewrite (u8_small ch) by done.
  destruct (consoleread_char dst ch m (set_cons_r (u32 (c.(cons_r) + 1)) c) Hdst Hb Hw0 Hv) as (m1 & R1 & Hv1 & Hst1).
  erewrite bind_run by exact R1. change (0 =? -1) with false. cbv iota.
  destruct (Z.eqb_spec ch 10) as [->|Hnl].
  { eexists m1, _. split; [|by split_and!]. cbn [fst length]. done. }
  cbn [orb] in Hready.
  destruct (IH (dst + 1) target m1 _ A B Hv1 Hc' Hready ltac:(lia) ltac:(lia) ltac:(lia)) as (m' & c' & R & Hv' & Hc2 & Hst).
  { fold rl. intros j Hj. specialize (Hw (j + 1)). destruct rl. cbn [fst length] in *.
    replace (dst + 1 + j) with (dst + (j + 1)) by lia. apply Hw. lia. }
  fold rl in R, Hc2, Hst. exists m', c'. destruct rl as [d rest]. cbn [fst snd length] in *.
  rewrite (u64_small (dst + 1)) by lia. replace (Z.of_nat (S n) - 1) with (Z.of_nat n) by lia.
  split; [rewrite R; do 2 f_equal; lia|]. split_and!; try done. by eapply stored_cons.
Qed.

End read.

Lemma read_line_length first n A : (length (read_line first n A).1 <= n)%nat.
Proof.
  revert first A. induction n as [|n IH]; intros first [|ch A]; cbn; try lia.
  destruct (ch =? _); [cbn; lia|]. destruct (ch =? 10); [cbn; lia|].
  specialize (IH false A). destruct (read_line false n A). cbn in *. lia.
Qed.

(** When a line (or [n] characters) has been committed, consoleread()
    returns without waiting: it stores exactly the characters of [read_line]
    at [dst] in user memory, returns their number, and leaves the rest
    committed and the line being edited alone. *)
Theorem consoleread_correct {I : Image} {IOk : ImageOk I} {Dev : Device} own env tr s h i p pool U m fl l T A B dst n :
  hart_ok h -> h.(h_proc) = Some i -> s.(procs) !! i = Some p -> lock_free s cons_lock ->
  vm_inv own m fl p.(p_pagetable) l T U pool -> user_owned own U ->
  cons_rep s.(cons) A B -> line_ready (Z.to_nat n) A = true ->
  0 <= n < 2 ^ 31 -> 0 <= dst -> dst + n < 2 ^ 64 ->
  let '(d, rest) := read_line true (Z.to_nat n) A in
  (forall j, 0 <= j < Z.of_nat (length d) -> writable U (dst + j)) ->
  exists m' c', consoleread true dst n (World h env tr (set_km m fl s)) =
      Ret (Z.of_nat (length d)) (World (settle h) env tr (set_km m' fl (set_cons c' s))) /\
    vm_inv own m' fl p.(p_pagetable) l T U pool /\ cons_rep c' rest B /\ stored p.(p_sz) U m m' dst d.
Proof.
  intros Hh Hme Hproc HL Hv Ho Hc Hready Hn Hdst Hmax. pose proof (read_line_length true (Z.to_nat n) A) as Hlen.
  destruct (read_line true (Z.to_nat n) A) as [d rest] eqn:Erl. intros Hw. unfold consoleread.
  erewrite bind_run by (by apply acquire_run).
  assert (Heq : acquired cons_lock (World h env tr (set_km m fl s)) =
    World (hart_push h) env tr (set_km m fl (cons_st s h s.(cons)))).
  { unfold acquired, cons_st, set_w_hart, set_w_st, set_km. cbn. by destruct s. }
  rewrite Heq.
  destruct (consoleread_loop_run own env tr s h i p pool Hh Hme Hproc U fl l T Ho (Z.to_nat n) dst n m s.(cons) A B
    Hv Hc Hready ltac:(lia) ltac:(lia) ltac:(lia)) as (m' & c' & R & Hv' & Hc' & Hst);
    rewrite Z2Nat.id, Z.eqb_refl, ?Erl in * by lia; [done|].
  exists m', c'. split_and!; try done. erewrite bind_run by exact R.
  erewrite bind_run by (by apply (release_locked_run _ h _ _ _ s.(locks))).
  cbn [fst] in *. unfold mret, M_ret. f_equal. rewrite s32_small; lia.
Qed.

(** ** Concrete instances *)

#[local] Existing Instances small_image small_image_ok.

(** A UART that is always idle. *)
#[local] Instance idle_device : Device :=
  {| dev_read := fun _ a => if a =? Reg LSR then 32 else 0; dev_time := fun _ => 0; dev_patience := 1 |}.
#[local] Instance idle_device_ready : UartReady.
Proof. intros tr. reflexivity. Qed.

(** An empty console whose counters are about to wrap around. *)
Definition wrap_cons : console := Console (replicate 128 0) (2 ^ 32 - 1) (2 ^ 32 - 1) (2 ^ 32 - 1).

Lemma wrap_cons_rep : cons_rep wrap_cons [] [].
Proof.
  split; try done. set_solver.
Qed.

Lemma consoleintr_correct_witness : exists w' c',
  consoleintr 13 (World demo_hart [] [] (set_cons wrap_cons demo_st)) = Ret tt w' /\
  w'.(w_st).(cons) = c' /\ cons_rep c' [10] [] /\ uart_out w'.(w_trace) = [10].
Proof.
  destruct (consoleintr_correct [] (set_cons wrap_cons demo_st) demo_hart [] wrap_cons [] [] 13
    demo_hart_ok (conj eq_refl eq_refl) demo_sized (demo_static_lock cons_lock ltac:(done))
    (demo_static_lock pr_lock ltac:(done)) demo_proc_lock eq_refl wrap_cons_rep ltac:(lia))
    as (tr' & c' & ps & R & Hc & Ho & _).
  eexists _, c'. split; [exact R|]. split; [reflexivity|]. split; [exact Hc|exact Ho].
Defined.

(** The console after the line "a". *)
Definition line_cons : console := Console (97 :: 10 :: replicate 126 0) 0 2 2.

Lemma line_cons_rep : cons_rep line_cons [97; 10] [].
Proof.
  split; try done.
  - split; [done|done|]. intros [|[|k]] b Hb; [injection Hb as <-; reflexivity..|done].
  - set_solver.
  - repeat constructor; lia.
Qed.

Lemma consoleread_correct_witness : exists m fl w',
  consoleread true 100 50 (World demo_hart [] [] (set_km m fl (set_cons line_cons demo_st))) = Ret 2 w'.
Proof.
  destruct demo_mem_exists as (m & fl & l & T & U & [Hv Ho Hp Hz HN]).
  destruct (consoleread_correct user_page [] [] (set_cons line_cons demo_st) demo_hart 0 demo_proc small_pool U m
    fl l T [97; 10] [] 100 50 demo_hart_ok eq_refl eq_refl (demo_static_lock cons_lock ltac:(done)) Hv Ho
    line_cons_rep eq_refl ltac:(lia) ltac:(lia) ltac:(lia)
    ltac:(cbn; intros j Hj; apply Hp; llia)) as (m' & c' & R & _).
  exists m, fl. eexists. exact R.
Defined.
