(* ===== verification/File.v ===== *)
(** * Open files: kernel/file.c, and pipealloc() of kernel/pipe.c

    A file is named by its index in [ftable.file]; the device switch holds
    the console's functions. *)

From S2P Require Import Prelude Memory Riscv Machine Spinlock Kalloc Vm Sched Bytes Bio Log Fs Uart Pipe Console.

Definition get_file (f : nat) : K file :=
  l ← getk ftable;
  match l !! f with Some x => mret x | None => bad_pointer end.

Definition upd_file (f : nat) (g : file -> file) : K unit :=
  modk (fun s => set_ftable (alter g f s.(ftable)) s).

(** [f->ip], for code that passes it on or follows it *)
Definition file_ip (x : file) : K nat :=
  match x.(f_ip) with Some i => mret i | None => bad_pointer end.

Definition fileinit : K unit := initlock ftable_lock "ftable".

Definition filealloc : K (option nat) :=
  acquire ftable_lock;;
  r ← find_each (seq 0 NFILE) (fun f =>
    x ← get_file f;
    if x.(f_ref) =? 0 then
      upd_file f (set_f_ref 1);;
      release ftable_lock;;
      mret (Some f)
    else mret None);
  match r with
  | Some f => mret (Some f)
  | None => release ftable_lock;; mret None
  end.

Definition filedup (f : nat) : K nat :=
  acquire ftable_lock;;
  x ← get_file f;
  if x.(f_ref) <? 1 then panic "filedup" else
  upd_file f (fun x => set_f_ref (s32 (x.(f_ref) + 1)) x);;
  release ftable_lock;;
  mret f.

(** The bytes of a [struct stat] (kernel/stat.h), padding included. *)
Definition stat_bytes (pad : list Z) (st : stat) : list Z :=
  le_bytes 4 st.(st_dev) ++ le_bytes 4 st.(st_ino) ++ le_bytes 2 st.(st_type) ++
  le_bytes 2 st.(st_nlink) ++ pad ++ le_bytes 8 st.(st_size).

Section file.
Context {I : Image} {Dev : Device}.

Definition fileclose (f : nat) : K unit :=
  acquire ftable_lock;;
  x ← get_file f;
  if x.(f_ref) <? 1 then panic "fileclose" else
  upd_file f (fun x => set_f_ref (x.(f_ref) - 1) x);;
  ff ← get_file f;
  if ff.(f_ref) >? 0 then release ftable_lock else
  upd_file f (set_f_ref 0);;
  upd_file f (set_f_type FD_NONE);;
  release ftable_lock;;
  match ff.(f_type) with
  | FD_PIPE => pipeclose ff.(f_pipe) ff.(f_writable)
  | FD_INODE | FD_DEVICE =>
      begin_op;;
      ip ← file_ip ff;
      iput ip;;
      end_op
  | FD_NONE => mret tt
  end.

Definition filestat (f : nat) (addr : Z) : K Z :=
  me ← cur_proc;
  p ← get_proc me;
  x ← get_file f;
  match x.(f_type) with
  | FD_INODE | FD_DEVICE =>
      ilock x.(f_ip);;
      ip ← file_ip x;
      st ← stati ip;
      iunlock x.(f_ip);;
      r ← copyout p.(p_pagetable) addr (stat_bytes stat_pad st);
      if r <? 0 then mret (-1) else mret 0
  | _ => mret (-1)
  end.

(** [devsw[major]], when [major] is in range *)
Definition dev_switch (major : Z) : K (option driver) :=
  if (major <? 0) || (major >=? NDEV) then mret None else getk (fun s => s.(devsw) !! major).

Definition fileread (f : nat) (addr n : Z) : K Z :=
  x ← get_file f;
  if x.(f_readable) =? 0 then mret (-1) else
  match x.(f_type) with
  | FD_PIPE => piperead x.(f_pipe) addr n
  | FD_DEVICE =>
      d ← dev_switch x.(f_major);
      match d with
      | None => mret (-1)
      | Some ConsoleDriver => consoleread true addr n
      end
  | FD_INODE =>
      ilock x.(f_ip);;
      ip ← file_ip x;
      x ← get_file f;
      r ← readi ip (DstUser addr) x.(f_off) (u32 n);
      when (r.1 >? 0) (upd_file f (fun x => set_f_off (u32 (x.(f_off) + r.1)) x));;
      iunlock x.(f_ip);;
      mret r.1
  | FD_NONE => panic "fileread"
  end.

(** [((MAXOPBLOCKS-1-1-2) / 2) * BSIZE] *)
Definition write_max : Z := ((MAXOPBLOCKS - 1 - 1 - 2) / 2) * BSIZE.

(** The loop of filewrite() over a file: [i] when it ends. *)
Fixpoint filewrite_loop (fuel : nat) (f : nat) (addr n i : Z) : K Z :=
  if i <? n then
    match fuel with
    | O => no_fuel
    | S fuel =>
        let n1 := if n - i >? write_max then write_max else n - i in
        begin_op;;
        x ← get_file f;
        ilock x.(f_ip);;
        ip ← file_ip x;
        x ← get_file f;
        r ← writei ip (SrcUser (u64 (addr + i))) x.(f_off) n1;
        when (r >? 0) (upd_file f (fun x => set_f_off (u32 (x.(f_off) + r)) x));;
        iunlock x.(f_ip);;
        end_op;;
        if negb (r =? n1) then mret i else
        filewrite_loop fuel f addr n (i + r)
    end
  else mret i.

Definition filewrite (f : nat) (addr n : Z) : K Z :=
  x ← get_file f;
  if x.(f_writable) =? 0 then mret (-1) else
  match x.(f_type) with
  | FD_PIPE => pipewrite x.(f_pipe) addr n
  | FD_DEVICE =>
      d ← dev_switch x.(f_major);
      match d with
      | None => mret (-1)
      | Some ConsoleDriver => consolewrite true addr n
      end
  | FD_INODE =>
      i ← filewrite_loop (S (Z.to_nat (n / write_max))) f addr n 0;
      mret (if i =? n then n else -1)
  | FD_NONE => panic "filewrite"
  end.

(** ** kernel/pipe.c: pipealloc()

    [Some (f0, f1)] when it returns 0.  The characters of [data] are what
    the page holds at their place, after the 24 bytes of the lock. *)

Definition pipealloc_bad (f0 f1 : option nat) : K (option (nat * nat)) :=
  match f0 with Some f => fileclose f | None => mret tt end;;
  match f1 with Some f => fileclose f | None => mret tt end;;
  mret None.

Definition pipealloc : K (option (nat * nat)) :=
  f0 ← filealloc;
  match f0 with
  | None => pipealloc_bad None None
  | Some a =>
      f1 ← filealloc;
      match f1 with
      | None => pipealloc_bad (Some a) None
      | Some b =>
          pi ← kalloc;
          if pi =? 0 then pipealloc_bad (Some a) (Some b) else
          data ← getk (fun s => read_bytes (Z.to_nat PIPESIZE) s.(mem) (pi + 24));
          modk (fun s => set_pipes (<[pi := Pipe data 0 0 1 1]> s.(pipes)) s);;
          initlock pi "pipe";;
          upd_file a (set_f_type FD_PIPE);;
          upd_file a (set_f_readable 1);;
          upd_file a (set_f_writable 0);;
          upd_file a (set_f_pipe pi);;
          upd_file b (set_f_type FD_PIPE);;
          upd_file b (set_f_readable 0);;
          upd_file b (set_f_writable 1);;
          upd_file b (set_f_pipe pi);;
          mret (Some (a, b))
      end
  end.

End file.
