(* ===== verification/FileSpec.v ===== *)
(** * Writing to an open file: filewrite()

    A write() of any length is cut into transactions that fit the log.  The
    theorem composes the layers below: user memory, the file's blocks, the
    inode, and the log with its commit. *)

From stdpp Require Import functions.
From S2P Require Import Prelude Memory Riscv Machine Spinlock Kalloc Vm Pagetable Uvm UvmCopy UserCopy UserPages VmSpec Sched Demo Sleeplock Dyn Bytes Ring Bio Bcache Log Dstate Binit LogSpec Crash Fs FsState FsAlloc FsInode FsTable FsFile FsIo FsDir FsUser FsDemo FsSpec Uart Pipe Console File.

(** ** Contents that agree outside of the log *)

Section agree.
Context (sb : superblock) (start : Z) (HG : layout sb start) (V V' : Z -> list Z).
Context (HV : forall b, home start b -> V' b = V b).

Lemma home_data b : data_block sb b -> V' b = V b.
Proof using HG HV. intros Hb. apply HV. by apply (data_loggable sb start HG). Qed.

Lemma home_bitmap b : in_bitmap sb b -> V' b = V b.
Proof using HG HV.
  intros [H1 H2]. apply HV. pose proof (layout_facts sb start HG). unfold home. rewrite LOGBLOCKS_eq. lia.
Qed.

Lemma home_bit b : 0 <= b < sb.(sb_size) -> bit sb V' b = bit sb V b.
Proof using HG HV start. intros Hb. eapply bit_agree; [exact HG|apply home_bitmap|done]. Qed.

Lemma home_free b : free sb V' b <-> free sb V b.
Proof using HG HV start. unfold free. split; intros [Hb E]; (split; [done|]); [rewrite <-home_bit|rewrite home_bit]; done. Qed.

Lemma home_fblock x k : file_ok sb V x -> fblock V' x k = fblock V x k.
Proof using HG HV start.
  intros F. unfold fblock. destruct (k <? NDIRECT); [done|]. destruct (Z.eqb_spec (ind_block x) 0) as [|Hz]; [done|].
  by rewrite home_data by (apply (own_ind _ _ _ _ (file_owned _ _ _ F) Hz)).
Qed.

Lemma home_file_ok x : file_ok sb V x -> file_ok sb V' x.
Proof using HG HV start.
  intros F. pose proof F as [F1 F2 F3]. split; [done|done|].
  eapply owned_agree; [exact HG|exact F3|apply home_bitmap|]. intros k _. by apply home_fblock.
Qed.

Lemma home_bitmap_ok : bitmap_ok sb V -> bitmap_ok sb V'.
Proof using HG HV start. intros HB b Hb. apply HB. by apply home_free. Qed.

Lemma home_whole x : file_ok sb V x -> whole V x -> whole V' x.
Proof using HG HV start.
  intros F [H1 H2]. split; [done|]. intros p Hp. rewrite home_fblock by done. by apply H2.
Qed.

Lemma home_fbyte x p : file_ok sb V x -> in_range p -> fbyte V' x p = fbyte V x p.
Proof using HG HV start.
  intros F Hp. unfold fbyte, content. rewrite home_fblock by done. destruct (Z.eqb_spec (fblock V x (p / BSIZE)) 0) as [|Hz]; [done|].
  by rewrite home_data by (by apply (own_blk _ _ _ _ (file_owned _ _ _ F) _ (in_range_file p Hp) Hz)).
Qed.

Lemma home_owns x b : file_ok sb V x -> owns (ind_block x) (fblock V' x) b <-> owns (ind_block x) (fblock V x) b.
Proof using HG HV start. intros F. unfold owns. setoid_rewrite home_fblock; [done|exact F]. Qed.

End agree.

(** ** The file after several writes *)

(** [V'] and [x'] are a file [x] of [V] after the bytes [bs] were written at
    [off]. *)
Record rewritten (sb : superblock) (start : Z) (V : Z -> list Z) (x : inode) (off : Z) (bs : list Z)
    (V' : Z -> list Z) (x' : inode) : Prop := {
  rw_ok : file_ok sb V' x';
  rw_map : bitmap_ok sb V';
  rw_whole : whole V' x';
  rw_inode : x' = set_i_size (Z.max x.(i_size) (off + Z.of_nat (length bs))) (set_i_addrs x'.(i_addrs) x);
  rw_bytes p : in_range p -> fbyte V' x' p = written V x off bs p;
  rw_used b : 0 <= b < sb.(sb_size) -> bit sb V b = true -> bit sb V' b = true;
  rw_own b : owns (ind_block x') (fblock V' x') b -> owns (ind_block x) (fblock V x) b \/ free sb V b;
  rw_frame b : home start b -> ~ in_bitmap sb b -> ~ owns (ind_block x') (fblock V' x') b -> b <> IBLOCK x.(i_inum) sb -> V' b = V b
}.

Lemma rewritten_start sb start V x off : file_ok sb V x -> bitmap_ok sb V -> whole V x -> off <= x.(i_size) ->
  rewritten sb start V x off [] V x.
Proof.
  intros F HB HW Ho. split; try done; [|..|auto].
  - cbn. rewrite Z.max_l by lia. by destruct x.
  - intros p Hp. unfold written. by rewrite decide_False by (cbn; lia).
Qed.

(** One more write, and the commit of its transaction. *)
Lemma rewritten_step sb start V x off bs V1 x1 bl e bs' V2 x2 bl2 V3 :
  layout sb start -> 0 <= off -> rewritten sb start V x off bs V1 x1 ->
  wrote sb V1 x1 bl (off + Z.of_nat (length bs)) e bs' V2 x2 bl2 -> (forall b, home start b -> V3 b = V2 b) ->
  rewritten sb start V x off (bs ++ bs') V3 x2.
Proof.
  intros HG Hoff [A1 A2 A3 A4 A5 A6 A7 A8] W HV. pose proof W as [B1 B2 B3 B4 B5 B6 _ B7 B8 B9 B10 B11 _].
  assert (En : i_inum x1 = i_inum x) by (by rewrite A4).
  assert (Eo : forall b, owns (ind_block x2) (fblock V3 x2) b <-> owns (ind_block x2) (fblock V2 x2) b).
  { intros b. by eapply home_owns. }
  split.
  - by eapply home_file_ok.
  - by eapply home_bitmap_ok.
  - by eapply home_whole.
  - etransitivity; [exact B4|]. assert (Es : i_size x1 = Z.max (i_size x) (off + Z.of_nat (length bs))) by (by rewrite A4).
    assert (Ea : forall a, set_i_addrs a x1 = set_i_size (i_size x1) (set_i_addrs a x)) by (intros a; by rewrite A4).
    rewrite Ea, Es, length_app, Nat2Z.inj_add. unfold set_i_size. cbn. f_equal. lia.
  - intros p Hp. rewrite (home_fbyte sb start HG V2) by done. rewrite B5 by done. by apply written_app.
  - intros b Hb E. rewrite (home_bit sb start HG V2) by done. by auto.
  - intros b Hb%Eo. destruct (B10 b Hb) as [Hb1|[Hr Hb1]]; [by apply A7|]. right. split; [done|].
    destruct (bit sb V b) eqn:E; [|done]. by rewrite (A6 b Hr E) in Hb1.
  - intros b Hh Hb Hn Hi. rewrite HV by done. rewrite Eo in Hn. rewrite En in B9. rewrite B9 by done. apply A8; [done|done| |done].
    contradict Hn. destruct Hn as [Hz [-> | (k & Hk & <-)]]; split; [done| |done|].
    + left. symmetry. by apply B11.
    + right. exists k. split; [done|]. by apply B6.
Qed.

(** ** The lock of the inode is not part of the file *)

Lemma file_ok_same sb V x y : x.(i_dev) = y.(i_dev) -> x.(i_addrs) = y.(i_addrs) -> file_ok sb V x -> file_ok sb V y.
Proof.
  intros E1 E2 [F1 F2 F3]. split; [congruence|congruence|]. unfold fblock, ind_block in *. by rewrite <-E2.
Qed.

(** A write under the lock, which is free before and after. *)
Lemma wrote_unlocked pid sb V x bl off e bs V' x' bl' :
  x.(i_lock).(sl_locked) = 0 -> x.(i_lock).(sl_pid) = 0 ->
  wrote sb V (locked_by pid x) bl off e bs V' x' bl' -> wrote sb V x bl off e bs V' (iunlocked x') bl'.
Proof.
  intros H1 H2 [A1 A2 A3 A4 A5 A6 A7 A8 A9 A10 A11 A12 A13]. split; try done.
  - by eapply file_ok_same; [..|exact A1].
  - rewrite A4. unfold iunlocked, locked_by, set_i_lock, set_i_size, set_i_addrs. cbn. destruct x as [? ? ? lk]. cbn in *.
    destruct lk; cbn in *. by subst.
Qed.

(** ** The rest of the kernel's state *)

Section rest.
Context (pid : Z) (h0 : hart) (env : list turn) (B : world -> Prop).
Context (L : gmap Z spinlock) (P : list proc) (sb : superblock) (start : Z) (d : gmap Z (list Z)) (out : Z).

#[local] Abbreviation fsys s := (FsState.fsys pid h0 env s L P sb start d out).

Lemma fsys_modk s (g g' : kstate -> kstate) it tr bl V O w :
  (forall D, g (dset D s) = dset D (g' s)) -> fsys s it tr bl V O w ->
  wpx B (modk g) (fun _ => fsys (g' s) it tr bl V O) w.
Proof.
  intros Hg (lg & D & (h & D1 & -> & A) & Hrest). unfold wpx, modk, modify, set_w_st. cbn. rewrite Hg.
  exists lg, D. split; [|done]. by exists h, D1.
Qed.

Lemma fsys_get_file s f x it tr bl V O w :
  s.(ftable) !! f = Some x -> fsys s it tr bl V O w ->
  wpx B (get_file f) (fun r w' => r = x /\ fsys s it tr bl V O w') w.
Proof.
  intros Hx HI. unfold get_file. destruct HI as (lg & D & (h & D1 & -> & A) & Hrest).
  kstep. apply wpx_dget. cbn [ftable dset]. rewrite Hx. apply wpx_ret. split; [done|].
  exists lg, D. split; [|done]. by exists h, D1.
Qed.

Lemma fsys_upd_file s f g it tr bl V O w :
  fsys s it tr bl V O w ->
  wpx B (upd_file f g) (fun _ => fsys (set_ftable (alter g f s.(ftable)) s) it tr bl V O) w.
Proof. intros HI. by apply (fsys_modk s _ (fun s => set_ftable (alter g f s.(ftable)) s)). Qed.

End rest.

(** ** filewrite() *)

Section filewrite.
Context {I : Image} {IOk : ImageOk I} (pid : Z) (h0 : hart) (env : list turn) (B : world -> Prop).
Context (L : gmap Z spinlock) (P : list proc) (sb : superblock) (start : Z) (HG : layout sb start).
Context (me : nat) (p : proc) (Hme : h0.(h_proc) = Some me) (Hp : P !! me = Some p).
Context (own : Z -> bool) (pool : list Z) (T : tables) (U : gmap Z Z) (fl : Z) (l : list Z) (Hown : user_owned own U).
Context (m : memory) (Hvm : vm_inv own m fl p.(p_pagetable) l T U pool).

(** The user's buffer. *)
Context (addr : Z) (total : list Z) (Haddr : 0 <= addr /\ addr + Z.of_nat (length total) < 2 ^ 64).
Context (Hview : forall k b, total !! k = Some b -> uview U m p.(p_sz) (addr + Z.of_nat k) = Some b).
Context (Hread : forall k, 0 <= k < Z.of_nat (length total) -> readable U (addr + k)).

(** The open file and its inode before the call. *)
Context (s0 : kstate) (f : nat) (ff : file) (i : nat) (it : list inode) (x : inode) (V : Z -> list Z).
Context (Hff : s0.(ftable) !! f = Some ff) (Hip : ff.(f_ip) = Some i) (Hi : (i < NINODE)%nat) (Hx : it !! i = Some x).
Context (Href : 1 <= x.(i_ref)) (Hvalid : x.(i_valid) <> 0) (Hlock : x.(i_lock).(sl_locked) = 0) (Hlpid : x.(i_lock).(sl_pid) = 0).
Context (Hinum : 0 <= x.(i_inum) < sb.(sb_ninodes)) (Hoff : 0 <= ff.(f_off) <= x.(i_size)).
Context (Hfit : ff.(f_off) + Z.of_nat (length total) <= MAXFILE * BSIZE).
Context (Hmap : (bitmap_blocks sb <= 2)%nat).

#[local] Abbreviation fsys s := (FsState.fsys pid h0 env s L P sb start).

(** The open file with the offset [off], in the rest of the kernel's state. *)
Definition at_offset (off : Z) : kstate := set_ftable (<[f := set_f_off off ff]> s0.(ftable)) s0.

(** Between two transactions, [k] bytes have been written. *)
Definition written_to (k : nat) (w : world) : Prop :=
  exists d tr x', fsys (set_km m fl (at_offset (ff.(f_off) + Z.of_nat k))) d 0 (<[i := x']> it) tr [] (disk_at d) nolocks w /\
    rewritten sb start V x ff.(f_off) (take k total) (disk_at d) x'.

(** No block is free. *)
Definition disk_full (w : world) : Prop := forall b, ~ free sb (disk_at w.(w_st).(disk)) b.

Lemma user_chunk d k n : (k + n <= length total)%nat ->
  Source pid h0 env B L P sb start d 1 (SrcUser (addr + Z.of_nat k)) (slice k n total)
    (user_source fl (at_offset (ff.(f_off) + Z.of_nat k)) m).
Proof using All.
  intros Hk. assert (Hl : length (slice k n total) = n) by (unfold slice; rewrite length_take, length_drop; lia).
  eapply (user_is_source _ _ _ _ _ _ _ _ _ _ me p Hme Hp own pool T U fl l Hown); [exact Hvm|lia|rewrite Hl; lia|..].
  - intros j b Hb. unfold slice in Hb. apply lookup_take_Some in Hb as [Hb Hj]. rewrite lookup_drop in Hb.
    apply Hview in Hb. rewrite Nat2Z.inj_add in Hb. by rewrite <-Z.add_assoc.
  - intros j Hj. rewrite Hl in Hj. rewrite <-Z.add_assoc. apply Hread. lia.
Qed.

Lemma at_offset_file k : (set_km m fl (at_offset k)).(ftable) !! f = Some (set_f_off k ff).
Proof using Hff. cbn. apply list_lookup_insert_eq. by eapply lookup_lt_Some. Qed.

Lemma at_offset_upd k g k' : g (set_f_off k ff) = set_f_off k' ff ->
  set_ftable (alter g f (ftable (set_km m fl (at_offset k)))) (set_km m fl (at_offset k)) = set_km m fl (at_offset k').
Proof using Hff.
  intros Hg. erewrite alter_as_insert by apply at_offset_file. rewrite Hg. cbn [ftable set_km set_freelist set_mem at_offset set_ftable].
  unfold at_offset, set_km, set_freelist, set_mem, set_ftable. cbn. by rewrite list_insert_insert_eq.
Qed.

(** One round of the loop. *)
Lemma write_chunk k n1 w (kont : Z -> K Z) (Q : Z -> world -> Prop) :
  written_to k w -> 0 < n1 <= write_max -> Z.of_nat k + n1 <= Z.of_nat (length total) ->
  (forall r w', 0 <= r <= n1 -> written_to (k + Z.to_nat r) w' -> (r < n1 -> disk_full w') -> wpx B (kont r) Q w') ->
  wpx B (begin_op;;
    x ← get_file f;
    ilock x.(f_ip);;
    ip ← file_ip x;
    x ← get_file f;
    r ← writei ip (SrcUser (u64 (addr + Z.of_nat k))) x.(f_off) n1;
    when (r >? 0) (upd_file f (fun x => set_f_off (u32 (x.(f_off) + r)) x));;
    iunlock x.(f_ip);;
    end_op;;
    kont r) Q w.
Proof using All.
  intros (d & tr & x1 & HI & RW) Hn1 Hk Hkont. pose proof RW as [A1 A2 A3 A4 A5 A6 A7 A8].
  change write_max with 3072 in Hn1. assert (Em : MAXFILE * BSIZE = 274432) by done.
  assert (Hlt : (i < length it)%nat) by (by eapply lookup_lt_Some).
  assert (Hins : forall y, (<[i := y]> it) !! i = Some y) by (intros; by apply list_lookup_insert_eq).
  assert (Hl1 : x1.(i_lock) = x.(i_lock)) by (by rewrite A4).
  assert (Hn : x1.(i_inum) = x.(i_inum)) by (by rewrite A4).
  assert (Hr1 : x1.(i_ref) = x.(i_ref)) by (by rewrite A4). assert (Hv1 : x1.(i_valid) = x.(i_valid)) by (by rewrite A4).
  assert (Hs1 : ff.(f_off) + Z.of_nat k <= x1.(i_size)).
  { assert (i_size x1 = Z.max (i_size x) (ff.(f_off) + Z.of_nat (length (take k total)))) as -> by (by rewrite A4).
    rewrite length_take. lia. }
  wcall fsys_begin_op; [exact HI|done|]. intros _ w1 HI1. change (0 + 1) with 1 in HI1.
  wcall fsys_get_file; [apply at_offset_file|exact HI1|]. intros ? w2 [-> HI2]. cbn [f_ip set_f_off]. rewrite Hip.
  wcall ilock_spec; [exact HI2|apply Hins|done|lia|congruence|apply A1|cbn; unfold NBUF; lia|congruence|].
  intros _ w3 HI3. assert (El : loaded sb (disk_at d) x1 = x1).
  { unfold loaded. by rewrite (proj2 (Z.eqb_neq _ _)) by congruence. }
  rewrite El, list_insert_insert_eq in HI3. unfold file_ip. cbn [f_ip set_f_off]. rewrite Hip. kstep. kstep.
  wcall fsys_get_file; [apply at_offset_file|exact HI3|]. intros ? w4 [-> HI4]. cbn [f_ip f_off set_f_off]. rewrite Hip, u64_small by lia.
  set (o := ff.(f_off) + Z.of_nat k) in *.
  assert (Hsl : Z.of_nat (length (slice k (Z.to_nat n1) total)) = n1) by (unfold slice; rewrite length_take, length_drop; lia).
  assert (Hsp : (span o (o + n1) <= 4)%nat) by (unfold span, BSIZE; dlia).
  eapply wpx_call; [eapply (writei_spec pid h0 env B L P sb start d 1 HG (Z.le_refl 1) _
    (user_source fl (at_offset o) m) _ _ i (locked_by pid x1) [] (disk_at d) o n1 (slice k (Z.to_nat n1) total));
    [apply user_chunk; lia|exact Hsl|apply Hins|by eapply file_ok_same; [..|exact A1]|exact A3|exact A2|cbn; lia|
     cbn; lia|lia|unfold write_room, NBUF; cbn; lia|reflexivity|exact HI4]|].
  cbn beta. intros r w5 (s' & x2 & bl2 & V2 & -> & Hr & Hfull & W & HI5). rewrite list_insert_insert_eq in HI5.
  pose proof (wt_log _ _ _ _ _ _ _ _ _ _ W) as Hlog. cbn [length] in Hlog.
  assert (E2 : x2.(i_lock) = (locked_by pid x1).(i_lock) /\ x2.(i_ref) = x1.(i_ref)) by (by rewrite (wt_inode _ _ _ _ _ _ _ _ _ _ W)).
  destruct E2 as [E2 Er]. apply wrote_unlocked in W; [|congruence..].
  eapply (wpx_call _ _ _ (fun _ => fsys (set_km m fl (at_offset (o + r))) d 1 (<[i := x2]> it)
    (tr ++ if r <? n1 then oops 0 else []) bl2 V2 nolocks)).
  { destruct (Z.gtb_spec r 0) as [Hpos|Hz]; cbn [when].
    - eapply wpx_mono; [by apply fsys_upd_file|]. cbn beta. intros _ w6 HI6.
      rewrite (at_offset_upd o _ (o + r)) in HI6; [exact HI6|]. unfold set_f_off. cbn. rewrite u32_small by lia. done.
    - apply wpx_ret. replace (o + r) with o by lia. exact HI5. }
  intros _ w6 HI6. wcall iunlock_spec; [exact HI6|apply Hins|done|lia|by rewrite E2|by rewrite E2|].
  intros _ w7 HI7. rewrite list_insert_insert_eq in HI7.
  wcall fsys_end_op; [exact HI7|unfold NBUF; lia|]. intros _ w8 (d' & tr' & HI8 & Hd').
  apply Hkont; [done|..].
  - exists d', tr', (iunlocked x2). rewrite Nat2Z.inj_add, Z2Nat.id, Z.add_assoc by lia. split; [exact HI8|].
    replace (take (k + Z.to_nat r) total) with (take k total ++ take (Z.to_nat r) (slice k (Z.to_nat n1) total)).
    + eapply rewritten_step; [exact HG|lia|exact RW| |exact Hd']. rewrite length_take, Nat.min_l by lia. exact W.
    + unfold slice. rewrite take_take, Nat.min_l by lia. apply take_take_drop.
  - intros Hlt' b Hb. rewrite (fsys_disk HI8) in Hb. apply (home_free sb start HG V2 _ Hd') in Hb.
    by apply (proj1 (Hfull Hlt') b).
Qed.

(** The whole loop. *)
Lemma filewrite_loop_spec : forall fuel k w, written_to k w -> (k <= length total)%nat ->
  Z.of_nat (length total) - Z.of_nat k <= Z.of_nat fuel * write_max ->
  wpx B (filewrite_loop fuel f addr (Z.of_nat (length total)) (Z.of_nat k)) (fun r w' => exists k',
    written_to k' w' /\ (k' <= length total)%nat /\
    (r = Z.of_nat (length total) /\ k' = length total \/ r <> Z.of_nat (length total) /\ (k' < length total)%nat /\ disk_full w')) w.
Proof using All.
  induction fuel as [|fuel IH]; intros k w HW Hk Hf; cbn [filewrite_loop].
  - rewrite (proj2 (Z.ltb_ge _ _)) by lia. apply wpx_ret. exists k. split_and!; [done..|]. left. lia.
  - destruct (Z.ltb_spec (Z.of_nat k) (Z.of_nat (length total))) as [Hlt|Hge].
    2:{ apply wpx_ret. exists k. split_and!; [done..|]. left. lia. }
    cbv zeta. match goal with |- context [if ?b then write_max else ?c] => set (n1 := if b then write_max else c) end.
    assert (Hn1 : n1 = Z.min write_max (Z.of_nat (length total) - Z.of_nat k)).
    { unfold n1. rewrite Z.gtb_ltb. destruct (Z.ltb_spec write_max (Z.of_nat (length total) - Z.of_nat k)); lia. }
    clearbody n1. assert (0 < write_max) by done.
    apply (write_chunk k n1 w (fun r => if negb (r =? n1) then mret (Z.of_nat k) else
      filewrite_loop fuel f addr (Z.of_nat (length total)) (Z.of_nat k + r))); [done|lia|lia|].
    intros r w' Hr HW' Hfull. destruct (Z.eqb_spec r n1) as [->|Hne]; cbn [negb].
    + replace (Z.of_nat k + n1) with (Z.of_nat (k + Z.to_nat n1)) by lia. apply IH; [done|lia|lia].
    + apply wpx_ret. exists (k + Z.to_nat r)%nat. split_and!; [done|lia|]. right. split_and!; [lia|lia|apply Hfull; lia].
Qed.

Lemma filewrite_spec w :
  ff.(f_writable) <> 0 -> ff.(f_type) = FD_INODE -> written_to 0 w ->
  wpx B (filewrite f addr (Z.of_nat (length total))) (fun r w' => exists k, written_to k w' /\ (k <= length total)%nat /\
    (r = Z.of_nat (length total) /\ k = length total \/ r = -1 /\ (k < length total)%nat /\ disk_full w')) w.
Proof using All.
  intros Hwr Hty HW. unfold filewrite. pose proof HW as (d & tr & x' & HI & RW).
  wcall fsys_get_file; [apply at_offset_file|exact HI|]. intros ? w1 [-> HI1]. cbn [f_writable f_type set_f_off].
  rewrite (proj2 (Z.eqb_neq _ _) Hwr), Hty.
  eapply wpx_call; [eapply (filewrite_loop_spec _ 0); [by exists d, tr, x'|lia|]|].
  { change write_max with 3072. dlia. }
  cbn beta. intros r w2 (k & HW2 & Hk & Hc). apply wpx_ret. exists k. split_and!; [done..|].
  destruct Hc as [[-> ->]|(Hr & Hk' & Hfull)]; [left; by rewrite Z.eqb_refl|right]. by rewrite (proj2 (Z.eqb_neq _ _) Hr).
Qed.

End filewrite.

(** A call of filewrite(): the process [p] with its memory, the bytes [total]
    of its buffer at [addr], and the file [ff] of inode [x]. *)
Record write_call `{I : Image} (h0 : hart) (P : list proc) (sb : superblock) (me : nat) (p : proc) (own : Z -> bool)
    (pool : list Z) (T : tables) (U : gmap Z Z) (fl : Z) (l : list Z) (m : memory) (addr : Z) (total : list Z)
    (s0 : kstate) (f : nat) (ff : file) (i : nat) (it : list inode) (x : inode) : Prop := {
  wc_me : h0.(h_proc) = Some me;
  wc_proc : P !! me = Some p;
  wc_owned : user_owned own U;
  wc_vm : vm_inv own m fl p.(p_pagetable) l T U pool;
  wc_addr : 0 <= addr /\ addr + Z.of_nat (length total) < 2 ^ 64;
  wc_view k b : total !! k = Some b -> uview U m p.(p_sz) (addr + Z.of_nat k) = Some b;
  wc_read k : 0 <= k < Z.of_nat (length total) -> readable U (addr + k);
  wc_file : s0.(ftable) !! f = Some ff;
  wc_writable : ff.(f_writable) <> 0;
  wc_type : ff.(f_type) = FD_INODE;
  wc_ip : ff.(f_ip) = Some i;
  wc_i : (i < NINODE)%nat;
  wc_inode : it !! i = Some x;
  wc_ref : 1 <= x.(i_ref);
  wc_valid : x.(i_valid) <> 0;
  wc_lock : x.(i_lock).(sl_locked) = 0 /\ x.(i_lock).(sl_pid) = 0;
  wc_inum : 0 <= x.(i_inum) < sb.(sb_ninodes);
  wc_off : 0 <= ff.(f_off) <= x.(i_size);
  wc_fit : ff.(f_off) + Z.of_nat (length total) <= MAXFILE * BSIZE;
  wc_map : (bitmap_blocks sb <= 2)%nat
}.

(** C14: a write to a file is complete and durable.  filewrite() cuts it into
    transactions; when it returns the number of bytes asked for, every byte of
    the user's buffer is in the file at the offset, the offset has moved past
    them, and all of it is on the disk, with the log empty.  It returns -1 only
    when no block is free, and then the file has a part of the bytes.  No block
    of another file, and no byte of this one outside of the range, has
    changed. *)
Theorem filewrite_correct {I : Image} {IOk : ImageOk I} pid h0 env L P sb start me p own pool T U fl l m addr total
    s0 f ff i it x d tr w :
  layout sb start -> write_call h0 P sb me p own pool T U fl l m addr total s0 f ff i it x ->
  file_ok sb (disk_at d) x -> whole (disk_at d) x -> bitmap_ok sb (disk_at d) ->
  fsys pid h0 env (set_km m fl s0) L P sb start d 0 it tr [] (disk_at d) nolocks w ->
  exists r w' k d' tr' x', filewrite f addr (Z.of_nat (length total)) w = Ret r w' /\
    (r = Z.of_nat (length total) /\ k = length total \/
     r = -1 /\ (k < length total)%nat /\ forall b, ~ free sb (disk_at d') b) /\
    fsys pid h0 env (set_km m fl (at_offset s0 f ff (ff.(f_off) + Z.of_nat k))) L P sb start d' 0 (<[i := x']> it) tr' []
      (disk_at d') nolocks w' /\
    rewritten sb start (disk_at d) x ff.(f_off) (take k total) (disk_at d') x'.
Proof.
  intros HG [W1 W2 W3 W4 W5 W6 W7 W8 W9 W10 W11 W12 W13 W14 W15 [W16 W16'] W17 W18 W19 W20] F HW HB HI.
  assert (H0 : written_to pid h0 env L P sb start fl m total s0 f ff i it x (disk_at d) 0 w).
  { exists d, tr, x. rewrite list_insert_id by done. cbn [Z.of_nat]. rewrite Z.add_0_r. split.
    - replace (at_offset s0 f ff (f_off ff)) with s0; [done|]. unfold at_offset.
      rewrite list_insert_id; [by destruct s0|]. rewrite W8. by destruct ff.
    - rewrite take_0. apply rewritten_start; [done..|lia]. }
  edestruct (wp_run _ _ _ (filewrite_spec pid h0 env (fun _ => False) L P sb start HG me p W1 W2 own pool T U fl l W3 m W4
    addr total W5 W6 W7 s0 f ff i it x (disk_at d) W8 W11 W12 W13 W14 W15 W16 W16' W17 W18 W19 W20 w W9 W10 H0))
    as (r & w' & Hrun & k & (d' & tr' & x' & HI' & RW) & Hk & Hc).
  exists r, w', k, d', tr', x'. split_and!; [done| |done|done].
  destruct Hc as [?|(? & ? & Hfull)]; [by left|right]. split_and!; [done..|]. unfold disk_full in Hfull. by rewrite (fsys_disk HI') in Hfull.
Qed.

(** Nothing is in the transaction: the kernel's view is the disk. *)
Lemma fsys_clean {pid h0 env s L P sb start d out it tr V w} b :
  fsys pid h0 env s L P sb start d out it tr [] V nolocks w -> V b = disk_at d b.
Proof. intros (lg & D & HI & _). eapply st_clean; [exact HI|]. done. Qed.

#[local] Existing Instances small_image small_image_ok.

(** A file that is open for writing at its end. *)
Definition demo_file : file := File FD_INODE 1 1 1 0 (Some 0%nat) 100 0.

(** Five bytes of user memory are appended to the demo file. *)
Lemma filewrite_correct_witness : exists w r w' d' x', filewrite 0 0 5 w = Ret r w' /\ disk (w_st w') = d' /\
  (r = 5 -> x'.(i_size) = 105 /\ fbyte (disk_at d') x' 104 = 0 /\ fbyte (disk_at d') x' 99 = 65).
Proof.
  destruct demo_mem_exists as (m & fl & l & T & U & HM). set (s0 := set_ftable [demo_file] zero_kstate).
  destruct (demo_fsys_of demo_itable (set_km m fl s0) demo_procs demo_proc 0 eq_refl eq_refl)
    as (L & P & tr & d & V & w & HI & HP & HV).
  assert (EV : forall b, disk_at d b = V b) by (intros b; symmetry; exact (fsys_clean b HI)).
  assert (HV' : forall b, b <> 2 -> disk_at d b = disk_at demo_disk b) by (intros b Hb; rewrite EV; by apply HV).
  destruct (filewrite_correct (p_pid demo_proc) boot_hart [] L P demo_sb 2 0 demo_proc user_page small_pool T U fl l m 0
    (replicate 5 0) s0 0 demo_file 0 demo_itable demo_inode d tr w demo_layout) as (r & w' & k & d' & tr' & x' & Hr & Hc & HI' & RW).
  - split; try done; try apply HM.
    + intros k b Hb. apply lookup_replicate in Hb as [-> Hk]. apply HM. llia.
    + intros k Hk. destruct (demo_range U m fl l T 5 HM ltac:(llia) k Hk) as (v & ? & ? & _). by exists v.
    + apply Nat.ltb_lt. reflexivity.
    + apply Nat.leb_le. vm_compute. reflexivity.
  - by apply demo_file_ok.
  - by apply demo_whole.
  - by apply demo_bitmap_ok.
  - eapply fsys_ext; [exact HI|exact EV|done].
  - exists w, r, w', d', x'. split; [exact Hr|]. split; [exact (fsys_disk HI')|]. intros ->.
    destruct Hc as [[_ ->]|[? _]]; [|done]. change (take (length (replicate 5 0)) (replicate 5 0)) with (replicate 5 0) in RW.
    split; [by rewrite (rw_inode _ _ _ _ _ _ _ _ RW)|]. split; [by rewrite (rw_bytes _ _ _ _ _ _ _ _ RW)|].
    rewrite (rw_bytes _ _ _ _ _ _ _ _ RW) by done. unfold written. rewrite decide_False by (cbn; lia).
    pose proof (demo_fbytes (disk_at d) HV' 99 1 ltac:(lia) ltac:(lia)) as E. cbn in E. by injection E.
Defined.

(** ** The size of a transaction *)


