(* ===== verification/Proc.v ===== *)
(** * Processes: fork, exit, wait and the scheduler of kernel/proc.c

    The part of kernel/proc.c that uses the file system, and the fields of a
    trapframe in the memory of its page. *)

From S2P Require Import Prelude Memory CString Riscv Machine Spinlock Kalloc Vm Sched Bytes Log Fs Uart Pipe Console File.

(** kernel/proc.h: struct trapframe, the offsets of the fields *)
Definition tf_kernel_satp : Z := 0.
Definition tf_kernel_sp : Z := 8.
Definition tf_kernel_trap : Z := 16.
Definition tf_epc : Z := 24.
Definition tf_kernel_hartid : Z := 32.
Definition tf_sp : Z := 48.
Definition tf_a (n : Z) : Z := 112 + 8 * n.
Definition sizeof_trapframe : Z := 288.

(** [p->trapframe->field] of process [i] *)
Definition get_tf (i : nat) (field : Z) : K Z :=
  p ← get_proc i;
  getk (fun s => load64 s.(mem) (p.(p_trapframe) + field)).

Section proc.
Context {I : Image} {Dev : Device}.

Definition put_tf (i : nat) (field v : Z) : K unit :=
  p ← get_proc i;
  modmem (fun m => store64 m (p.(p_trapframe) + field) v).

Definition userinit : K unit :=
  np ← allocproc;
  modk (set_initproc np);;
  match np with
  | None => bad_pointer
  | Some i =>
      cwd ← namei (chars "/");
      upd_proc i (set_p_cwd cwd);;
      upd_proc i (set_p_state RUNNABLE);;
      release (proc_lock i)
  end.

(** safestrcpy() on the name arrays of two processes. *)
Definition safestrcpy_name (src : list Z) (n : nat) (dst : list Z) : list Z :=
  let l := take (n - 1) (upto_nul src) in
  splice 0 (l ++ [0]) dst.

Definition kfork : K Z :=
  me ← cur_proc;
  found ← allocproc;
  match found with
  | None => mret (-1)
  | Some np =>
      p ← get_proc me;
      n ← get_proc np;
      r ← uvmcopy p.(p_pagetable) n.(p_pagetable) p.(p_sz);
      if r <? 0 then
        freeproc np;;
        release (proc_lock np);;
        mret (-1)
      else
      upd_proc np (set_p_sz p.(p_sz));;
      modmem (fun m => write_bytes m n.(p_trapframe)
        (read_bytes (Z.to_nat sizeof_trapframe) m p.(p_trapframe)));;
      put_tf np (tf_a 0) 0;;
      for_each (seq 0 NOFILE) (fun i =>
        p ← get_proc me;
        match p.(p_ofile) !! i with
        | Some (Some f) =>
            f' ← filedup f;
            upd_proc np (fun x => set_p_ofile (<[i := Some f']> x.(p_ofile)) x)
        | _ => mret tt
        end);;
      p ← get_proc me;
      cwd ← match p.(p_cwd) with Some c => idup c | None => bad_pointer end;
      upd_proc np (set_p_cwd (Some cwd));;
      upd_proc np (fun x => set_p_name (safestrcpy_name p.(p_name) 16 x.(p_name)) x);;
      n ← get_proc np;
      let pid := n.(p_pid) in
      release (proc_lock np);;
      acquire wait_lock;;
      upd_proc np (set_p_parent (Some me));;
      release wait_lock;;
      acquire (proc_lock np);;
      upd_proc np (set_p_state RUNNABLE);;
      release (proc_lock np);;
      mret pid
  end.

(** The channel of a process pointer; a null pointer is channel 0. *)
Definition chan_of (p : option nat) : Z :=
  match p with Some i => chan_proc i | None => 0 end.

Definition reparent (p : nat) : K unit :=
  for_each (seq 0 NPROC) (fun pp =>
    x ← get_proc pp;
    when (bool_decide (x.(p_parent) = Some p))
      (init ← getk initproc;
       upd_proc pp (set_p_parent init);;
       wakeup (chan_of init))).

Definition kexit (status : Z) : K unit :=
  me ← cur_proc;
  init ← getk initproc;
  if bool_decide (Some me = init) then panic "init exiting" else
  for_each (seq 0 NOFILE) (fun fd =>
    p ← get_proc me;
    match p.(p_ofile) !! fd with
    | Some (Some f) =>
        fileclose f;;
        upd_proc me (fun x => set_p_ofile (<[fd := None]> x.(p_ofile)) x)
    | _ => mret tt
    end);;
  begin_op;;
  p ← get_proc me;
  match p.(p_cwd) with Some c => iput c | None => bad_pointer end;;
  end_op;;
  upd_proc me (set_p_cwd None);;
  acquire wait_lock;;
  reparent me;;
  p ← get_proc me;
  wakeup (chan_of p.(p_parent));;
  acquire (proc_lock me);;
  upd_proc me (set_p_xstate status);;
  upd_proc me (set_p_state ZOMBIE);;
  release wait_lock;;
  sched;;
  panic "zombie exit".

(** The scan of kwait(): the value it returns, or whether there are
    children. *)
Fixpoint kwait_scan (l : list nat) (p : nat) (addr : Z) (havekids : bool) : K (bool + Z) :=
  match l with
  | [] => mret (inl havekids)
  | pp :: l =>
      x ← get_proc pp;
      if bool_decide (x.(p_parent) = Some p) then
        acquire (proc_lock pp);;
        x ← get_proc pp;
        if bool_decide (x.(p_state) = ZOMBIE) then
          let pid := x.(p_pid) in
          q ← get_proc p;
          r ← (if negb (addr =? 0) then copyout q.(p_pagetable) addr (le_bytes 4 x.(p_xstate))
               else mret 0);
          if r <? 0 then
            release (proc_lock pp);;
            release wait_lock;;
            mret (inr (-1))
          else
          freeproc pp;;
          release (proc_lock pp);;
          release wait_lock;;
          mret (inr pid)
        else
          release (proc_lock pp);;
          kwait_scan l p addr true
      else kwait_scan l p addr havekids
  end.

(** The loop of kwait(); a round that does not return sleeps for a turn of
    the schedule. *)
Fixpoint kwait_loop (fuel : nat) (p : nat) (addr : Z) : K Z :=
  r ← kwait_scan (seq 0 NPROC) p addr false;
  match r with
  | inr v => mret v
  | inl havekids =>
      k ← (if negb havekids then mret 1 else killed p);
      if ztrue k then release wait_lock;; mret (-1) else
      match fuel with
      | O => no_fuel
      | S fuel => sleep (chan_proc p) wait_lock;; kwait_loop fuel p addr
      end
  end.

Definition kwait (addr : Z) : K Z :=
  p ← cur_proc;
  acquire wait_lock;;
  fuel ← gets (fun w => S (length w.(w_env)));
  kwait_loop fuel p addr.

(** ** The scheduler

    A hart's scheduler thread.  Switching to a process lets it run until it
    switches back, and waiting for an interrupt lets the rest of the machine
    run: a turn of the schedule each, on the same hart. *)

Definition scheduler_proc (i : nat) (found : bool) : K bool :=
  acquire (proc_lock i);;
  p ← get_proc i;
  r ← (if bool_decide (p.(p_state) = RUNNABLE) then
         upd_proc i (set_p_state RUNNING);;
         modh (set_h_proc (Some i));;
         env_step false;;
         modh (set_h_proc None);;
         mret true
       else mret found);
  release (proc_lock i);;
  mret r.

Fixpoint scheduler_scan (l : list nat) (found : bool) : K bool :=
  match l with
  | [] => mret found
  | i :: l => r ← scheduler_proc i found; scheduler_scan l r
  end.

(** One round of the endless loop. *)
Definition scheduler_round : K unit :=
  intr_on;;
  intr_off;;
  found ← scheduler_scan (seq 0 NPROC) false;
  when (negb found) (env_step false).

(** The first [rounds] rounds of scheduler(), which never returns. *)
Definition scheduler (rounds : nat) : K unit :=
  modh (set_h_proc None);;
  for_each (seq 0 rounds) (fun _ => scheduler_round).

End proc.
