(* ===== verification/Exec.v ===== *)
(** * Program loading: kernel/exec.c

    [readi] returns the bytes of the headers it reads into local variables.
    The argument strings are character lists without their NUL. *)

From S2P Require Import Prelude Memory CString Riscv Machine Spinlock Kalloc Vm Sched Bytes Log Fs Uart Pipe Console File Proc.

(** ** kernel/elf.h *)

Definition ELF_MAGIC : Z := 0x464C457F.
Definition ELF_PROG_LOAD : Z := 1.
Definition get64 (off : nat) (l : list Z) : Z := le_val (slice off 8 l).

(** [struct elfhdr]: the fields that kexec() reads *)
Definition sizeof_elfhdr : Z := 64.
Definition elf_magic (d : list Z) : Z := get32 0 d.
Definition elf_entry (d : list Z) : Z := get64 24 d.
Definition elf_phoff (d : list Z) : Z := get64 32 d.
Definition elf_phnum (d : list Z) : Z := get16 56 d.

(** [struct proghdr] *)
Definition sizeof_proghdr : Z := 56.
Definition ph_type (d : list Z) : Z := get32 0 d.
Definition ph_flags (d : list Z) : Z := get32 4 d.
Definition ph_off (d : list Z) : Z := get64 8 d.
Definition ph_vaddr (d : list Z) : Z := get64 16 d.
Definition ph_filesz (d : list Z) : Z := get64 32 d.
Definition ph_memsz (d : list Z) : Z := get64 40 d.

Definition flags2perm (flags : Z) : Z :=
  let perm := if ztrue (Z.land flags 1) then PTE_X else 0 in
  if ztrue (Z.land flags 2) then Z.lor perm PTE_W else perm.

Section exec.
Context {I : Image} {Dev : Device}.

(** The loop of loadseg(), a page a round. *)
Fixpoint loadseg_loop (fuel : nat) (pagetable va : Z) (ip : nat) (offset sz i : Z) : K Z :=
  if i <? sz then
    match fuel with
    | O => no_fuel
    | S fuel =>
        pa ← walkaddr pagetable (u64 (va + i));
        if pa =? 0 then panic "loadseg: address should exist" else
        let n := if sz - i <? PGSIZE then sz - i else PGSIZE in
        r ← readi ip (DstKernel pa) (u32 (offset + i)) n;
        if negb (u32 r.1 =? n) then mret (-1) else
        loadseg_loop fuel pagetable va ip offset sz (u32 (i + PGSIZE))
    end
  else mret 0.

Definition loadseg (pagetable va : Z) (ip : nat) (offset sz : Z) : K Z :=
  loadseg_loop (Z.to_nat (sz / PGSIZE) + 1) pagetable va ip offset sz 0.

(** The loop over the program headers: [false] for [goto bad], and [sz]. *)
Fixpoint load_segments (n : nat) (ip : nat) (pagetable off sz : Z) : K (bool * Z) :=
  match n with
  | O => mret (true, sz)
  | S n =>
      r ← readi ip DstLocal (u32 off) sizeof_proghdr;
      let ph := r.2 in
      let next := s32 (off + sizeof_proghdr) in
      if negb (r.1 =? sizeof_proghdr) then mret (false, sz) else
      if negb (ph_type ph =? ELF_PROG_LOAD) then load_segments n ip pagetable next sz else
      if ph_memsz ph <? ph_filesz ph then mret (false, sz) else
      if u64 (ph_vaddr ph + ph_memsz ph) <? ph_vaddr ph then mret (false, sz) else
      if negb (ph_vaddr ph mod PGSIZE =? 0) then mret (false, sz) else
      sz1 ← uvmalloc pagetable sz (u64 (ph_vaddr ph + ph_memsz ph)) (flags2perm (ph_flags ph));
      if sz1 =? 0 then mret (false, sz) else
      r ← loadseg pagetable (ph_vaddr ph) ip (u32 (ph_off ph)) (u32 (ph_filesz ph));
      if r <? 0 then mret (false, sz1) else
      load_segments n ip pagetable next sz1
  end.

(** The loop that copies the argument strings: the new [sp] and [ustack], or
    [None] for [goto bad]. *)
Fixpoint push_args (argv : list (list Z)) (pagetable stackbase sp : Z) (ustack : list Z)
    : K (option (Z * list Z)) :=
  match argv with
  | [] => mret (Some (sp, ustack))
  | s :: argv =>
      if Z.of_nat (length ustack) >=? MAXARG then mret None else
      let sp := u64 (sp - (Z.of_nat (length s) + 1)) in
      let sp := sp - sp mod 16 in
      if sp <? stackbase then mret None else
      r ← copyout pagetable sp (s ++ [0]);
      if r <? 0 then mret None else
      push_args argv pagetable stackbase sp (ustack ++ [sp])
  end.

(** [for(last=s=path; *s; s++) if( *s == '/') last = s+1;] *)
Fixpoint last_elem (last s : list Z) : list Z :=
  match s with
  | [] => last
  | c :: s => last_elem (if c =? 47 then s else last) s
  end.

(** The code at [bad:]. *)
Definition kexec_bad (pagetable sz : Z) (ip : option nat) : K Z :=
  when (ztrue pagetable) (proc_freepagetable pagetable sz);;
  match ip with
  | Some ip => iunlockput ip;; end_op
  | None => mret tt
  end;;
  mret (-1).

(** From "Allocate some pages at the next page boundary" on. *)
Definition kexec_image (path : list Z) (argv : list (list Z)) (elf : list Z) (pagetable sz : Z) : K Z :=
  me ← cur_proc;
  p ← get_proc me;
  let oldsz := p.(p_sz) in
  let sz := PGROUNDUP sz in
  sz1 ← uvmalloc pagetable sz (u64 (sz + (USERSTACK + 1) * PGSIZE)) PTE_W;
  if sz1 =? 0 then kexec_bad pagetable sz None else
  let sz := sz1 in
  uvmclear pagetable (u64 (sz - (USERSTACK + 1) * PGSIZE));;
  let stackbase := u64 (sz - USERSTACK * PGSIZE) in
  r ← push_args argv pagetable stackbase sz [];
  match r with
  | None => kexec_bad pagetable sz None
  | Some (sp, ustack) =>
      let argc := Z.of_nat (length ustack) in
      let sp := u64 (sp - (argc + 1) * 8) in
      let sp := sp - sp mod 16 in
      if sp <? stackbase then kexec_bad pagetable sz None else
      r ← copyout pagetable sp (concat (map (le_bytes 8) (ustack ++ [0])));
      if r <? 0 then kexec_bad pagetable sz None else
      put_tf me (tf_a 1) sp;;
      upd_proc me (fun x => set_p_name (safestrcpy_name (last_elem path path) 16 x.(p_name)) x);;
      p ← get_proc me;
      let oldpagetable := p.(p_pagetable) in
      upd_proc me (set_p_pagetable pagetable);;
      upd_proc me (set_p_sz sz);;
      put_tf me tf_epc (elf_entry elf);;
      put_tf me tf_sp sp;;
      proc_freepagetable oldpagetable oldsz;;
      mret argc
  end.

Definition kexec (path : list Z) (argv : list (list Z)) : K Z :=
  me ← cur_proc;
  begin_op;;
  found ← namei path;
  match found with
  | None => end_op;; mret (-1)
  | Some ip =>
      ilock (Some ip);;
      r ← readi ip DstLocal 0 sizeof_elfhdr;
      let elf := r.2 in
      if negb (r.1 =? sizeof_elfhdr) then kexec_bad 0 0 (Some ip) else
      if negb (elf_magic elf =? ELF_MAGIC) then kexec_bad 0 0 (Some ip) else
      p ← get_proc me;
      pagetable ← proc_pagetable p.(p_trapframe);
      if pagetable =? 0 then kexec_bad 0 0 (Some ip) else
      r ← load_segments (Z.to_nat (elf_phnum elf)) ip pagetable (s32 (elf_phoff elf)) 0;
      let sz := r.2 in
      if negb r.1 then kexec_bad pagetable sz (Some ip) else
      iunlockput ip;;
      end_op;;
      kexec_image path argv elf pagetable sz
  end.

End exec.
