(* ===== verification/Sysproc.v ===== *)
(** * System-call arguments and process system calls: kernel/syscall.c
    and kernel/sysproc.c

    Functions that fill a buffer of the caller return its characters next to
    the result.  A system call returns a [uint64]; -1 stands for its 64-bit
    representation, which is what storing it in the trapframe produces. *)

From S2P Require Import Prelude Memory CString Riscv Machine Spinlock Kalloc Vm Pagetable Uvm UserCopy VmSpec Sched Demo Bytes Log Fs Uart Pipe Console File Proc.

Section args.
Context {I : Image}.

(** ** Arguments *)

Definition fetchaddr (addr : Z) : K (Z * Z) :=
  me ← cur_proc;
  p ← get_proc me;
  if (addr >=? p.(p_sz)) || (u64 (addr + 8) >? p.(p_sz)) then mret (-1, 0) else
  r ← copyin p.(p_pagetable) addr 8;
  if negb (r.1 =? 0) then mret (-1, 0) else mret (0, le_val r.2).

(** The length and the string, without its NUL. *)
Definition fetchstr (addr max : Z) : K (Z * list Z) :=
  me ← cur_proc;
  p ← get_proc me;
  r ← copyinstr p.(p_pagetable) addr max;
  if r.1 <? 0 then mret (-1, upto_nul r.2)
  else mret (Z.of_nat (length (upto_nul r.2)), upto_nul r.2).

Definition argraw (n : Z) : K Z :=
  me ← cur_proc;
  if (0 <=? n) && (n <=? 5) then get_tf me (tf_a n) else panic "argraw".

Definition argint (n : Z) : K Z := x ← argraw n; mret (s32 x).
Definition argaddr (n : Z) : K Z := argraw n.
Definition argstr (n max : Z) : K (Z * list Z) := addr ← argaddr n; fetchstr addr max.

End args.

Section sysproc.
Context {I : Image} {Dev : Device}.

(** ** kernel/sysproc.c *)

Definition sys_exit : K Z :=
  n ← argint 0;
  kexit n;;
  mret 0.

Definition sys_getpid : K Z :=
  me ← cur_proc;
  p ← get_proc me;
  mret p.(p_pid).

Definition sys_fork : K Z := kfork.

Definition sys_wait : K Z :=
  p ← argaddr 0;
  kwait p.

(** kernel/vm.h *)
Definition SBRK_EAGER : Z := 1.

Definition sys_sbrk : K Z :=
  n ← argint 0;
  t ← argint 1;
  me ← cur_proc;
  p ← get_proc me;
  let addr := p.(p_sz) in
  if (t =? SBRK_EAGER) || (n <? 0) then
    r ← growproc n;
    if r <? 0 then mret (-1) else mret addr
  else
    if u64 (addr + n) <? addr then mret (-1) else
    upd_proc me (fun x => set_p_sz (u64 (x.(p_sz) + n)) x);;
    mret addr.

(** [while(ticks - ticks0 < n) ...]; [false] when the process was killed. *)
Fixpoint pause_wait (fuel : nat) (ticks0 n : Z) : K bool :=
  t ← getk ticks;
  if u32 (t - ticks0) <? n then
    me ← cur_proc;
    k ← killed me;
    if ztrue k then mret false else
    match fuel with
    | O => no_fuel
    | S fuel => sleep chan_ticks tickslock;; pause_wait fuel ticks0 n
    end
  else mret true.

Definition sys_pause : K Z :=
  n ← argint 0;
  let n := if n <? 0 then 0 else n in
  acquire tickslock;;
  ticks0 ← getk ticks;
  fuel ← gets (fun w => S (length w.(w_env)));
  alive ← pause_wait fuel ticks0 n;
  release tickslock;;
  mret (if alive : bool then 0 else -1).

Definition sys_kill : K Z :=
  pid ← argint 0;
  kkill pid.

Definition sys_uptime : K Z :=
  acquire tickslock;;
  xticks ← getk ticks;
  release tickslock;;
  mret xticks.

End sysproc.

(** * Lazy growth of a process is not bounded

    sys_sbrk() grows a process lazily as long as the size does not wrap
    around 2^64, while the page-table functions panic on addresses from MAXVA
    on.  A process can therefore make the kernel panic by growing past MAXVA
    and passing an address there to a system call. *)

Section sbrk.
Context {I : Image}.

Lemma get_tf_run h env tr s i p field :
  s.(procs) !! i = Some p ->
  get_tf i field (World h env tr s) = Ret (load64 s.(mem) (p.(p_trapframe) + field)) (World h env tr s).
Proof. intros Hp. unfold get_tf. by erewrite bind_run by (by apply get_proc_run). Qed.

Lemma argint_run h env tr s i p n :
  hart_ok h -> h.(h_proc) = Some i -> s.(procs) !! i = Some p -> 0 <= n <= 5 ->
  argint n (World h env tr s) =
  Ret (s32 (load64 s.(mem) (p.(p_trapframe) + tf_a n))) (World (settle h) env tr s).
Proof.
  intros Hh Hme Hp Hn. unfold argint, argraw.
  erewrite bind_run; [reflexivity|]. erewrite bind_run by (by apply cur_proc_run).
  destruct (Z.leb_spec 0 n); [|lia]. destruct (Z.leb_spec n 5); [|lia]. cbn [andb]. by apply get_tf_run.
Qed.

(** The state after a lazy sbrk(): only the size changed. *)
Definition grown_lazily (i : nat) (p : proc) (n : Z) (s : kstate) : kstate :=
  set_procs (<[i := set_p_sz (u64 (p.(p_sz) + n)) p]> s.(procs)) s.

Lemma sys_sbrk_lazy_run h env tr s i p n t :
  hart_ok h -> h.(h_proc) = Some i -> s.(procs) !! i = Some p ->
  s32 (load64 s.(mem) (p.(p_trapframe) + tf_a 0)) = n -> 0 <= n ->
  s32 (load64 s.(mem) (p.(p_trapframe) + tf_a 1)) = t -> t <> SBRK_EAGER ->
  p.(p_sz) <= u64 (p.(p_sz) + n) ->
  sys_sbrk (World h env tr s) = Ret p.(p_sz) (World (settle h) env tr (grown_lazily i p n s)).
Proof.
  intros Hh Hme Hp Hn Hn0 Ht Hlazy Hov. pose proof (settle_ok h Hh) as Hs. unfold sys_sbrk.
  assert (Hme' : h_proc (settle h) = Some i) by (by rewrite settle_proc).
  erewrite bind_run by (by eapply argint_run). erewrite bind_run by (by eapply argint_run).
  rewrite settle_idemp. erewrite bind_run by (by apply cur_proc_run). rewrite settle_idemp.
  erewrite bind_run by (by apply get_proc_run). rewrite Hn, Ht. apply Z.eqb_neq in Hlazy. rewrite Hlazy.
  destruct (Z.ltb_spec n 0); [lia|]. cbn [orb]. destruct (Z.ltb_spec (u64 (p_sz p + n)) (p_sz p)); [lia|].
  unfold upd_proc, mbind, M_bind, modk, modify, set_w_st, mret, M_ret. cbn. do 2 f_equal.
  unfold grown_lazily. f_equal. by rewrite (alter_as_insert _ _ i p).
Qed.

(** copyin() from an address that is below the size but not below MAXVA. *)
Lemma copyin_beyond_maxva h env tr s i p va :
  hart_ok h -> h.(h_proc) = Some i -> s.(procs) !! i = Some p ->
  page_aligned va -> MAXVA <= va -> va < p.(p_sz) ->
  copyin p.(p_pagetable) va 1 (World h env tr s) = Panic "walk".
Proof.
  intros Hh Hme Hp Ha Hmax Hsz.
  assert (Hr : PGROUNDDOWN va = va) by (by apply PGROUNDDOWN_in; [|llia]).
  unfold copyin. cbn [copyin_loop]. change (1 <=? 0) with false. cbv iota. rewrite Hr.
  erewrite bind_run by (unfold walkaddr; destruct (Z.leb_spec MAXVA va); [done|lia]).
  change (0 =? 0) with true. cbv iota. apply bind_panic. unfold vmfault.
  erewrite bind_run by (by apply myproc_run). cbn [w_hart]. rewrite Hme.
  erewrite bind_run by (by apply get_proc_run). destruct (Z.leb_spec (p_sz p) va); [lia|]. rewrite Hr.
  unfold ismapped. apply bind_panic, bind_panic. unfold walk. by destruct (Z.leb_spec MAXVA va); [|lia].
Qed.

End sbrk.

(** C40: sbrk() with lazy allocation lets a process grow past MAXVA, and then
    any system call that copies from the address MAXVA makes the kernel
    panic. *)
Theorem lazy_sbrk_then_copyin_panics {I : Image} h env tr s i p n t :
  hart_ok h -> h.(h_proc) = Some i -> s.(procs) !! i = Some p ->
  s32 (load64 s.(mem) (p.(p_trapframe) + tf_a 0)) = n -> 0 <= n ->
  s32 (load64 s.(mem) (p.(p_trapframe) + tf_a 1)) = t -> t <> SBRK_EAGER ->
  0 <= p.(p_sz) <= MAXVA -> MAXVA < p.(p_sz) + n ->
  (sys_sbrk;; copyin p.(p_pagetable) MAXVA 1) (World h env tr s) = Panic "walk".
Proof.
  intros Hh Hme Hp Hn Hn0 Ht Hlazy Hsz Hbig.
  assert (Hn31 : n < 2 ^ 31) by (rewrite <-Hn; unfold s32; pose proof (Z.mod_pos_bound
    (load64 (mem s) (p_trapframe p + tf_a 0) + 2 ^ 31) (2 ^ 32)); lia).
  assert (Hu : u64 (p.(p_sz) + n) = p.(p_sz) + n) by (apply u64_small; llia).
  erewrite bind_run by (eapply sys_sbrk_lazy_run; try done; rewrite Hu; lia).
  change (p_pagetable p) with (p_pagetable (set_p_sz (u64 (p.(p_sz) + n)) p)).
  eapply (copyin_beyond_maxva _ _ _ _ i).
  - by apply settle_ok.
  - by rewrite settle_proc.
  - cbn. apply list_lookup_insert_eq. by eapply lookup_lt_Some.
  - done.
  - lia.
  - cbn. rewrite Hu. lia.
Qed.

#[local] Existing Instance small_image.

(** A process of the largest legal size, about to call sbrk(4096) lazily;
    its trapframe is the page at [top_page 3]. *)
Definition huge_proc : proc := set_p_trapframe (top_page 3) (set_p_sz MAXVA demo_proc).
Definition huge_st : kstate :=
  set_mem (store64 (store64 ∅ (top_page 3 + tf_a 0) 4096) (top_page 3 + tf_a 1) 2)
    (set_procs [huge_proc] zero_kstate).

Lemma lazy_sbrk_then_copyin_panics_witness :
  (sys_sbrk;; copyin (top_page 1) MAXVA 1) (World demo_hart [] [] huge_st) = Panic "walk".
Proof.
  exact (lazy_sbrk_then_copyin_panics demo_hart [] [] huge_st 0 huge_proc 4096 2 demo_hart_ok eq_refl eq_refl
    ltac:(vm_compute; reflexivity) ltac:(lia) ltac:(vm_compute; reflexivity) ltac:(done)
    ltac:(split; [done|done]) ltac:(reflexivity)).
Defined.
