(* ===== verification/Sysfile.v ===== *)
(** * File system calls: kernel/sysfile.c

    Argument checking and the calls into file.c and fs.c.  Each [goto] label
    of the source is a definition of its own where it is reached from more
    than one place. *)

From S2P Require Import Prelude Memory CString Riscv Machine Spinlock Kalloc Vm Sched Bytes Log Fs Uart Pipe Console File Proc Exec Sysproc.

(** kernel/fcntl.h *)
Definition O_RDONLY : Z := 0x000.
Definition O_WRONLY : Z := 0x001.
Definition O_RDWR : Z := 0x002.
Definition O_CREATE : Z := 0x200.
Definition O_TRUNC : Z := 0x400.

(** [p->ofile[fd]] *)
Definition set_fd (me : nat) (fd : Z) (f : option nat) : K unit :=
  upd_proc me (fun x => set_p_ofile (<[Z.to_nat fd := f]> x.(p_ofile)) x).

Definition fdalloc (f : nat) : K Z :=
  me ← cur_proc;
  r ← find_each (seq 0 NOFILE) (fun fd =>
    p ← get_proc me;
    if bool_decide (p.(p_ofile) !!! fd = None) then
      set_fd me (Z.of_nat fd) (Some f);;
      mret (Some (Z.of_nat fd))
    else mret None);
  mret (default (-1) r).

Section sysfile.
Context {I : Image} {Dev : Device}.

(** The descriptor and the file; [None] for -1. *)
Definition argfd (n : Z) : K (option (Z * nat)) :=
  fd ← argint n;
  if (fd <? 0) || (fd >=? Z.of_nat NOFILE) then mret None else
  me ← cur_proc;
  p ← get_proc me;
  match p.(p_ofile) !!! Z.to_nat fd with
  | None => mret None
  | Some f => mret (Some (fd, f))
  end.

Definition sys_dup : K Z :=
  r ← argfd 0;
  match r with
  | None => mret (-1)
  | Some (_, f) =>
      fd ← fdalloc f;
      if fd <? 0 then mret (-1) else
      filedup f;;
      mret fd
  end.

Definition sys_read : K Z :=
  p ← argaddr 1;
  n ← argint 2;
  r ← argfd 0;
  match r with
  | None => mret (-1)
  | Some (_, f) => fileread f p n
  end.

Definition sys_write : K Z :=
  p ← argaddr 1;
  n ← argint 2;
  r ← argfd 0;
  match r with
  | None => mret (-1)
  | Some (_, f) => filewrite f p n
  end.

Definition sys_close : K Z :=
  r ← argfd 0;
  match r with
  | None => mret (-1)
  | Some (fd, f) =>
      me ← cur_proc;
      set_fd me fd None;;
      fileclose f;;
      mret 0
  end.

Definition sys_fstat : K Z :=
  st ← argaddr 1;
  r ← argfd 0;
  match r with
  | None => mret (-1)
  | Some (_, f) => filestat f st
  end.

Definition add_nlink (ip : nat) (d : Z) : K unit :=
  upd_inode ip (fun x => set_i_nlink (s16 (x.(i_nlink) + d)) x).

Definition sys_link_bad (ip : nat) : K Z :=
  ilock (Some ip);;
  add_nlink ip (-1);;
  iupdate ip;;
  iunlockput ip;;
  end_op;;
  mret (-1).

Definition sys_link : K Z :=
  old ← argstr 0 MAXPATH;
  if old.1 <? 0 then mret (-1) else
  new ← argstr 1 MAXPATH;
  if new.1 <? 0 then mret (-1) else
  begin_op;;
  found ← namei old.2;
  match found with
  | None => end_op;; mret (-1)
  | Some ip =>
      ilock (Some ip);;
      x ← get_inode ip;
      if x.(i_type) =? T_DIR then iunlockput ip;; end_op;; mret (-1) else
      add_nlink ip 1;;
      iupdate ip;;
      iunlock (Some ip);;
      parent ← nameiparent new.2;
      match parent with
      | (None, _) => sys_link_bad ip
      | (Some dp, name) =>
          ilock (Some dp);;
          x ← get_inode ip;
          y ← get_inode dp;
          r ← (if negb (y.(i_dev) =? x.(i_dev)) then mret (-1) else dirlink dp name x.(i_inum));
          if r <? 0 then iunlockput dp;; sys_link_bad ip else
          iunlockput dp;;
          iput ip;;
          end_op;;
          mret 0
      end
  end.

(** The entries from the third on are all free. *)
Definition isdirempty (dp : nat) : K bool :=
  x ← get_inode dp;
  r ← find_each (seq 2 (dir_entries x.(i_size) - 2)) (fun k =>
    r ← readi dp DstLocal (sizeof_dirent * Z.of_nat k) sizeof_dirent;
    if negb (r.1 =? sizeof_dirent) then panic "isdirempty: readi" else
    if negb (de_inum r.2 =? 0) then mret (Some false) else mret None);
  mret (default true r).

Definition sys_unlink_bad (dp : nat) : K Z :=
  iunlockput dp;;
  end_op;;
  mret (-1).

Definition sys_unlink : K Z :=
  path ← argstr 0 MAXPATH;
  if path.1 <? 0 then mret (-1) else
  begin_op;;
  parent ← nameiparent path.2;
  match parent with
  | (None, _) => end_op;; mret (-1)
  | (Some dp, name) =>
      ilock (Some dp);;
      if (namecmp name (chars ".") =? 0) || (namecmp name (chars "..") =? 0) then sys_unlink_bad dp else
      found ← dirlookup dp name;
      match found with
      | None => sys_unlink_bad dp
      | Some (ip, off) =>
          ilock (Some ip);;
          x ← get_inode ip;
          if x.(i_nlink) <? 1 then panic "unlink: nlink < 1" else
          empty ← (if x.(i_type) =? T_DIR then isdirempty ip else mret true);
          if negb empty then iunlockput ip;; sys_unlink_bad dp else
          n ← writei dp (SrcLocal (replicate 16 0)) off sizeof_dirent;
          if negb (n =? sizeof_dirent) then panic "unlink: writei" else
          when (x.(i_type) =? T_DIR) (add_nlink dp (-1);; iupdate dp);;
          iunlockput dp;;
          add_nlink ip (-1);;
          iupdate ip;;
          iunlockput ip;;
          end_op;;
          mret 0
      end
  end.

Definition create_fail (ip dp : nat) : K (option nat) :=
  upd_inode ip (set_i_nlink 0);;
  iupdate ip;;
  iunlockput ip;;
  iunlockput dp;;
  mret None.

Definition create (path : list Z) (type major minor : Z) : K (option nat) :=
  parent ← nameiparent path;
  match parent with
  | (None, _) => mret None
  | (Some dp, name) =>
      ilock (Some dp);;
      found ← dirlookup dp name;
      match found with
      | Some (ip, _) =>
          iunlockput dp;;
          ilock (Some ip);;
          x ← get_inode ip;
          if (type =? T_FILE) && ((x.(i_type) =? T_FILE) || (x.(i_type) =? T_DEVICE)) then mret (Some ip)
          else iunlockput ip;; mret None
      | None =>
          d ← get_inode dp;
          new ← ialloc d.(i_dev) type;
          match new with
          | None => iunlockput dp;; mret None
          | Some ip =>
              ilock (Some ip);;
              upd_inode ip (set_i_major major);;
              upd_inode ip (set_i_minor minor);;
              upd_inode ip (set_i_nlink 1);;
              iupdate ip;;
              x ← get_inode ip;
              r ← (if type =? T_DIR then
                     r ← dirlink ip (chars ".") x.(i_inum);
                     if r <? 0 then mret r else dirlink ip (chars "..") d.(i_inum)
                   else mret 0);
              if r <? 0 then create_fail ip dp else
              r ← dirlink dp name x.(i_inum);
              if r <? 0 then create_fail ip dp else
              when (type =? T_DIR) (add_nlink dp 1;; iupdate dp);;
              iunlockput dp;;
              mret (Some ip)
          end
      end
  end.

(** The inode that sys_open() opens, locked; [None] for its early returns,
    which have ended the operation. *)
Definition sys_open_inode (path : list Z) (omode : Z) : K (option nat) :=
  if ztrue (Z.land omode O_CREATE) then
    r ← create path T_FILE 0 0;
    match r with
    | None => end_op;; mret None
    | Some ip => mret (Some ip)
    end
  else
    r ← namei path;
    match r with
    | None => end_op;; mret None
    | Some ip =>
        ilock (Some ip);;
        x ← get_inode ip;
        if (x.(i_type) =? T_DIR) && negb (omode =? O_RDONLY) then
          iunlockput ip;;
          end_op;;
          mret None
        else mret (Some ip)
    end.

Definition of_bool (b : bool) : Z := if b then 1 else 0.

(** The assignments to [*f] and what follows. *)
Definition sys_open_file (ip f : nat) (fd omode : Z) : K Z :=
  x ← get_inode ip;
  (if x.(i_type) =? T_DEVICE then
     upd_file f (set_f_type FD_DEVICE);;
     upd_file f (set_f_major x.(i_major))
   else
     upd_file f (set_f_type FD_INODE);;
     upd_file f (set_f_off 0));;
  upd_file f (set_f_ip (Some ip));;
  upd_file f (set_f_readable (of_bool (negb (ztrue (Z.land omode O_WRONLY)))));;
  upd_file f (set_f_writable (of_bool (ztrue (Z.land omode O_WRONLY) || ztrue (Z.land omode O_RDWR))));;
  when (ztrue (Z.land omode O_TRUNC) && (x.(i_type) =? T_FILE)) (itrunc ip);;
  iunlock (Some ip);;
  end_op;;
  mret fd.

Definition sys_open : K Z :=
  omode ← argint 1;
  path ← argstr 0 MAXPATH;
  if path.1 <? 0 then mret (-1) else
  begin_op;;
  r ← sys_open_inode path.2 omode;
  match r with
  | None => mret (-1)
  | Some ip =>
      x ← get_inode ip;
      if (x.(i_type) =? T_DEVICE) && ((x.(i_major) <? 0) || (x.(i_major) >=? NDEV)) then
        iunlockput ip;;
        end_op;;
        mret (-1)
      else
      f ← filealloc;
      fd ← match f with Some f => fdalloc f | None => mret (-1) end;
      match f with
      | Some f =>
          if fd <? 0 then
            fileclose f;;
            iunlockput ip;;
            end_op;;
            mret (-1)
          else sys_open_file ip f fd omode
      | None =>
          iunlockput ip;;
          end_op;;
          mret (-1)
      end
  end.

(** The end of sys_mkdir() and sys_mknod(). *)
Definition created (r : option nat) : K Z :=
  match r with
  | None => end_op;; mret (-1)
  | Some ip => iunlockput ip;; end_op;; mret 0
  end.

Definition sys_mkdir : K Z :=
  begin_op;;
  path ← argstr 0 MAXPATH;
  r ← (if path.1 <? 0 then mret None else create path.2 T_DIR 0 0);
  created r.

Definition sys_mknod : K Z :=
  begin_op;;
  major ← argint 1;
  minor ← argint 2;
  path ← argstr 0 MAXPATH;
  r ← (if path.1 <? 0 then mret None else create path.2 T_DEVICE (s16 major) (s16 minor));
  created r.

Definition sys_chdir : K Z :=
  me ← cur_proc;
  begin_op;;
  path ← argstr 0 MAXPATH;
  r ← (if path.1 <? 0 then mret None else namei path.2);
  match r with
  | None => end_op;; mret (-1)
  | Some ip =>
      ilock (Some ip);;
      x ← get_inode ip;
      if negb (x.(i_type) =? T_DIR) then iunlockput ip;; end_op;; mret (-1) else
      iunlock (Some ip);;
      p ← get_proc me;
      match p.(p_cwd) with Some c => iput c | None => bad_pointer end;;
      end_op;;
      upd_proc me (set_p_cwd (Some ip));;
      mret 0
  end.

(** The loop of sys_exec() that fetches the arguments: whether it ended at a
    null pointer, the pages allocated and the strings in them.  [todo] is
    what is left of [argv[MAXARG]]. *)
Fixpoint fetch_args (todo : nat) (uargv : Z) (pages : list Z) (argv : list (list Z))
    : K (bool * list Z * list (list Z)) :=
  match todo with
  | O => mret (false, pages, argv)
  | S todo =>
      r ← fetchaddr (u64 (uargv + 8 * Z.of_nat (length argv)));
      if r.1 <? 0 then mret (false, pages, argv) else
      if r.2 =? 0 then mret (true, pages, argv) else
      page ← kalloc;
      if page =? 0 then mret (false, pages, argv) else
      me ← cur_proc;
      p ← get_proc me;
      s ← copyinstr p.(p_pagetable) r.2 PGSIZE;
      modmem (fun m => write_bytes m page s.2);;
      if s.1 <? 0 then mret (false, pages ++ [page], argv) else
      fetch_args todo uargv (pages ++ [page]) (argv ++ [upto_nul s.2])
  end.

Definition sys_exec : K Z :=
  uargv ← argaddr 1;
  path ← argstr 0 MAXPATH;
  if path.1 <? 0 then mret (-1) else
  r ← fetch_args (Z.to_nat MAXARG) uargv [] [];
  let '(ok, pages, argv) := r in
  ret ← (if ok : bool then kexec path.2 argv else mret (-1));
  for_each pages kfree;;
  mret ret.

(** The failure exits of sys_pipe(), after the descriptors [fds] are reset. *)
Definition sys_pipe_fail (me : nat) (fds : list Z) (rf wf : nat) : K Z :=
  for_each fds (fun fd => set_fd me fd None);;
  fileclose rf;;
  fileclose wf;;
  mret (-1).

Definition sys_pipe : K Z :=
  me ← cur_proc;
  fdarray ← argaddr 0;
  r ← pipealloc;
  match r with
  | None => mret (-1)
  | Some (rf, wf) =>
      fd0 ← fdalloc rf;
      if fd0 <? 0 then sys_pipe_fail me [] rf wf else
      fd1 ← fdalloc wf;
      if fd1 <? 0 then sys_pipe_fail me [fd0] rf wf else
      p ← get_proc me;
      r ← copyout p.(p_pagetable) fdarray (le_bytes 4 fd0);
      if r <? 0 then sys_pipe_fail me [fd0; fd1] rf wf else
      r ← copyout p.(p_pagetable) (u64 (fdarray + 4)) (le_bytes 4 fd1);
      if r <? 0 then sys_pipe_fail me [fd0; fd1] rf wf else
      mret 0
  end.

End sysfile.
