(* ===== verification/Trap.v ===== *)
(** * Traps, interrupts and system-call dispatch: kernel/trap.c,
    kernel/plic.c, kernel/syscall.c; forkret() of kernel/proc.c

    Control registers are fields of the hart.  The trampoline's assembly
    saves and restores the user registers in the trapframe; the functions
    here are what runs between. *)

From S2P Require Import Prelude Memory CString Riscv Machine Spinlock Kalloc Vm Sched Bytes Log Fs Uart Virtio Pipe Console File Proc Exec Sysproc Sysfile.

(** ** kernel/plic.c *)

Definition PLIC_SENABLE (hart : Z) : Z := PLIC + 0x2080 + hart * 0x100.
Definition PLIC_SPRIORITY (hart : Z) : Z := PLIC + 0x201000 + hart * 0x2000.
Definition PLIC_SCLAIM (hart : Z) : Z := PLIC + 0x201004 + hart * 0x2000.

(** kernel/proc.c: cpuid() *)
Definition cpuid : K Z := tp ← geth h_tp; mret (s32 tp).

Section trap.
Context {I : Image} {Dev : Device}.

Definition plicinit : K unit :=
  mmio_write (PLIC + UART0_IRQ * 4) 1;;
  mmio_write (PLIC + VIRTIO0_IRQ * 4) 1.

Definition plicinithart : K unit :=
  hart ← cpuid;
  mmio_write (PLIC_SENABLE hart) (Z.lor (Z.shiftl 1 UART0_IRQ) (Z.shiftl 1 VIRTIO0_IRQ));;
  mmio_write (PLIC_SPRIORITY hart) 0.

Definition plic_claim : K Z :=
  hart ← cpuid;
  irq ← mmio_read (PLIC_SCLAIM hart);
  mret (s32 irq).

Definition plic_complete (irq : Z) : K unit :=
  hart ← cpuid;
  mmio_write (PLIC_SCLAIM hart) (u32 irq).

(** ** Interrupts *)

Definition trapinit : K unit := initlock tickslock "time".

Definition trapinithart : K unit := modh (set_h_stvec kernelvec).

Definition clockintr : K unit :=
  id ← cpuid;
  when (id =? 0)
    (acquire tickslock;;
     modk (fun s => set_ticks (u32 (s.(ticks) + 1)) s);;
     wakeup chan_ticks;;
     release tickslock);;
  now ← gets (fun w => dev_time w.(w_trace));
  modh (set_h_stimecmp (u64 (now + 1000000))).

Definition devintr : K Z :=
  scause ← geth h_scause;
  if scause =? 0x8000000000000009 then
    irq ← plic_claim;
    (if irq =? UART0_IRQ then uartintr
     else if irq =? VIRTIO0_IRQ then virtio_disk_intr
     else when (ztrue irq) (printf (chars "unexpected interrupt irq=%d" ++ [10]) [PInt irq]));;
    when (ztrue irq) (plic_complete irq);;
    mret 1
  else if scause =? 0x8000000000000005 then
    clockintr;;
    mret 2
  else mret 0.

Definition kerneltrap : K unit :=
  sepc ← geth h_sepc;
  sstatus ← geth h_sstatus;
  scause ← geth h_scause;
  if Z.land sstatus SSTATUS_SPP =? 0 then panic "kerneltrap: not from supervisor mode" else
  on ← intr_get;
  if on : bool then panic "kerneltrap: interrupts enabled" else
  which_dev ← devintr;
  if which_dev =? 0 then
    sepc ← geth h_sepc;
    stval ← geth h_stval;
    printf (chars "scause=0x%lx sepc=0x%lx stval=0x%lx" ++ [10]) [PInt scause; PInt sepc; PInt stval];;
    panic "kerneltrap"
  else
  me ← (if which_dev =? 2 then myproc else mret None);
  match me with Some _ => yield | None => mret tt end;;
  modh (set_h_sepc sepc);;
  modh (set_h_sstatus sstatus).

(** ** System calls *)

(** kernel/syscall.c: the table [syscalls], indexed by the numbers of
    kernel/syscall.h *)
Definition syscalls (num : Z) : option (K Z) :=
  match num with
  | 1 => Some sys_fork
  | 2 => Some sys_exit
  | 3 => Some sys_wait
  | 4 => Some sys_pipe
  | 5 => Some sys_read
  | 6 => Some sys_kill
  | 7 => Some sys_exec
  | 8 => Some sys_fstat
  | 9 => Some sys_chdir
  | 10 => Some sys_dup
  | 11 => Some sys_getpid
  | 12 => Some sys_sbrk
  | 13 => Some sys_pause
  | 14 => Some sys_uptime
  | 15 => Some sys_open
  | 16 => Some sys_write
  | 17 => Some sys_mknod
  | 18 => Some sys_unlink
  | 19 => Some sys_link
  | 20 => Some sys_mkdir
  | 21 => Some sys_close
  | _ => None
  end.

Definition syscall : K unit :=
  me ← cur_proc;
  a7 ← get_tf me (tf_a 7);
  let num := s32 a7 in
  match syscalls num with
  | Some f =>
      r ← f;
      put_tf me (tf_a 0) r
  | None =>
      p ← get_proc me;
      printf (chars "%d %s: unknown sys call %d" ++ [10])
        [PInt p.(p_pid); PStr (Some (upto_nul p.(p_name))); PInt num];;
      put_tf me (tf_a 0) (-1)
  end.

(** ** Traps from user space *)

Definition prepare_return : K unit :=
  me ← cur_proc;
  intr_off;;
  modh (set_h_stvec (TRAMPOLINE + uservec_off));;
  satp ← geth h_satp;
  put_tf me tf_kernel_satp satp;;
  p ← get_proc me;
  put_tf me tf_kernel_sp (p.(p_kstack) + PGSIZE);;
  put_tf me tf_kernel_trap usertrap_addr;;
  tp ← geth h_tp;
  put_tf me tf_kernel_hartid tp;;
  x ← geth h_sstatus;
  modh (set_h_sstatus (Z.lor (Z.land x (Z.lnot SSTATUS_SPP)) SSTATUS_SPIE));;
  epc ← get_tf me tf_epc;
  modh (set_h_sepc epc).

(** The cause of the trap, up to the first [killed(p)] after it; the result
    is [which_dev]. *)
Definition usertrap_cause (me : nat) : K Z :=
  scause ← geth h_scause;
  if scause =? 8 then
    k ← killed me;
    when (ztrue k) (kexit (-1));;
    epc ← get_tf me tf_epc;
    put_tf me tf_epc (epc + 4);;
    intr_on;;
    syscall;;
    mret 0
  else
  which_dev ← devintr;
  if negb (which_dev =? 0) then mret which_dev else
  scause ← geth h_scause;
  stval ← geth h_stval;
  p ← get_proc me;
  pa ← (if (scause =? 15) || (scause =? 13) then vmfault p.(p_pagetable) stval else mret 0);
  if negb (pa =? 0) then mret 0 else
  sepc ← geth h_sepc;
  printf (chars "usertrap(): unexpected scause 0x%lx pid=%d" ++ [10]) [PInt scause; PInt p.(p_pid)];;
  printf (chars "            sepc=0x%lx stval=0x%lx" ++ [10]) [PInt sepc; PInt stval];;
  setkilled me;;
  mret 0.

Definition usertrap : K Z :=
  sstatus ← geth h_sstatus;
  if negb (Z.land sstatus SSTATUS_SPP =? 0) then panic "usertrap: not from user mode" else
  modh (set_h_stvec kernelvec);;
  me ← cur_proc;
  sepc ← geth h_sepc;
  put_tf me tf_epc sepc;;
  which_dev ← usertrap_cause me;
  k ← killed me;
  when (ztrue k) (kexit (-1));;
  when (which_dev =? 2) yield;;
  prepare_return;;
  p ← get_proc me;
  mret (MAKE_SATP p.(p_pagetable)).

(** kernel/proc.c: forkret(); the result is the [satp] it passes to
    userret. *)
Definition forkret : K Z :=
  me ← cur_proc;
  release (proc_lock me);;
  first ← getk fork_first;
  when (ztrue first)
    (fsinit ROOTDEV;;
     modk (set_fork_first 0);;
     r ← kexec (chars "/init") [chars "/init"];
     put_tf me (tf_a 0) r;;
     a0 ← get_tf me (tf_a 0);
     when (a0 =? u64 (-1)) (panic "exec"));;
  prepare_return;;
  p ← get_proc me;
  mret (MAKE_SATP p.(p_pagetable)).

End trap.
