(* ===== verification/Boot.v ===== *)
(** * Boot: kernel/start.c and kernel/main.c

    start() runs in machine mode; its registers are a record of their own.
    main() is the order in which hart 0 initialises the kernel, and what the
    other harts do once it is done. *)

From S2P Require Import Prelude Memory CString Riscv Machine Spinlock Kalloc Vm Sched Bytes Bio Log Fs Uart Virtio Pipe Console File Proc Exec Sysproc Sysfile Trap.

(** ** kernel/start.c *)

Definition MSTATUS_MPP_MASK : Z := Z.shiftl 3 11.
Definition MSTATUS_MPP_S : Z := Z.shiftl 1 11.
Definition SIE_SEIE : Z := Z.shiftl 1 9.
Definition SIE_STIE : Z := Z.shiftl 1 5.
Definition MIE_STIE : Z := Z.shiftl 1 5.

(** The control registers that start() and timerinit() touch; [m_mode] is
    the privilege mode after [mret], 3 before. *)
Record mregs := Mregs {
  m_mstatus : Z; m_mepc : Z; m_satp : Z; m_medeleg : Z; m_mideleg : Z; m_sie : Z; m_pmpaddr0 : Z;
  m_pmpcfg0 : Z; m_mie : Z; m_menvcfg : Z; m_mcounteren : Z; m_stimecmp : Z; m_tp : Z; m_mode : Z; m_pc : Z
}.

Definition timerinit (time : Z) (r : mregs) : mregs :=
  Mregs r.(m_mstatus) r.(m_mepc) r.(m_satp) r.(m_medeleg) r.(m_mideleg) r.(m_sie) r.(m_pmpaddr0) r.(m_pmpcfg0)
    (Z.lor r.(m_mie) MIE_STIE) (Z.lor r.(m_menvcfg) (Z.shiftl 1 63)) (Z.lor r.(m_mcounteren) 2)
    (u64 (time + 1000000)) r.(m_tp) r.(m_mode) r.(m_pc).

(** [asm volatile("mret")]: to the mode of MPP, at mepc *)
Definition mret_insn (r : mregs) : mregs :=
  Mregs r.(m_mstatus) r.(m_mepc) r.(m_satp) r.(m_medeleg) r.(m_mideleg) r.(m_sie) r.(m_pmpaddr0) r.(m_pmpcfg0)
    r.(m_mie) r.(m_menvcfg) r.(m_mcounteren) r.(m_stimecmp) r.(m_tp)
    (Z.land (Z.shiftr r.(m_mstatus) 11) 3) r.(m_mepc).

Definition start (main_addr mhartid time : Z) (r : mregs) : mregs :=
  let x := Z.lor (Z.land r.(m_mstatus) (Z.lnot MSTATUS_MPP_MASK)) MSTATUS_MPP_S in
  let r := Mregs x main_addr 0 0xffff 0xffff (Z.lor (Z.lor r.(m_sie) SIE_SEIE) SIE_STIE)
             0x3fffffffffffff 0xf r.(m_mie) r.(m_menvcfg) r.(m_mcounteren) r.(m_stimecmp) r.(m_tp)
             r.(m_mode) r.(m_pc) in
  let r := timerinit time r in
  let r := Mregs r.(m_mstatus) r.(m_mepc) r.(m_satp) r.(m_medeleg) r.(m_mideleg) r.(m_sie) r.(m_pmpaddr0)
             r.(m_pmpcfg0) r.(m_mie) r.(m_menvcfg) r.(m_mcounteren) r.(m_stimecmp) (s32 mhartid)
             r.(m_mode) r.(m_pc) in
  mret_insn r.

(** ** kernel/main.c *)

Section boot.
Context {I : Image} {Dev : Device}.

(** [while(started == 0) ;] *)
Fixpoint wait_started (fuel : nat) : K unit :=
  s ← getk started;
  if s =? 0 then
    match fuel with
    | O => no_fuel
    | S fuel => env_step false;; wait_started fuel
    end
  else mret tt.

(** main(), with the first [rounds] rounds of the scheduler that it ends in. *)
Definition main (rounds : nat) : K unit :=
  id ← cpuid;
  (if id =? 0 then
     consoleinit;;
     printfinit;;
     printf [10] [];;
     printf (chars "xv6 kernel is booting" ++ [10]) [];;
     printf [10] [];;
     kinit;;
     kvminit;;
     kvminithart;;
     procinit;;
     trapinit;;
     trapinithart;;
     plicinit;;
     plicinithart;;
     binit;;
     iinit;;
     fileinit;;
     virtio_disk_init;;
     userinit;;
     modk (set_started 1)
   else
     fuel ← gets (fun w => S (length w.(w_env)));
     wait_started fuel;;
     id ← cpuid;
     printf (chars "hart %d starting" ++ [10]) [PInt id];;
     kvminithart;;
     trapinithart;;
     plicinithart);;
  scheduler rounds.

End boot.
