(* ===== verification/User.v ===== *)
(** * User processes and the system-call boundary

    A user program is C code over the byte memory of its process and the
    system calls of the stubs that user/usys.pl generates.  A stub puts the
    number of kernel/syscall.h into [a7], the arguments into [a0], [a1], ...
    and executes [ecall]; the kernel may change the memory of the process,
    and [a0] holds the result.  What happens at [ecall] is the class
    [Kernel]; the programs of the other files are written against it, and
    their theorems against what the kernel promises about streams, the
    class [Streams].

    The outcomes are those of the monad of the prelude: [Ret] when the code
    returns, [Blocked] when the process has left the program ([exit], a
    successful [exec]), [Panic] when the program does what C leaves
    undefined, and [NoFuel] when the fuel of a loop was too small. *)

From Stdlib Require Export Ascii.
From S2P Require Import Prelude Memory CString.

(** ** The boundary *)

(** [Back r m s]: the process continues with [r] in [a0] and memory [m];
    [Gone s]: it does not come back to the program. *)
Inductive trapret (S : Type) : Type :=
| Back (r : Z) (m : memory) (s : S)
| Gone (s : S).
Arguments Back {S} r m s.
Arguments Gone {S} s.

Class Kernel (S : Type) := ecall : Z -> list Z -> memory -> S -> trapret S.

(** A process: its memory and everything behind the boundary. *)
Record user (S : Type) := User { umem : memory; usys : S }.
Arguments User {S} umem usys.
Arguments umem {S} u.
Arguments usys {S} u.

Abbreviation U S := (M (user S)).

(** A loop on memory that reports when its fuel is too small. *)
Definition lift {W A} (o : option A) : M W A :=
  match o with Some a => mret a | None => no_fuel end.

(** Character constants. *)
Definition ch (a : Ascii.ascii) : Z := Z.of_N (Ascii.N_of_ascii a).
Arguments ch a%_char.

Definition NL : Z := 10.

(** Addresses of the locals whose address the library takes. *)
Class Slots := { putc_c : Z; gets_c : Z }.

(** The number of iterations the loops of a program may take. *)
Class Fuel := fuel : nat.

(** *** kernel/syscall.h *)

Inductive sysno :=
| SYS_fork | SYS_exit | SYS_wait | SYS_pipe | SYS_read | SYS_kill | SYS_exec
| SYS_fstat | SYS_chdir | SYS_dup | SYS_getpid | SYS_sbrk | SYS_pause | SYS_uptime
| SYS_open | SYS_write | SYS_mknod | SYS_unlink | SYS_link | SYS_mkdir | SYS_close.

Definition sysnum (n : sysno) : Z :=
  match n with
  | SYS_fork => 1 | SYS_exit => 2 | SYS_wait => 3 | SYS_pipe => 4
  | SYS_read => 5 | SYS_kill => 6 | SYS_exec => 7 | SYS_fstat => 8
  | SYS_chdir => 9 | SYS_dup => 10 | SYS_getpid => 11 | SYS_sbrk => 12
  | SYS_pause => 13 | SYS_uptime => 14 | SYS_open => 15 | SYS_write => 16
  | SYS_mknod => 17 | SYS_unlink => 18 | SYS_link => 19 | SYS_mkdir => 20
  | SYS_close => 21
  end.
Coercion sysnum : sysno >-> Z.

Section calls.
Context {S : Type} `{Kernel S}.

(** [li a7, n; ecall; ret] *)
Definition entry (n : Z) (args : list Z) : U S Z := fun w =>
  match ecall n args w.(umem) w.(usys) with
  | Back r m s => Ret r (User m s)
  | Gone s => Blocked (User w.(umem) s)
  end.

(** A result of type [int] is the low half of [a0]. *)
Definition int_entry (n : Z) (args : list Z) : U S Z :=
  r ← entry n args; mret (s32 r).

Definition fork : U S Z := int_entry SYS_fork [].
Definition exit {A} (status : Z) : U S A :=
  _ ← entry SYS_exit [status]; panic "exit returned".
Definition wait (p : Z) : U S Z := int_entry SYS_wait [p].
Definition pipe (p : Z) : U S Z := int_entry SYS_pipe [p].
Definition write (fd p n : Z) : U S Z := int_entry SYS_write [fd; p; n].
Definition read (fd p n : Z) : U S Z := int_entry SYS_read [fd; p; n].
Definition close (fd : Z) : U S Z := int_entry SYS_close [fd].
Definition kill (pid : Z) : U S Z := int_entry SYS_kill [pid].
Definition exec (path argv : Z) : U S Z := int_entry SYS_exec [path; argv].
Definition open (path mode : Z) : U S Z := int_entry SYS_open [path; mode].
Definition mknod (path major minor : Z) : U S Z := int_entry SYS_mknod [path; major; minor].
Definition unlink (path : Z) : U S Z := int_entry SYS_unlink [path].
Definition fstat (fd st : Z) : U S Z := int_entry SYS_fstat [fd; st].
Definition link (old new : Z) : U S Z := int_entry SYS_link [old; new].
Definition mkdir (path : Z) : U S Z := int_entry SYS_mkdir [path].
Definition chdir (path : Z) : U S Z := int_entry SYS_chdir [path].
Definition dup (fd : Z) : U S Z := int_entry SYS_dup [fd].
Definition getpid : U S Z := int_entry SYS_getpid [].
Definition sys_sbrk (n how : Z) : U S Z := entry SYS_sbrk [n; how].
Definition pause (n : Z) : U S Z := int_entry SYS_pause [n].
Definition uptime : U S Z := int_entry SYS_uptime [].

(** Loads and stores of the program. *)
Definition ld (a : Z) : U S Z := gets (fun w => mget w.(umem) a).
Definition ld64 (a : Z) : U S Z := gets (fun w => load64 w.(umem) a).
Definition ld32 (a : Z) : U S Z := gets (fun w => load32 w.(umem) a).
Definition upd (f : memory -> memory) : U S unit :=
  modify (fun w => User (f w.(umem)) w.(usys)).
Definition st (a v : Z) : U S unit := upd (fun m => mput m a v).
Definition st64 (a v : Z) : U S unit := upd (fun m => store64 m a v).
Definition st32 (a v : Z) : U S unit := upd (fun m => store32 m a v).

(** The result of a loop that only reads memory. *)
Definition from_mem {A} (f : memory -> option A) : U S A :=
  fun w => lift (f w.(umem)) w.
End calls.

(** ** What the kernel promises about streams

    [input s fd] is what is still to be read from [fd] and [output s fd]
    what has been written to it.  A read delivers some of the bytes that are
    there, as many as asked for or fewer (a pipe or the console may return
    early), and none only at the end of the stream; a write of the process
    delivers all its bytes, and does not feed what the process reads. *)
Record same_streams {S} (readable writable : S -> Z -> Prop) (s s' : S) : Prop := {
  same_readable : forall f, readable s' f <-> readable s f;
  same_writable : forall f, writable s' f <-> writable s f;
}.

Class Streams (S : Type) {K : Kernel S} := {
  readable : S -> Z -> Prop;
  writable : S -> Z -> Prop;
  input : S -> Z -> list Z;
  output : S -> Z -> list Z;
  input_bytes : forall s fd, Forall (fun c => 0 <= c < 2 ^ 8) (input s fd);
  exit_gone : forall status m s, exists s',
    ecall SYS_exit [status] m s = Gone s' /\ forall f, output s' f = output s f;
  read_stream : forall fd p n m s,
    readable s fd -> 0 <= n < 2 ^ 31 ->
    exists k s',
      ecall SYS_read [fd; p; n] m s =
        Back (Z.of_nat k) (write_bytes m p (take k (input s fd))) s' /\
      Z.of_nat k <= n /\ (k <= length (input s fd))%nat /\
      (k = 0%nat -> n = 0 \/ input s fd = []) /\
      input s' fd = drop k (input s fd) /\
      (forall f, output s' f = output s f) /\
      same_streams readable writable s s';
  write_stream : forall fd p n m s,
    writable s fd -> 0 <= n < 2 ^ 31 ->
    exists s',
      ecall SYS_write [fd; p; n] m s = Back n m s' /\
      output s' fd = output s fd ++ read_bytes (Z.to_nat n) m p /\
      (forall f, input s' f = input s f) /\
      same_streams readable writable s s';
}.

Lemma same_streams_refl {S} (R W : S -> Z -> Prop) s : same_streams R W s s.
Proof. by split. Qed.

Lemma same_streams_trans {S} (R W : S -> Z -> Prop) s1 s2 s3 :
  same_streams R W s1 s2 -> same_streams R W s2 s3 -> same_streams R W s1 s3.
Proof. intros [R1 W1] [R2 W2]. split; intros f; [by rewrite R2, R1|by rewrite W2, W1]. Qed.

(** A specification of [entry] in terms of [ecall]. *)
Section call_rules.
Context {S : Type} `{Streams S}.

Lemma entry_back n args w r m s :
  ecall n args w.(umem) w.(usys) = Back r m s -> entry n args w = Ret r (User m s).
Proof. unfold entry. by intros ->. Qed.

Lemma int_entry_back n args w r m s :
  ecall n args w.(umem) w.(usys) = Back r m s -> int_entry n args w = Ret (s32 r) (User m s).
Proof. intros E. unfold int_entry. by rewrite (bind_run _ _ _ _ _ (entry_back _ _ _ _ _ _ E)). Qed.

Lemma exit_spec {A} B status (Q : A -> user S -> Prop) w :
  (forall s', (forall f, output s' f = output w.(usys) f) -> B (User w.(umem) s')) ->
  wpx B (exit status) Q w.
Proof.
  intros HB. destruct (exit_gone status w.(umem) w.(usys)) as (s' & E & Ho).
  unfold wpx, exit, mbind, M_bind, entry. rewrite E. by apply HB.
Qed.

Lemma read_spec B fd p n (Q : Z -> user S -> Prop) w :
  readable w.(usys) fd -> 0 <= n < 2 ^ 31 ->
  (forall k s', Z.of_nat k <= n -> (k <= length (input w.(usys) fd))%nat ->
     (k = 0%nat -> n = 0 \/ input w.(usys) fd = []) ->
     input s' fd = drop k (input w.(usys) fd) ->
     (forall f, output s' f = output w.(usys) f) ->
     same_streams readable writable w.(usys) s' ->
     Q (Z.of_nat k) (User (write_bytes w.(umem) p (take k (input w.(usys) fd))) s')) ->
  wpx B (read fd p n) Q w.
Proof.
  intros Hr Hn HQ.
  destruct (read_stream fd p n w.(umem) w.(usys) Hr Hn) as (k & s' & E & Hk & Hl & Hz & Hi & Ho & Hs).
  eapply run_wp; [unfold read; by apply int_entry_back|].
  rewrite s32_small by lia. by apply HQ.
Qed.

Lemma write_spec B fd p n (Q : Z -> user S -> Prop) w :
  writable w.(usys) fd -> 0 <= n < 2 ^ 31 ->
  (forall s', output s' fd = output w.(usys) fd ++ read_bytes (Z.to_nat n) w.(umem) p ->
     (forall f, input s' f = input w.(usys) f) ->
     same_streams readable writable w.(usys) s' ->
     Q n (User w.(umem) s')) ->
  wpx B (write fd p n) Q w.
Proof.
  intros Hr Hn HQ.
  destruct (write_stream fd p n w.(umem) w.(usys) Hr Hn) as (s' & E & Ho & Hi & Hs).
  eapply run_wp; [unfold write; by apply int_entry_back|].
  rewrite s32_small by lia. by apply HQ.
Qed.

Lemma from_mem_spec {A} B (f : memory -> option A) a (Q : A -> user S -> Prop) w :
  f w.(umem) = Some a -> Q a w -> wpx B (from_mem f) Q w.
Proof. unfold wpx, from_mem. intros ->. done. Qed.

Lemma from_mem_bind {A C} B (f : memory -> option A) a (k : A -> U S C) (Q : C -> user S -> Prop) w :
  f w.(umem) = Some a -> wpx B (k a) Q w -> wpx B (from_mem f ≫= k) Q w.
Proof. intros E Hk. apply wpx_bind. by eapply from_mem_spec. Qed.

Lemma upd_bind {C} B f (k : unit -> U S C) (Q : C -> user S -> Prop) w :
  wpx B (k tt) Q (User (f w.(umem)) w.(usys)) -> wpx B (upd f ≫= k) Q w.
Proof. done. Qed.
End call_rules.

(** ** A concrete kernel

    Byte streams by descriptor, delivered at most [t_max + 1] bytes at a
    time, and memory that ends at [t_brk] and can grow by [t_room] bytes; the
    examples run on it. *)
Record tape := Tape {
  t_in : gmap Z (list Z);
  t_out : gmap Z (list Z);
  t_max : nat;
  t_brk : Z;
  t_room : Z;
}.

Definition tape_input (t : tape) (fd : Z) : list Z := map u8 (default [] (t.(t_in) !! fd)).
Definition tape_output (t : tape) (fd : Z) : list Z := default [] (t.(t_out) !! fd).

#[export] Instance tape_kernel : Kernel tape := fun num args m t =>
  match args with
  | [fd; p; n] =>
      if num =? SYS_read then
        let k := Nat.min (Nat.min (Z.to_nat n) (S t.(t_max))) (length (tape_input t fd)) in
        Back (Z.of_nat k) (write_bytes m p (take k (tape_input t fd)))
          (Tape (<[fd := drop k (tape_input t fd)]> t.(t_in)) t.(t_out) t.(t_max) t.(t_brk) t.(t_room))
      else if num =? SYS_write then
        Back n m (Tape t.(t_in)
          (<[fd := tape_output t fd ++ read_bytes (Z.to_nat n) m p]> t.(t_out)) t.(t_max) t.(t_brk) t.(t_room))
      else Back (2 ^ 64 - 1) m t
  | [n; _] =>
      if (num =? SYS_sbrk) && (n <=? t.(t_room)) then
        Back t.(t_brk) m (Tape t.(t_in) t.(t_out) t.(t_max) (t.(t_brk) + n) (t.(t_room) - n))
      else Back (2 ^ 64 - 1) m t
  | _ => if num =? SYS_exit then Gone t else Back (2 ^ 64 - 1) m t
  end.

Lemma tape_input_bytes t fd : Forall (fun c => 0 <= c < 2 ^ 8) (tape_input t fd).
Proof. apply Forall_forall. intros c (x & -> & _)%list_elem_of_fmap. apply u8_range. Qed.

Lemma map_u8_bytes l : Forall (fun c => 0 <= c < 2 ^ 8) l -> map u8 l = l.
Proof. induction 1; simpl; [done|]. by rewrite u8_small; f_equal. Qed.

#[export] Instance tape_streams : Streams tape.
Proof.
  refine {| readable := fun _ _ => True; writable := fun _ _ => True;
            input := tape_input; output := tape_output |}.
  - apply tape_input_bytes.
  - intros status m s. by exists s.
  - intros fd p n m s _ Hn.
    set (k := Nat.min (Nat.min (Z.to_nat n) (S s.(t_max))) (length (tape_input s fd))).
    eexists k, _. split; [reflexivity|]. split_and!; try lia.
    + intros Hk. destruct (tape_input s fd); [by right|simpl in *; left; lia].
    + unfold tape_input at 1. simpl. rewrite lookup_insert_eq. simpl.
      apply map_u8_bytes, Forall_drop, tape_input_bytes.
    + done.
    + by split.
  - intros fd p n m s _ Hn. eexists. split; [reflexivity|]. split_and!; [|done|by split].
    unfold tape_output at 1. simpl. by rewrite lookup_insert_eq.
Defined.

(** A process for the examples: memory with the string [l] at address 64,
    and [text] to be read from descriptor 0, three bytes at a time. *)
Definition demo_slots : Slots := {| putc_c := 16; gets_c := 17 |}.
Definition demo_fuel : Fuel := 4000%nat.
Definition demo_user (l text : list Z) : user tape :=
  User (write_bytes ∅ 64 l) (Tape {[ 0 := text ]} ∅ 2 8192 1048576).
