(* ===== verification/Ulib.v ===== *)
(** * The user library: the rest of user/ulib.c

    The routines on memory that kernel/string.c also has are in CString;
    here are the string routines only programs have, the routines that make
    system calls, and their specifications on C strings. *)

From S2P Require Import Prelude Memory CString Sysproc Sysfile User.

(** The second mode of [sys_sbrk], kernel/vm.h. *)
Definition SBRK_LAZY : Z := 2.

(** ** String routines *)

(** [while( *p && *p == *q) p++, q++; return (uchar) *p - (uchar) *q;] *)
Fixpoint strcmp_loop (fuel : nat) (m : memory) (p q : Z) : option Z :=
  match fuel with
  | O => None
  | S fuel =>
      if ztrue (mget m p) && (mget m p =? mget m q)
      then strcmp_loop fuel m (p + 1) (q + 1)
      else Some (mget m p - mget m q)
  end.

(** [for(; *s; s++) if( *s == c) return s; return 0;] *)
Fixpoint strchr_loop (fuel : nat) (m : memory) (s c : Z) : option Z :=
  match fuel with
  | O => None
  | S fuel =>
      if ztrue (mget m s) then
        if mget m s =? c then Some s else strchr_loop fuel m (s + 1) c
      else Some 0
  end.

(** [strchr(lit, c) != 0] on a string literal. *)
Fixpoint strchr_lit (lit : list Z) (c : Z) : bool :=
  match lit with
  | [] => false
  | x :: lit => if x =? c then true else strchr_lit lit c
  end.

(** [while('0' <= *s && *s <= '9') n = n*10 + *s++ - '0';] in [int]. *)
Fixpoint atoi_loop (fuel : nat) (m : memory) (s n : Z) : option Z :=
  match fuel with
  | O => None
  | S fuel =>
      if (ch "0" <=? mget m s) && (mget m s <=? ch "9")
      then atoi_loop fuel m (s + 1) (s32 (s32 (s32 (n * 10) + mget m s) - ch "0"))
      else Some n
  end.

Section ulib.
Context {OS : Type} `{Kernel OS, Slots, Fuel}.

Definition strcmp (p q : Z) : U OS Z := from_mem (fun m => strcmp_loop fuel m p q).
Definition strchr (s c : Z) : U OS Z := from_mem (fun m => strchr_loop fuel m s c).
Definition atoi (s : Z) : U OS Z := from_mem (fun m => atoi_loop fuel m s 0).
Definition strlen (s : Z) : U OS Z := from_mem (fun m => CString.strlen fuel m s).
Definition strcpy (s t : Z) : U OS Z :=
  m ← from_mem (fun m => CString.strcpy fuel m s t); upd (fun _ => m);; mret s.
Definition memmove (vdst vsrc n : Z) : U OS Z := upd (fun m => umemmove m vdst vsrc n);; mret vdst.
Definition memset (dst c n : Z) : U OS Z := upd (fun m => umemset m dst c n);; mret dst.
Definition memcpy (dst src n : Z) : U OS Z := memmove dst src n.

(** [for(i=0; i+1 < max; )]: read a character at a time up to a line end. *)
Fixpoint gets_loop (fuel : nat) (buf max i : Z) : U OS Z :=
  match fuel with
  | O => no_fuel
  | S fuel =>
      if i + 1 <? max then
        cc ← read 0 gets_c 1;
        if cc <? 1 then mret i
        else
          c ← ld gets_c;
          st (buf + i) c;;
          if (c =? ch "010") || (c =? ch "013") then mret (i + 1)
          else gets_loop fuel buf max (i + 1)
      else mret i
  end.

Definition gets (buf max : Z) : U OS Z :=
  i ← gets_loop fuel buf max 0;
  st (buf + i) 0;;
  mret buf.

Definition stat (n st : Z) : U OS Z :=
  fd ← open n O_RDONLY;
  if fd <? 0 then mret (-1)
  else
    r ← fstat fd st;
    close fd;;
    mret r.

Definition sbrk (n : Z) : U OS Z := sys_sbrk n SBRK_EAGER.
Definition sbrklazy (n : Z) : U OS Z := sys_sbrk n SBRK_LAZY.

(** [main(); exit(0);] *)
Definition start {A} (main : U OS Z) : U OS A := main;; exit 0.
End ulib.

(** ** Specifications *)

Lemma cstr_nil m a : cstr m a [] <-> mget m a = 0.
Proof.
  unfold cstr. simpl. rewrite Z.add_0_r. split; [by intros [_ ?]|]. intros ?. by split.
Qed.

Lemma cstr_cons m a c l : cstr m a (c :: l) <-> mget m a = c /\ c <> 0 /\ cstr m (a + 1) l.
Proof.
  unfold cstr. simpl length. split.
  - intros [Hl H0]. destruct (Hl 0%nat c eq_refl) as [Hc Hn]. rewrite Z.add_0_r in Hc.
    split_and!; [done..| |].
    + intros i v Hi. specialize (Hl (S i) v Hi).
      by replace (a + 1 + Z.of_nat i) with (a + Z.of_nat (S i)) by lia.
    + by replace (a + 1 + Z.of_nat (length l)) with (a + Z.of_nat (S (length l))) by lia.
  - intros (Hc & Hn & Hl & H0). split.
    + intros [|i] v Hi; simplify_eq/=; [by rewrite Z.add_0_r|].
      replace (a + Z.of_nat (S i)) with (a + 1 + Z.of_nat i) by lia. by apply Hl.
    + by replace (a + Z.of_nat (S (length l))) with (a + 1 + Z.of_nat (length l)) by lia.
Qed.

(** A string survives writes elsewhere. *)
Lemma cstr_ext m m' a l :
  mem_agree m m' a (Z.of_nat (length l) + 1) -> cstr m a l -> cstr m' a l.
Proof.
  intros Hm [Hl H0]. split.
  - intros i v Hi. rewrite <-Hm; [by apply Hl|]. apply lookup_lt_Some in Hi. lia.
  - by rewrite <-Hm by lia.
Qed.

Lemma cstr_app m a l1 l2 :
  cstr m a (l1 ++ l2) -> cstr m (a + Z.of_nat (length l1)) l2.
Proof.
  revert a; induction l1 as [|c l1 IH]; intros a; simpl; [by rewrite Z.add_0_r|].
  intros (_ & _ & Hl)%cstr_cons. apply IH in Hl.
  by replace (a + Z.of_nat (S (length l1))) with (a + 1 + Z.of_nat (length l1)) by lia.
Qed.

Lemma cstr_nonzero m a l : cstr m a l -> Forall (fun c => c <> 0) l.
Proof. intros [Hl _]. apply Forall_lookup_2. intros i v Hi. by apply (Hl i v). Qed.

(** [strcmp] is the order of the strings, and [0] exactly on equal ones. *)
Lemma strcmp_loop_spec fuel m p q a b :
  cstr m p a -> cstr m q b -> (length a < fuel)%nat ->
  exists r, strcmp_loop fuel m p q = Some r /\ (r = 0 <-> a = b).
Proof.
  revert p q a b; induction fuel as [|fuel IH]; intros p q a b Ha Hb Hf; [lia|]. cbn [strcmp_loop].
  destruct a as [|x a].
  - apply cstr_nil in Ha. rewrite Ha. cbn [andb ztrue]. eexists. split; [done|].
    destruct b as [|y b]; [apply cstr_nil in Hb; by rewrite Hb|].
    apply cstr_cons in Hb as (-> & ? & _). split; [lia|done].
  - apply cstr_cons in Ha as (-> & Hx & Ha). rewrite (proj2 (ztrue_true x) Hx). simpl.
    destruct (Z.eqb_spec x (mget m q)) as [E|E].
    + destruct b as [|y b]; [apply cstr_nil in Hb; lia|].
      apply cstr_cons in Hb as (Hy & _ & Hb). simpl in Hf.
      destruct (IH _ _ _ _ Ha Hb) as (r & -> & Hr); [lia|]. exists r. split; [done|].
      rewrite Hr. split; [intros ->; congruence|by intros [=]].
    + eexists. split; [done|]. destruct b as [|y b].
      * apply cstr_nil in Hb. rewrite Hb. split; [lia|done].
      * apply cstr_cons in Hb as (Hy & _ & _). split; [lia|]. intros [=]; lia.
Qed.

(** [strchr] finds the first occurrence. *)
Lemma strchr_loop_spec fuel m s c l :
  cstr m s l -> (length l < fuel)%nat ->
  strchr_loop fuel m s c =
    Some match find_index (fun x => x =? c) l with
         | Some i => s + Z.of_nat i
         | None => 0
         end.
Proof.
  revert s l; induction fuel as [|fuel IH]; intros s l Hl Hf; [lia|]. cbn [strchr_loop].
  destruct l as [|x l].
  - apply cstr_nil in Hl. by rewrite Hl.
  - apply cstr_cons in Hl as (-> & Hx & Hl). rewrite (proj2 (ztrue_true x) Hx). simpl in Hf. simpl.
    destruct (x =? c); [by rewrite Z.add_0_r|].
    rewrite (IH _ l) by (done || lia).
    destruct (find_index _ l); simpl; [f_equal; lia|done].
Qed.

Lemma strchr_lit_elem lit c : strchr_lit lit c = true <-> c ∈ lit.
Proof.
  induction lit as [|x lit IH]; simpl; [set_solver|].
  destruct (Z.eqb_spec x c); rewrite ?IH; set_solver.
Qed.

Lemma s32_add x y : s32 (s32 x + y) = s32 (x + y).
Proof.
  unfold s32. f_equal. replace ((x + 2 ^ 31) mod 2 ^ 32 - 2 ^ 31 + y + 2 ^ 31)
    with ((x + 2 ^ 31) mod 2 ^ 32 + y) by lia.
  rewrite Z.add_mod_idemp_l by lia. f_equal. lia.
Qed.

Lemma s32_sub x y : s32 (s32 x - y) = s32 (x - y).
Proof. unfold Z.sub. apply s32_add. Qed.

(** The value of a decimal numeral. *)
Definition digit (c : Z) : bool := (ch "0" <=? c) && (c <=? ch "9").
Definition dec_value (n : Z) (l : list Z) : Z := foldl (fun n c => n * 10 + (c - ch "0")) n l.

Lemma dec_value_ge n l : 0 <= n -> Forall (fun c => digit c = true) l -> n <= dec_value n l.
Proof.
  intros Hn Hl. revert n Hn. induction Hl as [|c l Hc Hl IH]; intros n Hn; simpl; [lia|].
  unfold digit in Hc. apply andb_true_iff in Hc as [H0 _]. apply Z.leb_le in H0.
  etransitivity; [|apply IH]; lia.
Qed.

(** [atoi] gives the value of the digits at the start of the string. *)
Lemma atoi_loop_spec fuel m s l rest n :
  cstr m s (l ++ rest) -> Forall (fun c => digit c = true) l ->
  (forall c, head rest = Some c -> digit c = false) ->
  0 <= n -> dec_value n l < 2 ^ 31 -> (length l < fuel)%nat ->
  atoi_loop fuel m s n = Some (dec_value n l).
Proof.
  intros Hs Hl. revert s n fuel Hs. induction Hl as [|c l Hc Hl IH];
    intros s n fuel Hs Hr Hn Hv Hf; (destruct fuel as [|fuel]; [simpl in Hf; lia|]);
    cbn [atoi_loop].
  - assert (digit (mget m s) = false) as Hd.
    { destruct rest as [|c rest]; simpl in Hs.
      - apply cstr_nil in Hs. by rewrite Hs.
      - apply cstr_cons in Hs as (-> & _ & _). by apply Hr. }
    unfold digit in Hd. by rewrite Hd.
  - simpl in Hs. apply cstr_cons in Hs as (-> & _ & Hs).
    pose proof Hc as Hc'. unfold digit in Hc'. rewrite Hc'.
    apply andb_true_iff in Hc' as [H0 H9]. apply Z.leb_le in H0, H9.
    change (ch "0") with 48 in *. change (ch "9") with 57 in *.
    change (dec_value (n * 10 + (c - 48)) l < 2 ^ 31) in Hv.
    pose proof (dec_value_ge (n * 10 + (c - 48)) l ltac:(lia) Hl) as Hge.
    simpl in Hf. replace (s32 (s32 (s32 (n * 10) + c) - 48)) with (n * 10 + (c - 48)).
    2:{ rewrite s32_add, s32_sub, s32_small; lia. }
    apply IH; (done || lia).
Qed.

(** A string of the examples. *)
Lemma demo_cstr l text :
  Forall (fun c => 0 < c < 2 ^ 8) l -> cstr (demo_user l text).(umem) 64 l.
Proof.
  intros Hl. split.
  - intros i v Hi. pose proof (Forall_lookup_1 _ _ _ _ Hl Hi) as Hv. cbv beta in Hv.
    cbn [demo_user umem].
    rewrite (mget_write_bytes_in _ _ _ _ v) by done. split; [apply u8_small; lia|lia].
  - cbn [demo_user umem]. rewrite mget_write_bytes_out by lia. apply mget_empty.
Qed.
