(* ===== verification/Uprintf.v ===== *)
(** * The user library's printf: user/printf.c

    The format is the contents of a string literal; the arguments are the
    64-bit values that [va_arg] finds.  Each character goes out with a
    [write] of its own from the local [c] of [putc], so printing changes the
    byte at [putc_c].  The specification gives the output of a format
    directive by directive. *)

From S2P Require Import Prelude Memory CString User Ulib.

(** A 64-bit value as a [long long]. *)
Definition s64 (x : Z) : Z := (x + 2 ^ 63) mod 2 ^ 64 - 2 ^ 63.

Definition digits : list Z := chars "0123456789ABCDEF".
Definition digit_at (d : Z) : Z := default 0 (digits !! Z.to_nat d).

(** [do{ buf[i++] = digits[x % base]; }while((x /= base) != 0);]; a [uint]
    has at most 32 digits. *)
Fixpoint printint_digits (k : nat) (x base : Z) : list Z :=
  match k with
  | O => []
  | S k => digit_at (x mod base) :: (if x / base =? 0 then [] else printint_digits k (x / base) base)
  end.

(** A literal that ends in a newline. *)
Definition line (s : string) : list Z := chars s ++ [NL].

(** [fmt[i]], with the NUL at the end. *)
Definition fmt_at (fmt : list Z) (i : nat) : Z := default 0 (fmt !! i).

Section printf.
Context {OS : Type} `{Kernel OS, Slots, Fuel}.

Definition putc (fd c : Z) : U OS unit :=
  st putc_c c;;
  write fd putc_c 1;;
  mret tt.

Definition printint (fd xx base : Z) (sgn : bool) : U OS unit :=
  let neg := sgn && (xx <? 0) in
  let x := if neg then u32 (- xx) else u32 xx in
  let buf := printint_digits 32 x base ++ (if neg then [ch "-"] else []) in
  for_each (reverse buf) (putc fd).

(** [for(i = 0; i < 16; i++, x <<= 4) putc(fd, digits[x >> 60]);] *)
Fixpoint printptr_loop (k : nat) (fd x : Z) : U OS unit :=
  match k with
  | O => mret tt
  | S k => putc fd (digit_at (Z.shiftr x 60));; printptr_loop k fd (u64 (Z.shiftl x 4))
  end.

Definition printptr (fd x : Z) : U OS unit :=
  putc fd (ch "0");;
  putc fd (ch "x");;
  printptr_loop 16 fd x.

(** [for(; *s; s++) putc(fd, *s);] *)
Fixpoint put_string (k : nat) (fd s : Z) : U OS unit :=
  match k with
  | O => no_fuel
  | S k =>
      c ← ld s;
      if ztrue c then putc fd c;; put_string k fd (s + 1) else mret tt
  end.

(** [va_arg(ap, ...)]: the next argument and the rest. *)
Definition va_arg (ap : list Z) : U OS (Z * list Z) :=
  match ap with
  | [] => panic "va_arg"
  | a :: ap => mret (a, ap)
  end.

(** One conversion: how many more characters it takes and what is left of
    the arguments. *)
Definition convert (fd c0 c1 c2 : Z) (ap : list Z) : U OS (nat * list Z) :=
  if c0 =? ch "d" then
    '(a, ap) ← va_arg ap; printint fd (s32 a) 10 true;; mret (0%nat, ap)
  else if (c0 =? ch "l") && (c1 =? ch "d") then
    '(a, ap) ← va_arg ap; printint fd (s64 a) 10 true;; mret (1%nat, ap)
  else if (c0 =? ch "l") && (c1 =? ch "l") && (c2 =? ch "d") then
    '(a, ap) ← va_arg ap; printint fd (s64 a) 10 true;; mret (2%nat, ap)
  else if c0 =? ch "u" then
    '(a, ap) ← va_arg ap; printint fd (u32 a) 10 false;; mret (0%nat, ap)
  else if (c0 =? ch "l") && (c1 =? ch "u") then
    '(a, ap) ← va_arg ap; printint fd (s64 a) 10 false;; mret (1%nat, ap)
  else if (c0 =? ch "l") && (c1 =? ch "l") && (c2 =? ch "u") then
    '(a, ap) ← va_arg ap; printint fd (s64 a) 10 false;; mret (2%nat, ap)
  else if c0 =? ch "x" then
    '(a, ap) ← va_arg ap; printint fd (u32 a) 16 false;; mret (0%nat, ap)
  else if (c0 =? ch "l") && (c1 =? ch "x") then
    '(a, ap) ← va_arg ap; printint fd (s64 a) 16 false;; mret (1%nat, ap)
  else if (c0 =? ch "l") && (c1 =? ch "l") && (c2 =? ch "x") then
    '(a, ap) ← va_arg ap; printint fd (s64 a) 16 false;; mret (2%nat, ap)
  else if c0 =? ch "p" then
    '(a, ap) ← va_arg ap; printptr fd (u64 a);; mret (0%nat, ap)
  else if c0 =? ch "c" then
    '(a, ap) ← va_arg ap; putc fd (u32 a);; mret (0%nat, ap)
  else if c0 =? ch "s" then
    '(s, ap) ← va_arg ap;
    (if s =? 0 then for_each (chars "(null)") (putc fd) else put_string fuel fd s);;
    mret (0%nat, ap)
  else if c0 =? ch "%" then
    putc fd (ch "%");; mret (0%nat, ap)
  else
    putc fd (ch "%");; putc fd c0;; mret (0%nat, ap).

(** [for(i = 0; fmt[i]; i++)]; [state] is true after a [%]. *)
Fixpoint vprintf_loop (k : nat) (fd : Z) (fmt : list Z) (i : nat) (state : bool) (ap : list Z) : U OS unit :=
  match k with
  | O => no_fuel
  | S k =>
      if ztrue (fmt_at fmt i) then
        let c0 := fmt_at fmt i in
        if negb state then
          if c0 =? ch "%" then vprintf_loop k fd fmt (i + 1) true ap
          else putc fd c0;; vprintf_loop k fd fmt (i + 1) false ap
        else
          let c1 := if ztrue c0 then fmt_at fmt (i + 1) else 0 in
          let c2 := if ztrue c1 then fmt_at fmt (i + 2) else 0 in
          '(more, ap) ← convert fd c0 c1 c2 ap;
          vprintf_loop k fd fmt (i + more + 1) false ap
      else mret tt
  end.

Definition vprintf (fd : Z) (fmt : list Z) (ap : list Z) : U OS unit :=
  vprintf_loop (S (length fmt)) fd fmt 0 false ap.

Definition fprintf (fd : Z) (fmt : list Z) (ap : list Z) : U OS unit := vprintf fd fmt ap.
Definition printf (fmt : list Z) (ap : list Z) : U OS unit := vprintf 1 fmt ap.
End printf.

(** ** What a format prints *)

(** A format directive; [Dec], [Uns] and [Hex] carry the number of [l]s. *)
Inductive directive :=
| Plain (c : Z) | Percent | Dec (l : nat) | Uns (l : nat) | Hex (l : nat) | Ptr | Chr | Str.

Definition show (d : directive) : list Z :=
  match d with
  | Plain c => [c]
  | Percent => chars "%%"
  | Dec l => ch "%" :: replicate l (ch "l") ++ [ch "d"]
  | Uns l => ch "%" :: replicate l (ch "l") ++ [ch "u"]
  | Hex l => ch "%" :: replicate l (ch "l") ++ [ch "x"]
  | Ptr => chars "%p"
  | Chr => chars "%c"
  | Str => chars "%s"
  end.

(** The numeral of a [uint], and a sign in front of it. *)
Definition numeral (base x : Z) : list Z := reverse (printint_digits 32 x base).
Definition signed (xx : Z) : list Z :=
  (if xx <? 0 then [ch "-"] else []) ++ numeral 10 (u32 (Z.abs xx)).

(** The sixteen hexadecimal digits of a 64-bit value. *)
Definition hex64 (x : Z) : list Z :=
  map (fun i => digit_at (Z.shiftr x (60 - 4 * Z.of_nat i) mod 16)) (seq 0 16).

(** [long] or not: what [va_arg] makes of an argument. *)
Definition int_arg (l : nat) (a : Z) : Z := if decide (l = 0%nat) then s32 a else s64 a.

(** [renders m d args text]: a directive prints [text] from its arguments;
    a string must not contain the byte that [putc] uses. *)
Inductive renders `{Slots} (m : memory) : directive -> list Z -> list Z -> Prop :=
| render_plain c : 0 < c < 2 ^ 8 -> c <> ch "%" -> renders m (Plain c) [] [c]
| render_percent : renders m Percent [] [ch "%"]
| render_dec l a : (l <= 2)%nat -> renders m (Dec l) [a] (signed (int_arg l a))
| render_uns l a : (l <= 2)%nat -> renders m (Uns l) [a] (numeral 10 (u32 a))
| render_hex l a : (l <= 2)%nat -> renders m (Hex l) [a] (numeral 16 (u32 a))
| render_ptr a : renders m Ptr [a] (chars "0x" ++ hex64 (u64 a))
| render_chr a : renders m Chr [a] [u8 a]
| render_null : renders m Str [0] (chars "(null)")
| render_str a l :
    cstr m a l -> a <> 0 -> Forall (fun c => 0 <= c < 2 ^ 8) l ->
    putc_c < a \/ a + Z.of_nat (length l) < putc_c -> renders m Str [a] l.

(** The nibbles of [x << 4] are those of [x] one place lower. *)
Lemma next_nibble x i :
  (i < 15)%nat ->
  Z.shiftr x (60 - 4 * Z.of_nat (S i)) mod 16 =
  Z.shiftr (u64 (Z.shiftl x 4)) (60 - 4 * Z.of_nat i) mod 16.
Proof.
  intros Hi. change 16 with (2 ^ 4). unfold u64. apply Z.bits_inj'. intros n Hn.
  destruct (Z.lt_ge_cases n 4).
  - rewrite !Z.mod_pow2_bits_low, !Z.shiftr_spec, Z.mod_pow2_bits_low, Z.shiftl_spec by lia.
    f_equal. lia.
  - by rewrite !Z.mod_pow2_bits_high by lia.
Qed.

(** A format of several directives. *)
Inductive formats `{Slots} (m : memory) : list directive -> list Z -> list Z -> Prop :=
| formats_nil : formats m [] [] []
| formats_cons d ds a1 a2 t1 t2 :
    renders m d a1 t1 -> formats m ds a2 t2 -> formats m (d :: ds) (a1 ++ a2) (t1 ++ t2).

(** Plain text before other directives. *)
Lemma formats_plain `{Slots} m cs ds args text :
  Forall (fun c => 0 < c < 2 ^ 8 /\ c <> ch "%") cs -> formats m ds args text ->
  formats m (map Plain cs ++ ds) args (cs ++ text).
Proof.
  intros Hcs Hf. induction Hcs as [|c cs [Hc Hp] Hcs IH]; [done|].
  apply (formats_cons m (Plain c) _ [] args [c] (cs ++ text)); [by constructor|done].
Qed.

Definition show_all (ds : list directive) : list Z := concat (map show ds).

Lemma fmt_at_app pre f j : fmt_at (pre ++ f) (length pre + j) = fmt_at f j.
Proof. unfold fmt_at. rewrite lookup_app_r by lia. by replace (length pre + j - length pre)%nat with j by lia. Qed.

Lemma fmt_at_app0 pre f : fmt_at (pre ++ f) (length pre) = fmt_at f 0.
Proof. by rewrite <-(fmt_at_app pre f 0), Nat.add_0_r. Qed.

(** A directive is a plain character or a [%] and what is converted. *)
Lemma show_cases `{Slots} m d a t :
  renders m d a t ->
  (exists c, d = Plain c /\ 0 < c < 2 ^ 8 /\ c <> ch "%" /\ a = [] /\ t = [c]) \/
  exists f, show d = ch "%" :: f /\ f <> [] /\ ztrue (fmt_at f 0) = true.
Proof.
  intros Hr. destruct Hr as [c| |[|[]] ? ?|[|[]] ? ?|[|[]] ? ?| | | |];
    [left; by exists c|right; eexists; split; [reflexivity|done]..].
Qed.

Section proof.
Context {OS : Type} `{K : Kernel OS, STR : !Streams OS, SLO : Slots, FUE : Fuel} (B : user OS -> Prop) (fd : Z).

(** The effect of printing [text]. *)
Record printed (text : list Z) (w w' : user OS) : Prop := {
  pr_output : output w'.(usys) fd = output w.(usys) fd ++ text;
  pr_mem : forall x, x <> putc_c -> mget w'.(umem) x = mget w.(umem) x;
  pr_ok : mem_ok w.(umem) -> mem_ok w'.(umem);
  pr_input : forall f, input w'.(usys) f = input w.(usys) f;
  pr_same : same_streams readable writable w.(usys) w'.(usys);
}.

Lemma printed_nil w : printed [] w w.
Proof. split; try done. by rewrite app_nil_r. Qed.

Lemma printed_trans t1 t2 w w1 w2 :
  printed t1 w w1 -> printed t2 w1 w2 -> printed (t1 ++ t2) w w2.
Proof.
  intros [O1 M1 K1 I1 S1] [O2 M2 K2 I2 S2]. split.
  - by rewrite O2, O1, app_assoc.
  - intros x Hx. by rewrite M2, M1.
  - auto.
  - intros f. by rewrite I2.
  - by eapply same_streams_trans.
Qed.

Lemma printed_writable t w w' : printed t w w' -> writable w.(usys) fd -> writable w'.(usys) fd.
Proof. intros Hp. by apply Hp. Qed.

Lemma putc_spec c w : writable w.(usys) fd -> wpx B (putc fd c) (fun _ w' => printed [u8 c] w w') w.
Proof.
  intros Hw. unfold putc. apply upd_bind, wpx_bind, write_spec; [done|lia|]. cbn [umem usys].
  intros s' Ho Hi Hs. apply wpx_ret. split; cbn [umem usys]; try done.
  - rewrite Ho. simpl. by rewrite mget_mput_eq.
  - intros x Hx. by rewrite mget_mput_ne by done.
  - intros Hm. by apply mem_ok_mput.
Qed.

Lemma put_chars_spec l w :
  writable w.(usys) fd -> Forall (fun c => 0 <= c < 2 ^ 8) l ->
  wpx B (for_each l (putc fd)) (fun _ w' => printed l w w') w.
Proof.
  intros Hw Hl. revert w Hw; induction Hl as [|c l Hc Hl IH]; intros w Hw; cbn [for_each].
  - apply wpx_ret, printed_nil.
  - eapply wpx_call; [by apply putc_spec|]. intros [] w1 H1. rewrite u8_small in H1 by done.
    eapply (wpx_mono _ _ (fun _ w2 => printed l w1 w2)); [by apply IH, (printed_writable _ _ _ H1)|].
    intros [] w2 H2. by apply (printed_trans [c] l w w1 w2).
Qed.

Lemma digit_at_byte d : 0 <= digit_at d < 2 ^ 8.
Proof.
  assert (Forall (fun c => 0 <= c < 2 ^ 8) digits) as Hd by (by repeat constructor).
  unfold digit_at. destruct (digits !! Z.to_nat d) as [c|] eqn:E; simpl; [|lia].
  by eapply (Forall_lookup_1 _ _ _ _ Hd).
Qed.

Lemma printint_digits_bytes k x base : Forall (fun c => 0 <= c < 2 ^ 8) (printint_digits k x base).
Proof.
  revert x; induction k as [|k IH]; intros x; simpl; [done|]. constructor; [apply digit_at_byte|].
  by destruct (_ =? 0).
Qed.

Lemma printint_spec xx base sgn w :
  writable w.(usys) fd ->
  let neg := sgn && (xx <? 0) in
  wpx B (printint fd xx base sgn)
    (fun _ w' => printed ((if neg then [ch "-"] else []) ++
       numeral base (if neg then u32 (- xx) else u32 xx)) w w') w.
Proof.
  intros Hw neg. unfold printint. fold neg. rewrite reverse_app. unfold numeral.
  replace (reverse (if neg then [ch "-"] else [])) with (if neg then [ch "-"] else []) by (by destruct neg).
  apply put_chars_spec; [done|]. apply Forall_app. split; [by destruct neg; repeat constructor|].
  apply Forall_reverse, printint_digits_bytes.
Qed.

Lemma printptr_loop_spec k x w :
  writable w.(usys) fd -> 0 <= x < 2 ^ 64 -> (k <= 16)%nat ->
  wpx B (printptr_loop k fd x)
    (fun _ w' => printed (map (fun i => digit_at (Z.shiftr x (60 - 4 * Z.of_nat i) mod 16)) (seq 0 k)) w w') w.
Proof.
  revert x w; induction k as [|k IH]; intros x w Hw Hx Hk; cbn [printptr_loop].
  - apply wpx_ret, printed_nil.
  - eapply wpx_call; [by apply putc_spec|]. intros [] w1 H1.
    eapply (wpx_mono _ _ (fun _ w2 => printed _ w1 w2)).
    { apply IH; [by apply (printed_writable _ _ _ H1)|apply u64_range|lia]. }
    intros [] w2 H2. rewrite u8_small in H1 by apply digit_at_byte.
    pose proof (printed_trans _ _ _ _ _ H1 H2) as H3. cbn [seq map].
    rewrite Z.mod_small by (rewrite Z.shiftr_div_pow2 by lia; dlia).
    erewrite <-seq_shift, map_map, map_ext_in; [exact H3|].
    intros i Hi%list_elem_of_In%elem_of_seq. cbv beta. f_equal. apply next_nibble; lia.
Qed.

Lemma printptr_spec x w :
  writable w.(usys) fd -> 0 <= x < 2 ^ 64 ->
  wpx B (printptr fd x) (fun _ w' => printed (chars "0x" ++ hex64 x) w w') w.
Proof.
  intros Hw Hx. unfold printptr.
  eapply wpx_call; [by apply putc_spec|]. intros [] w1 H1.
  eapply wpx_call; [by apply putc_spec, (printed_writable _ _ _ H1)|]. intros [] w2 H2.
  eapply (wpx_mono _ _ (fun _ w3 => printed (hex64 x) w2 w3)).
  { apply printptr_loop_spec; [|done..]. by apply (printed_writable _ _ _ H2), (printed_writable _ _ _ H1). }
  intros [] w3 H3. apply (printed_trans [ch "0"; ch "x"] _ w w2 w3); [|done].
  by apply (printed_trans [ch "0"] [ch "x"] w w1 w2).
Qed.

Lemma put_string_spec k a l w :
  writable w.(usys) fd -> cstr w.(umem) a l -> Forall (fun c => 0 <= c < 2 ^ 8) l ->
  putc_c < a \/ a + Z.of_nat (length l) < putc_c -> (length l < k)%nat ->
  wpx B (put_string k fd a) (fun _ w' => printed l w w') w.
Proof.
  revert a l w; induction k as [|k IH]; intros a l w Hw Ha Hl Hc Hk; [lia|]. cbn [put_string].
  apply wpx_bind, wpx_gets. destruct l as [|c l].
  - apply cstr_nil in Ha. rewrite Ha. apply wpx_ret, printed_nil.
  - apply cstr_cons in Ha as (-> & Hc0 & Ha). rewrite (proj2 (ztrue_true c) Hc0).
    apply Forall_cons in Hl as [Hcb Hl]. simpl in Hc, Hk.
    eapply wpx_call; [by apply putc_spec|]. intros [] w1 H1. rewrite u8_small in H1 by done.
    eapply (wpx_mono _ _ (fun _ w2 => printed l w1 w2)).
    + apply IH; [by apply (printed_writable _ _ _ H1)| |done|lia|lia].
      eapply cstr_ext; [|exact Ha]. intros x Hx. symmetry. apply H1. lia.
    + intros [] w2 H2. by apply (printed_trans [c] l w w1 w2).
Qed.

(** A number printed by one of the directives. *)
Lemma number_spec xx base sgn text (more : nat) (ap : list Z) w :
  writable w.(usys) fd ->
  (if sgn && (xx <? 0) then [ch "-"] else []) ++
    numeral base (if sgn && (xx <? 0) then u32 (- xx) else u32 xx) = text ->
  wpx B (printint fd xx base sgn;; mret (more, ap))
    (fun r w' => r = (more, ap) /\ printed text w w') w.
Proof.
  intros Hw <-. eapply wpx_call; [by apply printint_spec|]. intros [] w1 H1. by apply wpx_ret.
Qed.

Lemma signed_eq xx :
  (if true && (xx <? 0) then [ch "-"] else []) ++
    numeral 10 (if true && (xx <? 0) then u32 (- xx) else u32 xx) = signed xx.
Proof.
  unfold signed. simpl. destruct (Z.ltb_spec xx 0); [rewrite Z.abs_neq by lia|rewrite Z.abs_eq by lia]; done.
Qed.

Lemma u32_s64 a : u32 (s64 a) = u32 a.
Proof.
  unfold u32, s64. rewrite (Z.mod_eq (a + 2 ^ 63)) by lia.
  replace (a + 2 ^ 63 - 2 ^ 64 * ((a + 2 ^ 63) / 2 ^ 64) - 2 ^ 63)
    with (a + (- (2 ^ 32 * ((a + 2 ^ 63) / 2 ^ 64))) * 2 ^ 32) by lia.
  by rewrite Z.mod_add by lia.
Qed.

Lemma u8_u32 a : u8 (u32 a) = u8 a.
Proof.
  unfold u8, u32. apply Z.mod_mod_divide. by exists (2 ^ 24).
Qed.

Lemma u32_idem a : u32 (u32 a) = u32 a.
Proof. apply u32_small, u32_range. Qed.

Lemma va_arg_bind {A} a ap (k : Z * list Z -> U OS A) Q w :
  wpx B (k (a, ap)) Q w -> wpx B (va_arg (a :: ap) ≫= k) Q w.
Proof. done. Qed.

(** Decide the tests on the characters of a conversion. *)
Ltac conv :=
  cbn -[convert wpx]; unfold convert;
  repeat match goal with
  | |- context [ch ?a =? ch ?b] =>
      let r := eval vm_compute in (ch a =? ch b) in change (ch a =? ch b) with r
  end;
  cbn [andb]; try apply va_arg_bind.

(** A conversion reads the characters after the [%] and prints what its
    directive renders. *)
Lemma convert_spec d args text fmt rest ap m0 w :
  writable w.(usys) fd -> renders m0 d args text -> show d = ch "%" :: fmt ->
  (forall x, x <> putc_c -> mget w.(umem) x = mget m0 x) -> (length text < fuel)%nat ->
  let f := fmt ++ rest in
  wpx B (convert fd (fmt_at f 0) (fmt_at f 1) (if ztrue (fmt_at f 1) then fmt_at f 2 else 0) (args ++ ap))
    (fun r w' => r = ((length fmt - 1)%nat, ap) /\ printed text w w') w.
Proof.
  intros Hw Hr. destruct Hr as [c ? ?| |l a Hl|l a Hl|l a Hl|a|a| |a l Ha Ha0 Hb Hc];
    intros [= Hshow] Hm Hf; try done; subst fmt.
  - conv. eapply wpx_call; [by apply putc_spec|]. intros [] w1 H1. by apply wpx_ret.
  - destruct l as [|[|[|l]]]; [| | |lia]; conv; (apply number_spec; [done|apply signed_eq]).
  - destruct l as [|[|[|l]]]; [| | |lia]; conv; (apply number_spec; [done|]);
      cbn [andb app]; rewrite ?u32_s64, ?u32_idem; exact eq_refl.
  - destruct l as [|[|[|l]]]; [| | |lia]; conv; (apply number_spec; [done|]);
      cbn [andb app]; rewrite ?u32_s64, ?u32_idem; exact eq_refl.
  - conv. eapply wpx_call; [by apply printptr_spec, u64_range|]. intros [] w1 H1. by apply wpx_ret.
  - conv. eapply wpx_call; [by apply putc_spec|]. intros [] w1 H1. apply wpx_ret. split; [done|].
    by rewrite u8_u32 in H1.
  - conv. eapply wpx_call; [apply put_chars_spec; [done|by repeat constructor]|].
    intros [] w1 H1. by apply wpx_ret.
  - conv. rewrite (proj2 (Z.eqb_neq a 0) Ha0). eapply wpx_call; [apply (put_string_spec _ a l); try done|].
    + eapply cstr_ext; [|exact Ha]. intros x Hx. symmetry. apply Hm. lia.
    + intros [] w1 H1. by apply wpx_ret.
Qed.

(** The iteration after a [%]. *)
Lemma convert_step m0 d args text f rest pre k ap (Q : unit -> user OS -> Prop) w :
  writable w.(usys) fd -> renders m0 d args text -> show d = ch "%" :: f ->
  f <> [] -> ztrue (fmt_at f 0) = true ->
  (forall x, x <> putc_c -> mget w.(umem) x = mget m0 x) -> (length text < fuel)%nat ->
  (forall w1, printed text w w1 ->
     wpx B (vprintf_loop k fd ((pre ++ f) ++ rest) (length (pre ++ f)) false ap) Q w1) ->
  wpx B (vprintf_loop (S k) fd (pre ++ f ++ rest) (length pre) true (args ++ ap)) Q w.
Proof.
  intros Hw Hr Hs Hnf Hz Hm Hf HQ. cbn [vprintf_loop negb].
  rewrite !fmt_at_app0, !fmt_at_app.
  assert (fmt_at (f ++ rest) 0 = fmt_at f 0) as E0 by (by destruct f).
  rewrite E0, Hz, <-E0.
  eapply wpx_call; [by apply (convert_spec d args text f rest ap m0)|].
  intros [more ap'] w1 [[= -> ->] H1]. rewrite app_assoc.
  replace (length pre + (length f - 1) + 1)%nat with (length (pre ++ f)); [by apply HQ|].
  rewrite length_app. destruct f; [done|simpl; lia].
Qed.

Lemma vprintf_loop_spec m0 ds args text pre k w :
  formats m0 ds args text -> writable w.(usys) fd ->
  (forall x, x <> putc_c -> mget w.(umem) x = mget m0 x) ->
  (length (show_all ds) < k)%nat -> (length text < fuel)%nat ->
  wpx B (vprintf_loop k fd (pre ++ show_all ds) (length pre) false args)
    (fun _ w' => printed text w w') w.
Proof.
  intros Hf. revert pre k w. induction Hf as [|d ds a1 a2 t1 t2 Hr Hf IH];
    intros pre k w Hw Hm Hk Hlen; (destruct k as [|k]; [simpl in Hk; lia|]); cbn [vprintf_loop].
  { rewrite fmt_at_app0. apply wpx_ret, printed_nil. }
  unfold show_all in *. cbn [map concat] in *. rewrite length_app in Hk, Hlen.
  rewrite !fmt_at_app0.
  destruct (show_cases _ _ _ _ Hr) as [(c & -> & Hc & Hp & -> & ->)|(f & Hs & Hnf & Hz)].
  - change (fmt_at (show (Plain c) ++ concat (map show ds)) 0) with c.
    rewrite (proj2 (ztrue_true c)) by lia. cbn [negb]. rewrite (proj2 (Z.eqb_neq c (ch "%")) Hp).
    eapply wpx_call; [by apply putc_spec|]. intros [] w1 H1. rewrite u8_small in H1 by lia.
    eapply (wpx_mono _ _ (fun _ w2 => printed t2 w1 w2)).
    + specialize (IH (pre ++ [c]) k w1). rewrite length_app, <-app_assoc in IH. simpl in *.
      apply IH; [by apply (printed_writable _ _ _ H1)|intros x Hx; by rewrite <-Hm, (pr_mem _ _ _ H1)|lia..].
    + intros [] w2 H2. by apply (printed_trans [c] t2 w w1 w2).
  - rewrite Hs in *. change (fmt_at _ 0) with (ch "%"). cbn [negb]. 
    change (ztrue (ch "%")) with true. change (ch "%" =? ch "%") with true. cbn [length app] in *.
    destruct k as [|k]; [lia|].
    assert (0 < length f)%nat by (destruct f; [done|simpl; lia]).
    replace (length pre + 1)%nat with (length (pre ++ [ch "%"])) by (by rewrite length_app).
    replace (pre ++ ch "%" :: f ++ concat (map show ds)) with
      ((pre ++ [ch "%"]) ++ f ++ concat (map show ds)) by (by rewrite <-app_assoc).
    eapply convert_step; [done..|lia|]. intros w1 H1.
    eapply (wpx_mono _ _ (fun _ w2 => printed t2 w1 w2)).
    + apply IH; [by apply (printed_writable _ _ _ H1)|intros x Hx; by rewrite <-Hm, (pr_mem _ _ _ H1)|lia..].
    + intros [] w2 H2. by apply (printed_trans t1 t2 w w1 w2).
Qed.

Lemma vprintf_spec ds args text w :
  formats w.(umem) ds args text -> writable w.(usys) fd -> (length text < fuel)%nat ->
  wpx B (vprintf fd (show_all ds) args) (fun _ w' => printed text w w') w.
Proof. intros Hf Hw Hlen. apply (vprintf_loop_spec w.(umem) ds args text []); (done || lia). Qed.
End proof.


(** ** Numerals *)

Lemma digit_at_dec d : 0 <= d < 10 -> digit_at d = ch "0" + d.
Proof.
  intros Hd. assert (d ∈ [0;1;2;3;4;5;6;7;8;9]) as H by (rewrite !elem_of_cons; lia).
  repeat (apply elem_of_cons in H as [->|H]; [done|]). by apply elem_of_nil in H.
Qed.

Lemma dec_value_snoc n l c : dec_value n (l ++ [c]) = dec_value n l * 10 + (c - ch "0").
Proof. unfold dec_value. by rewrite foldl_app. Qed.

Lemma printint_digits_dec k x :
  0 <= x < 10 ^ Z.of_nat k ->
  Forall (fun c => digit c = true) (printint_digits k x 10) /\
  dec_value 0 (reverse (printint_digits k x 10)) = x /\
  (length (printint_digits k x 10) <= k)%nat.
Proof.
  revert x; induction k as [|k IH]; intros x Hx; cbn [printint_digits].
  { simpl in Hx. replace x with 0 by lia. done. }
  rewrite Nat2Z.inj_succ, Z.pow_succ_r in Hx by lia.
  assert (0 <= x mod 10 < 10) as Hm by dlia.
  assert (digit (digit_at (x mod 10)) = true) as Hd.
  { rewrite digit_at_dec by done. unfold digit. change (ch "0") with 48. change (ch "9") with 57.
    apply andb_true_iff. rewrite !Z.leb_le. lia. }
  rewrite reverse_cons, dec_value_snoc, digit_at_dec by done. rewrite digit_at_dec in Hd by done.
  destruct (Z.eqb_spec (x / 10) 0) as [E|E].
  - simpl. split_and!; [by constructor|dlia|lia].
  - destruct (IH (x / 10)) as (H1 & H2 & H3); [dlia|].
    split_and!; [by constructor|rewrite H2; dlia|simpl; lia].
Qed.

(** The decimal numeral of a [uint] has its value. *)
Lemma numeral_dec x :
  0 <= x < 2 ^ 32 ->
  Forall (fun c => digit c = true) (numeral 10 x) /\ dec_value 0 (numeral 10 x) = x /\
  (length (numeral 10 x) <= 32)%nat.
Proof.
  intros Hx. destruct (printint_digits_dec 32 x) as (H1 & H2 & H3); [change (10 ^ _) with (10 ^ 32); lia|].
  unfold numeral. rewrite length_reverse. split_and!; [by apply Forall_reverse|done|done].
Qed.

Lemma signed_nonneg x : 0 <= x < 2 ^ 31 -> signed (int_arg 0 x) = numeral 10 x.
Proof.
  intros Hx. unfold int_arg. rewrite decide_True, s32_small by (done || lia). unfold signed.
  rewrite (proj2 (Z.ltb_ge x 0)), Z.abs_eq, u32_small by lia. done.
Qed.

Lemma printint_digits_length k j x base :
  2 <= base -> 0 <= x < base ^ Z.of_nat (S j) -> (length (printint_digits k x base) <= S j)%nat.
Proof.
  intros Hb. revert j x; induction k as [|k IH]; intros j x Hx; cbn [printint_digits length]; [lia|].
  destruct (Z.eqb_spec (x / base) 0) as [E|E]; [simpl; lia|].
  assert (0 < x / base) as Hp by (pose proof (Z.div_pos x base); lia).
  destruct j as [|j].
  - rewrite Z.div_small in Hp; [lia|]. change (Z.of_nat 1) with 1 in Hx. lia.
  - apply le_n_S, IH. split; [lia|]. apply Z.div_lt_upper_bound; [lia|].
    rewrite (Nat2Z.inj_succ (S j)), Z.pow_succ_r in Hx by lia. lia.
Qed.

(** The array [buf] of [printint] is large enough: in base 10 and 16
    the digits of a [uint] and a sign need at most 11 of its 20 bytes. *)
Theorem printint_buf_bounded base x :
  base = 10 \/ base = 16 -> (length (printint_digits 32 (u32 x) base ++ [ch "-"]) <= 11)%nat.
Proof.
  intros Hb. rewrite length_app. pose proof (u32_range x).
  pose proof (printint_digits_length 32 9 (u32 x) base) as H1. cbn [length].
  destruct Hb as [->| ->]; (rewrite Nat.add_1_r; apply le_n_S, H1; [lia|]).
  - change (10 ^ Z.of_nat 10) with 10000000000. lia.
  - change (16 ^ Z.of_nat 10) with 1099511627776. lia.
Qed.

(** [atoi] undoes [printint]: what [printint] prints for a
    non-negative [int], read as a C string from any memory, is converted
    back to the number. *)
Theorem printint_atoi_roundtrip {OS} `{K : Kernel OS, !Streams OS, Slots, Fuel} fd x w :
  0 <= x < 2 ^ 31 -> writable w.(usys) fd -> (32 < fuel)%nat ->
  wp (printint fd x 10 true) (fun _ w' => exists text,
    output w'.(usys) fd = output w.(usys) fd ++ text /\
    forall (v : user OS) s, cstr v.(umem) s text -> atoi s v = Ret x v) w.
Proof.
  intros Hx Hw Hf.
  destruct (numeral_dec x) as (H1 & H2 & H3); [lia|].
  eapply wpx_mono; [by apply printint_spec|].
  intros [] w' Hp. rewrite (proj2 (Z.ltb_ge x 0)) in Hp by lia. cbn [andb app] in Hp.
  rewrite u32_small in Hp by lia. exists (numeral 10 x). split; [apply Hp|].
  intros v s Hs. unfold atoi, from_mem. rewrite <-(app_nil_r (numeral 10 x)) in Hs.
  rewrite (atoi_loop_spec _ _ _ (numeral 10 x) []); try done; try lia. by rewrite H2.
Qed.

(** ** Examples *)

#[local] Existing Instances demo_slots demo_fuel.


Lemma printint_buf_bounded_witness : (length (printint_digits 32 (u32 (-1)) 10 ++ [ch "-"]) <= 11)%nat.
Proof. apply (printint_buf_bounded 10 (-1)). by left. Defined.

Lemma printint_atoi_roundtrip_witness :
  let w := demo_user [] [] in
  exists w' text, printint 1 6180 10 true w = Ret tt w' /\ output w'.(usys) 1 = text /\
    forall (v : user tape) s, cstr v.(umem) s text -> atoi s v = Ret 6180 v.
Proof.
  intros w. destruct (fun a b c => wp_run _ _ _ (printint_atoi_roundtrip 1 6180 w a b c)) as ([] & w' & E & text & Ho & H).
  - lia.
  - done.
  - vm_compute. lia.
  - exists w', text. done.
Defined.
