(* ===== verification/Grep.v ===== *)
(** * grep: user/grep.c

    The matcher runs on the two C strings in memory; the program reads its
    input into [buf] piece by piece and handles the complete lines of each
    piece.  The specification of the matcher is a relation on the pattern
    as a list of items, and the program is shown to print exactly the
    matching lines however the kernel cuts the input into pieces. *)

From S2P Require Import Prelude Memory CString Sysfile User Ulib.

(** ** The matcher *)

(** [matchhere] and [matchstar]; the loop of the latter is its recursion. *)
Fixpoint matchhere (fuel : nat) (m : memory) (re text : Z) {struct fuel} : option bool :=
  match fuel with
  | O => None
  | S fuel =>
      if mget m re =? 0 then Some true
      else if mget m (re + 1) =? ch "*" then matchstar fuel m (mget m re) (re + 2) text
      else if (mget m re =? ch "$") && (mget m (re + 1) =? 0) then Some (mget m text =? 0)
      else if ztrue (mget m text) && ((mget m re =? ch ".") || (mget m re =? mget m text))
      then matchhere fuel m (re + 1) (text + 1)
      else Some false
  end
with matchstar (fuel : nat) (m : memory) (c re text : Z) {struct fuel} : option bool :=
  match fuel with
  | O => None
  | S fuel =>
      match matchhere fuel m re text with
      | None => None
      | Some true => Some true
      | Some false =>
          if ztrue (mget m text) && ((mget m text =? c) || (c =? ch "."))
          then matchstar fuel m c re (text + 1)
          else Some false
      end
  end.

(** [do{ if(matchhere(re, text)) return 1; }while( *text++ != 0); return 0;] *)
Fixpoint match_loop (k fuel : nat) (m : memory) (re text : Z) : option bool :=
  match k with
  | O => None
  | S k =>
      match matchhere fuel m re text with
      | None => None
      | Some true => Some true
      | Some false => if ztrue (mget m text) then match_loop k fuel m re (text + 1) else Some false
      end
  end.

Definition match_ (fuel : nat) (m : memory) (re text : Z) : option bool :=
  if mget m re =? ch "^" then matchhere fuel m (re + 1) text
  else match_loop fuel fuel m re text.

(** ** The program *)

Section grep.
Context {OS : Type} `{Kernel OS, Slots, Fuel}.

(** The static buffer. *)
Context (buf : Z).

(** [while((q = strchr(p, '\n')) != 0){ ... p = q+1; }], returning [p]. *)
Fixpoint grep_lines (k : nat) (pattern p : Z) : U OS Z :=
  match k with
  | O => no_fuel
  | S k =>
      q ← strchr p (ch "010");
      if q =? 0 then mret p
      else
        st q 0;;
        b ← from_mem (fun m => match_ fuel m pattern p);
        when b (st q (ch "010");; write 1 p (q + 1 - p);; mret tt);;
        grep_lines k pattern (q + 1)
  end.

(** [while((n = read(fd, buf+m, sizeof(buf)-m-1)) > 0){ ... }] *)
Fixpoint grep_loop (k : nat) (pattern fd m : Z) : U OS unit :=
  match k with
  | O => no_fuel
  | S k =>
      n ← read fd (buf + m) (1024 - m - 1);
      if 0 <? n then
        let m := m + n in
        st (buf + m) 0;;
        p ← grep_lines fuel pattern buf;
        m ← (if 0 <? m then
               let m := m - (p - buf) in
               memmove buf p m;;
               mret m
             else mret m);
        grep_loop k pattern fd m
      else mret tt
  end.

Definition grep (pattern fd : Z) : U OS unit := grep_loop fuel pattern fd 0.
End grep.

(** ** Regular expressions *)

Inductive atom := Lit (c : Z) | Any.
Inductive item := One (a : atom) | Many (a : atom) | Eol.

Definition atom_of (c : Z) : atom := if c =? ch "." then Any else Lit c.

(** The items of a pattern after its optional [^]. *)
Fixpoint items (l : list Z) : list item :=
  match l with
  | [] => []
  | c :: rest =>
      match rest with
      | [] => if c =? ch "$" then [Eol] else [One (atom_of c)]
      | d :: rest' =>
          if d =? ch "*" then Many (atom_of c) :: items rest'
          else One (atom_of c) :: items rest
      end
  end.

Definition atom_ok (a : atom) (c : Z) : Prop :=
  match a with Lit d => c = d | Any => True end.

(** [accepts its t rest]: the items match the text [t] when [rest] follows. *)
Inductive accepts : list item -> list Z -> list Z -> Prop :=
| acc_nil rest : accepts [] [] rest
| acc_one a c its t rest : atom_ok a c -> accepts its t rest -> accepts (One a :: its) (c :: t) rest
| acc_many a cs its t rest :
    Forall (atom_ok a) cs -> accepts its t rest -> accepts (Many a :: its) (cs ++ t) rest
| acc_eol : accepts [Eol] [] [].

(** The text contains a match of the pattern: at its start when the pattern
    begins with [^], anywhere otherwise. *)
Definition matches (pattern text : list Z) : Prop :=
  match pattern with
  | c :: p =>
      if c =? ch "^"
      then exists mid post, text = mid ++ post /\ accepts (items p) mid post
      else exists pre mid post, text = pre ++ mid ++ post /\ accepts (items pattern) mid post
  | [] => True
  end.

(** The items match at the start of the text. *)
Definition here (its : list item) (text : list Z) : Prop :=
  exists mid post, text = mid ++ post /\ accepts its mid post.

Lemma here_nil t : here [] t.
Proof. exists [], t. split; [done|constructor]. Qed.

Lemma here_one a its t :
  here (One a :: its) t <-> exists c t', t = c :: t' /\ atom_ok a c /\ here its t'.
Proof.
  split.
  - intros (mid & post & -> & H). inversion H as [|? c ? t0 ? Hc Ht| |]; subst.
    exists c, (t0 ++ post). split_and!; [done..|]. by eexists _, _.
  - intros (c & t' & -> & Hc & mid & post & -> & H). exists (c :: mid), post.
    split; [done|]. by constructor.
Qed.

Lemma here_many a its t :
  here (Many a :: its) t <->
  here its t \/ exists c t', t = c :: t' /\ atom_ok a c /\ here (Many a :: its) t'.
Proof.
  split.
  - intros (mid & post & -> & H). inversion H as [| |? cs ? t0 ? Hcs Ht|]; subst.
    destruct Hcs as [|c cs Hc Hcs]; [left; by eexists _, _|right].
    exists c, ((cs ++ t0) ++ post). split_and!; [done..|].
    eexists _, _. split; [done|]. by constructor.
  - intros [(mid & post & -> & H)|(c & t' & -> & Hc & mid & post & -> & H)].
    + exists ([] ++ mid), post. split; [done|]. by constructor.
    + inversion H as [| |? cs ? t0 ? Hcs Ht|]; subst.
      exists ((c :: cs) ++ t0), post. split; [done|]. constructor; [by constructor|done].
Qed.

Lemma here_eol t : here [Eol] t <-> t = [].
Proof.
  split.
  - intros (mid & post & -> & H). by inversion H.
  - intros ->. exists [], []. split; [done|constructor].
Qed.

Lemma atom_of_ok c d : ((c =? ch ".") || (c =? d)) = true <-> atom_ok (atom_of c) d.
Proof.
  unfold atom_of. destruct (c =? ch "."); simpl; [done|]. rewrite Z.eqb_eq. naive_solver.
Qed.

(** What the head of a pattern means, in the order in which the code asks. *)
Lemma items_star c r : items (c :: ch "*" :: r) = Many (atom_of c) :: items r.
Proof. done. Qed.

Lemma items_one c r :
  head r <> Some (ch "*") -> ~ (c = ch "$" /\ r = []) ->
  items (c :: r) = One (atom_of c) :: items r.
Proof.
  intros Hs Hd. destruct r as [|d r]; simpl.
  - destruct (Z.eqb_spec c (ch "$")); naive_solver.
  - destruct (Z.eqb_spec d (ch "*")); [naive_solver|done].
Qed.

Definition here_ok (fuel : nat) (m : memory) : Prop :=
  forall re text r t, cstr m re r -> cstr m text t -> (2 * (length r + length t) < fuel)%nat ->
  exists b, matchhere fuel m re text = Some b /\ (b = true <-> here (items r) t).

Definition star_ok (fuel : nat) (m : memory) : Prop :=
  forall c re text r t, cstr m re r -> cstr m text t -> (2 * (length r + length t) + 1 < fuel)%nat ->
  exists b, matchstar fuel m c re text = Some b /\ (b = true <-> here (Many (atom_of c) :: items r) t).

Lemma matchhere_ok fuel m : here_ok fuel m -> star_ok fuel m -> here_ok (S fuel) m.
Proof.
  intros IHh IHs re text r t Hr Ht Hf. cbn [matchhere].
  destruct r as [|c r].
  { apply cstr_nil in Hr. rewrite Hr. exists true. split; [done|]. split; [|done].
    intros _. apply here_nil. }
  apply cstr_cons in Hr as (-> & Hc & Hr). simpl in Hf.
  rewrite (proj2 (Z.eqb_neq c 0) Hc).
  destruct (Z.eqb_spec (mget m (re + 1)) (ch "*")) as [Hstar|Hstar].
  { destruct r as [|d r]; [apply cstr_nil in Hr; by rewrite Hr in Hstar|].
    apply cstr_cons in Hr as (Hd & _ & Hr). replace (re + 2) with (re + 1 + 1) by lia.
    assert (d = ch "*") as -> by congruence. rewrite items_star. simpl in Hf.
    apply IHs; [done..|lia]. }
  destruct ((c =? ch "$") && (mget m (re + 1) =? 0)) eqn:Hd.
  { apply andb_true_iff in Hd as [->%Z.eqb_eq H0%Z.eqb_eq].
    assert (r = []) as ->.
    { destruct r; [done|]. apply cstr_cons in Hr as (? & ? & _). congruence. }
    eexists. split; [done|]. change (items _) with [Eol]. rewrite here_eol, Z.eqb_eq.
    destruct t; [apply cstr_nil in Ht; by rewrite Ht|].
    apply cstr_cons in Ht as (? & ? & _). split; [congruence|done]. }
  rewrite items_one.
  2:{ destruct r; [done|]. apply cstr_cons in Hr as (? & ? & _). simpl. congruence. }
  2:{ intros [-> ->]. apply cstr_nil in Hr. by rewrite Hr in Hd. }
  pose proof (here_one (atom_of c) (items r) t) as Hone. destruct t as [|d t].
  { apply cstr_nil in Ht. rewrite Ht. exists false. split; [done|]. naive_solver. }
  apply cstr_cons in Ht as (-> & Hd0 & Ht). rewrite (proj2 (ztrue_true d) Hd0). simpl in Hf |- *.
  pose proof (atom_of_ok c d) as Ha.
  destruct ((c =? ch ".") || (c =? d)).
  - destruct (IHh _ _ _ _ Hr Ht) as (b & -> & Hb); [lia|]. exists b. split; [done|].
    rewrite Hb, Hone. split; [intros Hh; exists d, t; split_and!; [done|by apply Ha|done]|].
    by intros (c' & t' & [= <- <-] & _ & Hh).
  - exists false. split; [done|]. split; [done|].
    intros (c' & t' & [= <- <-] & Hc' & _)%Hone. by apply Ha in Hc'.
Qed.

Lemma matchstar_ok fuel m : here_ok fuel m -> star_ok fuel m -> star_ok (S fuel) m.
Proof.
  intros IHh IHs c re text r t Hr Ht Hf. cbn [matchstar].
  destruct (IHh _ _ _ _ Hr Ht) as (b & -> & Hb); [lia|].
  pose proof (here_many (atom_of c) (items r) t) as Hmany.
  destruct b; [exists true; naive_solver|].
  destruct t as [|d t].
  { apply cstr_nil in Ht. rewrite Ht. exists false. naive_solver. }
  apply cstr_cons in Ht as (-> & Hd0 & Ht). rewrite (proj2 (ztrue_true d) Hd0). simpl in Hf |- *.
  pose proof (atom_of_ok c d) as Ha. rewrite (Z.eqb_sym d c), orb_comm.
  destruct ((c =? ch ".") || (c =? d)).
  - destruct (IHs c _ _ _ _ Hr Ht) as (b & -> & Hb'); [lia|]. exists b. split; [done|].
    rewrite Hb', Hmany. split.
    + intros Hh. right. exists d, t. split_and!; [done|by apply Ha|done].
    + intros [Hh|(c' & t' & [= <- <-] & _ & Hh)]; [by apply Hb in Hh|done].
  - exists false. split; [done|]. split; [done|].
    intros [Hh|(c' & t' & [= <- <-] & Hc' & _)]%Hmany; [by apply Hb in Hh|by apply Ha in Hc'].
Qed.

Lemma matcher_ok fuel m : here_ok fuel m /\ star_ok fuel m.
Proof.
  induction fuel as [|fuel [IHh IHs]]; [split; red; intros; lia|].
  split; [by apply matchhere_ok|by apply matchstar_ok].
Qed.

Lemma match_loop_ok k fuel m re text r t :
  cstr m re r -> cstr m text t -> (length t < k)%nat -> (2 * (length r + length t) < fuel)%nat ->
  exists b, match_loop k fuel m re text = Some b /\
    (b = true <-> exists pre suf, t = pre ++ suf /\ here (items r) suf).
Proof.
  intros Hr. revert text t; induction k as [|k IH]; intros text t Ht Hk Hf; [lia|]. cbn [match_loop].
  destruct (proj1 (matcher_ok fuel m) _ _ _ _ Hr Ht Hf) as (b & -> & Hb).
  destruct b; [exists true; split; [done|]; split; [|done]; intros _; exists [], t; naive_solver|].
  destruct t as [|d t].
  { apply cstr_nil in Ht. rewrite Ht. exists false. split; [done|]. split; [done|].
    intros (pre & suf & E & Hh). symmetry in E. apply app_nil in E as [-> ->]. by apply Hb in Hh. }
  apply cstr_cons in Ht as (-> & Hd & Ht). rewrite (proj2 (ztrue_true d) Hd). simpl in *.
  destruct (IH _ _ Ht) as (b & -> & Hb'); [lia..|]. exists b. split; [done|]. rewrite Hb'. split.
  - intros (pre & suf & -> & Hh). exists (d :: pre), suf. done.
  - intros ([|x pre] & suf & E & Hh); simplify_eq/=; [by apply Hb in Hh|]. by exists pre, suf.
Qed.

Lemma matches_anchored r t : matches (ch "^" :: r) t <-> here (items r) t.
Proof. done. Qed.

Lemma matches_anywhere r t :
  head r <> Some (ch "^") -> matches r t <-> exists pre suf, t = pre ++ suf /\ here (items r) suf.
Proof.
  intros Hr. unfold matches, here. destruct r as [|c r].
  - split; [|done]. intros _. exists [], t. split; [done|]. apply here_nil.
  - destruct (Z.eqb_spec c (ch "^")) as [->|_]; [done|]. clear Hr. naive_solver.
Qed.

Lemma match_ok fuel m re text r t :
  cstr m re r -> cstr m text t -> (2 * (length r + length t) + 1 < fuel)%nat ->
  exists b, match_ fuel m re text = Some b /\ (b = true <-> matches r t).
Proof.
  intros Hr Ht Hf. unfold match_. destruct (Z.eqb_spec (mget m re) (ch "^")) as [Hc|Hc].
  - destruct r as [|c r]; [apply cstr_nil in Hr; by rewrite Hr in Hc|].
    apply cstr_cons in Hr as (Hc' & _ & Hr). assert (c = ch "^") as -> by congruence.
    apply (proj1 (matcher_ok fuel m)); [done..|]. simpl in Hf. lia.
  - destruct (match_loop_ok fuel fuel m re text r t Hr Ht) as (b & E & Hb); [lia..|].
    exists b. split; [done|]. rewrite Hb. symmetry. apply matches_anywhere.
    destruct r as [|c r]; [done|]. apply cstr_cons in Hr as (Hc' & _). simpl. congruence.
Qed.

#[export] Instance atom_ok_dec a c : Decision (atom_ok a c).
Proof. destruct a; simpl; apply _. Defined.

#[export] Instance here_dec its t : Decision (here its t).
Proof.
  revert t; induction its as [|[a|a|] its IH]; intros t.
  - left. apply here_nil.
  - destruct t as [|c t].
    + right. rewrite here_one. naive_solver.
    + destruct (decide (atom_ok a c /\ here its t)) as [H|H]; [left|right]; rewrite here_one; naive_solver.
  - induction t as [|c t IHt].
    + destruct (IH []) as [H|H]; [left|right]; rewrite here_many; naive_solver.
    + destruct (IH (c :: t)) as [H|H]; [left; rewrite here_many; by left|].
      destruct (decide (atom_ok a c)) as [Ha|Ha]; [|right; rewrite here_many; naive_solver].
      destruct IHt as [Hm|Hm]; [left|right]; rewrite here_many; naive_solver.
  - destruct (decide (its = [] /\ t = [])) as [[-> ->]|H]; [left; by apply here_eol|right].
    intros (mid & post & -> & Ha). inversion Ha. naive_solver.
Defined.

#[export] Instance matches_dec r t : Decision (matches r t).
Proof.
  destruct (decide (head r = Some (ch "^"))) as [E|E].
  - destruct r as [|c r]; [done|]. simpl in E. simplify_eq. apply here_dec.
  - destruct (decide (Exists (fun i => here (items r) (drop i t)) (seq 0 (S (length t))))) as [H|H];
      [left|right]; rewrite (matches_anywhere r t E).
    + apply Exists_exists in H as (i & _ & Hi). exists (take i t), (drop i t).
      by rewrite take_drop.
    + intros (pre & suf & -> & Hh). apply H, Exists_exists. exists (length pre).
      rewrite drop_app_length. split; [|done]. apply elem_of_seq. rewrite length_app. lia.
Defined.

(** C32: [match] decides the regular expressions of grep: for every pattern
    and text in memory it ends, with true exactly when the text has a part
    that the pattern matches, where the pattern [^...] must match at the
    start, a final [$] only at the end, [.] matches every character and
    [c*] any number of characters [c]. *)
Theorem match_correct fuel m re text r t :
  cstr m re r -> cstr m text t -> (2 * (length r + length t) + 1 < fuel)%nat ->
  match_ fuel m re text = Some (bool_decide (matches r t)).
Proof.
  intros Hr Ht Hf. destruct (match_ok fuel m re text r t Hr Ht Hf) as (b & -> & Hb).
  f_equal. destruct b; symmetry; [apply bool_decide_true|apply bool_decide_false]; naive_solver.
Qed.

(** ** The program prints the matching lines *)

Definition unlines (ls : list (list Z)) : list Z := concat (map (fun l => l ++ [NL]) ls).

Lemma unlines_cons l ls : unlines (l :: ls) = l ++ NL :: unlines ls.
Proof. unfold unlines. simpl. by rewrite <-app_assoc. Qed.

Lemma unlines_app ls1 ls2 : unlines (ls1 ++ ls2) = unlines ls1 ++ unlines ls2.
Proof. unfold unlines. by rewrite map_app, concat_app. Qed.

(** The first newline of a text. *)
Lemma find_newline l rest :
  NL ∉ l -> find_index (fun x => x =? NL) (l ++ NL :: rest) = Some (length l).
Proof.
  induction l as [|c l IH]; simpl; [done|]. intros Hl. rewrite not_elem_of_cons in Hl.
  destruct (Z.eqb_spec c NL); [naive_solver|]. rewrite IH; naive_solver.
Qed.

Lemma no_newline l : NL ∉ l -> find_index (fun x => x =? NL) l = None.
Proof.
  intros Hl. apply find_index_None. intros i x Hi. apply Z.eqb_neq. intros ->.
  by apply list_elem_of_lookup_2 in Hi.
Qed.

(** The bytes of a string, and of a part of it. *)
Lemma cstr_read_bytes m a l rest :
  cstr m a (l ++ rest) -> read_bytes (length l) m a = l.
Proof.
  revert a; induction l as [|c l IH]; intros a; simpl; [done|].
  intros (-> & _ & Hl)%cstr_cons. f_equal. by apply IH.
Qed.

(** A prefix of a text is some of its lines and the start of the next. *)
Lemma text_prefix ls tail X rest :
  X ++ rest = unlines ls ++ tail -> Forall (fun l => NL ∉ l) ls ->
  (NL ∉ take 1023 tail) -> (length X <= 1023)%nat ->
  exists ls1 ls2 t, ls = ls1 ++ ls2 /\ X = unlines ls1 ++ t /\ (NL ∉ t) /\
    t ++ rest = unlines ls2 ++ tail.
Proof.
  intros E Hls Ht. revert X E; induction Hls as [|l ls Hl Hls IH]; intros X E HX.
  - exists [], [], X. simpl in E. subst tail. rewrite take_app_ge in Ht by done. set_solver.
  - rewrite unlines_cons, <-app_assoc in E. simpl in E.
    apply app_eq_inv in E as [([|c Y] & -> & E)|(Y & -> & E)]; simplify_eq/=.
    + exists [], (l :: ls), l. rewrite app_nil_r, unlines_cons, <-app_assoc. done.
    + destruct (IH Y) as (ls1 & ls2 & t & -> & -> & Hn & E');
        [done|rewrite length_app in HX; simpl in HX; lia|].
      exists (l :: ls1), ls2, t. by rewrite unlines_cons, <-app_assoc.
    + exists [], ((X ++ Y) :: ls), X. rewrite unlines_cons, <-!app_assoc. split_and!; [done..| |done].
      set_solver.
Qed.

(** A text without newlines that starts another is shorter than its first line. *)
Lemma line_prefix t rest l ls tail :
  NL ∉ t -> t ++ rest = unlines (l :: ls) ++ tail -> (length t <= length l)%nat.
Proof.
  rewrite unlines_cons, <-app_assoc. simpl. intros Ht E.
  apply app_eq_inv in E as [([|c Y] & -> & E)|(Y & -> & E)]; simplify_eq/=.
  - by rewrite app_nil_r.
  - set_solver.
  - rewrite length_app. lia.
Qed.

Lemma umemmove_copied m dst src n :
  mem_ok m -> 0 <= n -> copied m (umemmove m dst src n) dst src n.
Proof.
  intros Hm Hn. destruct (Z_of_nat_complete n Hn) as [k ->]. unfold umemmove. rewrite Nat2Z.id.
  destruct (Z.ltb_spec dst src); [apply copy_up_spec|apply copy_down_spec]; auto; lia.
Qed.

Section grep_proof.
Context {OS : Type} `{K : Kernel OS, STR : !Streams OS, SLO : Slots, FUE : Fuel} (B : user OS -> Prop) (pattern : Z) (r : list Z).

(** The pattern is outside the [n] bytes from [a]. *)
Definition apart (a n : Z) : Prop :=
  pattern + Z.of_nat (length r) + 1 <= a \/ a + n <= pattern.

(** What one pass over the lines at [p] leaves behind. *)
Record passed (p : Z) (ls : list (list Z)) (w w' : user OS) : Prop := {
  pa_mem : mem_ok w'.(umem);
  pa_out : forall x, x < p \/ p + Z.of_nat (length (unlines ls)) <= x ->
    mget w'.(umem) x = mget w.(umem) x;
  pa_output : output w'.(usys) 1 = output w.(usys) 1 ++ unlines (filter (matches r) ls);
  pa_input : forall f, input w'.(usys) f = input w.(usys) f;
  pa_same : same_streams readable writable w.(usys) w'.(usys);
}.

Lemma passed_nil p w : mem_ok w.(umem) -> passed p [] w w.
Proof. intros Hm. split; try done. by rewrite app_nil_r. Qed.

Lemma passed_cons p l ls w w1 w2 :
  passed p [l] w w1 -> passed (p + Z.of_nat (length l) + 1) ls w1 w2 -> passed p (l :: ls) w w2.
Proof.
  intros [M1 O1 Q1 I1 S1] [M2 O2 Q2 I2 S2].
  assert (length (unlines [l]) = S (length l)) as Hl.
  { rewrite unlines_cons, length_app. simpl. lia. }
  split; [done| | | |by eapply same_streams_trans].
  - intros x. rewrite unlines_cons, length_app. simpl. intros Hx. rewrite O2 by lia. apply O1. lia.
  - rewrite Q2, Q1, <-app_assoc, <-unlines_app, <-filter_app. done.
  - intros f. by rewrite I2.
Qed.

Lemma passed_line w p l m' s' :
  mem_ok m' -> (forall x, x <> p + Z.of_nat (length l) -> mget m' x = mget w.(umem) x) ->
  output s' 1 = output w.(usys) 1 ++ unlines (filter (matches r) [l]) ->
  (forall f, input s' f = input w.(usys) f) -> same_streams readable writable w.(usys) s' ->
  passed p [l] w (User m' s').
Proof.
  intros Hm Hx Ho Hi Hs. split; try done. intros x. rewrite unlines_cons, length_app. simpl.
  intros ?. apply Hx. lia.
Qed.

(** Cutting the text at its first newline. *)
Lemma cstr_cut m a l rest :
  cstr m a (l ++ NL :: rest) -> cstr (mput m (a + Z.of_nat (length l)) 0) a l.
Proof.
  intros [Hl _]. split; [|by rewrite mget_mput_eq].
  intros i v Hi. pose proof (lookup_lt_Some _ _ _ Hi).
  rewrite mget_mput_ne by lia. apply Hl. by apply lookup_app_l_Some.
Qed.

Lemma cstr_mput m a x v l :
  x < a \/ a + Z.of_nat (length l) < x -> cstr m a l -> cstr (mput m x v) a l.
Proof. intros Hx. apply cstr_ext. intros y Hy. rewrite mget_mput_ne by lia. done. Qed.

(** One line: it is cut at its newline, matched, and printed if it matches. *)
Lemma grep_line_spec k p l rest w (Q : Z -> user OS -> Prop) :
  mem_ok w.(umem) -> cstr w.(umem) pattern r -> cstr w.(umem) p (l ++ NL :: rest) ->
  NL ∉ l -> 0 < p ->
  apart p (Z.of_nat (length l) + 1) -> Z.of_nat (length l) + 1 < 2 ^ 31 ->
  (length (l ++ NL :: rest) < fuel)%nat -> (2 * (length r + length l) + 1 < fuel)%nat ->
  writable w.(usys) 1 ->
  (forall w1, passed p [l] w w1 ->
     wpx B (grep_lines k pattern (p + Z.of_nat (length l) + 1)) Q w1) ->
  wpx B (grep_lines (S k) pattern p) Q w.
Proof.
  intros Hm Hr Hs Hl Hp Ha Hlen Hf1 Hf2 Hw HQ. cbn [grep_lines].
  set (q := p + Z.of_nat (length l)) in *.
  assert (Hcut : cstr (mput w.(umem) q 0) p l) by (by eapply cstr_cut).
  assert (Hpat : cstr (mput w.(umem) q 0) pattern r).
  { apply cstr_mput; [unfold apart in Ha; lia|done]. }
  destruct (match_ok fuel _ pattern p r l Hpat Hcut Hf2) as (b & Hb & Hbm).
  eapply (from_mem_bind _ _ q).
  { rewrite (strchr_loop_spec _ _ _ _ _ Hs Hf1). change (ch "010") with NL. by rewrite find_newline. }
  rewrite (proj2 (Z.eqb_neq q 0)) by lia.
  apply upd_bind. eapply from_mem_bind; [exact Hb|].
  destruct b; cbn [when].
  - apply wpx_bind, upd_bind, wpx_bind, write_spec; [done|simpl; lia|].
    intros s' Ho Hi Hs'. apply wpx_ret, HQ.
    cbn [usys umem] in *. apply passed_line; [by auto with mem| | |done..].
    + intros x Hx. by rewrite !mget_mput_ne by done.
    + rewrite filter_cons_True, filter_nil, unlines_cons by (by apply Hbm). rewrite Ho. f_equal.
      replace (Z.to_nat (q + 1 - p)) with (length (l ++ [NL])) by (rewrite length_app; simpl; lia).
      apply (cstr_read_bytes _ _ _ rest). rewrite <-app_assoc. simpl.
      eapply cstr_ext; [|exact Hs]. intros x Hx. rewrite !mget_mput.
      repeat case_decide; try done. subst x. change (u8 (ch "010")) with NL.
      apply cstr_app, (cstr_cons _ _ NL) in Hs as (E & _). exact E.
  - apply wpx_bind, wpx_ret, HQ. apply passed_line; cbn [usys umem]; [by auto with mem| | |done..].
    + intros x Hx. by rewrite mget_mput_ne by done.
    + rewrite filter_cons_False, filter_nil, app_nil_r; [done|]. intros Hml. by apply Hbm in Hml.
Qed.

Lemma grep_lines_spec k p ls tail w :
  mem_ok w.(umem) -> cstr w.(umem) pattern r -> cstr w.(umem) p (unlines ls ++ tail) ->
  Forall (fun l => NL ∉ l) ls -> NL ∉ tail -> 0 < p ->
  apart p (Z.of_nat (length (unlines ls ++ tail)) + 1) ->
  Z.of_nat (length (unlines ls ++ tail)) < 2 ^ 31 ->
  (length ls < k)%nat -> (2 * (length r + length (unlines ls ++ tail)) + 1 < fuel)%nat ->
  writable w.(usys) 1 ->
  wpx B (grep_lines k pattern p)
    (fun p' w' => p' = p + Z.of_nat (length (unlines ls)) /\ passed p ls w w') w.
Proof.
  revert k p w; induction ls as [|l ls IH]; intros k p w Hm Hr Hs Hls Ht Hp Ha Hlen Hk Hf Hw;
    (destruct k as [|k]; [simpl in Hk; lia|]).
  - cbn [grep_lines]. eapply (from_mem_bind _ _ 0).
    + rewrite (strchr_loop_spec _ _ _ _ tail); [|done|simpl in Hf; lia].
      change (ch "010") with NL. by rewrite no_newline.
    + simpl. apply wpx_ret. split; [lia|by apply passed_nil].
  - rewrite unlines_cons in *. rewrite <-app_assoc in *. cbn [app] in *.
    assert (length (l ++ NL :: unlines ls ++ tail) = length l + S (length (unlines ls ++ tail)))%nat
      as El by apply length_app.
    rewrite El in *. simpl in Hk. apply Forall_cons in Hls as [Hl Hls].
    eapply (grep_line_spec k p l (unlines ls ++ tail)); try done; try lia.
    { unfold apart in *. lia. }
    intros w1 Hw1. pose proof Hw1 as [M1 O1 Q1 I1 S1].
    assert (length (unlines [l]) = S (length l)) as Hul.
    { rewrite unlines_cons, length_app. simpl. lia. }
    eapply wpx_mono; [apply IH|].
    + done.
    + eapply cstr_ext; [|exact Hr]. intros x Hx. symmetry. apply O1. unfold apart in Ha. lia.
    + apply cstr_app, (cstr_cons _ _ NL) in Hs as (_ & _ & Hs). eapply cstr_ext; [|exact Hs].
      intros x Hx. symmetry. apply O1. lia.
    + done.
    + done.
    + lia.
    + unfold apart in *. lia.
    + lia.
    + lia.
    + lia.
    + by apply S1.
    + intros p' w2 [-> H2]. split; [rewrite length_app; simpl; lia|]. by eapply passed_cons.
Qed.

(** The buffer is outside the pattern and not at address 0. *)
Context (buf : Z) (Hbuf : 0 < buf) (Hapart : apart buf 1024).
Context (Hfuel : (2 * (length r + 1023) + 1 < fuel)%nat).

(** [t] waits in the buffer for the rest of its line. *)
Record waiting (t : list Z) (w : user OS) : Prop := {
  wa_mem : mem_ok w.(umem);
  wa_pattern : cstr w.(umem) pattern r;
  wa_text : forall i c, t !! i = Some c -> mget w.(umem) (buf + Z.of_nat i) = c;
  wa_line : NL ∉ t;
  wa_room : (length t <= 1023)%nat;
  wa_stdout : writable w.(usys) 1;
}.

(** The result of a run on the text [unlines ls ++ tail]. *)
Record grepped (ls : list (list Z)) (w w' : user OS) : Prop := {
  gr_output : output w'.(usys) 1 = output w.(usys) 1 ++ unlines (filter (matches r) ls);
  gr_frame : forall x, x < buf \/ buf + 1024 <= x -> mget w'.(umem) x = mget w.(umem) x;
  gr_mem : mem_ok w'.(umem);
  gr_same : same_streams readable writable w.(usys) w'.(usys);
}.

Lemma grepped_trans ls1 ls2 w w1 w2 :
  grepped ls1 w w1 -> grepped ls2 w1 w2 -> grepped (ls1 ++ ls2) w w2.
Proof.
  intros [O1 F1 M1 S1] [O2 F2 M2 S2]. split; [|intros; by rewrite F2, F1|done|by eapply same_streams_trans].
  by rewrite O2, O1, <-app_assoc, <-unlines_app, <-filter_app.
Qed.

(** A buffer full of complete lines and a rest: the lines are handled and
    the rest is moved to the front. *)
Lemma grep_piece ls t w :
  mem_ok w.(umem) -> cstr w.(umem) pattern r -> writable w.(usys) 1 ->
  cstr w.(umem) buf (unlines ls ++ t) -> Forall (fun l => NL ∉ l) ls -> NL ∉ t ->
  (0 < length (unlines ls ++ t) <= 1023)%nat ->
  let m := Z.of_nat (length (unlines ls ++ t)) in
  wpx B (p ← grep_lines fuel pattern buf;
         if 0 <? m then (memmove buf p (m - (p - buf));; mret (m - (p - buf))) else mret m)
    (fun m w' => m = Z.of_nat (length t) /\ waiting t w' /\ grepped ls w w' /\
       forall f, input w'.(usys) f = input w.(usys) f) w.
Proof.
  intros Hm Hr Hw Hs Hls Ht Hlen m. unfold m. clear m. rewrite length_app in Hlen.
  assert (length ls <= length (unlines ls))%nat as Hn.
  { clear. induction ls as [|l ls IH]; [done|]. rewrite unlines_cons, length_app. simpl. lia. }
  eapply wpx_call; [apply (grep_lines_spec fuel buf ls t); rewrite ?length_app; try done|].
  { unfold apart in *. lia. } { lia. } { lia. } { lia. }
  intros p w1 [-> [M1 O1 Q1 I1 S1]]. rewrite length_app.
  rewrite (proj2 (Z.ltb_lt 0 _)) by lia.
  replace (Z.of_nat (length (unlines ls) + length t) - (buf + Z.of_nat (length (unlines ls)) - buf))
    with (Z.of_nat (length t)) by lia.
  apply wpx_bind, upd_bind, wpx_ret, wpx_ret.
  set (p := buf + Z.of_nat (length (unlines ls))) in *.
  pose proof (umemmove_copied w1.(umem) buf p (Z.of_nat (length t)) M1 ltac:(lia)) as Hc.
  split; [done|]. split; [|split; [split|]]; cbn [umem usys]; try done.
  - split; cbn [umem usys]; try done; [by eapply mem_ok_copied| | |lia|by apply S1].
    + eapply cstr_ext; [|exact Hr]. intros x Hx. unfold apart in Hapart.
      rewrite Hc, decide_False, O1; [done|lia..].
    + intros i c Hi. pose proof (lookup_lt_Some _ _ _ Hi). rewrite Hc, decide_True by lia.
      rewrite O1 by lia. apply cstr_app in Hs. destruct Hs as [Hs _]. destruct (Hs i c Hi) as [<- _].
      f_equal. lia.
  - intros x Hx. rewrite Hc, decide_False, O1; [done|lia..].
  - by eapply mem_ok_copied.
Qed.

(** The buffer after a read that appended [new] to the waiting text. *)
Lemma read_text m t new :
  mem_ok m -> (forall i c, t !! i = Some c -> mget m (buf + Z.of_nat i) = c) ->
  Forall (fun c => c <> 0) (t ++ new) -> Forall (fun c => 0 <= c < 2 ^ 8) new ->
  let a := buf + Z.of_nat (length t) in
  cstr (mput (write_bytes m a new) (buf + Z.of_nat (length (t ++ new))) 0) buf (t ++ new).
Proof using All.
  intros Hm Ht Hnz Hb a. rewrite length_app. split.
  - intros i c Hi. pose proof (lookup_lt_Some _ _ _ Hi) as Hlt. rewrite length_app in Hlt.
    split; [|by eapply (Forall_lookup_1 _ _ _ _ Hnz)]. rewrite mget_mput_ne by lia.
    apply lookup_app_Some in Hi as [Hi|[Hge Hi]].
    + pose proof (lookup_lt_Some _ _ _ Hi). rewrite mget_write_bytes_out by lia. by apply Ht.
    + replace (buf + Z.of_nat i) with (a + Z.of_nat (i - length t)) by lia.
      rewrite (mget_write_bytes_in _ _ _ _ c) by done.
      apply u8_small. by eapply (Forall_lookup_1 _ _ _ _ Hb).
  - rewrite length_app. apply mget_mput_eq.
Qed.

Lemma grep_read w t new s' :
  waiting t w -> Forall (fun c => 0 <= c < 2 ^ 8) new -> (length (t ++ new) <= 1023)%nat ->
  (forall f, output s' f = output w.(usys) f) -> same_streams readable writable w.(usys) s' ->
  let m := mput (write_bytes w.(umem) (buf + Z.of_nat (length t)) new)
             (buf + Z.of_nat (length (t ++ new))) 0 in
  grepped [] w (User m s') /\ cstr m pattern r.
Proof using All.
  intros [Hm Hr Ht Htl Hroom Hw] Hb Hlen Ho Hs m.
  assert (forall x, x < buf \/ buf + 1024 <= x -> mget m x = mget w.(umem) x) as Hx.
  { intros x Hx. unfold m. rewrite length_app in *. rewrite mget_mput_ne by lia.
    apply mget_write_bytes_out. lia. }
  split; [split|]; cbn [umem usys]; try done.
  - by rewrite Ho, app_nil_r.
  - by apply mem_ok_mput, mem_ok_write_bytes.
  - eapply cstr_ext; [|exact Hr]. intros x Hp. symmetry. apply Hx. unfold apart in Hapart. lia.
Qed.

Lemma grep_loop_spec fd k t ls tail w :
  waiting t w -> readable w.(usys) fd -> t ++ input w.(usys) fd = unlines ls ++ tail ->
  Forall (fun c => c <> 0) (t ++ input w.(usys) fd) ->
  Forall (fun l => (NL ∉ l) /\ (length l <= 1022)%nat) ls -> (NL ∉ take 1023 tail) ->
  (length (input w.(usys) fd) < k)%nat ->
  wpx B (grep_loop buf k pattern fd (Z.of_nat (length t))) (fun _ w' => grepped ls w w') w.
Proof using All.
  revert t ls w; induction k as [|k IH]; intros t ls w [Hm Hr Ht Htl Hroom Hw] Hrd E Hnz Hls Htail Hk;
    [lia|]. cbn [grep_loop].
  apply wpx_bind, read_spec; [done|lia|].
  intros n s' Hn1 Hn2 Hn0 Hi Ho Hs.
  destruct (Z.ltb_spec 0 (Z.of_nat n)) as [Hpos|Hz].
  2:{ assert (ls = []) as ->.
      { destruct ls as [|l ls]; [done|]. pose proof (line_prefix _ _ _ _ _ Htl E).
        apply Forall_cons in Hls as [[_ Hl] _]. destruct Hn0 as [Hn0|Hn0]; [lia..|].
        rewrite Hn0, app_nil_r, unlines_cons in E. subst t. set_solver. }
      assert (n = 0%nat) as -> by lia. apply wpx_ret.
      split; cbn [umem usys]; try done. by rewrite Ho, app_nil_r. }
  set (new := take n (input (usys w) fd)). set (rest := drop n (input (usys w) fd)) in *.
  assert (length new = n) as Hnew by (unfold new; rewrite length_take; lia).
  assert (input (usys w) fd = new ++ rest) as Ei by (unfold new, rest; by rewrite take_drop).
  rewrite Ei, app_assoc in E, Hnz.
  destruct (text_prefix ls tail (t ++ new) rest E) as (ls1 & ls2 & t1 & -> & Et & Ht1 & E2);
    [by eapply Forall_impl; [exact Hls|]; intros ? []|done|rewrite length_app; lia|].
  apply Forall_app in Hls as [Hls1 Hls2]. apply Forall_app in Hnz as [Hnz1 Hnz2].
  replace (Z.of_nat (length t) + Z.of_nat n) with (Z.of_nat (length (t ++ new)))
    by (rewrite length_app; lia).
  assert (Forall (fun c => 0 <= c < 2 ^ 8) new) as Hb by apply Forall_take, input_bytes.
  assert (length (t ++ new) <= 1023)%nat as Hlen by (rewrite length_app; lia).
  destruct (grep_read w t new s') as [Hg Hp]; [by split|done..|].
  pose proof (read_text w.(umem) t new Hm Ht Hnz1 Hb) as Htext.
  apply upd_bind. cbn [umem usys]. apply wpx_assoc. rewrite Et in *.
  eapply wpx_call; [apply (grep_piece ls1 t1); cbn [umem usys]; try done|].
  { apply Hg. } { by apply Hs. }
  { eapply Forall_impl; [exact Hls1|]. by intros ? []. }
  { rewrite <-Et, length_app in *. lia. }
  intros m w2 (-> & Hw2 & Hg2 & Hi2). pose proof (grepped_trans _ _ _ _ _ Hg Hg2) as Hg12.
  cbn [usys] in Hi2.
  eapply (wpx_mono _ _ (fun _ w' => grepped ls2 w2 w')); [apply (IH t1 ls2); rewrite ?Hi2, ?Hi; try done|].
  - by apply Hg2, Hs.
  - apply Forall_app in Hnz1 as [_ Hnz1]. by apply Forall_app.
  - rewrite Ei, length_app in Hk. lia.
  - intros _ w3 Hg3. by apply (grepped_trans ls1 ls2 w w2 w3).
Qed.
End grep_proof.


(** ** Examples *)

#[local] Existing Instances demo_slots demo_fuel.

Definition demo_text : list Z := unlines [chars "xv6"; chars "risc-v"; chars "v7"].

Lemma match_correct_witness :
  match_ 100 (write_bytes (write_bytes ∅ 64 (chars "^.*v[0-9]*$")) 128 (chars "xv")) 64 128 =
  Some (bool_decide (matches (chars "^.*v[0-9]*$") (chars "xv"))).
Proof.
  apply match_correct; [| |vm_compute; lia].
  - split; [|done]. intros i v Hi. do 11 (destruct i as [|i]; [simplify_eq/=; done|]). done.
  - split; [|done]. intros i v Hi. do 2 (destruct i as [|i]; [simplify_eq/=; done|]). done.
Defined.

