(* ===== verification/Utils.v ===== *)
(** * The small user programs

    One module per program of user/: cat, echo, wc, sixfive, grep's main,
    kill, ln, mkdir, rm, sleep and zombie.  The arguments are in memory as
    [exec] leaves them: [argv] is the address of an array of pointers to C
    strings. *)

From S2P Require Import Prelude Memory CString Sysfile User Ulib Uprintf Grep.

Section args.
Context {OS : Type} `{Kernel OS}.

(** [argv[i]] *)
Definition arg (argv : Z) (i : nat) : U OS Z := ld64 (argv + 8 * Z.of_nat i).

(** [for(i = from; i < argc; i++)] *)
Definition for_args (from argc : nat) (body : nat -> U OS unit) : U OS unit :=
  for_each (seq from (argc - from)) body.

(** A loop body that may [break]. *)
Definition until_break (from argc : nat) (body : nat -> U OS (option unit)) : U OS unit :=
  _ ← find_each (seq from (argc - from)) body; mret tt.
End args.

(** String literals that a program passes by address. *)
Class Literals := lit : list Z -> Z.

(** ** user/cat.c *)
Module Cat.
Section cat.
Context {OS : Type} `{Kernel OS, Slots, Fuel} (buf : Z).

(** [while((n = read(fd, buf, sizeof(buf))) > 0)], returning the last [n]. *)
Fixpoint cat_loop (k : nat) (fd : Z) : U OS Z :=
  match k with
  | O => no_fuel
  | S k =>
      n ← read fd buf 512;
      if 0 <? n then
        r ← write 1 buf n;
        if negb (r =? n) then
          fprintf 2 (line "cat: write error") [];;
          exit 1
        else cat_loop k fd
      else mret n
  end.

Definition cat (fd : Z) : U OS unit :=
  n ← cat_loop fuel fd;
  if n <? 0 then
    fprintf 2 (line "cat: read error") [];;
    exit 1
  else mret tt.

Definition main (argc : nat) (argv : Z) : U OS Z :=
  if (argc <=? 1)%nat then cat 0;; exit 0
  else
    for_args 1 argc (fun i =>
      a ← arg argv i;
      fd ← open a O_RDONLY;
      if fd <? 0 then
        fprintf 2 (line "cat: cannot open %s") [a];;
        exit 1
      else
        cat fd;;
        close fd;;
        mret tt);;
    exit 0.
End cat.
End Cat.

(** ** user/echo.c *)
Module Echo.
Section echo.
Context {OS : Type} `{Kernel OS, Fuel, Literals}.

Definition main (argc : nat) (argv : Z) : U OS Z :=
  for_args 1 argc (fun i =>
    a ← arg argv i;
    n ← strlen a;
    write 1 a n;;
    (if (i + 1 <? argc)%nat then write 1 (lit [ch " "]) 1 else write 1 (lit [NL]) 1);;
    mret tt);;
  exit 0.
End echo.
End Echo.

(** ** user/wc.c *)
Module Wc.

(** The white space of the word counter. *)
Definition separators : list Z := [ch " "; ch "013"; ch "009"; ch "010"; ch "011"].

(** [int l, w, c, inword] *)
Record counts := Counts { c_l : Z; c_w : Z; c_c : Z; c_inword : bool }.

(** The body of the inner loop for the character [b]. *)
Definition count_char (st : counts) (b : Z) : counts :=
  let c := s32 (st.(c_c) + 1) in
  let l := if b =? ch "010" then s32 (st.(c_l) + 1) else st.(c_l) in
  if strchr_lit separators b then Counts l st.(c_w) c false
  else if negb st.(c_inword) then Counts l (s32 (st.(c_w) + 1)) c true
  else Counts l st.(c_w) c st.(c_inword).

Section wc.
Context {OS : Type} `{Kernel OS, Slots, Fuel, Literals} (buf : Z).

(** [for(i=0; i<n; i++)] over the bytes of the buffer. *)
Fixpoint count_loop (k : nat) (i : Z) (st : counts) : U OS counts :=
  match k with
  | O => mret st
  | S k => b ← ld (buf + i); count_loop k (i + 1) (count_char st b)
  end.

(** [while((n = read(fd, buf, sizeof(buf))) > 0)] *)
Fixpoint wc_loop (k : nat) (fd : Z) (st : counts) : U OS (Z * counts) :=
  match k with
  | O => no_fuel
  | S k =>
      n ← read fd buf 512;
      if 0 <? n then
        st ← count_loop (Z.to_nat n) 0 st;
        wc_loop k fd st
      else mret (n, st)
  end.

Definition wc (fd name : Z) : U OS unit :=
  '(n, st) ← wc_loop fuel fd (Counts 0 0 0 false);
  if n <? 0 then
    printf (line "wc: read error") [];;
    exit 1
  else printf (line "%d %d %d %s") [st.(c_l); st.(c_w); st.(c_c); name].

Definition main (argc : nat) (argv : Z) : U OS Z :=
  if (argc <=? 1)%nat then wc 0 (lit []);; exit 0
  else
    for_args 1 argc (fun i =>
      a ← arg argv i;
      fd ← open a O_RDONLY;
      if fd <? 0 then
        printf (line "wc: cannot open %s") [a];;
        exit 1
      else
        wc fd a;;
        close fd;;
        mret tt);;
    exit 0.
End wc.
End Wc.

(** ** user/sixfive.c *)
Module Sixfive.
Definition separators : list Z :=
  [ch " "; ch "-"; ch "013"; ch "009"; ch "010"; ch "."; ch "/"; ch ","].

Definition isSeparators (c : Z) : bool := strchr_lit separators c.
Definition isDivisibleBy5or6 (n : Z) : bool := (Z.rem n 5 =? 0) || (Z.rem n 6 =? 0).

Section sixfive.
Context {OS : Type} `{Kernel OS, Slots, Fuel} (buf : Z).

Definition report (flag is_number : bool) (n : Z) : U OS unit :=
  when (is_number && flag) (when (isDivisibleBy5or6 n) (printf (line "%d") [n])).

(** [while(read(fd, buf, 1) > 0)] and the code after the loop. *)
Fixpoint sixfive_loop (k : nat) (fd : Z) (flag is_number : bool) (n : Z) : U OS unit :=
  match k with
  | O => no_fuel
  | S k =>
      r ← read fd buf 1;
      if 0 <? r then
        c ← ld buf;
        if flag && (ch "0" <=? c) && (c <=? ch "9") then
          sixfive_loop k fd flag true (s32 (s32 (s32 (n * 10) + c) - ch "0"))
        else if isSeparators c then
          report flag is_number n;;
          sixfive_loop k fd true false 0
        else sixfive_loop k fd false is_number n
      else report flag is_number n
  end.

Definition sixfive (fd : Z) : U OS unit := sixfive_loop fuel fd true false 0.

Definition main (argc : nat) (argv : Z) : U OS Z :=
  if (argc <=? 1)%nat then
    fprintf 2 (line "Usage: sixfive [file ...]") [];;
    exit 1
  else
    for_args 1 argc (fun i =>
      a ← arg argv i;
      fd ← open a O_RDONLY;
      if fd <? 0 then
        printf (line "sixfive: cannot open %s") [a];;
        exit 1
      else
        sixfive fd;;
        close fd;;
        mret tt);;
    exit 0.
End sixfive.
End Sixfive.

(** ** user/grep.c: main *)
Module GrepMain.
Section main.
Context {OS : Type} `{Kernel OS, Slots, Fuel} (buf : Z).

Definition main (argc : nat) (argv : Z) : U OS Z :=
  if (argc <=? 1)%nat then
    fprintf 2 (line "usage: grep pattern [file ...]") [];;
    exit 1
  else
    pattern ← arg argv 1;
    if (argc <=? 2)%nat then grep buf pattern 0;; exit 0
    else
      for_args 2 argc (fun i =>
        a ← arg argv i;
        fd ← open a O_RDONLY;
        if fd <? 0 then
          printf (line "grep: cannot open %s") [a];;
          exit 1
        else
          grep buf pattern fd;;
          close fd;;
          mret tt);;
      exit 0.
End main.
End GrepMain.

(** ** user/rm.c *)
Module Rm.
Section main.
Context {OS : Type} `{Kernel OS, Slots, Fuel}.

Definition main (argc : nat) (argv : Z) : U OS Z :=
  if (argc <? 2)%nat then
    fprintf 2 (line "Usage: rm files...") [];;
    exit 1
  else
    until_break 1 argc (fun i =>
      a ← arg argv i;
      r ← unlink a;
      if r <? 0 then
        fprintf 2 (line "rm: %s failed to delete") [a];;
        mret (Some tt)
      else mret None);;
    exit 0.
End main.
End Rm.

(** ** user/mkdir.c *)
Module Mkdir.
Section main.
Context {OS : Type} `{Kernel OS, Slots, Fuel}.

Definition main (argc : nat) (argv : Z) : U OS Z :=
  if (argc <? 2)%nat then
    fprintf 2 (line "Usage: mkdir files...") [];;
    exit 1
  else
    until_break 1 argc (fun i =>
      a ← arg argv i;
      r ← mkdir a;
      if r <? 0 then
        fprintf 2 (line "mkdir: %s failed to create") [a];;
        mret (Some tt)
      else mret None);;
    exit 0.
End main.
End Mkdir.

(** ** user/ln.c *)
Module Ln.
Section main.
Context {OS : Type} `{Kernel OS, Slots, Fuel}.

Definition main (argc : nat) (argv : Z) : U OS Z :=
  if negb (argc =? 3)%nat then
    fprintf 2 (line "Usage: ln old new") [];;
    exit 1
  else
    a1 ← arg argv 1;
    a2 ← arg argv 2;
    r ← link a1 a2;
    (if r <? 0 then fprintf 2 (line "link %s %s: failed") [a1; a2] else mret tt);;
    exit 0.
End main.
End Ln.

(** ** user/kill.c *)
Module Kill.
Section main.
Context {OS : Type} `{Kernel OS, Slots, Fuel}.

Definition main (argc : nat) (argv : Z) : U OS Z :=
  if (argc <? 2)%nat then
    fprintf 2 (line "usage: kill pid...") [];;
    exit 1
  else
    for_args 1 argc (fun i =>
      a ← arg argv i;
      pid ← atoi a;
      kill pid;;
      mret tt);;
    exit 0.
End main.
End Kill.

(** ** user/sleep.c *)
Module Sleep.
Section main.
Context {OS : Type} `{Kernel OS, Slots, Fuel}.

Definition main (argc : nat) (argv : Z) : U OS Z :=
  if negb (argc =? 2)%nat then
    fprintf 2 (line "Usage: sleep [ticks]") [];;
    exit 1
  else
    a ← arg argv 1;
    t ← atoi a;
    pause t;;
    exit 0.
End main.
End Sleep.

(** ** user/zombie.c *)
Module Zombie.
Section main.
Context {OS : Type} `{Kernel OS}.

Definition main : U OS Z :=
  pid ← fork;
  (if 0 <? pid then pause 5;; mret tt else mret tt);;
  exit 0.
End main.
End Zombie.
