(* ===== verification/UtilsSpec.v ===== *)
(** * What the text utilities compute

    cat copies its input, wc counts it and sixfive prints the numbers in it,
    each for every way in which the kernel cuts the input into reads. *)

From S2P Require Import Prelude Memory CString Sysfile User Ulib Uprintf Grep Utils.

(** ** Words *)

(** The maximal runs of characters that are not separators; [cur] is the
    run in progress. *)
Definition flush (cur : list Z) : list (list Z) :=
  match cur with [] => [] | _ => [cur] end.

Fixpoint fields (sep : Z -> bool) (cur l : list Z) : list (list Z) :=
  match l with
  | [] => flush cur
  | c :: l => if sep c then flush cur ++ fields sep [] l else fields sep (cur ++ [c]) l
  end.

Definition words (sep : Z -> bool) (l : list Z) : list (list Z) := fields sep [] l.

(** Every word is non-empty and without separators, and the words together
    are the text without its separators. *)
Lemma fields_sound sep cur l :
  Forall (fun c => sep c = false) cur ->
  Forall (fun w => w <> [] /\ Forall (fun c => sep c = false) w) (fields sep cur l) /\
  concat (fields sep cur l) = cur ++ List.filter (fun c => negb (sep c)) l.
Proof.
  assert (forall c, Forall (fun x => sep x = false) c ->
    Forall (fun w => w <> [] /\ Forall (fun c => sep c = false) w) (flush c) /\ concat (flush c) = c) as Hfl.
  { intros [|x c] Hc; simpl; [done|]. rewrite app_nil_r. split; [|done].
    apply Forall_singleton. done. }
  revert cur; induction l as [|c l IH]; intros cur Hcur; simpl.
  - rewrite app_nil_r. by apply Hfl.
  - destruct (sep c) eqn:Hc; simpl.
    + destruct (Hfl cur Hcur) as [H1 H2], (IH []) as [H3 H4]; [done|].
      split; [by apply Forall_app|]. by rewrite concat_app, H2, H4.
    + destruct (IH (cur ++ [c])) as [H1 H2].
      { apply Forall_app. split; [done|]. by constructor. }
      split; [done|]. by rewrite H2, <-app_assoc.
Qed.

Lemma length_words sep l : (length (words sep l) <= length l)%nat.
Proof.
  assert (forall l cur, length (fields sep cur l) <= length (flush cur) + length l)%nat as H.
  { clear l. induction l as [|c l IH]; intros cur; simpl; [lia|].
    destruct (sep c); [rewrite length_app; specialize (IH []); simpl in IH; lia|].
    specialize (IH (cur ++ [c])). assert (length (flush (cur ++ [c])) = 1%nat) by (by destruct cur).
    lia. }
  apply (H l []).
Qed.

(** ** cat *)

Section cat_proof.
Context {OS : Type} `{K : Kernel OS, STR : !Streams OS, SLO : Slots, FUE : Fuel}.
Context (B : user OS -> Prop) (buf fd : Z).

Lemma cat_loop_spec k w :
  readable w.(usys) fd -> writable w.(usys) 1 -> (length (input w.(usys) fd) < k)%nat ->
  wpx B (Cat.cat_loop buf k fd) (fun n w' => n = 0 /\
    output w'.(usys) 1 = output w.(usys) 1 ++ input w.(usys) fd /\ input w'.(usys) fd = []) w.
Proof.
  revert w; induction k as [|k IH]; intros w Hr Hw Hk; [lia|]. cbn [Cat.cat_loop].
  apply wpx_bind, read_spec; [done|lia|]. intros n s Hn1 Hn2 Hn0 Hi Ho [Sr Sw].
  destruct (Z.ltb_spec 0 (Z.of_nat n)) as [Hpos|Hz].
  - apply wpx_bind, write_spec; cbn [usys]; [by apply Sw|lia|].
    intros s' Ho' Hi' [Sr' Sw']. rewrite Z.eqb_refl. cbn [negb umem] in *.
    assert (read_bytes (Z.to_nat (Z.of_nat n))
      (write_bytes (umem w) buf (take n (input (usys w) fd))) buf = take n (input (usys w) fd)) as Hrw.
    { rewrite Nat2Z.id. rewrite <-(length_take_le _ n) at 1 by exact Hn2.
      apply read_write_bytes, Forall_take, input_bytes. }
    rewrite Hrw, Ho in Ho'. rewrite <-Hi' in Hi.
    eapply wpx_mono; [apply IH; cbn [usys]|].
    + by apply Sr', Sr.
    + by apply Sw', Sw.
    + rewrite Hi, length_drop. lia.
    + intros n' w' (-> & H1 & H2). cbn [usys] in *. split_and!; [done| |done].
      by rewrite H1, Ho', Hi, <-app_assoc, take_drop.
  - assert (n = 0%nat) as -> by lia. apply wpx_ret. cbn [usys]. split; [done|].
    destruct Hn0 as [?|E]; [done|lia|]. rewrite Ho, Hi, E, app_nil_r. done.
Qed.
End cat_proof.

(** [cat] copies: it ends, having written to standard output exactly
    what was to be read from the descriptor, and the input is used up. *)
Theorem cat_correct {OS} `{K : Kernel OS, !Streams OS, Slots, Fuel} buf fd w :
  readable w.(usys) fd -> writable w.(usys) 1 -> (length (input w.(usys) fd) < fuel)%nat ->
  wp (Cat.cat buf fd) (fun _ w' =>
    output w'.(usys) 1 = output w.(usys) 1 ++ input w.(usys) fd /\ input w'.(usys) fd = []) w.
Proof.
  intros Hr Hw Hf. unfold Cat.cat. eapply wpx_call; [by apply cat_loop_spec|].
  intros n w' (-> & H1 & H2). by apply wpx_ret.
Qed.

(** ** wc *)

Definition count_of (c : Z) (l : list Z) : Z := Z.of_nat (length (filter (fun x => x = c) l)).

Lemma count_of_cons c x l : count_of c (x :: l) = (if x =? c then 1 else 0) + count_of c l.
Proof.
  unfold count_of. destruct (Z.eqb_spec x c).
  - rewrite filter_cons_True by done. simpl. lia.
  - by rewrite filter_cons_False by done.
Qed.

Lemma count_of_range c l : 0 <= count_of c l <= Z.of_nat (length l).
Proof. unfold count_of. pose proof (length_filter (fun x => x = c) l). lia. Qed.

(** White space for wc. *)
Definition wc_sep (c : Z) : bool := strchr_lit Wc.separators c.
#[global] Arguments wc_sep : simpl never.

(** The counters after a text: lines, characters and words; [cur] is the
    word in progress, already counted. *)
Lemma foldl_count_char text l w c cur :
  0 <= l <= c -> 0 <= w <= c -> c + Z.of_nat (length text) < 2 ^ 31 ->
  exists inword, foldl Wc.count_char (Wc.Counts l w c (bool_decide (cur <> []))) text =
    Wc.Counts (l + count_of NL text)
      (w + Z.of_nat (length (fields wc_sep cur text)) - Z.of_nat (length (flush cur)))
      (c + Z.of_nat (length text)) inword.
Proof.
  revert l w c cur; induction text as [|b text IH]; intros l w c cur Hl Hw Hc; cbn [foldl fields].
  - eexists. unfold count_of. simpl. f_equal; lia.
  - simpl length in *. rewrite Nat2Z.inj_succ in *. unfold Wc.count_char at 2.
    cbn [Wc.c_l Wc.c_w Wc.c_c Wc.c_inword]. change (ch "010") with NL.
    change (strchr_lit Wc.separators b) with (wc_sep b).
    rewrite count_of_cons, (s32_small (c + 1)) by lia.
    pose proof (count_of_range NL text).
    assert ((if b =? NL then s32 (l + 1) else l) = l + (if b =? NL then 1 else 0)) as ->.
    { destruct (b =? NL); [rewrite s32_small by lia|]; lia. }
    set (nl := if b =? NL then 1 else 0). assert (0 <= nl <= 1) by (unfold nl; destruct (b =? NL); lia).
    destruct (wc_sep b) eqn:Hsep.
    + destruct (IH (l + nl) w (c + 1) []) as [i E]; [lia..|]. rewrite bool_decide_false in E by auto.
      exists i. rewrite E, length_app. simpl. f_equal; lia.
    + assert (bool_decide (cur ++ [b] <> []) = true) as Hb by (apply bool_decide_true; by destruct cur).
      assert (length (flush (cur ++ [b])) = 1%nat) as Hfl by (by destruct cur).
      destruct cur as [|x cur].
      * rewrite bool_decide_false by auto. cbn [negb].
        destruct (IH (l + nl) (s32 (w + 1)) (c + 1) ([] ++ [b])) as [i E]; [lia|rewrite s32_small; lia|lia|].
        rewrite Hb in E. exists i. rewrite E, Hfl, (s32_small (w + 1)) by lia. simpl. f_equal; lia.
      * rewrite bool_decide_true by done. cbn [negb].
        destruct (IH (l + nl) w (c + 1) ((x :: cur) ++ [b])) as [i E]; [lia..|].
        rewrite Hb in E. exists i. rewrite E, Hfl. simpl. f_equal; lia.
Qed.

(** What reading leaves alone: the output, and the memory outside the
    buffer of [n] bytes. *)
Record only_read {OS} `{Streams OS} (buf n : Z) (w w' : user OS) : Prop := {
  or_output : forall f, output w'.(usys) f = output w.(usys) f;
  or_mem : forall x, x < buf \/ buf + n <= x -> mget w'.(umem) x = mget w.(umem) x;
  or_same : same_streams readable writable w.(usys) w'.(usys);
}.

Section wc_proof.
Context {OS : Type} `{K : Kernel OS, STR : !Streams OS, SLO : Slots, FUE : Fuel}.
Context (B : user OS -> Prop) (buf fd : Z).

Lemma count_loop_spec k i st (w : user OS) :
  Wc.count_loop buf k i st w = Ret (foldl Wc.count_char st (read_bytes k w.(umem) (buf + i))) w.
Proof.
  revert i st; induction k as [|k IH]; intros i st; [done|]. cbn [Wc.count_loop read_bytes foldl].
  erewrite bind_run by reflexivity. rewrite IH. do 3 f_equal. lia.
Qed.

Lemma only_read_trans n (w w1 w2 : user OS) :
  only_read buf n w w1 -> only_read buf n w1 w2 -> only_read buf n w w2.
Proof.
  intros [O1 M1 S1] [O2 M2 S2]. split; [intros; by rewrite O2|intros; by rewrite M2, M1|].
  by eapply same_streams_trans.
Qed.

Lemma wc_loop_spec k st w :
  readable w.(usys) fd -> (length (input w.(usys) fd) < k)%nat ->
  wpx B (Wc.wc_loop buf k fd st)
    (fun r w' => r = (0, foldl Wc.count_char st (input w.(usys) fd)) /\ only_read buf 512 w w') w.
Proof.
  revert st w; induction k as [|k IH]; intros st w Hr Hk; [lia|]. cbn [Wc.wc_loop].
  apply wpx_bind, read_spec; [done|lia|]. intros n s Hn1 Hn2 Hn0 Hi Ho Hs.
  set (new := take n (input (usys w) fd)) in *.
  assert (length new = n) as Hnew by (by apply length_take_le).
  assert (only_read buf 512 w (User (write_bytes (umem w) buf new) s)) as Hor.
  { split; [done| |done]. intros x Hx. cbn [umem]. apply mget_write_bytes_out. lia. }
  destruct (Z.ltb_spec 0 (Z.of_nat n)) as [Hpos|Hz].
  - apply wpx_bind. eapply run_wp; [apply count_loop_spec|]. cbn [umem].
    replace (Z.to_nat (Z.of_nat n)) with (length new) by lia.
    rewrite Z.add_0_r, read_write_bytes by apply Forall_take, input_bytes.
    eapply wpx_mono; [apply IH; cbn [usys]|].
    + by apply Hs.
    + rewrite Hi, length_drop. lia.
    + intros r w' [-> Hor']. cbn [usys] in *. split; [|by eapply only_read_trans].
      unfold new. by rewrite Hi, <-foldl_app, take_drop.
  - assert (n = 0%nat) as En by lia. apply wpx_ret.
    destruct Hn0 as [?|E]; [done|lia|]. rewrite En in *. by rewrite E.
Qed.

(** The line that wc prints. *)
Lemma wc_line_spec a name x y z (w : user OS) :
  writable w.(usys) 1 -> cstr w.(umem) a name -> Forall (fun c => 0 <= c < 2 ^ 8) name ->
  a <> 0 -> putc_c < a \/ a + Z.of_nat (length name) < putc_c ->
  0 <= x < 2 ^ 31 -> 0 <= y < 2 ^ 31 -> 0 <= z < 2 ^ 31 -> (length name + 200 < fuel)%nat ->
  wpx B (printf (line "%d %d %d %s") [x; y; z; a]) (fun _ w' =>
    printed 1 (numeral 10 x ++ [ch " "] ++ numeral 10 y ++ [ch " "] ++ numeral 10 z ++ [ch " "] ++
      name ++ [NL]) w w') w.
Proof.
  intros Hw Ha Hn Ha0 Hp Hx Hy Hz Hf.
  destruct (numeral_dec x) as (_ & _ & L1); [lia|]. destruct (numeral_dec y) as (_ & _ & L2); [lia|].
  destruct (numeral_dec z) as (_ & _ & L3); [lia|].
  assert (line "%d %d %d %s" = show_all [Dec 0; Plain (ch " "); Dec 0; Plain (ch " "); Dec 0;
    Plain (ch " "); Str; Plain NL]) as E by (vm_compute; reflexivity).
  unfold printf. rewrite E. apply (vprintf_spec B 1 _
    ([x] ++ [] ++ [y] ++ [] ++ [z] ++ [] ++ [a] ++ [] ++ [])).
  - rewrite <-(signed_nonneg x), <-(signed_nonneg y), <-(signed_nonneg z) by done.
    rewrite <-(app_nil_r [NL]).
    repeat apply formats_cons; try apply formats_nil; try (constructor; (done || lia)).
  - done.
  - rewrite !length_app. cbn [length]. lia.
Qed.
End wc_proof.

(** [wc] counts: it prints the number of newlines, of words (maximal
    runs without white space) and of bytes of its input, and the name of
    the file, for inputs below 2^31 bytes. *)
Theorem wc_correct {OS} `{K : Kernel OS, !Streams OS, Slots, Fuel} buf fd name a w :
  readable w.(usys) fd -> writable w.(usys) 1 ->
  cstr w.(umem) a name -> Forall (fun c => 0 <= c < 2 ^ 8) name -> a <> 0 ->
  putc_c < a \/ a + Z.of_nat (length name) < putc_c ->
  a + Z.of_nat (length name) < buf \/ buf + 512 <= a ->
  let text := input w.(usys) fd in
  Z.of_nat (length text) < 2 ^ 31 -> (length text < fuel)%nat -> (length name + 200 < fuel)%nat ->
  wp (Wc.wc buf fd a) (fun _ w' =>
    output w'.(usys) 1 = output w.(usys) 1 ++
      numeral 10 (count_of NL text) ++ [ch " "] ++
      numeral 10 (Z.of_nat (length (words wc_sep text))) ++ [ch " "] ++
      numeral 10 (Z.of_nat (length text)) ++ [ch " "] ++ name ++ [NL]) w.
Proof.
  intros Hr Hw Ha Hn Ha0 Hp Hb text Hl Hf1 Hf2. unfold Wc.wc.
  eapply wpx_call; [by apply wc_loop_spec|]. intros r w1 [-> Hor]. fold text.
  destruct (foldl_count_char text 0 0 0 []) as [i E]; [lia..|].
  rewrite bool_decide_false in E by auto. rewrite E.
  cbn [Wc.c_l Wc.c_w Wc.c_c flush length]. change (0 <? 0) with false. cbv iota.
  rewrite !Z.add_0_l, Z.sub_0_r. change (fields wc_sep [] text) with (words wc_sep text).
  pose proof (count_of_range NL text). pose proof (length_words wc_sep text).
  eapply wpx_mono; [apply (wc_line_spec _ a name (count_of NL text)
    (Z.of_nat (length (words wc_sep text))) (Z.of_nat (length text))); try done; try lia|].
  - by apply Hor.
  - eapply cstr_ext; [|exact Ha]. intros x Hx. symmetry. apply Hor. lia.
  - intros [] w2 [Ho _ _ _ _]. by rewrite Ho, (or_output _ _ _ _ Hor 1).
Qed.

(** ** sixfive *)

(** What is printed for a word: the number, if the word is one (taken as an
    [int]) and it is a multiple of 5 or 6. *)
Definition reported (word : list Z) : list Z :=
  let n := s32 (dec_value 0 word) in
  if forallb digit word && Sixfive.isDivisibleBy5or6 n then signed n ++ [NL] else [].

Definition six_sep (c : Z) : bool := Sixfive.isSeparators c.
#[global] Arguments six_sep : simpl never.

Lemma s32_idem x : s32 (s32 x) = s32 x.
Proof. pose proof (s32_add x 0) as E. by rewrite !Z.add_0_r in E. Qed.

Lemma s32_mul x y : s32 (s32 x * y) = s32 (x * y).
Proof.
  unfold s32. f_equal.
  replace (((x + 2 ^ 31) mod 2 ^ 32 - 2 ^ 31) * y + 2 ^ 31)
    with ((x + 2 ^ 31) mod 2 ^ 32 * y + (2 ^ 31 - 2 ^ 31 * y)) by lia.
  rewrite Z.add_mod, Z.mul_mod_idemp_l, <-Z.add_mod by lia. f_equal. lia.
Qed.

Lemma next_number v c : s32 (s32 (s32 (s32 v * 10) + c) - ch "0") = s32 (v * 10 + (c - ch "0")).
Proof. rewrite s32_mul, s32_add, s32_sub. f_equal. lia. Qed.

Section sixfive_proof.
Context {OS : Type} `{K : Kernel OS, STR : !Streams OS, SLO : Slots, FUE : Fuel}.
Context (B : user OS -> Prop) (buf fd : Z).
Context (Hfuel : (50 < fuel)%nat).

(** The variables of the loop describe the word in progress. *)
Record in_word (cur : list Z) (flag is_number : bool) (n : Z) : Prop := {
  iw_flag : flag = forallb digit cur;
  iw_sep : Forall (fun c => six_sep c = false) cur;
  iw_number : flag = true -> is_number = bool_decide (cur <> []) /\ n = s32 (dec_value 0 cur);
}.

Lemma in_word_nil : in_word [] true false 0.
Proof. split; try done. Qed.

Lemma length_signed x : - 2 ^ 31 <= x < 2 ^ 31 -> (length (signed x) <= 33)%nat.
Proof.
  intros Hx. unfold signed. rewrite length_app.
  destruct (numeral_dec (u32 (Z.abs x))) as (_ & _ & L); [apply u32_range|].
  destruct (x <? 0); cbn [length]; lia.
Qed.

Lemma s32_range x : - 2 ^ 31 <= s32 x < 2 ^ 31.
Proof. unfold s32. pose proof (Z.mod_pos_bound (x + 2 ^ 31) (2 ^ 32)). lia. Qed.

(** The code that prints a number. *)
Lemma report_spec cur flag is_number n w :
  in_word cur flag is_number n -> writable w.(usys) 1 ->
  wpx B (Sixfive.report flag is_number n) (fun _ w' =>
    printed 1 (concat (map reported (flush cur))) w w') w.
Proof.
  intros [Hf _ Hn] Hw. unfold Sixfive.report.
  assert (concat (map reported (flush cur)) =
    if is_number && flag && Sixfive.isDivisibleBy5or6 n then signed (int_arg 0 n) ++ [NL] else []) as ->.
  { destruct flag; [destruct Hn as [-> ->]; [done|]|].
    - destruct cur as [|c cur]; [by rewrite bool_decide_false by auto|].
      rewrite bool_decide_true by done. cbn [flush map concat andb]. rewrite app_nil_r. unfold reported.
      rewrite <-Hf. unfold int_arg. rewrite decide_True, s32_idem by done. done.
    - rewrite andb_false_r. destruct cur as [|c cur]; [done|]. cbn [flush map concat]. rewrite app_nil_r.
      unfold reported. by rewrite <-Hf. }
  apply wpx_when; intros E1; rewrite E1; [|apply printed_nil].
  apply wpx_when; intros E2; rewrite E2; cbn [andb]; [|apply printed_nil].
  assert (line "%d" = show_all [Dec 0; Plain NL]) as E by (vm_compute; reflexivity).
  unfold printf. rewrite E. apply (vprintf_spec B 1 _ ([n] ++ [] ++ [])).
  - rewrite <-(app_nil_r [NL]). repeat apply formats_cons; try apply formats_nil; by constructor; try lia.
  - done.
  - rewrite length_app. pose proof (length_signed (s32 n) (s32_range n)). cbn [length].
    unfold int_arg. rewrite decide_True by done. lia.
Qed.

(** A character that is not a separator continues the word. *)
Lemma in_word_digit cur is_number n c :
  in_word cur true is_number n -> digit c = true -> six_sep c = false ->
  in_word (cur ++ [c]) true true (s32 (s32 (s32 (n * 10) + c) - ch "0")).
Proof.
  intros [Hf Hs Hn] Hd Hc. destruct (Hn eq_refl) as [_ ->]. split.
  - by rewrite forallb_app, <-Hf; simpl; rewrite Hd.
  - apply Forall_app. split; [done|]. by constructor.
  - intros _. split; [symmetry; apply bool_decide_true; by destruct cur|].
    by rewrite next_number, dec_value_snoc.
Qed.

Lemma in_word_other cur flag is_number n c :
  in_word cur flag is_number n -> flag && digit c = false -> six_sep c = false ->
  in_word (cur ++ [c]) false is_number n.
Proof.
  intros [Hf Hs _] Hd Hc. split; [|apply Forall_app; split; [done|by constructor]|done].
  rewrite forallb_app, <-Hf. simpl. by rewrite andb_true_r, Hd.
Qed.

Lemma digit_not_sep c : digit c = true -> six_sep c = false.
Proof.
  intros Hd. apply not_true_is_false. intros Hs. apply strchr_lit_elem in Hs.
  repeat (apply elem_of_cons in Hs as [->|Hs]; [done|]). by apply elem_of_nil in Hs.
Qed.

Lemma sixfive_loop_spec k cur flag is_number n w :
  in_word cur flag is_number n -> readable w.(usys) fd -> writable w.(usys) 1 ->
  (length (input w.(usys) fd) < k)%nat ->
  wpx B (Sixfive.sixfive_loop buf k fd flag is_number n) (fun _ w' =>
    output w'.(usys) 1 = output w.(usys) 1 ++
      concat (map reported (fields six_sep cur (input w.(usys) fd)))) w.
Proof.
  revert cur flag is_number n w; induction k as [|k IH];
    intros cur flag is_number n w Hin Hr Hw Hk; [lia|]. cbn [Sixfive.sixfive_loop].
  apply wpx_bind, read_spec; [done|lia|]. intros j s Hj1 Hj2 Hj0 Hi Ho Hs.
  destruct (Z.ltb_spec 0 (Z.of_nat j)) as [Hpos|Hz].
  - assert (j = 1%nat) as -> by lia.
    destruct (input (usys w) fd) as [|c rest] eqn:Ei; [simpl in Hj2; lia|].
    pose proof (input_bytes (usys w) fd) as Hb. rewrite Ei in Hb. apply Forall_cons in Hb as [Hb _].
    change (take 1 (c :: rest)) with [c]. cbn [write_bytes].
    change (drop 1 (c :: rest)) with rest in Hi. simpl in Hk.
    apply wpx_bind, wpx_gets. cbn [umem]. rewrite mget_mput_eq, u8_small by done.
    rewrite <-andb_assoc. change ((ch "0" <=? c) && (c <=? ch "9")) with (digit c).
    change (Sixfive.isSeparators c) with (six_sep c). cbn [fields].
    destruct (flag && digit c) eqn:Hd; [|destruct (six_sep c) eqn:Hc].
    + apply andb_true_iff in Hd as [-> Hd]. rewrite (digit_not_sep c Hd).
      eapply wpx_mono; [apply (IH (cur ++ [c])); cbn [usys];
        [by eapply in_word_digit, digit_not_sep|by apply Hs|by apply Hs|rewrite Hi; lia]|].
      intros [] w' ->. cbn [usys]. by rewrite Ho, Hi.
    + eapply wpx_call; [eapply report_spec; [done|by apply Hs]|]. intros [] w1 [O1 _ _ I1 S1].
      cbn [usys] in *.
      eapply wpx_mono; [apply (IH []); [apply in_word_nil|by apply S1, Hs|by apply S1, Hs|rewrite I1, Hi; lia]|].
      intros [] w' ->. by rewrite O1, I1, Ho, Hi, map_app, concat_app, app_assoc.
    + eapply wpx_mono; [apply (IH (cur ++ [c])); cbn [usys];
        [by eapply in_word_other|by apply Hs|by apply Hs|rewrite Hi; lia]|].
      intros [] w' ->. cbn [usys]. by rewrite Ho, Hi.
  - assert (j = 0%nat) as -> by lia. destruct Hj0 as [?|E]; [done|lia|]. rewrite E.
    eapply wpx_mono; [eapply report_spec; [done|by apply Hs]|].
    intros [] w' Hp. rewrite (pr_output _ _ _ _ Hp). cbn [usys fields]. by rewrite Ho.
Qed.
End sixfive_proof.

(** [sixfive] prints, one per line and in order, the numbers in its
    input that are multiples of 5 or 6, where a number is a maximal run of
    characters between separators that consists of digits only, and its
    value is taken as an [int]. *)
Theorem sixfive_correct {OS} `{K : Kernel OS, !Streams OS, Slots, Fuel} buf fd w :
  readable w.(usys) fd -> writable w.(usys) 1 ->
  (length (input w.(usys) fd) < fuel)%nat -> (50 < fuel)%nat ->
  wp (Sixfive.sixfive buf fd) (fun _ w' =>
    output w'.(usys) 1 = output w.(usys) 1 ++
      concat (map reported (words six_sep (input w.(usys) fd)))) w.
Proof. intros Hr Hw Hf H50. apply sixfive_loop_spec; [done|apply in_word_nil|done..]. Qed.

(** ** Examples *)

#[local] Existing Instances demo_slots demo_fuel.

Lemma cat_correct_witness :
  let w := demo_user [] (chars "copy me") in
  exists w', Cat.cat 4096 0 w = Ret tt w' /\ output w'.(usys) 1 = chars "copy me".
Proof.
  intros w. destruct (fun a b c => wp_run _ _ _ (cat_correct 4096 0 w a b c)) as ([] & w' & E & Ho & _).
  - done.
  - done.
  - vm_compute. lia.
  - exists w'. split; [exact E|]. rewrite Ho. vm_compute. done.
Defined.

Lemma wc_correct_witness :
  let w := demo_user (chars "f") (line "two words" ++ line "and three more") in
  exists w', Wc.wc 4096 0 64 w = Ret tt w' /\ output w'.(usys) 1 = line "2 5 25 f".
Proof.
  intros w. destruct (fun a b c d e f g h i j => wp_run _ _ _ (wc_correct 4096 0 (chars "f") 64 w
    a b c d e f g h i j)) as ([] & w' & E & Ho).
  - done.
  - done.
  - apply demo_cstr. by repeat constructor.
  - by repeat constructor.
  - done.
  - left. vm_compute. done.
  - left. vm_compute. done.
  - vm_compute. done.
  - vm_compute. lia.
  - vm_compute. lia.
  - exists w'. split; [exact E|]. rewrite Ho. vm_compute. done.
Defined.

Lemma sixfive_correct_witness :
  let w := demo_user [] (chars "x5 18,7/100-6a") in
  exists w', Sixfive.sixfive 4096 0 w = Ret tt w' /\ output w'.(usys) 1 = line "18" ++ line "100".
Proof.
  intros w. destruct (fun a b c d => wp_run _ _ _ (sixfive_correct 4096 0 w a b c d)) as ([] & w' & E & Ho).
  - done.
  - done.
  - vm_compute. lia.
  - vm_compute. lia.
  - exists w'. split; [exact E|]. rewrite Ho. vm_compute. done.
Defined.
