(* ===== verification/Heap.v ===== *)
(** * The interface of the user-level allocator

    [malloc] of user/umalloc.c as its clients see it: an operation on the
    process and the laws they rely on.  A live block is a pair of an address
    and a length.  The laws say that a new block is apart from the live ones
    and that allocation changes no live block and nothing outside the
    allocator's own memory; Umalloc shows that the code keeps them. *)

From S2P Require Import Prelude Memory CString User.

Class Malloc (OS : Type) := malloc : Z -> U OS Z.

Definition in_block (b : Z * Z) (x : Z) : Prop := b.1 <= x < b.1 + b.2.
Definition in_blocks (bs : list (Z * Z)) (x : Z) : Prop := exists b, b ∈ bs /\ in_block b x.

#[export] Instance in_block_dec b x : Decision (in_block b x).
Proof. unfold in_block. apply _. Defined.

Class MallocOk (OS : Type) {K : Kernel OS} {STR : Streams OS} {M : Malloc OS} := {
  (** The bytes the allocator may use: its statics and the heap. *)
  private : Z -> Prop;
  (** [arena n bs w]: the blocks [bs] are live and [n] more requests of up
      to 4096 bytes will be served. *)
  arena : nat -> list (Z * Z) -> user OS -> Prop;
  (** The state of the allocator is in the bytes that are not lent out. *)
  arena_ext : forall n bs m m' s, arena n bs (User m s) -> mem_ok m' ->
    (forall x, private x -> ~ in_blocks bs x -> mget m' x = mget m x) -> arena n bs (User m' s);
  arena_weaken : forall n bs w, arena (S n) bs w -> arena n bs w;
  arena_private : forall n bs w x, arena n bs w -> in_blocks bs x -> private x;
  arena_ok : forall n bs w, arena n bs w -> mem_ok w.(umem);
  malloc_ok : forall B n bs size w, arena (S n) bs w -> 0 < size <= 4096 ->
    wpx B (malloc size) (fun p w' =>
      p <> 0 /\ 0 <= p /\ p + size < 2 ^ 64 /\
      arena n ((p, size) :: bs) w' /\
      (forall x, in_block (p, size) x -> private x /\ ~ in_blocks bs x) /\
      (forall x, ~ private x \/ in_blocks bs x -> mget w'.(umem) x = mget w.(umem) x) /\
      (forall f, output w'.(usys) f = output w.(usys) f) /\
      same_streams readable writable w.(usys) w'.(usys)) w;
}.
