(* ===== verification/Umalloc.v ===== *)
(** * The user-level allocator

    user/umalloc.c: the allocator of Kernighan and Ritchie over [sbrk].  A
    block starts with a header of 16 bytes, the address of the next free
    block and the size of this one in units of a header; the free blocks
    form a circular list in the order of their addresses, starting at the
    static [base], and [freep] is where the next search starts. *)

From S2P Require Import Prelude Memory CString Sysproc User Ulib.

(** The addresses of the two static variables. *)
Class Statics := {
  base : Z;
  freep : Z;
}.

Definition sizeof_Header : Z := 16.
Definition SBRK_ERROR : Z := 2 ^ 64 - 1.

(** [p->s.ptr] and [p->s.size]. *)
Definition s_ptr (m : memory) (p : Z) : Z := load64 m p.
Definition s_size (m : memory) (p : Z) : Z := load32 m (p + 8).
Definition set_ptr (m : memory) (p v : Z) : memory := store64 m p v.
Definition set_size (m : memory) (p v : Z) : memory := store32 m (p + 8) v.

(** [p + n] for a header pointer [p]. *)
Definition header_add (p n : Z) : Z := u64 (p + sizeof_Header * n).

Section umalloc.
Context {OS : Type} `{K : Kernel OS, STA : Statics, FUE : Fuel}.

(** Where the block [bp] goes: the loop of [free]. *)
Fixpoint free_loop (k : nat) (m : memory) (bp p : Z) : option Z :=
  match k with
  | O => None
  | S k =>
      if (p <? bp) && (bp <? s_ptr m p) then Some p
      else if (s_ptr m p <=? p) && ((p <? bp) || (bp <? s_ptr m p)) then Some p
      else free_loop k m bp (s_ptr m p)
  end.

(** Link [bp] to the block above it, or join the two. *)
Definition free_upper (m : memory) (p bp : Z) : memory :=
  if header_add bp (s_size m bp) =? s_ptr m p then
    let m := set_size m bp (u32 (s_size m bp + s_size m (s_ptr m p))) in
    set_ptr m bp (s_ptr m (s_ptr m p))
  else set_ptr m bp (s_ptr m p).

(** Link the block below to [bp], or join the two. *)
Definition free_lower (m : memory) (p bp : Z) : memory :=
  if header_add p (s_size m p) =? bp then
    let m := set_size m p (u32 (s_size m p + s_size m bp)) in
    set_ptr m p (s_ptr m bp)
  else set_ptr m p bp.

Definition free (ap : Z) : U OS unit :=
  let bp := header_add ap (- 1) in
  p ← from_mem (fun m => free_loop fuel m bp (load64 m freep));
  upd (fun m => free_upper m p bp);;
  upd (fun m => free_lower m p bp);;
  st64 freep p.

Definition morecore (nu : Z) : U OS Z :=
  let nu := if nu <? 4096 then 4096 else nu in
  p ← sbrk (s32 (nu * sizeof_Header));
  if p =? SBRK_ERROR then mret 0
  else
    upd (fun m => set_size m p nu);;
    free (header_add p 1);;
    ld64 freep.

(** Take [nunits] units from the free block [p], whose predecessor is
    [prevp]: the whole block, or its upper end. *)
Definition take_block (nunits prevp p : Z) : U OS Z :=
  size ← ld32 (p + 8);
  p ← (if size =? nunits then
         upd (fun m => set_ptr m prevp (s_ptr m p));; mret p
       else
         upd (fun m => set_size m p (u32 (size - nunits)));;
         size ← ld32 (p + 8);
         upd (fun m => set_size m (header_add p size) nunits);;
         mret (header_add p size));
  st64 freep prevp;;
  mret (header_add p 1).

Fixpoint malloc_loop (k : nat) (nunits prevp p : Z) : U OS Z :=
  match k with
  | O => no_fuel
  | S k =>
      size ← ld32 (p + 8);
      if nunits <=? size then take_block nunits prevp p
      else
        f ← ld64 freep;
        if p =? f then
          p ← morecore nunits;
          if p =? 0 then mret 0
          else next ← ld64 p; malloc_loop k nunits p next
        else next ← ld64 p; malloc_loop k nunits p next
  end.

Definition malloc (nbytes : Z) : U OS Z :=
  let nunits := u32 ((nbytes + sizeof_Header - 1) / sizeof_Header + 1) in
  prevp ← ld64 freep;
  prevp ← (if prevp =? 0 then
             st64 freep base;; st64 base base;; upd (fun m => set_size m base 0);; mret base
           else mret prevp);
  p ← ld64 prevp;
  malloc_loop fuel nunits prevp p.
End umalloc.
