(* ===== verification/UmallocSpec.v ===== *)
(** * The user-level allocator is correct

    The invariant of the heap (the free list is in address order, no two
    free blocks touch, free and live blocks do not overlap), what [free] and
    [malloc] do to it, and that [malloc] keeps the promises of Heap. *)

From S2P Require Import Prelude Memory CString Sysproc User Ulib Heap Umalloc.

(** ** Header fields *)

Definition header (p x : Z) : Prop := p <= x < p + sizeof_Header.
Definition headers_apart (p q : Z) : Prop := p + sizeof_Header <= q \/ q + sizeof_Header <= p.

(** Memory that agrees on a header has the same fields there. *)
Lemma fields_ext m m' p :
  (forall x, header p x -> mget m' x = mget m x) -> s_ptr m' p = s_ptr m p /\ s_size m' p = s_size m p.
Proof.
  intros H. split; [apply load64_ext|apply load32_ext]; intros x Hx; apply H; unfold header, sizeof_Header; lia.
Qed.

Lemma s_ptr_set_ptr m p v : 0 <= v < 2 ^ 64 -> s_ptr (set_ptr m p v) p = v.
Proof. apply load64_store64. Qed.
Lemma s_size_set_size m p v : 0 <= v < 2 ^ 32 -> s_size (set_size m p v) p = v.
Proof. apply load32_store32. Qed.
Lemma s_size_set_ptr m p v : s_size (set_ptr m p v) p = s_size m p.
Proof. apply load32_ext. intros x Hx. apply mget_store64_out. lia. Qed.
Lemma s_ptr_set_size m p v : s_ptr (set_size m p v) p = s_ptr m p.
Proof. apply load64_ext. intros x Hx. apply mget_store32_out. lia. Qed.
Lemma mget_set_ptr_out m p v x : ~ header p x -> mget (set_ptr m p v) x = mget m x.
Proof. intros Hx. apply mget_store64_out. unfold header, sizeof_Header in Hx. lia. Qed.
Lemma mget_set_size_out m p v x : ~ header p x -> mget (set_size m p v) x = mget m x.
Proof. intros Hx. apply mget_store32_out. unfold header, sizeof_Header in Hx. lia. Qed.
Lemma mem_ok_set_ptr m p v : mem_ok m -> mem_ok (set_ptr m p v).
Proof. apply mem_ok_store64. Qed.
Lemma mem_ok_set_size m p v : mem_ok m -> mem_ok (set_size m p v).
Proof. apply mem_ok_store32. Qed.
Create HintDb heap.
#[export] Hint Resolve mem_ok_set_ptr mem_ok_set_size mem_ok_store64 mem_ok_store32 : heap.

Lemma header_add_small p n : 0 <= p + 16 * n < 2 ^ 64 -> header_add p n = p + 16 * n.
Proof. intros H. unfold header_add, sizeof_Header. by apply u64_small. Qed.

(** ** Lists of blocks *)

(** A block: its address and its size in units. *)
Abbreviation block := (Z * Z)%type.
Definition bend (b : block) : Z := b.1 + sizeof_Header * b.2.
Definition apart (b c : block) : Prop := bend b <= c.1 \/ bend c <= b.1.

Definition head_or (l : list block) (z : Z) : Z := match l with b :: _ => b.1 | [] => z end.

(** The blocks of [l] are linked in this order, and the last one to [z]. *)
Fixpoint linked (m : memory) (l : list block) (z : Z) : Prop :=
  match l with
  | [] => True
  | b :: l => s_size m b.1 = b.2 /\ s_ptr m b.1 = head_or l z /\ linked m l z
  end.

(** The blocks of [l] start after [lo], in address order, and none reaches
    up to the next. *)
Fixpoint spread (lo : Z) (l : list block) : Prop :=
  match l with
  | [] => True
  | b :: l => lo < b.1 /\ 0 <= b.2 /\ spread (bend b) l
  end.

(** The same, but the first block may start at [lo]. *)
Definition after (lo : Z) (l : list block) : Prop :=
  match l with
  | [] => True
  | b :: l => lo <= b.1 /\ 0 <= b.2 /\ spread (bend b) l
  end.

(** Put [b] in front of [l], joined with the first block if they touch. *)
Definition join (b : block) (l : list block) : list block :=
  match l with
  | c :: l' => if bend b =? c.1 then (b.1, b.2 + c.2) :: l' else b :: l
  | [] => [b]
  end.

Lemma head_or_app l1 l2 z : head_or (l1 ++ l2) z = head_or l1 (head_or l2 z).
Proof. by destruct l1. Qed.

Lemma linked_app m l1 l2 z : linked m (l1 ++ l2) z <-> linked m l1 (head_or l2 z) /\ linked m l2 z.
Proof.
  induction l1 as [|b l1 IH]; simpl; [tauto|]. rewrite IH, head_or_app. tauto.
Qed.

Lemma linked_ext m m' l z :
  (forall b x, b ∈ l -> header b.1 x -> mget m' x = mget m x) -> linked m l z -> linked m' l z.
Proof.
  induction l as [|b l IH]; simpl; [done|]. intros Hx (Hs & Hp & Hl).
  destruct (fields_ext m m' b.1) as [-> ->]; [intros x; apply Hx; by left|].
  split_and!; try done. apply IH; [|done]. intros c x Hc. apply Hx. by right.
Qed.

Lemma linked_size m l z b : linked m l z -> b ∈ l -> s_size m b.1 = b.2.
Proof.
  induction l as [|c l IH]; simpl; [by intros _ ?%elem_of_nil|].
  intros (Hs & _ & Hl) [->|Hb]%elem_of_cons; [done|by apply IH].
Qed.

Lemma spread_mono lo lo' l : lo' <= lo -> spread lo l -> spread lo' l.
Proof. destruct l; simpl; [done|]. intros ? (? & ? & ?). split_and!; [lia|done..]. Qed.

Lemma spread_after lo l : spread lo l -> after lo l.
Proof. destruct l; simpl; [done|]. intros (? & ? & ?). split_and!; [lia|done..]. Qed.

Lemma spread_app lo l1 b l2 :
  spread lo (l1 ++ b :: l2) <-> spread lo (l1 ++ [b]) /\ spread (bend b) l2.
Proof. revert lo; induction l1 as [|c l1 IH]; intros lo; simpl; [tauto|]. rewrite IH. tauto. Qed.

Lemma spread_above lo l b : spread lo l -> b ∈ l -> lo < b.1 /\ 0 <= b.2.
Proof.
  revert lo; induction l as [|c l IH]; intros lo; simpl; [by intros _ ?%elem_of_nil|].
  intros (H1 & H2 & Hl) [->|Hb]%elem_of_cons; [done|].
  destruct (IH _ Hl Hb). unfold bend, sizeof_Header in *. lia.
Qed.

Lemma spread_join lo b l : lo < b.1 -> 0 <= b.2 -> after (bend b) l -> spread lo (join b l).
Proof.
  intros H1 H2. destruct l as [|c l]; simpl; [done|]. intros (H3 & H4 & Hl).
  destruct (Z.eqb_spec (bend b) c.1) as [E|E]; simpl.
  - split_and!; [done|lia|]. eapply spread_mono; [|exact Hl]. unfold bend, sizeof_Header in *. cbn [fst snd]. lia.
  - split_and!; try done. lia.
Qed.

Lemma after_join lo b l : lo <= b.1 -> 0 <= b.2 -> after (bend b) l -> after lo (join b l).
Proof.
  intros H1 H2 Hl. assert (spread (lo - 1) (join b l)) as Hs by (apply spread_join; [lia|done..]).
  destruct l as [|c l]; simpl in *; [split_and!; lia|].
  destruct (bend b =? c.1); simpl in *; destruct Hs as (_ & ? & ?); (split; [lia|by split]).
Qed.

(** A property of blocks that holds of what two blocks make together. *)
Lemma Forall_join (P : block -> Prop) b l :
  (forall c, P b -> P c -> bend b = c.1 -> P (b.1, b.2 + c.2)) ->
  P b -> Forall P l -> Forall P (join b l).
Proof.
  intros HP Hb Hl. destruct Hl as [|c l Hc Hl]; simpl; [by constructor|].
  destruct (Z.eqb_spec (bend b) c.1); constructor; try done; [by apply HP|by constructor].
Qed.

(** ** Linking two blocks

    Both halves of [free] do this: join the blocks if they touch. *)
Definition link_to (m : memory) (a q : Z) : memory :=
  if header_add a (s_size m a) =? q then
    let m := set_size m a (u32 (s_size m a + s_size m q)) in set_ptr m a (s_ptr m q)
  else set_ptr m a q.

Lemma link_to_out m a q x : ~ header a x -> mget (link_to m a q) x = mget m x.
Proof.
  intros Hx. unfold link_to. destruct (_ =? _).
  - by rewrite mget_set_ptr_out, mget_set_size_out.
  - by rewrite mget_set_ptr_out.
Qed.

Lemma link_to_ok m a q : mem_ok m -> mem_ok (link_to m a q).
Proof. intros Hm. unfold link_to. destruct (_ =? _); auto with heap. Qed.

Lemma fields_link_to m a q p :
  headers_apart p a -> s_ptr (link_to m a q) p = s_ptr m p /\ s_size (link_to m a q) p = s_size m p.
Proof. intros Hp. apply fields_ext. intros x Hx. apply link_to_out. unfold header, headers_apart in *. lia. Qed.

Lemma free_lower_link m p bp : headers_apart p bp -> free_lower m p bp = link_to m p bp.
Proof.
  intros Hp. unfold free_lower, link_to. destruct (_ =? bp); [|done]. cbv zeta.
  destruct (fields_ext m (set_size m p (u32 (s_size m p + s_size m bp))) bp) as [-> _]; [|done].
  intros x Hx. apply mget_set_size_out. unfold header, headers_apart in *. lia.
Qed.

Lemma free_upper_link m p bp :
  headers_apart p bp -> headers_apart (s_ptr m p) bp -> free_upper m p bp = link_to m bp (s_ptr m p).
Proof.
  intros Hp Hq. unfold free_upper, link_to. destruct (_ =? _); [|done]. cbv zeta.
  set (m1 := set_size m bp _).
  assert (forall y, headers_apart y bp -> s_ptr m1 y = s_ptr m y) as Hy.
  { intros y Hy. apply (fields_ext m m1 y). intros x Hx. apply mget_set_size_out. unfold header, headers_apart in *. lia. }
  by rewrite (Hy p Hp), (Hy _ Hq).
Qed.

(** Addresses and sizes are small enough for the machine. *)
Definition small (b : block) : Prop := 0 < b.1 /\ 0 <= b.2 /\ bend b < 2 ^ 36.

Lemma small_join b c : small b -> small c -> bend b = c.1 -> small (b.1, b.2 + c.2).
Proof. unfold small, bend, sizeof_Header. cbn. lia. Qed.

Lemma link_to_spec m b l z :
  mem_ok m -> small b -> Forall small l -> 0 <= z < 2 ^ 64 -> (l = [] -> bend b <> z) ->
  Forall (fun c => headers_apart c.1 b.1) l ->
  s_size m b.1 = b.2 -> linked m l z -> linked (link_to m b.1 (head_or l z)) (join b l) z.
Proof.
  intros Hm Hb Hl Hz Hnz Ha Hsz Hlk.
  assert (header_add b.1 (s_size m b.1) = bend b) as Hadd.
  { rewrite Hsz. unfold small, bend, sizeof_Header in *. apply header_add_small. lia. }
  destruct l as [|c l]; cbn [head_or join].
  - unfold link_to. rewrite Hadd, (proj2 (Z.eqb_neq _ _)) by auto. cbn. rewrite s_size_set_ptr.
    split_and!; [done|by apply s_ptr_set_ptr|done].
  - apply Forall_cons in Hl as [Hc Hl]. apply Forall_cons in Ha as [Hac Ha]. cbn in Hlk. destruct Hlk as (Hcs & Hcp & Hlk).
    assert (linked (link_to m b.1 c.1) l z) as Hlk'.
    { eapply linked_ext; [|exact Hlk]. intros d x Hd Hx. apply link_to_out.
      rewrite Forall_forall in Ha. specialize (Ha d Hd). unfold header, headers_apart in *. lia. }
    destruct (Z.eqb_spec (bend b) c.1) as [E|E]; cbn [linked fst snd head_or].
    + split_and!; [| |done].
      * unfold link_to. rewrite Hadd, E, Z.eqb_refl. cbv zeta. rewrite s_size_set_ptr, Hsz, Hcs.
        rewrite u32_small; [apply s_size_set_size|]; unfold small, bend, sizeof_Header in *; lia.
      * unfold link_to. rewrite Hadd, E, Z.eqb_refl. cbv zeta.
        destruct (fields_ext m (set_size m b.1 (u32 (s_size m b.1 + s_size m c.1))) c.1) as [Ec _].
        { intros x Hx. apply mget_set_size_out. unfold header, headers_apart in *. lia. }
        rewrite Ec, Hcp. apply s_ptr_set_ptr.
        destruct l as [|d l]; cbn; [done|]. apply Forall_cons in Hl as [Hd _]. unfold small, bend, sizeof_Header in *. lia.
    + destruct (fields_link_to m b.1 c.1 c.1 Hac) as [-> ->]. split_and!; try done.
      * unfold link_to. rewrite Hadd, (proj2 (Z.eqb_neq _ _)) by done. by rewrite s_size_set_ptr.
      * unfold link_to. rewrite Hadd, (proj2 (Z.eqb_neq _ _)) by done. apply s_ptr_set_ptr.
        unfold small, bend, sizeof_Header in *. lia.
Qed.

(** ** Where a block goes *)

Lemma place lo b c l :
  spread lo (c :: l) -> bend c <= b.1 -> Forall (fun d => apart b d /\ 1 <= d.2) l ->
  exists l1 p l2, c :: l = l1 ++ p :: l2 /\ bend p <= b.1 /\ after (bend b) l2.
Proof.
  revert lo c. induction l as [|d l IH]; intros lo c (Hc & Hc2 & Hs) Hb Ha.
  - by exists [], c, [].
  - apply Forall_cons in Ha as [[[Hd|Hd] H1] Ha].
    + exists [], c, (d :: l). split_and!; try done. cbn in *. split_and!; [done|lia|tauto].
    + destruct (IH (bend c) d Hs Hd Ha) as (l1 & p & l2 & -> & Hp & H2).
      by exists (c :: l1), p, l2.
Qed.

(** From a block below [bp] the search goes up to the one before [bp]. *)
Lemma free_loop_up k m bp z lo l1 p l2 :
  linked m (l1 ++ p :: l2) z -> spread lo (l1 ++ p :: l2) -> z <= p.1 -> p.1 < bp ->
  after (bp + 1) l2 -> (length l1 < k)%nat ->
  free_loop k m bp (head_or (l1 ++ p :: l2) z) = Some p.1.
Proof.
  revert lo l1. induction k as [|k IH]; intros lo l1 Hl Hs Hz Hp H2 Hk; [lia|].
  destruct l1 as [|c l1]; cbn [app head_or free_loop].
  - destruct Hl as (_ & -> & _). rewrite (proj2 (Z.ltb_lt p.1 bp)) by done. cbn [andb orb].
    destruct l2 as [|d l2]; cbn [head_or].
    + rewrite (proj2 (Z.leb_le z p.1)) by done. by destruct (bp <? z).
    + rewrite (proj2 (Z.ltb_lt bp d.1)); [done|]. cbn in H2. lia.
  - cbn [app linked] in Hl. destruct Hl as (_ & -> & Hl). cbn [app spread] in Hs. destruct Hs as (Hc & Hc2 & Hs).
    assert (c.1 < head_or (l1 ++ p :: l2) z <= p.1) as Hn.
    { destruct l1 as [|d l1]; cbn [app head_or spread] in *; [unfold bend, sizeof_Header in *; lia|].
      destruct Hs as (Hd & Hd2 & Hs). assert (p ∈ l1 ++ p :: l2) as Hin by set_solver.
      destruct (spread_above _ _ _ Hs Hin). unfold bend, sizeof_Header in *. lia. }
    rewrite (proj2 (Z.ltb_ge bp _)), andb_false_r, (proj2 (Z.leb_gt _ c.1)) by lia. cbn [andb].
    apply (IH (bend c)); try done. simpl in Hk. lia.
Qed.

(** From a block above [bp] it goes round to the start. *)
Lemma free_loop_round k m bp z lo l :
  linked m l z -> spread lo l -> bp <= lo -> z <= bp -> (length l <= k)%nat ->
  free_loop k m bp (head_or l z) = free_loop (k - length l) m bp z.
Proof.
  revert k lo. induction l as [|c l IH]; intros k lo Hl Hs Hlo Hz Hk; [by rewrite Nat.sub_0_r|].
  destruct k as [|k]; [simpl in Hk; lia|]. cbn [head_or free_loop]. destruct Hl as (_ & -> & Hl).
  destruct Hs as (Hc & Hc2 & Hs).
  rewrite (proj2 (Z.ltb_ge c.1 bp)) by lia. cbn [andb orb].
  assert ((head_or l z <=? c.1) && (bp <? head_or l z) = false) as ->.
  { destruct l as [|d l]; cbn [head_or].
    - rewrite (proj2 (Z.ltb_ge bp z)) by lia. apply andb_false_r.
    - cbn in Hs. rewrite (proj2 (Z.leb_gt d.1 c.1)); [done|]. unfold bend, sizeof_Header in *. lia. }
  cbn [length Nat.sub]. apply (IH k (bend c)); try done; [unfold bend, sizeof_Header; lia|simpl in Hk; lia].
Qed.

Lemma free_loop_spec k m b lo l1 p l2 f :
  let l := l1 ++ p :: l2 in
  let z := head_or l 0 in
  linked m l z -> spread lo l -> p.1 < b.1 -> 1 <= b.2 -> after (bend b) l2 -> f ∈ l ->
  (length l <= k)%nat -> free_loop k m b.1 f.1 = Some p.1.
Proof.
  intros l z Hl Hs Hp Hb H2 Hf Hk.
  assert (z <= p.1) as Hz.
  { unfold z, l. destruct l1 as [|d l1]; cbn [app head_or]; [lia|]. cbn [l app spread] in Hs.
    destruct Hs as (Hd & Hd2 & Hs). assert (p ∈ l1 ++ p :: l2) as Hin by set_solver.
    destruct (spread_above _ _ _ Hs Hin). unfold bend, sizeof_Header in *. lia. }
  assert (after (b.1 + 1) l2) as H2'.
  { destruct l2 as [|c l2]; [done|]. cbn in *. unfold bend, sizeof_Header in *. split_and!; [lia|lia|tauto]. }
  assert (length l = S (length l1 + length l2)) as Hlen by (unfold l; rewrite length_app; simpl; lia).
  assert (forall k', (length l1 < k')%nat -> free_loop k' m b.1 z = Some p.1) as Hstart.
  { intros k' Hk'. unfold z, l. destruct l1 as [|d l1].
    - eapply (free_loop_up k' m b.1 z lo [] p l2); done.
    - eapply (free_loop_up k' m b.1 z lo (d :: l1) p l2); done. }
  unfold l in Hf. apply elem_of_app in Hf as [Hf|Hf].
  - apply list_elem_of_split in Hf as (u & v & ->). unfold l in Hl, Hs. rewrite <-app_assoc in Hl, Hs. cbn [app] in *.
    apply linked_app in Hl as [_ Hl]. apply spread_app in Hs as [Hs1 Hs2].
    apply (free_loop_up k m b.1 z (f.1 - 1) (f :: v) p l2); try done.
    + cbn [app spread]. split_and!; [lia| |done].
      apply (spread_above lo (u ++ [f])); [done|set_solver].
    + rewrite length_app in Hlen. simpl in *. lia.
  - apply elem_of_cons in Hf as [->|Hf].
    + apply linked_app in Hl as [_ Hl]. apply spread_app in Hs as [Hs1 Hs2].
      apply (free_loop_up k m b.1 z (p.1 - 1) [] p l2); try done; [|simpl; lia].
      cbn [app spread]. split_and!; [lia| |done]. apply (spread_above lo (l1 ++ [p])); [done|set_solver].
    + apply list_elem_of_split in Hf as (u & v & ->). rewrite length_app in Hlen. simpl in Hlen.
      apply linked_app in Hl as [_ Hl]. cbn [linked] in Hl. destruct Hl as (_ & _ & Hl).
      apply linked_app in Hl as [_ Hl]. apply spread_app in Hs as [_ Hs]. apply spread_app in Hs as [Hs1 Hs2].
      assert (b.1 < f.1 /\ 0 <= f.2) as [Hbf Hf2].
      { destruct u as [|c u]; cbn in H2, Hs1.
        - unfold bend, sizeof_Header in *. lia.
        - destruct H2 as (Hc & Hc2 & H2). assert (f ∈ u ++ f :: v) as Hin by set_solver.
          destruct (spread_above _ _ _ H2 Hin). unfold bend, sizeof_Header in *. lia. }
      change f.1 with (head_or (f :: v) z).
      rewrite (free_loop_round k m b.1 z b.1); [apply Hstart; simpl; lia| | |lia|lia|simpl; lia].
      * done.
      * cbn [spread]. by split_and!.
Qed.

(** ** The heap *)

(** The statics are in the program's data, below the heap. *)
Class StaticsOk {STA : Statics} := {
  heap_lo : Z;
  base_pos : 0 < base /\ base + sizeof_Header <= heap_lo;
  freep_pos : 0 < freep /\ freep + 8 <= heap_lo;
  statics_apart : freep + 8 <= base \/ base + sizeof_Header <= freep;
}.

Definition within (b : block) (x : Z) : Prop := b.1 <= x < bend b.
Definition covers (l : list block) (x : Z) : Prop := exists b, b ∈ l /\ within b x.

(** No two blocks of [l] overlap. *)
Fixpoint disjoint_blocks (l : list block) : Prop :=
  match l with [] => True | b :: l => Forall (apart b) l /\ disjoint_blocks l end.

Lemma apart_sym b c : apart b c -> apart c b.
Proof. unfold apart. tauto. Qed.

Lemma disjoint_remove l1 b l2 :
  disjoint_blocks (l1 ++ b :: l2) -> disjoint_blocks (l1 ++ l2) /\ Forall (apart b) (l1 ++ l2).
Proof.
  induction l1 as [|c l1 IH]; cbn; [tauto|]. rewrite Forall_app, Forall_cons. intros ((H1 & Hb & H2) & Hd).
  destruct (IH Hd) as [Hd' Ha]. rewrite Forall_app. split_and!; try done. constructor; [by apply apart_sym|done].
Qed.

Section heap.
Context `{STA : Statics, SOK : !StaticsOk}.

Definition static (x : Z) : Prop := header base x \/ freep <= x < freep + 8.

(** Blocks of the heap lie between its start and the end of the process. *)
Definition inside (brk : Z) (b : block) : Prop := heap_lo <= b.1 /\ 1 <= b.2 /\ bend b <= brk.

Lemma inside_join brk b c : inside brk b -> inside brk c -> bend b = c.1 -> inside brk (b.1, b.2 + c.2).
Proof. unfold inside, bend, sizeof_Header. cbn. lia. Qed.

Lemma apart_join a b c : 1 <= a.2 -> apart a b -> apart a c -> bend b = c.1 -> apart a (b.1, b.2 + c.2).
Proof. unfold apart, bend, sizeof_Header. cbn. lia. Qed.

(** The free blocks are [fl] and the live ones [lv]. *)
Record heap (m : memory) (brk : Z) (fl lv : list block) : Prop := {
  h_ok : mem_ok m;
  h_links : linked m ((base, 0) :: fl) base;
  h_spread : spread (base - 1) ((base, 0) :: fl);
  h_free : Forall (inside brk) fl;
  h_live : Forall (inside brk) lv;
  h_size : Forall (fun b => s_size m b.1 = b.2) lv;
  h_apart : Forall (fun b => Forall (apart b) fl) lv;
  h_disjoint : disjoint_blocks lv;
  h_freep : exists f, f ∈ (base, 0) :: fl /\ load64 m freep = f.1;
  h_brk : heap_lo <= brk < 2 ^ 36;
}.

Lemma inside_small brk b : brk < 2 ^ 36 -> inside brk b -> small b.
Proof using SOK.
  intros Hb (H1 & H2 & H3). pose proof base_pos. unfold small, bend, sizeof_Header in *. lia.
Qed.

(** Headers of the list, and of a block of the heap that is not in it. *)
Lemma header_within brk b x : inside brk b -> header b.1 x -> within b x.
Proof. unfold inside, header, within, bend, sizeof_Header. lia. Qed.

Lemma apart_headers brk b c : inside brk b -> inside brk c -> apart b c -> headers_apart b.1 c.1.
Proof. unfold inside, apart, headers_apart, bend, sizeof_Header. lia. Qed.

Lemma base_header brk b : inside brk b -> headers_apart base b.1.
Proof using SOK. intros (H & _). pose proof base_pos. unfold headers_apart. lia. Qed.

(** What [free] and [malloc] may change: the statics and free memory. *)
Definition changes (l : list block) (m m' : memory) : Prop :=
  forall x, ~ static x -> ~ covers l x -> mget m' x = mget m x.

(** Linking blocks of the heap leaves what is not theirs alone. *)
Lemma heap_keeps_live brk m m' l lv :
  changes l m m' -> Forall (inside brk) lv -> Forall (inside brk) l ->
  Forall (fun b => Forall (apart b) l) lv ->
  Forall (fun b => s_size m b.1 = b.2) lv -> Forall (fun b => s_size m' b.1 = b.2) lv.
Proof using SOK.
  intros Hc Hlv Hl Ha Hs. rewrite !Forall_forall in *. intros b Hb. rewrite <-(Hs b Hb).
  apply (fields_ext m m' b.1). intros x Hx. pose proof (Hlv b Hb) as Hbi. apply Hc.
  - destruct Hbi as (Hlo & _). pose proof base_pos. pose proof freep_pos. unfold static, header, sizeof_Header in *. lia.
  - intros (c & Hcl & Hcx). pose proof (header_within _ _ _ Hbi Hx) as Hbx.
    pose proof (Ha b Hb) as Hac. rewrite Forall_forall in Hac. specialize (Hac c Hcl).
    unfold within, apart in *. lia.
Qed.

Lemma covers_cons b l x : covers (b :: l) x <-> within b x \/ covers l x.
Proof.
  split.
  - intros (c & [->|Hc]%elem_of_cons & Hx); [by left|right; by exists c].
  - intros [Hx|(c & Hc & Hx)]; [exists b; split; [by left|done]|exists c; split; [by right|done]].
Qed.

Lemma covers_app l1 l2 x : covers (l1 ++ l2) x <-> covers l1 x \/ covers l2 x.
Proof.
  induction l1 as [|b l1 IH]; cbn [app]; [|rewrite !covers_cons, IH; tauto].
  split; [by right|]. intros [(c & Hc & _)|]; [by apply elem_of_nil in Hc|done].
Qed.

Lemma covers_join b l x :
  0 <= b.2 -> Forall (fun c => 0 <= c.2) l -> covers (join b l) x <-> within b x \/ covers l x.
Proof.
  intros Hb Hl. destruct Hl as [|c l Hc Hl]; cbn [join]; [by rewrite covers_cons|].
  destruct (Z.eqb_spec (bend b) c.1) as [E|E]; rewrite !covers_cons; [|done].
  unfold within, bend, sizeof_Header in *. cbn [fst snd]. split; [intros [?|?]|intros [?|[?|?]]]; try tauto;
    (destruct (decide (x < c.1)); [left|right; left]; lia) || (left; lia).
Qed.

Lemma length_join b l : (length (join b l) <= S (length l))%nat.
Proof. destruct l as [|c l]; cbn; [done|]. destruct (_ =? _); cbn; lia. Qed.

Lemma head_join b l z : head_or (join b l) z = b.1.
Proof. destruct l; cbn; [done|]. by destruct (_ =? _). Qed.

Definition closed (P : block -> Prop) : Prop :=
  forall b c, P b -> P c -> bend b = c.1 -> P (b.1, b.2 + c.2).

(** The blocks after [b] has been given back in the place after [p]. *)
Record given_back (b : block) (fl fl' : list block) : Prop := {
  gb_all : forall P, closed P -> P b -> Forall P fl -> Forall P fl';
  gb_covers : forall x, covers fl' x <-> within b x \/ covers fl x;
  gb_length : (length fl' <= S (length fl))%nat;
  gb_block : exists c, c ∈ fl' /\ b.2 <= c.2;
}.

Lemma join_block b l : Forall (fun c => 0 <= c.2) l -> exists c, c ∈ join b l /\ b.2 <= c.2 /\ c.1 = b.1.
Proof.
  intros Hl. destruct Hl as [|c l Hc Hl]; cbn; [exists b; split; [by left|done]|].
  destruct (_ =? _); eexists; (split; [by left|]); cbn; [lia|done].
Qed.

Lemma given_back_here b l : 0 <= b.2 -> Forall (fun c => 0 <= c.2) l -> given_back b l (join b l).
Proof.
  intros Hb Hl. split.
  - intros P HP HPb HPl. apply Forall_join; [|done..]. intros c H1 H2. by apply HP.
  - intros x. by apply covers_join.
  - apply length_join.
  - destruct (join_block b l Hl) as (c & Hc & Hle & _). by exists c.
Qed.

Lemma given_back_after b p l1 l2 :
  0 <= b.2 -> Forall (fun c => 0 <= c.2) (l1 ++ p :: l2) ->
  given_back b (l1 ++ p :: l2) (l1 ++ join p (join b l2)).
Proof.
  intros Hb [Hl1 [Hp Hl2]%Forall_cons]%Forall_app.
  assert (Forall (fun c => 0 <= c.2) (join b l2)) as Hj by (apply Forall_join; cbn; try done; lia).
  split.
  - intros P HP HPb [H1 [H2 H3]%Forall_cons]%Forall_app. apply Forall_app. split; [done|].
    apply Forall_join; [intros c ? ?; by apply HP|done|]. apply Forall_join; [intros c ? ?; by apply HP|done..].
  - intros x. rewrite !covers_app, covers_cons, covers_join, covers_join by done. tauto.
  - rewrite !length_app. pose proof (length_join p (join b l2)). pose proof (length_join b l2). simpl. lia.
  - destruct (join_block b l2 Hl2) as (c & Hc & Hle & _).
    destruct (join b l2) as [|d l] eqn:E; [by apply elem_of_nil in Hc|]. cbn [join].
    destruct (bend p =? d.1).
    + apply elem_of_cons in Hc as [->|Hc]; [exists (p.1, p.2 + d.2); split; [set_solver|cbn; lia]|].
      exists c. split; [set_solver|done].
    + exists c. split; [set_solver|done].
Qed.

(** The new list, in both cases: after [base], or after another block. *)
Lemma give_back brk b fl l1 p l2 :
  inside brk b -> Forall (inside brk) fl -> (base, 0) :: fl = l1 ++ p :: l2 ->
  exists fl', l1 ++ join p (join b l2) = (base, 0) :: fl' /\ given_back b fl fl'.
Proof using SOK.
  intros Hb Hfl E.
  assert (Forall (fun c : block => 0 <= c.2) fl) as Hpos
    by (eapply Forall_impl; [exact Hfl|]; intros c (_ & Hc & _); lia).
  assert (0 <= b.2) by (destruct Hb as (_ & Hb & _); lia).
  destruct l1 as [|c l1]; injection E as E1 E2; subst.
  - exists (join b l2). split; [|by apply given_back_here].
    cbn [app]. destruct (join b l2) as [|d l] eqn:Ej; [done|]. cbn [join].
    assert (d.1 = b.1) as Hd by (rewrite <-(head_join b l2 0), Ej; done).
    rewrite (proj2 (Z.eqb_neq _ _)); [done|]. pose proof base_pos. destruct Hb as (Hlo & _).
    unfold bend, sizeof_Header in *. cbn. lia.
  - exists (l1 ++ join p (join b l2)). split; [done|]. by apply given_back_after.
Qed.

(** ** Giving a block back *)

Section list.
Context (brk : Z) (fl : list block).
Context (Hbrk : heap_lo <= brk < 2 ^ 36) (Hfl : Forall (inside brk) fl).
Context (Hspread : spread (base - 1) ((base, 0) :: fl)).

Lemma node_cases c : c ∈ (base, 0) :: fl -> c = (base, 0) \/ (c ∈ fl /\ inside brk c).
Proof using Hfl.
  intros [->|Hc]%elem_of_cons; [by left|right]. split; [done|]. rewrite Forall_forall in Hfl. by apply Hfl.
Qed.

Lemma node_small c : c ∈ (base, 0) :: fl -> small c.
Proof using SOK Hfl Hbrk.
  intros [->|[_ Hc]]%node_cases; [|eapply inside_small; [|exact Hc]; lia].
  pose proof base_pos. unfold small, bend, sizeof_Header in *. cbn. lia.
Qed.

(** The headers of two nodes. *)
Lemma nodes_apart l1 c l2 d :
  (base, 0) :: fl = l1 ++ c :: l2 -> d ∈ l2 -> c.1 + sizeof_Header <= d.1.
Proof using All.
  intros E Hd. pose proof Hspread as Hs. rewrite E in Hs. apply spread_app in Hs as [Hs1 Hs2].
  destruct (spread_above _ _ _ Hs2 Hd) as [Hcd _].
  assert (base - 1 < c.1) as Hc1 by (apply (spread_above _ _ c Hs1); set_solver).
  assert (c ∈ (base, 0) :: fl) as Hc by (rewrite E; set_solver).
  assert (d ∈ (base, 0) :: fl) as Hd' by (rewrite E; set_solver).
  pose proof base_pos. apply node_cases in Hc as [->|[_ Hc]], Hd' as [->|[_ Hd']];
    unfold inside, bend, sizeof_Header in *; cbn in *; lia.
Qed.

Lemma block_apart b c :
  inside brk b -> Forall (apart b) fl -> c ∈ (base, 0) :: fl -> headers_apart c.1 b.1.
Proof using All.
  intros Hb Ha [->|[Hc Hi]]%node_cases; [by eapply base_header|].
  eapply apart_headers; [exact Hi|exact Hb|]. rewrite Forall_forall in Ha. by apply apart_sym, Ha.
Qed.

(** The two steps of [free] on the list, for the place after [p]. *)
Lemma free_links m b l1 p l2 :
  mem_ok m -> inside brk b -> Forall (apart b) fl -> s_size m b.1 = b.2 ->
  (base, 0) :: fl = l1 ++ p :: l2 -> linked m ((base, 0) :: fl) base -> p.1 < b.1 ->
  let m' := free_lower (free_upper m p.1 b.1) p.1 b.1 in
  linked m' (l1 ++ join p (join b l2)) base /\ mem_ok m' /\
  forall x, ~ header p.1 x -> ~ header b.1 x -> mget m' x = mget m x.
Proof using All.
  intros Hm Hb Ha Hsz E Hlk Hpb. pose proof base_pos as Hbase. unfold sizeof_Header in Hbase.
  assert (forall c, c ∈ l1 ++ p :: l2 -> small c /\ headers_apart c.1 b.1) as Hn.
  { intros c Hc. rewrite <-E in Hc. split; [by apply node_small|by apply block_apart]. }
  rewrite E in Hlk. apply linked_app in Hlk as [Hl1 (Hps & Hpp & Hl2)].
  assert (headers_apart p.1 b.1) as Hp by (apply Hn; set_solver).
  assert (small b) as Hbs by (eapply inside_small; [|exact Hb]; lia).
  rewrite free_upper_link; [|done|].
  2:{ rewrite Hpp. destruct l2 as [|c l2]; cbn; [by eapply base_header|apply Hn; set_solver]. }
  rewrite Hpp, free_lower_link by done. set (m1 := link_to m b.1 (head_or l2 base)).
  assert (linked m1 (join b l2) base) as Hj.
  { apply link_to_spec; try done.
    - apply Forall_forall. intros c Hc. apply Hn. set_solver.
    - lia.
    - intros _. destruct Hb as (? & ? & ?). unfold bend, sizeof_Header in *. lia.
    - apply Forall_forall. intros c Hc. apply Hn. set_solver. }
  split_and!; [|by apply link_to_ok, link_to_ok|intros x H1 H2; unfold m1; by rewrite !link_to_out].
  apply linked_app. rewrite head_join. split.
  - eapply linked_ext; [|exact Hl1]. intros c x Hc Hx. unfold m1. rewrite !link_to_out; [done| |].
    + destruct (Hn c) as [_ Hcb]; [set_solver|]. unfold header, headers_apart in *. lia.
    + apply list_elem_of_split in Hc as (u & v & ->). rewrite <-app_assoc in E.
      pose proof (nodes_apart _ _ _ p E ltac:(set_solver)). unfold header in *. lia.
  - rewrite <-(head_join b l2 base). apply link_to_spec; try done.
    + by apply link_to_ok.
    + apply Hn. set_solver.
    + apply Forall_join; [intros; by apply small_join|done|]. apply Forall_forall. intros c Hc. apply Hn. set_solver.
    + lia.
    + by destruct l2 as [|c l2]; cbn; [|destruct (_ =? _)].
    + apply Forall_join; [by intros c H1 H2 _|unfold headers_apart in *; lia|].
      apply Forall_forall. intros c Hc. pose proof (nodes_apart _ _ _ c E Hc). unfold headers_apart. lia.
    + rewrite <-Hps. apply fields_link_to. done.
Qed.
End list.

(** Writing [freep] touches no header. *)
Lemma freep_links brk m fl v :
  heap_lo <= brk < 2 ^ 36 -> Forall (inside brk) fl ->
  linked m ((base, 0) :: fl) base -> linked (store64 m freep v) ((base, 0) :: fl) base.
Proof using SOK.
  intros Hbrk Hfl. apply linked_ext. intros c x Hc Hx. apply mget_store64_out.
  pose proof base_pos. pose proof freep_pos. pose proof statics_apart.
  apply (node_cases brk) in Hc as [->|[_ (Hc & _)]]; [| |done]; unfold header, sizeof_Header in *; cbn in *; lia.
Qed.

Lemma changes_live brk l m m' lv :
  changes l m m' -> Forall (inside brk) lv -> Forall (fun b => Forall (apart b) l) lv ->
  forall x, covers lv x -> mget m' x = mget m x.
Proof using SOK.
  intros Hc Hlv Ha x (b & Hb & Hx). rewrite Forall_forall in Hlv, Ha. destruct (Hlv b Hb) as (Hlo & _). apply Hc.
  - pose proof base_pos. pose proof freep_pos. unfold static, header, within, sizeof_Header in *. lia.
  - intros (c & Hcl & Hcx). pose proof (Ha b Hb) as Hac. rewrite Forall_forall in Hac. specialize (Hac c Hcl).
    unfold within, apart in *. lia.
Qed.

Lemma spread_put lo u p l :
  spread lo (u ++ [p]) -> after (bend p) l -> spread lo (u ++ join p l).
Proof.
  revert lo. induction u as [|c u IH]; intros lo; cbn [app spread].
  - intros (H1 & H2 & _) Hl. by apply spread_join.
  - intros (H1 & H2 & Hs) Hl. split_and!; [done..|by apply IH].
Qed.

(** The search of [free] ends at the block after which [b] belongs. *)
Lemma find_place k m brk fl lv b :
  heap m brk fl lv -> inside brk b -> Forall (apart b) fl -> (length fl < k)%nat ->
  exists u p v, (base, 0) :: fl = u ++ p :: v /\ p.1 < b.1 /\ bend p <= b.1 /\ after (bend b) v /\
    free_loop k m b.1 (load64 m freep) = Some p.1.
Proof using SOK.
  intros Hh Hb Hba Hk. pose proof (h_spread _ _ _ _ Hh) as Hsp. pose proof (h_free _ _ _ _ Hh) as Hfl.
  pose proof (h_links _ _ _ _ Hh) as Hlk. destruct (h_freep _ _ _ _ Hh) as (f & Hf & Ef).
  destruct (place (base - 1) b (base, 0) fl Hsp) as (u & p & v & E & Hpb & Hv).
  { destruct Hb as (Hlo & _). pose proof base_pos. unfold bend, sizeof_Header in *. cbn. lia. }
  { apply Forall_forall. intros c Hc. rewrite Forall_forall in Hba, Hfl. split; [by apply Hba|apply (Hfl c Hc)]. }
  assert (p.1 < b.1) as Hlt.
  { assert (p ∈ (base, 0) :: fl) as Hp by (rewrite E; set_solver).
    destruct (node_cases brk fl Hfl p Hp) as [->|[_ Hi]]; [pose proof base_pos|];
      unfold inside, bend, sizeof_Header in *; cbn in *; lia. }
  exists u, p, v. split_and!; try done. rewrite Ef. rewrite E in Hlk, Hsp, Hf.
  eapply (free_loop_spec k m b _ u p v f); try done.
  - by replace (head_or (u ++ p :: v) 0) with base by (rewrite <-E; done).
  - apply Hb.
  - rewrite <-E. simpl. lia.
Qed.

(** The list after [free], in the place after [p]. *)
Lemma free_put m brk fl lv b u p v fl' :
  heap m brk fl lv -> inside brk b -> Forall (apart b) fl -> s_size m b.1 = b.2 ->
  (base, 0) :: fl = u ++ p :: v -> p.1 < b.1 -> bend p <= b.1 -> after (bend b) v ->
  u ++ join p (join b v) = (base, 0) :: fl' -> Forall (inside brk) fl' ->
  let m' := store64 (free_lower (free_upper m p.1 b.1) p.1 b.1) freep p.1 in
  mem_ok m' /\ linked m' ((base, 0) :: fl') base /\ spread (base - 1) ((base, 0) :: fl') /\
  (exists f, f ∈ (base, 0) :: fl' /\ load64 m' freep = f.1) /\ changes (b :: fl) m m'.
Proof using SOK.
  intros [Hm Hlk Hsp Hfl _ _ _ _ _ Hbrk] Hb Hba Hbs E Hlt Hpb Hv E' Hfl'.
  assert (p ∈ (base, 0) :: fl) as Hp by (rewrite E; set_solver).
  pose proof (node_small brk fl Hbrk Hfl p Hp) as Hps.
  destruct (free_links brk fl Hbrk Hfl Hsp m b u p v) as (Hlk' & Hm' & Hout); try done.
  rewrite E' in Hlk'. cbv zeta. split_and!.
  - by apply mem_ok_store64.
  - by eapply freep_links.
  - rewrite <-E'. rewrite E in Hsp. apply spread_app in Hsp as [Hs1 Hs2]. apply spread_put; [done|].
    apply after_join; [done|destruct Hb as (_ & ? & _); lia|done].
  - destruct (join_block p (join b v)) as (c & Hc & _ & Ec).
    + apply Forall_join; [cbn; lia|destruct Hb as (_ & ? & _); lia|]. apply Forall_forall. intros c Hc.
      apply (node_small brk fl Hbrk Hfl c). rewrite E. set_solver.
    + exists c. rewrite <-E', Ec. split; [set_solver|]. apply load64_store64.
      unfold small, bend, sizeof_Header in Hps. lia.
  - intros x H1 H2. rewrite mget_store64_out by (unfold static in H1; lia). rewrite covers_cons in H2. apply Hout.
    + intros Hx. destruct (node_cases brk fl Hfl p Hp) as [->|[Hpf Hi]]; [apply H1; by left|].
      apply H2. right. exists p. split; [done|]. by eapply header_within.
    + intros Hx. apply H2. left. by eapply header_within.
Qed.

(** [free] of a live block, on memory. *)
Lemma free_heap k m brk fl l1 b l2 :
  heap m brk fl (l1 ++ b :: l2) -> (length fl < k)%nat ->
  exists p fl', free_loop k m b.1 (load64 m freep) = Some p /\
    let m' := store64 (free_lower (free_upper m p b.1) p b.1) freep p in
    heap m' brk fl' (l1 ++ l2) /\ given_back b fl fl' /\ changes (b :: fl) m m'.
Proof using SOK.
  intros Hh Hk. pose proof Hh as [Hm Hlk Hsp Hfl Hlv Hsz Hap Hdj _ Hbrk].
  apply Forall_app in Hlv as [Hlv1 [Hb Hlv2]%Forall_cons]. apply Forall_app in Hsz as [Hsz1 [Hbs Hsz2]%Forall_cons].
  apply Forall_app in Hap as [Hap1 [Hba Hap2]%Forall_cons]. apply disjoint_remove in Hdj as [Hdj Hbd].
  assert (Forall (inside brk) (l1 ++ l2)) as Hlv by (by apply Forall_app).
  assert (Forall (fun c => Forall (apart c) fl) (l1 ++ l2)) as Hap by (by apply Forall_app).
  destruct (find_place k m brk fl _ b Hh Hb Hba Hk) as (u & p & v & E & Hlt & Hpb & Hv & El).
  destruct (give_back brk b fl u p v Hb Hfl E) as (fl' & E' & Hgb).
  assert (Forall (inside brk) fl') as Hfl'.
  { apply (gb_all _ _ _ Hgb); [intros c d; apply inside_join|done..]. }
  destruct (free_put m brk fl _ b u p v fl' Hh) as (Hm' & Hlk' & Hsp' & Hf' & Hch); try done.
  exists p.1, fl'. split; [done|]. cbv zeta. split_and!; [|done..]. split; try done.
  - eapply heap_keeps_live; [exact Hch|exact Hlv| | |].
    + by constructor.
    + apply Forall_forall. intros c Hc. rewrite Forall_forall in Hap, Hbd. constructor; [by apply apart_sym, Hbd|by apply Hap].
    + by apply Forall_app.
  - apply Forall_forall. intros c Hc. rewrite Forall_forall in Hap, Hbd, Hlv. apply (gb_all _ _ _ Hgb).
    + intros d e. apply apart_join. apply (Hlv c Hc).
    + by apply apart_sym, Hbd.
    + by apply Hap.
Qed.

(** ** Taking a block *)

(** What is left of the list after [k] units of [b] have been taken. *)
Definition left_over (b : block) (k : Z) (l : list block) : list block :=
  if b.2 =? k then l else (b.1, b.2 - k) :: l.

(** The units taken: the upper end. *)
Definition taken (b : block) (k : Z) : block := (bend b - sizeof_Header * k, k).

Lemma spread_left_over lo u b l k :
  0 <= k <= b.2 -> spread lo (u ++ b :: l) -> spread lo (u ++ left_over b k l).
Proof.
  intros Hk. revert lo. induction u as [|c u IH]; intros lo; cbn [app spread].
  - intros (H1 & H2 & Hl). unfold left_over. destruct (Z.eqb_spec b.2 k).
    + eapply spread_mono; [|exact Hl]. unfold bend, sizeof_Header. lia.
    + cbn. split_and!; [done|lia|]. eapply spread_mono; [|exact Hl]. unfold bend, sizeof_Header. cbn. lia.
  - intros (H1 & H2 & Hs). split_and!; [done..|by apply IH].
Qed.

Lemma left_over_all (P : block -> Prop) u b l k :
  Forall P (u ++ b :: l) -> (b.2 <> k -> P (b.1, b.2 - k)) -> Forall P (u ++ left_over b k l).
Proof.
  intros [Hu [Hb Hl]%Forall_cons]%Forall_app HP. apply Forall_app. split; [done|]. unfold left_over.
  destruct (Z.eqb_spec b.2 k); [done|]. constructor; [by apply HP|done].
Qed.

Lemma left_over_covers u b l k x :
  0 <= k <= b.2 -> covers (u ++ b :: l) x <-> within (taken b k) x \/ covers (u ++ left_over b k l) x.
Proof.
  intros Hk. rewrite !covers_app, covers_cons. unfold left_over.
  assert (within b x <-> within (taken b k) x \/ within (b.1, b.2 - k) x) as Hb.
  { unfold within, taken, bend, sizeof_Header. cbn. lia. }
  destruct (Z.eqb_spec b.2 k); [|rewrite covers_cons; tauto].
  assert (~ within (b.1, b.2 - k) x) by (unfold within, bend, sizeof_Header; cbn; lia). tauto.
Qed.

Lemma apart_taken b c k : 0 <= k <= b.2 -> apart c b -> apart c (taken b k) /\ apart c (b.1, b.2 - k).
Proof. unfold apart, taken, bend, sizeof_Header. cbn. lia. Qed.

(** The blocks of a spread list are apart. *)
Lemma spread_apart lo u b l c : spread lo (u ++ b :: l) -> c ∈ u ++ l -> apart c b.
Proof.
  intros Hs [Hc|Hc]%elem_of_app.
  - apply list_elem_of_split in Hc as (u1 & u2 & ->). rewrite <-app_assoc in Hs. cbn [app] in Hs.
    apply spread_app in Hs as [_ Hs]. assert (b ∈ u2 ++ b :: l) as Hb by set_solver.
    destruct (spread_above _ _ _ Hs Hb). left. lia.
  - apply spread_app in Hs as [_ Hs]. destruct (spread_above _ _ _ Hs Hc). right. lia.
Qed.

Lemma left_over_apart lo u b l k :
  0 <= k <= b.2 -> spread lo (u ++ b :: l) -> Forall (apart (taken b k)) (u ++ left_over b k l).
Proof.
  intros Hk Hs. assert (forall c, c ∈ u ++ l -> apart (taken b k) c) as H.
  { intros c Hc. apply apart_sym, apart_taken; [done|]. by eapply spread_apart. }
  apply Forall_app. split; [apply Forall_forall; intros c Hc; apply H; set_solver|]. unfold left_over.
  destruct (Z.eqb_spec b.2 k); [apply Forall_forall; intros c Hc; apply H; set_solver|].
  constructor; [|apply Forall_forall; intros c Hc; apply H; set_solver].
  unfold apart, taken, bend, sizeof_Header. cbn. lia.
Qed.

Lemma take_heap m m' brk lv u b l k :
  heap m brk (u ++ b :: l) lv -> 1 <= k <= b.2 ->
  mem_ok m' -> linked m' ((base, 0) :: u ++ left_over b k l) base -> s_size m' (taken b k).1 = k ->
  (exists f, f ∈ (base, 0) :: u /\ load64 m' freep = f.1) -> changes (u ++ b :: l) m m' ->
  heap m' brk (u ++ left_over b k l) (taken b k :: lv).
Proof using SOK.
  intros [Hm Hlk Hsp Hfl Hlv Hsz Hap Hdj _ Hbrk] Hk Hm' Hlk' Hts (f & Hf & Ef) Hch.
  assert (inside brk b) as Hb by (apply Forall_app in Hfl as [_ [? _]%Forall_cons]; done).
  assert (Forall (fun c => apart c b) lv) as Hba.
  { eapply Forall_impl; [exact Hap|]. by intros c [_ [? _]%Forall_cons]%Forall_app. }
  split; try done.
  - apply (spread_left_over _ ((base, 0) :: u)); [lia|done].
  - apply left_over_all; [done|]. intros Hne. unfold inside, bend, sizeof_Header in *. cbn. lia.
  - constructor; [|done]. unfold inside, taken, bend, sizeof_Header in *. cbn. lia.
  - constructor; [done|]. by eapply heap_keeps_live.
  - constructor; [eapply left_over_apart; [lia|apply Hsp]|].
    rewrite Forall_forall in Hap, Hba |- *. intros c Hc. apply left_over_all; [by apply Hap|]. intros _.
    apply apart_taken; [lia|]. by apply Hba.
  - cbn. split; [|done]. eapply Forall_impl; [exact Hba|]. intros c Hc. apply apart_sym, apart_taken; [lia|done].
  - exists f. split; [|done]. set_solver.
Qed.

Lemma node_header brk fl c x :
  Forall (inside brk) fl -> c ∈ (base, 0) :: fl -> header c.1 x -> static x \/ covers fl x.
Proof using SOK.
  intros Hfl Hc Hx. destruct (node_cases brk fl Hfl c Hc) as [->|[Hcf Hi]]; [left; by left|].
  right. exists c. split; [done|]. by eapply header_within.
Qed.

Section take.
Context (m : memory) (brk : Z) (lv u l : list block) (b p : block) (u' : list block) (k : Z).
Context (Hh : heap m brk (u ++ b :: l) lv) (Hp : (base, 0) :: u = u' ++ [p]) (Hk : 1 <= k <= b.2).

Let fl := u ++ b :: l.

Lemma take_list : (base, 0) :: fl = u' ++ p :: b :: l.
Proof using Hp. change ((base, 0) :: fl) with (((base, 0) :: u) ++ b :: l). by rewrite Hp, <-app_assoc. Qed.

Lemma take_nodes :
  s_size m p.1 = p.2 /\ s_ptr m p.1 = b.1 /\ s_size m b.1 = b.2 /\ s_ptr m b.1 = head_or l base /\
  linked m u' p.1 /\ linked m l base.
Proof using Hh Hp.
  pose proof (h_links _ _ _ _ Hh) as Hl. fold fl in Hl. rewrite take_list in Hl.
  apply linked_app in Hl as [Hu (H1 & H2 & H3 & H4 & Hl)]. done.
Qed.

Lemma take_range : inside brk b /\ small p /\ 0 <= head_or l base < 2 ^ 64 /\ 0 < p.1.
Proof using All.
  pose proof (h_free _ _ _ _ Hh) as Hfl. pose proof (h_brk _ _ _ _ Hh) as Hbrk. fold fl in Hfl.
  assert (forall c, c ∈ u' ++ p :: b :: l -> small c) as Hs
    by (intros c; rewrite <-take_list; by apply (node_small brk)).
  assert (small p) as Hps by (apply Hs; set_solver). split_and!; try done; try apply Hps.
  - apply Forall_app in Hfl as [_ [? _]%Forall_cons]. done.
  - pose proof base_pos. destruct l as [|c l']; cbn; [lia|].
    assert (small c) as Hc by (apply Hs; set_solver). unfold small in Hc. lia.
  - pose proof base_pos. destruct l as [|c l']; cbn; [unfold sizeof_Header in *; lia|].
    assert (small c) as Hc by (apply Hs; set_solver). unfold small, bend, sizeof_Header in Hc. lia.
Qed.

(** Nodes other than [b] keep their distance from it and from each other. *)
Lemma take_apart c : c ∈ u' ++ p :: l -> c.1 + sizeof_Header <= b.1 \/ bend b <= c.1.
Proof using All.
  pose proof (h_free _ _ _ _ Hh) as Hfl. pose proof (h_brk _ _ _ _ Hh) as Hbrk.
  pose proof (h_spread _ _ _ _ Hh) as Hsp. fold fl in Hfl, Hsp.
  pose proof take_list as E. intros [Hc|[->|Hc]%elem_of_cons]%elem_of_app.
  - left. apply list_elem_of_split in Hc as (a & d & Ea). rewrite Ea, <-app_assoc in E.
    apply (nodes_apart brk fl Hbrk Hfl Hsp _ _ _ b E). set_solver.
  - left. apply (nodes_apart brk fl Hbrk Hfl Hsp _ _ _ b E). set_solver.
  - right. rewrite E in Hsp. apply spread_app in Hsp as [_ (_ & _ & Hsp)].
    destruct (spread_above _ _ _ Hsp Hc). lia.
Qed.

Lemma take_prev_apart c : c ∈ u' ++ b :: l -> headers_apart c.1 p.1.
Proof using All.
  pose proof (h_free _ _ _ _ Hh) as Hfl. pose proof (h_brk _ _ _ _ Hh) as Hbrk.
  pose proof (h_spread _ _ _ _ Hh) as Hsp. fold fl in Hfl, Hsp.
  pose proof take_list as E. intros [Hc|Hc]%elem_of_app.
  - left. apply list_elem_of_split in Hc as (a & d & Ea). rewrite Ea, <-app_assoc in E.
    apply (nodes_apart brk fl Hbrk Hfl Hsp _ _ _ p E). set_solver.
  - right. by apply (nodes_apart brk fl Hbrk Hfl Hsp _ _ _ c E).
Qed.

(** The whole block. *)
Lemma take_whole :
  b.2 = k -> let m' := store64 (set_ptr m p.1 (s_ptr m b.1)) freep p.1 in
  heap m' brk (u ++ left_over b k l) (taken b k :: lv) /\ changes fl m m'.
Proof using All.
  intros Ek m'. destruct take_nodes as (Hps & Hpp & Hbs & Hbp & Hu & Hl).
  destruct take_range as (Hb & Hsm & Hhd & Hp0). pose proof (h_free _ _ _ _ Hh) as Hfl.
  set (m1 := set_ptr m p.1 (s_ptr m b.1)).
  assert (forall c x, c ∈ u' ++ b :: l -> header c.1 x -> mget m1 x = mget m x) as Hm1.
  { intros c x Hc%take_prev_apart Hx. apply mget_set_ptr_out. unfold header, headers_apart in *. lia. }
  assert (changes fl m m') as Hch.
  { intros x H1 H2. unfold m'. rewrite mget_store64_out by (unfold static in H1; lia).
    apply mget_set_ptr_out. intros Hx. apply (node_header brk fl) in Hx as [?|?]; try done. rewrite take_list. set_solver. }
  assert (linked m1 ((base, 0) :: u ++ l) base) as Hlk.
  { change ((base, 0) :: u ++ l) with (((base, 0) :: u) ++ l). rewrite Hp, <-app_assoc. apply linked_app. cbn.
    split_and!.
    - eapply linked_ext; [|exact Hu]. intros c x Hc. apply Hm1. set_solver.
    - unfold m1. by rewrite s_size_set_ptr.
    - unfold m1. rewrite Hbp. by apply s_ptr_set_ptr.
    - eapply linked_ext; [|exact Hl]. intros c x Hc. apply Hm1. set_solver. }
  split; [|done].
  assert (Forall (inside brk) (u ++ l)) as Hul.
  { apply Forall_app in Hfl as [? [_ ?]%Forall_cons]. by apply Forall_app. }
  assert (taken b k = b) as Et by (destruct b as [b1 b2]; cbn in *; unfold taken, bend; cbn; f_equal; lia).
  eapply take_heap; try done.
  - apply mem_ok_store64, mem_ok_set_ptr, Hh.
  - unfold left_over. rewrite (proj2 (Z.eqb_eq b.2 k)) by done. eapply freep_links; [apply Hh|done|done].
  - rewrite Et, <-Ek, <-Hbs. apply fields_ext. intros x Hx. unfold m'. rewrite mget_store64_out.
    + apply (Hm1 b); [set_solver|done].
    + pose proof freep_pos. unfold inside, header, sizeof_Header in *. lia.
  - exists p. rewrite Hp. split; [set_solver|]. apply load64_store64. unfold small, bend, sizeof_Header in Hsm. lia.
Qed.

(** Its upper end. *)
Lemma take_upper :
  b.2 <> k -> let m1 := set_size m b.1 (b.2 - k) in
  let m' := store64 (set_size m1 (taken b k).1 k) freep p.1 in
  heap m' brk (u ++ left_over b k l) (taken b k :: lv) /\ changes fl m m'.
Proof using All.
  intros Ek m1 m'. destruct take_nodes as (Hps & Hpp & Hbs & Hbp & Hu & Hl).
  destruct take_range as (Hb & Hsm & Hhd & Hp0). pose proof (h_free _ _ _ _ Hh) as Hfl.
  pose proof (inside_small brk b (proj2 (h_brk _ _ _ _ Hh)) Hb) as Hbsm.
  set (m2 := set_size m1 (taken b k).1 k).
  assert (forall x, ~ within b x -> mget m2 x = mget m x) as Hout.
  { intros x Hx. unfold m2, m1. rewrite !mget_set_size_out; [done|..];
      unfold header, taken, within, inside, bend, sizeof_Header in *; cbn in *; lia. }
  assert (forall c x, c ∈ u' ++ p :: l -> header c.1 x -> mget m2 x = mget m x) as Hm2.
  { intros c x Hc%take_apart Hx. apply Hout. unfold header, within in *. lia. }
  assert (s_size m2 b.1 = b.2 - k /\ s_ptr m2 b.1 = head_or l base) as [Hbs2 Hbp2].
  { destruct (fields_ext m1 m2 b.1) as [-> ->].
    - intros x Hx. apply mget_set_size_out. unfold header, taken, bend, sizeof_Header in *. cbn in *. lia.
    - unfold m1. rewrite s_ptr_set_size. split; [|done]. apply s_size_set_size.
      unfold small, bend, sizeof_Header in Hbsm. lia. }
  assert (linked m2 ((base, 0) :: u ++ (b.1, b.2 - k) :: l) base) as Hlk.
  { change ((base, 0) :: u ++ (b.1, b.2 - k) :: l) with (((base, 0) :: u) ++ (b.1, b.2 - k) :: l).
    rewrite Hp, <-app_assoc. apply linked_app. cbn. destruct (fields_ext m m2 p.1) as [-> ->].
    { intros x. apply Hm2. set_solver. }
    split_and!; try done.
    - eapply linked_ext; [|exact Hu]. intros c x Hc. apply Hm2. set_solver.
    - eapply linked_ext; [|exact Hl]. intros c x Hc. apply Hm2. set_solver. }
  assert (changes fl m m') as Hch.
  { intros x H1 H2. unfold m'. rewrite mget_store64_out by (unfold static in H1; lia).
    apply Hout. intros Hx. apply H2. exists b. split; [set_solver|done]. }
  assert (left_over b k l = (b.1, b.2 - k) :: l) as El by (unfold left_over; by rewrite (proj2 (Z.eqb_neq b.2 k))).
  split; [|done]. eapply take_heap; try done.
  - by apply mem_ok_store64, mem_ok_set_size, mem_ok_set_size, Hh.
  - rewrite El. eapply freep_links; [apply Hh| |done]. rewrite <-El. apply left_over_all; [done|].
    intros _. unfold inside, bend, sizeof_Header in *. cbn. lia.
  - etransitivity; [|apply (s_size_set_size m1 (taken b k).1 k); unfold small, bend, sizeof_Header in Hbsm; lia].
    apply fields_ext. intros x Hx. unfold m'. apply mget_store64_out. pose proof freep_pos.
    unfold inside, taken, header, bend, sizeof_Header in *. cbn in *. lia.
  - exists p. rewrite Hp. split; [set_solver|]. apply load64_store64. unfold small, bend, sizeof_Header in Hsm. lia.
Qed.
End take.

(** ** Growing the heap *)

Lemma heap_grow m m' brk fl lv n :
  heap m brk fl lv -> 1 <= n -> brk + sizeof_Header * n < 2 ^ 36 -> mem_ok m' ->
  (forall x, x < brk -> mget m' x = mget m x) ->
  heap (set_size m' brk n) (brk + sizeof_Header * n) fl ((brk, n) :: lv).
Proof using SOK.
  intros [Hm Hlk Hsp Hfl Hlv Hsz Hap Hdj (f & Hf & Ef) Hbrk] Hn Hmax Hm' Hx.
  assert (forall x, x < brk -> mget (set_size m' brk n) x = mget m x) as Hlow.
  { intros x Hlt. rewrite mget_set_size_out by (unfold header; lia). by apply Hx. }
  pose proof base_pos as Hbase. pose proof freep_pos as Hfp. unfold sizeof_Header in *.
  assert (forall b, inside brk b -> inside (brk + 16 * n) b /\ apart (brk, n) b) as Hin.
  { unfold inside, apart, bend, sizeof_Header. cbn. lia. }
  assert (forall l, Forall (inside brk) l -> Forall (inside (brk + 16 * n)) l /\ Forall (apart (brk, n)) l) as Hall.
  { intros l Hl. split; (eapply Forall_impl; [exact Hl|]); intros b Hb; by apply Hin. }
  split.
  - by apply mem_ok_set_size.
  - eapply linked_ext; [|exact Hlk]. intros c x Hc Hcx. apply Hlow.
    destruct (node_cases brk fl Hfl c Hc) as [->|[_ Hi]]; unfold inside, header, bend, sizeof_Header in *; cbn in *; lia.
  - done.
  - by apply Hall.
  - constructor; [unfold inside, bend, sizeof_Header; cbn; lia|by apply Hall].
  - constructor; [cbn; apply s_size_set_size; lia|].
    rewrite Forall_forall in Hsz, Hlv |- *. intros b Hb. rewrite <-(Hsz b Hb). apply fields_ext.
    intros x Hbx. apply Hlow. specialize (Hlv b Hb). unfold inside, header, bend, sizeof_Header in *. lia.
  - constructor; [by apply Hall|done].
  - split; [by apply Hall|done].
  - exists f. split; [done|]. rewrite <-Ef. apply load64_ext. intros x Hfx. apply Hlow. lia.
  - lia.
Qed.

(** The heap before the first call. *)
Lemma heap_start m brk :
  mem_ok m -> heap_lo <= brk < 2 ^ 36 ->
  heap (set_size (store64 (store64 m freep base) base base) base 0) brk [] [].
Proof using SOK.
  intros Hm Hbrk. pose proof base_pos. pose proof freep_pos. pose proof statics_apart. unfold sizeof_Header in *.
  split; try done.
  - by apply mem_ok_set_size, mem_ok_store64, mem_ok_store64.
  - cbn. split_and!; [by apply s_size_set_size| |done]. rewrite s_ptr_set_size. apply s_ptr_set_ptr. lia.
  - cbn. lia.
  - exists (base, 0). split; [by left|]. cbn. etransitivity; [|apply (load64_store64 m freep base); lia].
    apply load64_ext. intros x Hx. rewrite mget_set_size_out by (unfold header, sizeof_Header; lia).
    apply mget_store64_out. lia.
Qed.
End heap.

(** ** What the kernel promises about [sbrk]

    [brk s] is the size of the process and [avail s] how much it can grow:
    a larger request fails and changes nothing. *)
Definition quiet {OS} `{K : Kernel OS, !Streams OS} (s s' : OS) : Prop :=
  (forall f, output s' f = output s f) /\ (forall f, input s' f = input s f) /\
  same_streams readable writable s s'.

Class Sbrk (OS : Type) {K : Kernel OS} {STR : Streams OS} := {
  brk : OS -> Z;
  avail : OS -> Z;
  sbrk_grows : forall n m s, 0 <= n < 2 ^ 31 -> n <= avail s -> mem_ok m -> exists m' s',
    ecall SYS_sbrk [n; SBRK_EAGER] m s = Back (brk s) m' s' /\
    brk s' = brk s + n /\ avail s' = avail s - n /\ mem_ok m' /\
    (forall x, x < brk s -> mget m' x = mget m x) /\ quiet s s';
  sbrk_fails : forall n m s, avail s < n < 2 ^ 31 -> exists s',
    ecall SYS_sbrk [n; SBRK_EAGER] m s = Back SBRK_ERROR m s' /\
    brk s' = brk s /\ avail s' = avail s /\ quiet s s';
}.

Section rules.
Context {OS : Type} `{K : Kernel OS, STR : !Streams OS, SB : !Sbrk OS, STA : Statics, SOK : !StaticsOk, FUE : Fuel}.
Context (B : user OS -> Prop).

Lemma free_spec w brk fl l1 b l2 :
  heap w.(umem) brk fl (l1 ++ b :: l2) -> (length fl < fuel)%nat ->
  wpx B (free (b.1 + sizeof_Header)) (fun _ w' => w'.(usys) = w.(usys) /\
    exists fl', heap w'.(umem) brk fl' (l1 ++ l2) /\ given_back b fl fl' /\ changes (b :: fl) w.(umem) w'.(umem) /\
      load64 w'.(umem) freep <> 0) w.
Proof using SOK.
  intros Hh Hf. destruct (free_heap fuel _ _ _ _ _ _ Hh Hf) as (p & fl' & El & Hh' & Hg & Hc).
  assert (header_add (b.1 + sizeof_Header) (- 1) = b.1) as Eb.
  { pose proof (h_live _ _ _ _ Hh) as Hlv. apply Forall_app in Hlv as [_ [Hb _]%Forall_cons].
    apply (inside_small brk) in Hb; [|apply Hh]. unfold small, bend, sizeof_Header in *. rewrite header_add_small; lia. }
  unfold free. rewrite Eb. eapply from_mem_bind; [exact El|]. cbv beta. apply wpx_bind, wpx_modify. cbn [umem usys].
  apply wpx_bind, wpx_modify. cbn [umem usys]. apply wpx_modify. cbn [umem usys]. split; [done|]. exists fl'. split_and!; try done.
  destruct (h_freep _ _ _ _ Hh') as (f & Hfl & ->).
  apply (node_small brk) in Hfl; [unfold small in Hfl; lia|apply Hh'|apply Hh'].
Qed.

Lemma sbrk_rule n (Q : Z -> user OS -> Prop) w :
  0 <= n < 2 ^ 31 -> mem_ok w.(umem) ->
  (forall m' s', n <= avail w.(usys) -> brk s' = brk w.(usys) + n -> avail s' = avail w.(usys) - n -> mem_ok m' ->
     (forall x, x < brk w.(usys) -> mget m' x = mget w.(umem) x) -> quiet w.(usys) s' ->
     Q (brk w.(usys)) (User m' s')) ->
  (forall s', avail w.(usys) < n -> brk s' = brk w.(usys) -> avail s' = avail w.(usys) -> quiet w.(usys) s' ->
     Q SBRK_ERROR (User w.(umem) s')) ->
  wpx B (sbrk n) Q w.
Proof.
  intros Hn Hm H1 H2. destruct (decide (n <= avail w.(usys))) as [Ha|Ha].
  - destruct (sbrk_grows n w.(umem) w.(usys) Hn Ha Hm) as (m' & s' & E & Hb & Hav & Hm' & Hx & Hq).
    eapply run_wp; [unfold sbrk, sys_sbrk; by apply entry_back|]. by apply H1.
  - destruct (sbrk_fails n w.(umem) w.(usys)) as (s' & E & Hb & Hav & Hq); [lia|].
    eapply run_wp; [unfold sbrk, sys_sbrk; by apply entry_back|]. apply H2; [lia|done..].
Qed.

(** The units that [morecore] asks for. *)
Definition core_units (nu : Z) : Z := if nu <? 4096 then 4096 else nu.

(** Memory for a new block has been added, or there was none. *)
Definition grown (n : Z) (fl lv : list block) (w : user OS) (q : Z) (w' : user OS) : Prop :=
  let b := (brk w.(usys), n) in
  sizeof_Header * n <= avail w.(usys) /\ brk w'.(usys) = bend b /\
  avail w'.(usys) = avail w.(usys) - sizeof_Header * n /\
  q = load64 w'.(umem) freep /\ q <> 0 /\
  exists fl', heap w'.(umem) (brk w'.(usys)) fl' lv /\ given_back b fl fl' /\
    forall x, x < brk w.(usys) -> ~ static x -> ~ covers fl x -> mget w'.(umem) x = mget w.(umem) x.

Definition not_grown (n : Z) (w : user OS) (q : Z) (w' : user OS) : Prop :=
  avail w.(usys) < sizeof_Header * n /\ q = 0 /\ w'.(umem) = w.(umem) /\
  brk w'.(usys) = brk w.(usys) /\ avail w'.(usys) = avail w.(usys).

Lemma morecore_spec nu fl lv w :
  heap w.(umem) (brk w.(usys)) fl lv -> brk w.(usys) + avail w.(usys) < 2 ^ 36 ->
  1 <= nu -> sizeof_Header * core_units nu < 2 ^ 31 -> (length fl < fuel)%nat ->
  wpx B (morecore nu) (fun q w' => quiet w.(usys) w'.(usys) /\
    (grown (core_units nu) fl lv w q w' \/ not_grown (core_units nu) w q w')) w.
Proof using SOK.
  intros Hh Hmax Hnu Hn Hf. unfold morecore. fold (core_units nu).
  assert (1 <= core_units nu) as Hn1 by (unfold core_units; destruct (Z.ltb_spec nu 4096); lia).
  set (n := core_units nu) in *. rewrite (Z.mul_comm n), s32_small by (unfold sizeof_Header in *; lia).
  pose proof (h_brk _ _ _ _ Hh) as Hbrk. pose proof base_pos as Hbase.
  apply wpx_bind, sbrk_rule; [unfold sizeof_Header in *; lia|apply Hh| |].
  - intros m' s' Ha Hb Hav Hm' Hx Hq. rewrite (proj2 (Z.eqb_neq _ _)) by (unfold SBRK_ERROR; lia).
    apply wpx_bind, wpx_modify. cbn [umem usys].
    pose proof (heap_grow _ m' _ _ _ n Hh Hn1 ltac:(lia) Hm' Hx) as Hg.
    assert (header_add (brk w.(usys)) 1 = (brk w.(usys), n).1 + sizeof_Header) as E.
    { rewrite header_add_small; unfold sizeof_Header in *; cbn; lia. }
    rewrite E. eapply wpx_call; [apply (free_spec (User _ s') _ fl [] (brk w.(usys), n) lv Hg Hf)|].
    intros [] w' (Es & fl' & Hh' & Hgb & Hc & Hnz). apply wpx_gets. rewrite Es. cbn [umem usys].
    split; [done|]. left. split_and!; try done; [by rewrite Es|by rewrite Es|].
    exists fl'. rewrite Es. cbn [usys]. rewrite Hb. split_and!; try done.
    intros x H1 H2 H3. rewrite Hc; [|done|].
    + cbn [umem]. rewrite mget_set_size_out by (unfold header; lia). by apply Hx.
    + rewrite covers_cons. intros [Hw|Hw]; [unfold within in Hw; cbn in Hw; lia|done].
  - intros s' Ha Hb Hav Hq. rewrite Z.eqb_refl. apply wpx_ret. cbn [usys]. split; [done|]. by right.
Qed.

(** ** The search of [malloc] *)

(** The list seen from the block [f]: the blocks until it comes round. *)
Lemma rotate m brk fl lv f :
  heap m brk fl lv -> f ∈ (base, 0) :: fl ->
  exists t, linked m t f.1 /\ s_ptr m f.1 = head_or t f.1 /\ s_size m f.1 = f.2 /\
    (forall c, c ∈ t -> c ∈ (base, 0) :: fl /\ c.1 <> f.1) /\
    (forall c, c ∈ (base, 0) :: fl -> c ∈ t \/ c = f) /\ length t = length fl.
Proof.
  intros Hh Hf. pose proof (h_links _ _ _ _ Hh) as Hlk. pose proof (h_spread _ _ _ _ Hh) as Hsp.
  apply list_elem_of_split in Hf as (u & v & E). exists (v ++ u).
  assert (head_or u f.1 = base) as Hu by (destruct u; by injection E as <- _).
  assert (length (u ++ f :: v) = S (length fl)) as Hlen by (by rewrite <-E).
  rewrite E in *. apply linked_app in Hlk as [Hlu (Hs & Hp & Hlv)]. split_and!; try done.
  - apply linked_app. by rewrite Hu.
  - by rewrite head_or_app, Hu.
  - intros c Hc. split; [set_solver|]. intros Ec.
    assert (c ∈ u ++ v) as Hc' by set_solver. pose proof Hsp as Hsp'.
    apply elem_of_app in Hc' as [Hcu|Hcv].
    + apply list_elem_of_split in Hcu as (a & d & ->). rewrite <-app_assoc in Hsp. cbn [app] in Hsp.
      apply spread_app in Hsp as [Hs1 Hs2]. assert (f ∈ d ++ f :: v) as Hfd by set_solver.
      destruct (spread_above _ _ _ Hs2 Hfd). assert (0 <= c.2) by (apply (spread_above _ _ c Hs1); set_solver).
      unfold bend, sizeof_Header in *. lia.
    + apply spread_app in Hsp as [Hs1 Hs2]. destruct (spread_above _ _ _ Hs2 Hcv).
      assert (0 <= f.2) by (apply (spread_above _ _ f Hs1); set_solver). unfold bend, sizeof_Header in *. lia.
  - intros c Hc. set_solver.
  - rewrite length_app in *. simpl in *. lia.
Qed.

(** The rest of the search once it has come round to [f]. *)
Definition search_more (k : nat) (nunits : Z) : U OS Z :=
  p ← morecore nunits;
  if p =? 0 then mret 0 else next ← ld64 p; malloc_loop k nunits p next.

Lemma scan_rule nunits (nodes : list block) f t prev k (Q : Z -> user OS -> Prop) w :
  let m := w.(umem) in
  linked m t f.1 -> (forall c, c ∈ t -> c ∈ nodes /\ c.1 <> f.1) -> s_size m f.1 = f.2 -> f ∈ nodes ->
  load64 m freep = f.1 -> prev ∈ nodes -> s_ptr m prev.1 = head_or t f.1 -> (length t < k)%nat ->
  (forall p c, p ∈ nodes -> c ∈ nodes -> s_ptr m p.1 = c.1 -> nunits <= c.2 ->
     wpx B (take_block nunits p.1 c.1) Q w) ->
  ((forall c, c ∈ t -> c.2 < nunits) -> f.2 < nunits -> wpx B (search_more (k - S (length t)) nunits) Q w) ->
  wpx B (malloc_loop k nunits prev.1 (head_or t f.1)) Q w.
Proof.
  intros m. revert k prev. induction t as [|c t IH]; intros [|k] prev Hl Hn Hfs Hf Hfp Hp Hpp Hk Htake Hmore;
    try (simpl in Hk; lia); cbn [malloc_loop head_or].
  - apply wpx_bind, wpx_gets. fold m. change (load32 m (f.1 + 8)) with (s_size m f.1). rewrite Hfs.
    destruct (Z.leb_spec nunits f.2); [by apply Htake|]. apply wpx_bind, wpx_gets. fold m. rewrite Hfp, Z.eqb_refl.
    replace (S k - S (length ([] : list block)))%nat with k in Hmore by (simpl; lia).
    apply Hmore; [by intros ? ?%elem_of_nil|done].
  - destruct Hl as (Hcs & Hcp & Hl). destruct (Hn c ltac:(by left)) as [Hcn Hcf].
    apply wpx_bind, wpx_gets. fold m. change (load32 m (c.1 + 8)) with (s_size m c.1). rewrite Hcs.
    destruct (Z.leb_spec nunits c.2); [by apply Htake|]. apply wpx_bind, wpx_gets. fold m.
    rewrite Hfp, (proj2 (Z.eqb_neq _ _)) by done. apply wpx_bind, wpx_gets. fold m.
    change (load64 m c.1) with (s_ptr m c.1). rewrite Hcp.
    apply IH; try done; [|simpl in Hk; lia|].
    + intros d Hd. apply Hn. by right.
    + intros Ht. apply Hmore. intros d [->|Hd]%elem_of_cons; [done|by apply Ht].
Qed.

Lemma take_block_spec k brk fl lv p c w :
  heap w.(umem) brk fl lv -> p ∈ (base, 0) :: fl -> c ∈ (base, 0) :: fl ->
  s_ptr w.(umem) p.1 = c.1 -> 1 <= k <= c.2 ->
  wpx B (take_block k p.1 c.1) (fun r w' => w'.(usys) = w.(usys) /\
    exists u l, fl = u ++ c :: l /\ heap w'.(umem) brk (u ++ left_over c k l) (taken c k :: lv) /\
      changes fl w.(umem) w'.(umem) /\ r = (taken c k).1 + sizeof_Header) w.
Proof using SOK.
  intros Hh Hp Hc Epc Hk. pose proof (h_links _ _ _ _ Hh) as Hlk. pose proof (h_free _ _ _ _ Hh) as Hfl.
  assert (s_size w.(umem) c.1 = c.2) as Hcs by (by eapply linked_size).
  apply (node_cases brk fl Hfl) in Hc as [->|[Hc Hci]]; [cbn in Hk; lia|].
  pose proof (inside_small brk c (proj2 (h_brk _ _ _ _ Hh)) Hci) as Hsm.
  assert (exists u u' l, fl = u ++ c :: l /\ (base, 0) :: u = u' ++ [p]) as (u & u' & l & -> & Eu).
  { apply list_elem_of_split in Hp as (u' & v & E). rewrite E in Hlk. apply linked_app in Hlk as [_ (_ & Hpp & Hv)].
    rewrite Hpp in Epc. destruct v as [|d l]; cbn in Epc.
    { pose proof base_pos. unfold inside, sizeof_Header in *. lia. }
    assert (d = c) as -> by (destruct Hv as (Hds & _), d, c; cbn in *; congruence).
    destruct u' as [|e u']; injection E as <- ->.
    - by exists [], [], l.
    - exists (u' ++ [p]), ((base, 0) :: u'), l. by rewrite <-app_assoc. }
  assert (header_add (taken c k).1 1 = (taken c k).1 + sizeof_Header) as Eh.
  { unfold small, taken, bend, sizeof_Header in *. cbn in *. rewrite header_add_small; lia. }
  unfold take_block. apply wpx_bind, wpx_gets. change (load32 w.(umem) (c.1 + 8)) with (s_size w.(umem) c.1).
  rewrite Hcs. destruct (Z.eqb_spec c.2 k) as [Ek|Ek].
  - destruct (take_whole _ _ _ _ _ _ _ _ _ Hh Eu Hk Ek) as [Hh' Hch].
    apply wpx_bind, wpx_bind, wpx_modify. cbn [umem usys]. apply wpx_ret, wpx_bind, wpx_modify, wpx_ret. cbn [umem usys].
    split; [done|]. exists u, l. split_and!; try done. rewrite <-Eh. f_equal.
    unfold taken, bend, sizeof_Header. cbn. lia.
  - destruct (take_upper _ _ _ _ _ _ _ _ _ Hh Eu Hk Ek) as [Hh' Hch].
    assert (header_add c.1 (c.2 - k) = (taken c k).1) as Ea.
    { unfold small, taken, bend, sizeof_Header in *. cbn in *. rewrite header_add_small; lia. }
    apply wpx_bind, wpx_bind, wpx_modify. cbn [umem usys]. apply wpx_bind, wpx_gets. cbn [umem].
    change (load32 ?m (c.1 + 8)) with (s_size m c.1).
    rewrite (u32_small (c.2 - k)), s_size_set_size by (unfold small, bend, sizeof_Header in *; lia). rewrite Ea.
    apply wpx_bind, wpx_modify, wpx_ret, wpx_bind, wpx_modify, wpx_ret. cbn [umem usys].
    split; [done|]. by exists u, l.
Qed.
End rules.
