(* ===== verification/UmallocOk.v ===== *)
(** * The user-level allocator: what its callers get

    [malloc] and [free] against the invariant of UmallocSpec, and that
    [malloc] implements the interface of Heap. *)

From S2P Require Import Prelude Memory CString Sysproc User Ulib Heap Umalloc UmallocSpec.

(** The units for a request of [nbytes] bytes, with the header. *)
Definition units (nbytes : Z) : Z := (nbytes + 15) / 16 + 1.

Section malloc.
Context {OS : Type} `{K : Kernel OS, STR : !Streams OS, SB : !Sbrk OS, STA : Statics, SOK : !StaticsOk, FUE : Fuel}.

(** The bytes of live blocks and those outside the allocator are as before. *)
Definition preserved (lv : list block) (w w' : user OS) : Prop :=
  forall x, covers lv x \/ (x < heap_lo /\ ~ static x) -> mget w'.(umem) x = mget w.(umem) x.

(** A new live block [t] of [k] units, for the caller at [p]; there are at
    most [n] free blocks. *)
Definition served (k : Z) (n : nat) (lv : list block) (w : user OS) (p : Z) (w' : user OS) : Prop :=
  exists fl' t, p = t.1 + sizeof_Header /\ t.2 = k /\
    heap w'.(umem) (brk w'.(usys)) fl' (t :: lv) /\ (length fl' <= n)%nat /\
    preserved lv w w' /\ brk w'.(usys) + avail w'.(usys) = brk w.(usys) + avail w.(usys) /\
    avail w.(usys) - sizeof_Header * core_units k <= avail w'.(usys).

(** No block: no free one is large enough, and the kernel has no memory. *)
Definition refused (k : Z) (fl lv : list block) (w : user OS) (p : Z) (w' : user OS) : Prop :=
  p = 0 /\ (forall c, c ∈ fl -> c.2 < k) /\ avail w.(usys) < sizeof_Header * core_units k /\
  heap w'.(umem) (brk w'.(usys)) fl lv /\ preserved lv w w' /\
  brk w'.(usys) = brk w.(usys) /\ avail w'.(usys) = avail w.(usys).

Lemma preserved_trans lv w1 w2 w3 : preserved lv w1 w2 -> preserved lv w2 w3 -> preserved lv w1 w3.
Proof. intros H1 H2 x Hx. by rewrite H2, H1. Qed.

(** Such a byte is in use and not free. *)
Lemma byte_kept m b fl lv x :
  heap m b fl lv -> covers lv x \/ (x < heap_lo /\ ~ static x) -> x < b /\ ~ static x /\ ~ covers fl x.
Proof using SOK.
  intros [_ _ _ Hfl Hlv _ Hap _ _ Hb]. pose proof base_pos. pose proof freep_pos.
  rewrite Forall_forall in Hfl, Hlv, Hap. intros [(c & Hc & Hx)|[Hx Hs]].
  - destruct (Hlv c Hc) as (Hlo & _ & Hhi). specialize (Hap c Hc). rewrite Forall_forall in Hap.
    unfold static, header, within, sizeof_Header in *. split_and!; [lia..|].
    intros (d & Hd & Hdx). specialize (Hap d Hd). unfold apart, within in *. lia.
  - split_and!; [lia|done|]. intros (d & Hd & Hdx). destruct (Hfl d Hd) as (Hlo & _). unfold within in *. lia.
Qed.

Lemma changes_preserved b fl lv w w' :
  heap w.(umem) b fl lv -> changes fl w.(umem) w'.(umem) -> preserved lv w w'.
Proof using SOK. intros Hh Hc x Hx. destruct (byte_kept _ _ _ _ _ Hh Hx) as (_ & H1 & H2). by apply Hc. Qed.

Lemma grown_preserved b fl lv w w' :
  heap w.(umem) b fl lv ->
  (forall x, x < b -> ~ static x -> ~ covers fl x -> mget w'.(umem) x = mget w.(umem) x) -> preserved lv w w'.
Proof using SOK. intros Hh Hc x Hx. destruct (byte_kept _ _ _ _ _ Hh Hx) as (H0 & H1 & H2). by apply Hc. Qed.

Lemma quiet_refl (s : OS) : quiet s s.
Proof. split_and!; [done..|apply same_streams_refl]. Qed.

Lemma core_units_ge k : k <= core_units k.
Proof. unfold core_units. destruct (Z.ltb_spec k 4096); lia. Qed.

Lemma length_left_over u c k l : (length (u ++ left_over c k l) <= length (u ++ c :: l))%nat.
Proof. rewrite !length_app. unfold left_over. destruct (_ =? _); simpl; lia. Qed.

(** Taking a block that is there. *)
Lemma take_served B k fl lv p c w :
  heap w.(umem) (brk w.(usys)) fl lv -> p ∈ (base, 0) :: fl -> c ∈ (base, 0) :: fl ->
  s_ptr w.(umem) p.1 = c.1 -> 1 <= k <= c.2 ->
  wpx B (take_block k p.1 c.1) (fun r w' => w'.(usys) = w.(usys) /\ served k (length fl) lv w r w') w.
Proof using SOK.
  intros Hh Hp Hc Epc Hk. eapply wpx_mono; [by apply (take_block_spec B k (brk w.(usys)) fl lv)|].
  intros r w' (Es & u & l & -> & Hh' & Hch & ->). split; [done|].
  exists (u ++ left_over c k l), (taken c k). rewrite Es. pose proof (core_units_ge k).
  pose proof (length_left_over u c k l). split_and!; try done; try lia.
  - by eapply changes_preserved.
  - unfold sizeof_Header. lia.
Qed.

(** The second search, after the heap has grown, finds a block. *)
Lemma search_more_spec B n k fl lv w :
  heap w.(umem) (brk w.(usys)) fl lv -> brk w.(usys) + avail w.(usys) < 2 ^ 36 ->
  1 <= k -> sizeof_Header * core_units k < 2 ^ 31 -> (length fl < fuel)%nat -> (S (length fl) < n)%nat ->
  (forall c, c ∈ fl -> c.2 < k) ->
  wpx B (search_more n k) (fun p w' => quiet w.(usys) w'.(usys) /\ (served k (S (length fl)) lv w p w' \/ refused k fl lv w p w')) w.
Proof using SOK.
  intros Hh Hmax Hk Hn Hf Hlen Hno. unfold search_more.
  eapply wpx_call; [by apply (morecore_spec B k fl lv)|].
  intros q w1 [Hq [(Ha & Hb & Hav & Eq & Hq0 & fl' & Hh1 & Hgb & Hx)|(Ha & -> & Em & Hb & Hav)]].
  - rewrite (proj2 (Z.eqb_neq q 0)) by done. apply wpx_bind, wpx_gets. destruct (h_freep _ _ _ _ Hh1) as (f & Hf1 & Ef).
    destruct (rotate _ _ _ _ f Hh1 Hf1) as (t & Hl & Hfp & Hfs & Hin & Hall & Hlt).
    rewrite Eq, Ef. change (load64 w1.(umem) f.1) with (s_ptr w1.(umem) f.1). rewrite Hfp.
    pose proof (gb_length _ _ _ Hgb) as Hlen1.
    apply (scan_rule B k ((base, 0) :: fl') f t f); try done; [lia| |].
    + intros p c Hp Hc Epc Hkc. eapply wpx_mono; [by apply (take_served B k fl' lv)|].
      intros r w' (Es & fl2 & t2 & Hr & Ht2 & Hh2 & Hl2 & Hp2 & Hs2 & Hav2).
      rewrite Es in *. split; [done|]. left. exists fl2, t2.
      rewrite Es. split_and!; try done; try (unfold bend in *; cbn in *; lia).
      eapply preserved_trans; [by eapply grown_preserved|exact Hp2].
    + intros Hsmall Hfsmall. exfalso. destruct (gb_block _ _ _ Hgb) as (c & Hc & Hcn). cbn in Hcn.
      pose proof (core_units_ge k). destruct (Hall c) as [Hct| ->]; [by right|apply Hsmall in Hct; lia|lia].
  - apply wpx_ret. split; [done|]. right. unfold refused. rewrite Em, Hb. split_and!; try done.
    intros x _. by rewrite Em.
Qed.

(** The whole search. *)
Lemma malloc_search B k fl lv f w :
  heap w.(umem) (brk w.(usys)) fl lv -> brk w.(usys) + avail w.(usys) < 2 ^ 36 ->
  1 <= k -> sizeof_Header * core_units k < 2 ^ 31 -> (2 * length fl + 2 < fuel)%nat ->
  f ∈ (base, 0) :: fl -> load64 w.(umem) freep = f.1 ->
  wpx B (malloc_loop fuel k f.1 (s_ptr w.(umem) f.1)) (fun p w' => quiet w.(usys) w'.(usys) /\
    (served k (S (length fl)) lv w p w' \/ refused k fl lv w p w')) w.
Proof using SOK.
  intros Hh Hmax Hk Hn Hfuel Hf Ef.
  destruct (rotate _ _ _ _ f Hh Hf) as (t & Hl & Hfp & Hfs & Hin & Hall & Hlt). rewrite Hfp.
  apply (scan_rule B k ((base, 0) :: fl) f t f); try done; [lia| |].
  - intros p c Hp Hc Epc Hkc. eapply wpx_mono; [by apply (take_served B k fl lv)|].
    intros r w' [Es Hs]. rewrite Es. split; [apply quiet_refl|left].
    destruct Hs as (fl' & t' & H1 & H2 & H3 & H4 & H5). exists fl', t'.
    do 3 (split; [done|]). split; [lia|done].
  - intros Hsm Hfm. apply search_more_spec; try done; [lia..|]. intros c Hc.
    destruct (Hall c) as [Hct| ->]; [by right|by apply Hsm|done].
Qed.

(** The heap, before or after the first call. *)
Definition heap_or_new (w : user OS) (fl lv : list block) : Prop :=
  heap w.(umem) (brk w.(usys)) fl lv \/
  (load64 w.(umem) freep = 0 /\ fl = [] /\ lv = [] /\ mem_ok w.(umem) /\ heap_lo <= brk w.(usys) < 2 ^ 36).

Lemma malloc_spec B nbytes fl lv w :
  heap_or_new w fl lv -> brk w.(usys) + avail w.(usys) < 2 ^ 36 ->
  0 <= nbytes -> sizeof_Header * core_units (units nbytes) < 2 ^ 31 -> (2 * length fl + 2 < fuel)%nat ->
  wpx B (Umalloc.malloc nbytes) (fun p w' => quiet w.(usys) w'.(usys) /\
    (served (units nbytes) (S (length fl)) lv w p w' \/ refused (units nbytes) fl lv w p w')) w.
Proof using SOK.
  intros Hh Hmax Hnb Hn Hfuel.
  assert (1 <= units nbytes) as Hk by (unfold units; dlia).
  assert (u32 ((nbytes + sizeof_Header - 1) / sizeof_Header + 1) = units nbytes) as Eu.
  { unfold sizeof_Header. replace (nbytes + 16 - 1) with (nbytes + 15) by lia. apply u32_small. fold (units nbytes).
    pose proof (core_units_ge (units nbytes)). unfold sizeof_Header in *. lia. }
  unfold Umalloc.malloc. rewrite Eu. apply wpx_bind, wpx_gets. destruct Hh as [Hh|(E0 & -> & -> & Hm & Hb)].
  - destruct (h_freep _ _ _ _ Hh) as (f & Hf & Ef). rewrite Ef.
    assert (f.1 <> 0) as Hf0.
    { apply (node_small (brk w.(usys))) in Hf; [unfold small in Hf; lia|apply Hh|apply Hh]. }
    rewrite (proj2 (Z.eqb_neq _ _)) by done. apply wpx_bind, wpx_ret, wpx_bind, wpx_gets.
    by apply malloc_search.
  - rewrite E0. cbn [Z.eqb]. apply wpx_bind, wpx_bind, wpx_modify, wpx_bind, wpx_modify, wpx_bind, wpx_modify, wpx_ret.
    cbn [umem usys]. set (w1 := User _ w.(usys)). pose proof (heap_start w.(umem) (brk w.(usys)) Hm Hb) as Hh.
    apply wpx_bind, wpx_gets. destruct (h_freep _ _ _ _ Hh) as (f & Hf & Ef).
    apply list_elem_of_singleton in Hf as ->.
    eapply wpx_mono; [apply (malloc_search B (units nbytes) [] [] (base, 0) w1); try done; by left|].
    assert (preserved [] w w1) as Hp.
    { intros x [(c & Hc%elem_of_nil & _)|[Hx Hs]]; [done|]. unfold w1. cbn [umem]. unfold static in Hs.
      rewrite mget_set_size_out, !mget_store64_out; [done|..]; unfold header, sizeof_Header in *; try lia; tauto. }
    intros p w' [Hq [(fl' & t & H1 & H2 & H3 & H4 & H5 & H6)|(H1 & H2 & H3 & H4 & H5 & H6)]]; (split; [done|]).
    + left. exists fl', t. split_and!; try done; [by eapply preserved_trans|apply H6..].
    + right. split_and!; try done; [by eapply preserved_trans|apply H6..].
Qed.

(** ** The interface of Heap *)

#[export] Instance umalloc : Malloc OS := Umalloc.malloc.

(** The block [b] of a caller is the part of the live block [t] after its
    header. *)
Definition lends (b : Z * Z) (t : block) : Prop :=
  b.1 = t.1 + sizeof_Header /\ 0 <= b.2 /\ b.1 + b.2 <= bend t.

Definition owned (x : Z) : Prop := static x \/ heap_lo <= x.

(** Every further request may need a new piece of heap and leave one more
    free block. *)
Definition umalloc_arena (n : nat) (bs : list (Z * Z)) (w : user OS) : Prop :=
  exists fl lv, heap_or_new w fl lv /\ Forall2 lends bs lv /\
    brk w.(usys) + avail w.(usys) < 2 ^ 36 /\ 65536 * Z.of_nat n <= avail w.(usys) /\
    (2 * (length fl + n) + 2 < fuel)%nat.

Lemma lends_covers bs lv x : Forall2 lends bs lv -> in_blocks bs x -> covers lv x.
Proof.
  intros Hl (b & Hb & Hx). apply list_elem_of_lookup in Hb as [i Hi].
  destruct (Forall2_lookup_l _ _ _ _ _ Hl Hi) as (t & Ht & H1 & H2 & H3).
  exists t. split; [by eapply list_elem_of_lookup_2|]. unfold in_block, within, sizeof_Header in *. lia.
Qed.

(** No block that is lent out has a byte of a header. *)
Lemma lends_header m b fl bs lv t x :
  heap m b fl lv -> Forall2 lends bs lv -> t ∈ lv -> header t.1 x -> ~ in_blocks bs x.
Proof.
  intros Hh Hl Ht Hx (b0 & Hb & Hbx). apply list_elem_of_lookup in Hb as [i Hi].
  destruct (Forall2_lookup_l _ _ _ _ _ Hl Hi) as (t' & Ht' & H1 & H2 & H3).
  apply list_elem_of_lookup in Ht as [j Hj]. destruct (decide (i = j)) as [->|Hij].
  { assert (t' = t) as -> by congruence. unfold in_block, header in *. lia. }
  assert (apart t t') as Ha.
  { pose proof (h_disjoint _ _ _ _ Hh) as Hd. clear -Hd Ht' Hj Hij. revert i j Ht' Hj Hij.
    induction lv as [|c lv IH]; [done|]. destruct Hd as [Hc Hd]. rewrite Forall_forall in Hc.
    intros [|i] [|j] Hi Hj Hij; cbn in *; try done; simplify_eq.
    - apply apart_sym, Hc. by eapply list_elem_of_lookup_2.
    - apply Hc. by eapply list_elem_of_lookup_2.
    - eapply IH; [done|exact Hi|exact Hj|lia]. }
  pose proof (h_live _ _ _ _ Hh) as Hlv. rewrite Forall_forall in Hlv.
  destruct (Hlv t ltac:(by eapply list_elem_of_lookup_2)) as (_ & Ht1 & _).
  unfold in_block, header, apart, bend, sizeof_Header in *. lia.
Qed.

(** The invariant depends on the statics and the headers only. *)
Lemma heap_ext m m' b fl lv :
  heap m b fl lv -> mem_ok m' ->
  (forall x, static x \/ (exists t, t ∈ fl ++ lv /\ header t.1 x) -> mget m' x = mget m x) -> heap m' b fl lv.
Proof.
  intros [Hm Hlk Hsp Hfl Hlv Hsz Hap Hdj (f & Hf & Ef) Hb] Hm' Hx. split; try done.
  - eapply linked_ext; [|exact Hlk]. intros c x [->|Hc]%elem_of_cons Hcx; apply Hx; [left; by left|].
    right. exists c. split; [set_solver|done].
  - rewrite Forall_forall in *. intros t Ht. rewrite <-(Hsz t Ht). apply fields_ext. intros x Htx. apply Hx.
    right. exists t. split; [set_solver|done].
  - exists f. split; [done|]. rewrite <-Ef. apply load64_ext. intros x Hfx. apply Hx. left. right. lia.
Qed.

Lemma umalloc_arena_ext n bs m m' s :
  umalloc_arena n bs (User m s) -> mem_ok m' ->
  (forall x, owned x -> ~ in_blocks bs x -> mget m' x = mget m x) -> umalloc_arena n bs (User m' s).
Proof using SOK.
  intros (fl & lv & Hh & Hl & Hr) Hm' Hx. exists fl, lv. split_and!; try done; try apply Hr. cbn [usys umem] in *.
  pose proof base_pos as Hbase. pose proof freep_pos as Hfp. unfold sizeof_Header in Hbase.
  destruct Hh as [Hh|(E0 & -> & -> & Hm & Hb)]; cbn [usys umem] in *.
  - left. cbn. eapply heap_ext; [exact Hh|done|]. intros x [Hs|(t & [Ht|Ht]%elem_of_app & Htx)]; apply Hx.
    + by left.
    + intros Hin%(lends_covers _ _ _ Hl). destruct (byte_kept _ _ _ _ x Hh) as (_ & Hns & _); [by left|done].
    + right. pose proof (h_free _ _ _ _ Hh) as Hfl. rewrite Forall_forall in Hfl. destruct (Hfl t Ht) as (Hlo & _).
      unfold header in *. lia.
    + intros Hin%(lends_covers _ _ _ Hl). destruct (byte_kept _ _ _ _ x Hh) as (_ & _ & Hnc); [by left|].
      apply Hnc. exists t. split; [done|]. pose proof (h_free _ _ _ _ Hh) as Hfl. rewrite Forall_forall in Hfl.
      eapply header_within; [by apply Hfl|done].
    + right. pose proof (h_live _ _ _ _ Hh) as Hlv. rewrite Forall_forall in Hlv. destruct (Hlv t Ht) as (Hlo & _).
      unfold header in *. lia.
    + by eapply lends_header.
  - right. cbn. split_and!; try done; try lia. rewrite <-E0. apply load64_ext. intros x Hfx. apply Hx.
    + left. right. lia.
    + apply Forall2_nil_inv_r in Hl as ->. by intros (? & ?%elem_of_nil & _).
Qed.

Lemma heap_or_new_kept w fl lv x :
  heap_or_new w fl lv -> covers lv x -> owned x.
Proof using SOK.
  intros [Hh|(_ & _ & -> & _)] (t & Ht & Hx); [|by apply elem_of_nil in Ht].
  pose proof (h_live _ _ _ _ Hh) as Hlv. rewrite Forall_forall in Hlv. destruct (Hlv t Ht) as (Hlo & _).
  right. unfold within in Hx. lia.
Qed.

Lemma small_units size : 0 < size <= 4096 -> core_units (units size) = 4096 /\ size <= 16 * (units size - 1).
Proof.
  intros Hs. unfold core_units. destruct (Z.ltb_spec (units size) 4096) as [H|H]; unfold units in *; split; try done; dlia.
Qed.

Lemma umalloc_ok B n bs size w :
  umalloc_arena (S n) bs w -> 0 < size <= 4096 ->
  wpx B (Heap.malloc size) (fun p w' =>
    p <> 0 /\ 0 <= p /\ p + size < 2 ^ 64 /\ umalloc_arena n ((p, size) :: bs) w' /\
    (forall x, in_block (p, size) x -> owned x /\ ~ in_blocks bs x) /\
    (forall x, ~ owned x \/ in_blocks bs x -> mget w'.(umem) x = mget w.(umem) x) /\
    (forall f, output w'.(usys) f = output w.(usys) f) /\
    same_streams readable writable w.(usys) w'.(usys)) w.
Proof using SOK.
  intros (fl & lv & Hh & Hl & Hmax & Hav & Hfuel) Hs. destruct (small_units size Hs) as [Ec Hsize].
  eapply wpx_mono; [apply (malloc_spec B size fl lv w Hh Hmax)|].
  { lia. } { rewrite Ec. unfold sizeof_Header. lia. } { lia. }
  intros p w' [(Ho & Hi & Hss) [(fl' & t & -> & Et & Hh' & Hlen & Hp & Hsum & Hav')|(_ & _ & Hno & _)]];
    [|rewrite Ec in Hno; unfold sizeof_Header in Hno; lia].
  rewrite Ec in Hav'. pose proof (h_live _ _ _ _ Hh') as Hlv. apply Forall_cons in Hlv as [Ht _].
  pose proof (h_brk _ _ _ _ Hh') as Hbrk. pose proof (h_disjoint _ _ _ _ Hh') as [Hd _]. pose proof base_pos as Hbase.
  assert (t.1 + sizeof_Header + size <= bend t) as Hfit by (unfold bend, sizeof_Header; lia).
  assert (0 < t.1) by (unfold inside, sizeof_Header in *; lia).
  assert (bend t < 2 ^ 36) by (unfold inside in Ht; lia).
  split_and!; try done; try (unfold sizeof_Header in *; lia).
  - exists fl', (t :: lv). split_and!; [by left| |lia|unfold sizeof_Header in *; lia|lia].
    constructor; [|done]. unfold lends. cbn. lia.
  - intros x Hx. unfold in_block in Hx. cbn in Hx. split.
    + right. unfold inside, sizeof_Header in *. lia.
    + intros (c & Hc & Hcx)%(lends_covers _ _ _ Hl). rewrite Forall_forall in Hd. specialize (Hd c Hc).
      unfold apart, within, sizeof_Header in *. lia.
  - intros x [Hx|Hx]; apply Hp; [right|left; by eapply lends_covers].
    unfold owned in Hx. split; [lia|tauto].
Qed.

#[export] Instance umalloc_MallocOk : MallocOk OS.
Proof using SOK SB.
  refine {| private := owned; arena := umalloc_arena |}.
  - apply umalloc_arena_ext.
  - intros n bs w (fl & lv & Hh & Hl & Hmax & Hav & Hf). exists fl, lv. split_and!; try done; lia.
  - intros n bs w x (fl & lv & Hh & Hl & _) Hx. eapply heap_or_new_kept; [exact Hh|]. by eapply lends_covers.
  - intros n bs w (fl & lv & [Hh|(_ & _ & _ & Hm & _)] & _); [apply Hh|done].
  - apply umalloc_ok.
Defined.
End malloc.

(** ** The properties *)

(** C8: [malloc] with the heap in order, for any request whose size in
    bytes fits an [int]: it returns a block of that many units that overlaps
    no other block, changes no byte of a live block and nothing outside the
    allocator, and keeps the heap in order (free list in address order, no
    two free blocks touching); it returns 0 only if no free block is large
    enough and the kernel cannot give more memory, and then nothing changes. *)
Theorem malloc_correct {OS}
    `{K : Kernel OS, !Streams OS, !Sbrk OS, Statics, !StaticsOk, Fuel} nbytes fl lv w :
  heap_or_new w fl lv -> brk w.(usys) + avail w.(usys) < 2 ^ 36 ->
  0 <= nbytes -> sizeof_Header * core_units (units nbytes) < 2 ^ 31 -> (2 * length fl + 2 < fuel)%nat ->
  wp (Umalloc.malloc nbytes) (fun p w' => quiet w.(usys) w'.(usys) /\
    (served (units nbytes) (S (length fl)) lv w p w' \/ refused (units nbytes) fl lv w p w')) w.
Proof. apply malloc_spec. Qed.

(** C16: [free] of a live block: the free memory grows by exactly the bytes
    of that block, joined with its neighbours, no byte of another live block
    or outside the allocator changes, and the heap is in order. *)
Theorem free_correct {OS}
    `{K : Kernel OS, !Streams OS, !Sbrk OS, Statics, !StaticsOk, Fuel} fl l1 b l2 w :
  heap w.(umem) (brk w.(usys)) fl (l1 ++ b :: l2) -> (length fl < fuel)%nat ->
  wp (free (b.1 + sizeof_Header)) (fun _ w' => w'.(usys) = w.(usys) /\ preserved (l1 ++ l2) w w' /\
    exists fl', heap w'.(umem) (brk w'.(usys)) fl' (l1 ++ l2) /\
      forall x, covers fl' x <-> within b x \/ covers fl x) w.
Proof.
  intros Hh Hf. eapply wpx_mono; [by apply (free_spec _ _ _ fl l1 b l2 Hh Hf)|].
  intros [] w' (Es & fl' & Hh' & Hg & Hc & _). split; [done|]. split.
  - intros x Hx. apply Hc.
    + apply (byte_kept _ _ _ _ x Hh' Hx).
    + rewrite covers_cons. intros Hcx. apply (byte_kept _ _ _ _ x Hh' Hx). by apply Hg.
  - exists fl'. rewrite Es. split; [done|apply Hg].
Qed.

(** ** Examples *)

#[export] Instance tape_sbrk : Sbrk tape.
Proof.
  refine {| brk := t_brk; avail := t_room |}.
  - intros n m s Hn Ha Hm. eexists m, _. unfold ecall, tape_kernel. rewrite (proj2 (Z.leb_le _ _)) by done. cbn.
    split_and!; try done.
  - intros n m s Ha. exists s. unfold ecall, tape_kernel. rewrite (proj2 (Z.leb_gt _ _)) by lia. cbn.
    split_and!; try done.
Defined.

Definition demo_statics : Statics := {| base := 4096; freep := 4112 |}.
#[local] Existing Instances demo_slots demo_fuel demo_statics.
#[export] Instance demo_statics_ok : StaticsOk.
Proof. refine {| heap_lo := 8192 |}; unfold base, freep, demo_statics, sizeof_Header; lia. Defined.

Lemma malloc_correct_witness :
  exists p w', Umalloc.malloc 100 (demo_user [] []) = Ret p w' /\ p = 73616.
Proof.
  destruct (fun a b c d e => wp_run _ _ _ (malloc_correct 100 [] [] (demo_user [] []) a b c d e))
    as (p & w' & E & _).
  - right. cbn. split_and!; try done.
  - done.
  - lia.
  - done.
  - unfold fuel, demo_fuel. simpl. lia.
  - exists p, w'. split; [done|]. revert E. vm_compute. congruence.
Defined.

(** A heap with one live block of 8 units. *)
Definition demo_memory : memory := set_size (store64 (store64 ∅ freep base) base base) base 0.
Definition demo_heap : user tape := User (set_size demo_memory 8192 8) (Tape ∅ ∅ 2 8320 1048576).

Lemma demo_heap_ok : heap demo_heap.(umem) (brk demo_heap.(usys)) [] [(8192, 8)].
Proof.
  assert (heap demo_memory 8192 [] []) as Hs by (apply heap_start; [apply mem_ok_empty|done]).
  apply (heap_grow demo_memory demo_memory 8192 [] [] 8 Hs); [lia|done|apply Hs|done].
Qed.

Lemma free_correct_witness :
  exists w' fl', free 8208 demo_heap = Ret tt w' /\ heap w'.(umem) 8320 fl' [] /\ covers fl' 8192.
Proof.
  destruct (fun a b => wp_run _ _ _ (free_correct [] [] (8192, 8) [] demo_heap a b)) as ([] & w' & E & Es & _ & fl' & Hh & Hc).
  - apply demo_heap_ok.
  - unfold fuel, demo_fuel. simpl. lia.
  - exists w', fl'. split; [exact E|]. rewrite Es in Hh. split; [exact Hh|]. apply Hc. by left.
Defined.

(** A request for almost 4 GiB: the size in bytes does not fit the [int] of
    [sbrk], and [malloc] returns the address of a block of which the process
    has 16 bytes. *)
Lemma malloc_size_overflow :
  exists p w', Umalloc.malloc (2 ^ 32 - 1) (demo_user [] []) = Ret p w' /\ p = 8208 /\ t_brk w'.(usys) = 8208.
Proof. eexists _, _. split; [vm_compute; reflexivity|]. by vm_compute. Qed.
