(* ===== verification/Sh.v ===== *)
(** * The shell: user/sh.c

    The parser builds the command as a tree of structs in the heap, with
    pointers into the line; [nulterminate] then cuts the line into strings.
    Structs are laid out in the byte memory as the compiler does it.  An
    argument [char **ps] is the address of a local of a caller: the
    functions take the pointer and return it changed; likewise the results
    through [q] and [eq]. *)

From S2P Require Import Prelude Memory CString Sysfile User Ulib Uprintf Utils Heap.

Definition EXEC : Z := 1.
Definition REDIR : Z := 2.
Definition PIPE : Z := 3.
Definition LIST : Z := 4.
Definition BACK : Z := 5.

Definition MAXARGS : nat := 10.

(** ** Layout of the structs *)

(** struct execcmd: [type], [argv], [eargv] *)
Definition argv_off (i : nat) : Z := 8 + 8 * Z.of_nat i.
Definition eargv_off (i : nat) : Z := 88 + 8 * Z.of_nat i.
Definition execcmd_size : Z := 168.
(** struct redircmd: [type], [cmd], [file], [efile], [mode], [fd] *)
Definition redircmd_size : Z := 40.
(** struct pipecmd and listcmd: [type], [left], [right] *)
Definition pipecmd_size : Z := 24.
(** struct backcmd: [type], [cmd] *)
Definition backcmd_size : Z := 16.

(** ** The lexical part *)

Definition whitespace : list Z := [ch " "; ch "009"; ch "013"; ch "010"; ch "011"].
Definition symbols : list Z := chars "<|>&;()".

(** [while(s < es && strchr(whitespace, *s)) s++;] *)
Fixpoint skip_space (k : nat) (m : memory) (s es : Z) : option Z :=
  match k with
  | O => None
  | S k =>
      if (s <? es) && strchr_lit whitespace (mget m s) then skip_space k m (s + 1) es
      else Some s
  end.

(** [while(s < es && !strchr(whitespace, *s) && !strchr(symbols, *s)) s++;] *)
Fixpoint skip_word (k : nat) (m : memory) (s es : Z) : option Z :=
  match k with
  | O => None
  | S k =>
      if (s <? es) && negb (strchr_lit whitespace (mget m s)) && negb (strchr_lit symbols (mget m s))
      then skip_word k m (s + 1) es
      else Some s
  end.

(** [gettoken]: the token, [*q], [*eq] and [*ps]. *)
Definition gettoken_mem (k : nat) (m : memory) (ps es : Z) : option (Z * Z * Z * Z) :=
  s ← skip_space k m ps es;
  let q := s in
  let c := mget m s in
  '(ret, s) ←
    (if c =? 0 then Some (c, s)
     else if (c =? ch "|") || (c =? ch "(") || (c =? ch ")") || (c =? ch ";") || (c =? ch "&") || (c =? ch "<")
     then Some (c, s + 1)
     else if c =? ch ">" then
       if mget m (s + 1) =? ch ">" then Some (ch "+", s + 2) else Some (c, s + 1)
     else s ← skip_word k m s es; Some (ch "a", s));
  let eq := s in
  s ← skip_space k m s es;
  Some (ret, q, eq, s).

(** [peek]: whether the next character is one of [toks], and [*ps]. *)
Definition peek_mem (k : nat) (m : memory) (ps es : Z) (toks : list Z) : option (bool * Z) :=
  s ← skip_space k m ps es;
  Some (ztrue (mget m s) && strchr_lit toks (mget m s), s).

Section sh.
Context {OS : Type} `{Kernel OS, Slots, Fuel, Literals, Malloc OS}.

Definition gettoken (ps es : Z) : U OS (Z * Z * Z * Z) := from_mem (fun m => gettoken_mem fuel m ps es).
Definition peek (ps es : Z) (toks : string) : U OS (bool * Z) :=
  from_mem (fun m => peek_mem fuel m ps es (chars toks)).

Definition panic {A} (s : string) : U OS A :=
  fprintf 2 (line "%s") [lit (chars s)];;
  exit 1.

(** ** Constructors *)

Definition execcmd : U OS Z :=
  cmd ← malloc execcmd_size;
  memset cmd 0 execcmd_size;;
  st32 cmd EXEC;;
  mret cmd.

Definition redircmd (subcmd file efile mode fd : Z) : U OS Z :=
  cmd ← malloc redircmd_size;
  memset cmd 0 redircmd_size;;
  st32 cmd REDIR;;
  st64 (cmd + 8) subcmd;;
  st64 (cmd + 16) file;;
  st64 (cmd + 24) efile;;
  st32 (cmd + 32) mode;;
  st32 (cmd + 36) fd;;
  mret cmd.

Definition pipecmd (lcmd rcmd : Z) : U OS Z :=
  cmd ← malloc pipecmd_size;
  memset cmd 0 pipecmd_size;;
  st32 cmd PIPE;;
  st64 (cmd + 8) lcmd;;
  st64 (cmd + 16) rcmd;;
  mret cmd.

Definition listcmd (lcmd rcmd : Z) : U OS Z :=
  cmd ← malloc pipecmd_size;
  memset cmd 0 pipecmd_size;;
  st32 cmd LIST;;
  st64 (cmd + 8) lcmd;;
  st64 (cmd + 16) rcmd;;
  mret cmd.

Definition backcmd (subcmd : Z) : U OS Z :=
  cmd ← malloc backcmd_size;
  memset cmd 0 backcmd_size;;
  st32 cmd BACK;;
  st64 (cmd + 8) subcmd;;
  mret cmd.

(** ** The parser: each function returns the command and [*ps] *)

Fixpoint parseredirs (k : nat) (cmd ps es : Z) : U OS (Z * Z) :=
  match k with
  | O => no_fuel
  | S k =>
      '(more, ps) ← peek ps es "<>";
      if more : bool then
        '(tok, _, _, ps) ← gettoken ps es;
        '(t, q, eq, ps) ← gettoken ps es;
        if negb (t =? ch "a") then panic "missing file for redirection"
        else
          cmd ← (if tok =? ch "<" then redircmd cmd q eq O_RDONLY 0
                 else if tok =? ch ">" then
                   redircmd cmd q eq (Z.lor (Z.lor O_WRONLY O_CREATE) O_TRUNC) 1
                 else if tok =? ch "+" then redircmd cmd q eq (Z.lor O_WRONLY O_CREATE) 1
                 else mret cmd);
          parseredirs k cmd ps es
      else mret (cmd, ps)
  end.

(** The loop of [parseexec] over the arguments. *)
Fixpoint parseargs (k : nat) (cmd ret : Z) (argc : nat) (ps es : Z) : U OS (Z * nat * Z) :=
  match k with
  | O => no_fuel
  | S k =>
      '(stop, ps) ← peek ps es "|)&;";
      if stop : bool then mret (ret, argc, ps)
      else
        '(tok, q, eq, ps) ← gettoken ps es;
        if tok =? 0 then mret (ret, argc, ps)
        else if negb (tok =? ch "a") then panic "syntax"
        else
          st64 (cmd + argv_off argc) q;;
          st64 (cmd + eargv_off argc) eq;;
          let argc := (argc + 1)%nat in
          if (MAXARGS <=? argc)%nat then panic "too many args"
          else
            '(ret, ps) ← parseredirs fuel ret ps es;
            parseargs k cmd ret argc ps es
  end.

(** [parseexec] of a command that does not start with a parenthesis. *)
Definition parsesimple (ps es : Z) : U OS (Z * Z) :=
  ret ← execcmd;
  let cmd := ret in
  '(ret, ps) ← parseredirs fuel ret ps es;
  '(ret, argc, ps) ← parseargs fuel cmd ret 0 ps es;
  st64 (cmd + argv_off argc) 0;;
  st64 (cmd + eargv_off argc) 0;;
  mret (ret, ps).

(** [while(peek(ps, es, AMP)){ gettoken(ps, es, 0, 0); cmd = backcmd(cmd); }] *)
Fixpoint parsebacks (k : nat) (cmd ps es : Z) : U OS (Z * Z) :=
  match k with
  | O => no_fuel
  | S k =>
      '(more, ps) ← peek ps es "&";
      if more : bool then
        '(_, _, _, ps) ← gettoken ps es;
        cmd ← backcmd cmd;
        parsebacks k cmd ps es
      else mret (cmd, ps)
  end.

Fixpoint parseline (k : nat) (ps es : Z) {struct k} : U OS (Z * Z) :=
  match k with
  | O => no_fuel
  | S k =>
      '(cmd, ps) ← parsepipe k ps es;
      '(cmd, ps) ← parsebacks fuel cmd ps es;
      '(more, ps) ← peek ps es ";";
      if more : bool then
        '(_, _, _, ps) ← gettoken ps es;
        '(rcmd, ps) ← parseline k ps es;
        cmd ← listcmd cmd rcmd;
        mret (cmd, ps)
      else mret (cmd, ps)
  end
with parsepipe (k : nat) (ps es : Z) {struct k} : U OS (Z * Z) :=
  match k with
  | O => no_fuel
  | S k =>
      '(cmd, ps) ← parseexec k ps es;
      '(more, ps) ← peek ps es "|";
      if more : bool then
        '(_, _, _, ps) ← gettoken ps es;
        '(rcmd, ps) ← parsepipe k ps es;
        cmd ← pipecmd cmd rcmd;
        mret (cmd, ps)
      else mret (cmd, ps)
  end
with parseblock (k : nat) (ps es : Z) {struct k} : U OS (Z * Z) :=
  match k with
  | O => no_fuel
  | S k =>
      '(open, ps) ← peek ps es "(";
      if negb open then panic "parseblock"
      else
        '(_, _, _, ps) ← gettoken ps es;
        '(cmd, ps) ← parseline k ps es;
        '(close, ps) ← peek ps es ")";
        if negb close then panic "syntax - missing )"
        else
          '(_, _, _, ps) ← gettoken ps es;
          parseredirs fuel cmd ps es
  end
with parseexec (k : nat) (ps es : Z) {struct k} : U OS (Z * Z) :=
  match k with
  | O => no_fuel
  | S k =>
      '(block, ps) ← peek ps es "(";
      if block : bool then parseblock k ps es else parsesimple ps es
  end.

(** [for(i=0; ecmd->argv[i]; i++) *ecmd->eargv[i] = 0;] *)
Fixpoint nul_args (k : nat) (ecmd : Z) (i : nat) : U OS unit :=
  match k with
  | O => no_fuel
  | S k =>
      a ← ld64 (ecmd + argv_off i);
      if ztrue a then
        e ← ld64 (ecmd + eargv_off i);
        st e 0;;
        nul_args k ecmd (i + 1)
      else mret tt
  end.

Fixpoint nulterminate (k : nat) (cmd : Z) : U OS Z :=
  match k with
  | O => no_fuel
  | S k =>
      if cmd =? 0 then mret 0
      else
        type ← ld32 cmd;
        (if type =? EXEC then nul_args fuel cmd 0
         else if type =? REDIR then
           c ← ld64 (cmd + 8);
           nulterminate k c;;
           e ← ld64 (cmd + 24);
           st e 0
         else if type =? PIPE then
           l ← ld64 (cmd + 8);
           nulterminate k l;;
           r ← ld64 (cmd + 16);
           nulterminate k r;;
           mret tt
         else if type =? LIST then
           l ← ld64 (cmd + 8);
           nulterminate k l;;
           r ← ld64 (cmd + 16);
           nulterminate k r;;
           mret tt
         else if type =? BACK then
           c ← ld64 (cmd + 8);
           nulterminate k c;;
           mret tt
         else mret tt);;
        mret cmd
  end.

Definition parsecmd (s : Z) : U OS Z :=
  n ← strlen s;
  let es := s + n in
  '(cmd, s) ← parseline fuel s es;
  '(_, s) ← peek s es "";
  if negb (s =? es) then
    fprintf 2 (line "leftovers: %s") [s];;
    panic "syntax"
  else
    nulterminate fuel cmd;;
    mret cmd.

(** ** Running commands *)

Definition fork1 : U OS Z :=
  pid ← fork;
  if pid =? -1 then panic "fork" else mret pid.

(** [p] is the address of the local array [int p[2]]. *)
Fixpoint runcmd (k : nat) (p cmd : Z) : U OS unit :=
  match k with
  | O => no_fuel
  | S k =>
      if cmd =? 0 then exit 1
      else
        type ← ld32 cmd;
        (if type =? EXEC then
           a ← ld64 (cmd + argv_off 0);
           if a =? 0 then exit 1
           else
             exec a (cmd + argv_off 0);;
             a ← ld64 (cmd + argv_off 0);
             fprintf 2 (line "exec %s failed") [a]
         else if type =? REDIR then
           fd ← ld32 (cmd + 36);
           close (s32 fd);;
           file ← ld64 (cmd + 16);
           mode ← ld32 (cmd + 32);
           r ← open file (s32 mode);
           if r <? 0 then
             file ← ld64 (cmd + 16);
             fprintf 2 (line "open %s failed") [file];;
             exit 1
           else
             c ← ld64 (cmd + 8);
             runcmd k p c
         else if type =? LIST then
           pid ← fork1;
           (if pid =? 0 then l ← ld64 (cmd + 8); runcmd k p l else mret tt);;
           wait 0;;
           r ← ld64 (cmd + 16);
           runcmd k p r
         else if type =? PIPE then
           r ← pipe p;
           (if r <? 0 then panic "pipe" else mret tt);;
           pid ← fork1;
           (if pid =? 0 then
              close 1;;
              p1 ← ld32 (p + 4);
              dup (s32 p1);;
              p0 ← ld32 p;
              close (s32 p0);;
              p1 ← ld32 (p + 4);
              close (s32 p1);;
              l ← ld64 (cmd + 8);
              runcmd k p l
            else mret tt);;
           pid ← fork1;
           (if pid =? 0 then
              close 0;;
              p0 ← ld32 p;
              dup (s32 p0);;
              p0 ← ld32 p;
              close (s32 p0);;
              p1 ← ld32 (p + 4);
              close (s32 p1);;
              r ← ld64 (cmd + 16);
              runcmd k p r
            else mret tt);;
           p0 ← ld32 p;
           close (s32 p0);;
           p1 ← ld32 (p + 4);
           close (s32 p1);;
           wait 0;;
           wait 0;;
           mret tt
         else if type =? BACK then
           pid ← fork1;
           if pid =? 0 then c ← ld64 (cmd + 8); runcmd k p c else mret tt
         else panic "runcmd");;
        exit 0
  end.

Definition getcmd (buf nbuf : Z) : U OS Z :=
  write 2 (lit (chars "$ ")) 2;;
  memset buf 0 nbuf;;
  gets buf nbuf;;
  c ← ld buf;
  if c =? 0 then mret (-1) else mret 0.

(** [while (open(console, O_RDWR) >= 0) if(fd >= 3){ close(fd); break; }] *)
Fixpoint open_console (k : nat) : U OS unit :=
  match k with
  | O => no_fuel
  | S k =>
      fd ← open (lit (chars "console")) O_RDWR;
      if 0 <=? fd then
        if 3 <=? fd then close fd;; mret tt else open_console k
      else mret tt
  end.

(** [while ( *cmd == ' ' || *cmd == TAB) cmd++;] *)
Fixpoint skip_blanks (k : nat) (m : memory) (cmd : Z) : option Z :=
  match k with
  | O => None
  | S k =>
      if (mget m cmd =? ch " ") || (mget m cmd =? ch "009") then skip_blanks k m (cmd + 1)
      else Some cmd
  end.

(** One line of input; [p] as in [runcmd]. *)
Definition run_line (p buf : Z) : U OS unit :=
  cmd ← from_mem (fun m => skip_blanks fuel m buf);
  c0 ← ld cmd;
  if c0 =? ch "010" then mret tt
  else
    c1 ← ld (cmd + 1);
    c2 ← ld (cmd + 2);
    if (c0 =? ch "c") && (c1 =? ch "d") && (c2 =? ch " ") then
      n ← strlen cmd;
      st (cmd + n - 1) 0;;
      r ← chdir (cmd + 3);
      if r <? 0 then fprintf 2 (line "cannot cd %s") [cmd + 3] else mret tt
    else
      pid ← fork1;
      (if pid =? 0 then
         c ← parsecmd cmd;
         runcmd fuel p c
       else mret tt);;
      wait 0;;
      mret tt.

(** [while(getcmd(buf, sizeof(buf)) >= 0)] *)
Fixpoint main_loop (k : nat) (p buf : Z) : U OS unit :=
  match k with
  | O => no_fuel
  | S k =>
      r ← getcmd buf 100;
      if 0 <=? r then run_line p buf;; main_loop k p buf else mret tt
  end.

Definition main (p buf : Z) : U OS Z :=
  open_console fuel;;
  main_loop fuel p buf;;
  exit 0.
End sh.
