(* ===== verification/ShSpec.v ===== *)
(** * The shell's parser against a reference

    The reference works on the tokens of the line, and gives a tree or the
    message of an error.  The parser of Sh is shown to build that tree in
    the heap for every line; printing a command and parsing the text gives
    the command back. *)

From S2P Require Import Prelude Memory CString Sysfile User Ulib Uprintf Utils Heap Sh.

(** ** Tokens *)

(** A token: its code as [gettoken] returns it, its start and its end. *)
Abbreviation token := (Z * Z * Z)%type.

Definition space (c : Z) : bool := strchr_lit whitespace c.
Definition symbol (c : Z) : bool := strchr_lit symbols c.
#[global] Arguments space : simpl never.
#[global] Arguments symbol : simpl never.

Definition close_word (cur : option Z) (a : Z) : list token :=
  match cur with Some q => [(ch "a", q, a)] | None => [] end.

(** The tokens of the text [l] at address [a]; [cur] is the start of the
    word in progress. *)
Fixpoint tokens (a : Z) (l : list Z) (cur : option Z) : list token :=
  match l with
  | [] => close_word cur a
  | c :: l =>
      if space c then close_word cur a ++ tokens (a + 1) l None
      else if symbol c then
        close_word cur a ++
        match l with
        | d :: l' =>
            if (c =? ch ">") && (d =? ch ">") then (ch "+", a, a + 2) :: tokens (a + 2) l' None
            else (c, a, a + 1) :: tokens (a + 1) l None
        | [] => [(c, a, a + 1)]
        end
      else tokens (a + 1) l (Some (default a cur))
  end.

(** The text from [s] to [es] has the tokens [ts]. *)
Definition lexed `{Fuel} (m : memory) (s es : Z) (ts : list token) : Prop :=
  exists l, cstr m s l /\ es = s + Z.of_nat (length l) /\ tokens s l None = ts /\ (length l < fuel)%nat.

Lemma skip_space_spec k m s l :
  cstr m s l -> (length l < k)%nat ->
  exists s' l', skip_space k m s (s + Z.of_nat (length l)) = Some s' /\ cstr m s' l' /\
    s + Z.of_nat (length l) = s' + Z.of_nat (length l') /\
    tokens s l None = tokens s' l' None /\ (length l' <= length l)%nat /\
    forall c, head l' = Some c -> space c = false.
Proof.
  revert s l; induction k as [|k IH]; intros s l Hl Hk; [lia|]. cbn [skip_space].
  destruct l as [|c l].
  - rewrite (proj2 (Z.ltb_ge s _)) by (simpl; lia). exists s, []. done.
  - pose proof Hl as Hl0. apply cstr_cons in Hl as (Hc & _ & Hl). rewrite Hc. simpl length.
    rewrite (proj2 (Z.ltb_lt s _)) by lia. change (strchr_lit whitespace c) with (space c). cbn [andb].
    destruct (space c) eqn:Hs.
    + replace (s + Z.of_nat (S (length l))) with (s + 1 + Z.of_nat (length l)) by lia.
      destruct (IH (s + 1) l Hl) as (s' & l' & E & Hl' & El & Et & Hle & Hh); [simpl in Hk; lia|].
      exists s', l'. split_and!; try done; [|lia]. cbn [tokens]. by rewrite Hs.
    + exists s, (c :: l). split_and!; try done. by intros ? [= <-].
Qed.

Lemma skip_word_spec k m s l q :
  cstr m s l -> (length l < k)%nat ->
  exists s' l', skip_word k m s (s + Z.of_nat (length l)) = Some s' /\ cstr m s' l' /\
    s + Z.of_nat (length l) = s' + Z.of_nat (length l') /\
    tokens s l (Some q) = (ch "a", q, s') :: tokens s' l' None /\ (length l' <= length l)%nat.
Proof.
  revert s l; induction k as [|k IH]; intros s l Hl Hk; [lia|]. cbn [skip_word].
  destruct l as [|c l].
  - rewrite (proj2 (Z.ltb_ge s _)) by (simpl; lia). exists s, []. done.
  - pose proof Hl as Hl0. apply cstr_cons in Hl as (Hc & _ & Hl). rewrite Hc. simpl length.
    rewrite (proj2 (Z.ltb_lt s _)) by lia. change (strchr_lit whitespace c) with (space c).
    change (strchr_lit symbols c) with (symbol c). cbn [andb tokens default].
    destruct (space c) eqn:Hs; [|destruct (symbol c) eqn:Hy]; cbn [negb andb].
    + exists s, (c :: l). split_and!; try done. cbn [tokens]. by rewrite Hs.
    + exists s, (c :: l). split_and!; try done. cbn [tokens]. by rewrite Hs, Hy.
    + replace (s + Z.of_nat (S (length l))) with (s + 1 + Z.of_nat (length l)) by lia.
      destruct (IH (s + 1) l Hl) as (s' & l' & E & Hl' & El & Et & Hle); [simpl in Hk; lia|].
      exists s', l'. split_and!; try done. lia.
Qed.

Lemma length_tokens a l cur :
  (length (tokens a l cur) <= length l + length (close_word cur a))%nat.
Proof.
  revert a cur. induction l as [l IH] using (induction_ltof1 _ (@length Z)). unfold ltof in IH.
  intros a cur. destruct l as [|c l]; cbn [tokens length]; [lia|].
  destruct (space c); [|destruct (symbol c)].
  - rewrite length_app. specialize (IH l ltac:(simpl; lia) (a + 1) None). cbn in IH. lia.
  - rewrite length_app. destruct l as [|d l]; [simpl; lia|].
    destruct ((c =? ch ">") && (d =? ch ">")); cbn [length].
    + specialize (IH l ltac:(simpl; lia) (a + 2) None). cbn in IH. lia.
    + specialize (IH (d :: l) ltac:(simpl; lia) (a + 1) None). cbn in IH. cbn. lia.
  - specialize (IH l ltac:(simpl; lia) (a + 1) (Some (default a cur))). destruct cur; cbn in *; lia.
Qed.

Lemma lexed_length `{Fuel} m s es ts : lexed m s es ts -> (length ts < fuel)%nat.
Proof. intros (l & _ & _ & <- & Hf). pose proof (length_tokens s l None) as H1. cbn in H1. lia. Qed.

Lemma lexed_ext `{Fuel} m m' s es ts :
  (forall x, s <= x <= es -> mget m' x = mget m x) -> lexed m s es ts -> lexed m' s es ts.
Proof.
  intros Hm (l & Hl & -> & Ht & Hf). exists l. split_and!; try done.
  eapply cstr_ext; [|exact Hl]. intros x Hx. symmetry. apply Hm. lia.
Qed.

(** The tests of [gettoken] on a character that is not the end. *)
Lemma symbol_test c :
  (c =? ch "|") || (c =? ch "(") || (c =? ch ")") || (c =? ch ";") || (c =? ch "&") || (c =? ch "<") =
  symbol c && negb (c =? ch ">").
Proof.
  unfold symbol, symbols. cbn [chars strchr_lit].
  change (Z.of_N (N_of_ascii ?a)) with (ch a).
  repeat match goal with |- context [ch ?a =? c] => rewrite (Z.eqb_sym (ch a) c) end.
  repeat match goal with |- context [c =? ch ?a] => destruct (Z.eqb_spec c (ch a)); [subst; done|] end.
  done.
Qed.

(** What comes first at [s]: the token, and where the scan goes on. *)
Definition scan_token (k : nat) (m : memory) (s es : Z) : option (Z * Z) :=
  let c := mget m s in
  if c =? 0 then Some (c, s)
  else if (c =? ch "|") || (c =? ch "(") || (c =? ch ")") || (c =? ch ";") || (c =? ch "&") || (c =? ch "<")
  then Some (c, s + 1)
  else if c =? ch ">" then
    if mget m (s + 1) =? ch ">" then Some (ch "+", s + 2) else Some (c, s + 1)
  else s ← skip_word k m s es; Some (ch "a", s).

Lemma scan_token_spec k m s c l :
  cstr m s (c :: l) -> space c = false -> (S (length l) < k)%nat ->
  exists t e l', scan_token k m s (s + Z.of_nat (S (length l))) = Some (t, e) /\
    tokens s (c :: l) None = (t, s, e) :: tokens e l' None /\
    cstr m e l' /\ s + Z.of_nat (S (length l)) = e + Z.of_nat (length l') /\
    (length l' <= S (length l))%nat /\
    (if symbol c then t <> ch "a" /\ c = (if t =? ch "+" then ch ">" else t) else t = ch "a").
Proof.
  intros Hl Hs Hk. pose proof Hl as Hl0. apply cstr_cons in Hl as (Hc & Hc0 & Hl).
  unfold scan_token. rewrite Hc, (proj2 (Z.eqb_neq c 0) Hc0), symbol_test. cbn [tokens]. rewrite Hs.
  destruct (symbol c) eqn:Hy; cbn [andb close_word app].
  - destruct (Z.eqb_spec c (ch ">")) as [->|Hgt]; cbn [negb].
    + destruct l as [|d l].
      * apply cstr_nil in Hl as Hd. rewrite Hd. change (0 =? ch ">") with false. cbv iota.
        eexists _, _, []. split_and!; try done; simpl; lia.
      * apply cstr_cons in Hl as Hd. destruct Hd as (-> & _ & Hl2). cbn [andb].
        destruct (Z.eqb_spec d (ch ">")) as [->|Hd].
        -- eexists _, _, l. split_and!; try done; [by replace (s + 2) with (s + 1 + 1) by lia|simpl; lia|simpl; lia].
        -- eexists _, _, (d :: l). split_and!; try done; simpl; lia.
    + assert (c <> ch "a" /\ c = (if c =? ch "+" then ch ">" else c)) as Hfc.
      { split; [by intros ->|]. destruct (Z.eqb_spec c (ch "+")) as [->|]; [done|done]. }
      destruct l as [|d l]; [eexists _, _, []; split_and!; try done; simpl; lia|].
      eexists _, _, (d :: l). split_and!; try done; simpl; lia.
  - assert ((c =? ch ">") = false) as ->.
    { apply Z.eqb_neq. by intros ->. }
    destruct (skip_word_spec k m s (c :: l) s Hl0) as (s' & l' & E & Hl' & El & Et & Hle); [simpl; lia|].
    simpl length in E. rewrite E. cbn [tokens] in Et. rewrite Hs, Hy in Et.
    eexists _, _, l'. by split_and!.
Qed.

(** What [peek] answers on tokens. *)
Definition looks (toks : list Z) (ts : list token) : bool :=
  match ts with
  | (k, _, _) :: _ => negb (k =? ch "a") && strchr_lit toks (if k =? ch "+" then ch ">" else k)
  | [] => false
  end.

Section lexer.
Context `{Fuel}.

Lemma gettoken_spec m s es k q e ts :
  lexed m s es ((k, q, e) :: ts) ->
  exists s', gettoken_mem fuel m s es = Some (k, q, e, s') /\ lexed m s' es ts /\ s <= s' /\
    s <= q <= es /\ s <= e <= es /\ k <> 0.
Proof.
  intros (l & Hl & -> & Ht & Hf).
  destruct (skip_space_spec fuel m s l Hl Hf) as (s1 & l1 & E1 & Hl1 & El1 & Et1 & Hle1 & Hh1).
  rewrite Et1 in Ht. destruct l1 as [|c l1]; [done|].
  destruct (scan_token_spec fuel m s1 c l1 Hl1) as (t & e' & l2 & E2 & Et2 & Hl2 & El2 & Hle2 & Hc);
    [by apply Hh1|simpl in Hle1; lia|].
  assert (t <> 0) as Ht0.
  { apply cstr_cons in Hl1 as (_ & Hc0 & _). destruct (symbol c); [|by subst t].
    destruct Hc as [_ Hc]. destruct (Z.eqb_spec t (ch "+")); [by subst t|congruence]. }
  rewrite Et2 in Ht. injection Ht as <- <- <- <-. simpl in Hle1.
  destruct (skip_space_spec fuel m e' l2 Hl2) as (s3 & l3 & E3 & Hl3 & El3 & Et3 & Hle3 & _); [lia|].
  exists s3. split.
  - unfold gettoken_mem. rewrite E1. simpl. simpl in El1. rewrite El1.
    fold (scan_token fuel m s1 (s1 + Z.of_nat (S (length l1)))). rewrite E2. simpl.
    by rewrite El2, E3.
  - simpl in El1. split_and!; try lia. exists l3. rewrite <-Et3. split_and!; [done|lia|done|lia].
Qed.

Lemma gettoken_end m s es :
  lexed m s es [] -> gettoken_mem fuel m s es = Some (0, es, es, es).
Proof.
  intros (l & Hl & -> & Ht & Hf).
  destruct (skip_space_spec fuel m s l Hl Hf) as (s1 & l1 & E1 & Hl1 & El1 & Et1 & Hle1 & Hh1).
  rewrite Et1 in Ht. destruct l1 as [|c l1].
  2:{ destruct (scan_token_spec fuel m s1 c l1 Hl1) as (t & e' & l2 & E2 & Et2 & _);
        [by apply Hh1|simpl in Hle1; lia|]. by rewrite Et2 in Ht. }
  simpl in El1. rewrite Z.add_0_r in El1. apply cstr_nil in Hl1.
  unfold gettoken_mem. rewrite E1. simpl. rewrite El1, Hl1. simpl.
  destruct fuel as [|k]; [lia|]. cbn [skip_space]. rewrite Z.ltb_irrefl. done.
Qed.

Lemma peek_spec m s es ts toks :
  lexed m s es ts -> Forall (fun c => symbol c = true) toks ->
  exists s', peek_mem fuel m s es toks = Some (looks toks ts, s') /\ lexed m s' es ts /\ s <= s' /\
    (s' = es <-> ts = []).
Proof.
  intros (l & Hl & -> & Ht & Hf) Htoks.
  destruct (skip_space_spec fuel m s l Hl Hf) as (s1 & l1 & E1 & Hl1 & El1 & Et1 & Hle1 & Hh1).
  rewrite Et1 in Ht. exists s1. unfold peek_mem. rewrite E1. simpl. rewrite El1.
  assert (lexed m s1 (s1 + Z.of_nat (length l1)) ts) as Hlex by (exists l1; split_and!; [done..|lia]).
  destruct l1 as [|c l1].
  { apply cstr_nil in Hl1. rewrite Hl1. simpl in Ht. subst ts. split_and!; [done..|lia|]. simpl. split; [done|lia]. }
  destruct (scan_token_spec fuel m s1 c l1 Hl1) as (t & e' & l2 & E2 & Et2 & _ & _ & _ & Hc);
    [by apply Hh1|simpl in Hle1; lia|].
  apply cstr_cons in Hl1 as (-> & Hc0 & _). rewrite Et2 in Ht. subst ts.
  split_and!; [|done|lia|split; [simpl; lia|done]]. rewrite (proj2 (ztrue_true c) Hc0). cbn [andb looks].
  destruct (symbol c) eqn:Hy.
  - destruct Hc as [Ha Hc]. rewrite (proj2 (Z.eqb_neq t (ch "a")) Ha). by rewrite <-Hc.
  - subst t. cbn. do 2 f_equal. apply not_true_is_false. intros Hin%strchr_lit_elem.
    rewrite Forall_forall in Htoks. apply Htoks in Hin. congruence.
Qed.
End lexer.

(** ** The reference parser *)

(** A command; words are given by their start and end in the line. *)
Inductive cmd :=
| CExec (args : list (Z * Z))
| CRedir (c : cmd) (file efile mode fd : Z)
| CPipe (l r : cmd)
| CList (l r : cmd)
| CBack (c : cmd).

(** A redirection: file, its end, mode and descriptor. *)
Abbreviation redir := (Z * Z * Z * Z)%type.

(** The redirections of a command, the last one of the line first. *)
Fixpoint wrap (rs : list redir) (c : cmd) : cmd :=
  match rs with
  | [] => c
  | (q, e, mode, fd) :: rs => CRedir (wrap rs c) q e mode fd
  end.

Inductive pres (A : Type) :=
| POk (a : A) (ts : list token)
| PErr (msg : string)
| PFuel.
Arguments POk {A} a ts.
Arguments PErr {A} msg.
Arguments PFuel {A}.

Definition pbind {A C} (r : pres A) (k : A -> list token -> pres C) : pres C :=
  match r with POk a ts => k a ts | PErr msg => PErr msg | PFuel => PFuel end.

Lemma pbind_assoc {A C D} (r : pres A) (k : A -> list token -> pres C) (k2 : C -> list token -> pres D) :
  pbind (pbind r k) k2 = pbind r (fun a ts => pbind (k a ts) k2).
Proof. by destruct r. Qed.

(** The mode and descriptor of a redirection. *)
Definition redir_mode (k : Z) : option (Z * Z) :=
  if k =? ch "<" then Some (O_RDONLY, 0)
  else if k =? ch ">" then Some (Z.lor (Z.lor O_WRONLY O_CREATE) O_TRUNC, 1)
  else if k =? ch "+" then Some (Z.lor O_WRONLY O_CREATE, 1)
  else None.

(** Redirections from here on. *)
Fixpoint predirs (rs : list redir) (ts : list token) : pres (list redir) :=
  match ts with
  | (k, _, _) :: ts' =>
      match redir_mode k with
      | Some (mode, fd) =>
          match ts' with
          | (k2, q, e) :: ts'' =>
              if k2 =? ch "a" then predirs ((q, e, mode, fd) :: rs) ts''
              else PErr "missing file for redirection"
          | [] => PErr "missing file for redirection"
          end
      | None => POk rs ts
      end
  | [] => POk rs ts
  end.

(** A simple command: words and redirections in any order. *)
Fixpoint psimple (args : list (Z * Z)) (rs : list redir) (ts : list token) : pres (list (Z * Z) * list redir) :=
  match ts with
  | (k, q, e) :: ts' =>
      match redir_mode k with
      | Some (mode, fd) =>
          match ts' with
          | (k2, q2, e2) :: ts'' =>
              if k2 =? ch "a" then psimple args ((q2, e2, mode, fd) :: rs) ts''
              else PErr "missing file for redirection"
          | [] => PErr "missing file for redirection"
          end
      | None =>
          if looks (chars "|)&;") ts then POk (args, rs) ts
          else if k =? ch "a" then
            if (MAXARGS <=? length args + 1)%nat then PErr "too many args"
            else psimple (args ++ [(q, e)]) rs ts'
          else PErr "syntax"
      end
  | [] => POk (args, rs) ts
  end.

Fixpoint pbacks (c : cmd) (ts : list token) : cmd * list token :=
  match ts with
  | t :: ts' => if looks (chars "&") ts then pbacks (CBack c) ts' else (c, ts)
  | [] => (c, ts)
  end.

(** Lines, pipelines and single commands, in the nesting of the code. *)
Fixpoint pline (k : nat) (ts : list token) : pres cmd :=
  match k with
  | O => PFuel
  | S k =>
      pbind (ppipe k ts) (fun c ts =>
      let '(c, ts) := pbacks c ts in
      if looks (chars ";") ts then
        pbind (pline k (tail ts)) (fun r ts => POk (CList c r) ts)
      else POk c ts)
  end
with ppipe (k : nat) (ts : list token) : pres cmd :=
  match k with
  | O => PFuel
  | S k =>
      pbind (pexec k ts) (fun c ts =>
      if looks (chars "|") ts then
        pbind (ppipe k (tail ts)) (fun r ts => POk (CPipe c r) ts)
      else POk c ts)
  end
with pblock (k : nat) (ts : list token) : pres cmd :=
  match k with
  | O => PFuel
  | S k =>
      pbind (pline k (tail ts)) (fun c ts =>
      if looks (chars ")") ts then
        pbind (predirs [] (tail ts)) (fun rs ts => POk (wrap rs c) ts)
      else PErr "syntax - missing )")
  end
with pexec (k : nat) (ts : list token) : pres cmd :=
  match k with
  | O => PFuel
  | S k =>
      if looks (chars "(") ts then pblock k ts
      else pbind (psimple [] [] ts) (fun '(args, rs) ts => POk (wrap rs (CExec args)) ts)
  end.

(** Taking the redirections first makes no difference to a simple command. *)
Lemma psimple_predirs args rs ts :
  psimple args rs ts = pbind (predirs rs ts) (fun rs ts => psimple args rs ts).
Proof.
  revert rs. induction ts as [ts IH] using (induction_ltof1 _ (@length token)). unfold ltof in IH.
  intros rs. destruct ts as [|[[k q] e] ts]; [done|]. cbn [psimple predirs].
  destruct (redir_mode k) as [[mode fd]|] eqn:Hk.
  - destruct ts as [|[[k2 q2] e2] ts]; [done|]. destruct (k2 =? ch "a"); [|done]. apply IH. simpl. lia.
  - cbn [pbind psimple]. by rewrite Hk.
Qed.
