(* ===== verification/ShParse.v ===== *)
(** * The shell's parser builds the tree of the reference

    Commands in the heap, the effect of the constructors, and the parsing
    functions one by one: each either returns the address of the tree that
    the reference parser gives for the tokens, or prints the error message
    of the reference and exits. *)

From S2P Require Import Prelude Memory CString Sysfile User Ulib Uprintf Utils Heap Sh ShSpec.

(** ** Commands in memory *)

Definition exec_at (bs : list (Z * Z)) (m : memory) (p : Z) (args : list (Z * Z)) : Prop :=
  (p, execcmd_size) ∈ bs /\ p <> 0 /\ load32 m p = EXEC /\ (length args < MAXARGS)%nat /\
  forall i a, args !! i = Some a ->
    load64 m (p + argv_off i) = a.1 /\ load64 m (p + eargv_off i) = a.2.

(** A redirection node and its sub-command. *)
Definition redir_at (bs : list (Z * Z)) (m : memory) (p : Z) (r : redir) (sub : Z) : Prop :=
  let '(q, e, mode, fd) := r in
  (p, redircmd_size) ∈ bs /\ p <> 0 /\ load32 m p = REDIR /\ load64 m (p + 8) = sub /\
  load64 m (p + 16) = q /\ load64 m (p + 24) = e /\ load32 m (p + 32) = mode /\ load32 m (p + 36) = fd.

(** A node with two sub-commands. *)
Definition pair_at (type : Z) (bs : list (Z * Z)) (m : memory) (p l r : Z) : Prop :=
  (p, pipecmd_size) ∈ bs /\ p <> 0 /\ load32 m p = type /\
  load64 m (p + 8) = l /\ load64 m (p + 16) = r.

Definition back_at (bs : list (Z * Z)) (m : memory) (p sub : Z) : Prop :=
  (p, backcmd_size) ∈ bs /\ p <> 0 /\ load32 m p = BACK /\ load64 m (p + 8) = sub.

Fixpoint cmd_at (bs : list (Z * Z)) (m : memory) (p : Z) (c : cmd) : Prop :=
  match c with
  | CExec args => exec_at bs m p args /\ load64 m (p + argv_off (length args)) = 0
  | CRedir c q e mode fd => exists sub, redir_at bs m p (q, e, mode, fd) sub /\ cmd_at bs m sub c
  | CPipe l r => exists lp rp, pair_at PIPE bs m p lp rp /\ cmd_at bs m lp l /\ cmd_at bs m rp r
  | CList l r => exists lp rp, pair_at LIST bs m p lp rp /\ cmd_at bs m lp l /\ cmd_at bs m rp r
  | CBack c => exists sub, back_at bs m p sub /\ cmd_at bs m sub c
  end.

(** The redirections [rs] around the command at [base], in nodes apart from
    the bytes of [avoid]. *)
Fixpoint chain_at (bs : list (Z * Z)) (avoid : Z -> Prop) (m : memory) (p : Z) (rs : list redir) (base : Z) : Prop :=
  match rs with
  | [] => p = base
  | r :: rs =>
      exists sub, redir_at bs m p r sub /\ (forall x, in_block (p, redircmd_size) x -> ~ avoid x) /\
        chain_at bs avoid m sub rs base
  end.

(** The live blocks as they were. *)
Definition keeps (bs : list (Z * Z)) (m m' : memory) : Prop :=
  forall x, in_blocks bs x -> mget m' x = mget m x.

Lemma load64_keep bs b m m' a :
  keeps bs m m' -> b ∈ bs -> b.1 <= a -> a + 8 <= b.1 + b.2 -> load64 m' a = load64 m a.
Proof.
  intros Hk Hb H1 H2. apply load64_ext. intros x Hx. apply Hk. exists b. split; [done|].
  unfold in_block. lia.
Qed.


Lemma load32_keep bs b m m' a :
  keeps bs m m' -> b ∈ bs -> b.1 <= a -> a + 4 <= b.1 + b.2 -> load32 m' a = load32 m a.
Proof.
  intros Hk Hb H1 H2. apply load32_ext. intros x Hx. apply Hk. exists b. split; [done|].
  unfold in_block. lia.
Qed.

(** A node is untouched when its block is. *)
Ltac node_keep Hk Hb :=
  repeat first
    [ rewrite (load64_keep _ _ _ _ _ Hk Hb) by (cbn; unfold execcmd_size, redircmd_size, pipecmd_size, backcmd_size; lia)
    | rewrite (load32_keep _ _ _ _ _ Hk Hb) by (cbn; unfold execcmd_size, redircmd_size, pipecmd_size, backcmd_size; lia) ].

Lemma redir_at_keep bs bs' m m' p r sub :
  keeps bs m m' -> bs ⊆ bs' -> redir_at bs m p r sub -> redir_at bs' m' p r sub.
Proof.
  destruct r as [[[q e] mode] fd]. unfold redir_at. intros Hk Hs (Hb & Hp & H).
  split; [by apply Hs|]. split; [done|]. by node_keep Hk Hb.
Qed.

Lemma exec_at_keep bs bs' m m' p args :
  keeps bs m m' -> bs ⊆ bs' -> exec_at bs m p args -> exec_at bs' m' p args.
Proof.
  unfold exec_at. intros Hk Hs (Hb & Hp & Ht & Hl & H).
  split; [by apply Hs|]. split; [done|]. split; [by node_keep Hk Hb|]. split; [done|].
  intros i a Hi. pose proof (lookup_lt_Some _ _ _ Hi). unfold argv_off, eargv_off, MAXARGS in *.
  node_keep Hk Hb. by apply H.
Qed.

Lemma cmd_at_keep bs bs' m m' p c :
  keeps bs m m' -> bs ⊆ bs' -> cmd_at bs m p c -> cmd_at bs' m' p c.
Proof.
  intros Hk Hs. revert p; induction c as [args|c IH q e mode fd|l IHl r IHr|l IHl r IHr|c IH]; intros p; cbn [cmd_at].
  - intros [H H0]. split; [by eapply exec_at_keep|]. destruct H as (Hb & _ & _ & Hl & _).
    unfold argv_off, MAXARGS in *. by node_keep Hk Hb.
  - intros (sub & H & Hc). exists sub. split; [by eapply redir_at_keep|by apply IH].
  - intros (lp & rp & (Hb & Hp & H) & Hl & Hr). exists lp, rp. split; [|split; [by apply IHl|by apply IHr]].
    split; [by apply Hs|]. split; [done|]. by node_keep Hk Hb.
  - intros (lp & rp & (Hb & Hp & H) & Hl & Hr). exists lp, rp. split; [|split; [by apply IHl|by apply IHr]].
    split; [by apply Hs|]. split; [done|]. by node_keep Hk Hb.
  - intros (sub & (Hb & Hp & H) & Hc). exists sub. split; [|by apply IH].
    split; [by apply Hs|]. split; [done|]. by node_keep Hk Hb.
Qed.

Lemma chain_at_keep bs bs' avoid m m' p rs base :
  keeps bs m m' -> bs ⊆ bs' -> chain_at bs avoid m p rs base -> chain_at bs' avoid m' p rs base.
Proof.
  intros Hk Hs. revert p; induction rs as [|r rs IH]; intros p; cbn [chain_at]; [done|].
  intros (sub & H & Ha & Hc). exists sub. split; [by eapply redir_at_keep|]. split; [done|by apply IH].
Qed.

(** The chain around a command is the command with its redirections. *)
Lemma chain_cmd_at bs avoid m p rs base c :
  chain_at bs avoid m p rs base -> cmd_at bs m base c -> cmd_at bs m p (wrap rs c).
Proof.
  revert p; induction rs as [|[[[q e] mode] fd] rs IH]; intros p; cbn [chain_at wrap]; [by intros ->|].
  intros (sub & H & _ & Hc) Hb. exists sub. split; [done|by apply IH].
Qed.

(** ** Loads and stores of a node *)

Lemma load32_store64_out m a v x : x + 4 <= a \/ a + 8 <= x -> load32 (store64 m a v) x = load32 m x.
Proof. intros H. apply (le_load_store_out 4 8). lia. Qed.

(** Evaluate the loads of a node just written. *)
Ltac node_loads :=
  repeat first
    [ rewrite load64_store64 by lia | rewrite load32_store32 by lia
    | rewrite load64_store64_out by lia | rewrite load64_store32_out by lia
    | rewrite load32_store64_out by lia | rewrite load32_store32_out by lia ].

(** ** Growing the heap *)

Section parse.
Context {OS : Type} `{K : Kernel OS, STR : !Streams OS, SLO : Slots, FUE : Fuel, LIT : Literals}.
Context `{MAL : Malloc OS, MOK : !MallocOk OS} (B : user OS -> Prop).

Definition fresh (bs : list (Z * Z)) (b : Z * Z) : Prop :=
  forall x, in_block b x -> private x /\ ~ in_blocks bs x.

(** From [w] to [w'] only memory of the allocator changed that was not lent
    out, and the blocks are [bs'] now. *)
Record grown (n : nat) (bs bs' : list (Z * Z)) (w w' : user OS) : Prop := {
  gn_arena : arena n bs' w';
  gn_incl : bs ⊆ bs';
  gn_keep : forall x, ~ private x \/ in_blocks bs x -> mget w'.(umem) x = mget w.(umem) x;
  gn_output : forall f, output w'.(usys) f = output w.(usys) f;
  gn_same : same_streams readable writable w.(usys) w'.(usys);
}.

Lemma grown_refl n bs w : arena n bs w -> grown n bs bs w w.
Proof. intros H. by split. Qed.

Lemma in_blocks_incl bs bs' x : bs ⊆ bs' -> in_blocks bs x -> in_blocks bs' x.
Proof. intros Hs (b & Hb & Hx). exists b. split; [by apply Hs|done]. Qed.

Lemma grown_trans n1 n2 bs bs1 bs2 w w1 w2 :
  grown n1 bs bs1 w w1 -> grown n2 bs1 bs2 w1 w2 -> grown n2 bs bs2 w w2.
Proof.
  intros [A1 I1 K1 O1 S1] [A2 I2 K2 O2 S2]. split; [done|by etransitivity| | |by eapply same_streams_trans].
  - intros x Hx. rewrite K2; [by apply K1|]. destruct Hx as [Hx|Hx]; [by left|right]. by eapply in_blocks_incl.
  - intros f. by rewrite O2.
Qed.

Lemma grown_weaken n n' bs bs' w w' : (n' <= n)%nat -> grown n bs bs' w w' -> grown n' bs bs' w w'.
Proof.
  intros Hn [A1 I1 K1 O1 S1]. split; try done. clear -Hn A1 MOK.
  induction Hn as [|n Hn IH]; [done|]. by apply IH, arena_weaken.
Qed.

Lemma tree_grown_keeps n bs bs' w w' : grown n bs bs' w w' -> keeps bs w.(umem) w'.(umem).
Proof. intros H x Hx. apply H. by right. Qed.

(** Writing to a block that is new since [w]. *)
Lemma grown_write n bs bs' w w1 b m :
  grown n bs bs' w w1 -> b ∈ bs' -> fresh bs b -> mem_ok m ->
  (forall x, ~ in_block b x -> mget m x = mget w1.(umem) x) ->
  grown n bs bs' w (User m w1.(usys)).
Proof.
  intros [A1 I1 K1 O1 S1] Hb Hf Hm Hx. split; cbn [umem usys]; try done.
  - destruct w1 as [m1 s1]. eapply arena_ext; [exact A1|done|]. intros x Hp Hn. apply Hx.
    intros Hin. apply Hn. by exists b.
  - intros x Hp. rewrite Hx; [by apply K1|]. intros [Hpr Hnin]%Hf. by destruct Hp.
Qed.

Lemma alloc_node {A} size n bs w (k : Z -> U OS A) Q :
  arena (S n) bs w -> 0 < size <= 4096 ->
  (forall p w1, p <> 0 -> 0 <= p -> p + size < 2 ^ 64 -> fresh bs (p, size) ->
     grown n bs ((p, size) :: bs) w w1 -> wpx B (k p) Q w1) ->
  wpx B (p ← malloc size; memset p 0 size;; k p) Q w.
Proof.
  intros Ha Hs HQ. eapply wpx_call; [by apply (malloc_ok B n bs)|].
  intros p w1 (Hp & Hp0 & Hlt & Har & Hf & Hk & Ho & Hss).
  apply wpx_bind, upd_bind, wpx_ret, HQ; try done.
  apply (grown_write n bs _ w w1 (p, size)); [|set_solver|done| |].
  - split; try done. set_solver.
  - intros x. unfold umemset. rewrite mget_memset_loop. case_decide; [apply u8_range|].
    by apply (arena_ok n ((p, size) :: bs)).
  - intros x Hx. unfold umemset. rewrite mget_memset_loop, decide_False; [done|].
    unfold in_block in Hx. cbn in Hx. lia.
Qed.

(** After the stores of a constructor: nothing outside the block changed. *)
Ltac in_node :=
  first [ by repeat first [apply mem_ok_store64 | apply mem_ok_store32]; eapply arena_ok, gn_arena
        | let x := fresh "x" in let Hx := fresh "Hx" in
          intros x Hx; unfold in_block in Hx; cbn in Hx;
          unfold execcmd_size, redircmd_size, pipecmd_size, backcmd_size in Hx;
          repeat first [rewrite mget_store64_out by lia | rewrite mget_store32_out by lia]; done ].

Lemma execcmd_spec n bs w :
  arena (S n) bs w ->
  wpx B execcmd (fun p w' => grown n bs ((p, execcmd_size) :: bs) w w' /\ 0 <= p /\
    p + execcmd_size < 2 ^ 64 /\
    fresh bs (p, execcmd_size) /\ exec_at ((p, execcmd_size) :: bs) w'.(umem) p []) w.
Proof.
  intros Ha. unfold execcmd. apply (alloc_node _ n bs); [done|unfold execcmd_size; lia|].
  intros p w1 Hp Hp0 Hlt Hf Hg. apply upd_bind, wpx_ret. split; [|split_and!; try done].
  - eapply grown_write; [exact Hg|by left|done|in_node..].
  - unfold exec_at. cbn [umem]. split_and!; [by left|done|by apply load32_store32|unfold MAXARGS; simpl; lia|done].
Qed.

Lemma redircmd_spec n bs w sub q e mode fd :
  arena (S n) bs w -> 0 <= sub < 2 ^ 64 -> 0 <= q < 2 ^ 64 -> 0 <= e < 2 ^ 64 ->
  0 <= mode < 2 ^ 32 -> 0 <= fd < 2 ^ 32 ->
  wpx B (redircmd sub q e mode fd) (fun p w' => grown n bs ((p, redircmd_size) :: bs) w w' /\
    0 <= p < 2 ^ 64 /\
    fresh bs (p, redircmd_size) /\ redir_at ((p, redircmd_size) :: bs) w'.(umem) p (q, e, mode, fd) sub) w.
Proof.
  intros Ha Hs Hq He Hm Hfd. unfold redircmd. apply (alloc_node _ n bs); [done|unfold redircmd_size; lia|].
  intros p w1 Hp Hp0 Hlt Hf Hg. unfold redircmd_size in *.
  repeat apply upd_bind; apply wpx_ret. cbn [umem usys]. split; [|split_and!; try done; try lia].
  - eapply (grown_write _ _ _ _ w1); [exact Hg|by left|done|in_node..].
  - unfold redir_at, REDIR. split; [by left|]. split; [done|]. split_and!; by node_loads.
Qed.

(** [pipecmd] and [listcmd] *)
Lemma paircmd_spec type n bs w l r :
  arena (S n) bs w -> 0 <= l < 2 ^ 64 -> 0 <= r < 2 ^ 64 -> 0 <= type < 2 ^ 32 ->
  wpx B (cmd ← malloc pipecmd_size;
         memset cmd 0 pipecmd_size;;
         st32 cmd type;;
         st64 (cmd + 8) l;;
         st64 (cmd + 16) r;;
         mret cmd)
    (fun p w' => grown n bs ((p, pipecmd_size) :: bs) w w' /\ 0 <= p < 2 ^ 64 /\
      pair_at type ((p, pipecmd_size) :: bs) w'.(umem) p l r) w.
Proof.
  intros Ha Hl Hr Ht. apply (alloc_node _ n bs); [done|unfold pipecmd_size; lia|].
  intros p w1 Hp Hp0 Hlt Hf Hg. unfold pipecmd_size in *.
  repeat apply upd_bind; apply wpx_ret. cbn [umem usys]. split; [|split; [lia|]].
  - eapply (grown_write _ _ _ _ w1); [exact Hg|by left|done|in_node..].
  - unfold pair_at. split; [by left|]. split; [done|]. split_and!; by node_loads.
Qed.

Lemma backcmd_spec n bs w sub :
  arena (S n) bs w -> 0 <= sub < 2 ^ 64 ->
  wpx B (backcmd sub) (fun p w' => grown n bs ((p, backcmd_size) :: bs) w w' /\ 0 <= p < 2 ^ 64 /\
    back_at ((p, backcmd_size) :: bs) w'.(umem) p sub) w.
Proof.
  intros Ha Hs. unfold backcmd. apply (alloc_node _ n bs); [done|unfold backcmd_size; lia|].
  intros p w1 Hp Hp0 Hlt Hf Hg. unfold backcmd_size in *.
  repeat apply upd_bind; apply wpx_ret. cbn [umem usys]. split; [|split; [lia|]].
  - eapply (grown_write _ _ _ _ w1); [exact Hg|by left|done|in_node..].
  - unfold back_at, BACK. split; [by left|]. split; [done|]. split_and!; by node_loads.
Qed.

(** ** The line, the messages and the errors *)

(** The line ends at [es] and is not memory of the allocator. *)
Context (lo es : Z) (Hlo : 0 <= lo) (Hes : es < 2 ^ 64).
Context (Htext : forall x, lo <= x <= es -> ~ private x).
Context (Hfuel : (50 < fuel)%nat).

Definition at_text (w : user OS) (s : Z) (ts : list token) : Prop := lexed w.(umem) s es ts /\ lo <= s.

Definition messages : list string :=
  ["missing file for redirection"; "syntax"; "too many args"; "parseblock"; "syntax - missing )"]%string.

(** The messages are in memory and standard error is open. *)
Record ready (w : user OS) : Prop := {
  rd_lit : forall msg, msg ∈ messages ->
    let a := lit (chars msg) in
    cstr w.(umem) a (chars msg) /\ a <> 0 /\
    (forall x, a <= x <= a + Z.of_nat (length (chars msg)) -> ~ private x) /\
    (putc_c < a \/ a + Z.of_nat (length (chars msg)) < putc_c);
  rd_err : writable w.(usys) 2;
}.

Lemma at_text_grown n bs bs' w w' s ts : grown n bs bs' w w' -> at_text w s ts -> at_text w' s ts.
Proof using All.
  intros Hg [Hl Hs]. split; [|done]. eapply lexed_ext; [|exact Hl].
  intros x Hx. apply Hg. left. apply Htext. lia.
Qed.

Lemma at_text_back n bs bs' w w' s ts : grown n bs bs' w w' -> at_text w' s ts -> at_text w s ts.
Proof using All.
  intros Hg [Hl Hs]. split; [|done]. eapply lexed_ext; [|exact Hl].
  intros x Hx. symmetry. apply Hg. left. apply Htext. lia.
Qed.

Lemma ready_grown n bs bs' w w' : grown n bs bs' w w' -> ready w -> ready w'.
Proof.
  intros Hg [Hl He]. split; [|by apply Hg]. intros msg Hmsg.
  destruct (Hl msg Hmsg) as (Hc & H0 & Hp & Hs). split_and!; try done.
  eapply cstr_ext; [|exact Hc]. intros x Hx. symmetry. apply Hg. left. apply Hp. lia.
Qed.

(** The process has printed [msg] on standard error. *)
Definition failed (msg : string) (w w' : user OS) : Prop :=
  output w'.(usys) 2 = output w.(usys) 2 ++ line msg.

Lemma panic_spec {A} msg w (Q : A -> user OS -> Prop) :
  ready w -> msg ∈ messages -> (forall w', failed msg w w' -> B w') -> wpx B (Sh.panic msg) Q w.
Proof using Hfuel.
  intros [Hl He] Hmsg HB. destruct (Hl msg Hmsg) as (Hc & H0 & _ & Hs). unfold Sh.panic.
  assert (line "%s" = show_all [Str; Plain NL]) as E by (vm_compute; reflexivity).
  assert (Forall (fun c => 0 <= c < 2 ^ 8) (chars msg) /\ (length (chars msg) <= 40)%nat) as [Hb Hlen].
  { clear -Hmsg. unfold messages in Hmsg.
    repeat (apply elem_of_cons in Hmsg as [->|Hmsg]; [split; [by repeat constructor|simpl; lia]|]).
    by apply elem_of_nil in Hmsg. }
  eapply wpx_call; [unfold fprintf; rewrite E; apply (vprintf_spec B 2 _ ([_] ++ [] ++ []) (chars msg ++ [NL] ++ []))|].
  - repeat apply formats_cons; [by apply render_str|by constructor; try done|apply formats_nil].
  - done.
  - rewrite !length_app. simpl. lia.
  - intros [] w1 Hp. apply exit_spec. intros s' Ho. apply HB. unfold failed. cbn [usys].
    rewrite Ho, (pr_output _ _ _ _ Hp). by rewrite app_nil_r.
Qed.

(** A parsing function [m] against the reference result [r]. *)
Definition runs {A X} (r : pres A) (m : U OS X) (Q : A -> list token -> X -> user OS -> Prop) (w : user OS) : Prop :=
  match r with
  | POk a ts => wpx B m (Q a ts) w
  | PErr msg => (forall w', failed msg w w' -> B w') -> wpx B m (fun _ _ => False) w
  | PFuel => True
  end.

Lemma runs_bind {A C X Y} (r : pres A) (k : A -> list token -> pres C) (m : U OS X) (f : X -> U OS Y) Q w :
  runs r m (fun a ts x w' =>
    (forall o, output w'.(usys) o = output w.(usys) o) /\ runs (k a ts) (f x) Q w') w ->
  runs (pbind r k) (m ≫= f) Q w.
Proof.
  destruct r as [a ts|msg|]; cbn [runs pbind]; [|intros H HB|done].
  - intros H. destruct (k a ts) as [c ts'|msg|]; cbn [runs] in *; [| |done].
    + eapply wpx_call; [exact H|]. by intros x w' [_ Hx].
    + intros HB. eapply wpx_call; [exact H|]. intros x w' [Ho Hx]. apply Hx. intros w'' Hf. apply HB.
      unfold failed in *. by rewrite Hf, Ho.
  - eapply wpx_call; [by apply H|]. done.
Qed.

Lemma runs_eq {A X} (r : pres A) (m m' : U OS X) Q w : m w = m' w -> runs r m' Q w -> runs r m Q w.
Proof. intros E. unfold runs, wpx. by rewrite E. Qed.

Lemma from_mem_eq {X Y} (g : memory -> option X) (f : X -> U OS Y) a w :
  g w.(umem) = Some a -> (from_mem g ≫= f) w = f a w.
Proof. intros E. unfold mbind, M_bind, from_mem. by rewrite E. Qed.

Lemma runs_peek {A X} (r : pres A) toks ts s (f : bool * Z -> U OS X) Q w :
  at_text w s ts -> Forall (fun c => symbol c = true) (chars toks) ->
  (forall s', at_text w s' ts -> (s' = es <-> ts = []) -> runs r (f (looks (chars toks) ts, s')) Q w) ->
  runs r (peek s es toks ≫= f) Q w.
Proof.
  intros [Hl Hs] Ht H. destruct (peek_spec _ _ _ _ _ Hl Ht) as (s' & E & Hl' & Hs' & He).
  eapply runs_eq; [by apply from_mem_eq|]. apply H; [|done]. split; [done|lia].
Qed.

Lemma runs_token {A X} (r : pres A) k q e ts s (f : Z * Z * Z * Z -> U OS X) Q w :
  at_text w s ((k, q, e) :: ts) ->
  (forall s', at_text w s' ts -> lo <= q <= es -> lo <= e <= es -> k <> 0 -> runs r (f (k, q, e, s')) Q w) ->
  runs r (gettoken s es ≫= f) Q w.
Proof.
  intros [Hl Hs] H. destruct (gettoken_spec _ _ _ _ _ _ _ Hl) as (s' & E & Hl' & Hs' & Hq & He & Hk).
  eapply runs_eq; [by apply from_mem_eq|]. apply H; [split; [done|lia]|lia..|done].
Qed.

Lemma runs_end {A X} (r : pres A) s (f : Z * Z * Z * Z -> U OS X) Q w :
  at_text w s [] -> runs r (f (0, es, es, es)) Q w -> runs r (gettoken s es ≫= f) Q w.
Proof.
  intros [Hl Hs] H. apply gettoken_end in Hl.
  eapply runs_eq; [by apply from_mem_eq|]. exact H.
Qed.

Lemma runs_err {A X} msg w (Q : A -> list token -> X -> user OS -> Prop) :
  ready w -> msg ∈ messages -> runs (PErr msg) (Sh.panic msg) Q w.
Proof using All. intros Hr Hm HB. by apply panic_spec. Qed.

(** ** Redirections *)

(** The result of [parseredirs]: the chain grew to [rs']. *)
Definition redirs_done (n : nat) (bs : list (Z * Z)) (avoid : Z -> Prop) (base : Z) (w : user OS)
    (rs' : list redir) (ts' : list token) (x : Z * Z) (w' : user OS) : Prop :=
  exists bs', grown (2 * length ts' + n) bs bs' w w' /\
    chain_at bs' avoid w'.(umem) x.1 rs' base /\ at_text w' x.2 ts' /\ 0 <= x.1 < 2 ^ 64.

Lemma redir_looks k q e (ts : list token) :
  looks (chars "<>") ((k, q, e) :: ts) = bool_decide (is_Some (redir_mode k)).
Proof.
  cbn [looks]. unfold redir_mode.
  destruct (Z.eqb_spec k (ch "a")) as [->|Ha]; [done|]. cbn [negb andb].
  destruct (Z.eqb_spec k (ch "<")) as [->|H1]; [done|].
  destruct (Z.eqb_spec k (ch ">")) as [->|H2]; [done|].
  destruct (Z.eqb_spec k (ch "+")) as [->|H3]; [done|].
  rewrite bool_decide_false by (by intros []). apply not_true_is_false.
  intros Hin%strchr_lit_elem. cbn in Hin.
  apply elem_of_cons in Hin as [->|Hin]; [done|]. apply elem_of_cons in Hin as [->|Hin]; [done|].
  by apply elem_of_nil in Hin.
Qed.

(** The redirection that the code makes of a token. *)
Lemma redir_choice k mode fd (cmd q e : Z) :
  redir_mode k = Some (mode, fd) ->
  (if k =? ch "<" then redircmd cmd q e O_RDONLY 0
   else if k =? ch ">" then redircmd cmd q e (Z.lor (Z.lor O_WRONLY O_CREATE) O_TRUNC) 1
   else if k =? ch "+" then redircmd cmd q e (Z.lor O_WRONLY O_CREATE) 1
   else mret cmd : U OS Z) = redircmd cmd q e mode fd /\ 0 <= mode < 2 ^ 32 /\ 0 <= fd < 2 ^ 32.
Proof.
  unfold redir_mode. destruct (k =? ch "<"); [by intros [= <- <-]|].
  destruct (k =? ch ">"); [by intros [= <- <-]|]. destruct (k =? ch "+"); [by intros [= <- <-]|done].
Qed.

Lemma runs_call {A X Y} (r : pres A) (m : U OS X) (f : X -> U OS Y) P Q w :
  wpx B m P w ->
  (forall x w', P x w' -> (forall o, output w'.(usys) o = output w.(usys) o) /\ runs r (f x) Q w') ->
  runs r (m ≫= f) Q w.
Proof.
  intros Hm Hf. destruct r as [a ts|msg|]; cbn [runs] in *; [|intros HB|done].
  - eapply wpx_call; [exact Hm|]. intros x w' Hx. by apply Hf.
  - eapply wpx_call; [exact Hm|]. intros x w' Hx. apply Hf in Hx as [Ho Hx]. apply Hx.
    intros w'' H. apply HB. unfold failed in *. by rewrite H, Ho.
Qed.

Lemma runs_upd {A Y} (r : pres A) g (f : unit -> U OS Y) Q w :
  runs r (f tt) Q (User (g w.(umem)) w.(usys)) -> runs r (upd g ≫= f) Q w.
Proof. done. Qed.

Lemma runs_mono {A X} (r : pres A) (m : U OS X) Q Q' w :
  runs r m Q w -> (forall a ts x w', r = POk a ts -> Q a ts x w' -> Q' a ts x w') -> runs r m Q' w.
Proof.
  intros H HQ. destruct r as [a ts|msg|]; cbn [runs] in *; [|done..].
  eapply wpx_mono; [exact H|]. intros x w'. by apply HQ.
Qed.

Lemma redirs_start n bs avoid base w rs ts cmd s :
  at_text w s ts -> arena (2 * length ts + n) bs w -> chain_at bs avoid w.(umem) cmd rs base ->
  0 <= cmd < 2 ^ 64 -> redirs_done n bs avoid base w rs ts (cmd, s) w.
Proof. intros Ht Ha Hc Hp. exists bs. split; [by apply grown_refl|done]. Qed.

(** One more redirection around the chain. *)
Lemma chain_cons n bs bs' avoid base w w1 cmd rs p r :
  grown n bs bs' w w1 -> chain_at bs avoid w.(umem) cmd rs base ->
  redir_at bs' w1.(umem) p r cmd -> fresh bs (p, redircmd_size) ->
  (forall x, avoid x -> in_blocks bs x) -> chain_at bs' avoid w1.(umem) p (r :: rs) base.
Proof.
  intros Hg Hc Hr Hf Ha. exists cmd. split; [done|]. split.
  - intros x [_ Hx]%Hf Hav. by apply Hx, Ha.
  - eapply chain_at_keep; [by eapply tree_grown_keeps|apply Hg|done].
Qed.

Lemma parseredirs_spec k cmd rs ts s n bs avoid base w :
  (length ts < k)%nat -> at_text w s ts -> ready w -> arena (2 * length ts + n) bs w ->
  chain_at bs avoid w.(umem) cmd rs base -> 0 <= cmd < 2 ^ 64 ->
  (forall x, avoid x -> in_blocks bs x) ->
  runs (predirs rs ts) (parseredirs k cmd s es) (redirs_done n bs avoid base w) w.
Proof using All.
  revert cmd rs ts s bs w; induction k as [|k IH]; intros cmd rs ts s bs w Hk Ht Hr Ha Hc Hp Hav; [lia|].
  cbn [parseredirs]. eapply runs_peek; [done|by repeat constructor|]. clear s Ht. intros s Ht _.
  destruct ts as [|[[tk q] e] ts]; [by apply redirs_start|].
  rewrite redir_looks. cbn [predirs]. destruct (redir_mode tk) as [[mode fd]|] eqn:Hmode.
  2:{ rewrite bool_decide_false by (by intros []). by apply redirs_start. }
  rewrite bool_decide_true by done. eapply runs_token; [exact Ht|]. clear s Ht. intros s Ht _ _ _.
  destruct ts as [|[[k2 q2] e2] ts].
  { eapply runs_end; [exact Ht|]. apply runs_err; [done|by left]. }
  eapply runs_token; [exact Ht|]. clear s Ht. intros s Ht Hq He _.
  destruct (k2 =? ch "a"); cbn [negb]; [|apply runs_err; [done|by left]].
  destruct (redir_choice tk mode fd cmd q2 e2 Hmode) as (-> & Hm & Hfd). simpl length in *.
  eapply runs_call; [apply (redircmd_spec (3 + 2 * length ts + n) bs); try lia; try done|].
  { by replace (S (3 + 2 * length ts + n)) with (2 * S (S (length ts)) + n)%nat by lia. }
  intros p w1 (Hg & Hp1 & Hf & Hra). split; [apply Hg|].
  pose proof (chain_cons _ _ _ _ _ _ _ _ _ _ _ Hg Hc Hra Hf Hav) as Hc1.
  eapply grown_weaken in Hg; [|instantiate (1 := (2 * length ts + n)%nat); lia].
  eapply runs_mono; [eapply (IH p _ ts s _ w1)|].
  - lia.
  - by eapply at_text_grown.
  - by eapply ready_grown.
  - apply Hg.
  - exact Hc1.
  - done.
  - intros x Hx. eapply in_blocks_incl; [apply Hg|by apply Hav].
  - intros rs' ts' x w2 _ (bs' & Hg2 & H2). exists bs'. split; [by eapply grown_trans|done].
Qed.

(** ** Simple commands *)

(** A write to the exec node leaves the chain around it alone. *)
Lemma chain_at_write bs m m' p rs base b :
  (forall x, ~ in_block b x -> mget m' x = mget m x) ->
  chain_at bs (in_block b) m p rs base -> chain_at bs (in_block b) m' p rs base.
Proof.
  intros Hm. revert p; induction rs as [|r rs IH]; intros p; cbn [chain_at]; [done|].
  intros (sub & Hr & Ha & Hc). exists sub. split; [|split; [done|by apply IH]].
  assert (keeps [(p, redircmd_size)] m m') as Hk.
  { intros x (b' & Hb' & Hx). apply Hm. apply list_elem_of_singleton in Hb' as ->. by apply Ha. }
  assert ((p, redircmd_size) ∈ [(p, redircmd_size)]) as Hb by (by left).
  destruct r as [[[q e] mode] fd]. destruct Hr as (Hin & Hp & Hr). split; [done|]. split; [done|].
  by node_keep Hk Hb.
Qed.

(** Another argument in the exec node. *)
Definition put_arg (m : memory) (p : Z) (i : nat) (q e : Z) : memory :=
  store64 (store64 m (p + argv_off i) q) (p + eargv_off i) e.

Lemma put_arg_out m p i q e x :
  (i < MAXARGS)%nat -> ~ in_block (p, execcmd_size) x -> mget (put_arg m p i q e) x = mget m x.
Proof.
  unfold in_block, put_arg, argv_off, eargv_off, execcmd_size, MAXARGS. cbn. intros Hi Hx.
  by rewrite !mget_store64_out by lia.
Qed.

Lemma mem_ok_put_arg m p i q e : mem_ok m -> mem_ok (put_arg m p i q e).
Proof. intros Hm. by apply mem_ok_store64, mem_ok_store64. Qed.

Lemma exec_at_snoc bs m p args q e :
  exec_at bs m p args -> (length args + 1 < MAXARGS)%nat -> 0 <= q < 2 ^ 64 -> 0 <= e < 2 ^ 64 ->
  exec_at bs (put_arg m p (length args) q e) p (args ++ [(q, e)]).
Proof.
  unfold exec_at, put_arg, argv_off, eargv_off, MAXARGS. intros (Hb & Hp & Ht & Hl & Ha) Hn Hq He.
  rewrite length_app. split_and!; [done..| |simpl; lia|].
  - by node_loads.
  - intros i a Hi. destruct (decide (i = length args)) as [->|Hne].
    + rewrite lookup_app_r, Nat.sub_diag in Hi by lia. injection Hi as <-. cbn [fst snd].
      split; by node_loads.
    + assert (i < length args)%nat as Hlt.
      { apply lookup_lt_Some in Hi. rewrite length_app in Hi. simpl in Hi. lia. }
      rewrite lookup_app_l in Hi by done. destruct (Ha i a Hi) as [<- <-]. split; by node_loads.
Qed.

(** The state of the loop over the arguments of the exec node at [cmd],
    which is new since [w0]. *)
Record building (n : nat) (bs0 : list (Z * Z)) (w0 : user OS) (cmd : Z) (args : list (Z * Z)) (rs : list redir)
    (ret : Z) (ts : list token) (bs : list (Z * Z)) (s : Z) (w : user OS) : Prop := {
  bd_grown : grown (2 * length ts + n) bs0 bs w0 w;
  bd_exec : exec_at bs w.(umem) cmd args;
  bd_chain : chain_at bs (in_block (cmd, execcmd_size)) w.(umem) ret rs cmd;
  bd_text : at_text w s ts;
  bd_ret : 0 <= ret < 2 ^ 64;
}.

Definition noredir (ts : list token) : Prop :=
  match ts with (k, _, _) :: _ => redir_mode k = None | [] => True end.

Lemma predirs_noredir rs ts rs' ts' : predirs rs ts = POk rs' ts' -> noredir ts'.
Proof.
  revert rs. induction ts as [ts IH] using (induction_ltof1 _ (@length token)). unfold ltof in IH.
  intros rs. destruct ts as [|[[k q] e] ts]; cbn [predirs]; [by intros [= <- <-]|].
  destruct (redir_mode k) as [[mode fd]|] eqn:Hk; [|by intros [= <- <-]].
  destruct ts as [|[[k2 q2] e2] ts]; [done|]. destruct (k2 =? ch "a"); [|done]. apply IH. simpl. lia.
Qed.

Lemma predirs_length rs ts rs' ts' : predirs rs ts = POk rs' ts' -> (length ts' <= length ts)%nat.
Proof.
  revert rs. induction ts as [ts IH] using (induction_ltof1 _ (@length token)). unfold ltof in IH.
  intros rs. destruct ts as [|[[k q] e] ts]; cbn [predirs]; [by intros [= <- <-]|].
  destruct (redir_mode k) as [[mode fd]|] eqn:Hk; [|by intros [= <- <-]].
  destruct ts as [|[[k2 q2] e2] ts]; [done|]. destruct (k2 =? ch "a"); [|done].
  intros E. apply IH in E; simpl in *; lia.
Qed.

Section args.
Context (n : nat) (bs0 : list (Z * Z)) (w0 : user OS) (cmd : Z).
Context (Hready : ready w0) (Hcmd : fresh bs0 (cmd, execcmd_size)).

Definition built (a : list (Z * Z) * list redir) (ts : list token) (x : Z * nat * Z) (w : user OS) : Prop :=
  x.1.2 = length a.1 /\ exists bs, building n bs0 w0 cmd a.1 a.2 x.1.1 ts bs x.2 w.

(** Redirections between the arguments. *)
Lemma building_redirs k args rs ret ts bs s w :
  building n bs0 w0 cmd args rs ret ts bs s w -> (length ts < k)%nat ->
  runs (predirs rs ts) (parseredirs k ret s es) (fun rs' ts' x w' =>
    exists bs', building n bs0 w0 cmd args rs' x.1 ts' bs' x.2 w') w.
Proof using All.
  intros [Hg He Hc Ht Hr] Hk. eapply runs_mono.
  - apply (parseredirs_spec k ret rs ts s n bs (in_block (cmd, execcmd_size)) cmd w); try done.
    + by eapply ready_grown.
    + apply Hg.
    + intros x Hx. destruct He as [Hin _]. by exists (cmd, execcmd_size).
  - intros rs' ts' x w' _ (bs' & Hg' & Hc' & Ht' & Hx). exists bs'. split; try done.
    + by eapply grown_trans.
    + eapply exec_at_keep; [by eapply tree_grown_keeps|apply Hg'|done].
Qed.

Lemma building_put args rs ret ts bs s w q e n' :
  building n bs0 w0 cmd args rs ret ts bs s w -> (n' <= 2 * length ts + n)%nat ->
  grown n' bs0 bs w0 (User (put_arg w.(umem) cmd (length args) q e) w.(usys)).
Proof using All.
  intros [Hg He Hc Ht Hr] Hn. eapply grown_weaken; [exact Hn|].
  eapply grown_write; [exact Hg|apply He|done| |].
  - apply mem_ok_put_arg. eapply arena_ok, Hg.
  - intros x Hx. apply put_arg_out; [apply He|done].
Qed.

Lemma building_arg args rs ret ts bs s w k q e :
  building n bs0 w0 cmd args rs ret ((k, q, e) :: ts) bs s w -> (length args + 1 < MAXARGS)%nat ->
  0 <= q < 2 ^ 64 -> 0 <= e < 2 ^ 64 -> forall s', at_text w s' ts ->
  building n bs0 w0 cmd (args ++ [(q, e)]) rs ret ts bs s'
    (User (put_arg w.(umem) cmd (length args) q e) w.(usys)).
Proof using All.
  intros Hb Hn Hq Hee s' Ht'.
  pose proof (building_put _ _ _ _ _ _ _ q e (2 * length ts + n) Hb ltac:(simpl; lia)) as Hg1.
  destruct Hb as [Hg He Hc Ht Hr]. split; [done| | | |done]; cbn [umem].
  - by apply exec_at_snoc.
  - eapply chain_at_write; [|exact Hc]. intros x Hx. apply put_arg_out; [lia|done].
  - eapply at_text_grown; [exact Hg1|]. eapply at_text_back; [exact Hg|done].
Qed.

Lemma parseargs_spec k args rs ret ts bs s w :
  building n bs0 w0 cmd args rs ret ts bs s w -> noredir ts -> (length ts < k)%nat ->
  runs (psimple args rs ts) (parseargs k cmd ret (length args) s es) built w.
Proof using All.
  revert args rs ret ts bs s w; induction k as [|k IH]; intros args rs ret ts bs s w Hb Hnr Hk; [lia|].
  cbn [parseargs]. pose proof Hb as [Hg He Hc Ht Hr].
  eapply runs_peek; [exact Ht|by repeat constructor|]. intros s1 Ht1 Hend.
  assert (building n bs0 w0 cmd args rs ret ts bs s1 w) as Hb1 by (by split).
  destruct ts as [|[[tk q] e] ts].
  { eapply runs_end; [exact Ht1|]. rewrite (proj2 Hend eq_refl) in Hb1. split; [done|]. by exists bs. }
  cbn [psimple]. cbn in Hnr. rewrite Hnr.
  destruct (looks (chars "|)&;") ((tk, q, e) :: ts)) eqn:Hlk.
  { split; [done|]. by exists bs. }
  eapply runs_token; [exact Ht1|]. intros s2 Ht2 Hq Hee Htk.
  rewrite (proj2 (Z.eqb_neq tk 0) Htk).
  destruct (tk =? ch "a"); cbn [negb]; [|apply runs_err; [by eapply ready_grown|by right; left]].
  pose proof (building_put _ _ _ _ _ _ _ q e 0 Hb1 ltac:(lia)) as Hg1.
  do 2 apply runs_upd. cbn [umem usys]. fold (put_arg (umem w) cmd (length args) q e).
  destruct (Nat.leb_spec MAXARGS (length args + 1)) as [Hmax|Hmax].
  { apply runs_err; [by eapply ready_grown|by right; right; left]. }
  rewrite psimple_predirs. apply runs_bind.
  eapply runs_mono; [eapply building_redirs; [eapply building_arg; [exact Hb1|lia|lia|lia|exact Ht2]|]|].
  - by apply (lexed_length w.(umem) s2 es), Ht2.
  - intros rs' ts' [ret' s'] w' Hpr (bs' & Hb'). split.
    + intros o. rewrite (gn_output _ _ _ _ _ (bd_grown _ _ _ _ _ _ _ _ _ _ _ Hb')).
      by rewrite (gn_output _ _ _ _ _ Hg).
    + replace (length args + 1)%nat with (length (args ++ [(q, e)])) by (by rewrite length_app).
      eapply IH; [exact Hb'|by eapply predirs_noredir|].
      apply predirs_length in Hpr. simpl in Hk. lia.
Qed.
End args.

(** The result of a parsing function: the command is at the address it
    returns, and the rest of the line is at the pointer. *)
Definition cmd_done (n : nat) (bs : list (Z * Z)) (w : user OS)
    (c : cmd) (ts : list token) (x : Z * Z) (w' : user OS) : Prop :=
  exists bs', grown (2 * length ts + n) bs bs' w w' /\ cmd_at bs' w'.(umem) x.1 c /\
    at_text w' x.2 ts /\ 0 <= x.1 < 2 ^ 64.

Lemma exec_at_end bs m p args :
  exec_at bs m p args -> cmd_at bs (put_arg m p (length args) 0 0) p (CExec args).
Proof.
  unfold exec_at, put_arg, argv_off, eargv_off, MAXARGS. intros (Hb & Hp & Ht & Hl & Ha).
  cbn [cmd_at]. unfold argv_off. split; [|by node_loads].
  unfold exec_at, argv_off, eargv_off, MAXARGS. split_and!; [done..| |done|].
  - by node_loads.
  - intros i a Hi. pose proof (lookup_lt_Some _ _ _ Hi). destruct (Ha i a Hi) as [<- <-].
    split; by node_loads.
Qed.

Lemma parsesimple_spec ts s n bs w :
  at_text w s ts -> ready w -> arena (2 * length ts + 1 + n) bs w ->
  runs (pbind (psimple [] [] ts) (fun '(args, rs) ts => POk (wrap rs (CExec args)) ts))
    (parsesimple s es) (cmd_done n bs w) w.
Proof using All.
  intros Ht Hr Ha. unfold parsesimple.
  eapply runs_call; [apply (execcmd_spec (2 * length ts + n)); by rewrite Nat.add_1_r in Ha|].
  intros cmd w1 (Hg & Hp & Hlt & Hf & He). split; [apply Hg|].
  assert (building n bs w cmd [] [] cmd ts ((cmd, execcmd_size) :: bs) s w1) as Hb.
  { split; try done; [by eapply at_text_grown|]. unfold execcmd_size in Hlt. lia. }
  rewrite psimple_predirs, pbind_assoc. apply runs_bind.
  eapply runs_mono; [eapply (building_redirs n bs w cmd Hr Hf fuel); [exact Hb|]|].
  { by apply (lexed_length w.(umem) s es), Ht. }
  intros rs ts1 [ret s1] w2 Hpr (bs1 & Hb1). pose proof (bd_grown _ _ _ _ _ _ _ _ _ _ _ Hb1) as Hg1.
  split; [intros o; by rewrite (gn_output _ _ _ _ _ Hg1), (gn_output _ _ _ _ _ Hg)|].
  apply runs_bind.
  eapply runs_mono; [eapply (parseargs_spec n bs w cmd Hr Hf fuel []);
    [exact Hb1|by eapply predirs_noredir|eapply lexed_length; apply Hb1]|].
  intros [args rs'] ts2 [[ret' argc] s2] w3 _ [Hargc (bs2 & Hb2)]. cbn [fst snd] in *. subst argc.
  pose proof (bd_grown _ _ _ _ _ _ _ _ _ _ _ Hb2) as Hg2.
  split; [intros o; by rewrite (gn_output _ _ _ _ _ Hg2), (gn_output _ _ _ _ _ Hg1)|].
  cbn [runs]. do 2 apply upd_bind. apply wpx_ret. cbn [umem usys].
  fold (put_arg (umem w3) cmd (length args) 0 0).
  pose proof (building_put n bs w cmd Hr Hf _ _ _ _ _ _ _ 0 0 _ Hb2 ltac:(reflexivity)) as Hg3.
  destruct Hb2 as [_ He2 Hc2 Ht2 Hr2]. exists bs2. split; [done|]. cbn [fst snd umem]. split; [|split; [|done]].
  - eapply chain_cmd_at; [eapply chain_at_write; [|exact Hc2]|by apply exec_at_end].
    intros x Hx. apply put_arg_out; [apply He2|done].
  - eapply at_text_grown; [exact Hg3|]. eapply at_text_back; [exact Hg2|exact Ht2].
Qed.

(** ** Lines, pipelines and blocks *)

Lemma looks_cons toks ts : looks toks ts = true -> exists k q e ts', ts = (k, q, e) :: ts'.
Proof. destruct ts as [|[[k q] e] ts]; [done|]. intros _. by exists k, q, e, ts. Qed.

Lemma cmd_done_start n bs w c ts p s :
  at_text w s ts -> arena (2 * length ts + n) bs w -> cmd_at bs w.(umem) p c -> 0 <= p < 2 ^ 64 ->
  cmd_done n bs w c ts (p, s) w.
Proof. intros Ht Ha Hc Hp. exists bs. split; [by apply grown_refl|done]. Qed.

Lemma cmd_done_trans m n bs bs1 w w1 c ts x w2 :
  grown m bs bs1 w w1 -> cmd_done n bs1 w1 c ts x w2 -> cmd_done n bs w c ts x w2.
Proof. intros Hg (bs2 & Hg2 & H). exists bs2. split; [by eapply grown_trans|done]. Qed.

Lemma parsebacks_spec k p c ts s n bs w :
  (length ts < k)%nat -> at_text w s ts -> arena (2 * length ts + n) bs w ->
  cmd_at bs w.(umem) p c -> 0 <= p < 2 ^ 64 ->
  runs (let '(c', ts') := pbacks c ts in POk c' ts') (parsebacks k p s es) (cmd_done n bs w) w.
Proof using All.
  revert p c ts s bs w; induction k as [|k IH]; intros p c ts s bs w Hk Ht Ha Hc Hp; [lia|].
  cbn [parsebacks]. eapply runs_peek; [exact Ht|by repeat constructor|]. clear s Ht. intros s Ht _.
  destruct ts as [|[[tk q] e] ts]; [by apply cmd_done_start|]. cbn [pbacks].
  destruct (looks (chars "&") ((tk, q, e) :: ts)); [|by apply cmd_done_start].
  eapply runs_token; [exact Ht|]. clear s Ht. intros s Ht _ _ _. simpl length in *.
  eapply runs_call; [apply (backcmd_spec (1 + 2 * length ts + n) bs); [|done]|].
  { by replace (S (1 + 2 * length ts + n)) with (2 * S (length ts) + n)%nat by lia. }
  intros p1 w1 (Hg & Hp1 & Hb). split; [apply Hg|].
  eapply grown_weaken in Hg; [|instantiate (1 := (2 * length ts + n)%nat); lia].
  eapply runs_mono; [eapply (IH p1 (CBack c) ts s); [lia|by eapply at_text_grown|apply Hg| |done]|].
  - exists p. split; [done|]. eapply cmd_at_keep; [by eapply tree_grown_keeps|apply Hg|done].
  - intros c' ts' x w2 _. by apply (cmd_done_trans _ _ _ _ _ _ _ _ _ _ Hg).
Qed.

(** A parsing function that agrees with the reference on every line. *)
Definition parses_ok (ref : list token -> pres cmd) (f : Z -> Z -> U OS (Z * Z)) : Prop :=
  forall ts s n bs w, at_text w s ts -> ready w -> arena (2 * length ts + 1 + n) bs w ->
  runs (ref ts) (f s es) (cmd_done n bs w) w.

(** The second half of a pipeline or list. *)
Lemma pair_step type con ref rec k q e ts c p s n bs w w1 :
  parses_ok ref rec -> 0 <= type < 2 ^ 32 ->
  (forall bs m p l r lp rp, pair_at type bs m p lp rp -> cmd_at bs m lp l -> cmd_at bs m rp r ->
     cmd_at bs m p (con l r)) ->
  ready w1 -> cmd_done n bs w c ((k, q, e) :: ts) (p, s) w1 ->
  runs (pbind (ref ts) (fun r ts => POk (con c r) ts))
    ('(_, _, _, ps) ← gettoken s es;
     '(rcmd, ps) ← rec ps es;
     cmd ← (cmd ← malloc pipecmd_size;
            memset cmd 0 pipecmd_size;;
            st32 cmd type;;
            st64 (cmd + 8) p;;
            st64 (cmd + 16) rcmd;;
            mret cmd);
     mret (cmd, ps)) (cmd_done n bs w) w1.
Proof using All.
  intros Hrec Htype Hcon Hr (bs1 & Hg & Hc & Ht & Hp). cbn [fst snd] in *. simpl length in *.
  eapply runs_token; [exact Ht|]. clear s Ht. intros s Ht _ _ _.
  apply runs_bind. eapply runs_mono; [apply (Hrec ts s (S n) bs1 w1 Ht Hr)|].
  { replace (2 * length ts + 1 + S n)%nat with (2 * S (length ts) + n)%nat by lia. apply Hg. }
  intros r ts2 [rp s2] w2 _ (bs2 & Hg2 & Hc2 & Ht2 & Hp2). cbn [fst snd] in *.
  split; [apply Hg2|]. cbn [runs].
  eapply wpx_call; [apply (paircmd_spec type (2 * length ts2 + n) bs2); try done|].
  { replace (S (2 * length ts2 + n)) with (2 * length ts2 + S n)%nat by lia. apply Hg2. }
  intros p3 w3 (Hg3 & Hp3 & Hpair). apply wpx_ret. exists ((p3, pipecmd_size) :: bs2).
  cbn [fst snd]. split; [|split; [|split; [by eapply at_text_grown|done]]].
  - eapply grown_trans; [exact Hg|]. by eapply grown_trans.
  - eapply Hcon; [exact Hpair| |].
    + eapply cmd_at_keep; [by eapply tree_grown_keeps|apply Hg3|].
      eapply cmd_at_keep; [by eapply tree_grown_keeps|apply Hg2|done].
    + eapply cmd_at_keep; [by eapply tree_grown_keeps|apply Hg3|done].
Qed.

Definition block_ok (k : nat) : Prop :=
  forall ts s n bs w, looks (chars "(") ts = true ->
  at_text w s ts -> ready w -> arena (2 * length ts + 1 + n) bs w ->
  runs (pblock k ts) (parseblock k s es) (cmd_done n bs w) w.

Lemma parseexec_ok k : block_ok k -> parses_ok (pexec (S k)) (parseexec (S k)).
Proof using All.
  intros Hb ts s n bs w Ht Hr Ha. cbn [pexec parseexec].
  eapply runs_peek; [exact Ht|by repeat constructor|]. intros s1 Ht1 _.
  destruct (looks (chars "(") ts) eqn:Hl; [by apply Hb|by apply parsesimple_spec].
Qed.

Lemma parsepipe_ok k :
  parses_ok (pexec k) (parseexec k) -> parses_ok (ppipe k) (parsepipe k) ->
  parses_ok (ppipe (S k)) (parsepipe (S k)).
Proof using All.
  intros He Hp ts s n bs w Ht Hr Ha. cbn [ppipe parsepipe].
  apply runs_bind. eapply runs_mono; [by apply (He ts s n bs w)|].
  intros c ts1 [p s1] w1 _ Hd. pose proof Hd as (bs1 & Hg1 & Hc1 & Ht1 & Hp1). cbn [fst snd] in *.
  split; [apply Hg1|]. eapply runs_peek; [exact Ht1|by repeat constructor|]. intros s2 Ht2 _.
  assert (cmd_done n bs w c ts1 (p, s2) w1) as Hd2 by (by exists bs1).
  destruct (looks (chars "|") ts1) eqn:Hl; [|exact Hd2].
  apply looks_cons in Hl as (k2 & q & e & ts2 & ->). cbn [tail].
  eapply (pair_step PIPE CPipe); try done; [|by eapply ready_grown].
  intros bs' m p' l r lp rp H1 H2 H3. by exists lp, rp.
Qed.

Lemma parseline_ok k :
  parses_ok (ppipe k) (parsepipe k) -> parses_ok (pline k) (parseline k) ->
  parses_ok (pline (S k)) (parseline (S k)).
Proof using All.
  intros Hp Hl ts s n bs w Ht Hr Ha. cbn [pline parseline].
  apply runs_bind. eapply runs_mono; [by apply (Hp ts s n bs w)|].
  intros c ts1 [p s1] w1 _ (bs1 & Hg1 & Hc1 & Ht1 & Hp1). cbn [fst snd] in *.
  split; [apply Hg1|].
  pose proof (parsebacks_spec fuel p c ts1 s1 n bs1 w1) as Hbacks.
  destruct (pbacks c ts1) as [c2 ts2].
  eapply runs_call; [apply Hbacks; try done; [by eapply lexed_length, Ht1|apply Hg1]|].
  intros [p2 s2] w2 Hd2. pose proof (cmd_done_trans _ _ _ _ _ _ _ _ _ _ Hg1 Hd2) as Hd.
  destruct Hd2 as (bs2 & Hg2 & Hc2 & Ht2 & Hp2). cbn [fst snd] in *. split; [apply Hg2|].
  eapply runs_peek; [exact Ht2|by repeat constructor|]. intros s3 Ht3 _.
  assert (cmd_done n bs w c2 ts2 (p2, s3) w2) as Hd3.
  { destruct Hd as (bs3 & Hg3 & Hc3 & _ & _). by exists bs3. }
  destruct (looks (chars ";") ts2) eqn:Hlk; [|exact Hd3].
  apply looks_cons in Hlk as (k2 & q & e & ts3 & ->). cbn [tail].
  eapply (pair_step LIST CList); try done; [|by eapply ready_grown, ready_grown].
  intros bs' m p' l r lp rp H1 H2 H3. by exists lp, rp.
Qed.

Lemma parseblock_ok k : parses_ok (pline k) (parseline k) -> block_ok (S k).
Proof using All.
  intros Hl ts s n bs w Hlk Ht Hr Ha. cbn [pblock parseblock].
  eapply runs_peek; [exact Ht|by repeat constructor|]. clear s Ht. intros s Ht _. rewrite Hlk. cbn [negb].
  apply looks_cons in Hlk as (k2 & q & e & ts1 & ->). cbn [tail]. simpl length in Ha.
  eapply runs_token; [exact Ht|]. clear s Ht. intros s Ht _ _ _.
  apply runs_bind. eapply runs_mono; [apply (Hl ts1 s (S (S n)) bs w Ht Hr)|].
  { by replace (2 * length ts1 + 1 + S (S n))%nat with (2 * S (length ts1) + 1 + n)%nat by lia. }
  intros c ts2 [p s2] w1 _ (bs1 & Hg1 & Hc1 & Ht2 & Hp1). cbn [fst snd] in *.
  split; [apply Hg1|]. eapply runs_peek; [exact Ht2|by repeat constructor|]. intros s3 Ht3 _.
  destruct (looks (chars ")") ts2) eqn:Hlk; cbn [negb].
  2:{ apply runs_err; [by eapply ready_grown|by do 4 right; left]. }
  apply looks_cons in Hlk as (k3 & q3 & e3 & ts3 & ->). cbn [tail]. simpl length in Hg1.
  eapply runs_token; [exact Ht3|]. intros s4 Ht4 _ _ _.
  eapply grown_weaken in Hg1; [|instantiate (1 := (2 * length ts3 + n)%nat); lia].
  assert (runs (predirs [] ts3) (parseredirs fuel p s4 es) (redirs_done n bs1 (fun _ => False) p w1) w1) as Hrd.
  { apply parseredirs_spec; try done; [by eapply lexed_length, Ht4|by eapply ready_grown|apply Hg1]. }
  unfold runs in *. destruct (predirs [] ts3) as [rs ts5|msg|]; cbn [pbind]; [|done..].
  eapply wpx_mono; [exact Hrd|]. intros x w3 (bs3 & Hg3 & Hch & Ht5 & Hp3). exists bs3.
  split; [by eapply grown_trans|]. split; [|done].
  eapply chain_cmd_at; [exact Hch|]. eapply cmd_at_keep; [by eapply tree_grown_keeps|apply Hg3|done].
Qed.

Lemma parser_ok k :
  parses_ok (pline k) (parseline k) /\ parses_ok (ppipe k) (parsepipe k) /\
  block_ok k /\ parses_ok (pexec k) (parseexec k).
Proof using All.
  induction k as [|k (Hl & Hp & Hb & He)]; [by split_and!; red; intros|].
  split_and!; [by apply parseline_ok|by apply parsepipe_ok|by apply parseblock_ok|by apply parseexec_ok].
Qed.
End parse.
