(* ===== verification/ShTree.v ===== *)
(** * The shell: from the line to the command

    The words of the tokens, [nulterminate], and [parsecmd] as a whole: for
    every line the command of the reference with its words as C strings, or
    the error of the reference; and the round trip from commands to text and
    back. *)

From S2P Require Import Prelude Memory CString Sysfile User Ulib Uprintf Utils Heap Sh ShSpec ShParse.

(** ** Words *)

Definition wordchar (c : Z) : bool := negb (c =? 0) && negb (space c) && negb (symbol c).

(** [q] to [e] is a word of the text: word characters, and none after it. *)
Record word_at (m : memory) (q e : Z) : Prop := {
  wd_start : q < e;
  wd_chars : forall x, q <= x < e -> wordchar (mget m x) = true;
  wd_end : wordchar (mget m e) = false;
}.

Definition is_word (m : memory) (lo hi : Z) (t : token) : Prop :=
  t.1.1 = ch "a" -> word_at m t.1.2 t.2 /\ lo <= t.1.2 /\ t.2 <= hi.

Lemma close_word_ok m lo a q :
  lo <= q < a -> (forall x, q <= x < a -> wordchar (mget m x) = true) -> wordchar (mget m a) = false ->
  forall hi, a <= hi -> is_word m lo hi (ch "a", q, a).
Proof. intros Hq Hc He hi Ha _. cbn. split; [split; (done || lia)|lia]. Qed.

Lemma is_word_symbol m lo hi k q e : k <> ch "a" -> is_word m lo hi (k, q, e).
Proof. by intros Hk ?. Qed.

Lemma symbol_not_a c : symbol c = true -> c <> ch "a".
Proof. by intros Hs ->. Qed.

Lemma tokens_words m lo a l cur :
  cstr m a l -> lo <= a -> (forall q, cur = Some q -> lo <= q < a /\ forall x, q <= x < a -> wordchar (mget m x) = true) ->
  Forall (is_word m lo (a + Z.of_nat (length l))) (tokens a l cur).
Proof.
  revert a cur. induction l as [l IH] using (induction_ltof1 _ (@length Z)). unfold ltof in IH.
  intros a cur Hl Hlo Hcur.
  assert (wordchar (mget m a) = false -> forall hi, a <= hi -> Forall (is_word m lo hi) (close_word cur a)) as Hclose.
  { intros He hi Hhi. destruct cur as [q|]; [|done]. destruct (Hcur q eq_refl) as [Hq Hc].
    apply Forall_singleton. by apply close_word_ok. }
  destruct l as [|c l]; cbn [tokens].
  { apply cstr_nil in Hl. apply Hclose; [by rewrite Hl|simpl; lia]. }
  apply cstr_cons in Hl as (Hc & Hc0 & Hl). simpl length.
  replace (a + Z.of_nat (S (length l))) with (a + 1 + Z.of_nat (length l)) by lia.
  destruct (space c) eqn:Hsp; [|destruct (symbol c) eqn:Hsy].
  - apply Forall_app. split; [apply Hclose; [|lia]; unfold wordchar; by rewrite Hc, Hsp, andb_false_r|].
    apply IH; [simpl; lia|done|lia|done].
  - apply Forall_app. split; [apply Hclose; [|lia]; unfold wordchar; by rewrite Hc, Hsy, andb_false_r|].
    destruct l as [|d l]; [apply Forall_singleton, is_word_symbol; by apply symbol_not_a|].
    destruct ((c =? ch ">") && (d =? ch ">")); constructor; try (apply is_word_symbol; (done || by apply symbol_not_a)).
    + apply cstr_cons in Hl as (_ & _ & Hl). simpl length.
      replace (a + 1 + Z.of_nat (S (length l))) with (a + 2 + Z.of_nat (length l)) by lia.
      apply IH; [simpl; lia|by replace (a + 2) with (a + 1 + 1) by lia|lia|done].
    + apply IH; [simpl; lia|done|lia|done].
  - apply IH; [simpl; lia|done|lia|]. intros q [= <-].
    assert (wordchar (mget m a) = true) as Hw.
    { unfold wordchar. by rewrite Hc, Hsp, Hsy, (proj2 (Z.eqb_neq c 0) Hc0). }
    destruct cur as [q|]; simpl.
    + destruct (Hcur q eq_refl) as [Hq Hcs]. split; [lia|]. intros x Hx.
      destruct (decide (x = a)) as [->|]; [done|]. apply Hcs. lia.
    + split; [lia|]. intros x Hx. by replace x with a by lia.
Qed.

(** The words of a command. *)
Fixpoint cmd_words (c : cmd) : list (Z * Z) :=
  match c with
  | CExec args => args
  | CRedir c q e _ _ => cmd_words c ++ [(q, e)]
  | CPipe l r | CList l r => cmd_words l ++ cmd_words r
  | CBack c => cmd_words c
  end.

(** The words of the tokens. *)
Definition from_tokens (ts : list token) (a : Z * Z) : Prop := (ch "a", a.1, a.2) ∈ ts.

Definition redir_words (rs : list redir) : list (Z * Z) := map (fun '(q, e, _, _) => (q, e)) rs.

Lemma wrap_words rs c a : a ∈ cmd_words (wrap rs c) <-> a ∈ redir_words rs \/ a ∈ cmd_words c.
Proof.
  induction rs as [|[[[q e] mode] fd] rs IH]; cbn [wrap cmd_words redir_words map].
  - rewrite elem_of_nil. tauto.
  - rewrite elem_of_app, list_elem_of_singleton, elem_of_cons. unfold redir_words in IH. rewrite IH. tauto.
Qed.

Lemma tail_incl {A} (ts : list A) : tail ts ⊆ ts.
Proof. destruct ts; set_solver. Qed.

Lemma from_tokens_incl ts ts' a : ts' ⊆ ts -> from_tokens ts' a -> from_tokens ts a.
Proof. unfold from_tokens. set_solver. Qed.

Lemma predirs_words rs ts rs' ts' :
  predirs rs ts = POk rs' ts' ->
  ts' ⊆ ts /\ forall a, a ∈ redir_words rs' -> a ∈ redir_words rs \/ from_tokens ts a.
Proof.
  revert rs. induction ts as [ts IH] using (induction_ltof1 _ (@length token)). unfold ltof in IH.
  intros rs. destruct ts as [|[[k q] e] ts]; cbn [predirs]; [intros [= <- <-]; auto|].
  destruct (redir_mode k) as [[mode fd]|]; [|intros [= <- <-]; auto].
  destruct ts as [|[[k2 q2] e2] ts]; [done|]. destruct (Z.eqb_spec k2 (ch "a")) as [->|]; [|done].
  intros E. apply IH in E as [Hs Hw]; [|simpl; lia]. split; [set_solver|].
  intros a Ha. apply Hw in Ha as [Ha|Ha].
  - cbn in Ha. apply elem_of_cons in Ha as [->|Ha]; [|by left]. right. unfold from_tokens. cbn. set_solver.
  - right. eapply from_tokens_incl; [|exact Ha]. set_solver.
Qed.

Lemma psimple_words args rs ts args' rs' ts' :
  psimple args rs ts = POk (args', rs') ts' ->
  ts' ⊆ ts /\ forall a, a ∈ redir_words rs' \/ a ∈ args' ->
    a ∈ redir_words rs \/ a ∈ args \/ from_tokens ts a.
Proof.
  revert args rs. induction ts as [ts IH] using (induction_ltof1 _ (@length token)). unfold ltof in IH.
  intros args rs. destruct ts as [|[[k q] e] ts]; cbn [psimple]; [intros [= <- <- <-]; naive_solver|].
  destruct (redir_mode k) as [[mode fd]|].
  - destruct ts as [|[[k2 q2] e2] ts]; [done|]. destruct (Z.eqb_spec k2 (ch "a")) as [->|]; [|done].
    intros E. apply IH in E as [Hs Hw]; [|simpl; lia]. split; [set_solver|].
    intros a Ha. apply Hw in Ha as [Ha|[Ha|Ha]]; [|by right; left|].
    + cbn in Ha. apply elem_of_cons in Ha as [->|Ha]; [|by left]. do 2 right. unfold from_tokens. cbn. set_solver.
    + do 2 right. eapply from_tokens_incl; [|exact Ha]. set_solver.
  - destruct (looks _ _); [intros [= <- <- <-]; naive_solver|].
    destruct (Z.eqb_spec k (ch "a")) as [->|]; [|done]. destruct (MAXARGS <=? _)%nat; [done|].
    intros E. apply IH in E as [Hs Hw]; [|simpl; lia]. split; [set_solver|].
    intros a Ha. apply Hw in Ha as [Ha|[Ha|Ha]]; [by left| |].
    + apply elem_of_app in Ha as [Ha|Ha]; [by right; left|]. apply list_elem_of_singleton in Ha as ->.
      do 2 right. unfold from_tokens. cbn. set_solver.
    + do 2 right. eapply from_tokens_incl; [|exact Ha]. set_solver.
Qed.

Lemma pbacks_words c ts c' ts' :
  pbacks c ts = (c', ts') -> ts' ⊆ ts /\ cmd_words c' = cmd_words c.
Proof.
  revert c; induction ts as [|t ts IH]; intros c; cbn [pbacks]; [by intros [= <- <-]|].
  destruct (looks _ _); [|by intros [= <- <-]]. intros [Hs Hw]%IH. split; [set_solver|done].
Qed.

(** The result of a parsing function uses the words of its tokens. *)
Definition uses_tokens (ref : list token -> pres cmd) : Prop :=
  forall ts c ts', ref ts = POk c ts' -> ts' ⊆ ts /\ forall a, a ∈ cmd_words c -> from_tokens ts a.

Lemma pbind_ok {A C} (r : pres A) (k : A -> list token -> pres C) c ts' :
  pbind r k = POk c ts' -> exists a ts, r = POk a ts /\ k a ts = POk c ts'.
Proof. destruct r as [a ts| |]; [|done..]. intros E. by exists a, ts. Qed.

(** Two commands in a row. *)
Lemma uses_pair (ref : list token -> pres cmd) con ts ts1 c c' ts' :
  uses_tokens ref -> (forall l r, cmd_words (con l r) = cmd_words l ++ cmd_words r) ->
  ts1 ⊆ ts -> (forall a, a ∈ cmd_words c -> from_tokens ts a) ->
  pbind (ref (tail ts1)) (fun r ts => POk (con c r) ts) = POk c' ts' ->
  ts' ⊆ ts /\ forall a, a ∈ cmd_words c' -> from_tokens ts a.
Proof.
  intros Hu Hcon Hs Hc (r & ts2 & E & [= <- <-])%pbind_ok. apply Hu in E as [Hs2 Hr].
  pose proof (tail_incl ts1) as Ht. split; [set_solver|]. intros a. rewrite Hcon, elem_of_app.
  intros [Ha|Ha]; [by apply Hc|]. eapply from_tokens_incl; [|by apply Hr]. set_solver.
Qed.

Lemma parser_words k :
  uses_tokens (pline k) /\ uses_tokens (ppipe k) /\ uses_tokens (pblock k) /\ uses_tokens (pexec k).
Proof.
  induction k as [|k (Hl & Hp & Hb & He)]; [by split_and!; intros ? ? ?|].
  split_and!; intros ts c ts'; cbn [pline ppipe pblock pexec].
  - intros (c1 & ts1 & E1 & E)%pbind_ok. apply Hp in E1 as [Hs1 Hc1].
    destruct (pbacks c1 ts1) as [c2 ts2] eqn:E2. apply pbacks_words in E2 as [Hs2 Hw2]. rewrite <-Hw2 in Hc1.
    destruct (looks _ _); [|injection E as <- <-; split; [set_solver|done]].
    eapply (uses_pair (pline k) CList); [done|done| |exact Hc1|exact E]. set_solver.
  - intros (c1 & ts1 & E1 & E)%pbind_ok. apply He in E1 as [Hs1 Hc1].
    destruct (looks _ _); [|injection E as <- <-; split; [set_solver|done]].
    by eapply (uses_pair (ppipe k) CPipe).
  - intros (c1 & ts1 & E1 & E)%pbind_ok. apply Hl in E1 as [Hs1 Hc1].
    destruct (looks _ _); [|done]. apply pbind_ok in E as (rs & ts2 & E2 & [= <- <-]).
    apply predirs_words in E2 as [Hs2 Hw2]. pose proof (tail_incl ts). pose proof (tail_incl ts1).
    split; [set_solver|]. intros a [Ha|Ha]%wrap_words.
    + apply Hw2 in Ha as [Ha|Ha]; [by apply elem_of_nil in Ha|]. eapply from_tokens_incl; [|exact Ha]. set_solver.
    + eapply from_tokens_incl; [|by apply Hc1]. done.
  - destruct (looks _ _); [apply Hb|]. intros ([args rs] & ts1 & E1 & [= <- <-])%pbind_ok.
    apply psimple_words in E1 as [Hs1 Hw1]. split; [done|]. intros a [Ha|Ha]%wrap_words.
    + destruct (Hw1 a (or_introl Ha)) as [H|[H|H]]; [by apply elem_of_nil in H..|done].
    + destruct (Hw1 a (or_intror Ha)) as [H|[H|H]]; [by apply elem_of_nil in H..|done].
Qed.

(** ** The depth of the tree *)

Fixpoint cdepth (c : cmd) : nat :=
  match c with
  | CExec _ => 1
  | CRedir c _ _ _ _ | CBack c => S (cdepth c)
  | CPipe l r | CList l r => S (cdepth l `max` cdepth r)
  end.

Lemma cdepth_pos c : (0 < cdepth c)%nat.
Proof. destruct c; simpl; lia. Qed.

Lemma wrap_depth rs c : cdepth (wrap rs c) = (length rs + cdepth c)%nat.
Proof. induction rs as [|[[[q e] mode] fd] rs IH]; simpl; [done|]. by rewrite IH. Qed.

Lemma predirs_depth rs ts rs' ts' :
  predirs rs ts = POk rs' ts' -> (length rs' + length ts' <= length rs + length ts)%nat.
Proof.
  revert rs. induction ts as [ts IH] using (induction_ltof1 _ (@length token)). unfold ltof in IH.
  intros rs. destruct ts as [|[[k q] e] ts]; cbn [predirs]; [by intros [= <- <-]|].
  destruct (redir_mode k) as [[mode fd]|]; [|by intros [= <- <-]].
  destruct ts as [|[[k2 q2] e2] ts]; [done|]. destruct (k2 =? ch "a"); [|done].
  intros E. apply IH in E; simpl in *; lia.
Qed.

Lemma psimple_depth args rs ts args' rs' ts' :
  psimple args rs ts = POk (args', rs') ts' -> (length rs' + length ts' <= length rs + length ts)%nat.
Proof.
  revert args rs. induction ts as [ts IH] using (induction_ltof1 _ (@length token)). unfold ltof in IH.
  intros args rs. destruct ts as [|[[k q] e] ts]; cbn [psimple]; [by intros [= <- <- <-]|].
  destruct (redir_mode k) as [[mode fd]|].
  - destruct ts as [|[[k2 q2] e2] ts]; [done|]. destruct (k2 =? ch "a"); [|done].
    intros E. apply IH in E; simpl in *; lia.
  - destruct (looks _ _); [by intros [= <- <- <-]|]. destruct (k =? ch "a"); [|done].
    destruct (MAXARGS <=? _)%nat; [done|]. intros E. apply IH in E; simpl in *; lia.
Qed.

Lemma pbacks_depth c ts c' ts' :
  pbacks c ts = (c', ts') -> (cdepth c' + length ts' <= cdepth c + length ts)%nat.
Proof.
  revert c; induction ts as [|t ts IH]; intros c; cbn [pbacks]; [by intros [= <- <-]|].
  destruct (looks _ _); [|by intros [= <- <-]]. intros E%IH. simpl in *. lia.
Qed.

Definition depth_ok (ref : list token -> pres cmd) : Prop :=
  forall ts c ts', ref ts = POk c ts' -> (cdepth c + length ts' <= S (length ts))%nat.

Lemma looks_length toks ts : looks toks ts = true -> length ts = S (length (tail ts)).
Proof. by destruct ts. Qed.

Lemma parser_depth k :
  depth_ok (pline k) /\ depth_ok (ppipe k) /\ depth_ok (pblock k) /\ depth_ok (pexec k).
Proof.
  induction k as [|k (Hl & Hp & Hb & He)]; [by split_and!; intros ? ? ?|].
  split_and!; intros ts c ts'; cbn [pline ppipe pblock pexec].
  - intros (c1 & ts1 & E1 & E)%pbind_ok. apply Hp in E1.
    destruct (pbacks c1 ts1) as [c2 ts2] eqn:E2. apply pbacks_depth in E2.
    destruct (looks _ ts2) eqn:Hlk; [|injection E as <- <-; lia]. apply looks_length in Hlk.
    apply pbind_ok in E as (r & ts3 & E3 & [= <- <-]). apply Hl in E3. simpl.
    pose proof (cdepth_pos c2). pose proof (cdepth_pos r). lia.
  - intros (c1 & ts1 & E1 & E)%pbind_ok. apply He in E1.
    destruct (looks _ ts1) eqn:Hlk; [|injection E as <- <-; lia]. apply looks_length in Hlk.
    apply pbind_ok in E as (r & ts3 & E3 & [= <- <-]). apply Hp in E3. simpl.
    pose proof (cdepth_pos c1). pose proof (cdepth_pos r). lia.
  - intros (c1 & ts1 & E1 & E)%pbind_ok. apply Hl in E1.
    assert (length (tail ts) <= length ts)%nat by (destruct ts; simpl; lia).
    destruct (looks _ ts1) eqn:Hlk; [|done]. apply looks_length in Hlk.
    apply pbind_ok in E as (rs & ts2 & E2 & [= <- <-]). apply predirs_depth in E2.
    rewrite wrap_depth. simpl in E2. lia.
  - destruct (looks _ _); [apply Hb|]. intros ([args rs] & ts1 & E1 & [= <- <-])%pbind_ok.
    apply psimple_depth in E1. rewrite wrap_depth. simpl in *. lia.
Qed.

(** ** nulterminate *)

Definition nul_all (m : memory) (l : list Z) : memory := foldl (fun m e => mput m e 0) m l.

Lemma mget_nul_all m l x : mget (nul_all m l) x = if decide (x ∈ l) then 0 else mget m x.
Proof.
  revert m; induction l as [|e l IH]; intros m; cbn [nul_all foldl].
  - case_decide as H; [by apply elem_of_nil in H|done].
  - change (mget (nul_all (mput m e 0) l) x = if decide (x ∈ e :: l) then 0 else mget m x).
    rewrite IH, mget_mput. repeat case_decide; try done; set_solver.
Qed.

Lemma nul_all_app m l1 l2 : nul_all m (l1 ++ l2) = nul_all (nul_all m l1) l2.
Proof. apply foldl_app. Qed.

Definition ends (c : cmd) : list Z := map snd (cmd_words c).

Lemma nul_all_keeps bs m l : (forall e, e ∈ l -> ~ in_blocks bs e) -> keeps bs m (nul_all m l).
Proof. intros Hl x Hx. rewrite mget_nul_all, decide_False; [done|]. intros H. by apply (Hl x). Qed.

Section nul.
Context {OS : Type} `{K : Kernel OS, FUE : Fuel} (B : user OS -> Prop) (bs : list (Z * Z)).

Lemma nul_args_spec k p args i (w : user OS) :
  cmd_at bs w.(umem) p (CExec args) -> Forall (fun a => a.1 <> 0 /\ ~ in_blocks bs a.2) args ->
  (i <= length args)%nat -> (length args - i < k)%nat ->
  wpx B (nul_args k p i) (fun _ w' => w' = User (nul_all w.(umem) (map snd (drop i args))) w.(usys)) w.
Proof.
  revert i w; induction k as [|k IH]; intros i w Hc Hargs Hi Hk; [lia|]. cbn [nul_args].
  pose proof Hc as [(Hb & Hp & Ht & Hl & Ha) H0].
  apply wpx_bind, wpx_gets. destruct (args !! i) as [[q e]|] eqn:Hlk.
  - destruct (Ha i (q, e) Hlk) as [Hq He]. cbn in Hq, He. rewrite Hq.
    destruct (Forall_lookup_1 _ _ _ _ Hargs Hlk) as [Hq0 Hen]. cbn in Hq0, Hen.
    rewrite (proj2 (ztrue_true q) Hq0). apply wpx_bind, wpx_gets. rewrite He. apply upd_bind.
    apply lookup_lt_Some in Hlk as Hlt. rewrite (drop_S _ (q, e)) by done.
    eapply wpx_mono; [apply (IH (i + 1)%nat); cbn [umem]; try done; try lia|].
    + eapply cmd_at_keep; [|reflexivity|exact Hc]. apply (nul_all_keeps bs _ [e]). set_solver.
    + intros [] w' ->. cbn [umem usys]. by replace (i + 1)%nat with (S i) by lia.
  - apply lookup_ge_None_1 in Hlk. assert (i = length args) as -> by lia. rewrite H0.
    apply wpx_ret. rewrite drop_all. by destruct w.
Qed.

Definition nul_ok (c : cmd) : Prop :=
  forall k p (w : user OS), cmd_at bs w.(umem) p c ->
  Forall (fun a => a.1 <> 0 /\ ~ in_blocks bs a.2) (cmd_words c) -> (cdepth c < k)%nat ->
  wpx B (nulterminate k p) (fun r w' => r = p /\ w' = User (nul_all w.(umem) (ends c)) w.(usys)) w.

Lemma ends_keep c m :
  Forall (fun a => a.1 <> 0 /\ ~ in_blocks bs a.2) (cmd_words c) -> keeps bs m (nul_all m (ends c)).
Proof.
  intros Hw. apply nul_all_keeps. intros e (a & -> & Ha)%list_elem_of_fmap.
  rewrite Forall_forall in Hw. by apply Hw.
Qed.

(** A pipeline or a list. *)
Lemma nul_pair type l r con p k (w : user OS) :
  (type = PIPE /\ con = CPipe) \/ (type = LIST /\ con = CList) ->
  nul_ok l -> nul_ok r -> cmd_at bs w.(umem) p (con l r) ->
  Forall (fun a => a.1 <> 0 /\ ~ in_blocks bs a.2) (cmd_words (con l r)) -> (cdepth (con l r) < S k)%nat ->
  wpx B (nulterminate (S k) p)
    (fun x w' => x = p /\ w' = User (nul_all w.(umem) (ends (con l r))) w.(usys)) w.
Proof.
  intros Ht0 IHl IHr Hc Hw Hk. cbn [nulterminate].
  assert (exists lp rp, pair_at type bs w.(umem) p lp rp /\ cmd_at bs w.(umem) lp l /\ cmd_at bs w.(umem) rp r)
    as (lp & rp & (Hb & Hp & Ht & Hl & Hr) & Hcl & Hcr) by (destruct Ht0 as [[-> ->]|[-> ->]]; exact Hc).
  assert (cmd_words (con l r) = cmd_words l ++ cmd_words r /\ cdepth (con l r) = S (cdepth l `max` cdepth r))
    as [Ew Ed] by (by destruct Ht0 as [[-> ->]|[-> ->]]).
  rewrite Ew in Hw. apply Forall_app in Hw as [Hwl Hwr]. rewrite Ed in Hk.
  rewrite (proj2 (Z.eqb_neq p 0) Hp). apply wpx_bind, wpx_gets. rewrite Ht.
  unfold ends. rewrite Ew, map_app, nul_all_app. fold (ends l) (ends r).
  pose proof (ends_keep l w.(umem) Hwl) as Hkeep.
  destruct Ht0 as [[-> ->]|[-> ->]]; cbn [Z.eqb Pos.eqb EXEC REDIR PIPE LIST BACK].
  all: apply wpx_bind, wpx_bind, wpx_gets; rewrite Hl.
  all: eapply wpx_call; [apply (IHl k lp w); (done || lia)|]; intros ? ? [-> ->].
  all: apply wpx_bind, wpx_gets; cbn [umem].
  all: rewrite (load64_keep bs (p, pipecmd_size) w.(umem)) by (done || (cbn; unfold pipecmd_size; lia)); rewrite Hr.
  all: eapply wpx_call; [apply (IHr k rp); cbn [umem]; [by eapply cmd_at_keep|done|lia]|]; intros ? ? [-> ->].
  all: by apply wpx_ret, wpx_ret.
Qed.

Lemma nulterminate_spec c k p (w : user OS) :
  cmd_at bs w.(umem) p c -> Forall (fun a => a.1 <> 0 /\ ~ in_blocks bs a.2) (cmd_words c) ->
  (cdepth c < k)%nat -> (MAXARGS <= fuel)%nat ->
  wpx B (nulterminate k p) (fun r w' => r = p /\ w' = User (nul_all w.(umem) (ends c)) w.(usys)) w.
Proof.
  intros Hc Hw Hk Hf. revert k p w Hc Hw Hk.
  induction c as [args|c IH q e mode fd|l IHl r IHr|l IHl r IHr|c IH]; intros k p w Hc Hw Hk;
    (destruct k as [|k]; [lia|]); cbn [nulterminate].
  - pose proof Hc as [(Hb & Hp & Ht & Hl & Ha) H0]. rewrite (proj2 (Z.eqb_neq p 0) Hp).
    apply wpx_bind, wpx_gets. rewrite Ht. eapply wpx_call; [apply (nul_args_spec fuel p args 0); try done; lia|].
    intros [] w' ->. by apply wpx_ret.
  - pose proof Hc as (sub & (Hb & Hp & Ht & Hs & Hq & He & _) & Hsub). rewrite (proj2 (Z.eqb_neq p 0) Hp).
    cbn [cmd_words] in Hw. apply Forall_app in Hw as [Hw Hwe].
    apply wpx_bind, wpx_gets. rewrite Ht. cbn [Z.eqb Pos.eqb EXEC REDIR]. simpl in Hk.
    apply wpx_bind, wpx_bind, wpx_gets. rewrite Hs.
    eapply wpx_call; [apply (IH k sub w); (done || lia)|]. intros r w1 [-> ->].
    pose proof (ends_keep c w.(umem) Hw) as Hkeep.
    apply wpx_bind, wpx_gets, wpx_modify, wpx_ret. cbn [umem usys].
    rewrite (load64_keep bs (p, redircmd_size) w.(umem)) by (done || (cbn; unfold redircmd_size; lia)).
    rewrite He. split; [done|]. unfold ends. cbn [cmd_words]. by rewrite map_app, nul_all_app.
  - apply (nul_pair PIPE l r CPipe); auto.
  - apply (nul_pair LIST l r CList); auto.
  - pose proof Hc as (sub & (Hb & Hp & Ht & Hs) & Hsub). rewrite (proj2 (Z.eqb_neq p 0) Hp).
    apply wpx_bind, wpx_gets. rewrite Ht. cbn [Z.eqb Pos.eqb EXEC REDIR PIPE LIST BACK]. simpl in Hk.
    apply wpx_bind, wpx_bind, wpx_gets. rewrite Hs.
    eapply wpx_call; [apply (IH k sub w); (done || lia)|]. intros r w1 [-> ->].
    by apply wpx_ret, wpx_ret.
Qed.
End nul.

(** ** The reference ends *)

Lemma predirs_total rs ts : predirs rs ts <> PFuel.
Proof.
  revert rs. induction ts as [ts IH] using (induction_ltof1 _ (@length token)). unfold ltof in IH.
  intros rs. destruct ts as [|[[k q] e] ts]; cbn [predirs]; [done|].
  destruct (redir_mode k) as [[mode fd]|]; [|done].
  destruct ts as [|[[k2 q2] e2] ts]; [done|]. destruct (k2 =? ch "a"); [|done]. apply IH. simpl. lia.
Qed.

Lemma psimple_total args rs ts : psimple args rs ts <> PFuel.
Proof.
  revert args rs. induction ts as [ts IH] using (induction_ltof1 _ (@length token)). unfold ltof in IH.
  intros args rs. destruct ts as [|[[k q] e] ts]; cbn [psimple]; [done|].
  destruct (redir_mode k) as [[mode fd]|].
  - destruct ts as [|[[k2 q2] e2] ts]; [done|]. destruct (k2 =? ch "a"); [|done]. apply IH. simpl. lia.
  - destruct (looks _ _); [done|]. destruct (k =? ch "a"); [|done]. destruct (MAXARGS <=? _)%nat; [done|].
    apply IH. simpl. lia.
Qed.

Lemma pbind_total {A C} (r : pres A) (k : A -> list token -> pres C) :
  r <> PFuel -> (forall a ts, r = POk a ts -> k a ts <> PFuel) -> pbind r k <> PFuel.
Proof. intros Hr Hk. destruct r as [a ts| |]; [|done..]. by apply Hk. Qed.

Lemma parser_fuel k :
  (forall ts, (4 * length ts + 4 <= k)%nat -> pline k ts <> PFuel) /\
  (forall ts, (4 * length ts + 3 <= k)%nat -> ppipe k ts <> PFuel) /\
  (forall ts, looks (chars "(") ts = true -> (4 * length ts + 1 <= k)%nat -> pblock k ts <> PFuel) /\
  (forall ts, (4 * length ts + 2 <= k)%nat -> pexec k ts <> PFuel).
Proof.
  induction k as [|k (Hl & Hp & Hb & He)]; [split_and!; intros; lia|].
  destruct (parser_depth k) as (Dl & Dp & _ & De).
  split_and!; intros ts; cbn [pline ppipe pblock pexec].
  - intros Hk. apply pbind_total; [apply Hp; lia|]. intros c1 ts1 E1%Dp.
    destruct (pbacks c1 ts1) as [c2 ts2] eqn:E2. apply pbacks_depth in E2.
    destruct (looks _ ts2) eqn:Hlk; [|done]. apply looks_length in Hlk.
    apply pbind_total; [|done]. apply Hl. pose proof (cdepth_pos c2). lia.
  - intros Hk. apply pbind_total; [apply He; lia|]. intros c1 ts1 E1%De.
    destruct (looks _ ts1) eqn:Hlk; [|done]. apply looks_length in Hlk.
    apply pbind_total; [|done]. apply Hp. pose proof (cdepth_pos c1). lia.
  - intros Hlk Hk. apply looks_length in Hlk. apply pbind_total; [apply Hl; lia|].
    intros c1 ts1 E1. destruct (looks _ _); [|done]. apply pbind_total; [apply predirs_total|done].
  - intros Hk. destruct (looks _ ts) eqn:Hlk; [apply Hb; [done|lia]|].
    apply pbind_total; [apply psimple_total|]. by intros [args rs] ts1 _.
Qed.

(** ** The whole parser *)

Section parsecmd.
Context {OS : Type} `{K : Kernel OS, STR : !Streams OS, SLO : Slots, FUE : Fuel, LIT : Literals}.
Context `{MAL : Malloc OS, MOK : !MallocOk OS}.

(** The line at [s], apart from the allocator and from the local of [putc]. *)
Record line_at (s : Z) (text : list Z) (w : user OS) : Prop := {
  la_text : cstr w.(umem) s text;
  la_pos : 0 < s;
  la_top : s + Z.of_nat (length text) < 2 ^ 64;
  la_private : forall x, s <= x <= s + Z.of_nat (length text) -> ~ private x;
  la_putc : putc_c < s \/ s + Z.of_nat (length text) < putc_c;
}.

(** The command [c] is at [p], and each of its words is a C string with
    the characters it had in [w]. *)
Definition parsed_as (c : cmd) (w : user OS) (p : Z) (w' : user OS) : Prop :=
  (exists bs, cmd_at bs w'.(umem) p c) /\
  forall q e, (q, e) ∈ cmd_words c -> cstr w'.(umem) q (read_bytes (Z.to_nat (e - q)) w.(umem) q).

(** The words after [nulterminate]. *)
Lemma words_terminated (w : user OS) m ws :
  mem_ok w.(umem) ->
  (forall q e, (q, e) ∈ ws -> word_at w.(umem) q e) ->
  (forall q e x, (q, e) ∈ ws -> q <= x < e -> mget m x = mget w.(umem) x) ->
  forall q e, (q, e) ∈ ws -> cstr (nul_all m (map snd ws)) q (read_bytes (Z.to_nat (e - q)) w.(umem) q).
Proof.
  intros Hm Hw Hx q e Hqe. pose proof (Hw q e Hqe) as [Hlt Hch Hend]. split.
  - intros i v Hi. apply lookup_lt_Some in Hi as Hlen. rewrite length_read_bytes in Hlen.
    rewrite lookup_read_bytes in Hi by done. injection Hi as <-.
    assert (wordchar (mget w.(umem) (q + Z.of_nat i)) = true) as Hwc by (apply Hch; lia).
    rewrite mget_nul_all, decide_False.
    + split; [apply (Hx q e); [done|lia]|]. intros E. by rewrite E in Hwc.
    + intros ([q' e'] & E & Hin)%list_elem_of_fmap. cbn in E. destruct (Hw _ _ Hin) as [_ _ He'].
      rewrite E in Hwc. congruence.
  - rewrite length_read_bytes, mget_nul_all, decide_True; [done|].
    apply list_elem_of_fmap. exists (q, e). split; [cbn; lia|done].
Qed.

(** The message about what is left of the line, and the one after it. *)
Definition leftovers (w w' : user OS) : Prop :=
  exists rest, output w'.(usys) 2 = output w.(usys) 2 ++ (chars "leftovers: " ++ rest ++ [NL]) ++ line "syntax".

Lemma ready_printed fd text (w w' : user OS) : printed fd text w w' -> ready w -> ready w'.
Proof.
  intros Hp [Hl He]. split; [|by apply Hp]. intros msg Hmsg.
  destruct (Hl msg Hmsg) as (Hc & H0 & Hpr & Hs). split_and!; try done.
  eapply cstr_ext; [|exact Hc]. intros x Hx. symmetry. apply Hp. lia.
Qed.

Lemma leftovers_spec {A} (B : user OS -> Prop) s l (w : user OS) (Q : A -> user OS -> Prop) :
  ready w -> mem_ok w.(umem) -> cstr w.(umem) s l -> s <> 0 ->
  putc_c < s \/ s + Z.of_nat (length l) < putc_c -> (length l + 60 < fuel)%nat ->
  (forall w', leftovers w w' -> B w') ->
  wpx B (fprintf 2 (line "leftovers: %s") [s];; Sh.panic "syntax") Q w.
Proof.
  intros Hr Hm Hl Hs0 Hp Hf HB.
  assert (line "leftovers: %s" = show_all (map Plain (chars "leftovers: ") ++ [Str; Plain NL])) as E
    by (vm_compute; reflexivity).
  eapply wpx_call; [unfold fprintf; rewrite E;
    apply (vprintf_spec B 2 _ ([s] ++ [] ++ []) (chars "leftovers: " ++ l ++ [NL] ++ []))|].
  - apply formats_plain; [by repeat constructor|].
    repeat apply formats_cons; [|by constructor; try done|apply formats_nil].
    apply render_str; try done. apply Forall_lookup_2. intros i c Hi. destruct Hl as [Hl _].
    destruct (Hl i c Hi) as [<- _]. apply Hm.
  - apply Hr.
  - rewrite !length_app. simpl. lia.
  - intros [] w1 Hpr. apply panic_spec; [lia|by eapply ready_printed|by right; left|].
    intros w' Hf'. apply HB. exists l. unfold failed in Hf'. rewrite Hf', (pr_output _ _ _ _ Hpr).
    by rewrite <-!app_assoc.
Qed.

Section spec.
Context (B : user OS -> Prop) (s : Z) (text : list Z) (w : user OS) (bs : list (Z * Z)).
Context (Hline : line_at s text w) (Hready : ready w) (Harena : arena (2 * length text + 1) bs w).
Context (Hfuel : (4 * length text + 60 < fuel)%nat).

Let es := s + Z.of_nat (length text).
Let ts := tokens s text None.

Lemma tokens_fit : (length ts <= length text)%nat.
Proof using All. pose proof (length_tokens s text None) as H. cbn in H. unfold ts. lia. Qed.

Lemma arena_le n n' bs' w' : (n' <= n)%nat -> arena n bs' w' -> arena n' bs' w'.
Proof using MOK. intros Hn. induction Hn as [|n Hn IH]; [done|]. intros Ha. by apply IH, arena_weaken. Qed.

Lemma parseline_run : runs B (pline fuel ts) (parseline fuel s es) (cmd_done s es 0 bs w) w.
Proof using All.
  pose proof tokens_fit as Hfit. destruct Hline as [Ht Hp Htop Hpr Hputc].
  apply (proj1 (parser_ok B s es ltac:(lia) Htop Hpr ltac:(lia) fuel)); [|done|].
  - split; [|lia]. exists text. split_and!; [done..|lia].
  - eapply arena_le; [|exact Harena]. lia.
Qed.

(** The words of the result are words of the line. *)
Lemma result_words c ts' q e :
  pline fuel ts = POk c ts' -> (q, e) ∈ cmd_words c -> word_at w.(umem) q e /\ s <= q /\ e <= es.
Proof using All.
  intros E Hqe. destruct Hline as [Ht Hp Htop Hpr Hputc].
  apply (proj1 (parser_words fuel)) in E as [_ Hw]. apply Hw in Hqe. unfold from_tokens in Hqe.
  pose proof (tokens_words w.(umem) s s text None Ht) as Hall. rewrite Forall_forall in Hall.
  destruct (Hall ltac:(lia) ltac:(done) _ Hqe eq_refl) as (H1 & H2 & H3). done.
Qed.

Lemma parsecmd_ok c :
  pline fuel ts = POk c [] -> wpx B (parsecmd s) (parsed_as c w) w.
Proof using All.
  intros E. pose proof parseline_run as Hrun. rewrite E in Hrun. cbn [runs] in Hrun.
  pose proof (proj1 (parser_depth fuel) _ _ _ E) as Hdepth. simpl in Hdepth.
  pose proof tokens_fit as Hfit. pose proof (la_text _ _ _ Hline) as Ht. unfold parsecmd.
  eapply from_mem_bind; [apply strlen_loop_spec; [exact Ht|lia|lia]|]. fold es.
  eapply wpx_call; [exact Hrun|]. intros [p s1] w1 (bs1 & Hg & Hc & Htx & Hp). cbn [fst snd] in *.
  destruct (peek_spec _ _ _ _ (chars "") (proj1 Htx)) as (s2 & E2 & _ & _ & Hend); [done|].
  rewrite (proj2 Hend eq_refl) in E2. eapply from_mem_bind; [exact E2|]. cbv beta iota. rewrite Z.eqb_refl. cbn [negb].
  assert (Forall (fun a => a.1 <> 0 /\ ~ in_blocks bs1 a.2) (cmd_words c)) as Hwords.
  { apply Forall_forall. intros [q e] Hqe. destruct (result_words _ _ _ _ E Hqe) as ([Hlt _ _] & Hq & He).
    pose proof (la_pos _ _ _ Hline). cbn. split; [lia|]. intros Hin.
    apply (arena_private _ _ _ _ (gn_arena _ _ _ _ _ Hg)) in Hin. revert Hin. apply Hline. unfold es in *. lia. }
  eapply wpx_call; [apply (nulterminate_spec B bs1 c); try done; unfold MAXARGS; lia|].
  intros r w2 [-> ->]. apply wpx_ret. split; cbn [umem].
  - exists bs1. eapply cmd_at_keep; [by apply ends_keep|reflexivity|done].
  - apply words_terminated; [by eapply arena_ok| |].
    + intros q e Hqe. by apply (result_words c []).
    + intros q e x Hqe Hx. destruct (result_words _ _ _ _ E Hqe) as (_ & Hq & He). apply Hg. left.
      apply Hline. unfold es in *. lia.
Qed.

Lemma parsecmd_leftovers c t ts' :
  pline fuel ts = POk c (t :: ts') -> (forall w', leftovers w w' -> B w') ->
  wpx B (parsecmd s) (fun _ _ => False) w.
Proof using All.
  intros E HB. pose proof parseline_run as Hrun. rewrite E in Hrun. cbn [runs] in Hrun.
  pose proof (la_text _ _ _ Hline) as Ht. unfold parsecmd.
  eapply from_mem_bind; [apply strlen_loop_spec; [exact Ht|lia|lia]|]. fold es.
  eapply wpx_call; [exact Hrun|]. intros [p s1] w1 (bs1 & Hg & Hc & Htx & Hp). cbn [fst snd] in *.
  destruct (peek_spec _ _ _ _ (chars "") (proj1 Htx)) as (s2 & E2 & Hlex & Hs2 & Hend); [done|].
  eapply from_mem_bind; [exact E2|]. cbv beta iota.
  rewrite (proj2 (Z.eqb_neq s2 es)) by (intros He; by apply Hend in He). cbn [negb].
  destruct Hlex as (l & Hl & Hes & _ & Hlen). destruct Htx as [_ Hlo].
  destruct Hline as [_ Hpos Htop _ Hputc]. unfold es in *.
  apply (leftovers_spec B s2 l); [eapply ready_grown; [lia|exact Hg|exact Hready]|by eapply arena_ok, Hg|done|lia|lia|lia|].
  intros w' (rest & Ho). apply HB. exists rest. by rewrite Ho, (gn_output _ _ _ _ _ Hg).
Qed.

Lemma parsecmd_err msg :
  pline fuel ts = PErr msg -> (forall w', failed msg w w' -> B w') ->
  wpx B (parsecmd s) (fun _ _ => False) w.
Proof using All.
  intros E HB. pose proof parseline_run as Hrun. rewrite E in Hrun. cbn [runs] in Hrun.
  pose proof (la_text _ _ _ Hline) as Ht. unfold parsecmd.
  eapply from_mem_bind; [apply strlen_loop_spec; [exact Ht|lia|lia]|]. fold es.
  eapply wpx_call; [by apply Hrun|]. done.
Qed.
End spec.
End parsecmd.

