(* ===== verification/ShPrint.v ===== *)
(** * The shell: printing and parsing commands

    Commands with their words as text, how they are written, and the proof
    that the shell's parser reads back what is written. *)

From S2P Require Import Prelude Memory CString Sysfile User Ulib Uprintf Utils Heap Umalloc UmallocSpec UmallocOk Sh ShSpec ShParse ShTree.

(** ** Commands and how they are written *)

Inductive rop := RIn | RTrunc | RApp.

Inductive command :=
| Exec (args : list (list Z))
| Redir (c : command) (op : rop) (file : list Z)
| Pipe (l r : command)
| List (l r : command)
| Back (c : command).

(** A token as it is written: its code, and its text if it is a word. *)
Abbreviation wtoken := (Z * list Z)%type.

Definition rop_code (op : rop) : Z :=
  match op with RIn => ch "<" | RTrunc => ch ">" | RApp => ch "+" end.

Definition sym (c : Ascii.ascii) : wtoken := (ch c, []).
Arguments sym c%_char.
Definition word (w : list Z) : wtoken := (ch "a", w).

(** Simple commands bind tightest, then pipelines, background commands and
    lists. *)
Definition level (t : command) : nat :=
  match t with Exec _ | Redir _ _ _ => 0 | Pipe _ _ => 1 | Back _ => 2 | List _ _ => 3 end.

(** The tokens of a command where one of level [lvl] is expected: in
    parentheses if it does not fit. *)
Fixpoint show_cmd (lvl : nat) (t : command) : list wtoken :=
  let body :=
    match t with
    | Exec args => map word args
    | Redir c op file => show_cmd 0 c ++ [(rop_code op, []); word file]
    | Pipe l r => show_cmd 0 l ++ sym "|" :: show_cmd 1 r
    | Back c => show_cmd 2 c ++ [sym "&"]
    | List l r => show_cmd 2 l ++ sym ";" :: show_cmd 3 r
    end in
  if (level t <=? lvl)%nat then body else sym "(" :: body ++ [sym ")"].

(** The text of a token, and of several with a blank after each. *)
Definition spell (t : wtoken) : list Z :=
  if t.1 =? ch "a" then t.2 else if t.1 =? ch "+" then chars ">>" else [t.1].

Definition spell_all (l : list wtoken) : list Z := concat (map (fun t => spell t ++ [ch " "]) l).

Definition print_cmd (t : command) : list Z := spell_all (show_cmd 3 t).

(** Words are non-empty and made of word characters; a command has at most
    nine of them. *)
Definition word_ok (w : list Z) : Prop := w <> [] /\ Forall (fun c => wordchar c = true) w.

Fixpoint cmd_ok (t : command) : Prop :=
  match t with
  | Exec args => Forall word_ok args /\ (length args < MAXARGS)%nat
  | Redir c _ file => cmd_ok c /\ word_ok file
  | Pipe l r | List l r => cmd_ok l /\ cmd_ok r
  | Back c => cmd_ok c
  end.

(** ** Reading the tokens back *)

(** The token [t] of the line is the written token [u]. *)
Definition word_text (m : memory) (a : Z * Z) (w : list Z) : Prop :=
  a.2 = a.1 + Z.of_nat (length w) /\ read_bytes (length w) m a.1 = w.

Definition views (m : memory) (t : token) (u : wtoken) : Prop :=
  t.1.1 = u.1 /\ (u.1 = ch "a" -> word_text m (t.1.2, t.2) u.2).

Definition wtoken_ok (u : wtoken) : Prop :=
  (u.1 = ch "a" /\ word_ok u.2) \/ symbol u.1 = true \/ u.1 = ch "+".

Lemma wordchar_spec c : wordchar c = true -> space c = false /\ symbol c = false /\ c <> 0.
Proof.
  unfold wordchar. destruct (Z.eqb_spec c 0), (space c), (symbol c); cbn; (done || naive_solver).
Qed.

Lemma tokens_word a q w rest :
  Forall (fun c => wordchar c = true) w ->
  tokens a (w ++ ch " " :: rest) (Some q) =
    (ch "a", q, a + Z.of_nat (length w)) :: tokens (a + Z.of_nat (length w) + 1) rest None.
Proof.
  intros Hw. revert a. induction Hw as [|c w Hc Hw IH]; intros a.
  - cbn [app tokens length]. change (space (ch " ")) with true. cbn. by rewrite !Z.add_0_r.
  - apply wordchar_spec in Hc as (Hs & Hy & _). cbn [app tokens]. rewrite Hs, Hy. cbn [default].
    change (default a (Some q)) with q. rewrite IH.
    replace (a + 1 + Z.of_nat (length w)) with (a + Z.of_nat (length (c :: w))) by (simpl; lia).
    done.
Qed.

Lemma read_bytes_prefix m a l1 l2 :
  cstr m a (l1 ++ l2) -> read_bytes (length l1) m a = l1.
Proof.
  revert a; induction l1 as [|c l IH]; intros a; simpl; [done|].
  intros (-> & _ & Hl)%cstr_cons. f_equal. by apply IH.
Qed.

(** One written token at the start of the text. *)
Lemma tokens_spell m s u rest :
  wtoken_ok u -> cstr m s (spell u ++ ch " " :: rest) ->
  exists t, tokens s (spell u ++ ch " " :: rest) None =
    t :: tokens (s + Z.of_nat (length (spell u)) + 1) rest None /\ views m t u.
Proof.
  destruct u as [k w]. intros Hok Hs. unfold spell in *. cbn [fst snd] in *.
  destruct (Z.eqb_spec k (ch "a")) as [->|Ha].
  - destruct Hok as [[_ [Hne Hw]]|[Hbad|Hbad]]; [|done..]. cbn [snd] in *. cbn in Hne, Hw.
    destruct w as [|c w]; [done|]. pose proof Hs as Hs0. apply Forall_cons in Hw as [Hc Hw].
    apply wordchar_spec in Hc as (Hsp & Hsy & _). cbn [app tokens]. rewrite Hsp, Hsy. cbn [default].
    change (default s None) with s. rewrite tokens_word by done.
    replace (s + 1 + Z.of_nat (length w)) with (s + Z.of_nat (length (c :: w))) by (simpl; lia).
    eexists. split; [reflexivity|].
    split; [done|]. intros _. split; cbn [fst snd]; [done|].
    by apply (read_bytes_prefix m s (c :: w) (ch " " :: rest)).
  - destruct (Z.eqb_spec k (ch "+")) as [->|Hp].
    + exists (ch "+", s, s + 2). split; [|by split].
      cbn [app chars tokens]. change (space (Z.of_N (N_of_ascii ">"))) with false.
      change (symbol (Z.of_N (N_of_ascii ">"))) with true. cbn. done.
    + destruct Hok as [[? _]|[Hsy|?]]; [done| |done]. cbn in Hsy. exists (k, s, s + 1). split; [|by split].
      assert (space k = false) as Hsp.
      { apply not_true_is_false. intros Hsp%strchr_lit_elem. unfold whitespace in Hsp.
        repeat (apply elem_of_cons in Hsp as [->|Hsp]; [done|]). by apply elem_of_nil in Hsp. }
      cbn [app tokens]. rewrite Hsp, Hsy. change (ch " " =? ch ">") with false. rewrite andb_false_r.
      cbn [close_word app tokens]. change (space (ch " ")) with true. cbn [close_word app].
      done.
Qed.

Lemma tokens_spell_all m s l :
  Forall wtoken_ok l -> cstr m s (spell_all l) -> Forall2 (views m) (tokens s (spell_all l) None) l.
Proof.
  intros Hl. revert s. induction Hl as [|u l Hu Hl IH]; intros s Hs; [constructor|].
  unfold spell_all in *. cbn [map concat] in *. rewrite <-app_assoc in *. cbn [app] in *.
  destruct (tokens_spell m s u _ Hu Hs) as (t & -> & Ht). constructor; [done|]. apply IH.
  apply cstr_app, cstr_cons in Hs as (_ & _ & Hs). done.
Qed.

(** ** Reading the commands back *)

Definition redir_reads (W : Z * Z -> list Z -> Prop) (r : redir) (u : rop * list Z) : Prop :=
  let '(q, e, mode, fd) := r in
  W (q, e) u.2 /\ redir_mode (rop_code u.1) = Some (mode, fd).

(** The tree [c] is the command [t], if [W] says which text its words are. *)
Fixpoint denotes (W : Z * Z -> list Z -> Prop) (c : cmd) (t : command) : Prop :=
  match c, t with
  | CExec args, Exec ws => Forall2 W args ws
  | CRedir c q e mode fd, Redir t op file => redir_reads W (q, e, mode, fd) (op, file) /\ denotes W c t
  | CPipe l r, Pipe t u | CList l r, List t u => denotes W l t /\ denotes W r u
  | CBack c, Back t => denotes W c t
  | _, _ => False
  end.

Definition show_redirs (rs : list (rop * list Z)) : list wtoken :=
  concat (map (fun r => [(rop_code r.1, []); word r.2]) rs).

(** What may follow a simple command, a pipeline, a list. *)
Definition follows (codes : list Z) (l : list wtoken) : Prop :=
  match l with [] => True | u :: _ => u.1 ∈ codes end.

Section read.
Context (m : memory).

Abbreviation seen := (Forall2 (views m)).

Lemma looks_seen toks ts us :
  seen ts us ->
  looks toks ts =
    match us with
    | u :: _ => negb (u.1 =? ch "a") && strchr_lit toks (if u.1 =? ch "+" then ch ">" else u.1)
    | [] => false
    end.
Proof. intros [|[[k q] e] [k' w] ts' us' [Hk _] _]; [done|]. cbn in *. by rewrite Hk. Qed.

Lemma redir_mode_code op : exists mode fd, redir_mode (rop_code op) = Some (mode, fd).
Proof. destruct op; eexists _, _; reflexivity. Qed.

Lemma predirs_seen rs R rest ts :
  seen ts (show_redirs R ++ rest) -> follows (chars "|)&;") rest ->
  exists rs' ts', predirs rs ts = POk (rs' ++ rs) ts' /\ Forall2 (redir_reads (word_text m)) rs' (reverse R) /\ seen ts' rest.
Proof.
  revert rs ts. induction R as [|[op f] R IH]; intros rs ts Hts Hf.
  - exists [], ts. split_and!; [|done..]. cbn in Hts. destruct Hts as [|[[k q] e] u ts us [Hk _] Hts]; [done|].
    cbn in Hk. cbn [predirs]. rewrite Hk. cbn in Hf.
    repeat (apply elem_of_cons in Hf as [->|Hf]; [done|]). by apply elem_of_nil in Hf.
  - cbn in Hts. inv Hts as [|[[k q] e] ? ts1 ? [Hk _] Hts1]. inv Hts1 as [|[[k2 q2] e2] ? ts2 ? [Hk2 Hw] Hts2].
    cbn in Hk, Hk2, Hw. subst. cbn [predirs]. destruct (redir_mode_code op) as (mode & fd & E). rewrite E.
    change (ch "a" =? ch "a") with true. cbv iota.
    destruct (IH ((q2, e2, mode, fd) :: rs) ts2 Hts2 Hf) as (rs' & ts' & -> & Hrs & Hts').
    exists (rs' ++ [(q2, e2, mode, fd)]), ts'. rewrite <-app_assoc. split_and!; [done| |done].
    rewrite reverse_cons. apply Forall2_app; [done|].
    apply Forall2_cons. split; [|done]. split; [by apply Hw|done].
Qed.

Lemma psimple_seen args rs ws R rest ts :
  seen ts (map word ws ++ show_redirs R ++ rest) -> follows (chars "|)&;") rest ->
  (length args + length ws < MAXARGS)%nat ->
  exists args' rs' ts', psimple args rs ts = POk (args ++ args', rs' ++ rs) ts' /\
    Forall2 (word_text m) args' ws /\ Forall2 (redir_reads (word_text m)) rs' (reverse R) /\ seen ts' rest.
Proof.
  revert args ts. induction ws as [|w ws IH]; intros args ts Hts Hf Hlen.
  - cbn in Hts. destruct (predirs_seen rs R rest ts Hts Hf) as (rs' & ts' & E & Hrs & Hts').
    exists [], rs', ts'. rewrite psimple_predirs, E, app_nil_r. split_and!; try done. cbn [pbind].
    destruct Hts' as [|[[k q] e] u ts1 us [Hk _] Hts']; [done|]. cbn in Hk, Hf. cbn [psimple looks]. rewrite Hk.
    repeat (apply elem_of_cons in Hf as [->|Hf]; [done|]). by apply elem_of_nil in Hf.
  - cbn in Hts. inv Hts as [|[[k q] e] ? ts1 ? [Hk Hw] Hts1]. cbn in Hk, Hw. subst k. simpl in Hlen.
    destruct (IH (args ++ [(q, e)]) ts1 Hts1 Hf) as (args' & rs' & ts' & E & Ha & Hrs & Hts');
      [rewrite length_app; simpl; lia|].
    exists ((q, e) :: args'), rs', ts'. split_and!; try done; [|by constructor; auto].
    cbn [psimple]. change (redir_mode (ch "a")) with (@None (Z * Z)). cbv iota. cbn [looks].
    change (ch "a" =? ch "a") with true. cbn [negb andb]. cbv iota.
    rewrite (proj2 (Nat.leb_gt _ _)) by lia. rewrite E, <-app_assoc. done.
Qed.

(** What each parsing function makes of the tokens of a command. *)
Definition exec_reads (t : command) : Prop :=
  forall R rest ts k, seen ts (show_cmd 0 t ++ show_redirs R ++ rest) -> follows (chars "|)&;") rest ->
    (4 * length ts + 2 <= k)%nat ->
    exists c rs ts', pexec k ts = POk (wrap rs c) ts' /\ denotes (word_text m) c t /\
      Forall2 (redir_reads (word_text m)) rs (reverse R) /\ seen ts' rest.

Definition pipe_reads (t : command) : Prop :=
  forall rest ts k, seen ts (show_cmd 1 t ++ rest) -> follows (chars ")&;") rest ->
    (4 * length ts + 3 <= k)%nat ->
    exists c ts', ppipe k ts = POk c ts' /\ denotes (word_text m) c t /\ seen ts' rest.

Definition back_reads (t : command) : Prop :=
  forall rest ts k, seen ts (show_cmd 2 t ++ rest) -> follows (chars ")&;") rest ->
    (4 * length ts + 3 <= k)%nat ->
    exists c0 ts0 c ts', ppipe k ts = POk c0 ts0 /\ pbacks c0 ts0 = pbacks c ts' /\ denotes (word_text m) c t /\ seen ts' rest.

Definition line_reads (t : command) : Prop :=
  forall rest ts k, seen ts (show_cmd 3 t ++ rest) -> follows (chars ")") rest ->
    (4 * length ts + 4 <= k)%nat ->
    exists c ts', pline k ts = POk c ts' /\ denotes (word_text m) c t /\ seen ts' rest.

Lemma show_fits lvl t : (level t <= lvl)%nat -> show_cmd lvl t = show_cmd 3 t.
Proof.
  intros Hl. destruct t; cbn [show_cmd level] in *; rewrite !(proj2 (Nat.leb_le _ _)) by lia; done.
Qed.

Lemma show_paren lvl t : (lvl < level t)%nat -> show_cmd lvl t = sym "(" :: show_cmd 3 t ++ [sym ")"].
Proof.
  intros Hl. destruct t; cbn [show_cmd level] in *; try lia;
    rewrite (proj2 (Nat.leb_gt _ _)) by lia; done.
Qed.

Lemma show_same lvl lvl' t :
  ((level t <= lvl) <-> (level t <= lvl'))%nat -> show_cmd lvl t = show_cmd lvl' t.
Proof.
  intros Hl. destruct (decide (level t <= lvl)%nat).
  - rewrite (show_fits lvl), (show_fits lvl'); [done|tauto..].
  - rewrite (show_paren lvl), (show_paren lvl'); [done|lia..].
Qed.

(** A token in [codes] is not one of [toks]. *)
Lemma looks_follows toks codes ts rest :
  seen ts rest -> follows codes rest ->
  forallb (fun c => negb (strchr_lit toks (if c =? ch "+" then ch ">" else c))) codes = true ->
  looks toks ts = false.
Proof.
  intros Hts Hf Hc. rewrite (looks_seen _ _ _ Hts). destruct rest as [|u rest]; [done|]. cbn in Hf.
  rewrite forallb_forall in Hc. apply list_elem_of_In, Hc, negb_true_iff in Hf. rewrite Hf. apply andb_false_r.
Qed.

Lemma follows_sub codes codes' rest :
  forallb (fun c => bool_decide (c ∈ codes')) codes = true -> follows codes rest -> follows codes' rest.
Proof.
  intros Hs. destruct rest as [|u rest]; [done|]. cbn. intros Hu. rewrite forallb_forall in Hs.
  apply list_elem_of_In, Hs in Hu. by apply bool_decide_eq_true in Hu.
Qed.

Lemma pbacks_stop c ts rest : seen ts rest -> follows (chars ";)") rest -> pbacks c ts = (c, ts).
Proof.
  intros Hts Hf. destruct ts as [|t ts]; [done|]. cbn [pbacks].
  by rewrite (looks_follows (chars "&") (chars ";)") _ _ Hts Hf).
Qed.

(** From one function to the next. *)
Lemma exec_to_pipe t : level t <> 1%nat -> exec_reads t -> pipe_reads t.
Proof.
  intros Hl He rest ts [|k] Hts Hf Hk; [lia|]. rewrite (show_same 1 0) in Hts by lia.
  destruct (He [] rest ts k) as (c & rs & ts' & E & Hd & Hrs & Hts'); [done| |lia|].
  { revert Hf. by apply follows_sub. }
  apply Forall2_nil_inv_r in Hrs as ->. exists c, ts'. split_and!; [|done..]. cbn [ppipe]. rewrite E. cbn [pbind wrap].
  by rewrite (looks_follows _ _ _ _ Hts' Hf).
Qed.

Lemma pipe_to_back t : level t <> 2%nat -> pipe_reads t -> back_reads t.
Proof.
  intros Hl Hp rest ts k Hts Hf Hk. rewrite (show_same 2 1) in Hts by lia.
  destruct (Hp rest ts k Hts Hf Hk) as (c & ts' & E & Hd & Hts'). by exists c, ts', c, ts'.
Qed.

Lemma back_to_line t : level t <> 3%nat -> back_reads t -> line_reads t.
Proof.
  intros Hl Hp rest ts [|k] Hts Hf Hk; [lia|].
  assert (level t <= 2)%nat by (destruct t; cbn in *; lia). rewrite (show_same 3 2) in Hts by lia.
  destruct (Hp rest ts k Hts) as (c0 & ts0 & c & ts' & E & Eb & Hd & Hts'); [by eapply follows_sub, Hf|lia|].
  exists c, ts'. split_and!; [|done..]. cbn [pline]. rewrite E. cbn [pbind].
  rewrite Eb, (pbacks_stop c ts' rest) by (done || by eapply follows_sub, Hf).
  by rewrite (looks_follows _ _ _ _ Hts' Hf).
Qed.

Lemma line_to_exec t : level t <> 0%nat -> line_reads t -> exec_reads t.
Proof.
  intros Hl Hp R rest ts k Hts Hf Hk. rewrite (show_paren 0) in Hts by lia. cbn in Hts. rewrite <-!app_assoc in Hts.
  destruct k as [|[|k]]; [lia..|]. cbn [pexec pblock].
  rewrite (looks_seen _ _ _ Hts). cbn. inv Hts as [|? ? ts1 ? _ Hts1]. simpl in Hk.
  destruct (Hp _ ts1 k Hts1) as (c & ts2 & E & Hd & Hts2); [by left|lia|]. cbn [tail]. rewrite E. cbn [pbind].
  rewrite (looks_seen _ _ _ Hts2). cbn. inv Hts2 as [|? ? ts3 ? _ Hts3]. cbn [tail].
  destruct (predirs_seen [] R rest ts3 Hts3 Hf) as (rs & ts' & -> & Hrs & Hts'). rewrite app_nil_r.
  by exists c, rs, ts'.
Qed.

(** The commands in turn. *)
Lemma exec_reads_exec ws : (length ws < MAXARGS)%nat -> exec_reads (Exec ws).
Proof.
  intros Hlen R rest ts [|k] Hts Hf Hk; [lia|]. cbn [show_cmd level] in Hts. cbn in Hts.
  destruct (psimple_seen [] [] ws R rest ts Hts Hf Hlen) as (args & rs & ts' & E & Ha & Hrs & Hts').
  exists (CExec args), rs, ts'. split_and!; [|done..]. cbn [pexec]. rewrite E. cbn [app pbind]. rewrite app_nil_r.
  assert (looks (chars "(") ts = false) as ->; [|done].
  destruct ws as [|w ws]; [|by rewrite (looks_seen _ _ _ Hts)].
  destruct R as [|[[] f] R]; [|by rewrite (looks_seen _ _ _ Hts)..].
  by apply (looks_follows _ (chars "|)&;") _ rest).
Qed.

Lemma wrap_app rs rs' c : wrap (rs ++ rs') c = wrap rs (wrap rs' c).
Proof. induction rs as [|[[[q e] mode] fd] rs IH]; cbn; [done|by rewrite IH]. Qed.

Lemma exec_reads_redir t op file : exec_reads t -> exec_reads (Redir t op file).
Proof.
  intros He R rest ts k Hts Hf Hk. cbn [show_cmd level] in Hts. cbn [Nat.leb] in Hts. rewrite <-app_assoc in Hts.
  destruct (He ((op, file) :: R) rest ts k Hts Hf Hk) as (c & rs & ts' & E & Hd & Hrs & Hts').
  rewrite reverse_cons in Hrs. apply Forall2_app_inv_r in Hrs as (rs1 & rs2 & Hrs1 & Hrs2 & ->).
  inv Hrs2 as [|[[[q e] mode] fd] ? rs3 ? Hr Hnil]. apply Forall2_nil_inv_r in Hnil as ->.
  exists (CRedir c q e mode fd), rs1, ts'. rewrite E, wrap_app. by split_and!.
Qed.

Lemma pipe_reads_pipe l r : exec_reads l -> pipe_reads r -> pipe_reads (Pipe l r).
Proof.
  intros Hl Hr rest ts [|k] Hts Hf Hk; [lia|]. cbn [show_cmd level Nat.leb] in Hts. rewrite <-app_assoc in Hts.
  destruct (Hl [] _ ts k Hts) as (c & rs & ts1 & E & Hd & Hrs & Hts1); [by left|lia|].
  apply Forall2_nil_inv_r in Hrs as ->. pose proof (proj2 (proj2 (proj2 (parser_depth k))) _ _ _ E) as Hlen.
  pose proof (cdepth_pos c). cbn [ppipe]. rewrite E. cbn [pbind]. rewrite (looks_seen _ _ _ Hts1). cbn.
  inv Hts1 as [|? ? ts2 ? _ Hts2]. cbn [tail]. simpl in Hlen.
  destruct (Hr rest ts2 k Hts2 Hf) as (c' & ts' & -> & Hd' & Hts'); [lia|]. by exists (CPipe c c'), ts'.
Qed.

Lemma back_reads_back t : back_reads t -> back_reads (Back t).
Proof.
  intros Ht rest ts k Hts Hf Hk. cbn [show_cmd level Nat.leb] in Hts. rewrite <-app_assoc in Hts.
  destruct (Ht _ ts k Hts) as (c0 & ts0 & c & ts1 & E & Eb & Hd & Hts1); [by right; left|lia|].
  assert (looks (chars "&") ts1 = true) as Hlk by (by rewrite (looks_seen _ _ _ Hts1)).
  inv Hts1 as [|t1 ? ts2 ? _ Hts2]. exists c0, ts0, (CBack c), ts2. split_and!; try done.
  rewrite Eb. cbn [pbacks]. by rewrite Hlk.
Qed.

Lemma line_reads_list l r : back_reads l -> line_reads r -> line_reads (List l r).
Proof.
  intros Hl Hr rest ts [|k] Hts Hf Hk; [lia|]. cbn [show_cmd level Nat.leb] in Hts. rewrite <-app_assoc in Hts.
  destruct (Hl _ ts k Hts) as (c0 & ts0 & c & ts1 & E & Eb & Hd & Hts1); [by right; right; left|lia|].
  rewrite (pbacks_stop c ts1 _ Hts1) in Eb by (by left).
  pose proof (proj1 (proj2 (parser_depth k)) _ _ _ E) as Hlen. pose proof (pbacks_depth _ _ _ _ Eb) as Hlen1.
  pose proof (cdepth_pos c). cbn [pline]. rewrite E. cbn [pbind]. rewrite Eb, (looks_seen _ _ _ Hts1). cbn.
  inv Hts1 as [|? ? ts2 ? _ Hts2]. cbn [tail]. simpl in Hlen1.
  destruct (Hr rest ts2 k Hts2 Hf) as (c' & ts' & -> & Hd' & Hts'); [lia|]. by exists (CList c c'), ts'.
Qed.

Lemma command_reads t : cmd_ok t -> exec_reads t /\ pipe_reads t /\ back_reads t /\ line_reads t.
Proof.
  induction t as [ws|t IH op file|l IHl r IHr|l IHl r IHr|t IH]; cbn [cmd_ok]; intros Hok.
  - assert (exec_reads (Exec ws)) by (apply exec_reads_exec, Hok).
    split_and!; auto using exec_to_pipe, pipe_to_back, back_to_line.
  - assert (exec_reads (Redir t op file)) by (apply exec_reads_redir, IH, Hok).
    split_and!; auto using exec_to_pipe, pipe_to_back, back_to_line.
  - assert (pipe_reads (Pipe l r)) by (apply pipe_reads_pipe; [apply IHl, Hok|apply IHr, Hok]).
    split_and!; auto using line_to_exec, pipe_to_back, back_to_line.
  - assert (line_reads (List l r)) by (apply line_reads_list; [apply IHl, Hok|apply IHr, Hok]).
    split_and!; auto 6 using line_to_exec, exec_to_pipe, pipe_to_back.
  - assert (back_reads (Back t)) by (by apply back_reads_back, IH).
    split_and!; auto 6 using line_to_exec, exec_to_pipe, back_to_line.
Qed.
End read.

Lemma denotes_mono (W W' : Z * Z -> list Z -> Prop) c t :
  (forall a u, a ∈ cmd_words c -> W a u -> W' a u) -> denotes W c t -> denotes W' c t.
Proof.
  revert t. induction c as [args|c IH q e mode fd|l IHl r IHr|l IHl r IHr|c IH]; intros [] HW; cbn in *; try done.
  - rewrite !Forall2_lookup. intros Ha i. specialize (Ha i). destruct (args !! i) as [a|] eqn:E; inv Ha; constructor.
    apply HW; [by eapply list_elem_of_lookup_2|done].
  - intros [[Hw Hm] Hc]. split_and!; [apply HW; [set_solver|done]|done|]. apply IH; [set_solver|done].
  - intros [Hl Hr]. split; [apply IHl|apply IHr]; (done || set_solver).
  - intros [Hl Hr]. split; [apply IHl|apply IHr]; (done || set_solver).
  - by apply IH.
Qed.

(** The tokens of a well-formed command are well-formed. *)
Lemma show_cmd_ok lvl t : cmd_ok t -> Forall wtoken_ok (show_cmd lvl t).
Proof.
  assert (forall c, symbol (ch c) = true -> wtoken_ok (sym c)) as Hsym by (intros; right; by left).
  assert (forall w, word_ok w -> wtoken_ok (word w)) as Hword by (intros; by left).
  assert (forall op, wtoken_ok (rop_code op, [])) as Hrop
    by (intros []; right; [by left|by left|by right]).
  assert (forall b l, Forall wtoken_ok l ->
    Forall wtoken_ok (if b : bool then l else sym "(" :: l ++ [sym ")"])) as Hparen.
  { intros [] l Hl; [done|]. constructor; [by apply Hsym|]. apply Forall_app. split; [done|].
    constructor; [by apply Hsym|done]. }
  revert lvl. induction t as [ws|t IH op file|l IHl r IHr|l IHl r IHr|t IH]; cbn [cmd_ok]; intros lvl Hok;
    apply Hparen.
  - apply Forall_map. destruct Hok as [Hok _]. eapply Forall_impl; [exact Hok|]. apply Hword.
  - apply Forall_app. split; [apply IH, Hok|]. constructor; [apply Hrop|]. constructor; [apply Hword, Hok|done].
  - apply Forall_app. split; [apply IHl, Hok|]. constructor; [by apply Hsym|apply IHr, Hok].
  - apply Forall_app. split; [apply IHl, Hok|]. constructor; [by apply Hsym|apply IHr, Hok].
  - apply Forall_app. split; [by apply IH|]. constructor; [by apply Hsym|done].
Qed.

(** The tree of the command [t] is in the heap at [p], its words C strings. *)
Definition command_at {OS} (t : command) (p : Z) (w : user OS) : Prop :=
  exists bs c, cmd_at bs w.(umem) p c /\ denotes (fun a u => cstr w.(umem) a.1 u) c t.

(** C15: Writing a command as text and parsing the text gives the command
    back: for every command whose words are made of word characters, the
    shell's [parsecmd] on the printed command, with parentheses where the
    grammar needs them, builds the tree of that command, nesting, words,
    redirection modes and descriptors included. *)
Theorem print_parse_roundtrip {OS}
    `{K : Kernel OS, !Streams OS, Slots, Fuel, Literals, M : Malloc OS, !MallocOk OS} t s bs w :
  cmd_ok t -> line_at s (print_cmd t) w -> ready w -> arena (2 * length (print_cmd t) + 1) bs w ->
  (4 * length (print_cmd t) + 60 < fuel)%nat ->
  wp (parsecmd s) (command_at t) w.
Proof.
  intros Hok Hl Hr Ha Hf.
  pose proof (tokens_spell_all _ s _ (show_cmd_ok 3 t Hok) (la_text _ _ _ Hl)) as Hts.
  destruct (command_reads w.(umem) t Hok) as (_ & _ & _ & Hline).
  destruct (Hline [] (tokens s (print_cmd t) None) fuel) as (c & ts' & E & Hd & Hts'); [by rewrite app_nil_r|done| |].
  { pose proof (length_tokens s (print_cmd t) None) as Hlen. cbn in Hlen. lia. }
  apply Forall2_nil_inv_r in Hts' as ->.
  eapply wpx_mono; [by eapply parsecmd_ok|].
  intros p w' [[bs' Hc] Hw]. exists bs', c. split; [done|].
  eapply denotes_mono; [|exact Hd]. intros [q e] u Hin [He Hu]. cbn in *. apply Hw in Hin.
  replace (Z.to_nat (e - q)) with (length u) in Hin by lia. by rewrite Hu in Hin.
Qed.

(** * The shell's parser at work

    A process with the shell's messages in its memory, on the concrete
    kernel of User and the allocator of Umalloc: the theorems about the
    parser apply to it. *)

#[local] Existing Instances demo_slots demo_fuel demo_statics.

Lemma cstr_read m a l :
  read_bytes (length l) m a = l -> Forall (fun c => c <> 0) l -> mget m (a + Z.of_nat (length l)) = 0 -> cstr m a l.
Proof.
  intros E Hl H0. split; [|done]. intros i c Hi. apply lookup_lt_Some in Hi as Hlt. rewrite <-E in Hi.
  rewrite lookup_read_bytes in Hi by done. injection Hi as <-. split; [done|].
  rewrite Forall_lookup in Hl. apply (Hl i). rewrite <-E at 1. by rewrite lookup_read_bytes.
Qed.

(** The messages are 64 bytes apart from address 1024 on. *)
Definition demo_messages : list (list Z) := map chars messages.

Definition demo_literals : Literals := fun l =>
  match find_index (fun l' => bool_decide (l' = l)) demo_messages with
  | Some i => 1024 + 64 * Z.of_nat i
  | None => 8
  end.
#[local] Existing Instance demo_literals.

Definition demo_shell (text : list Z) : user tape :=
  User (write_bytes (foldr (fun l m => write_bytes m (lit l) l) ∅ demo_messages) 64 text)
    (Tape ∅ ∅ 2 8192 (2 ^ 30)).

(** [( echo hi | wc ; ls ) > out &] *)
Definition demo_command : command :=
  Back (Redir (List (Pipe (Exec [chars "echo"; chars "hi"]) (Exec [chars "wc"])) (Exec [chars "ls"]))
    RTrunc (chars "out")).

Definition demo_text : list Z := print_cmd demo_command.

Lemma demo_text_length : length demo_text = 30%nat.
Proof. by vm_compute. Qed.

Lemma demo_cmd_ok : cmd_ok demo_command.
Proof.
  assert (forall w, w <> [] -> forallb wordchar w = true -> word_ok w) as Hw.
  { intros w Hne Hc. split; [done|]. rewrite forallb_forall in Hc. apply Forall_forall. intros c Hin.
    by apply Hc, list_elem_of_In. }
  cbn. unfold MAXARGS. split_and!; repeat constructor; by apply Hw.
Qed.

(** What is below the heap and not a static of the allocator. *)
Lemma demo_private x : x < 4096 -> ~ private x.
Proof.
  intros Hx [[Hs|Hs]|Hs]; unfold header, base, freep, demo_statics, sizeof_Header in *; cbn in *; lia.
Qed.

Lemma demo_line : line_at 64 demo_text (demo_shell demo_text).
Proof.
  assert (forallb (fun c => negb (c =? 0)) demo_text = true) as Hz by (by vm_compute).
  split; rewrite ?demo_text_length.
  - apply cstr_read; [by vm_compute| |by vm_compute].
    rewrite forallb_forall in Hz. apply Forall_forall. intros c Hc%list_elem_of_In%Hz. intros ->. done.
  - lia.
  - lia.
  - intros x Hx. apply demo_private. lia.
  - left. unfold putc_c, demo_slots. lia.
Qed.

Definition message_ok (w : user tape) (msg : string) : bool :=
  let l := chars msg in
  let a := lit l in
  let n := Z.of_nat (length l) in
  bool_decide (read_bytes (length l) w.(umem) a = l) && forallb (fun c => negb (c =? 0)) l &&
  (mget w.(umem) (a + n) =? 0) && (64 <? a) && (a + n <? 4096).

Lemma demo_messages_ok : forallb (message_ok (demo_shell demo_text)) messages = true.
Proof. vm_compute. reflexivity. Qed.

Lemma shell_ready : ready (demo_shell demo_text).
Proof.
  split; [|done]. intros msg Hmsg. pose proof demo_messages_ok as Hall. rewrite forallb_forall in Hall.
  apply list_elem_of_In, Hall in Hmsg. unfold message_ok in Hmsg. rewrite !andb_true_iff in Hmsg.
  destruct Hmsg as ((((H1%bool_decide_eq_true & H2) & H3%Z.eqb_eq) & Ha%Z.ltb_lt) & Hn%Z.ltb_lt). cbv zeta. split_and!.
  - apply cstr_read; [done| |done]. rewrite forallb_forall in H2.
    apply Forall_forall. intros c Hc%list_elem_of_In%H2. intros ->. done.
  - lia.
  - intros x Hx. apply demo_private. lia.
  - left. unfold putc_c, demo_slots. lia.
Qed.

Lemma demo_arena : arena (2 * length demo_text + 1) [] (demo_shell demo_text).
Proof.
  rewrite demo_text_length. exists [], []. split_and!; [right|done|done|done|unfold fuel, demo_fuel; simpl; lia].
  cbn [demo_shell umem usys]. split_and!; [by vm_compute|done|done| |done|done].
  apply mem_ok_write_bytes. generalize demo_messages. intros ls. induction ls as [|l ls IH]; [apply mem_ok_empty|].
  by apply mem_ok_write_bytes.
Qed.

Lemma demo_fuel_ok : (4 * length demo_text + 60 < fuel)%nat.
Proof. rewrite demo_text_length. unfold fuel, demo_fuel. lia. Qed.


Lemma print_parse_roundtrip_witness :
  exists p w', parsecmd 64 (demo_shell demo_text) = Ret p w' /\ command_at demo_command p w'.
Proof.
  apply wp_run.
  apply (print_parse_roundtrip demo_command 64 [] (demo_shell demo_text) demo_cmd_ok demo_line shell_ready demo_arena demo_fuel_ok).
Defined.
