(* ===== verification/Programs.v ===== *)
(** * More user programs

    ls, find, memdump, init, forktest, forphan, dorphan, logstress and
    stressfs, one module per program of user/.  The addresses of local arrays
    and structs and of static data are variables of the sections.  A loop
    that has no end in the source has the fuel of the library. *)

From S2P Require Import Prelude Memory CString Riscv Fs Console Sysfile User Ulib Uprintf Utils UtilsSpec.

(** ** kernel/stat.h and kernel/fs.h, as a program sees them *)
Section structs.
Context {OS : Type} `{Kernel OS}.

Definition ld16 (a : Z) : U OS Z := from_mem (fun m => Some (le_load 2 m a)).

Definition st_ino (st : Z) : U OS Z := ld32 (st + 4).
Definition st_type (st : Z) : U OS Z := v ← ld16 (st + 8); mret (s16 v).
Definition st_size (st : Z) : U OS Z := ld64 (st + 16).
Definition de_ino (de : Z) : U OS Z := ld16 de.
End structs.

(** [for(p=path+strlen(path); p >= path && *p != '/'; p--)], with [n] one more
    than the offset of [p]. *)
Fixpoint back_to_slash (n : nat) (m : memory) (path : Z) : Z :=
  match n with
  | O => path - 1
  | S n => if mget m (path + Z.of_nat n) =? ch "/" then path + Z.of_nat n else back_to_slash n m path
  end.

(** The name after the last slash, for ls and find. *)
Section last_name.
Context {OS : Type} `{Kernel OS, Fuel}.

Definition last_name (path : Z) : U OS Z :=
  len ← strlen path;
  p ← from_mem (fun m => Some (back_to_slash (S (Z.to_nat len)) m path));
  mret (p + 1).
End last_name.

(** ** user/ls.c *)
Module Ls.
Section ls.
Context {OS : Type} `{Kernel OS, Slots, Fuel, Literals} (fmtbuf buf de stp : Z).

Definition fmtname (path : Z) : U OS Z :=
  p ← last_name path;
  n ← strlen p;
  if DIRSIZ <=? n then mret p
  else
    memmove fmtbuf p n;;
    n ← strlen p;
    memset (fmtbuf + n) (ch " ") (DIRSIZ - n);;
    st (fmtbuf + 14) 0;;
    mret fmtbuf.

(** [printf("%s %d %d %d\n", fmtname(path), st.type, st.ino, (int) st.size)] *)
Definition show_stat (path : Z) : U OS unit :=
  name ← fmtname path;
  type ← st_type stp;
  ino ← st_ino stp;
  size ← st_size stp;
  printf (line "%s %d %d %d") [name; type; ino; s32 size].

(** [while(read(fd, &de, sizeof(de)) == sizeof(de))] *)
Fixpoint ls_entries (k : nat) (fd p : Z) : U OS unit :=
  match k with
  | O => no_fuel
  | S k =>
      r ← read fd de 16;
      if r =? 16 then
        inum ← de_ino de;
        if inum =? 0 then ls_entries k fd p
        else
          memmove p (de + 2) DIRSIZ;;
          st (p + DIRSIZ) 0;;
          r ← stat buf stp;
          if r <? 0 then
            printf (line "ls: cannot stat %s") [buf];;
            ls_entries k fd p
          else
            show_stat buf;;
            ls_entries k fd p
      else mret tt
  end.

Definition ls (path : Z) : U OS unit :=
  fd ← open path O_RDONLY;
  if fd <? 0 then fprintf 2 (line "ls: cannot open %s") [path]
  else
    r ← fstat fd stp;
    if r <? 0 then
      fprintf 2 (line "ls: cannot stat %s") [path];;
      close fd;;
      mret tt
    else
      type ← st_type stp;
      (if (type =? T_DEVICE) || (type =? T_FILE) then show_stat path
       else if type =? T_DIR then
         len ← strlen path;
         if 512 <? u32 (u32 len + 1 + DIRSIZ + 1) then printf (line "ls: path too long") []
         else
           strcpy buf path;;
           n ← strlen buf;
           st (buf + n) (ch "/");;
           ls_entries fuel fd (buf + n + 1)
       else mret tt);;
      close fd;;
      mret tt.

Definition main (argc : nat) (argv : Z) : U OS Z :=
  if (argc <? 2)%nat then ls (lit (chars "."));; exit 0
  else
    for_args 1 argc (fun i => a ← arg argv i; ls a);;
    exit 0.
End ls.
End Ls.

(** ** user/find.c *)
Module Find.
Section find.
(** [sp] is where the locals of a call are: [buf], then [st], then [de];
    [callee sp] is where those of a call from it are. *)
Context {OS : Type} `{Kernel OS, Slots, Fuel, Literals} (callee : Z -> Z).

Definition get_filename (path : Z) : U OS Z := last_name path.

(** [if(st.type == T_FILE && !strcmp(get_filename(buf), filename))]: the new
    [cmd_length].  A child whose [exec] fails goes on, as its parent does. *)
Definition report_file (buf stp filename : Z) (cmd_flag : bool) (cmd_argv cmd_length : Z) : U OS Z :=
  type ← st_type stp;
  if type =? T_FILE then
    name ← get_filename buf;
    d ← strcmp name filename;
    if d =? 0 then
      if negb cmd_flag then printf (line "%s") [buf];; mret cmd_length
      else
        st64 (cmd_argv + 8 * cmd_length) buf;;
        pid ← fork;
        (if pid =? 0 then
           cmd ← ld64 cmd_argv;
           exec cmd cmd_argv;;
           printf (line "exec error") []
         else wait 0;; mret tt);;
        mret (s32 (cmd_length + 1))
    else mret cmd_length
  else mret cmd_length.

(** The loop over the entries; [rec] is [find] on a directory. *)
Fixpoint find_entries (k : nat) (rec : Z -> Z -> U OS unit) (buf stp de fd p filename : Z) (cmd_flag : bool)
    (cmd_argv cmd_length : Z) : U OS unit :=
  match k with
  | O => no_fuel
  | S k =>
      r ← read fd de 16;
      if r =? 16 then
        inum ← de_ino de;
        if inum =? 0 then find_entries k rec buf stp de fd p filename cmd_flag cmd_argv cmd_length
        else
          memmove p (de + 2) DIRSIZ;;
          st (p + DIRSIZ) 0;;
          r ← stat buf stp;
          if r <? 0 then
            fprintf 2 (line "find: cannot stat %s") [buf];;
            find_entries k rec buf stp de fd p filename cmd_flag cmd_argv cmd_length
          else
            type ← st_type stp;
            (if type =? T_DIR then
               d1 ← strcmp p (lit (chars "."));
               if ztrue d1 then
                 d2 ← strcmp p (lit (chars ".."));
                 if ztrue d2 then rec buf cmd_length else mret tt
               else mret tt
             else mret tt);;
            cmd_length ← report_file buf stp filename cmd_flag cmd_argv cmd_length;
            find_entries k rec buf stp de fd p filename cmd_flag cmd_argv cmd_length
      else mret tt
  end.

Fixpoint find (k : nat) (sp dir filename : Z) (cmd_flag : bool) (cmd_argv cmd_length : Z) : U OS unit :=
  match k with
  | O => no_fuel
  | S k =>
      let buf := sp in let stp := sp + 512 in let de := sp + 536 in
      fd ← open dir O_RDONLY;
      if fd <? 0 then fprintf 2 (line "find: cannot open %s") [dir]
      else
        r ← fstat fd stp;
        if r <? 0 then
          fprintf 2 (line "find: cannot stat %s") [dir];;
          close fd;;
          mret tt
        else
          len ← strlen dir;
          if 512 <? u32 (u32 len + 1 + DIRSIZ + 1) then
            printf (line "find: path too long") [];;
            close fd;;
            mret tt
          else
            strcpy buf dir;;
            n ← strlen buf;
            st (buf + n) (ch "/");;
            find_entries fuel (fun d len => find k (callee sp) d filename cmd_flag cmd_argv len)
              buf stp de fd (buf + n + 1) filename cmd_flag cmd_argv cmd_length;;
            close fd;;
            mret tt
  end.

(** [cmd_argv] is the address of the local array of [main]. *)
Definition main (sp cmd_argv : Z) (argc : nat) (argv : Z) : U OS Z :=
  if (argc =? 3)%nat then
    a1 ← arg argv 1;
    a2 ← arg argv 2;
    find fuel sp a1 a2 false 0 0;;
    exit 0
  else
    a3 ← arg argv 3;
    d ← strcmp a3 (lit (chars "-exec"));
    if d =? 0 then
      upd (fun m => umemset m cmd_argv 0 (8 * MAXARG));;
      for_args 4 argc (fun i => a ← arg argv i; st64 (cmd_argv + 8 * (Z.of_nat i - 4)) a);;
      a1 ← arg argv 1;
      a2 ← arg argv 2;
      find fuel sp a1 a2 true cmd_argv (Z.of_nat (argc - 4));;
      exit 0
    else
      fprintf 2 (line "Usage: find [directory] [filename] (-exec [cmd])") [];;
      exit 1.
End find.
End Find.

(** ** user/memdump.c *)
Module Memdump.
Section memdump.
Context {OS : Type} `{Kernel OS, Slots, Fuel, Literals}.

(** The cases of the switch: how far [data] moves. *)
Definition dump_item (c data : Z) : U OS Z :=
  if c =? ch "i" then
    n ← ld32 data;
    printf (line "%d") [s32 n];;
    mret 4
  else if c =? ch "p" then
    n ← ld64 data;
    printf (line "%lx") [n];;
    mret 8
  else if c =? ch "h" then
    n ← ld16 data;
    printf (line "%d") [n];;
    mret 2
  else if c =? ch "c" then
    n ← ld data;
    printf (line "%c") [n];;
    mret 1
  else if c =? ch "s" then
    p ← ld64 data;
    printf (line "%s") [p];;
    mret 8
  else if c =? ch "S" then
    len ← strlen data;
    printf (line "%s") [data];;
    mret (len + 1)
  else mret 0.

(** [for(; fmt[i] != 0; i++)] *)
Fixpoint memdump_loop (k : nat) (fmt data : Z) : U OS unit :=
  match k with
  | O => no_fuel
  | S k =>
      c ← ld fmt;
      if negb (c =? 0) then
        n ← dump_item c data;
        memdump_loop k (fmt + 1) (data + n)
      else mret tt
  end.

Definition memdump (fmt data : Z) : U OS unit := memdump_loop fuel fmt data.

(** [while(n < sizeof(data))] *)
Fixpoint fill (k : nat) (data n : Z) : U OS unit :=
  match k with
  | O => no_fuel
  | S k =>
      if n <? 512 then
        nn ← read 0 (data + n) (512 - n);
        if nn <=? 0 then mret tt else fill k data (n + nn)
      else mret tt
  end.

(** The examples; [a], [s] and [ex] are the addresses of the locals. *)
Definition examples (a s ex : Z) : U OS unit :=
  printf (line "Example 1:") [];;
  st32 a 61810;;
  st32 (a + 4) 2025;;
  memdump (lit (chars "ii")) a;;
  printf (line "Example 2:") [];;
  memdump (lit (chars "S")) (lit (chars "a string"));;
  printf (line "Example 3:") [];;
  st64 s (lit (chars "another"));;
  memdump (lit (chars "s")) s;;
  st64 ex (lit (chars "hello"));;
  st32 (ex + 8) 1819438967;;
  upd (fun m => le_store 2 m (ex + 12) 100);;
  st (ex + 14) (ch "z");;
  strcpy (ex + 15) (lit (chars "xyzzy"));;
  printf (line "Example 4:") [];;
  memdump (lit (chars "pihcS")) ex;;
  printf (line "Example 5:") [];;
  memdump (lit (chars "sccccc")) ex.

Definition main (a s ex data : Z) (argc : nat) (argv : Z) : U OS Z :=
  if (argc =? 1)%nat then examples a s ex;; exit 0
  else if (argc =? 2)%nat then
    memset data 0 512;;
    fill fuel data 0;;
    fmt ← arg argv 1;
    memdump fmt data;;
    exit 0
  else
    printf (line "Usage: memdump [format]") [];;
    exit 1.
End memdump.
End Memdump.

(** ** user/init.c *)
Module Init.
Section init.
Context {OS : Type} `{Kernel OS, Slots, Fuel, Literals} (argv : Z).

(** The inner loop: until the shell [pid] exits. *)
Fixpoint wait_shell (k : nat) (pid : Z) : U OS unit :=
  match k with
  | O => no_fuel
  | S k =>
      wpid ← wait 0;
      if wpid =? pid then mret tt
      else if wpid <? 0 then
        printf (line "init: wait returned an error") [];;
        exit 1
      else wait_shell k pid
  end.

Fixpoint init_loop (k : nat) : U OS Z :=
  match k with
  | O => no_fuel
  | S k =>
      printf (line "init: starting sh") [];;
      pid ← fork;
      if pid <? 0 then
        printf (line "init: fork failed") [];;
        exit 1
      else if pid =? 0 then
        exec (lit (chars "sh")) argv;;
        printf (line "init: exec sh failed") [];;
        exit 1
      else
        wait_shell fuel pid;;
        init_loop k
  end.

Definition main : U OS Z :=
  fd ← open (lit (chars "console")) O_RDWR;
  (if fd <? 0 then
     mknod (lit (chars "console")) CONSOLE 0;;
     open (lit (chars "console")) O_RDWR;;
     mret tt
   else mret tt);;
  dup 0;;
  dup 0;;
  init_loop fuel.
End init.
End Init.

(** ** user/forktest.c *)
Module Forktest.
Section forktest.
Context {OS : Type} `{Kernel OS, Slots, Fuel, Literals}.

Definition N : nat := 1000.

Definition print (s : Z) : U OS unit := n ← strlen s; write 1 s n;; mret tt.

(** The first loop, from [n] on: the final [n], with [k = N - n]. *)
Fixpoint fork_all (k n : nat) : U OS nat :=
  match k with
  | O => mret n
  | S k =>
      pid ← fork;
      if pid <? 0 then mret n
      else if pid =? 0 then exit 0
      else fork_all k (S n)
  end.

(** [for(; n > 0; n--)] *)
Fixpoint wait_all (n : nat) : U OS unit :=
  match n with
  | O => mret tt
  | S n =>
      r ← wait 0;
      if r <? 0 then
        print (lit (line "wait stopped early"));;
        exit 1
      else wait_all n
  end.

Definition forktest : U OS unit :=
  print (lit (line "fork test"));;
  n ← fork_all N 0;
  if (n =? N)%nat then
    print (lit (line "fork claimed to work N times!"));;
    exit 1
  else
    wait_all n;;
    r ← wait 0;
    if negb (r =? -1) then
      print (lit (line "wait got too many"));;
      exit 1
    else print (lit (line "fork test OK")).

Definition main : U OS Z := forktest;; exit 0.
End forktest.
End Forktest.

(** ** user/forphan.c and user/dorphan.c *)
Module Orphan.
Section orphan.
Context {OS : Type} `{Kernel OS, Slots, Fuel, Literals}.

(** [for(;;) pause(1000);] *)
Fixpoint sit_around (k : nat) : U OS Z :=
  match k with O => no_fuel | S k => pause 1000;; sit_around k end.

(** A message and the end of the program. *)
Definition fail {A} (fmt : list Z) (args : list Z) : U OS A := printf fmt args;; exit 1.

Definition forphan (stp argv : Z) : U OS Z :=
  s ← arg argv 0;
  let ff := lit (chars "file0") in
  fd ← open ff (Z.lor O_CREATE O_WRONLY);
  if fd <? 0 then fail (line "%s: open failed") [s]
  else
    r ← fstat fd stp;
    if r <? 0 then
      fprintf 2 (line "%s: cannot stat %s") [s; lit (chars "ff")];;
      exit 1
    else
      r ← unlink ff;
      if r <? 0 then fail (line "%s: unlink failed") [s]
      else
        r ← open ff O_RDONLY;
        if negb (r =? -1) then fail (line "%s: open successed") [s]
        else
          ino ← st_ino stp;
          printf (line "wait for kill and reclaim %d") [ino];;
          sit_around fuel.

Definition dorphan (argv : Z) : U OS Z :=
  s ← arg argv 0;
  r ← mkdir (lit (chars "dd"));
  if negb (r =? 0) then fail (line "%s: mkdir dd failed") [s]
  else
    r ← chdir (lit (chars "dd"));
    if negb (r =? 0) then fail (line "%s: chdir dd failed") [s]
    else
      r ← unlink (lit (chars "../dd"));
      if r <? 0 then fail (line "%s: unlink failed") [s]
      else
        printf (line "wait for kill and reclaim") [];;
        sit_around fuel.
End orphan.
End Orphan.

(** ** user/logstress.c *)
Module Logstress.
Section logstress.
Context {OS : Type} `{Kernel OS, Slots, Fuel} (buf xstatus : Z).

Definition BUFSZ : Z := 500.
Definition N : nat := 250.
Definition SZ : Z := 2000.

Definition fill_buf (i : nat) : U OS Z := memset buf (ch "0" + Z.of_nat i) SZ.

(** What a child does. *)
Definition writer (i : nat) (argv : Z) : U OS unit :=
  a ← arg argv i;
  fd ← open a (Z.lor O_CREATE O_RDWR);
  if fd <? 0 then
    s ← arg argv 0;
    a ← arg argv i;
    printf (line "%s: create %s failed") [s; a];;
    exit 1
  else
    fill_buf i;;
    for_each (seq 0 N) (fun _ =>
      n ← write fd buf SZ;
      if negb (n =? SZ) then
        printf (line "write failed %d") [n];;
        exit 1
      else mret tt);;
    exit 0.

Definition main (argc : nat) (argv : Z) : U OS Z :=
  for_args 1 argc (fun i =>
    pid1 ← fork;
    if pid1 <? 0 then
      s ← arg argv 0;
      printf (line "%s: fork failed") [s];;
      exit 1
    else when (pid1 =? 0) (writer i argv));;
  for_args 1 argc (fun i =>
    wait xstatus;;
    x ← ld32 xstatus;
    if negb (s32 x =? 0) then exit (s32 x) else mret tt);;
  mret 0.
End logstress.
End Logstress.

(** ** user/stressfs.c *)
Module Stressfs.
Section stressfs.
Context {OS : Type} `{Kernel OS, Slots, Fuel, Literals} (path data : Z).

(** [for(i = 0; i < 4; i++) if(fork() > 0) break;] *)
Fixpoint fork_four (k i : nat) : U OS nat :=
  match k with
  | O => mret i
  | S k => pid ← fork; if 0 <? pid then mret i else fork_four k (S i)
  end.

Definition main : U OS Z :=
  strcpy path (lit (chars "stressfs0"));;
  printf (line "stressfs starting") [];;
  memset data (ch "a") 512;;
  i ← fork_four 4 0;
  printf (line "write %d") [Z.of_nat i];;
  c ← ld (path + 8);
  st (path + 8) (c + Z.of_nat i);;
  fd ← open path (Z.lor O_CREATE O_RDWR);
  for_each (seq 0 20) (fun _ => write fd data 512;; mret tt);;
  close fd;;
  printf (line "read") [];;
  fd ← open path O_RDONLY;
  for_each (seq 0 20) (fun _ => read fd data 512;; mret tt);;
  close fd;;
  wait 0;;
  exit 0.
End stressfs.
End Stressfs.

(** * memdump prints what its format asks for *)

(** Bytes that printing does not disturb. *)
Definition undisturbed `{Slots} (a n : Z) : Prop := putc_c < a \/ a + n <= putc_c.

(** One character of the format: the line that is printed for the data at
    [data], and how many bytes of data it uses.  A pointer is printed from
    the low half of its value, which is all that [%lx] shows. *)
Inductive item `{Slots} (m : memory) : Z -> Z -> list Z -> Z -> Prop :=
| item_int data : undisturbed data 4 -> item m (ch "i") data (signed (s32 (load32 m data)) ++ [NL]) 4
| item_ptr data : undisturbed data 8 -> item m (ch "p") data (numeral 16 (u32 (load64 m data)) ++ [NL]) 8
| item_half data : undisturbed data 2 -> item m (ch "h") data (signed (s32 (le_load 2 m data)) ++ [NL]) 2
| item_char data : undisturbed data 1 -> item m (ch "c") data ([u8 (mget m data)] ++ [NL]) 1
| item_string data l : undisturbed data 8 -> renders m Str [load64 m data] l -> item m (ch "s") data (l ++ [NL]) 8
| item_bytes data l : cstr m data l -> data <> 0 -> Forall (fun c => 0 <= c < 2 ^ 8) l ->
    undisturbed data (Z.of_nat (length l) + 1) ->
    item m (ch "S") data (l ++ [NL]) (Z.of_nat (length l) + 1)
| item_other c data : c ∉ chars "iphcsS" -> item m c data [] 0.

Inductive dumps `{Slots} (m : memory) : list Z -> Z -> list Z -> Prop :=
| dumps_nil data : dumps m [] data []
| dumps_cons c fmt data n t1 t2 :
    item m c data t1 n -> dumps m fmt (data + n) t2 -> dumps m (c :: fmt) data (t1 ++ t2).

Section proof.
Context {OS : Type} `{K : Kernel OS, STR : !Streams OS, SLO : Slots, FUE : Fuel} (B : user OS -> Prop) (m : memory).

(** The memory of the start, but for the local of [putc]. *)
Definition kept (w : user OS) : Prop := forall x, x <> putc_c -> mget w.(umem) x = mget m x.

Lemma kept_agree w a n : kept w -> undisturbed a n -> mem_agree w.(umem) m a n.
Proof. intros Hk Hu x Hx. apply Hk. destruct Hu; lia. Qed.

Lemma renders_string w a l : kept w -> renders m Str [a] l -> renders w.(umem) Str [a] l.
Proof.
  intros Hk Hr. inversion Hr as [| | | | | | |H1|a' l' Hc Hn Hb Ha]; subst; [constructor|].
  constructor; try done. eapply cstr_ext; [|exact Hc]. intros x Hx. symmetry. apply Hk. lia.
Qed.

(** A directive, and a newline. *)
Lemma line_spec d fmt a t w :
  fmt = show d ++ [NL] -> renders w.(umem) d [a] t -> kept w -> writable w.(usys) 1 -> (length t + 1 < fuel)%nat ->
  wpx B (printf fmt [a]) (fun _ w' => printed 1 (t ++ [NL]) w w' /\ kept w') w.
Proof.
  intros -> Hr Hk Hw Hl. unfold printf. assert (show d ++ [NL] = show_all [d; Plain NL]) as -> by (unfold show_all; cbn; by rewrite ?app_nil_r).
  eapply wpx_mono; [apply (vprintf_spec B 1 [d; Plain NL] ([a] ++ [] ++ []) (t ++ [NL] ++ [])); try done|].
  - repeat apply formats_cons; [done|by constructor|constructor].
  - rewrite !length_app. cbn. lia.
  - intros [] w' Hp. rewrite app_nil_r in Hp. split; [done|]. intros x Hx. rewrite (pr_mem _ _ _ _ Hp x Hx). by apply Hk.
Qed.

Lemma show_line d fmt (k : Z) a t n w :
  fmt = show d ++ [NL] -> renders w.(umem) d [a] t -> kept w -> writable w.(usys) 1 -> (length (t ++ [NL]) < fuel)%nat -> k = n ->
  wpx B (printf fmt [a];; mret k) (fun r w' => r = n /\ printed 1 (t ++ [NL]) w w' /\ kept w') w.
Proof using Type.
  intros Hfmt Hr Hk Hw Hl ->. rewrite length_app in Hl. eapply wpx_call; [by apply (line_spec d fmt a t)|].
  intros [] w' Hp. by apply wpx_ret.
Qed.

Lemma dump_item_spec c data t n w :
  item m c data t n -> kept w -> writable w.(usys) 1 -> (length t < fuel)%nat ->
  wpx B (Memdump.dump_item c data) (fun r w' => r = n /\ printed 1 t w w' /\ kept w') w.
Proof.
  intros Hi Hk Hw Hf. destruct Hi as [data Hu|data Hu|data Hu|data Hu|data l Hu Hr|data l Hc Hn Hb Hu|c data Hc].
  - apply wpx_bind, wpx_gets. rewrite (load32_ext w.(umem) m) by (by apply kept_agree).
    apply (show_line (Dec 0)); try done. rewrite <-(s32_idem (load32 m data)) at 2. by apply (render_dec _ 0); lia.
  - apply wpx_bind, wpx_gets. rewrite (load64_ext w.(umem) m) by (by apply kept_agree).
    apply (show_line (Hex 1)); try done. by apply (render_hex _ 1); lia.
  - eapply from_mem_bind; [reflexivity|]. rewrite (le_load_ext 2 w.(umem) m) by (by apply kept_agree).
    apply (show_line (Dec 0)); try done. by apply (render_dec _ 0); lia.
  - apply wpx_bind, wpx_gets. rewrite (kept_agree w data 1 Hk Hu data) by lia.
    apply (show_line Chr); try done. constructor.
  - apply wpx_bind, wpx_gets. rewrite (load64_ext w.(umem) m) by (by apply kept_agree).
    apply (show_line Str); try done. by apply renders_string.
  - assert (cstr w.(umem) data l) as Hc'.
    { eapply cstr_ext; [|exact Hc]. intros x Hx. symmetry. apply Hk. destruct Hu; lia. }
    rewrite length_app in Hf. cbn [length] in Hf.
    eapply from_mem_bind; [apply strlen_correct; [exact Hc'|lia]|].
    apply (show_line Str); try done; [constructor; try done; destruct Hu; lia|rewrite length_app; cbn; lia].
  - unfold Memdump.dump_item. unfold chars in Hc. cbn in Hc. rewrite !not_elem_of_cons in Hc.
    destruct Hc as (H1 & H2 & H3 & H4 & H5 & H6 & _).
    rewrite !(proj2 (Z.eqb_neq _ _)) by assumption. apply wpx_ret. split; [done|]. split; [apply printed_nil|done].
Qed.

Lemma memdump_loop_spec k fmt s data text w :
  dumps m s data text -> cstr m fmt s -> undisturbed fmt (Z.of_nat (length s) + 1) -> kept w -> writable w.(usys) 1 ->
  (length s < k)%nat -> (length text < fuel)%nat ->
  wpx B (Memdump.memdump_loop k fmt data) (fun _ w' => printed 1 text w w' /\ kept w') w.
Proof.
  intros Hd. revert k fmt w. induction Hd as [data|c s data n t1 t2 Hi Hd IH]; intros k fmt w Hc Hu Hk Hw Hlen Hf;
    (destruct k as [|k]; [cbn [length] in Hlen; lia|]); cbn [length] in *; cbn [Memdump.memdump_loop]; apply wpx_bind, wpx_gets;
    rewrite (kept_agree w _ _ Hk Hu) by lia.
  - apply cstr_nil in Hc. rewrite Hc. apply wpx_ret. split; [apply printed_nil|done].
  - apply cstr_cons in Hc as (E & Hz & Hc). rewrite E, (proj2 (Z.eqb_neq _ _) Hz). cbn [negb]. rewrite length_app in Hf.
    eapply wpx_call; [apply (dump_item_spec c data t1 n); (done || lia)|]. intros r w1 (-> & Hp1 & Hk1).
    eapply wpx_mono; [apply IH; try done; [destruct Hu; [left|right]; lia|by eapply printed_writable|lia|lia]|].
    intros [] w2 [Hp2 Hk2]. split; [by eapply printed_trans|done].
Qed.
End proof.

(** C35: [memdump] prints, for each character of its format, one line for
    the data at the current position and moves on by the size of that data;
    characters that are no format are skipped.  It ends, and changes no byte
    of memory but the local of [putc].  A pointer ([p]) is printed from the
    low 32 bits of its value only. *)
Theorem memdump_correct {OS} `{K : Kernel OS, !Streams OS, Slots, Fuel} fmt s data text w :
  dumps w.(umem) s data text -> cstr w.(umem) fmt s -> undisturbed fmt (Z.of_nat (length s) + 1) -> writable w.(usys) 1 ->
  (length s < fuel)%nat -> (length text < fuel)%nat ->
  wp (Memdump.memdump fmt data) (fun _ w' => output w'.(usys) 1 = output w.(usys) 1 ++ text /\
    forall x, x <> putc_c -> mget w'.(umem) x = mget w.(umem) x) w.
Proof.
  intros Hd Hc Hu Hw Hl Hf. eapply wpx_mono; [by apply (memdump_loop_spec _ w.(umem) fuel fmt s data text)|].
  intros [] w' [Hp Hk]. split; [apply Hp|exact Hk].
Qed.

#[local] Existing Instances demo_slots demo_fuel.

(** The format is "hcx", and so is the data. *)
Lemma memdump_correct_witness :
  let w := demo_user (chars "hcx") [] in
  exists w', Memdump.memdump 64 64 w = Ret tt w' /\ output w'.(usys) 1 = line "25448" ++ line "x".
Proof.
  intros w. assert (dumps w.(umem) (chars "hcx") 64 (line "25448" ++ line "x")) as Hd.
  { replace (line "25448" ++ line "x") with
      ((signed (s32 (le_load 2 w.(umem) 64)) ++ [NL]) ++ ([u8 (mget w.(umem) 66)] ++ [NL]) ++ [] ++ []) by (vm_compute; reflexivity).
    apply (dumps_cons _ (ch "h") _ _ 2); [apply item_half; left; vm_compute; done|].
    apply (dumps_cons _ (ch "c") _ _ 1); [apply item_char; left; vm_compute; done|].
    apply (dumps_cons _ (ch "x") _ _ 0); [|constructor]. apply item_other. by apply (bool_decide_unpack (ch "x" ∉ _)). }
  destruct (fun a b c d e f => wp_run _ _ _ (memdump_correct 64 (chars "hcx") 64 (line "25448" ++ line "x") w a b c d e f)) as ([] & w' & E & Ho & _).
  - exact Hd.
  - apply demo_cstr. by repeat constructor.
  - left. vm_compute. done.
  - done.
  - vm_compute. lia.
  - vm_compute. lia.
  - exists w'. split; [exact E|]. exact Ho.
Defined.

(** The static buffer of logstress has [BUFSZ] bytes, but [SZ] are set: the
    bytes after it are overwritten. *)
Lemma logstress_overruns_buf {OS} `{Kernel OS} buf i (w : user OS) x :
  buf + Logstress.BUFSZ <= x < buf + Logstress.SZ ->
  wp (Logstress.fill_buf buf i) (fun _ w' => mget w'.(umem) x = u8 (ch "0" + Z.of_nat i)) w.
Proof.
  unfold Logstress.BUFSZ, Logstress.SZ. intros Hx. unfold Logstress.fill_buf, memset, Logstress.SZ. apply upd_bind, wpx_ret.
  cbn [umem]. unfold umemset. rewrite mget_memset_loop, decide_True by lia. done.
Qed.
