(* ===== verification/Grind.v ===== *)
(** * user/grind.c: random system calls

    The program, and the arithmetic of its random numbers: [do_rand] is the
    generator of Park and Miller, computed without large products.  The
    loops without an end have the fuel of the library; [rand_next] is the
    address of the static variable, the other addresses are those of the
    locals. *)

From S2P Require Import Prelude Memory CString Riscv Fs Sysfile User Ulib Uprintf Utils Programs.

(** [*ctx] before, and after; the value returned is the low half of it. *)
Definition do_rand (ctx : Z) : Z :=
  let x := ctx mod 0x7ffffffe + 1 in
  let hi := Z.quot x 127773 in
  let lo := Z.rem x 127773 in
  let x := 16807 * lo - 2836 * hi in
  let x := if x <? 0 then x + 0x7fffffff else x in
  x - 1.

Section grind.
Context {OS : Type} `{Kernel OS, Slots, Fuel, Literals}.
Context (rand_next buf fds cc stp aa bb args1 args2 buf4 st1 st2 : Z).

Definition rand : U OS Z :=
  ctx ← ld64 rand_next;
  st64 rand_next (do_rand ctx);;
  mret (s32 (do_rand ctx)).

(** A message and the end of the program. *)
Definition quit {A} (fd : Z) (fmt : list Z) (args : list Z) (status : Z) : U OS A :=
  fprintf fd fmt args;; exit status.

Definition path (s : string) : Z := lit (chars s).
Definition creat (s : string) : U OS Z := open (path s) (Z.lor O_CREATE O_RDWR).
Definition touch (s : string) : U OS unit := fd ← creat s; close fd;; mret tt.
Definition rm (s : string) : U OS unit := unlink (path s);; mret tt.
Definition cd (s : string) : U OS unit := chdir (path s);; mret tt.
Definition md (s : string) : U OS unit := mkdir (path s);; mret tt.
Definition into_grindir : U OS unit :=
  r ← chdir (path "grindir");
  if negb (r =? 0) then quit 1 (line "grind: chdir grindir failed") [] 1 else mret tt.

(** [int pid = fork(); if(pid == 0) child else if(pid < 0) fail]; the child
    does not come back. *)
Definition with_child (child : U OS unit) (fail : U OS unit) : U OS Z :=
  pid ← fork;
  (if pid =? 0 then child else if pid <? 0 then fail else mret tt);;
  mret pid.
Definition fork_failed : U OS unit := quit 1 (line "grind: fork failed") [] 1.
Definition join : U OS unit := wait 0;; mret tt.

(** The descriptors of a pipe. *)
Definition fd_of (p : Z) (i : Z) : U OS Z := v ← ld32 (p + 4 * i); mret (s32 v).
Definition close_fd (p : Z) (i : Z) : U OS unit := fd ← fd_of p i; close fd;; mret tt.

(** [what == 19] *)
Definition pipe_race : U OS unit :=
  r ← pipe fds;
  (if r <? 0 then quit 1 (line "grind: pipe failed") [] 1 else mret tt);;
  with_child
    (fork;;
     fork;;
     w ← fd_of fds 1;
     r ← write w (lit [ch "x"]) 1;
     when (negb (r =? 1)) (printf (line "grind: pipe write failed") []);;
     d ← fd_of fds 0;
     r ← read d cc 1;
     when (negb (r =? 1)) (printf (line "grind: pipe read failed") []);;
     exit 0)
    fork_failed;;
  close_fd fds 0;;
  close_fd fds 1;;
  join.

(** [what == 21] *)
Definition check_create : U OS unit :=
  rm "c";;
  fd1 ← creat "c";
  if fd1 <? 0 then quit 1 (line "grind: create c failed") [] 1
  else
    r ← write fd1 (lit [ch "x"]) 1;
    if negb (r =? 1) then quit 1 (line "grind: write c failed") [] 1
    else
      r ← fstat fd1 stp;
      if negb (r =? 0) then quit 1 (line "grind: fstat failed") [] 1
      else
        size ← st_size stp;
        if negb (size =? 1) then quit 1 (line "grind: fstat reports wrong size %d") [s32 size] 1
        else
          ino ← st_ino stp;
          if 200 <? ino then quit 1 (line "grind: fstat reports crazy i-number %d") [ino] 1
          else
            close fd1;;
            rm "c".

(** [if(dup(fd) != n)] *)
Definition dup_as (fd n status : Z) : U OS unit :=
  r ← dup fd;
  if negb (r =? n) then quit 2 (line "grind: dup failed") [] status else mret tt.

Definition echo_child : U OS unit :=
  close_fd bb 0;;
  close_fd bb 1;;
  close_fd aa 0;;
  close 1;;
  w ← fd_of aa 1;
  dup_as w 1 1;;
  close_fd aa 1;;
  st64 args1 (path "echo");;
  st64 (args1 + 8) (path "hi");;
  st64 (args1 + 16) 0;;
  exec (path "grindir/../echo") args1;;
  quit 2 (line "grind: echo: not found") [] 2.

Definition cat_child : U OS unit :=
  close_fd aa 1;;
  close_fd bb 0;;
  close 0;;
  d ← fd_of aa 0;
  dup_as d 0 4;;
  close_fd aa 0;;
  close 1;;
  w ← fd_of bb 1;
  dup_as w 1 5;;
  close_fd bb 1;;
  st64 args2 (path "cat");;
  st64 (args2 + 8) 0;;
  exec (path "/cat") args2;;
  quit 2 (line "grind: cat: not found") [] 6.

(** [what == 22]: echo hi | cat *)
Definition pipeline : U OS unit :=
  r ← pipe aa;
  (if r <? 0 then quit 2 (line "grind: pipe failed") [] 1 else mret tt);;
  r ← pipe bb;
  (if r <? 0 then quit 2 (line "grind: pipe failed") [] 1 else mret tt);;
  with_child echo_child (quit 2 (line "grind: fork failed") [] 3);;
  with_child cat_child (quit 2 (line "grind: fork failed") [] 7);;
  close_fd aa 0;;
  close_fd aa 1;;
  close_fd bb 1;;
  st32 buf4 0;;
  d ← fd_of bb 0;
  read d buf4 1;;
  d ← fd_of bb 0;
  read d (buf4 + 1) 1;;
  d ← fd_of bb 0;
  read d (buf4 + 2) 1;;
  close_fd bb 0;;
  wait st1;;
  wait st2;;
  v1 ← ld32 st1;
  v2 ← ld32 st2;
  let bad := quit 1 (chars "grind: exec pipeline failed %d %d " ++ [34] ++ chars "%s" ++ [34; NL]) [s32 v1; s32 v2; buf4] 1 in
  if negb (s32 v1 =? 0) then bad
  else if negb (s32 v2 =? 0) then bad
  else
    d ← strcmp buf4 (lit (line "hi"));
    if negb (d =? 0) then bad else mret tt.

(** One turn of the loop of [go]: the new [fd]. *)
Definition grind_step (break0 what fd : Z) : U OS Z :=
  let same (m : U OS unit) : U OS Z := m;; mret fd in
  if what =? 1 then same (touch "grindir/../a")
  else if what =? 2 then same (touch "grindir/../grindir/../b")
  else if what =? 3 then same (rm "grindir/../a")
  else if what =? 4 then same (into_grindir;; rm "../b";; cd "/")
  else if what =? 5 then close fd;; creat "/grindir/../a"
  else if what =? 6 then close fd;; creat "/./grindir/./../b"
  else if what =? 7 then same (write fd buf 999;; mret tt)
  else if what =? 8 then same (read fd buf 999;; mret tt)
  else if what =? 9 then same (md "grindir/../a";; touch "a/../a/./a";; rm "a/a")
  else if what =? 10 then same (md "/../b";; touch "grindir/../b/b";; rm "b/b")
  else if what =? 11 then same (rm "b";; link (path "../grindir/./../a") (path "../b");; mret tt)
  else if what =? 12 then same (rm "../grindir/../a";; link (path ".././b") (path "/grindir/../a");; mret tt)
  else if what =? 13 then same (with_child (exit 0) fork_failed;; join)
  else if what =? 14 then same (with_child (fork;; fork;; exit 0) fork_failed;; join)
  else if what =? 15 then same (sbrk 6011;; mret tt)
  else if what =? 16 then
    same (b ← sbrk 0; if break0 <? b then b ← sbrk 0; sbrk (s32 (- (b - break0)));; mret tt else mret tt)
  else if what =? 17 then
    same (pid ← with_child (touch "a";; exit 0) fork_failed;
          r ← chdir (path "../grindir/..");
          (if negb (r =? 0) then quit 1 (line "grind: chdir failed") [] 1 else mret tt);;
          kill pid;;
          join)
  else if what =? 18 then same (with_child (me ← getpid; kill me;; exit 0) fork_failed;; join)
  else if what =? 19 then same pipe_race
  else if what =? 20 then
    same (with_child (rm "a";; md "a";; cd "a";; rm "../a";; creat "x";; rm "x";; exit 0) fork_failed;; join)
  else if what =? 21 then same check_create
  else if what =? 22 then same pipeline
  else mret fd.

Fixpoint go_loop (k : nat) (which_child break0 iters fd : Z) : U OS unit :=
  match k with
  | O => no_fuel
  | S k =>
      let iters := u64 (iters + 1) in
      when (iters mod 500 =? 0) (write 1 (if negb (which_child =? 0) then lit [ch "B"] else lit [ch "A"]) 1;; mret tt);;
      r ← rand;
      fd ← grind_step break0 (Z.rem r 23) fd;
      go_loop k which_child break0 iters fd
  end.

Definition go (which_child : Z) : U OS unit :=
  break0 ← sbrk 0;
  md "grindir";;
  into_grindir;;
  cd "/";;
  go_loop fuel which_child break0 0 (-1).

(** A child that runs [go]. *)
Definition grinder (seed which_child : Z) : U OS unit :=
  v ← ld64 rand_next;
  st64 rand_next (Z.lxor v seed);;
  go which_child;;
  exit 0.

Definition iter : U OS unit :=
  rm "a";;
  rm "b";;
  pid1 ← fork;
  (if pid1 <? 0 then fork_failed else when (pid1 =? 0) (grinder 31 0));;
  pid2 ← fork;
  (if pid2 <? 0 then fork_failed else when (pid2 =? 0) (grinder 7177 1));;
  st32 st1 (-1);;
  wait st1;;
  v ← ld32 st1;
  when (negb (s32 v =? 0)) (kill pid1;; kill pid2;; mret tt);;
  st32 st2 (-1);;
  wait st2;;
  exit 0.

Fixpoint main_loop (k : nat) : U OS Z :=
  match k with
  | O => no_fuel
  | S k =>
      pid ← fork;
      when (pid =? 0) (iter;; exit 0);;
      when (0 <? pid) join;;
      pause 20;;
      v ← ld64 rand_next;
      st64 rand_next (u64 (v + 1));;
      main_loop k
  end.

Definition main : U OS Z := main_loop fuel.
End grind.


(** ** The generator *)

(** Neither 0 nor the modulus is reached. *)
Lemma schrage_nonzero hi lo :
  0 <= lo < 127773 -> 0 <= hi -> 0 < 127773 * hi + lo < 2147483647 -> 16807 * lo <> 2836 * hi.
Proof.
  intros Hlo Hhi Hx E. assert (Z.divide 16807 hi) as [t ->].
  { apply (Z.gauss 16807 2836); [|done]. exists lo. lia. }
  assert (t = 0 \/ 1 <= t) as [->|Ht] by lia; lia.
Qed.

(** C36: [do_rand] is the generator of Park and Miller: from a context that
    stands for [x] in 1, ..., 2^31 - 2 it makes the one that stands for
    [7^5 * x mod (2^31 - 1)], and every product on the way fits in 31 bits
    and a sign.  The new context is a possible context again. *)
Theorem do_rand_correct ctx :
  let x := ctx mod 0x7ffffffe + 1 in
  do_rand ctx + 1 = (7 ^ 5 * x) mod (2 ^ 31 - 1) /\ 0 <= do_rand ctx <= 0x7ffffffd /\
  0 <= 16807 * Z.rem x 127773 < 2 ^ 31 /\ 0 <= 2836 * Z.quot x 127773 < 2 ^ 31.
Proof.
  intros x. pose proof (Z.mod_pos_bound ctx 0x7ffffffe ltac:(done)) as Hc. assert (1 <= x <= 2147483646) as Hx by lia.
  unfold do_rand. fold x. rewrite Z.quot_div_nonneg, Z.rem_mod_nonneg by lia.
  pose proof (Z.div_mod x 127773 ltac:(done)) as Ex. pose proof (Z.mod_pos_bound x 127773 ltac:(done)) as Hlo.
  set (hi := x / 127773) in *. set (lo := x mod 127773) in *. clearbody hi lo x.
  pose proof (schrage_nonzero hi lo Hlo ltac:(lia) ltac:(lia)) as Hnz.
  change (7 ^ 5) with 16807. change (2 ^ 31 - 1) with 2147483647. change (2 ^ 31) with 2147483648.
  set (y := 16807 * lo - 2836 * hi). assert (16807 * x = y + hi * 2147483647) as -> by lia. rewrite Z.mod_add by done.
  destruct (Z.ltb_spec y 0) as [Hy|Hy].
  - split; [|lia]. rewrite <-(Z.mod_add y 1) by done. rewrite Z.mod_small; lia.
  - split; [|lia]. rewrite Z.mod_small; lia.
Qed.
